(* ===== verification/_CoqProject ===== *)
-Q . S2P
Prelude.v
TimeValue.v
TimerHeap.v
TimerQueue.v
TimerThread.v
HandleSet.v
SelectReactor.v
EventLoop.v
Block.v
MessageBlock.v
MessageQueue.v
OutputStream.v
InputStream.v
Marshalling.v
Socket.v
Framing.v
MsgProtocol.v
Receiver.v
IcmProtocol.v
CppLib.v
Properties.v
Servants.v
Transport.v
References.v
Invocation.v
Rpc.v
Server.v
TopicManager.v
Configuration.v
Log.v
Threads.v
PubSub.v
QueryState.v
Broker.v
SubscribeClient.v
PointToPoint.v
PublishClient.v
