(* ===== verification/Prelude.v ===== *)
(** * ICM / ICC: a verification library for the communication framework

    The program (src/icm-1.1) is a C++ middleware in three layers:

    - icc/ and os/: an event framework: time values, timer queues, message
      blocks, socket streams, reactors;
    - icm/: remote invocation over it: CDR streams (marshalling), the protocol
      of requests and replies, transports, object adapters, proxies;
    - msg/: a publish/subscribe broker over the same streams: the message
      protocol, topic manager, publisher and subscriber handlers.

    This library models the parts that carry data and time through the
    program, at the level of the C++ statements, and proves what makes them
    correct.  A function of the code is a function here.  State is passed
    explicitly.  A call that can fail an assertion, leave the bounds of an
    array or use what was freed returns in the [result] monad of this file, so
    that a theorem that says a call is [Ok] says that none of this happens.
    Machine integers are [Z] with their wrap-around written out ([u32], [s32],
    [u64]); memory is a list of bytes with bounds-checked [load] and [store].

    ** Files

    - [Prelude] (this file): faults and the [result] monad, machine integers,
      byte order, arrays, the tactics ([inv_ok], [b2p], [split_if], [dlia],
      [len_lia]) and the hint bases ([lens], [bytes]).
    - [TimeValue]: icc/TimeValue.cpp.  [normalize], [set], comparison and
      arithmetic operators, milliseconds.  Theorems: results are in canonical
      form, whatever overflows; on canonical values the operators are those of
      integers counting microseconds, modulo 2^64 seconds.
    - [TimerHeap]: icc/TimerHeap.cpp without upcalls.  The heap is a [gmap]
      from slots to nodes, [mTimerIds] a list in which a negative entry codes
      the free list.  Every function of the class: free list, [copy],
      [reheapUp], [reheapDown], [remove], [insert], [growHeap], [scheduleI],
      [reschedule], [resetInterval], iterator.  The invariant [inv] joins heap
      order, the two-way link of slots and ids, and the accounting of live,
      limbo and free ids.
    - [TimerQueue]: icc/TimerQueue.cpp, and what of icc/TimerHeap.cpp calls
      handlers: [cancel], [expire], destruction, [calculateTimeout].  Handlers
      are the class [EventHandlers] (they may call the queue back);
      [LawfulHandlers] states what they may do to it.  Theorems: scheduling
      adds exactly one timer; cancelling removes exactly the timers asked for;
      [expire] fires the due timers, in order, and re-arms periodic ones;
      upcalls keep the invariant; the time-out handed to [select] is right.
    - [TimerThread]: icc/TimerQueueAdapter.cpp.  A queue with a thread of its own
      that sleeps until its earliest timer, as a sequence of the steps between
      which the mutex changes hands.  Theorem: it never sleeps past a timer,
      whoever schedules and cancels meanwhile.
    - [HandleSet]: icc/HandleSet.cpp.  The bit sets given to [select], with their
      count and maximum, and the iterator, on words of 32 and of 64 bits.
      Theorems: a handle set is a finite set and iteration lists it in order.
    - [SelectReactor]: icc/SelectReactor.cpp.  Registration, the wait in
      [select], the dispatch of timers and of ready handles.  Handlers are the
      class [ReactorHandlers] (they may call the reactor back), the system the
      class [Kernel]; [LawfulSelect] states what the manual says of [select].
      Theorems: registration is exact; every ready handle is served exactly
      once; where the reactor never returns.
    - [EventLoop]: a turn of that loop whose handler calls the reactor back, as
      an acceptor does.
    - [Block]: icc/MessageBlock.cpp as the streams use it: one buffer with a
      read and a write offset, [copy], [crunch], [size], [reset].
    - [MessageBlock]: the whole of icc/MessageBlock.cpp on a heap of message
      blocks, data blocks and character arrays: construction, duplicates,
      clones, chains, reference counts.  Theorem: over any history the blocks
      are the views of shared buffers a small model says, nothing is freed too
      early, and what is not given back is counted.
    - [MessageQueue]: icc/MessageQueue.cpp on that heap.  The list under the
      mutex, and the threads as a monitor whose steps are calls, runs, signals,
      time-outs.  Theorems: a bounded first-in first-out queue under every
      interleaving; no wake-up is lost.
    - [OutputStream], [InputStream]: icm/IcmStream.cpp.  All writers and
      readers (scalars, arrays, sequences, strings, wide strings), the growth
      of the chain of blocks, constructors, [consolidate], [grow], [skip_*],
      the append operations.  The byte order of the host is the class [Host],
      fresh memory the class [Allocator], locals without initialiser the class
      [Uninit]: theorems hold for every instance.
    - [Marshalling]: sequences of typed values through both streams.  Theorems:
      round trip, wire format, short reads, and the limits of the code.
    - [Socket]: icc/SocketStream.cpp.  The kernel is a list of what successive
      system calls return, bytes or stalls; [flows] is a socket that blocks,
      [paced] one that does not, with the places where it may stall; [recv_n] is
      the code's loop.  Theorems: it returns,
      and it reassembles any fragmentation.
    - [Framing]: the header both protocols share.
    - [MsgProtocol]: msg/MsgProtocol.cpp and msg/Msg.h.  Theorems: messages
      arrive whole, in order, with their fields, however the bytes are cut;
      what [send] puts on the wire is what [parse] takes; where [parse] and
      [send] do less than that.
    - [Receiver]: what the upcalls that read messages share: a message is
      resumed over any number of upcalls.
    - [IcmProtocol]: icm/IcmProtocol.cpp, icm/ServerRequest.cpp,
      icm/Identity.cpp.  Theorems: a request and a reply arrive as they were
      made, through fragments and stalls; a truncated header is an error.
    - [CppLib]: what the broker uses of the C++ library: iteration over
      [std::set] and [std::map] in the order of the keys, [operator[]], text
      streams.
    - [Properties]: icc/Properties.cpp.  Theorem: a saved table is loaded again.
    - [Servants]: icm/ServantManager.cpp, icm/ObjectAdapter.cpp.  The table of
      servants and of locators; [registered] is what a history of calls leaves.
    - [Transport]: icm/Pluggable.cpp, icm/TcpTransport.cpp,
      icm/TcpConnection.cpp, the reply dispatchers (icm/ReplyDispatcher.cpp), the
      two strategies of icm/TransportMuxStrategy.cpp, the response handler of
      asynchronous servants (icm/AmhResponseHandler.cpp), and the parts of icm/IcmProtocol.cpp that call servants.  [World]
      is one process: its transports, dispatchers, allocated message states,
      application state.  The application (servants, reply handlers) is the
      class [Application].
    - [References]: icc/InetAddr.cpp, icm/Endpoint.cpp,
      icm/TransportCacheManager.cpp, icm/Reference.cpp, icm/Proxy.cpp.  The
      resolver of names is the class [Resolver].  Theorems: an address and a
      proxy come back from their text and their bytes.
    - [Invocation]: icm/Invocation.cpp, the connectors, and what a generated
      stub does with them: two-way, one-way and asynchronous calls.
    - [Rpc]: two processes over a connection.  Theorems: a remote call is a local
      one, however the bytes are cut; replies may come in any order; request
      ids are distinct; what the server does with unknown objects; where a late
      response uses a deleted transport.
    - [Server]: the process around the transports: icc/SocketAcceptor.cpp,
      icc/Acceptor.cpp, icm/TcpAcceptor.cpp, the registry of acceptors of
      icm/ResourceFactory.cpp, and what icm/Communicator.cpp does with it.  The
      sockets are the class [Net], [LawfulNet] what the manuals say of them.
      Acceptors and connections are the handlers of the reactor.  Theorems: an
      endpoint is started and stopped without a trace; a connection is accepted
      and its request answered by two turns of the event loop; which endpoints
      cannot be stopped, and what leaks.
    - [TopicManager]: msg/TopicManager.cpp.  The tables of subscriptions and of
      queued messages, with and without buffering, every function of the class,
      and the destructor of a subscriber's handler.  [Broker], the state of the
      process, has the allocated messages and handlers, so that following a
      pointer to a deleted object is a fault.  The invariant [inv] links the
      tables with each other and with what is allocated.
    - [Configuration]: icc/Configuration.cpp with its line buffer, and what
      msg/MsgBrokerI.cpp takes from the file.  Theorems: every query is answered
      by the first entry of the first section of that name; the broker starts
      with the numbers of its file; where lines make it leave the buffer.
    - [Log]: icc/Log.cpp, and how msg/MsgBrokerI.cpp opens it.  The messages the
      threads put together, levels, and the ring of files.  Theorem: in every
      interleaving the files are the last volumes of the lines that were
      finished; where a message leaves its buffer or lines are lost.
    - [Threads]: icc/ThreadManager.cpp and icc/Thread.cpp.  The lists of threads,
      their creation and end, and [wait], as steps of the threads.  Theorem:
      [wait] returns when none is left, and joins each once; where it never
      returns, or uses what it has deleted.
    - [PubSub]: the abstract publish/subscribe broker and the theorems that the
      manager refines it in both modes; queries; the file SubscriptionInfo and
      the restart; what the tables keep too long.
    - [QueryState]: msg/MsgBroker.cpp, the interface the Slice compiler made for
      the broker: structures, texts, marshalling, skeleton and proxy; and its
      servant in msg/MsgBrokerI.cpp.  Theorem: a remote query is answered from
      the manager's tables.
    - [Broker]: msg/SubscriberProxy.cpp, msg/PublisherProxy.cpp.  [handleInput]
      and [handleOutput] over the protocol, the streams and the manager.
      Theorems: an event reaches its subscribers as the bytes it came as;
      [handleOutput] delivers or keeps; a subscription is served; where the
      handlers abort or follow dangling pointers.
    - [SubscribeClient]: msg/SubscribeClient.cpp.  The topics a client wants, its
      requests and the answers, keep-alive, and the loop that connects again.
      Theorems: a subscription is established, from the client through the
      broker and back; nothing subscribed is forgotten with a connection; a dead
      peer is found; where the client aborts.
    - [PointToPoint]: msg/MsgClient.cpp and msg/MsgServer.cpp, a client and a
      server that send each other events without a broker.  Theorems: events
      cross in both directions; a server that lives is not suspected, one that
      does not is given up and connected to again; where the server follows the
      wrong handler.
    - [PublishClient]: msg/PublishClient.cpp.  [publish], the file that holds
      what cannot be sent, and the thread [svc] as a sequence of the steps that
      hold the mutex, interleaved with the application's calls.  Theorems: what
      is published in an outage arrives, in order, once the connection is back;
      nothing stays in the file on a good connection; where messages are lost,
      overtaken, or a race aborts the client.

    ** Bounds

    Loops that are not structural have fuel.  [carry_up], [carry_down]: the
    number of seconds in the microseconds field.  Sums of times are exact within
    [AGE], 2^60 seconds ([TimeValue]); beyond it they wrap around.  [reheapUp], [reheapDown]:
    the height is at most the number of slots.  [scan_ids], [cancel_loop]: the
    size of the tables.  [expire]: its theorem gives the number of turns that
    is enough (the due timers) for handlers that do not schedule.
    [first_size]: seven doublings and one step per 64K.  [adjust]: one turn
    per block of the chain.  [recv_n]: one turn per event of the kernel.
    [load_topics]: one turn per topic of the file, and one to see its end.
    [pub_upcalls], [sub_upcalls]: one upcall per byte that is to come;
    [input_upcalls], [handler_svc]: one turn per message.  [chain_fuel]: the
    message blocks allocated, which bounds a chain.  [try_connect],
    [pc_try_connect], [mc_try_connect]: one turn per attempt to connect that the kernel answers.
    [flush_loop], [open_loop], [load_loop]: the bytes of the file.
    [trim_back]: the line buffer.
    [top_bit], [first_bit], [next_bit]: the bits of a word; [first_word],
    [next_word]: the words of a set; [dispatch_set_loop]: the handles of a set;
    [dispatch], [select_loop]: no turn beyond the first.  For each of them the
    theorems conclude [Ok], so the fuel is enough; a theorem that some call
    never returns concludes [OutOfFuel] for every fuel.
    [os_limit], 65000 bytes, is the size up to which the growth rule of
    [OutputStream] cannot reach the assertion [newsize <= 100000]; the theorem
    [large_write_aborts] shows what happens from 65528 bytes on.

    ** Not modelled

    Threads and locks, but for the publisher's thread, the message queue, the log,
    the thread manager and the timer thread; [UnboundedQueue], [BasicStream] and
    [DevPollReactor], which no makefile builds (the last does not parse), and the
    proactor; the Windows variants; os/ (wrappers of the C library); the
    wait strategy [WaitOnReactor], which nothing creates; transport listeners;
    the accessors of the communicator; the main program of the broker beyond its
    configuration, its log and its remote interface; the Slice compiler and the
    other sources it generates; vendored IceUtil and icecpp; the Java client.
    Signed arithmetic that overflows wraps around, as compilers make it, though
    the language leaves it open.  In the broker the clock is read once per upcall, and the bytes a message
    holds are its own (the code's blocks are not shared there).

    ** Plan

    The parts that carry the program's data are here.  What could follow are the
    listeners of transports, and threads other than those above (the
    proactor's, and several clients in one process). *)
From Stdlib Require Export ZArith Lia ZifyNat.
From stdpp Require Export base numbers gmap list.

#[global] Open Scope Z_scope.

(** ** Notation

    Sizes in the code are machine integers: [#l] is the length of [l] as one. *)
Declare Scope icm_scope.
Delimit Scope icm_scope with icm.
Notation "# l" := (Z.of_nat (length l)) (at level 1, l at level 0, format "# l") : icm_scope.
#[global] Open Scope icm_scope.

(** ** Faults

    What a C++ statement can do besides returning: an [assert] that fails,
    an access outside an allocated array, the use of a released object, the
    dereference of a null pointer, the decrement of a zero [size_t] counter
    (which C++ wraps, silently).  [OutOfFuel] is the answer of a bounded
    model of a loop whose bound was too small; the development proves for
    each such loop that it does not occur, or, where the loop of the code does
    not end, that no bound is enough. *)
Inductive fault :=
  | AssertFailed
  | OutOfBounds
  | UseAfterFree
  | NullDeref
  | Underflow
  | OutOfFuel.

#[export] Instance fault_eq_dec : EqDecision fault.
Proof. solve_decision. Defined.

Inductive result (A : Type) :=
  | Ok (a : A)
  | Fault (e : fault).
Arguments Ok {A} _.
Arguments Fault {A} _.

#[export] Instance result_ret : MRet result := λ A a, Ok a.
#[export] Instance result_bind : MBind result := λ A B f m,
  match m with Ok a => f a | Fault e => Fault e end.

#[export] Instance result_eq_dec `{EqDecision A} : EqDecision (result A).
Proof. solve_decision. Defined.

Definition assert_ (b : bool) : result unit := if b then Ok tt else Fault AssertFailed.

Lemma bind_Ok {A B} (f : A → result B) a : (Ok a ≫= f) = f a.
Proof. reflexivity. Qed.

Lemma bind_Fault {A B} (f : A → result B) e : (Fault e ≫= f) = Fault e.
Proof. reflexivity. Qed.

Lemma bind_inv {A B} (m : result A) (f : A → result B) b :
  (m ≫= f) = Ok b → ∃ a, m = Ok a ∧ f a = Ok b.
Proof. destruct m; [by eauto | done]. Qed.

(** [assert_inv] turns a guard of the code into the fact it checks. *)
Lemma assert_inv b u : assert_ b = Ok u → b = true.
Proof. by destruct b. Qed.

(** Take apart a hypothesis that says a sequence of statements returned. *)
Ltac inv_ok :=
  repeat match goal with
  | H : Ok _ = Ok _ |- _ => apply (f_equal (λ r, match r with Ok a => Some a | _ => None end)) in H;
      cbn in H; simplify_eq
  | H : Fault _ = Ok _ |- _ => discriminate H
  | H : Ok _ = Fault _ |- _ => discriminate H
  | H : mbind _ _ = Ok _ |- _ => apply bind_inv in H; destruct H as (? & ? & H)
  | H : assert_ _ = Ok _ |- _ => apply assert_inv in H
  end.

(** Boolean tests of the code as propositions. *)
Ltac b2p :=
  repeat match goal with
  | H : (_ && _)%bool = true |- _ => apply andb_prop in H; destruct H
  | H : (_ || _)%bool = false |- _ => apply orb_false_elim in H; destruct H
  | H : negb _ = true |- _ => apply negb_true_iff in H
  | H : negb _ = false |- _ => apply negb_false_iff in H
  | H : (_ <? _) = true |- _ => apply Z.ltb_lt in H
  | H : (_ <? _) = false |- _ => apply Z.ltb_ge in H
  | H : (_ <=? _) = true |- _ => apply Z.leb_le in H
  | H : (_ <=? _) = false |- _ => apply Z.leb_gt in H
  | H : (_ =? _) = true |- _ => apply Z.eqb_eq in H
  | H : (_ =? _) = false |- _ => apply Z.eqb_neq in H
  | H : (_ <? _)%nat = true |- _ => apply Nat.ltb_lt in H
  | H : (_ <? _)%nat = false |- _ => apply Nat.ltb_ge in H
  | H : (_ <=? _)%nat = true |- _ => apply Nat.leb_le in H
  | H : (_ <=? _)%nat = false |- _ => apply Nat.leb_gt in H
  | H : (_ =? _)%nat = true |- _ => apply Nat.eqb_eq in H
  | H : (_ =? _)%nat = false |- _ => apply Nat.eqb_neq in H
  end.

(** A false conjunction of tests, one case per test. *)
Ltac split_andb :=
  repeat match goal with
  | H : (_ && _)%bool = false |- _ => apply andb_false_iff in H; destruct H
  end; b2p.

(** [lia] in the presence of division and remainder by constants. *)
Ltac dlia := zify; Z.to_euclidean_division_equations; lia.

(** Case split on the test of the [if] in the goal and read it as a proposition. *)
Ltac split_if :=
  match goal with
  | |- context [if ?b then _ else _] => destruct b eqn:?; b2p
  end.

(** ** Machine integers *)

Definition wrap (bits x : Z) : Z := x mod 2 ^ bits.
Definition swrap (bits x : Z) : Z := (x + 2 ^ (bits - 1)) mod 2 ^ bits - 2 ^ (bits - 1).

Abbreviation u8 := (wrap 8).
Abbreviation u16 := (wrap 16).
Abbreviation u32 := (wrap 32).
Abbreviation u64 := (wrap 64).
Abbreviation s32 := (swrap 32).
Abbreviation s64 := (swrap 64).

Definition in_u (bits x : Z) : Prop := 0 ≤ x < 2 ^ bits.
Definition in_s (bits x : Z) : Prop := - 2 ^ (bits - 1) ≤ x < 2 ^ (bits - 1).

Lemma wrap_small bits x : in_u bits x → wrap bits x = x.
Proof. intros. by apply Z.mod_small. Qed.

Lemma wrap_range bits x : 0 ≤ bits → in_u bits (wrap bits x).
Proof. intros. apply Z.mod_pos_bound. by apply Z.pow_pos_nonneg. Qed.

Lemma swrap_small bits x : 0 < bits → in_s bits x → swrap bits x = x.
Proof.
  intros Hb [Hl Hu]. unfold swrap.
  assert (2 ^ bits = 2 * 2 ^ (bits - 1)) as Hp.
  { rewrite <- Z.pow_succ_r by lia. f_equal. lia. }
  rewrite Z.mod_small; lia.
Qed.

Lemma wrap_swrap bits x : 0 < bits → wrap bits (swrap bits x) = wrap bits x.
Proof.
  intros Hb. unfold wrap, swrap.
  rewrite Zminus_mod_idemp_l. f_equal. lia.
Qed.

Lemma swrap_wrap bits x : 0 < bits → swrap bits (wrap bits x) = swrap bits x.
Proof. intros Hb. unfold wrap, swrap. by rewrite Zplus_mod_idemp_l. Qed.

Lemma swrap_range bits x : 0 < bits → in_s bits (swrap bits x).
Proof.
  intros Hb. unfold in_s, swrap. assert (2 ^ bits = 2 * 2 ^ (bits - 1)) as Hp.
  { rewrite <- Z.pow_succ_r by lia. f_equal. lia. }
  pose proof (Z.mod_pos_bound (x + 2 ^ (bits - 1)) (2 ^ bits) ltac:(lia)). lia.
Qed.

Lemma swrap_congr bits x : 0 < bits → ∃ k, swrap bits x = x + k * 2 ^ bits.
Proof.
  intros Hb. exists (- ((x + 2 ^ (bits - 1)) / 2 ^ bits)). unfold swrap. rewrite Z.mod_eq by (apply Z.pow_nonzero; lia). lia.
Qed.

(** ** Bytes and the memory image of an integer *)

Definition is_byte (b : Z) : Prop := 0 ≤ b < 256.
Definition bytes_ok (bs : list Z) : Prop := Forall is_byte bs.

#[export] Instance is_byte_dec b : Decision (is_byte b).
Proof. unfold is_byte. apply _. Defined.

(** The [n] low-order bytes of [x], least significant first. *)
Fixpoint le_bytes (n : nat) (x : Z) : list Z :=
  match n with
  | O => []
  | S n => x mod 256 :: le_bytes n (x / 256)
  end.

(** The number a little-endian byte string stands for. *)
Fixpoint le_value (bs : list Z) : Z :=
  match bs with
  | [] => 0
  | b :: bs => b + 256 * le_value bs
  end.

Definition be_bytes (n : nat) (x : Z) : list Z := reverse (le_bytes n x).
Definition be_value (bs : list Z) : Z := le_value (reverse bs).

Lemma length_le_bytes n x : length (le_bytes n x) = n.
Proof. revert x. induction n; intros; simpl; auto. Qed.

Lemma length_be_bytes n x : length (be_bytes n x) = n.
Proof. unfold be_bytes. by rewrite length_reverse, length_le_bytes. Qed.

Lemma le_bytes_ok n x : bytes_ok (le_bytes n x).
Proof.
  revert x. induction n as [|n IH]; intros; simpl; [by constructor|].
  constructor; [apply Z.mod_pos_bound; lia | apply IH].
Qed.

Lemma be_bytes_ok n x : bytes_ok (be_bytes n x).
Proof. apply Forall_reverse, le_bytes_ok. Qed.

Lemma le_value_le_bytes n x : le_value (le_bytes n x) = x mod 256 ^ Z.of_nat n.
Proof.
  revert x. induction n as [|n IH]; intros x; [by rewrite Z.mod_1_r|].
  simpl le_value. rewrite IH, Nat2Z.inj_succ, Z.pow_succ_r by lia.
  rewrite Z.rem_mul_r by (try apply Z.pow_pos_nonneg; lia). lia.
Qed.

Lemma le_bytes_le_value bs : bytes_ok bs → le_bytes (length bs) (le_value bs) = bs.
Proof.
  induction 1 as [|b bs Hb _ IH]; [done|]. simpl. unfold is_byte in Hb.
  rewrite (Z.mul_comm 256), Z.mod_add, Z.div_add by lia.
  rewrite Z.mod_small, Z.div_small by lia. by rewrite Z.add_0_l, IH.
Qed.

Lemma le_value_bound bs : bytes_ok bs → 0 ≤ le_value bs < 256 ^ #bs.
Proof.
  induction 1 as [|b bs Hb _ IH]; [simpl; lia|].
  cbn [le_value length]. rewrite Nat2Z.inj_succ, Z.pow_succ_r by lia.
  unfold is_byte in Hb. lia.
Qed.

Lemma be_value_be_bytes n x : be_value (be_bytes n x) = x mod 256 ^ Z.of_nat n.
Proof. unfold be_value, be_bytes. by rewrite reverse_involutive, le_value_le_bytes. Qed.

Lemma le_bytes_mod n x : le_bytes n (x mod 256 ^ Z.of_nat n) = le_bytes n x.
Proof.
  rewrite <- le_value_le_bytes. rewrite <- (length_le_bytes n x) at 1.
  apply le_bytes_le_value, le_bytes_ok.
Qed.

Lemma pow_256 n : 256 ^ Z.of_nat n = 2 ^ (8 * Z.of_nat n).
Proof. change 256 with (2 ^ 8). by rewrite <- Z.pow_mul_r by lia. Qed.

Lemma le_value_le_bytes_wrap n x : le_value (le_bytes n x) = wrap (8 * Z.of_nat n) x.
Proof. by rewrite le_value_le_bytes, pow_256. Qed.

(** ** Lists used as C arrays: slices read and written with bounds *)

(** [load off n m]: [n] consecutive bytes from index [off]. *)
Definition load (off n : Z) (m : list Z) : result (list Z) :=
  if (0 <=? off) && (0 <=? n) && (off + n <=? #m)
  then Ok (take (Z.to_nat n) (drop (Z.to_nat off) m))
  else Fault OutOfBounds.

(** [store off bs m]: overwrite the bytes from index [off] with [bs]. *)
Definition store (off : Z) (bs m : list Z) : result (list Z) :=
  if (0 <=? off) && (off + #bs <=? #m)
  then Ok (take (Z.to_nat off) m ++ bs ++ drop (Z.to_nat off + length bs) m)
  else Fault OutOfBounds.

(** The slice of [m] between two offsets, as a total function for statements. *)
Definition slice (lo hi : Z) (m : list Z) : list Z :=
  take (Z.to_nat (hi - lo)) (drop (Z.to_nat lo) m).

Lemma load_slice off n m :
  0 ≤ off → 0 ≤ n → off + n ≤ #m →
  load off n m = Ok (slice off (off + n) m).
Proof.
  intros. unfold load, slice. rewrite !(proj2 (Z.leb_le _ _)) by lia. simpl.
  by replace (off + n - off) with n by lia.
Qed.

Lemma load_inv off n m bs :
  load off n m = Ok bs →
  0 ≤ off ∧ 0 ≤ n ∧ off + n ≤ #m ∧ bs = slice off (off + n) m.
Proof.
  intros H. unfold load in H. destruct (_ && _) eqn:E in H; [|done]. b2p.
  unfold slice. replace (off + n - off) with n by lia.
  inv_ok. done.
Qed.

Lemma store_ok off bs m :
  0 ≤ off → off + #bs ≤ #m →
  ∃ m', store off bs m = Ok m' ∧ length m' = length m ∧
        slice off (off + #bs) m' = bs ∧
        (∀ lo hi, 0 ≤ lo ≤ hi → hi ≤ off → slice lo hi m' = slice lo hi m) ∧
        (∀ lo hi, off + #bs ≤ lo → slice lo hi m' = slice lo hi m).
Proof.
  intros Ho Hl. unfold store. rewrite !(proj2 (Z.leb_le _ _)) by lia. simpl.
  assert (Z.to_nat off ≤ length m)%nat as Hn by lia.
  assert (length (take (Z.to_nat off) m) = Z.to_nat off) as Ht.
  { rewrite length_take. lia. }
  eexists. split_and!; [done| | | |].
  - rewrite !length_app, length_drop, Ht. lia.
  - unfold slice. rewrite drop_app_length' by lia.
    replace (_ - off) with (#bs) by lia. rewrite Nat2Z.id.
    by rewrite take_app_length.
  - intros lo hi H1 H2. unfold slice.
    rewrite drop_app_le by lia. rewrite take_app_le; [|rewrite length_drop; lia].
    rewrite skipn_firstn_comm, take_take. f_equal. lia.
  - intros lo hi H1. unfold slice. f_equal.
    rewrite drop_app_ge by lia. rewrite Ht.
    rewrite drop_app_ge by lia. rewrite drop_drop. f_equal. lia.
Qed.

Lemma slice_app lo mid hi m :
  0 ≤ lo ≤ mid → mid ≤ hi → slice lo hi m = slice lo mid m ++ slice mid hi m.
Proof.
  intros [Hl Hm] Hh. unfold slice.
  replace (Z.to_nat (hi - lo)) with (Z.to_nat (mid - lo) + Z.to_nat (hi - mid))%nat by lia.
  rewrite <- (take_drop (Z.to_nat (mid - lo)) (drop (Z.to_nat lo) m)) at 1.
  destruct (decide (Z.to_nat (mid - lo) ≤ length (drop (Z.to_nat lo) m))%nat) as [E|E].
  - rewrite take_app_add'; [|rewrite length_take; lia]. f_equal. f_equal.
    rewrite drop_drop. f_equal. lia.
  - rewrite length_drop in E.
    rewrite (take_ge (drop (Z.to_nat lo) m)) by (rewrite length_drop; lia).
    rewrite (drop_ge (drop (Z.to_nat lo) m)), app_nil_r by (rewrite length_drop; lia).
    rewrite take_ge by (rewrite length_drop; lia).
    rewrite (drop_ge m (Z.to_nat mid)) by lia. by rewrite take_nil, app_nil_r.
Qed.

Lemma length_slice lo hi m :
  0 ≤ lo ≤ hi → hi ≤ #m → #(slice lo hi m) = hi - lo.
Proof. intros. unfold slice. rewrite length_take, length_drop. lia. Qed.

Lemma slice_empty lo m : slice lo lo m = [].
Proof. unfold slice. by rewrite Z.sub_diag. Qed.

Lemma slice_full m : slice 0 (#m) m = m.
Proof. unfold slice. rewrite Z.sub_0_r, Nat2Z.id. by rewrite drop_0, take_ge. Qed.

Lemma store_length off bs m m' : store off bs m = Ok m' → length m' = length m.
Proof.
  unfold store. destruct (_ && _) eqn:E; [|done]. intros ?. b2p. inv_ok.
  rewrite !length_app, length_take, length_drop. lia.
Qed.

(** After a store the array starts with what was there before it, and [bs]. *)
Lemma store_take off bs m m' :
  store off bs m = Ok m' → take (Z.to_nat off + length bs) m' = take (Z.to_nat off) m ++ bs.
Proof.
  unfold store. destruct (_ && _) eqn:E; [|done]. intros ?. b2p. inv_ok.
  rewrite app_assoc. apply take_app_length'. rewrite length_app, length_take. lia.
Qed.

(** Storing nothing changes nothing. *)
Lemma store_nil off m : 0 ≤ off ≤ #m → store off [] m = Ok m.
Proof.
  intros H. unfold store. rewrite !(proj2 (Z.leb_le _ _)) by (cbn; lia). cbn.
  by rewrite Nat.add_0_r, take_drop.
Qed.

(** Two adjacent stores are one store. *)
Lemma store_app off a b m :
  0 ≤ off → off + #a + #b ≤ #m →
  ∃ m1, store off a m = Ok m1 ∧ length m1 = length m ∧
        store (off + #a) b m1 = store off (a ++ b) m.
Proof.
  intros Ho Hl. destruct (store_ok off a m) as (m1 & Hm1 & Hlen & _); [lia..|].
  exists m1. split_and!; [done|done|].
  assert (m1 = take (Z.to_nat off) m ++ a ++ drop (Z.to_nat off + length a) m) as Hm1'.
  { unfold store in Hm1. destruct (_ && _); [|done]. by inv_ok. }
  unfold store. rewrite length_app, Hlen.
  rewrite !(proj2 (Z.leb_le _ _)) by lia. cbn [andb]. f_equal.
  assert (length (take (Z.to_nat off) m) = Z.to_nat off) as Ht by (rewrite length_take; lia).
  replace (Z.to_nat (off + #a)) with (Z.to_nat off + length a)%nat by lia.
  rewrite app_assoc in Hm1'. subst m1.
  assert (length (take (Z.to_nat off) m ++ a) = (Z.to_nat off + length a)%nat) as Hp by (rewrite length_app; lia).
  rewrite take_app_length' by done. rewrite drop_app_ge by lia. rewrite Hp, drop_drop.
  rewrite <- !app_assoc. do 4 f_equal. lia.
Qed.

Lemma mjoin_nil : mjoin ([] : list (list Z)) = [].
Proof. reflexivity. Qed.

Lemma mjoin_cons (l : list Z) ls : mjoin (l :: ls) = l ++ mjoin ls.
Proof. reflexivity. Qed.

Lemma length_mjoin k (ls : list (list Z)) :
  Forall (λ l, length l = k) ls → length (mjoin ls) = (k * length ls)%nat.
Proof.
  induction 1 as [|l ls Hl _ IH]; [rewrite mjoin_nil; cbn; lia|].
  rewrite mjoin_cons, length_app. cbn [length]. lia.
Qed.

(** Taking one more piece of a list. *)
Lemma take_drop_piece {A} n (l a b : list A) :
  (n ≤ length l)%nat → drop n l = a ++ b →
  take (n + length a) l = take n l ++ a ∧ drop (n + length a) l = b.
Proof.
  intros Hn Hd. rewrite <- (take_drop n l) at 1 3. rewrite Hd, !app_assoc.
  assert (length (take n l ++ a) = (n + length a)%nat) as Hl by (rewrite length_app, length_take; lia).
  by rewrite take_app_length', drop_app_length' by done.
Qed.

(** Nothing passes a filter that no element satisfies. *)
Lemma filter_none {A} (P : A → Prop) `{∀ x, Decision (P x)} (l : list A) :
  (∀ x, x ∈ l → ¬ P x) → filter P l = [].
Proof.
  induction l as [|x l IH]; intros Hl; [done|].
  rewrite filter_cons_False by (apply Hl; left). apply IH. intros y Hy. apply Hl. by right.
Qed.

(** Filters that agree on the elements of the list. *)
Lemma filter_ext_in {A} (P Q : A → Prop) `{∀ x, Decision (P x), ∀ x, Decision (Q x)} (l : list A) :
  (∀ x, x ∈ l → P x ↔ Q x) → filter P l = filter Q l.
Proof.
  induction l as [|x l IH]; intros Hl; [done|]. rewrite !filter_cons.
  rewrite IH by (intros y Hy; apply Hl; by right). specialize (Hl x ltac:(left)).
  repeat case_decide; tauto.
Qed.

(** ** Automation

    [lens] normalises lengths, [bytes] proves that bytes are bytes and that
    values fit their width. *)
Create Rewrite HintDb lens.
#[export] Hint Rewrite @length_app @length_take @length_drop @length_reverse @length_replicate
  length_le_bytes length_be_bytes : lens.

Create HintDb bytes.
#[export] Hint Resolve le_bytes_ok be_bytes_ok wrap_range wrap_small swrap_small : bytes.

(** Arithmetic on lengths. *)
Ltac len_lia := autorewrite with lens in *; cbn [length] in *; lia.
