(* ===== verification/TimeValue.v ===== *)
(** * TimeValue: seconds and microseconds (icc/TimeValue.h, icc/TimeValue.cpp)

    [TimeValue] keeps a [timeval] and puts it into a canonical form after
    each operation that can leave it.  Both fields are 64-bit signed integers
    ([time_t] and [suseconds_t] where [long] has 64 bits); the arithmetic on them
    wraps around, as compilers make it where the language leaves it open.
    [usecs] is the abstract value, a number of microseconds.  The theorems show
    that results are canonical whatever the arguments are, that construction, sum
    and difference compute on that number, exactly within the range of [time_t]
    and modulo [span] beyond it, and that the comparison operators decide the
    order of the numbers. *)
From S2P Require Import Prelude.

Definition ACE_ONE_SECOND_IN_USECS : Z := 1000000.

Record TimeValue := mkTV { tv_sec : Z; tv_usec : Z }.

#[export] Instance TimeValue_eq_dec : EqDecision TimeValue.
Proof. solve_decision. Defined.

(** ** Operations *)

(** First loop of [normalize]: carry whole seconds out of [usec >= 1000000]. *)
Fixpoint carry_up (fuel : nat) (tv : TimeValue) : TimeValue :=
  if tv_usec tv >=? ACE_ONE_SECOND_IN_USECS then
    match fuel with
    | O => tv
    | S fuel => carry_up fuel (mkTV (s64 (tv_sec tv + 1)) (tv_usec tv - ACE_ONE_SECOND_IN_USECS))
    end
  else tv.

(** Second loop of [normalize]: borrow whole seconds into [usec <= -1000000]. *)
Fixpoint carry_down (fuel : nat) (tv : TimeValue) : TimeValue :=
  if tv_usec tv <=? - ACE_ONE_SECOND_IN_USECS then
    match fuel with
    | O => tv
    | S fuel => carry_down fuel (mkTV (s64 (tv_sec tv - 1)) (tv_usec tv + ACE_ONE_SECOND_IN_USECS))
    end
  else tv.

Definition carry_fuel (tv : TimeValue) : nat :=
  Z.to_nat (Z.abs (tv_usec tv) / ACE_ONE_SECOND_IN_USECS).

Definition carry (tv : TimeValue) : TimeValue :=
  if tv_usec tv >=? ACE_ONE_SECOND_IN_USECS then carry_up (carry_fuel tv) tv
  else if tv_usec tv <=? - ACE_ONE_SECOND_IN_USECS then carry_down (carry_fuel tv) tv
  else tv.

Definition normalize (tv : TimeValue) : TimeValue :=
  let tv := carry tv in
  if (tv_sec tv >=? 1) && (tv_usec tv <? 0) then
    mkTV (s64 (tv_sec tv - 1)) (tv_usec tv + ACE_ONE_SECOND_IN_USECS)
  else if (tv_sec tv <? 0) && (tv_usec tv >? 0) then
    mkTV (s64 (tv_sec tv + 1)) (tv_usec tv - ACE_ONE_SECOND_IN_USECS)
  else tv.

(** [set (sec, usec)]; the constructor and [set (timeval)] do the same. *)
Definition set (sec usec : Z) : TimeValue := normalize (mkTV sec usec).

(** [set (timespec)]: nanoseconds are cut to microseconds. *)
Definition set_timespec (sec nsec : Z) : TimeValue := set sec (Z.quot nsec 1000).

Definition zero : TimeValue := set 0 0.

Definition maxTime : TimeValue := set (2 ^ 63 - 1) (ACE_ONE_SECOND_IN_USECS - 1).

(** [operator timespec_t]. *)
Definition to_timespec (tv : TimeValue) : Z * Z := (tv_sec tv, s64 (tv_usec tv * 1000)).

(** [unsigned long msec () const]. *)
Definition msec (tv : TimeValue) : Z :=
  u64 (s64 (tv_sec tv * 1000 + Z.quot (tv_usec tv) 1000)).

(** [void msec (long)]. *)
Definition set_msec (milliseconds : Z) : TimeValue :=
  let secs := Z.quot milliseconds 1000 in
  mkTV secs ((milliseconds - secs * 1000) * 1000).

Definition tv_gt (tv1 tv2 : TimeValue) : bool :=
  if tv_sec tv1 >? tv_sec tv2 then true
  else (tv_sec tv1 =? tv_sec tv2) && (tv_usec tv1 >? tv_usec tv2).

Definition tv_ge (tv1 tv2 : TimeValue) : bool :=
  if tv_sec tv1 >? tv_sec tv2 then true
  else (tv_sec tv1 =? tv_sec tv2) && (tv_usec tv1 >=? tv_usec tv2).

Definition tv_lt (tv1 tv2 : TimeValue) : bool := tv_gt tv2 tv1.

Definition tv_le (tv1 tv2 : TimeValue) : bool := tv_ge tv2 tv1.

Definition tv_eq (tv1 tv2 : TimeValue) : bool :=
  (tv_sec tv1 =? tv_sec tv2) && (tv_usec tv1 =? tv_usec tv2).

Definition tv_ne (tv1 tv2 : TimeValue) : bool := negb (tv_eq tv1 tv2).

(** [operator+=] and the free [operator +]. *)
Definition tv_add (tv1 tv2 : TimeValue) : TimeValue :=
  normalize (mkTV (s64 (tv_sec tv1 + tv_sec tv2)) (s64 (tv_usec tv1 + tv_usec tv2))).

(** [operator-=] and the free [operator -]. *)
Definition tv_sub (tv1 tv2 : TimeValue) : TimeValue :=
  normalize (mkTV (s64 (tv_sec tv1 - tv_sec tv2)) (s64 (tv_usec tv1 - tv_usec tv2))).

(** [operator+= (time_t)] and [operator-= (time_t)]: seconds only, no [normalize]. *)
Definition tv_add_sec (tv : TimeValue) (s : Z) : TimeValue := mkTV (s64 (tv_sec tv + s)) (tv_usec tv).

Definition tv_sub_sec (tv : TimeValue) (s : Z) : TimeValue := mkTV (s64 (tv_sec tv - s)) (tv_usec tv).

(** [operator= (time_t)]. *)
Definition tv_assign_sec (s : Z) : TimeValue := mkTV s 0.

(** ** Specification *)

(** The abstract value: microseconds. *)
Definition usecs (tv : TimeValue) : Z := tv_sec tv * ACE_ONE_SECOND_IN_USECS + tv_usec tv.

(** A field of 64 bits holds the seconds up to multiples of [span]; it holds
    every whole number of seconds in [in_time]. *)
Definition span : Z := 2 ^ 64 * ACE_ONE_SECOND_IN_USECS.
Definition in_time (x : Z) : Prop := - 2 ^ 63 * ACE_ONE_SECOND_IN_USECS ≤ x ≤ (2 ^ 63 - 1) * ACE_ONE_SECOND_IN_USECS.

(** The arguments a caller can pass. *)
Definition machine (tv : TimeValue) : Prop := in_s 64 (tv_sec tv) ∧ in_s 64 (tv_usec tv).

(** Canonical form: less than a second of microseconds, and no seconds and
    microseconds of opposite sign. *)
Definition canonical (tv : TimeValue) : Prop :=
  in_s 64 (tv_sec tv) ∧
  - ACE_ONE_SECOND_IN_USECS < tv_usec tv < ACE_ONE_SECOND_IN_USECS ∧
  (1 ≤ tv_sec tv → 0 ≤ tv_usec tv) ∧ (tv_sec tv < 0 → tv_usec tv ≤ 0).

#[export] Instance canonical_dec tv : Decision (canonical tv).
Proof. unfold canonical. apply _. Defined.

(** ** Lemmas *)

Ltac tv_unfold := unfold usecs, canonical, machine, in_time, span, in_s, ACE_ONE_SECOND_IN_USECS in *; cbn [tv_sec tv_usec] in *;
  change (64 - 1) with 63 in *.

(** Equal up to what the seconds cannot hold. *)
Definition same_time (x y : Z) : Prop := ∃ k, x = y + k * span.

#[export] Instance same_time_equivalence : Equivalence same_time.
Proof.
  split.
  - intros x. exists 0. lia.
  - intros x y [k ->]. exists (- k). lia.
  - intros x y z [k ->] [l ->]. exists (k + l). lia.
Qed.

(** A step of a carry: the microseconds that leave are the seconds that come. *)
Lemma same_time_carry s u d :
  same_time (usecs (mkTV (s64 (s + d)) (u - d * ACE_ONE_SECOND_IN_USECS))) (usecs (mkTV s u)).
Proof. destruct (swrap_congr 64 (s + d)) as [k Hk]; [lia|]. exists k. tv_unfold. rewrite Hk. lia. Qed.

Lemma same_time_exact tv x : canonical tv → in_time x → same_time (usecs tv) x → usecs tv = x.
Proof. intros Hc Hx [k Hk]. tv_unfold. assert (k = 0) as -> by lia. lia. Qed.

Lemma carry_up_spec fuel tv :
  machine tv → 0 ≤ tv_usec tv → Z.abs (tv_usec tv) / ACE_ONE_SECOND_IN_USECS ≤ Z.of_nat fuel →
  let r := carry_up fuel tv in
  same_time (usecs r) (usecs tv) ∧ in_s 64 (tv_sec r) ∧ 0 ≤ tv_usec r < ACE_ONE_SECOND_IN_USECS.
Proof.
  revert tv. induction fuel as [|fuel IH]; intros tv Hm Hu Hf; cbn [carry_up]; cbn zeta;
    rewrite Z.geb_leb; split_if; try (destruct Hm; split_and!; [done|done|lia|unfold ACE_ONE_SECOND_IN_USECS in *; lia]).
  destruct tv as [s u]. pose proof (swrap_range 64 (s + 1) ltac:(lia)) as Hr.
  pose proof (same_time_carry s u 1) as Hs. rewrite Z.mul_1_l in Hs. cbn [tv_sec tv_usec] in *.
  destruct (IH (mkTV (s64 (s + 1)) (u - ACE_ONE_SECOND_IN_USECS))) as (H1 & H2 & H3); [|unfold ACE_ONE_SECOND_IN_USECS in *; cbn; lia| |].
  - split; [exact Hr|]. tv_unfold. lia.
  - tv_unfold. dlia.
  - split_and!; [etrans; [exact H1|exact Hs]|done|apply H3|apply H3].
Qed.

Lemma carry_down_spec fuel tv :
  machine tv → tv_usec tv ≤ 0 → Z.abs (tv_usec tv) / ACE_ONE_SECOND_IN_USECS ≤ Z.of_nat fuel →
  let r := carry_down fuel tv in
  same_time (usecs r) (usecs tv) ∧ in_s 64 (tv_sec r) ∧ - ACE_ONE_SECOND_IN_USECS < tv_usec r ≤ 0.
Proof.
  revert tv. induction fuel as [|fuel IH]; intros tv Hm Hu Hf; cbn [carry_down]; cbn zeta;
    split_if; try (destruct Hm; split_and!; [done|done|unfold ACE_ONE_SECOND_IN_USECS in *; lia|lia]).
  destruct tv as [s u]. pose proof (swrap_range 64 (s - 1) ltac:(lia)) as Hr.
  pose proof (same_time_carry s u (-1)) as Hs. replace (u - -1 * _) with (u + ACE_ONE_SECOND_IN_USECS) in Hs by lia.
  replace (s + -1) with (s - 1) in Hs by lia. cbn [tv_sec tv_usec] in *.
  destruct (IH (mkTV (s64 (s - 1)) (u + ACE_ONE_SECOND_IN_USECS))) as (H1 & H2 & H3); [|unfold ACE_ONE_SECOND_IN_USECS in *; cbn; lia| |].
  - split; [exact Hr|]. tv_unfold. lia.
  - tv_unfold. dlia.
  - split_and!; [etrans; [exact H1|exact Hs]|done|apply H3|apply H3].
Qed.

Lemma carry_spec tv :
  machine tv → same_time (usecs (carry tv)) (usecs tv) ∧ in_s 64 (tv_sec (carry tv)) ∧
  - ACE_ONE_SECOND_IN_USECS < tv_usec (carry tv) < ACE_ONE_SECOND_IN_USECS.
Proof.
  intros Hm. assert (Z.abs (tv_usec tv) / ACE_ONE_SECOND_IN_USECS ≤ Z.of_nat (carry_fuel tv)) as Hf
    by (unfold carry_fuel, ACE_ONE_SECOND_IN_USECS; dlia).
  unfold carry. rewrite Z.geb_leb. repeat split_if.
  - destruct (carry_up_spec (carry_fuel tv) tv) as (H1 & H2 & H3); [done|unfold ACE_ONE_SECOND_IN_USECS in *; lia|done|].
    split_and!; first [done|unfold ACE_ONE_SECOND_IN_USECS in *; lia].
  - destruct (carry_down_spec (carry_fuel tv) tv) as (H1 & H2 & H3); [done|unfold ACE_ONE_SECOND_IN_USECS in *; lia|done|].
    split_and!; first [done|unfold ACE_ONE_SECOND_IN_USECS in *; lia].
  - destruct Hm. split_and!; first [done|unfold ACE_ONE_SECOND_IN_USECS in *; lia].
Qed.

Lemma normalize_spec tv : machine tv → same_time (usecs (normalize tv)) (usecs tv) ∧ canonical (normalize tv).
Proof.
  intros Hm. destruct (carry_spec tv Hm) as (H1 & H2 & H3). unfold normalize. cbn zeta.
  rewrite Z.geb_leb, Z.gtb_ltb. rewrite <- H1. destruct (carry tv) as [s u]. clear H1 Hm.
  assert (∀ d, in_s 64 (s + d) → s64 (s + d) = s + d) as Hsw by (intros; by apply swrap_small).
  cbn [tv_sec tv_usec] in *. repeat split_if; split_andb;
    first [replace (s - 1) with (s + -1) by lia; rewrite Hsw by (tv_unfold; lia)|rewrite Hsw by (tv_unfold; lia)|idtac];
    (split; [exists 0; tv_unfold; lia|tv_unfold; lia]).
Qed.

Lemma canonical_inj tv1 tv2 : canonical tv1 → canonical tv2 → usecs tv1 = usecs tv2 → tv1 = tv2.
Proof.
  destruct tv1 as [s1 u1], tv2 as [s2 u2]. tv_unfold. intros (?&?&?&?) (?&?&?&?) ?.
  assert (s1 = s2) by lia. f_equal; lia.
Qed.

Lemma canonical_machine tv : canonical tv → machine tv.
Proof. destruct tv as [s u]. tv_unfold. lia. Qed.

Lemma tv_gt_usecs tv1 tv2 :
  canonical tv1 → canonical tv2 → tv_gt tv1 tv2 = (usecs tv2 <? usecs tv1).
Proof.
  destruct tv1 as [s1 u1], tv2 as [s2 u2]. unfold tv_gt. tv_unfold.
  rewrite !Z.gtb_ltb. intros (?&?&?&?) (?&?&?&?).
  destruct (s2 <? s1) eqn:E; b2p; [symmetry; apply Z.ltb_lt; lia|].
  destruct (s1 =? s2) eqn:E2; b2p; simpl; subst.
  - destruct (u2 <? u1) eqn:E3; b2p; symmetry; [apply Z.ltb_lt|apply Z.ltb_ge]; lia.
  - symmetry. apply Z.ltb_ge. lia.
Qed.

Lemma tv_ge_usecs tv1 tv2 :
  canonical tv1 → canonical tv2 → tv_ge tv1 tv2 = (usecs tv2 <=? usecs tv1).
Proof.
  destruct tv1 as [s1 u1], tv2 as [s2 u2]. unfold tv_ge. tv_unfold.
  rewrite !Z.gtb_ltb, Z.geb_leb. intros (?&?&?&?) (?&?&?&?).
  destruct (s2 <? s1) eqn:E; b2p; [symmetry; apply Z.leb_le; lia|].
  destruct (s1 =? s2) eqn:E2; b2p; simpl; subst.
  - destruct (u2 <=? u1) eqn:E3; b2p; symmetry; [apply Z.leb_le|apply Z.leb_gt]; lia.
  - symmetry. apply Z.leb_gt. lia.
Qed.

(** Sum and difference of canonical values, up to what the seconds cannot hold
    and exactly. *)
Lemma tv_add_wraps tv1 tv2 :
  canonical tv1 → canonical tv2 → same_time (usecs (tv_add tv1 tv2)) (usecs tv1 + usecs tv2) ∧ canonical (tv_add tv1 tv2).
Proof.
  intros H1 H2. unfold tv_add. destruct (swrap_congr 64 (tv_sec tv1 + tv_sec tv2)) as [k Hk]; [lia|].
  pose proof (swrap_range 64 (tv_sec tv1 + tv_sec tv2) ltac:(lia)) as Hr. rewrite (swrap_small 64 (tv_usec tv1 + _)) by (tv_unfold; lia).
  destruct (normalize_spec (mkTV (s64 (tv_sec tv1 + tv_sec tv2)) (tv_usec tv1 + tv_usec tv2))) as [Hs Hc].
  { split; [exact Hr|tv_unfold; lia]. }
  split; [|done]. rewrite Hs. exists k. unfold usecs, span. cbn [tv_sec tv_usec]. rewrite Hk. lia.
Qed.

Lemma tv_sub_wraps tv1 tv2 :
  canonical tv1 → canonical tv2 → same_time (usecs (tv_sub tv1 tv2)) (usecs tv1 - usecs tv2) ∧ canonical (tv_sub tv1 tv2).
Proof.
  intros H1 H2. unfold tv_sub. destruct (swrap_congr 64 (tv_sec tv1 - tv_sec tv2)) as [k Hk]; [lia|].
  pose proof (swrap_range 64 (tv_sec tv1 - tv_sec tv2) ltac:(lia)) as Hr. rewrite (swrap_small 64 (tv_usec tv1 - _)) by (tv_unfold; lia).
  destruct (normalize_spec (mkTV (s64 (tv_sec tv1 - tv_sec tv2)) (tv_usec tv1 - tv_usec tv2))) as [Hs Hc].
  { split; [exact Hr|tv_unfold; lia]. }
  split; [|done]. rewrite Hs. exists k. unfold usecs, span. cbn [tv_sec tv_usec]. rewrite Hk. lia.
Qed.

Lemma tv_add_spec tv1 tv2 :
  canonical tv1 → canonical tv2 → in_time (usecs tv1 + usecs tv2) →
  usecs (tv_add tv1 tv2) = usecs tv1 + usecs tv2 ∧ canonical (tv_add tv1 tv2).
Proof. intros H1 H2 H. destruct (tv_add_wraps tv1 tv2 H1 H2). split; [by apply same_time_exact|done]. Qed.

Lemma tv_sub_spec tv1 tv2 :
  canonical tv1 → canonical tv2 → in_time (usecs tv1 - usecs tv2) →
  usecs (tv_sub tv1 tv2) = usecs tv1 - usecs tv2 ∧ canonical (tv_sub tv1 tv2).
Proof. intros H1 H2 H. destruct (tv_sub_wraps tv1 tv2 H1 H2). split; [by apply same_time_exact|done]. Qed.

(** Times within 2^60 seconds, thirty-six thousand million years: sums and
    differences of some of them are exact. *)
Definition AGE : Z := 2 ^ 60 * ACE_ONE_SECOND_IN_USECS.
Definition in_age (tv : TimeValue) : Prop := canonical tv ∧ Z.abs (usecs tv) ≤ AGE.

#[export] Instance in_age_dec tv : Decision (in_age tv).
Proof. unfold in_age. apply _. Defined.

Lemma in_time_ages x : Z.abs x ≤ 7 * AGE → in_time x.
Proof. unfold AGE, in_time. lia. Qed.

Lemma canonical_zero : canonical zero ∧ usecs zero = 0.
Proof. vm_compute. intuition discriminate. Qed.

Lemma tv_eq_usecs tv1 tv2 :
  canonical tv1 → canonical tv2 → tv_eq tv1 tv2 = (usecs tv1 =? usecs tv2).
Proof.
  intros H1 H2. destruct (usecs tv1 =? usecs tv2) eqn:E; b2p.
  - rewrite (canonical_inj _ _ H1 H2 E). unfold tv_eq. by rewrite !Z.eqb_refl.
  - apply not_true_iff_false. intros He. unfold tv_eq in He. b2p.
    apply E. unfold usecs. congruence.
Qed.

(** ** Properties *)

(** C39: [set] (the constructor, and [set] from a [timeval]) leaves a value in
    canonical form for all arguments, also where the carry overflows: the two
    loops of [normalize] end.  It counts the microseconds it was given modulo
    2^64 seconds, and exactly these as long as they are within the seconds that
    [time_t] counts. *)
Theorem set_canonical sec usec :
  in_s 64 sec → in_s 64 usec →
  canonical (set sec usec) ∧ same_time (usecs (set sec usec)) (sec * 1000000 + usec) ∧
  (in_time (sec * 1000000 + usec) → usecs (set sec usec) = sec * 1000000 + usec).
Proof.
  intros Hs Hu. destruct (normalize_spec (mkTV sec usec)) as [H1 H2]; [done|]. split; [done|]. split; [done|].
  intros Ht. by apply same_time_exact.
Qed.

Lemma set_canonical_witness :
  canonical (set (2 ^ 63 - 1) 1000000) ∧ usecs (set 7 2500000) = 9500000.
Proof.
  split.
  - apply (set_canonical (2 ^ 63 - 1) 1000000); split; vm_compute; discriminate || reflexivity.
  - destruct (set_canonical 7 2500000) as (_ & _ & H); [split; vm_compute; discriminate || reflexivity..|].
    apply H. split; vm_compute; discriminate.
Defined.

(** C38: on canonical values the six comparison operators decide the order and
    equality of the microsecond counts.  [+] and [-] return canonical values
    always, that count the sum and the difference modulo 2^64 seconds, and
    exactly these where they are within the seconds that [time_t] counts: in its
    range [TimeValue] refines the integers. *)
Theorem timevalue_refines_integers a b :
  canonical a → canonical b →
  tv_gt a b = (usecs b <? usecs a) ∧ tv_ge a b = (usecs b <=? usecs a) ∧
  tv_lt a b = (usecs a <? usecs b) ∧ tv_le a b = (usecs a <=? usecs b) ∧
  tv_eq a b = (usecs a =? usecs b) ∧ tv_ne a b = negb (usecs a =? usecs b) ∧
  canonical (tv_add a b) ∧ same_time (usecs (tv_add a b)) (usecs a + usecs b) ∧
  (in_time (usecs a + usecs b) → usecs (tv_add a b) = usecs a + usecs b) ∧
  canonical (tv_sub a b) ∧ same_time (usecs (tv_sub a b)) (usecs a - usecs b) ∧
  (in_time (usecs a - usecs b) → usecs (tv_sub a b) = usecs a - usecs b).
Proof.
  intros Ha Hb. unfold tv_lt, tv_le, tv_ne.
  rewrite !tv_gt_usecs, !tv_ge_usecs, tv_eq_usecs by done.
  destruct (tv_add_wraps a b Ha Hb), (tv_sub_wraps a b Ha Hb). split_and!; try done; intros; by apply same_time_exact.
Qed.

Example timevalue_refines_integers_witness :
  canonical (set 5 250000) ∧ canonical (set (-1) (-500000)) ∧
  usecs (tv_add (set 5 250000) (set (-1) (-500000))) = 3750000.
Proof.
  assert (canonical (set 5 250000)) as Ha by (vm_compute; intuition discriminate).
  assert (canonical (set (-1) (-500000))) as Hb by (vm_compute; intuition discriminate).
  split; [exact Ha|]. split; [exact Hb|].
  destruct (timevalue_refines_integers _ _ Ha Hb) as (_&_&_&_&_&_&_&_&H&_).
  rewrite H; [vm_compute; reflexivity|split; vm_compute; discriminate].
Defined.

(** The end of time: a second after [maxTime] is before the epoch. *)
Example maxTime_overflows :
  tv_add maxTime (set 1 0) = mkTV (- 2 ^ 63 + 1) (- 1) ∧ tv_lt (tv_add maxTime (set 1 0)) zero = true.
Proof. vm_compute. split; reflexivity. Qed.

(** [msec (long)] followed by [msec ()] gives the number of milliseconds
    back (as an [unsigned long]), and the value set is canonical: the
    truncating divisions of the two functions agree, for negative arguments
    too. *)
Theorem msec_round_trip ms :
  in_s 64 ms → msec (set_msec ms) = u64 ms ∧ canonical (set_msec ms) ∧ usecs (set_msec ms) = ms * 1000.
Proof.
  intros Hr. unfold msec, set_msec. tv_unfold.
  assert (Z.quot ((ms - Z.quot ms 1000 * 1000) * 1000) 1000 = ms - Z.quot ms 1000 * 1000) as ->.
  { apply Z.quot_mul. lia. }
  replace (Z.quot ms 1000 * 1000 + _) with ms by lia.
  rewrite swrap_small by (done || lia). split; [done|].
  pose proof (Z.quot_rem' ms 1000).
  pose proof (Z.rem_bound_abs ms 1000). pose proof (Z.rem_sign_mul ms 1000).
  split; [|lia]. dlia.
Qed.

Example msec_round_trip_witness : in_s 64 (-1500) ∧ msec (set_msec (-1500)) = 2 ^ 64 - 1500.
Proof.
  assert (in_s 64 (-1500)) as H by (unfold in_s; split; vm_compute; congruence).
  split; [exact H|]. destruct (msec_round_trip (-1500) H) as [-> _]. vm_compute. reflexivity.
Defined.

(** The operators that take a number of seconds do not call [normalize]: they
    keep the abstract value right but can leave the canonical form, and a
    comparison after them can be wrong. *)
Example sub_seconds_leaves_canonical_form :
  let tv := tv_sub_sec (set 1 500000) 2 in
  ¬ canonical tv ∧ usecs tv = -500000 ∧
  tv_lt tv (set 0 (-600000)) = true ∧ (usecs tv <? usecs (set 0 (-600000))) = false.
Proof. vm_compute. intuition congruence. Qed.
