(* ===== verification/TimerHeap.v ===== *)
(** * TimerHeap: the heap-based timer queue (icc/TimerHeap.h, icc/TimerHeap.cpp)

    [TimerHeapT] keeps an array of timer nodes ordered as a binary heap on
    their expiry time, and a parallel array [mTimerIds] that maps a timer id
    to its slot in the heap (or to a negative number when the id is free, or
    [-2] when its timer is out of the heap but not yet freed).  The arrays
    are modelled as they are: every access is bounds-checked and the assert
    of [copy] is kept, so "the operation returns" includes "no access is out
    of bounds and no assert fails".

    The file defines the operations, the invariant and the lemmas about the
    sift loops and the id freelist; [TimerQueue] has the theorems. *)
From S2P Require Import Prelude TimeValue.

(** ** Data *)

(** [TimerNodeT<TYPE>]; [TYPE] is [EventHandler *], [act] a [const void *];
    both are opaque tokens.  The list links [prev], [next] are not used by
    the heap. *)
Record TimerNode := mkNode {
  n_type : Z;
  n_act : Z;
  timerValue : TimeValue;
  interval : TimeValue;
  timerId : Z
}.

#[export] Instance TimerNode_eq_dec : EqDecision TimerNode.
Proof. solve_decision. Defined.

(** [TimerHeapT]: [mHeap] is an array of [mMaxSize] pointers of which the
    first [mCurSize] are valid; a slot that was never assigned is absent
    from the map.  [mTimerIds] is an array of [mMaxSize] integers. *)
Record TimerHeap := mkHeap {
  mMaxSize : nat;
  mCurSize : nat;
  mCurLimbo : nat;
  mHeap : gmap nat TimerNode;
  mTimerIds : list Z;
  mTimerIdsCurr : nat;
  mTimerIdsMinFree : nat
}.

Definition with_heap (f : gmap nat TimerNode → gmap nat TimerNode) (h : TimerHeap) : TimerHeap :=
  mkHeap (mMaxSize h) (mCurSize h) (mCurLimbo h) (f (mHeap h)) (mTimerIds h)
    (mTimerIdsCurr h) (mTimerIdsMinFree h).

Definition with_ids (f : list Z → list Z) (h : TimerHeap) : TimerHeap :=
  mkHeap (mMaxSize h) (mCurSize h) (mCurLimbo h) (mHeap h) (f (mTimerIds h))
    (mTimerIdsCurr h) (mTimerIdsMinFree h).

Definition with_cur (f : nat → nat) (h : TimerHeap) : TimerHeap :=
  mkHeap (mMaxSize h) (f (mCurSize h)) (mCurLimbo h) (mHeap h) (mTimerIds h)
    (mTimerIdsCurr h) (mTimerIdsMinFree h).

Definition with_limbo (f : nat → nat) (h : TimerHeap) : TimerHeap :=
  mkHeap (mMaxSize h) (mCurSize h) (f (mCurLimbo h)) (mHeap h) (mTimerIds h)
    (mTimerIdsCurr h) (mTimerIdsMinFree h).

Definition with_free (curr minfree : nat) (h : TimerHeap) : TimerHeap :=
  mkHeap (mMaxSize h) (mCurSize h) (mCurLimbo h) (mHeap h) (mTimerIds h) curr minfree.

(** ** Array accesses *)

(** [this->mHeap[slot]], dereferenced. *)
Definition heap_at (h : TimerHeap) (slot : nat) : result TimerNode :=
  if (slot <? mMaxSize h)%nat then
    match mHeap h !! slot with Some n => Ok n | None => Fault NullDeref end
  else Fault OutOfBounds.

(** [this->mTimerIds[id]]. *)
Definition id_at (h : TimerHeap) (id : nat) : result Z :=
  match mTimerIds h !! id with Some v => Ok v | None => Fault OutOfBounds end.

(** [this->mTimerIds[id] = v]. *)
Definition set_id (id : nat) (v : Z) (h : TimerHeap) : result TimerHeap :=
  if (id <? length (mTimerIds h))%nat then Ok (with_ids <[id := v]> h) else Fault OutOfBounds.

(** [--this->mCurSize] and [--this->mCurLimbo]. *)
Definition dec_cur (h : TimerHeap) : result TimerHeap :=
  if (mCurSize h =? 0)%nat then Fault Underflow else Ok (with_cur pred h).

Definition dec_limbo (h : TimerHeap) : result TimerHeap :=
  if (mCurLimbo h =? 0)%nat then Fault Underflow else Ok (with_limbo pred h).

Definition HEAP_PARENT (X : nat) : nat := if (X =? 0)%nat then 0%nat else ((X - 1) / 2)%nat.

Definition HEAP_LCHILD (X : nat) : nat := (X + X + 1)%nat.

(** ** Operations *)

(** Constructor with a size; the clamp to [LONG_MAX] is kept. *)
Definition TimerHeap_new (size : nat) : TimerHeap :=
  let size := if Z.of_nat size >? 2 ^ 63 - 1 then Z.to_nat (2 ^ 63 - 1) else size in
  mkHeap size 0 0 ∅ (replicate size (-1)) 0 0.

(** The scan loop of [popFreelist]. *)
Fixpoint scan_ids (fuel : nat) (h : TimerHeap) (curr : nat) : result nat :=
  if (curr <? mMaxSize h)%nat then
    v ← id_at h curr;
    if (v >=? 0) || (v =? -2) then
      match fuel with O => Fault OutOfFuel | S fuel => scan_ids fuel h (S curr) end
    else Ok curr
  else Ok curr.

Definition popFreelist (h : TimerHeap) : result (Z * TimerHeap) :=
  curr ← scan_ids (mMaxSize h) h (S (mTimerIdsCurr h));
  if (curr =? mMaxSize h)%nat then
    let curr := mTimerIdsMinFree h in
    Ok (Z.of_nat curr, with_free curr (mMaxSize h) h)
  else Ok (Z.of_nat curr, with_free curr (mTimerIdsMinFree h) h).

Definition pushFreelist (old_id : Z) (h : TimerHeap) : result TimerHeap :=
  let oldid := Z.to_nat old_id in
  v ← id_at h oldid;
  h ← (if v =? -2 then dec_limbo h else dec_cur h);
  h ← set_id oldid (-1) h;
  if (oldid <? mTimerIdsMinFree h)%nat && (oldid <=? mTimerIdsCurr h)%nat
  then Ok (with_free (mTimerIdsCurr h) oldid h)
  else Ok h.

Definition timerIdGen (h : TimerHeap) : result (Z * TimerHeap) := popFreelist h.

Definition isEmpty (h : TimerHeap) : bool := (mCurSize h =? 0)%nat.

Definition earliestTime (h : TimerHeap) : result TimeValue :=
  n ← heap_at h 0; Ok (timerValue n).

(** The assert compares with [(int) this->mMaxSize]. *)
Definition copy (slot : nat) (moved_node : TimerNode) (h : TimerHeap) : result TimerHeap :=
  h ← (if (slot <? mMaxSize h)%nat then Ok (with_heap <[slot := moved_node]> h) else Fault OutOfBounds);
  _ ← assert_ ((timerId moved_node >=? 0) && (timerId moved_node <? s32 (Z.of_nat (mMaxSize h))));
  set_id (Z.to_nat (timerId moved_node)) (Z.of_nat slot) h.

Fixpoint reheapDown_loop (fuel : nat) (moved_node : TimerNode) (slot child : nat) (h : TimerHeap)
  : result (nat * TimerHeap) :=
  if (child <? mCurSize h)%nat then
    match fuel with
    | O => Fault OutOfFuel
    | S fuel =>
        child ← (if (child + 1 <? mCurSize h)%nat then
                   n1 ← heap_at h (child + 1); n0 ← heap_at h child;
                   Ok (if tv_lt (timerValue n1) (timerValue n0) then (child + 1)%nat else child)
                 else Ok child);
        nc ← heap_at h child;
        if tv_lt (timerValue nc) (timerValue moved_node) then
          h ← copy slot nc h;
          reheapDown_loop fuel moved_node child (HEAP_LCHILD child) h
        else Ok (slot, h)
    end
  else Ok (slot, h).

Definition reheapDown (moved_node : TimerNode) (slot child : nat) (h : TimerHeap) : result TimerHeap :=
  '(slot, h) ← reheapDown_loop (mCurSize h) moved_node slot child h;
  copy slot moved_node h.

Fixpoint reheapUp_loop (fuel : nat) (moved_node : TimerNode) (slot parent : nat) (h : TimerHeap)
  : result (nat * TimerHeap) :=
  if (0 <? slot)%nat then
    match fuel with
    | O => Fault OutOfFuel
    | S fuel =>
        np ← heap_at h parent;
        if tv_lt (timerValue moved_node) (timerValue np) then
          h ← copy slot np h;
          reheapUp_loop fuel moved_node parent (HEAP_PARENT parent) h
        else Ok (slot, h)
    end
  else Ok (slot, h).

Definition reheapUp (moved_node : TimerNode) (slot parent : nat) (h : TimerHeap) : result TimerHeap :=
  '(slot, h) ← reheapUp_loop slot moved_node slot parent h;
  copy slot moved_node h.

(** The part of [remove] between the decrement of the size and the limbo mark. *)
Definition remove_reheap (slot : nat) (h : TimerHeap) : result TimerHeap :=
  if (slot <? mCurSize h)%nat then
    moved_node ← heap_at h (mCurSize h);
    h ← copy slot moved_node h;
    let parent := HEAP_PARENT slot in
    np ← heap_at h parent;
    if tv_ge (timerValue moved_node) (timerValue np)
    then reheapDown moved_node slot (HEAP_LCHILD slot) h
    else reheapUp moved_node slot parent h
  else Ok h.

Definition remove (slot : nat) (h : TimerHeap) : result (TimerNode * TimerHeap) :=
  removed_node ← heap_at h slot;
  h ← dec_cur h;
  h ← remove_reheap slot h;
  h ← set_id (Z.to_nat (timerId removed_node)) (-2) h;
  Ok (removed_node, with_limbo S h).

Definition growHeap (h : TimerHeap) : TimerHeap :=
  let new_size := (mMaxSize h * 2)%nat in
  mkHeap new_size (mCurSize h) (mCurLimbo h) (mHeap h)
    (mTimerIds h ++ ((λ i, - (Z.of_nat i + 1)) <$> seq (mMaxSize h) (mMaxSize h)))
    (mTimerIdsCurr h) new_size.

Definition insert (new_node : TimerNode) (h : TimerHeap) : result TimerHeap :=
  let h := if (mMaxSize h <=? mCurSize h + mCurLimbo h + 2)%nat then growHeap h else h in
  h ← reheapUp new_node (mCurSize h) (HEAP_PARENT (mCurSize h)) h;
  Ok (with_cur S h).

Definition reschedule (expired : TimerNode) (h : TimerHeap) : result TimerHeap :=
  v ← id_at h (Z.to_nat (timerId expired));
  h ← (if v =? -2 then dec_limbo h else Ok h);
  insert expired h.

Definition freeNode (node : TimerNode) (h : TimerHeap) : result TimerHeap :=
  pushFreelist (timerId node) h.

Definition scheduleI (type act : Z) (future_time interval : TimeValue) (h : TimerHeap)
  : result (Z * TimerHeap) :=
  if (mCurSize h + mCurLimbo h <? mMaxSize h)%nat then
    '(timer_id, h) ← timerIdGen h;
    h ← insert (mkNode type act future_time interval timer_id) h;
    Ok (timer_id, h)
  else Ok (-1, h).

Definition resetInterval (timer_id : Z) (iv : TimeValue) (h : TimerHeap) : result (Z * TimerHeap) :=
  if (timer_id <? 0) || (timer_id >? Z.of_nat (mMaxSize h)) then Ok (-1, h) else
  slot ← id_at h (Z.to_nat timer_id);
  if slot <? 0 then Ok (-1, h) else
  n ← heap_at h (Z.to_nat slot);
  if timer_id =? timerId n then
    Ok (0, with_heap <[Z.to_nat slot :=
             mkNode (n_type n) (n_act n) (timerValue n) iv (timerId n)]> h)
  else Fault AssertFailed.

Definition removeFirst (h : TimerHeap) : result (option TimerNode * TimerHeap) :=
  if (mCurSize h =? 0)%nat then Ok (None, h)
  else '(n, h) ← remove 0 h; Ok (Some n, h).

Definition getFirst (h : TimerHeap) : result (option TimerNode) :=
  if (mCurSize h =? 0)%nat then Ok None else n ← heap_at h 0; Ok (Some n).

(** [TimerHeapIteratorT]: the position in the heap array. *)
Definition iter_first : nat := 0.

Definition iter_next (h : TimerHeap) (pos : nat) : nat := if (pos =? mCurSize h)%nat then pos else S pos.

Definition iter_isdone (h : TimerHeap) (pos : nat) : bool := (pos =? mCurSize h)%nat.

Definition iter_item (h : TimerHeap) (pos : nat) : result (option TimerNode) :=
  if (pos =? mCurSize h)%nat then Ok None else n ← heap_at h pos; Ok (Some n).

(** ** Abstract view

    A timer queue is a finite map from timer ids to timers. *)

Definition nodes (h : TimerHeap) : list TimerNode := omap (λ i, mHeap h !! i) (seq 0 (mCurSize h)).

Definition timers (h : TimerHeap) : gmap Z TimerNode :=
  list_to_map ((λ n, (timerId n, n)) <$> nodes h).

(** ** The order of the keys *)

Create HintDb timer.

Definition tle (a b : TimeValue) : Prop := tv_le a b = true.

Lemma tle_iff a b : tle a b ↔ tv_sec a < tv_sec b ∨ tv_sec a = tv_sec b ∧ tv_usec a ≤ tv_usec b.
Proof.
  unfold tle, tv_le, tv_ge. rewrite Z.gtb_ltb, Z.geb_leb.
  destruct (tv_sec a <? tv_sec b) eqn:E; b2p; [naive_solver lia|].
  rewrite andb_true_iff, Z.eqb_eq, Z.leb_le. lia.
Qed.

Lemma tle_refl a : tle a a.
Proof. rewrite tle_iff. lia. Qed.

Lemma tle_trans a b c : tle a b → tle b c → tle a c.
Proof. rewrite !tle_iff. lia. Qed.

Lemma tv_lt_tle a b : tv_lt a b = true → tle a b.
Proof.
  rewrite tle_iff. unfold tv_lt, tv_gt. rewrite !Z.gtb_ltb.
  destruct (tv_sec a <? tv_sec b) eqn:E; b2p; [lia|]. intros. b2p. lia.
Qed.

Lemma tv_lt_not_tle a b : tv_lt a b = negb (tv_le b a).
Proof.
  unfold tv_lt, tv_le, tv_gt, tv_ge. rewrite !Z.gtb_ltb, Z.geb_leb.
  destruct (tv_sec a <? tv_sec b) eqn:E1, (tv_sec b <? tv_sec a) eqn:E2; b2p; try lia;
    rewrite (Z.eqb_sym (tv_sec b));
    destruct (tv_sec a =? tv_sec b) eqn:E3, (tv_usec a <? tv_usec b) eqn:E4,
      (tv_usec b <=? tv_usec a) eqn:E5; b2p; simpl; try lia; done.
Qed.

Lemma tv_lt_false_tle a b : tv_lt a b = false → tle b a.
Proof. rewrite tv_lt_not_tle. unfold tle. intros. b2p. done. Qed.

Lemma tv_ge_false_tle a b : tv_ge a b = false → tle a b.
Proof. intros H. apply tv_lt_tle. rewrite tv_lt_not_tle. unfold tv_le. by rewrite H. Qed.

#[export] Hint Resolve tle_refl tv_lt_tle tv_lt_false_tle tv_ge_false_tle : timer.

(** ** Slots of a binary heap *)

Lemma HEAP_PARENT_lt i : (0 < i)%nat → (HEAP_PARENT i < i)%nat.
Proof. intros. unfold HEAP_PARENT. split_if; [lia|]. dlia. Qed.

Lemma HEAP_PARENT_child s c :
  (0 < c)%nat → HEAP_PARENT c = s ↔ c = HEAP_LCHILD s ∨ c = (HEAP_LCHILD s + 1)%nat.
Proof. intros. unfold HEAP_PARENT, HEAP_LCHILD. split_if; [lia|]. dlia. Qed.

(** ** The index: slots and ids agree, except at a hole

    [idx max cur hole X H I]: every slot below [cur] but [hole] holds a node
    whose id maps back to the slot, and every id outside [X] that maps to a
    slot maps to such a slot. *)
Record idx (max cur hole : nat) (X : gset Z) (H : gmap nat TimerNode) (I : list Z) : Prop := mkIdx {
  idx_len : length I = max;
  idx_slot : ∀ i, (i < cur)%nat → i ≠ hole → ∃ n, H !! i = Some n ∧
    0 ≤ timerId n < Z.of_nat max ∧ I !! Z.to_nat (timerId n) = Some (Z.of_nat i) ∧ timerId n ∉ X;
  idx_id : ∀ id v, I !! id = Some v → 0 ≤ v → Z.of_nat id ∉ X →
    (Z.to_nat v < cur)%nat ∧ Z.to_nat v ≠ hole ∧
    ∃ n, H !! Z.to_nat v = Some n ∧ timerId n = Z.of_nat id }.

Section index.

Context {max cur hole : nat} {X : gset Z} {H : gmap nat TimerNode} {I : list Z}.
Context (Hidx : idx max cur hole X H I).

(** Distinct slots hold distinct ids. *)
Lemma idx_inj i j n m :
  (i < cur)%nat → (j < cur)%nat → i ≠ hole → j ≠ hole →
  H !! i = Some n → H !! j = Some m → timerId n = timerId m → i = j.
Proof.
  intros Hi Hj Hih Hjh Hn Hm He.
  destruct (idx_slot _ _ _ _ _ _ Hidx i) as (n' & ? & ? & Ha & _); [done..|].
  destruct (idx_slot _ _ _ _ _ _ Hidx j) as (m' & ? & ? & Hb & _); [done..|].
  simplify_eq. rewrite He in Ha. simplify_eq. lia.
Qed.

(** [copy hole n] for the node of another slot [p] moves the hole to [p]. *)
Lemma idx_move p n :
  (p < cur)%nat → p ≠ hole → (hole < cur)%nat → H !! p = Some n →
  idx max cur p X (<[hole := n]> H) (<[Z.to_nat (timerId n) := Z.of_nat hole]> I).
Proof.
  intros Hp Hph Hh Hn.
  destruct (idx_slot _ _ _ _ _ _ Hidx p) as (n' & ? & Hr & Hi & HX); [done..|]. simplify_eq.
  split.
  - rewrite length_insert. apply Hidx.
  - intros i Hic Hip. destruct (decide (i = hole)) as [->|Hneq].
    + exists n. rewrite lookup_insert_eq, list_lookup_insert_eq; [naive_solver|].
      rewrite (idx_len _ _ _ _ _ _ Hidx). lia.
    + destruct (idx_slot _ _ _ _ _ _ Hidx i) as (m & Hm & Hmr & Hmi & ?); [done..|].
      exists m. rewrite lookup_insert_ne by done. split_and!; [done|lia|lia| |done].
      rewrite list_lookup_insert_ne; [done|]. intros He.
      rewrite He in Hi. simplify_eq.
  - intros id v Hv Hv0 HidX. destruct (decide (id = Z.to_nat (timerId n))) as [->|Hne].
    + rewrite list_lookup_insert_eq in Hv by (rewrite (idx_len _ _ _ _ _ _ Hidx); lia).
      simplify_eq. rewrite Nat2Z.id. split_and!; [done..|].
      exists n. rewrite lookup_insert_eq. split; [done|]. lia.
    + rewrite list_lookup_insert_ne in Hv by done.
      destruct (idx_id _ _ _ _ _ _ Hidx id v) as (? & ? & m & Hm & ?); [done..|].
      split_and!; [done| |].
      * intros Heq. rewrite Heq in Hm. simplify_eq. lia.
      * exists m. by rewrite lookup_insert_ne.
Qed.

(** [copy hole m] for a node whose id is excluded fills the hole. *)
Lemma idx_fill m :
  (hole < cur)%nat → 0 ≤ timerId m < Z.of_nat max → timerId m ∈ X →
  idx max cur cur (X ∖ {[timerId m]})
    (<[hole := m]> H) (<[Z.to_nat (timerId m) := Z.of_nat hole]> I).
Proof.
  intros Hh Hr HmX. split.
  - rewrite length_insert. apply Hidx.
  - intros i Hic _. destruct (decide (i = hole)) as [->|Hneq].
    + exists m. rewrite lookup_insert_eq, list_lookup_insert_eq; [split_and!; [done|lia|lia|done|set_solver]|].
      rewrite (idx_len _ _ _ _ _ _ Hidx). lia.
    + destruct (idx_slot _ _ _ _ _ _ Hidx i) as (n & Hn & Hnr & Hni & HnX); [done..|].
      exists n. rewrite lookup_insert_ne by done. split_and!; [done|lia|lia| |set_solver].
      rewrite list_lookup_insert_ne; [done|]. intros He.
      assert (timerId n = timerId m) by lia. congruence.
  - intros id v Hv Hv0 HidX. destruct (decide (id = Z.to_nat (timerId m))) as [->|Hne].
    + rewrite list_lookup_insert_eq in Hv by (rewrite (idx_len _ _ _ _ _ _ Hidx); lia).
      simplify_eq. rewrite Nat2Z.id. split_and!; [done|lia|].
      exists m. rewrite lookup_insert_eq. split; [done|]. lia.
    + rewrite list_lookup_insert_ne in Hv by done.
      assert (Z.of_nat id ≠ timerId m) by lia.
      destruct (idx_id _ _ _ _ _ _ Hidx id v) as (? & ? & n & Hn & ?); [done..|set_solver|].
      split_and!; [done|lia|]. exists n. by rewrite lookup_insert_ne.
Qed.

(** A hole in the last slot is the end of a shorter heap. *)
Lemma idx_shrink : (hole < cur)%nat → S hole = cur → idx max hole hole X H I.
Proof.
  intros Hh Hc. split.
  - apply Hidx.
  - intros i Hi Hih. apply Hidx; lia.
  - intros id v Hv Hv0 HidX.
    destruct (idx_id _ _ _ _ _ _ Hidx id v) as (? & ? & ?); [done..|]. split_and!; [lia|lia|done].
Qed.

(** Forget the excluded ids that map to no slot. *)
Lemma idx_drop id v :
  0 ≤ id < Z.of_nat max → id ∈ X → v < 0 →
  idx max cur hole (X ∖ {[id]}) H (<[Z.to_nat id := v]> I).
Proof.
  intros Hr HX Hv. split.
  - rewrite length_insert. apply Hidx.
  - intros i Hi Hih. destruct (idx_slot _ _ _ _ _ _ Hidx i) as (n & Hn & Hnr & Hni & HnX); [done..|].
    exists n. split_and!; [done|lia|lia| |set_solver].
    rewrite list_lookup_insert_ne; [done|]. intros He.
    assert (timerId n = id) by lia. congruence.
  - intros id' w Hw Hw0 HidX. destruct (decide (id' = Z.to_nat id)) as [->|Hne].
    + rewrite list_lookup_insert_eq in Hw by (rewrite (idx_len _ _ _ _ _ _ Hidx); lia).
      simplify_eq. lia.
    + rewrite list_lookup_insert_ne in Hw by done.
      assert (Z.of_nat id' ≠ id) by lia.
      apply (idx_id _ _ _ _ _ _ Hidx id' w); [done..|set_solver].
Qed.
End index.

(** Make the hole at an occupied slot. *)
Lemma idx_open max cur X H I s m :
  idx max cur cur X H I → (s < cur)%nat → H !! s = Some m → idx max cur s (X ∪ {[timerId m]}) H I.
Proof.
  intros Hidx Hs Hm. split.
  - apply Hidx.
  - intros i Hi His. destruct (idx_slot _ _ _ _ _ _ Hidx i) as (n & Hn & Hnr & Hni & HnX); [lia..|].
    exists n. split_and!; [done|lia|lia|done|]. assert (timerId n ≠ timerId m); [|set_solver].
    intros He. apply His. eapply idx_inj; eauto; lia.
  - intros id v Hv Hv0 HidX.
    destruct (idx_id _ _ _ _ _ _ Hidx id v) as (? & ? & n & Hn & ?); [done..|set_solver|].
    split_and!; [done| |by eauto]. intros He. rewrite He in Hn. simplify_eq. set_solver.
Qed.

(** Make the hole just past the end, for a node whose id maps to no slot. *)
Lemma idx_extend max cur X H I id v :
  idx max cur cur X H I → 0 ≤ id → I !! Z.to_nat id = Some v → v < 0 →
  idx max (S cur) cur (X ∪ {[id]}) H I.
Proof.
  intros Hidx Hid Hv Hneg. split.
  - apply Hidx.
  - intros i Hi Hic. destruct (idx_slot _ _ _ _ _ _ Hidx i) as (n & Hn & Hnr & Hni & HnX); [lia..|].
    exists n. split_and!; [done|lia|lia|done|]. assert (timerId n ≠ id); [|set_solver].
    intros <-. simplify_eq. lia.
  - intros id' w Hw Hw0 HidX.
    destruct (idx_id _ _ _ _ _ _ Hidx id' w) as (? & ? & ?); [done..|set_solver|].
    split_and!; [lia..|done].
Qed.

(** Longer arrays: the new ids map to no slot. *)
Lemma idx_grow max cur hole X H I J :
  idx max cur hole X H I → Forall (λ v, v < 0) J →
  idx (max + length J) cur hole X H (I ++ J).
Proof.
  intros Hidx HJ. split.
  - rewrite length_app. by rewrite (idx_len _ _ _ _ _ _ Hidx).
  - intros i Hi Hih. destruct (idx_slot _ _ _ _ _ _ Hidx i) as (n & Hn & Hnr & Hni & HnX); [done..|].
    exists n. split_and!; [done|lia|lia| |done]. by apply lookup_app_l_Some.
  - intros id v Hv Hv0 HidX. apply lookup_app_Some in Hv as [Hv|[_ Hv]].
    + by apply (idx_id _ _ _ _ _ _ Hidx id v).
    + rewrite Forall_lookup in HJ. apply HJ in Hv. lia.
Qed.

(** ** The order of the heap, except around a hole *)

(** The key in a slot, for slots that hold a node. *)
Definition key_le (H : gmap nat TimerNode) (i j : nat) : Prop :=
  ∀ a b, H !! i = Some a → H !! j = Some b → tle (timerValue a) (timerValue b).

Definition ord (cur : nat) (H : gmap nat TimerNode) : Prop :=
  ∀ i, (0 < i < cur)%nat → key_le H (HEAP_PARENT i) i.

(** Sifting up: only the slot [s] may be smaller than its parent. *)
Definition ord_up (cur s : nat) (H : gmap nat TimerNode) : Prop :=
  (∀ i, (0 < i < cur)%nat → i ≠ s → key_le H (HEAP_PARENT i) i) ∧
  (∀ c, (0 < c < cur)%nat → (0 < s)%nat → HEAP_PARENT c = s → key_le H (HEAP_PARENT s) c).

(** Sifting down: only the slot [s] may be greater than its children. *)
Definition ord_down (cur s : nat) (H : gmap nat TimerNode) : Prop :=
  (∀ i, (0 < i < cur)%nat → HEAP_PARENT i ≠ s → key_le H (HEAP_PARENT i) i) ∧
  (∀ c, (0 < c < cur)%nat → (0 < s)%nat → HEAP_PARENT c = s → key_le H (HEAP_PARENT s) c).

(** Every slot below [cur] holds a node. *)
Definition full (cur : nat) (H : gmap nat TimerNode) : Prop := ∀ i, (i < cur)%nat → is_Some (H !! i).

Lemma key_le_trans H i j k :
  is_Some (H !! j) → key_le H i j → key_le H j k → key_le H i k.
Proof. intros [m Hm] H1 H2 a b Ha Hb. eapply tle_trans; eauto. Qed.

(** The contents of the heap after slots [s] and [p] exchange their nodes. *)
Definition swap (s p : nat) (a b : TimerNode) (H : gmap nat TimerNode) : gmap nat TimerNode :=
  <[p := a]> (<[s := b]> H).

Lemma lookup_swap H s p a b i :
  swap s p a b H !! i = if decide (i = p) then Some a else if decide (i = s) then Some b else H !! i.
Proof.
  unfold swap. destruct (decide (i = p)) as [->|]; [by rewrite lookup_insert_eq|].
  rewrite lookup_insert_ne by done.
  destruct (decide (i = s)) as [->|]; [by rewrite lookup_insert_eq|by rewrite lookup_insert_ne].
Qed.

(** Solve a comparison of two keys of [swap] by looking both up. *)
Ltac key_swap :=
  let a := fresh in let b := fresh in let Ha := fresh in let Hb := fresh in
  intros a b Ha Hb; rewrite lookup_swap in Ha, Hb; repeat case_decide; simplify_eq.

Lemma ord_up_step cur s H m np :
  full cur H → (0 < s < cur)%nat → H !! s = Some m → H !! HEAP_PARENT s = Some np →
  tv_lt (timerValue m) (timerValue np) = true → ord_up cur s H →
  ord_up cur (HEAP_PARENT s) (swap s (HEAP_PARENT s) m np H).
Proof.
  intros Hf Hs Hm Hp Hlt [H1 H2]. pose proof (HEAP_PARENT_lt s).
  assert (key_le H s (HEAP_PARENT s)) as Hms.
  { intros a b Ha Hb. simplify_eq. by apply tv_lt_tle. }
  split.
  - intros i Hi Hip. pose proof (HEAP_PARENT_lt i). key_swap; try lia; auto with timer.
    + (* a sibling of s *) eapply (key_le_trans H s (HEAP_PARENT s) i); eauto with timer.
      rename select (HEAP_PARENT i = _) into He. rewrite <- He. by apply H1.
    + eapply (H2 i); eauto; lia.
    + eapply H1; eauto; lia.
  - intros c Hc Hp0 Hcp. pose proof (HEAP_PARENT_lt c). pose proof (HEAP_PARENT_lt (HEAP_PARENT s)).
    assert (key_le H (HEAP_PARENT (HEAP_PARENT s)) (HEAP_PARENT s)) as Hpp by (apply H1; lia).
    key_swap; try lia.
    + eapply Hpp; eauto.
    + eapply (key_le_trans H _ (HEAP_PARENT s)); eauto.
      rewrite <- Hcp. by apply H1.
Qed.

Lemma ord_up_exit cur s H m :
  H !! s = Some m →
  (∀ np, (0 < s)%nat → H !! HEAP_PARENT s = Some np → tv_lt (timerValue m) (timerValue np) = false) →
  ord_up cur s H → ord cur H.
Proof.
  intros Hm Hex [H1 _] i Hi. destruct (decide (i = s)) as [->|]; [|by apply H1].
  intros a b Ha Hb. simplify_eq. apply tv_lt_false_tle, Hex; [lia|done].
Qed.

Lemma ord_down_step cur s c H m nc :
  full cur H → (s < cur)%nat → (0 < c < cur)%nat → HEAP_PARENT c = s →
  H !! s = Some m → H !! c = Some nc → tv_lt (timerValue nc) (timerValue m) = true →
  (∀ d, (0 < d < cur)%nat → HEAP_PARENT d = s → key_le H c d) →
  ord_down cur s H → ord_down cur c (swap s c m nc H).
Proof.
  intros Hf Hs Hc Hcs Hm Hnc Hlt Hmin [H1 H2]. pose proof (HEAP_PARENT_lt c).
  split.
  - intros i Hi Hic. pose proof (HEAP_PARENT_lt i). pose proof (HEAP_PARENT_lt s).
    key_swap; try lia; auto with timer.
    all: first [by eapply (H2 c); eauto; lia | by eapply Hmin; eauto | by eapply H1; eauto; lia].
  - intros d Hd _ Hdc. pose proof (HEAP_PARENT_lt d). key_swap; try lia.
    eapply (H1 d); [done|lia|congruence|done].
Qed.

Lemma ord_down_exit cur s H m :
  H !! s = Some m →
  (∀ c nc, (0 < c < cur)%nat → HEAP_PARENT c = s → H !! c = Some nc →
     tle (timerValue m) (timerValue nc)) →
  ord_down cur s H → ord cur H.
Proof.
  intros Hm Hex [H1 _] i Hi. destruct (decide (HEAP_PARENT i = s)) as [He|]; [|by apply H1].
  intros a b Ha Hb. rewrite He in Ha. simplify_eq. eauto.
Qed.

(** ** The ids by what they stand for *)

Inductive idclass := Live | Limbo | Free.

#[export] Instance idclass_eq_dec : EqDecision idclass.
Proof. solve_decision. Defined.

Definition cls (v : Z) : idclass :=
  if v >=? 0 then Live else if v =? -2 then Limbo else Free.

(** Number of ids of a class. *)
Definition count (c : idclass) (P : list idclass) : nat := length (filter (.= c) P).
Arguments count : simpl never.

Lemma count_app c P Q : count c (P ++ Q) = (count c P + count c Q)%nat.
Proof. unfold count. by rewrite filter_app, length_app. Qed.

Lemma count_insert c P k a b :
  P !! k = Some a →
  (count c (<[k := b]> P) + (if decide (a = c) then 1 else 0) =
   count c P + (if decide (b = c) then 1 else 0))%nat.
Proof.
  intros Hk. pose proof (take_drop_middle _ _ _ Hk) as HP.
  pose proof (lookup_lt_Some _ _ _ Hk) as Hlt.
  rewrite <- HP at 2. rewrite insert_take_drop by done. rewrite !count_app.
  unfold count. rewrite !filter_cons. repeat case_decide; simpl; lia.
Qed.

Lemma count_total P : (count Live P + count Limbo P + count Free P = length P)%nat.
Proof.
  unfold count. induction P as [|[] P IH]; [done|..]; rewrite !filter_cons;
    repeat case_decide; simplify_eq; simpl; lia.
Qed.

Lemma cls_insert_same (I : list Z) (k : nat) v w :
  I !! k = Some v → cls v = cls w → cls <$> (<[k := w]> I) = cls <$> I.
Proof.
  intros Hk He. rewrite list_fmap_insert. apply list_insert_id.
  by rewrite list_lookup_fmap, Hk, <- He.
Qed.

Lemma cls_Live v : cls v = Live ↔ 0 ≤ v.
Proof. unfold cls. rewrite Z.geb_leb. repeat split_if; naive_solver lia. Qed.

Lemma cls_Limbo v : cls v = Limbo ↔ v = -2.
Proof. unfold cls. rewrite Z.geb_leb. repeat split_if; naive_solver lia. Qed.

Lemma cls_Free v : cls v = Free ↔ v < 0 ∧ v ≠ -2.
Proof. unfold cls. rewrite Z.geb_leb. repeat split_if; naive_solver lia. Qed.

(** ** Steps of the code on the arrays *)

(** The heap record with other arrays. *)
Definition upd (H : gmap nat TimerNode) (I : list Z) (h : TimerHeap) : TimerHeap :=
  mkHeap (mMaxSize h) (mCurSize h) (mCurLimbo h) H I (mTimerIdsCurr h) (mTimerIdsMinFree h).

Lemma heap_at_ok h i n : (i < mMaxSize h)%nat → mHeap h !! i = Some n → heap_at h i = Ok n.
Proof. intros Hi Hn. unfold heap_at. apply Nat.ltb_lt in Hi. by rewrite Hi, Hn. Qed.

Lemma id_at_ok h i v : mTimerIds h !! i = Some v → id_at h i = Ok v.
Proof. intros Hv. unfold id_at. by rewrite Hv. Qed.

Lemma set_id_ok h i v :
  (i < length (mTimerIds h))%nat → set_id i v h = Ok (upd (mHeap h) (<[i := v]> (mTimerIds h)) h).
Proof. intros Hi. unfold set_id. apply Nat.ltb_lt in Hi. by rewrite Hi. Qed.

Lemma copy_ok slot m h :
  (slot < mMaxSize h)%nat → Z.of_nat (mMaxSize h) < 2 ^ 31 → length (mTimerIds h) = mMaxSize h →
  0 ≤ timerId m < Z.of_nat (mMaxSize h) →
  copy slot m h = Ok (upd (<[slot := m]> (mHeap h))
                          (<[Z.to_nat (timerId m) := Z.of_nat slot]> (mTimerIds h)) h).
Proof.
  intros Hs Hmax Hlen Hid. unfold copy. apply Nat.ltb_lt in Hs. rewrite Hs. cbn.
  rewrite swrap_small by (unfold in_s; lia). rewrite Z.geb_leb.
  rewrite (proj2 (Z.leb_le _ _)), (proj2 (Z.ltb_lt _ _)) by lia. cbn.
  rewrite set_id_ok; [done|]. cbn. lia.
Qed.

(** The nodes in the first [cur] slots. *)
Definition holds (cur : nat) (H : gmap nat TimerNode) (n : TimerNode) : Prop :=
  ∃ i, (i < cur)%nat ∧ H !! i = Some n.

Lemma holds_swap cur H s p m np n :
  (s < cur)%nat → (p < cur)%nat → s ≠ p → H !! s = Some m → H !! p = Some np →
  holds cur (swap s p m np H) n ↔ holds cur H n.
Proof.
  intros Hs Hp Hsp Hm Hnp. split; intros (i & Hi & Hn).
  - rewrite lookup_swap in Hn. repeat case_decide; simplify_eq; eexists; eauto.
  - destruct (decide (i = s)) as [->|]; [|destruct (decide (i = p)) as [->|]].
    + exists p. split; [done|]. rewrite lookup_swap. by case_decide; simplify_eq.
    + exists s. split; [done|]. rewrite lookup_swap. by repeat case_decide; simplify_eq.
    + exists i. split; [done|]. rewrite lookup_swap. by repeat case_decide; simplify_eq.
Qed.

Lemma idx_full max cur s X H I m : idx max cur s X H I → full cur (<[s := m]> H).
Proof.
  intros Hidx i Hi. destruct (decide (i = s)) as [->|]; [by rewrite lookup_insert_eq|].
  rewrite lookup_insert_ne by done.
  destruct (idx_slot _ _ _ _ _ _ Hidx i) as (n' & ? & _); eauto.
Qed.

(** What a sift loop returns: a slot where the moved node fits. *)
Definition sifted (cur : nat) (X : gset Z) (m : TimerNode) (s : nat) (h : TimerHeap)
  (r : result (nat * TimerHeap)) : Prop :=
  ∃ s' H' I', r = Ok (s', upd H' I' h) ∧ (s' < cur)%nat ∧ idx (mMaxSize h) cur s' X H' I' ∧
    ord cur (<[s' := m]> H') ∧ cls <$> I' = cls <$> mTimerIds h ∧
    ∀ n, holds cur (<[s' := m]> H') n ↔ holds cur (<[s := m]> (mHeap h)) n.

(** One move of a sift loop: the node [np] of slot [p] goes to the hole [s]. *)
Lemma sift_move cur X m s p np h :
  (cur ≤ mMaxSize h)%nat → Z.of_nat (mMaxSize h) < 2 ^ 31 →
  (s < cur)%nat → (p < cur)%nat → s ≠ p → mHeap h !! p = Some np →
  idx (mMaxSize h) cur s X (mHeap h) (mTimerIds h) →
  ∃ h', copy s np h = Ok h' ∧ h' = upd (mHeap h') (mTimerIds h') h ∧
    <[p := m]> (mHeap h') = swap s p m np (<[s := m]> (mHeap h)) ∧
    idx (mMaxSize h) cur p X (mHeap h') (mTimerIds h') ∧
    cls <$> mTimerIds h' = cls <$> mTimerIds h ∧
    ∀ n, holds cur (<[p := m]> (mHeap h')) n ↔ holds cur (<[s := m]> (mHeap h)) n.
Proof.
  intros Hcm Hmax Hs Hp Hsp Hnp Hidx.
  destruct (idx_slot _ _ _ _ _ _ Hidx p) as (n' & ? & Hr & Hi & _); [done..|]. simplify_eq.
  eexists. split; [apply copy_ok; [lia|done|apply Hidx|done]|]. cbn.
  assert (<[p:=m]> (<[s:=np]> (mHeap h)) = swap s p m np (<[s:=m]> (mHeap h))) as Hsw.
  { unfold swap. by rewrite insert_insert_eq. }
  split_and!; [done|done|eapply idx_move; eauto| |].
  - eapply cls_insert_same; [done|]. rewrite (proj2 (cls_Live (Z.of_nat p))) by lia.
    symmetry. apply cls_Live. lia.
  - intros n. rewrite Hsw. apply holds_swap; [done..|by rewrite lookup_insert_eq|].
    by rewrite lookup_insert_ne.
Qed.

Lemma upd_upd H1 I1 H2 I2 h : upd H2 I2 (upd H1 I1 h) = upd H2 I2 h.
Proof. reflexivity. Qed.

Lemma sifted_move cur X m s p h h' r :
  h' = upd (mHeap h') (mTimerIds h') h → cls <$> mTimerIds h' = cls <$> mTimerIds h →
  (∀ n, holds cur (<[p := m]> (mHeap h')) n ↔ holds cur (<[s := m]> (mHeap h)) n) →
  sifted cur X m p h' r → sifted cur X m s h r.
Proof.
  intros Hu Hc Hh (s' & H' & I' & Hr & Hs' & Hidx & Ho & Hc' & Hh').
  rewrite Hu in Hr, Hidx. cbn in *. exists s', H', I'. split_and!; try done; [congruence|].
  intros n. by rewrite Hh', Hh.
Qed.

Lemma reheapUp_loop_ok fuel cur X m s h :
  (s ≤ fuel)%nat → (cur ≤ mMaxSize h)%nat → Z.of_nat (mMaxSize h) < 2 ^ 31 → (s < cur)%nat →
  idx (mMaxSize h) cur s X (mHeap h) (mTimerIds h) → ord_up cur s (<[s := m]> (mHeap h)) →
  sifted cur X m s h (reheapUp_loop fuel m s (HEAP_PARENT s) h).
Proof.
  revert s h. induction fuel as [|fuel IH]; intros s h Hf Hcm Hmax Hs Hidx Hord; cbn [reheapUp_loop].
  { replace s with 0%nat in * by lia. cbn. exists 0%nat, (mHeap h), (mTimerIds h).
    split_and!; try done; [by destruct h|].
    eapply ord_up_exit; [by rewrite lookup_insert_eq|lia|done]. }
  destruct (0 <? s)%nat eqn:Es; b2p; cycle 1.
  { replace s with 0%nat in * by lia. exists 0%nat, (mHeap h), (mTimerIds h).
    split_and!; try done; [by destruct h|].
    eapply ord_up_exit; [by rewrite lookup_insert_eq|lia|done]. }
  pose proof (HEAP_PARENT_lt s Es).
  destruct (idx_slot _ _ _ _ _ _ Hidx (HEAP_PARENT s)) as (np & Hnp & _); [lia..|].
  rewrite (heap_at_ok h (HEAP_PARENT s) np) by (done || lia). rewrite bind_Ok.
  destruct (tv_lt _ _) eqn:Elt.
  - destruct (sift_move cur X m s (HEAP_PARENT s) np h) as (h' & -> & Hu & Hsw & Hidx' & Hc & Hh);
      [done|done|lia|lia|lia|done|done|]. rewrite bind_Ok.
    assert (mMaxSize h' = mMaxSize h) as Hmx by (by rewrite Hu).
    eapply sifted_move; [done|done|done|].
    apply IH; rewrite ?Hmx; try done; [lia..|]. rewrite Hsw.
    apply ord_up_step; try done; [by eapply idx_full|by rewrite lookup_insert_eq|].
    by rewrite lookup_insert_ne by lia.
  - exists s, (mHeap h), (mTimerIds h). split_and!; try done; [by destruct h|].
    eapply ord_up_exit; [by rewrite lookup_insert_eq| |done].
    intros np' _. rewrite lookup_insert_ne by lia. congruence.
Qed.

(** The child that [reheapDown] compares with: the smaller of the two. *)
Lemma smaller_child_ok cur s h :
  (cur ≤ mMaxSize h)%nat → mCurSize h = cur → (HEAP_LCHILD s < cur)%nat →
  (∀ i, (i < cur)%nat → i ≠ s → is_Some (mHeap h !! i)) →
  ∃ c, HEAP_PARENT c = s ∧ (0 < c < cur)%nat ∧
    (∀ d, (0 < d < cur)%nat → HEAP_PARENT d = s → key_le (mHeap h) c d) ∧
    (if (HEAP_LCHILD s + 1 <? mCurSize h)%nat then
       n1 ← heap_at h (HEAP_LCHILD s + 1); n0 ← heap_at h (HEAP_LCHILD s);
       Ok (if tv_lt (timerValue n1) (timerValue n0) then (HEAP_LCHILD s + 1)%nat else HEAP_LCHILD s)
     else Ok (HEAP_LCHILD s)) = Ok c.
Proof.
  intros Hcm Hcur Hlc Hf. assert (s < HEAP_LCHILD s)%nat by (unfold HEAP_LCHILD; lia).
  destruct (Hf (HEAP_LCHILD s)) as [n0 Hn0]; [done|lia|].
  rewrite Hcur. destruct (_ <? _)%nat eqn:E; b2p.
  - destruct (Hf (HEAP_LCHILD s + 1)%nat) as [n1 Hn1]; [done|lia|].
    rewrite (heap_at_ok h (HEAP_LCHILD s + 1) n1), bind_Ok by (done || lia).
    rewrite (heap_at_ok h (HEAP_LCHILD s) n0), bind_Ok by (done || lia).
    destruct (tv_lt _ _) eqn:El; eexists; (split_and!; [| | | |reflexivity]);
      [apply HEAP_PARENT_child; lia|lia|lia| |apply HEAP_PARENT_child; lia|lia|lia|];
      intros d Hd Hds; apply HEAP_PARENT_child in Hds as [-> | ->]; try lia;
      intros a b Ha Hb; simplify_eq; auto with timer.
  - eexists; (split_and!; [| | | |reflexivity]); [apply HEAP_PARENT_child; lia|lia|lia|].
    intros d Hd Hds; apply HEAP_PARENT_child in Hds as [-> | ->]; try lia.
    intros a b Ha Hb. simplify_eq. auto with timer.
Qed.

Lemma key_le_insert_ne H s m i j : i ≠ s → j ≠ s → key_le (<[s := m]> H) i j ↔ key_le H i j.
Proof. intros. unfold key_le. by rewrite !lookup_insert_ne. Qed.

Lemma reheapDown_loop_ok fuel cur X m s h :
  (cur ≤ s + fuel)%nat → (cur ≤ mMaxSize h)%nat → Z.of_nat (mMaxSize h) < 2 ^ 31 →
  mCurSize h = cur → (s < cur)%nat →
  idx (mMaxSize h) cur s X (mHeap h) (mTimerIds h) → ord_down cur s (<[s := m]> (mHeap h)) →
  sifted cur X m s h (reheapDown_loop fuel m s (HEAP_LCHILD s) h).
Proof.
  revert s h. induction fuel as [|fuel IH]; intros s h Hf Hcm Hmax Hcur Hs Hidx Hord; [lia|].
  cbn [reheapDown_loop].
  assert (∀ c, (0 < c)%nat → HEAP_PARENT c = s → (HEAP_LCHILD s ≤ c)%nat ∧ (s < c)%nat) as Hch.
  { intros c Hc0 [-> | ->]%HEAP_PARENT_child; unfold HEAP_LCHILD; lia. }
  assert (∀ Ho : (∀ c nc, (0 < c < cur)%nat → HEAP_PARENT c = s → mHeap h !! c = Some nc →
     tle (timerValue m) (timerValue nc)), sifted cur X m s h (Ok (s, h))) as Hexit.
  { intros Ho. exists s, (mHeap h), (mTimerIds h). split_and!; try done; [by destruct h|].
    eapply ord_down_exit; [by rewrite lookup_insert_eq| |done].
    intros c nc Hc Hcs. rewrite lookup_insert_ne; [by eauto|]. specialize (Hch c). lia. }
  destruct (_ <? mCurSize h)%nat eqn:Ec; b2p.
  2: { apply Hexit. intros c nc Hc Hcs. specialize (Hch c). lia. }
  destruct (smaller_child_ok cur s h) as (c & Hcs & Hc & Hmin & ->); [done|done|lia| |].
  { intros i Hi Hne. destruct (idx_slot _ _ _ _ _ _ Hidx i) as (n' & ? & _); eauto. }
  pose proof (Hch c ltac:(lia) Hcs) as [_ Hsc]. rewrite bind_Ok.
  destruct (idx_slot _ _ _ _ _ _ Hidx c) as (nc & Hnc & _); [lia..|].
  rewrite (heap_at_ok h c nc), bind_Ok by (done || lia).
  destruct (tv_lt _ _) eqn:Elt.
  - destruct (sift_move cur X m s c nc h) as (h' & -> & Hu & Hsw & Hidx' & Hcl & Hh);
      [done|done|lia|lia|lia|done|done|]. rewrite bind_Ok.
    assert (mMaxSize h' = mMaxSize h ∧ mCurSize h' = mCurSize h) as [Hmx Hcu] by (by rewrite Hu).
    eapply sifted_move; [done|done|done|].
    apply IH; rewrite ?Hmx, ?Hcu; try done; [lia..|]. rewrite Hsw.
    apply ord_down_step; try done; [by eapply idx_full|by rewrite lookup_insert_eq| |].
    + by rewrite lookup_insert_ne by lia.
    + intros d Hd Hds. pose proof (Hch d ltac:(lia) Hds). apply key_le_insert_ne; [lia..|]. by apply Hmin.
  - apply Hexit. intros d nd Hd Hds Hnd. eapply tle_trans; [by apply tv_lt_false_tle|].
    by eapply Hmin.
Qed.

(** A sift loop and the [copy] after it. *)
Lemma sifted_fill cur X m s h r :
  (cur ≤ mMaxSize h)%nat → Z.of_nat (mMaxSize h) < 2 ^ 31 →
  0 ≤ timerId m < Z.of_nat (mMaxSize h) → timerId m ∈ X → sifted cur X m s h r →
  ∃ H' I', ('(slot, h) ← r; copy slot m h) = Ok (upd H' I' h) ∧
    idx (mMaxSize h) cur cur (X ∖ {[timerId m]}) H' I' ∧ ord cur H' ∧
    cls <$> I' = <[Z.to_nat (timerId m) := Live]> (cls <$> mTimerIds h) ∧
    ∀ n, holds cur H' n ↔ holds cur (<[s := m]> (mHeap h)) n.
Proof.
  intros Hcm Hmax Hid HX (s' & H' & I' & -> & Hs' & Hidx & Ho & Hc & Hh). rewrite bind_Ok.
  rewrite copy_ok; cbn; [|lia|done|apply Hidx|done]. do 2 eexists. split; [reflexivity|].
  split_and!; [by apply idx_fill|done| |done].
  rewrite list_fmap_insert, Hc. f_equal. apply cls_Live. lia.
Qed.

(** ** The invariant *)

(** The freelist: the next search starts after [curr]; below the recorded
    smallest free id at most one free id is out of reach. *)
Record freelist_ok (max curr minfree : nat) (P : list idclass) : Prop := mkFreelist {
  fl_curr : (curr < max)%nat;
  fl_min : (minfree ≤ max)%nat;
  fl_min_free : (minfree < max)%nat → P !! minfree = Some Free ∧ (minfree ≤ curr)%nat;
  fl_lost : (count Free (take (Nat.min (S curr) minfree) P) ≤ 1)%nat }.

Record inv (h : TimerHeap) : Prop := mkInv {
  inv_max : 2 ≤ Z.of_nat (mMaxSize h) < 2 ^ 31;
  inv_idx : idx (mMaxSize h) (mCurSize h) (mCurSize h) ∅ (mHeap h) (mTimerIds h);
  inv_ord : ord (mCurSize h) (mHeap h);
  inv_live : count Live (cls <$> mTimerIds h) = mCurSize h;
  inv_limbo : count Limbo (cls <$> mTimerIds h) = mCurLimbo h;
  inv_room : (mCurSize h + mCurLimbo h + 2 ≤ mMaxSize h)%nat;
  inv_free : freelist_ok (mMaxSize h) (mTimerIdsCurr h) (mTimerIdsMinFree h) (cls <$> mTimerIds h) }.

(** The timer of an id, in or out of the heap array. *)
Definition in_class (h : TimerHeap) (c : idclass) (id : Z) : Prop :=
  0 ≤ id ∧ (cls <$> mTimerIds h) !! Z.to_nat id = Some c.

(** ** The abstract map, read from the arrays *)

Lemma elem_of_nodes h n : n ∈ nodes h ↔ holds (mCurSize h) (mHeap h) n.
Proof.
  unfold nodes, holds. rewrite list_elem_of_omap. split.
  - intros (i & Hi & Hn). apply elem_of_seq in Hi. exists i. split; [lia|done].
  - intros (i & Hi & Hn). exists i. split; [apply elem_of_seq; lia|done].
Qed.

Lemma nodes_NoDup max X h :
  idx max (mCurSize h) (mCurSize h) X (mHeap h) (mTimerIds h) →
  NoDup ((λ n, (timerId n, n)) <$> nodes h).*1.
Proof.
  intros Hidx. rewrite <- list_fmap_compose. unfold nodes, compose. cbn.
  assert (∀ l, NoDup l → Forall (λ i, i < mCurSize h)%nat l →
    NoDup ((λ n, timerId n) <$> omap (λ i, mHeap h !! i) l)) as Hgen.
  { induction 1 as [|i l Hil Hl IH]; intros Hall; [constructor|].
    apply Forall_cons_1 in Hall as [Hi Hall]. cbn.
    destruct (mHeap h !! i) as [n|] eqn:Hn; [|by apply IH]. cbn. constructor; [|by apply IH].
    intros (m & Hm & (j & Hj & Hjm)%list_elem_of_omap)%list_elem_of_fmap.
    rewrite Forall_forall in Hall. specialize (Hall j Hj).
    replace i with j in Hil; [done|]. eapply (idx_inj Hidx); eauto; lia. }
  apply Hgen; [apply NoDup_seq|]. apply Forall_forall. intros i Hi. apply elem_of_seq in Hi. lia.
Qed.

Lemma lookup_timers max X h id n :
  idx max (mCurSize h) (mCurSize h) X (mHeap h) (mTimerIds h) →
  timers h !! id = Some n ↔ timerId n = id ∧ holds (mCurSize h) (mHeap h) n.
Proof.
  intros Hidx. unfold timers. rewrite <- elem_of_list_to_map by (by eapply nodes_NoDup).
  rewrite list_elem_of_fmap, <- elem_of_nodes. naive_solver.
Qed.

Lemma timers_delete max X X' h h' slot n :
  idx max (mCurSize h) (mCurSize h) X (mHeap h) (mTimerIds h) →
  idx max (mCurSize h') (mCurSize h') X' (mHeap h') (mTimerIds h') →
  (slot < mCurSize h)%nat → mHeap h !! slot = Some n →
  (∀ m, holds (mCurSize h') (mHeap h') m ↔
     ∃ i, (i < mCurSize h)%nat ∧ i ≠ slot ∧ mHeap h !! i = Some m) →
  timers h' = delete (timerId n) (timers h).
Proof.
  intros Hidx Hidx' Hs Hn Hh. apply map_eq. intros id. apply option_eq. intros m.
  rewrite (lookup_timers _ _ _ _ _ Hidx'), lookup_delete_Some, (lookup_timers _ _ _ _ _ Hidx), Hh.
  split.
  - intros (<- & i & Hi & His & Hm). split.
    + intros He. apply His. eapply (idx_inj Hidx); eauto; lia.
    + split; [done|]. by exists i.
  - intros (Hne & <- & i & Hi & Hm). split; [done|]. exists i. split_and!; try done.
    intros ->. by simplify_eq.
Qed.

Lemma timers_insert max max' X X' h h' n :
  idx max (mCurSize h) (mCurSize h) X (mHeap h) (mTimerIds h) →
  idx max' (mCurSize h') (mCurSize h') X' (mHeap h') (mTimerIds h') →
  (∀ m, holds (mCurSize h') (mHeap h') m ↔ m = n ∨ holds (mCurSize h) (mHeap h) m) →
  timers h !! timerId n = None →
  timers h' = <[timerId n := n]> (timers h).
Proof.
  intros Hidx Hidx' Hh Hnone. apply map_eq. intros id. apply option_eq. intros m.
  rewrite (lookup_timers _ _ _ _ _ Hidx'), lookup_insert_Some, (lookup_timers _ _ _ _ _ Hidx), Hh.
  split.
  - intros (<- & [-> |Hm]); [by left|]. destruct (decide (timerId n = timerId m)) as [He|]; [|by right].
    pose proof (proj2 (lookup_timers _ _ h (timerId m) m Hidx) (conj eq_refl Hm)). congruence.
  - intros [[<- ->]|(Hne & <- & Hm)]; eauto.
Qed.

(** ** The freelist *)

Lemma count_none c P : (∀ i, P !! i ≠ Some c) → count c P = 0%nat.
Proof.
  intros Hn. unfold count. induction P as [|a P IH]; [done|]. rewrite filter_cons.
  case_decide as Ha; [subst; by specialize (Hn 0%nat)|]. apply IH. intros i. apply (Hn (S i)).
Qed.

Lemma count_take_le c k P : (count c (take k P) ≤ count c P)%nat.
Proof. rewrite <- (take_drop k P) at 2. rewrite count_app. lia. Qed.

Lemma count_take_mono c k l P : (k ≤ l)%nat → (count c (take k P) ≤ count c (take l P))%nat.
Proof.
  intros. rewrite <- (Nat.min_l k l), <- take_take by lia. apply count_take_le.
Qed.

Lemma take_S_insert {A} (P : list A) k a :
  (k < length P)%nat → take (S k) (<[k := a]> P) = take k P ++ [a].
Proof.
  intros. rewrite (take_S_r _ _ a) by (by apply list_lookup_insert_eq).
  by rewrite take_insert_ge by lia.
Qed.

Lemma scan_ids_ok fuel h c :
  (mMaxSize h ≤ c + fuel)%nat → (c ≤ mMaxSize h)%nat → length (mTimerIds h) = mMaxSize h →
  ∃ c', scan_ids fuel h c = Ok c' ∧ (c ≤ c' ≤ mMaxSize h)%nat ∧
    (∀ i, (c ≤ i < c')%nat → (cls <$> mTimerIds h) !! i ≠ Some Free) ∧
    ((c' < mMaxSize h)%nat → (cls <$> mTimerIds h) !! c' = Some Free).
Proof.
  revert c. induction fuel as [|fuel IH]; intros c Hf Hc Hlen; cbn [scan_ids];
    (destruct (c <? mMaxSize h)%nat eqn:E; b2p; [|exists c; split_and!; done || lia]); [lia|].
  destruct (lookup_lt_is_Some_2 (mTimerIds h) c) as [v Hv]; [lia|].
  rewrite (id_at_ok _ _ _ Hv), bind_Ok.
  assert ((cls <$> mTimerIds h) !! c = Some (cls v)) as Hcv by (by rewrite list_lookup_fmap, Hv).
  destruct ((v >=? 0) || (v =? -2)) eqn:Ev.
  - destruct (IH (S c)) as (c' & -> & ? & Hn & Hfr); [lia..|]. exists c'. split_and!; [done|lia|lia| |done].
    intros i Hi. destruct (decide (i = c)) as [->|]; [|apply Hn; lia]. rewrite Hcv.
    unfold cls. destruct (v >=? 0); [done|]. destruct (v =? -2); done.
  - exists c. split_and!; [done|lia|lia|lia|]. intros _. rewrite Hcv. unfold cls.
    apply orb_false_elim in Ev as [-> ->]. done.
Qed.

(** The id that [popFreelist] finds, on the pattern of the ids. *)
Lemma freelist_pop max curr minfree P c' :
  freelist_ok max curr minfree P → length P = max → (2 ≤ count Free P)%nat →
  (S curr ≤ c' ≤ max)%nat → (∀ i, (S curr ≤ i < c')%nat → P !! i ≠ Some Free) →
  (c' = max → P !! minfree = Some Free ∧ freelist_ok max minfree max (<[minfree := Live]> P)) ∧
  ((c' < max)%nat → P !! c' = Some Free → freelist_ok max c' minfree (<[c' := Live]> P)).
Proof.
  intros [Hc Hm Hmf Hl] Hlen H2 Hc' Hseg.
  assert (count Free (take c' P) = count Free (take (S curr) P)) as Hcnt.
  { rewrite <- (take_drop (S curr) (take c' P)), count_app, take_take, Nat.min_l by lia.
    rewrite (count_none _ (drop _ _)); [lia|]. intros i. rewrite lookup_drop.
    intros Hi. pose proof (lookup_lt_Some _ _ _ Hi) as Hlt. rewrite length_take in Hlt.
    rewrite lookup_take_lt in Hi by lia. eapply Hseg; [|done]. lia. }
  split.
  - intros ->. rewrite take_ge in Hcnt by lia.
    assert (minfree < max)%nat as Hlt.
    { destruct (decide (minfree < max)%nat); [done|]. rewrite Nat.min_l in Hl by lia. lia. }
    destruct (Hmf Hlt) as [Hfree Hle]. split; [done|]. split; [done|lia|lia|].
    rewrite Nat.min_l, take_S_insert, count_app by lia. change (count Free [Live]) with 0%nat.
    rewrite Nat.min_r in Hl by lia. lia.
  - intros Hlt Hfree. split; [done|done| |].
    + intros Hmlt. destruct (Hmf Hmlt). split; [|lia]. by rewrite list_lookup_insert_ne by lia.
    + destruct (decide (minfree < max)%nat) as [Hmlt|].
      * destruct (Hmf Hmlt). rewrite Nat.min_r in Hl |- * by lia. by rewrite take_insert_ge by lia.
      * rewrite Nat.min_l in Hl |- * by lia. rewrite take_S_insert, count_app by lia.
        change (count Free [Live]) with 0%nat. lia.
Qed.

Lemma free_count h : inv h → (mCurSize h + mCurLimbo h + count Free (cls <$> mTimerIds h) = mMaxSize h)%nat.
Proof.
  intros Hi. pose proof (count_total (cls <$> mTimerIds h)) as Ht.
  rewrite length_fmap, (idx_len _ _ _ _ _ _ (inv_idx _ Hi)), (inv_live _ Hi), (inv_limbo _ Hi) in Ht. lia.
Qed.

Lemma popFreelist_ok h :
  inv h → ∃ (id minfree : nat), popFreelist h = Ok (Z.of_nat id, with_free id minfree h) ∧
    (cls <$> mTimerIds h) !! id = Some Free ∧
    freelist_ok (mMaxSize h) id minfree (<[id := Live]> (cls <$> mTimerIds h)).
Proof.
  intros Hi. pose proof (idx_len _ _ _ _ _ _ (inv_idx _ Hi)) as Hlen.
  pose proof (free_count _ Hi). pose proof (inv_room _ Hi). pose proof (inv_free _ Hi) as Hfl.
  pose proof (fl_curr _ _ _ _ Hfl).
  destruct (scan_ids_ok (mMaxSize h) h (S (mTimerIdsCurr h))) as (c' & Hsc & Hc' & Hseg & Hfr); [lia..|].
  destruct (freelist_pop _ _ _ _ c' Hfl) as [Hwrap Hnext]; [by rewrite length_fmap|lia|lia|done|].
  unfold popFreelist. rewrite Hsc, bind_Ok. destruct (c' =? mMaxSize h)%nat eqn:E; b2p.
  - destruct (Hwrap E). by do 2 eexists.
  - do 2 eexists. split; [done|]. split; [apply Hfr; lia|]. apply Hnext; [lia|]. apply Hfr; lia.
Qed.

(** ** Insertion and removal on the arrays *)

Lemma lookup_cls (I : list Z) id c :
  (cls <$> I) !! id = Some c → ∃ v, I !! id = Some v ∧ cls v = c.
Proof. rewrite list_lookup_fmap, fmap_Some. naive_solver. Qed.

Lemma timers_None max X h id v :
  idx max (mCurSize h) (mCurSize h) X (mHeap h) (mTimerIds h) → 0 ≤ id →
  mTimerIds h !! Z.to_nat id = Some v → v < 0 → timers h !! id = None.
Proof.
  intros Hidx Hid Hv Hneg. apply eq_None_not_Some. intros [n Hn].
  apply (lookup_timers _ _ _ _ _ Hidx) in Hn as (<- & i & Hi & Hn).
  destruct (idx_slot _ _ _ _ _ _ Hidx i) as (n' & ? & ? & Hii & _); [lia..|]. simplify_eq. lia.
Qed.

Lemma holds_extend cur H n m :
  holds (S cur) (<[cur := n]> H) m ↔ m = n ∨ holds cur H m.
Proof.
  split.
  - intros (i & Hi & Hm). destruct (decide (i = cur)) as [->|].
    + rewrite lookup_insert_eq in Hm. simplify_eq. by left.
    + rewrite lookup_insert_ne in Hm by done. right. exists i. split; [lia|done].
  - intros [-> |(i & Hi & Hm)].
    + exists cur. rewrite lookup_insert_eq. split; [lia|done].
    + exists i. rewrite lookup_insert_ne by lia. split; [lia|done].
Qed.

(** [reheapUp] of a new node from the first unused slot. *)
Lemma reheapUp_new h n v :
  (mCurSize h < mMaxSize h)%nat → Z.of_nat (mMaxSize h) < 2 ^ 31 →
  idx (mMaxSize h) (mCurSize h) (mCurSize h) ∅ (mHeap h) (mTimerIds h) →
  ord (mCurSize h) (mHeap h) →
  0 ≤ timerId n → mTimerIds h !! Z.to_nat (timerId n) = Some v → v < 0 →
  ∃ H' I', reheapUp n (mCurSize h) (HEAP_PARENT (mCurSize h)) h = Ok (upd H' I' h) ∧
    idx (mMaxSize h) (S (mCurSize h)) (S (mCurSize h)) ∅ H' I' ∧ ord (S (mCurSize h)) H' ∧
    cls <$> I' = <[Z.to_nat (timerId n) := Live]> (cls <$> mTimerIds h) ∧
    timers (with_cur S (upd H' I' h)) = <[timerId n := n]> (timers h).
Proof.
  intros Hroom Hmax Hidx Ho Hid Hv Hneg. set (cur := mCurSize h) in *.
  assert (idx (mMaxSize h) (S cur) cur (∅ ∪ {[timerId n]}) (mHeap h) (mTimerIds h)) as Hidx2.
  { by eapply idx_extend. }
  pose proof (lookup_lt_Some _ _ _ Hv) as Hlt. rewrite (idx_len _ _ _ _ _ _ Hidx) in Hlt.
  assert (sifted (S cur) (∅ ∪ {[timerId n]}) n cur h (reheapUp_loop cur n cur (HEAP_PARENT cur) h)) as Hs.
  { apply reheapUp_loop_ok; try done; [lia|]. split.
    - intros i Hi Hic. pose proof (HEAP_PARENT_lt i). apply key_le_insert_ne; [lia..|]. apply Ho. lia.
    - intros c Hc Hc0 Hpc. pose proof (HEAP_PARENT_lt c). lia. }
  eapply sifted_fill in Hs as (H' & I' & Hr & Hidx' & Ho' & Hc & Hh); [|lia|done|lia|set_solver].
  replace ((∅ ∪ {[timerId n]}) ∖ {[timerId n]} : gset Z) with (∅ : gset Z) in Hidx' by set_solver.
  exists H', I'. split_and!; try done.
  eapply timers_insert; [done|done| |by eapply timers_None].
  intros m. etrans; [apply Hh|apply holds_extend].
Qed.

Lemma reheap_fix cur s H m H1 :
  (s < cur)%nat → ord (S cur) H → full (S cur) H → H1 = <[s := m]> H →
  (∀ np, H1 !! HEAP_PARENT s = Some np → tv_ge (timerValue m) (timerValue np) = true → ord_down cur s H1) ∧
  (∀ np, H1 !! HEAP_PARENT s = Some np → tv_ge (timerValue m) (timerValue np) = false → ord_up cur s H1).
Proof.
  intros Hs Ho Hf ->.
  assert (∀ i, (0 < i < cur)%nat → i ≠ s → HEAP_PARENT i ≠ s →
            key_le (<[s:=m]> H) (HEAP_PARENT i) i) as Hother.
  { intros i Hi His Hps. apply key_le_insert_ne; [done..|]. apply Ho. lia. }
  assert (∀ c, (0 < c < cur)%nat → (0 < s)%nat → HEAP_PARENT c = s →
            key_le (<[s:=m]> H) (HEAP_PARENT s) c) as Hgrand.
  { intros c Hc Hs0 Hcs. pose proof (HEAP_PARENT_lt c). pose proof (HEAP_PARENT_lt s).
    apply key_le_insert_ne; [lia..|]. eapply (key_le_trans H _ s); [apply Hf; lia|apply Ho; lia|].
    rewrite <- Hcs. apply Ho. lia. }
  split; intros np Hnp Hge; (split; [|done]); intros i Hi Hps.
  - destruct (decide (i = s)) as [->|]; [|by apply Hother].
    intros a b Ha Hb. rewrite lookup_insert_eq in Hb. rewrite Hnp in Ha. simplify_eq. done.
  - destruct (decide (HEAP_PARENT i = s)) as [He|]; [|by apply Hother].
    assert (0 < s)%nat.
    { destruct s; [|lia]. rewrite lookup_insert_eq in Hnp. simplify_eq.
      pose proof (tle_refl (timerValue np)) as Hr. unfold tle, tv_le in Hr. congruence. }
    intros a b Ha Hb. rewrite He, lookup_insert_eq in Ha. simplify_eq.
    eapply tle_trans; [by apply tv_ge_false_tle|]. eapply (Hgrand i); eauto.
Qed.

Lemma holds_move l H slot m n :
  (slot < l)%nat → H !! l = Some m →
  holds l (<[slot := m]> H) n ↔ ∃ i, (i < S l)%nat ∧ i ≠ slot ∧ H !! i = Some n.
Proof.
  intros Hs Hm. split.
  - intros (i & Hi & Hn). destruct (decide (i = slot)) as [->|].
    + rewrite lookup_insert_eq in Hn. simplify_eq. exists l. split_and!; [lia|lia|done].
    + rewrite lookup_insert_ne in Hn by done. exists i. split_and!; [lia|done|done].
  - intros (i & Hi & His & Hn). destruct (decide (i = l)) as [->|].
    + simplify_eq. exists slot. by rewrite lookup_insert_eq.
    + exists i. rewrite lookup_insert_ne by done. split; [lia|done].
Qed.

Lemma remove_reheap_ok h slot n :
  idx (mMaxSize h) (S (mCurSize h)) (S (mCurSize h)) ∅ (mHeap h) (mTimerIds h) →
  ord (S (mCurSize h)) (mHeap h) → (S (mCurSize h) ≤ mMaxSize h)%nat → Z.of_nat (mMaxSize h) < 2 ^ 31 →
  (slot < S (mCurSize h))%nat → mHeap h !! slot = Some n →
  ∃ H' I', remove_reheap slot h = Ok (upd H' I' h) ∧
    idx (mMaxSize h) (mCurSize h) (mCurSize h) {[timerId n]} H' I' ∧ ord (mCurSize h) H' ∧
    cls <$> I' = cls <$> mTimerIds h ∧
    ∀ m, holds (mCurSize h) H' m ↔ ∃ i, (i < S (mCurSize h))%nat ∧ i ≠ slot ∧ mHeap h !! i = Some m.
Proof.
  intros Hidx Ho Hcm Hmax Hs Hn. set (l := mCurSize h) in *.
  pose proof (idx_open _ _ _ _ _ _ _ Hidx Hs Hn) as Hopen. rewrite union_empty_l_L in Hopen.
  unfold remove_reheap. fold l. destruct (slot <? l)%nat eqn:E; b2p; cycle 1.
  { assert (slot = l) as -> by lia. exists (mHeap h), (mTimerIds h).
    split_and!; [by destruct h|by apply (idx_shrink Hopen)| |done|].
    - intros i Hi. apply Ho. lia.
    - intros m. split; [intros (i & Hi & Hm)|intros (i & Hi & Hil & Hm)]; exists i;
        ((split_and!; [lia|lia|done]) || (split; [lia|done])). }
  destruct (idx_slot _ _ _ _ _ _ Hopen l) as (m & Hm & Hmr & Hmi & HmX); [lia..|].
  rewrite (heap_at_ok h l m), bind_Ok by (done || lia).
  rewrite copy_ok, bind_Ok by (lia || apply Hidx).
  assert (idx (mMaxSize h) l l {[timerId n]} (<[slot:=m]> (mHeap h))
            (<[Z.to_nat (timerId m):=Z.of_nat slot]> (mTimerIds h))) as Hidx1.
  { eapply idx_shrink; [eapply idx_move; eauto; lia|lia|done]. }
  assert (cls <$> <[Z.to_nat (timerId m):=Z.of_nat slot]> (mTimerIds h) = cls <$> mTimerIds h) as Hcl1.
  { eapply cls_insert_same; [done|]. unfold cls. by rewrite !Z.geb_leb, !(proj2 (Z.leb_le _ _)) by lia. }
  assert ((cls <$> mTimerIds h) !! Z.to_nat (timerId m) = Some Live) as HmL.
  { rewrite list_lookup_fmap, Hmi. cbn. f_equal. apply cls_Live. lia. }
  set (h1 := upd _ _ h).
  assert (idx (mMaxSize h1) l slot ({[timerId n]} ∪ {[timerId m]}) (mHeap h1) (mTimerIds h1)) as Hidx2.
  { eapply idx_open; [done|done|]. apply lookup_insert_eq. }
  assert (full (S l) (mHeap h)) as Hf.
  { intros i Hi. destruct (idx_slot _ _ _ _ _ _ Hidx i) as (n' & ? & _); [lia..|]. eauto. }
  destruct (reheap_fix l slot (mHeap h) m (<[slot:=m]> (mHeap h1))) as [Hdown Hup];
    [done..|by cbn; rewrite insert_insert_eq|].
  assert (full (S l) (<[slot:=m]> (mHeap h))) as Hf1.
  { intros i Hi. destruct (decide (i = slot)) as [->|]; [by rewrite lookup_insert_eq|].
    rewrite lookup_insert_ne by done. by apply Hf. }
  destruct (Hf1 (HEAP_PARENT slot)) as [np Hnp].
  { pose proof (HEAP_PARENT_lt slot). destruct slot; [cbn|]; lia. }
  assert (HEAP_PARENT slot < mMaxSize h1)%nat as Hpm.
  { pose proof (HEAP_PARENT_lt slot). cbn. destruct slot; [cbn|]; lia. }
  rewrite (heap_at_ok h1 (HEAP_PARENT slot) np), bind_Ok by done.
  assert (∀ r, sifted l ({[timerId n]} ∪ {[timerId m]}) m slot h1 r →
    ∃ H' I', ('(s, h) ← r; copy s m h) = Ok (upd H' I' h) ∧ idx (mMaxSize h) l l {[timerId n]} H' I' ∧
      ord l H' ∧ cls <$> I' = cls <$> mTimerIds h ∧
      ∀ k, holds l H' k ↔ ∃ i, (i < S l)%nat ∧ i ≠ slot ∧ mHeap h !! i = Some k) as Hfin.
  { intros r Hr. eapply sifted_fill in Hr as (H' & I' & Hr & Hi' & Ho' & Hc' & Hh'); [|cbn; lia|done|done|set_solver].
    exists H', I'. split_and!; [done| |done| |].
    - replace ({[timerId n]} : gset Z) with (({[timerId n]} ∪ {[timerId m]}) ∖ {[timerId m]} : gset Z);
        [done|set_solver].
    - rewrite Hc'. cbn. rewrite Hcl1. by apply list_insert_id.
    - intros k. rewrite Hh'. cbn. rewrite insert_insert_eq. by apply holds_move. }
  cbn in Hdown, Hup. rewrite !insert_insert_eq in Hdown, Hup.
  destruct (tv_ge _ _) eqn:Ege.
  - apply Hfin, reheapDown_loop_ok; cbn; try done; [lia..|]. rewrite insert_insert_eq. by eapply Hdown.
  - apply Hfin, reheapUp_loop_ok; cbn; try done; [lia..|]. rewrite insert_insert_eq. by eapply Hup.
Qed.

(** ** The operations preserve the invariant *)

Lemma freelist_nonfree max curr minfree P k a b :
  freelist_ok max curr minfree P → P !! k = Some a → a ≠ Free → b ≠ Free →
  freelist_ok max curr minfree (<[k := b]> P).
Proof.
  intros [Hc Hm Hmf Hl] Hk Ha Hb. split; [done|done| |].
  - intros Hlt. destruct (Hmf Hlt) as [Hfree ?]. rewrite list_lookup_insert_ne; [done|congruence].
  - rewrite take_insert. case_decide; [|done].
    pose proof (count_insert Free (take (Nat.min (S curr) minfree) P) k a b) as Hcnt.
    rewrite lookup_take_lt in Hcnt by done. specialize (Hcnt Hk). repeat case_decide; try done. lia.
Qed.

(** [remove] takes the node of a slot out of the heap and puts its id in limbo. *)
Lemma remove_ok h slot :
  inv h → (slot < mCurSize h)%nat →
  ∃ n h', mHeap h !! slot = Some n ∧ remove slot h = Ok (n, h') ∧ inv h' ∧
    mMaxSize h' = mMaxSize h ∧ mCurSize h = S (mCurSize h') ∧ mCurLimbo h' = S (mCurLimbo h) ∧
    cls <$> mTimerIds h' = <[Z.to_nat (timerId n) := Limbo]> (cls <$> mTimerIds h) ∧
    in_class h Live (timerId n) ∧ timers h' = delete (timerId n) (timers h).
Proof.
  intros Hinv Hs. pose proof (inv_idx _ Hinv) as Hidx. pose proof (inv_max _ Hinv).
  pose proof (inv_room _ Hinv).
  destruct (idx_slot _ _ _ _ _ _ Hidx slot) as (n & Hn & Hnr & Hni & _); [lia..|].
  destruct (mCurSize h) as [|l] eqn:Hcur; [lia|].
  set (h0 := with_cur pred h).
  assert (mCurSize h0 = l) as Hl by (cbn; by rewrite Hcur).
  destruct (remove_reheap_ok h0 slot n) as (H' & I' & Hr & Hi' & Ho' & Hc' & Hh');
    rewrite ?Hl in *; [by cbn..|by apply (inv_ord _ Hinv) || (rewrite <- Hcur; apply Hinv)|cbn; lia|cbn; lia|done|done|].
  assert ((cls <$> mTimerIds h) !! Z.to_nat (timerId n) = Some Live) as HL.
  { rewrite list_lookup_fmap, Hni. cbn. f_equal. apply cls_Live. lia. }
  set (h' := with_limbo S (upd H' (<[Z.to_nat (timerId n) := -2]> I') h0)).
  assert (idx (mMaxSize h') (mCurSize h') (mCurSize h') ∅ (mHeap h') (mTimerIds h')) as Hidx'.
  { replace (∅ : gset Z) with ({[timerId n]} ∖ {[timerId n]} : gset Z) by set_solver.
    change (mCurSize h') with (mCurSize h0). rewrite Hl. apply (idx_drop Hi'); cbn; [lia|set_solver|lia]. }
  assert (cls <$> mTimerIds h' = <[Z.to_nat (timerId n) := Limbo]> (cls <$> mTimerIds h)) as Hcls.
  { cbn. rewrite list_fmap_insert. by f_equal. }
  exists n, h'. split_and!; try done.
  - unfold remove. rewrite (heap_at_ok h slot n), bind_Ok by (done || lia).
    unfold dec_cur. rewrite Hcur. cbn. fold h0. rewrite Hr, bind_Ok, set_id_ok; [done|].
    cbn. rewrite (idx_len _ _ _ _ _ _ Hi'). cbn. lia.
  - pose proof (count_insert Live _ _ _ Limbo HL) as HcL. pose proof (count_insert Limbo _ _ _ Limbo HL) as HcB.
    rewrite (inv_live _ Hinv), Hcur in HcL. rewrite (inv_limbo _ Hinv) in HcB.
    repeat case_decide; try done.
    split; try rewrite Hcls; [done|exact Hidx'|cbn; by rewrite Hcur|cbn; lia|cbn; lia|cbn; lia|].
    eapply freelist_nonfree; [apply Hinv|done..].
  - cbn. by rewrite Hcur.
  - split; [lia|done].
  - eapply (timers_delete _ _ _ h h' slot n); [apply Hinv|exact Hidx'|lia|done|]. rewrite Hcur.
    intros m. cbn. rewrite Hcur. apply Hh'.
Qed.

(** [freeNode] of a node in limbo gives its id back. *)
Lemma freeNode_ok h n :
  inv h → in_class h Limbo (timerId n) →
  ∃ h', freeNode n h = Ok h' ∧ inv h' ∧ mMaxSize h' = mMaxSize h ∧ mCurSize h' = mCurSize h ∧
    mHeap h' = mHeap h ∧
    cls <$> mTimerIds h' = <[Z.to_nat (timerId n) := Free]> (cls <$> mTimerIds h) ∧
    timers h' = timers h.
Proof.
  intros Hinv [Hid Hcl]. pose proof (inv_idx _ Hinv) as Hidx.
  pose proof Hcl as (v & Hv & ->%cls_Limbo)%lookup_cls.
  pose proof (lookup_lt_Some _ _ _ Hv) as Hlt. rewrite (idx_len _ _ _ _ _ _ Hidx) in Hlt.
  set (id := Z.to_nat (timerId n)) in *.
  pose proof (count_insert Live _ _ _ Free Hcl) as HcL. pose proof (count_insert Limbo _ _ _ Free Hcl) as HcB.
  rewrite (inv_live _ Hinv) in HcL. rewrite (inv_limbo _ Hinv) in HcB.
  repeat case_decide; try done.
  unfold freeNode, pushFreelist. fold id. rewrite (id_at_ok _ _ _ Hv), bind_Ok.
  unfold dec_limbo. destruct (mCurLimbo h) as [|lim] eqn:Elim; [lia|].
  change (-2 =? -2) with true. change (S lim =? 0)%nat with false. cbv iota. rewrite bind_Ok.
  rewrite set_id_ok by (cbn; rewrite (idx_len _ _ _ _ _ _ Hidx); done). rewrite bind_Ok.
  cbn [upd with_limbo mTimerIdsMinFree mTimerIdsCurr].
  assert (idx (mMaxSize h) (mCurSize h) (mCurSize h) ∅ (mHeap h) (<[id := -1]> (mTimerIds h))) as Hidx'.
  { replace (∅ : gset Z) with (({[timerId n]} : gset Z) ∖ {[timerId n]}) by set_solver.
    apply idx_drop; [|lia|set_solver|lia]. split; try apply Hidx.
    - intros i Hi Hne. destruct (idx_slot _ _ _ _ _ _ Hidx i) as (m & ? & ? & Hmi & ?); [done..|].
      exists m. split_and!; [done|lia|lia|done|]. intros He%elem_of_singleton. rewrite He in Hmi. fold id in Hmi. simplify_eq. lia.
    - intros k w Hw Hw0 _. by apply (idx_id _ _ _ _ _ _ Hidx k w). }
  assert (cls <$> <[id := -1]> (mTimerIds h) = <[id := Free]> (cls <$> mTimerIds h)) as Hc'
    by (by rewrite list_fmap_insert).
  pose proof (inv_free _ Hinv) as [Hfc Hfm Hfmf Hfl]. pose proof (inv_max _ Hinv). pose proof (inv_room _ Hinv).
  pose proof (inv_ord _ Hinv). rewrite Elim in *.
  assert (∀ h', mMaxSize h' = mMaxSize h → mCurSize h' = mCurSize h → mCurLimbo h' = lim →
    mHeap h' = mHeap h → mTimerIds h' = <[id := -1]> (mTimerIds h) →
    freelist_ok (mMaxSize h) (mTimerIdsCurr h') (mTimerIdsMinFree h') (<[id := Free]> (cls <$> mTimerIds h)) →
    inv h') as Hmk.
  { intros h' E1 E2 E3 E4 E5 Hf. split; rewrite ?E1, ?E2, ?E3, ?E4, ?E5, ?Hc'; try done; lia. }
  destruct (_ && _) eqn:Etest; eexists; (split; [reflexivity|]); (split; [|done]);
    apply Hmk; try (cbn; by rewrite ?Elim); cbn [with_free upd with_limbo mTimerIdsMinFree mTimerIdsCurr].
  - b2p. split; [done|lia| |].
    + intros _. split; [|done]. apply list_lookup_insert_eq. rewrite length_fmap, (idx_len _ _ _ _ _ _ Hidx). done.
    + rewrite Nat.min_r, take_insert_ge by lia. etrans; [|exact Hfl]. apply count_take_mono. lia.
  - split; [done|done| |].
    + intros Hmlt. destruct (Hfmf Hmlt) as [Hf ?]. split; [|done].
      rewrite list_lookup_insert_ne; [done|]. intros He. rewrite <- He in Hf. congruence.
    + rewrite take_insert_ge; [done|]. split_andb; lia.
Qed.

(** Ids in use stay as they are when another id changes class. *)
Lemma in_class_insert h h' id k c a :
  cls <$> mTimerIds h' = <[Z.to_nat k := a]> (cls <$> mTimerIds h) → 0 ≤ k → id ≠ k →
  in_class h c id → in_class h' c id.
Proof.
  intros Hc Hk Hne [Hid Hl]. split; [done|]. rewrite Hc, list_lookup_insert_ne; [done|]. lia.
Qed.

Lemma growHeap_cls h :
  inv h → cls <$> mTimerIds (growHeap h) = (cls <$> mTimerIds h) ++ replicate (mMaxSize h) Free.
Proof.
  intros Hinv. pose proof (inv_max _ Hinv). cbn. rewrite fmap_app. f_equal.
  apply list_eq. intros i. rewrite !list_lookup_fmap. destruct (decide (i < mMaxSize h)%nat).
  - rewrite lookup_seq_lt, lookup_replicate_2 by done. cbn. f_equal. apply cls_Free. lia.
  - rewrite lookup_seq_ge, lookup_ge_None_2; [done|rewrite length_replicate|]; lia.
Qed.

(** [insert], [g] being the heap after the growth test. *)
Lemma insert_ok h g n v :
  g = (if (mMaxSize h <=? mCurSize h + mCurLimbo h + 2)%nat then growHeap h else h) →
  (mCurSize g < mMaxSize g)%nat → Z.of_nat (mMaxSize g) < 2 ^ 31 →
  idx (mMaxSize g) (mCurSize g) (mCurSize g) ∅ (mHeap g) (mTimerIds g) → ord (mCurSize g) (mHeap g) →
  0 ≤ timerId n → mTimerIds g !! Z.to_nat (timerId n) = Some v → v < 0 →
  ∃ H' I', let h' := with_cur S (upd H' I' g) in
    insert n h = Ok h' ∧
    idx (mMaxSize g) (mCurSize h') (mCurSize h') ∅ H' I' ∧ ord (mCurSize h') H' ∧
    cls <$> I' = <[Z.to_nat (timerId n) := Live]> (cls <$> mTimerIds g) ∧
    timers h' = <[timerId n := n]> (timers g).
Proof.
  intros Hg Hroom Hmax Hidx Ho Hid Hv Hneg. unfold insert. rewrite <- Hg.
  destruct (reheapUp_new g n v) as (H' & I' & -> & ? & ? & ? & ?); try done.
  exists H', I'. by rewrite bind_Ok.
Qed.

(** [reschedule] of a node in limbo puts it back under its id; it never grows the arrays. *)
Lemma reschedule_ok h n :
  inv h → in_class h Limbo (timerId n) →
  ∃ h', reschedule n h = Ok h' ∧ inv h' ∧ mMaxSize h' = mMaxSize h ∧
    mCurSize h' = S (mCurSize h) ∧
    cls <$> mTimerIds h' = <[Z.to_nat (timerId n) := Live]> (cls <$> mTimerIds h) ∧
    timers h' = <[timerId n := n]> (timers h).
Proof.
  intros Hinv [Hid Hcl]. pose proof Hcl as (v & Hv & ->%cls_Limbo)%lookup_cls.
  pose proof (inv_max _ Hinv). pose proof (inv_room _ Hinv).
  pose proof (count_insert Live _ _ _ Live Hcl) as HcL. pose proof (count_insert Limbo _ _ _ Live Hcl) as HcB.
  rewrite (inv_live _ Hinv) in HcL. rewrite (inv_limbo _ Hinv) in HcB.
  repeat case_decide; try done.
  unfold reschedule, dec_limbo. rewrite (id_at_ok _ _ _ Hv), bind_Ok.
  destruct (mCurLimbo h) as [|lim] eqn:Elim; [lia|].
  change (-2 =? -2) with true. change (S lim =? 0)%nat with false. cbv iota. rewrite bind_Ok.
  set (g := with_limbo pred h).
  destruct (insert_ok g g n (-2)) as (H' & I' & -> & Hidx' & Ho' & Hc' & Ht'); try done;
    [|cbn; lia|cbn; lia|apply Hinv|apply Hinv|].
  { cbn [g with_limbo mMaxSize mCurSize mCurLimbo]. rewrite Elim. rewrite (proj2 (Nat.leb_gt _ _)); [done|cbn; lia]. }
  eexists. split; [done|]. split; [|done]. cbn in Hc'.
  split; cbn; try rewrite Hc'; try rewrite Elim; cbn; try done; try lia.
  eapply freelist_nonfree; [apply Hinv|done..].
Qed.

Lemma count_replicate c k : c ≠ Free → count c (replicate k Free) = 0%nat.
Proof. intros Hc. apply count_none. intros i [Hi _]%lookup_replicate. congruence. Qed.

(** The arrays may still double: [copy] compares ids with [(int) mMaxSize]. *)
Definition may_grow (h : TimerHeap) : Prop :=
  (mMaxSize h ≤ mCurSize h + mCurLimbo h + 2)%nat → 2 * Z.of_nat (mMaxSize h) < 2 ^ 31.

(** The heap after the growth test of [insert], when an id has just been taken
    from the freelist. *)
Lemma grown_ok h id mf g :
  inv h → may_grow h → (cls <$> mTimerIds h) !! id = Some Free →
  freelist_ok (mMaxSize h) id mf (<[id := Live]> (cls <$> mTimerIds h)) →
  g = (if (mMaxSize h <=? mCurSize h + mCurLimbo h + 2)%nat then growHeap (with_free id mf h)
       else with_free id mf h) →
  mCurSize g = mCurSize h ∧ mCurLimbo g = mCurLimbo h ∧ mHeap g = mHeap h ∧
  (mMaxSize g = mMaxSize h ∨ mMaxSize g = (2 * mMaxSize h)%nat ∧
     (mMaxSize h = mCurSize h + mCurLimbo h + 2)%nat) ∧
  (mCurSize h + mCurLimbo h + 3 ≤ mMaxSize g)%nat ∧ Z.of_nat (mMaxSize g) < 2 ^ 31 ∧
  idx (mMaxSize g) (mCurSize h) (mCurSize h) ∅ (mHeap h) (mTimerIds g) ∧
  (∀ i v, mTimerIds h !! i = Some v → mTimerIds g !! i = Some v) ∧
  count Live (cls <$> mTimerIds g) = mCurSize h ∧ count Limbo (cls <$> mTimerIds g) = mCurLimbo h ∧
  freelist_ok (mMaxSize g) (mTimerIdsCurr g) (mTimerIdsMinFree g) (<[id := Live]> (cls <$> mTimerIds g)).
Proof.
  intros Hinv Hsmall Hfree Hfl Hg. pose proof (inv_max _ Hinv) as Hmax. pose proof (inv_room _ Hinv) as Hroom.
  pose proof (inv_idx _ Hinv) as Hidx. pose proof (inv_live _ Hinv). pose proof (inv_limbo _ Hinv).
  pose proof (lookup_lt_Some _ _ _ Hfree) as Hlt. rewrite length_fmap, (idx_len _ _ _ _ _ _ Hidx) in Hlt.
  destruct (_ <=? _)%nat eqn:E; b2p; subst g; cycle 1.
  { cbn. split_and!; try done; [by left|lia|lia]. }
  assert (mMaxSize h + length ((λ i, - (Z.of_nat i + 1)) <$> seq (mMaxSize h) (mMaxSize h)) =
    mMaxSize h * 2)%nat as Hdbl by (rewrite length_fmap, length_seq; lia).
  specialize (Hsmall E). pose proof (growHeap_cls _ Hinv) as Hcls. pose proof (free_count _ Hinv) as Hfc.
  pose proof (count_insert Free _ _ _ Live Hfree) as HcF. repeat case_decide; try done.
  cbn [growHeap with_free mCurSize mCurLimbo mHeap mMaxSize mTimerIdsCurr mTimerIdsMinFree mTimerIds].
  cbn [growHeap mTimerIds] in Hcls.
  split_and!; try done; [right; lia|lia|lia| | | | |].
  - rewrite <- Hdbl at 1. apply idx_grow; [done|]. apply Forall_fmap, Forall_forall. intros i _. cbn. lia.
  - intros i v Hv. by apply lookup_app_l_Some.
  - rewrite Hcls, count_app, count_replicate by done. lia.
  - rewrite Hcls, count_app, count_replicate by done. lia.
  - split; [lia|lia|lia|]. rewrite Nat.min_l by lia. rewrite Hcls, insert_app_l, take_app_le.
    + etrans; [apply count_take_le|]. lia.
    + rewrite length_insert, length_fmap, (idx_len _ _ _ _ _ _ Hidx). lia.
    + by rewrite length_fmap, (idx_len _ _ _ _ _ _ Hidx).
Qed.

(** What [scheduleI] returns: a fresh id, bound to the new timer. *)
Lemma scheduleI_ok h type act ft iv :
  inv h → may_grow h →
  ∃ id h', scheduleI type act ft iv h = Ok (id, h') ∧ inv h' ∧ in_class h Free id ∧
    mCurSize h' = S (mCurSize h) ∧ mCurLimbo h' = mCurLimbo h ∧
    (mMaxSize h' = mMaxSize h ∨ mMaxSize h' = (2 * mMaxSize h)%nat ∧
       (mMaxSize h = mCurSize h + mCurLimbo h + 2)%nat) ∧
    timers h !! id = None ∧ timers h' = <[id := mkNode type act ft iv id]> (timers h) ∧
    ∀ k c, k ≠ id → in_class h c k → in_class h' c k.
Proof.
  intros Hinv Hsmall. pose proof (inv_max _ Hinv) as Hmax. pose proof (inv_room _ Hinv) as Hroom.
  unfold scheduleI, timerIdGen. rewrite (proj2 (Nat.ltb_lt _ _)) by lia.
  destruct (popFreelist_ok h Hinv) as (id & mf & -> & Hfree & Hfl). rewrite bind_Ok.
  pose proof Hfree as (v & Hv & Hcv%cls_Free)%lookup_cls.
  destruct (grown_ok h id mf _ Hinv Hsmall Hfree Hfl eq_refl)
    as (Ec & El & Eh & Hgm & Hgr & Hg31 & Hidx & Hsub & HcL & HcB & Hgf).
  set (g := if (mMaxSize h <=? _)%nat then _ else _) in *. rewrite <- Ec, <- Eh in Hidx.
  set (node := mkNode type act ft iv (Z.of_nat id)).
  assert ((cls <$> mTimerIds g) !! id = Some Free) as Hgfree.
  { rewrite list_lookup_fmap, (Hsub _ _ Hv). cbn. f_equal. by apply cls_Free. }
  destruct (insert_ok (with_free id mf h) g node v) as (H' & I' & -> & Hidx' & Ho' & Hc' & Ht');
    cbn [timerId node]; rewrite ?Nat2Z.id; try done; [lia|rewrite Ec, Eh; apply Hinv|lia|by apply Hsub|lia|].
  cbn [timerId node] in Hc'. rewrite Nat2Z.id in Hc'. rewrite bind_Ok.
  pose proof (count_insert Live _ _ _ Live Hgfree) as HcL'.
  pose proof (count_insert Limbo _ _ _ Live Hgfree) as HcB'. repeat case_decide; try done.
  assert (timers g = timers h) as Htg by (unfold timers, nodes; by rewrite Ec, Eh).
  do 2 eexists. split; [done|]. split_and!.
  - split; cbn; try rewrite Hc'; try done; lia.
  - split; [lia|]. by rewrite Nat2Z.id.
  - cbn. by rewrite Ec.
  - done.
  - done.
  - eapply timers_None; [apply Hinv|lia|by rewrite Nat2Z.id|lia].
  - by rewrite Ht', Htg.
  - intros k c Hk [Hk0 Hkc]. split; [done|]. cbn. rewrite Hc', list_lookup_insert_ne by lia.
    apply lookup_cls in Hkc as (w & Hw & <-). by rewrite list_lookup_fmap, (Hsub _ _ Hw).
Qed.
