(* ===== verification/TimerQueue.v ===== *)
(** * TimerQueue: timers, their expiry and their cancellation
      (icc/TimerQueue.h, icc/TimerQueue.cpp, the cancel operations of
      icc/TimerHeap.cpp)

    [TimerQueueT] runs the upcalls of the expired timers and the heap stores
    them; the functor [EventHandlerHandleTimeoutUpcall] calls back into the
    event handlers, which are code of the application: the class
    [EventHandlers] is their interface, with the queue they can call back
    into as part of the state.  [LawfulHandlers] states what the queue relies
    on, [PassiveHandlers] are the handlers that leave the queue alone.

    The abstract specification of a queue is the finite map [timers]: the
    theorems say what each operation does to that map. *)
From Stdlib Require Import Sorted.
From S2P Require Import Prelude TimeValue TimerHeap.

(** ** The event handlers *)

(** [handleTimeout] returns the code of the handler; [W] is the state of the
    application. *)
Class EventHandlers (W : Type) := {
  handleTimeout : Z → TimeValue → Z → W → TimerHeap → result (Z * W * TimerHeap);
  handleClose : Z → W → TimerHeap → result (W * TimerHeap) }.

(** What a call out to the application may do to the queue: anything that
    keeps the invariant and does not touch the timers the queue holds in
    limbo. *)
Definition extends (h h' : TimerHeap) : Prop :=
  inv h' ∧ ∀ id, in_class h Limbo id → in_class h' Limbo id.

Class LawfulHandlers (W : Type) `{EventHandlers W} : Prop := {
  handleTimeout_ok eh t act w h : inv h →
    ∃ r w' h', handleTimeout eh t act w h = Ok (r, w', h') ∧ extends h h';
  handleClose_ok eh w h : inv h →
    ∃ w' h', handleClose eh w h = Ok (w', h') ∧ extends h h' }.

(** ** Operations *)

(** [TimerNodeDispatchInfoT]. *)
Record DispatchInfo := mkInfo { info_type : Z; info_act : Z; recurringTimer : bool }.

Definition getDispatchInfo (n : TimerNode) : DispatchInfo :=
  mkInfo (n_type n) (n_act n) (tv_gt (interval n) zero).

(** The interval timer skips the values that have already expired:
    [do timerValue += interval; while (timerValue <= cur_time)]. *)
Fixpoint advance (fuel : nat) (tv iv cur_time : TimeValue) : result TimeValue :=
  let tv := tv_add tv iv in
  if tv_le tv cur_time then
    match fuel with O => Fault OutOfFuel | S fuel => advance fuel tv iv cur_time end
  else Ok tv.

Definition advance_fuel (tv iv cur_time : TimeValue) : nat :=
  Z.to_nat ((usecs cur_time - usecs tv) / usecs iv).

Definition with_value (tv : TimeValue) (n : TimerNode) : TimerNode :=
  mkNode (n_type n) (n_act n) tv (interval n) (timerId n).

Definition dispatchInfoI (cur_time : TimeValue) (h : TimerHeap)
  : result (option DispatchInfo * TimerHeap) :=
  if isEmpty h then Ok (None, h) else
  t ← earliestTime h;
  if tv_le t cur_time then
    '(first, h) ← removeFirst h;
    match first with
    | None => Fault NullDeref
    | Some expired =>
        let info := getDispatchInfo expired in
        if tv_gt (interval expired) zero then
          tv ← advance (advance_fuel (timerValue expired) (interval expired) cur_time)
                 (timerValue expired) (interval expired) cur_time;
          h ← reschedule (with_value tv expired) h;
          Ok (Some info, h)
        else
          h ← freeNode expired h;
          Ok (Some info, h)
    end
  else Ok (None, h).

(** The lock is not modelled: the two functions differ in it only. *)
Definition dispatchInfo (cur_time : TimeValue) (h : TimerHeap)
  : result (option DispatchInfo * TimerHeap) := dispatchInfoI cur_time h.

Definition schedule (type act : Z) (future_time interval : TimeValue) (h : TimerHeap)
  : result (Z * TimerHeap) := scheduleI type act future_time interval h.

Definition returnNode (n : TimerNode) (h : TimerHeap) : result TimerHeap := freeNode n h.

(** [calculateTimeout (max)]; [now] is what [gettimeofday] returns. *)
Definition calculateTimeout (maxWaitTime : option TimeValue) (now : TimeValue) (h : TimerHeap)
  : result (option TimeValue) :=
  if isEmpty h then Ok maxWaitTime else
  t ← earliestTime h;
  if tv_gt t now then
    let mTimeout := tv_sub t now in
    Ok (match maxWaitTime with
        | None => Some mTimeout
        | Some m => if tv_gt m mTimeout then Some mTimeout else Some m
        end)
  else Ok (Some zero).

(** [calculateTimeout (max, theTimeout)]: [given] says that [theTimeout] is
    not a null pointer; the result is the value it points to on return. *)
Definition calculateTimeout2 (maxWaitTime : option TimeValue) (given : bool) (now : TimeValue) (h : TimerHeap)
  : result (option TimeValue) :=
  if negb given then Ok None else
  if isEmpty h then Ok maxWaitTime else
  t ← earliestTime h;
  if tv_gt t now then
    let theTimeout := tv_sub t now in
    Ok (Some (match maxWaitTime with
              | None => theTimeout
              | Some m => if tv_gt m theTimeout then theTimeout else m
              end))
  else Ok (Some zero).

Section upcalls.

Context {W : Type} `{EventHandlers W}.

(** [EventHandlerHandleTimeoutUpcall::cancellation]. *)
Definition cancellation (event_handler : Z) (dont_call : Z) (w : W) (h : TimerHeap) : result (W * TimerHeap) :=
  if dont_call =? 0 then handleClose event_handler w h else Ok (w, h).

(** [cancel (timer_id, act, dont_call)]: the code, the act on success. *)
Definition cancel_id (timer_id dont_call : Z) (w : W) (h : TimerHeap)
  : result (Z * option Z * W * TimerHeap) :=
  if (timer_id <? 0) || (timer_id >? Z.of_nat (mMaxSize h)) then Ok (0, None, w, h) else
  timer_node_slot ← id_at h (Z.to_nat timer_id);
  if timer_node_slot <? 0 then Ok (0, None, w, h) else
  n ← heap_at h (Z.to_nat timer_node_slot);
  if timer_id =? timerId n then
    '(temp, h) ← remove (Z.to_nat timer_node_slot) h;
    '(w, h) ← cancellation (n_type temp) dont_call w h;
    h ← freeNode temp h;
    Ok (1, Some (n_act temp), w, h)
  else Fault AssertFailed.

(** The loop of [cancel (type, dont_call)]. *)
Fixpoint cancel_loop (fuel : nat) (type : Z) (i : nat) (number : Z) (h : TimerHeap) : result (Z * TimerHeap) :=
  if (i <? mCurSize h)%nat then
    match fuel with
    | O => Fault OutOfFuel
    | S fuel =>
        n ← heap_at h i;
        if n_type n =? type then
          '(temp, h) ← remove i h;
          h ← freeNode temp h;
          cancel_loop fuel type 0 (number + 1) h
        else cancel_loop fuel type (S i) number h
    end
  else Ok (number, h).

Definition cancel_type (type dont_call : Z) (w : W) (h : TimerHeap) : result (Z * W * TimerHeap) :=
  '(number_of_cancellations, h) ← cancel_loop (S (mCurSize h) * S (mCurSize h)) type 0 0 h;
  '(w, h) ← cancellation type dont_call w h;
  Ok (number_of_cancellations, w, h).

(** [EventHandlerHandleTimeoutUpcall::timeout]. *)
Definition timeout (event_handler act : Z) (recurring_timer : bool) (cur_time : TimeValue) (w : W) (h : TimerHeap)
  : result (W * TimerHeap) :=
  '(r, w, h) ← handleTimeout event_handler cur_time act w h;
  if r =? -1 then
    '(_, w, h) ← cancel_type event_handler 0 w h; Ok (w, h)
  else Ok (w, h).

Definition upcall (info : DispatchInfo) (cur_time : TimeValue) (w : W) (h : TimerHeap)
  : result (W * TimerHeap) :=
  timeout (info_type info) (info_act info) (recurringTimer info) cur_time w h.

Fixpoint expire_loop (fuel : nat) (cur_time : TimeValue) (expired : Z) (w : W) (h : TimerHeap)
  : result (Z * W * TimerHeap) :=
  '(info, h) ← dispatchInfoI cur_time h;
  match info with
  | None => Ok (expired, w, h)
  | Some info =>
      match fuel with
      | O => Fault OutOfFuel
      | S fuel =>
          '(w, h) ← upcall info cur_time w h;
          expire_loop fuel cur_time (expired + 1) w h
      end
  end.

Definition expire (fuel : nat) (cur_time : TimeValue) (w : W) (h : TimerHeap) : result (Z * W * TimerHeap) :=
  if isEmpty h then Ok (0, w, h) else expire_loop fuel cur_time 0 w h.

(** The destructor's loop: free the nodes of the array, [deletion] does nothing. *)
Fixpoint destroy_loop (k i : nat) (w : W) (h : TimerHeap) : result (W * TimerHeap) :=
  match k with
  | O => Ok (w, h)
  | S k => n ← heap_at h i; h ← freeNode n h; destroy_loop k (S i) w h
  end.

Definition TimerHeap_destroy (w : W) (h : TimerHeap) : result (W * TimerHeap) :=
  destroy_loop (mCurSize h) 0 w h.

End upcalls.

(** ** Lemmas: the root of the heap is a minimum *)

Lemma inv_lookup h id n : inv h → timers h !! id = Some n ↔ timerId n = id ∧ holds (mCurSize h) (mHeap h) n.
Proof. intros Hinv. by eapply lookup_timers, inv_idx. Qed.

Lemma inv_slot h i : inv h → (i < mCurSize h)%nat →
  ∃ n, heap_at h i = Ok n ∧ mHeap h !! i = Some n ∧ timers h !! timerId n = Some n ∧
    in_class h Live (timerId n) ∧ mTimerIds h !! Z.to_nat (timerId n) = Some (Z.of_nat i).
Proof.
  intros Hinv Hi. pose proof (inv_room _ Hinv).
  destruct (idx_slot _ _ _ _ _ _ (inv_idx _ Hinv) i) as (n & Hn & Hr & Hni & _); [lia..|].
  exists n. split_and!; try done.
  - apply heap_at_ok; [lia|done].
  - apply inv_lookup; [done|]. split; [done|]. by exists i.
  - split; [lia|]. rewrite list_lookup_fmap, Hni. cbn. f_equal. apply cls_Live. lia.
Qed.

Lemma root_min cur H i : ord cur H → full cur H → (i < cur)%nat → key_le H 0 i.
Proof.
  intros Ho Hf. induction (lt_wf i) as [i _ IH]. intros Hi.
  destruct (decide (i = 0%nat)) as [->|Hne]; [intros a b ??; simplify_eq; apply tle_refl|].
  pose proof (HEAP_PARENT_lt i). eapply (key_le_trans _ _ (HEAP_PARENT i)); [apply Hf; lia|apply IH; lia|].
  apply Ho. lia.
Qed.

(** [timers] is empty exactly when [isEmpty] says so; else the root is minimal. *)
Lemma isEmpty_spec h : inv h → isEmpty h = true ↔ timers h = ∅.
Proof.
  intros Hinv. unfold isEmpty. rewrite Nat.eqb_eq. split.
  - intros Hc. apply map_empty. intros id. apply eq_None_not_Some. intros [n (_ & i & ? & _)%inv_lookup]; [|done]. lia.
  - intros He. destruct (mCurSize h) as [|l] eqn:E; [done|].
    destruct (inv_slot h 0 Hinv) as (n & _ & _ & Hn & _); [lia|]. by rewrite He, lookup_empty in Hn.
Qed.

Lemma root_spec h : inv h → isEmpty h = false →
  ∃ n, heap_at h 0 = Ok n ∧ mHeap h !! 0%nat = Some n ∧ timers h !! timerId n = Some n ∧
    ∀ id m, timers h !! id = Some m → tle (timerValue n) (timerValue m).
Proof.
  intros Hinv He. unfold isEmpty in He. b2p.
  destruct (inv_slot h 0 Hinv) as (n & ? & Hn & ? & _); [lia|]. exists n. split_and!; try done.
  intros id m (_ & i & Hi & Hm)%inv_lookup; [|done].
  eapply (root_min (mCurSize h) (mHeap h) i); eauto; [apply Hinv|].
  intros j Hj. destruct (inv_slot h j Hinv Hj) as (n' & _ & ? & _). eauto.
Qed.

Lemma earliestTime_ok h n : heap_at h 0 = Ok n → earliestTime h = Ok (timerValue n).
Proof. intros Hn. unfold earliestTime. by rewrite Hn. Qed.

(** ** Cancellation *)

(** Take one slot's timer out for good, as both [cancel]s do without upcall. *)
Lemma remove_free_ok h slot : inv h → (slot < mCurSize h)%nat →
  ∃ n h1 h2, remove slot h = Ok (n, h1) ∧ freeNode n h1 = Ok h2 ∧ mHeap h !! slot = Some n ∧
    inv h1 ∧ in_class h1 Limbo (timerId n) ∧ (∀ id, in_class h Limbo id → in_class h1 Limbo id) ∧
    inv h2 ∧ mMaxSize h1 = mMaxSize h ∧ mMaxSize h2 = mMaxSize h ∧ mCurSize h = S (mCurSize h2) ∧
    timers h1 = delete (timerId n) (timers h) ∧ timers h2 = delete (timerId n) (timers h) ∧
    (∀ id, in_class h Limbo id → in_class h2 Limbo id).
Proof.
  intros Hinv Hs. destruct (remove_ok h slot Hinv Hs) as (n & h1 & Hn & Hr & Hi1 & Hm1 & Hc1 & _ & Hcl1 & HL & Ht1).
  destruct HL as [Hid HL].
  assert (in_class h1 Limbo (timerId n)) as Hlim.
  { split; [done|]. rewrite Hcl1. apply list_lookup_insert_eq. by eapply lookup_lt_Some. }
  destruct (freeNode_ok h1 n Hi1 Hlim) as (h2 & Hf & Hi2 & Hm2 & Hc2 & _ & Hcl2 & Ht2).
  assert (∀ id, in_class h Limbo id → id ≠ timerId n) as Hne.
  { intros id [? Hl] ->. congruence. }
  assert (∀ id, in_class h Limbo id → in_class h1 Limbo id) as Hk1.
  { intros id Hl. eapply in_class_insert; [exact Hcl1|done|by apply Hne|done]. }
  exists n, h1, h2. split_and!; try done; [congruence..|].
  intros id Hl. eapply in_class_insert; [exact Hcl2|done|by apply Hne|by apply Hk1].
Qed.

Lemma cancel_loop_done type i num h :
  inv h → (mCurSize h ≤ i)%nat →
  (∀ j n, (j < i)%nat → mHeap h !! j = Some n → (j < mCurSize h)%nat → n_type n ≠ type) →
  ∃ h', Ok (num, h) = Ok (num + Z.of_nat (size (filter (λ p, n_type p.2 = type) (timers h))), h') ∧
    extends h h' ∧ mMaxSize h' = mMaxSize h ∧
    timers h' = filter (λ p, n_type p.2 ≠ type) (timers h).
Proof.
  intros Hinv Hi Hseen.
  assert (∀ id n, timers h !! id = Some n → n_type n ≠ type) as Hnone.
  { intros id n (_ & j & Hj & Hn)%inv_lookup; [|done]. eapply Hseen; [|done|done]. lia. }
  exists h. split_and!; [|done|done|].
  - rewrite map_empty_filter_2; [by rewrite map_size_empty, Z.add_0_r|].
    intros id n Hn. by eapply Hnone.
  - symmetry. apply map_filter_id. intros id n Hn. by eapply Hnone.
Qed.

Lemma cancel_loop_ok fuel N type i num h :
  inv h → (mCurSize h ≤ N)%nat → (mCurSize h * S N + (mCurSize h - i) ≤ fuel)%nat →
  (∀ j n, (j < i)%nat → mHeap h !! j = Some n → (j < mCurSize h)%nat → n_type n ≠ type) →
  ∃ h', cancel_loop fuel type i num h =
      Ok (num + Z.of_nat (size (filter (λ p, n_type p.2 = type) (timers h))), h') ∧
    extends h h' ∧ mMaxSize h' = mMaxSize h ∧
    timers h' = filter (λ p, n_type p.2 ≠ type) (timers h).
Proof.
  revert i num h. induction fuel as [|fuel IH]; intros i num h Hinv HN Hfuel Hseen; cbn [cancel_loop];
    (destruct (i <? mCurSize h)%nat eqn:E; b2p; [|by apply (cancel_loop_done _ i)]); [lia|].
  destruct (inv_slot h i Hinv E) as (n & -> & Hn & Hnt & _). rewrite bind_Ok.
  destruct (n_type n =? type) eqn:Et; b2p.
  - destruct (remove_free_ok h i Hinv E)
      as (n' & h1 & h2 & -> & Hf & Hn' & _ & _ & _ & Hi2 & _ & Hm2 & Hc2 & _ & Ht2 & Hl2).
    rewrite bind_Ok, Hf, bind_Ok. simplify_eq.
    destruct (IH 0%nat (num + 1) h2) as (h' & -> & [Hi' Hl'] & Hm' & Ht'); [done|lia|nia|lia|].
    exists h'. split_and!.
    + rewrite Ht2, map_filter_delete, map_size_delete_Some.
      2: { exists n. by apply map_lookup_filter_Some. }
      assert (size (filter (λ p, n_type p.2 = n_type n) (timers h)) ≠ 0%nat).
      { apply map_size_ne_0_lookup. exists (timerId n), n. by apply map_lookup_filter_Some. }
      do 2 f_equal. lia.
    + split; [done|]. auto.
    + congruence.
    + rewrite Ht', Ht2. rewrite map_filter_delete_not; [done|]. intros m Hm Hty. by simplify_eq.
  - apply IH; [done|done|lia|]. intros j m Hj Hm Hjc.
    destruct (decide (j = i)) as [->|]; [by simplify_eq|]. eapply Hseen; [|done..]. lia.
Qed.

(** ** Expiry *)

(** The interval loop ends just past [cur_time]. *)
Lemma advance_ok fuel tv iv cur :
  canonical tv → Z.abs (usecs tv) ≤ 2 * AGE → in_age iv → in_age cur → 0 < usecs iv → usecs tv ≤ usecs cur →
  (usecs cur - usecs tv) / usecs iv ≤ Z.of_nat fuel →
  ∃ tv', advance fuel tv iv cur = Ok tv' ∧ canonical tv' ∧ usecs cur < usecs tv' ≤ usecs cur + usecs iv ∧
    ∃ k, 1 ≤ k ∧ usecs tv' = usecs tv + k * usecs iv.
Proof.
  intros Htv Hage [Hci Hai] [Hcur Hac] Hiv. revert tv Htv Hage. induction fuel as [|fuel IH]; intros tv Htv Hage Hle Hf; cbn [advance];
    (destruct (tv_add_spec tv iv) as [Hu Hc]; [done|done|apply in_time_ages; lia|]); unfold tv_le; rewrite tv_ge_usecs, Hu by done;
    destruct (_ <=? _) eqn:E; b2p;
    try (eexists; split_and!; [done|done|lia|lia|exists 1; lia]).
  - exfalso. assert (1 ≤ (usecs cur - usecs tv) / usecs iv) by (apply Z.div_le_lower_bound; lia). lia.
  - destruct (IH (tv_add tv iv)) as (tv' & -> & ? & ? & k & ? & ?); [done|lia|lia| |].
    { rewrite Hu. replace (usecs cur - _) with (usecs cur - usecs tv + -1 * usecs iv) by lia.
      rewrite Z.div_add by lia. lia. }
    exists tv'. split_and!; [done|done|lia|lia|]. exists (k + 1). lia.
Qed.

(** Both times of a timer in canonical form, as the constructor of [TimeValue] makes
    them, and so that sums with the current time do not leave the range of [time_t]. *)
Definition node_canonical (n : TimerNode) : Prop :=
  (canonical (timerValue n) ∧ Z.abs (usecs (timerValue n)) ≤ 2 * AGE) ∧ in_age (interval n).

#[export] Instance node_canonical_dec n : Decision (node_canonical n).
Proof. unfold node_canonical. apply _. Defined.

(** A due timer. *)
Definition due (cur : TimeValue) (n : TimerNode) : Prop := tle (timerValue n) cur.

#[export] Instance due_dec cur n : Decision (due cur n).
Proof. unfold due, tle. apply _. Defined.

(** What becomes of a timer that expires at [cur_time]: a one-shot timer is
    dropped, an interval timer moves past [cur_time] in steps of its interval. *)
Definition rearm (cur_time : TimeValue) (n : TimerNode) : option TimerNode :=
  if tv_gt (interval n) zero then
    match advance (advance_fuel (timerValue n) (interval n) cur_time) (timerValue n) (interval n) cur_time with
    | Ok tv => Some (with_value tv n)
    | Fault _ => None
    end
  else None.

(** The queue after a timer expired. *)
Definition fire (cur_time : TimeValue) (n : TimerNode) (m : gmap Z TimerNode) : gmap Z TimerNode :=
  partial_alter (λ _, rearm cur_time n) (timerId n) m.

Lemma tv_gt_zero iv : canonical iv → tv_gt iv zero = (0 <? usecs iv).
Proof. intros. destruct canonical_zero as [Hz Hu]. by rewrite tv_gt_usecs, Hu. Qed.

Lemma due_usecs cur n : canonical cur → node_canonical n → due cur n ↔ usecs (timerValue n) ≤ usecs cur.
Proof. intros ? [[? _] _]. unfold due, tle, tv_le. rewrite tv_ge_usecs by done. apply Z.leb_le. Qed.

(** [rearm] of a due interval timer succeeds. *)
Lemma rearm_interval cur n :
  in_age cur → node_canonical n → due cur n → tv_gt (interval n) zero = true →
  ∃ tv, advance (advance_fuel (timerValue n) (interval n) cur) (timerValue n) (interval n) cur = Ok tv ∧
    rearm cur n = Some (with_value tv n) ∧ node_canonical (with_value tv n) ∧ ¬ due cur (with_value tv n) ∧
    usecs cur < usecs tv ≤ usecs cur + usecs (interval n) ∧
    ∃ k, 1 ≤ k ∧ usecs tv = usecs (timerValue n) + k * usecs (interval n).
Proof.
  intros Hage Hn Hdue Hiv. unfold rearm. rewrite Hiv. pose proof Hn as [[Hv Hva] Hi]. pose proof Hage as [Hcur Ha]. pose proof Hi as [Hic Hia].
  rewrite tv_gt_zero in Hiv by done. b2p. rewrite due_usecs in Hdue by done.
  destruct (advance_ok (advance_fuel (timerValue n) (interval n) cur) (timerValue n) (interval n) cur)
    as (tv & -> & Hc & Hlt & Hk); [done|done|done|done|done|done| |].
  { unfold advance_fuel. rewrite Z2Nat.id; [lia|]. apply Z.div_pos; lia. }
  assert (node_canonical (with_value tv n)) by (split; [split; [done|cbn; lia]|done]).
  exists tv. split_and!; try done; [|lia..]. rewrite due_usecs by done. cbn. lia.
Qed.

(** [dispatchInfoI] fires a minimal timer when it is due, and else does nothing. *)
Lemma dispatchInfoI_ok cur h :
  inv h → in_age cur → map_Forall (λ _, node_canonical) (timers h) →
  (dispatchInfoI cur h = Ok (None, h) ∧ map_Forall (λ _ n, ¬ due cur n) (timers h)) ∨
  ∃ n h', dispatchInfoI cur h = Ok (Some (getDispatchInfo n), h') ∧
    timers h !! timerId n = Some n ∧ due cur n ∧
    (∀ id m, timers h !! id = Some m → tle (timerValue n) (timerValue m)) ∧
    inv h' ∧ (∀ id, in_class h Limbo id → in_class h' Limbo id) ∧
    mMaxSize h' = mMaxSize h ∧ timers h' = fire cur n (timers h).
Proof.
  intros Hinv Hcur Hcan. unfold dispatchInfoI. destruct (isEmpty h) eqn:He.
  { left. split; [done|]. apply isEmpty_spec in He as ->; [|done]. apply map_Forall_empty. }
  destruct (root_spec h Hinv He) as (n & Hr & Hn & Ht & Hmin).
  rewrite (earliestTime_ok h n Hr), bind_Ok. destruct (tv_le _ _) eqn:Ele; cycle 1.
  { left. split; [done|]. intros id m Hm Hd. eapply Hmin in Hm.
    pose proof (tle_trans _ _ _ Hm Hd) as Hx. unfold tle in Hx. congruence. }
  right. assert (0 < mCurSize h)%nat as Hc by (unfold isEmpty in He; b2p; lia).
  destruct (remove_free_ok h 0 Hinv Hc)
    as (n' & h1 & h2 & Hrm & Hf & Hn' & Hi1 & Hlim & Hk1 & Hi2 & Hm1 & Hm2 & _ & Ht1 & Ht2 & Hk2).
  simplify_eq. unfold removeFirst. unfold isEmpty in He. rewrite He, Hrm, !bind_Ok.
  pose proof (Hcan _ _ Ht) as Hnc. unfold fire.
  destruct (tv_gt (interval n) zero) eqn:Eiv.
  - destruct (rearm_interval cur n) as (tv & -> & Hre & _); try done. rewrite bind_Ok.
    destruct (reschedule_ok h1 (with_value tv n) Hi1 Hlim) as (h' & -> & Hi' & Hm' & _ & Hcl & Ht').
    rewrite bind_Ok. exists n, h'. split_and!; try done.
    + intros id Hl. eapply in_class_insert; [exact Hcl| | |by apply Hk1]; cbn; [apply Hlim|].
      destruct Hl as [_ Hl]. intros ->. destruct (inv_slot h 0 Hinv Hc) as (m & _ & Hm & _ & [_ HL] & _).
      congruence.
    + congruence.
    + rewrite Ht', Ht1, Hre. cbn. by rewrite insert_delete_eq.
  - rewrite Hf, bind_Ok. exists n, h2. split_and!; try done.
    rewrite Ht2. unfold rearm. by rewrite Eiv.
Qed.

(** ** Handlers that leave the queue alone *)

(** [on_timeout] gives the return code of [handleTimeout]. *)
Record PassiveHandlers (W : Type) := mkPassive {
  on_timeout : Z → TimeValue → Z → W → Z * W;
  on_close : Z → W → W }.
Arguments on_timeout {W} _ _ _ _ _.
Arguments on_close {W} _ _ _.

Definition passive {W} (p : PassiveHandlers W) : EventHandlers W := {|
  handleTimeout eh t act w h := Ok ((on_timeout p eh t act w).1, (on_timeout p eh t act w).2, h);
  handleClose eh w h := Ok (on_close p eh w, h) |}.

Lemma passive_lawful {W} (p : PassiveHandlers W) : LawfulHandlers W (H := passive p).
Proof.
  split; cbn; intros; [do 3 eexists|do 2 eexists]; (split; [done|]); by split.
Qed.

Lemma fire_canonical cur n m :
  in_age cur → node_canonical n → due cur n → map_Forall (λ _, node_canonical) m →
  map_Forall (λ _, node_canonical) (fire cur n m).
Proof.
  intros Hcur Hn Hd Hm id k Hk. unfold fire in Hk.
  destruct (decide (id = timerId n)) as [->|]; [|rewrite lookup_partial_alter_ne in Hk by done; by eapply Hm].
  rewrite lookup_partial_alter_eq in Hk. unfold rearm in Hk. destruct (tv_gt _ _) eqn:E; [|done].
  destruct (rearm_interval cur n Hcur Hn Hd E) as (tv & Ha & _ & Hc & _). rewrite Ha in Hk. by simplify_eq.
Qed.

(** The timers still due after one fired. *)
Lemma fire_due cur n m :
  in_age cur → node_canonical n → due cur n → m !! timerId n = Some n →
  filter (λ p, due cur p.2) (fire cur n m) = delete (timerId n) (filter (λ p, due cur p.2) m).
Proof.
  intros Hcur Hn Hd Hm. apply map_eq. intros id. apply option_eq. intros k.
  rewrite map_lookup_filter_Some, lookup_delete_Some, map_lookup_filter_Some. unfold fire.
  destruct (decide (timerId n = id)) as [<-|].
  - rewrite lookup_partial_alter_eq. split; [|naive_solver]. intros [Hk Hdk]. exfalso.
    unfold rearm in Hk. destruct (tv_gt _ _) eqn:E; [|done].
    destruct (rearm_interval cur n Hcur Hn Hd E) as (tv & Ha & _ & _ & Hnd & _). rewrite Ha in Hk. by simplify_eq.
  - rewrite lookup_partial_alter_ne by done. naive_solver.
Qed.

(** What expiry at [cur_time] makes of one timer. *)
Definition expire_one (cur_time : TimeValue) (n : TimerNode) : option TimerNode :=
  if decide (due cur_time n) then rearm cur_time n else Some n.

Lemma omap_fire cur n m :
  in_age cur → node_canonical n → due cur n → m !! timerId n = Some n →
  omap (expire_one cur) (fire cur n m) = omap (expire_one cur) m.
Proof.
  intros Hcur Hn Hd Hm. apply map_eq. intros id. rewrite !lookup_omap. unfold fire.
  destruct (decide (timerId n = id)) as [<-|]; [|by rewrite lookup_partial_alter_ne].
  rewrite lookup_partial_alter_eq, Hm. cbn. unfold expire_one at 2. rewrite decide_True by done.
  destruct (tv_gt (interval n) zero) eqn:E; [|unfold rearm; by rewrite E].
  destruct (rearm_interval cur n Hcur Hn Hd E) as (tv & _ & -> & _ & Hnd & _). cbn.
  unfold expire_one. by rewrite decide_False.
Qed.

Lemma omap_expire_none cur (m : gmap Z TimerNode) :
  map_Forall (λ _ n, ¬ due cur n) m → omap (expire_one cur) m = m.
Proof.
  intros Hm. apply map_eq. intros id. rewrite lookup_omap. destruct (m !! id) as [n|] eqn:E; [|done].
  cbn. unfold expire_one. rewrite decide_False; [done|]. by eapply Hm.
Qed.

Section passive_expiry.

Context {W : Type} (p : PassiveHandlers W).

(** The effect of the upcalls of a list of timers on the application. *)
Definition run_timeouts (cur : TimeValue) (l : list TimerNode) (w : W) : W :=
  foldl (λ w n, (on_timeout p (n_type n) cur (n_act n) w).2) w l.

Lemma expire_loop_passive cur fuel k w h :
  (∀ eh t act w, (on_timeout p eh t act w).1 ≠ -1) →
  inv h → in_age cur → map_Forall (λ _, node_canonical) (timers h) →
  (size (filter (λ q, due cur q.2) (timers h)) ≤ fuel)%nat →
  ∃ l h', expire_loop (H := passive p) fuel cur k w h =
      Ok (k + #l, run_timeouts cur l w, h') ∧ inv h' ∧
    l ≡ₚ (map_to_list (filter (λ q, due cur q.2) (timers h))).*2 ∧
    StronglySorted (λ a b, tle (timerValue a) (timerValue b)) l ∧
    timers h' = omap (expire_one cur) (timers h).
Proof.
  intros Hret. revert k w h. induction fuel as [|fuel IH]; intros k w h Hinv Hcur Hcan Hsz; cbn [expire_loop];
    (destruct (dispatchInfoI_ok cur h Hinv Hcur Hcan)
      as [[-> Hnone]|(n & h1 & -> & Ht & Hd & Hmin & Hi1 & _ & _ & Ht1)]; rewrite bind_Ok;
     [exists [], h; rewrite map_empty_filter_2, map_to_list_empty, omap_expire_none by done;
      rewrite Z.add_0_r; split_and!; [done..|constructor|done]|]).
  - exfalso. assert (size (filter (λ q, due cur q.2) (timers h)) ≠ 0%nat); [|lia].
    apply map_size_ne_0_lookup. exists (timerId n), n. by apply map_lookup_filter_Some.
  - pose proof (Hcan _ _ Ht) as Hnc.
    assert (filter (λ q, due cur q.2) (timers h) !! timerId n = Some n) as Hl
      by (by apply map_lookup_filter_Some).
    assert (filter (λ q, due cur q.2) (timers h1) = delete (timerId n) (filter (λ q, due cur q.2) (timers h))) as Hd1.
    { rewrite Ht1. by apply fire_due. }
    cbn. rewrite (proj2 (Z.eqb_neq _ _)) by apply Hret. rewrite bind_Ok.
    destruct (IH (k + 1) (on_timeout p (n_type n) cur (n_act n) w).2 h1)
      as (l & h' & -> & Hi' & Hp & Hs & Ht'); [done|done| | |].
    { rewrite Ht1. by apply fire_canonical. }
    { rewrite Hd1, map_size_delete_Some by done. lia. }
    exists (n :: l), h'. split_and!; [|done| | |].
    + cbn [length run_timeouts foldl]. do 3 f_equal. lia.
    + rewrite <- (insert_delete_id _ _ _ Hl) at 1. rewrite map_to_list_insert by apply lookup_delete_eq.
      cbn. by rewrite Hp, Hd1.
    + constructor; [done|]. apply Forall_forall. intros m Hm. rewrite Hp in Hm.
      apply list_elem_of_fmap in Hm as ([id m'] & -> & Hm%elem_of_map_to_list). rewrite Hd1 in Hm.
      apply lookup_delete_Some in Hm as [_ [Hm _]%map_lookup_filter_Some]. by eapply Hmin.
    + rewrite Ht', Ht1. by apply omap_fire.
Qed.

(** The same of [expire], which first looks whether there is a timer. *)
Lemma expire_passive fuel cur w h :
  (∀ eh t act w, (on_timeout p eh t act w).1 ≠ -1) →
  inv h → in_age cur → map_Forall (λ _, node_canonical) (timers h) →
  (size (filter (λ q, due cur q.2) (timers h)) ≤ fuel)%nat →
  ∃ fired h', expire (H := passive p) fuel cur w h = Ok (#fired, run_timeouts cur fired w, h') ∧ inv h' ∧
    fired ≡ₚ (map_to_list (filter (λ q, due cur q.2) (timers h))).*2 ∧
    StronglySorted (λ a b, tle (timerValue a) (timerValue b)) fired ∧
    timers h' = omap (expire_one cur) (timers h).
Proof.
  intros Hret Hinv Hcur Hcan Hf. unfold expire. destruct (isEmpty h) eqn:He; [|by apply expire_loop_passive].
  apply isEmpty_spec in He; [|done]. exists [], h. rewrite He, map_filter_empty, map_to_list_empty, omap_empty.
  split_and!; try done. constructor.
Qed.

End passive_expiry.

(** ** Operations by timer id *)

(** An id in range is free, in limbo, or the id of a slot. *)
Lemma id_cases h id :
  inv h → 0 ≤ id < Z.of_nat (mMaxSize h) →
  ∃ v, id_at h (Z.to_nat id) = Ok v ∧
    (v < 0 ∧ timers h !! id = None ∨
     0 ≤ v ∧ (Z.to_nat v < mCurSize h)%nat ∧ ∃ n, mHeap h !! Z.to_nat v = Some n ∧
       heap_at h (Z.to_nat v) = Ok n ∧ timerId n = id ∧ timers h !! id = Some n).
Proof.
  intros Hinv Hr. pose proof (inv_idx _ Hinv) as Hidx.
  destruct (lookup_lt_is_Some_2 (mTimerIds h) (Z.to_nat id)) as [v Hv].
  { rewrite (idx_len _ _ _ _ _ _ Hidx). lia. }
  exists v. split; [by apply id_at_ok|]. destruct (decide (v < 0)) as [Hneg|Hneg].
  - left. split; [done|]. eapply timers_None; eauto. lia.
  - right. destruct (idx_id _ _ _ _ _ _ Hidx _ _ Hv) as (Hc & _ & n & Hn & Hid); [lia|set_solver|].
    split_and!; [lia|done|]. exists n. rewrite Z2Nat.id in Hid by lia.
    destruct (inv_slot h _ Hinv Hc) as (n' & ? & ? & Ht & _). simplify_eq. eauto.
Qed.

Lemma out_of_range h id :
  id < 0 ∨ Z.of_nat (mMaxSize h) < id → (id <? 0) || (id >? Z.of_nat (mMaxSize h)) = true.
Proof. rewrite Z.gtb_ltb, orb_true_iff, !Z.ltb_lt. done. Qed.

Lemma in_range h id :
  0 ≤ id ≤ Z.of_nat (mMaxSize h) → (id <? 0) || (id >? Z.of_nat (mMaxSize h)) = false.
Proof. rewrite Z.gtb_ltb, orb_false_iff, !Z.ltb_ge. lia. Qed.

Lemma timers_out_of_range h id :
  inv h → id < 0 ∨ Z.of_nat (mMaxSize h) ≤ id → timers h !! id = None.
Proof.
  intros Hinv Hr. apply eq_None_not_Some. intros [n (<- & i & Hi & Hn)%inv_lookup]; [|done].
  destruct (idx_slot _ _ _ _ _ _ (inv_idx _ Hinv) i) as (n' & ? & ? & _); [lia..|]. simplify_eq. lia.
Qed.

(** [cancel (timer_id)] up to the upcall: either the id names no timer, or its
    timer is out of the heap and in limbo. *)
Lemma cancel_id_cases {W} `{EventHandlers W} h id dont_call (w : W) :
  inv h → id ≠ Z.of_nat (mMaxSize h) →
  (timers h !! id = None ∧ cancel_id id dont_call w h = Ok (0, None, w, h)) ∨
  ∃ n h1, timers h !! id = Some n ∧ timerId n = id ∧ inv h1 ∧ in_class h1 Limbo id ∧
    mMaxSize h1 = mMaxSize h ∧ S (mCurSize h1) = mCurSize h ∧
    (∀ k, in_class h Limbo k → in_class h1 Limbo k ∧ k ≠ id) ∧ timers h1 = delete id (timers h) ∧
    cancel_id id dont_call w h =
      ('(w, h2) ← cancellation (n_type n) dont_call w h1; h3 ← freeNode n h2; Ok (1, Some (n_act n), w, h3)).
Proof.
  intros Hinv Hne. unfold cancel_id. destruct (decide (0 ≤ id < Z.of_nat (mMaxSize h))) as [Hr|Hr]; cycle 1.
  { left. rewrite out_of_range by lia. split; [apply timers_out_of_range; [done|lia]|done]. }
  rewrite in_range by lia. destruct (id_cases h id Hinv Hr) as (v & -> & Hcase). rewrite bind_Ok.
  destruct Hcase as [[Hv Hnone]|(Hv & Hc & n & Hn & -> & Hid & Ht)].
  { left. rewrite (proj2 (Z.ltb_lt _ _)) by done. done. }
  right. rewrite (proj2 (Z.ltb_ge _ _)) by done. rewrite bind_Ok, Hid, Z.eqb_refl.
  destruct (remove_ok h _ Hinv Hc) as (n' & h1 & ? & -> & Hi1 & Hm1 & Hc1 & _ & Hcl & [Hid0 HL] & Ht1).
  simplify_eq. rewrite bind_Ok. exists n, h1. split_and!; try done.
  - split; [done|]. rewrite Hcl. apply list_lookup_insert_eq. by eapply lookup_lt_Some.
  - intros k Hk. assert (k ≠ timerId n) by (intros ->; destruct Hk; congruence).
    split; [|done]. by eapply in_class_insert.
Qed.

(** Another interval in a node changes neither the order nor the index. *)
Lemma reset_node_ok h slot n iv id :
  inv h → (slot < mCurSize h)%nat → mHeap h !! slot = Some n → timerId n = id →
  ∃ h', Ok (0, with_heap <[slot := mkNode (n_type n) (n_act n) (timerValue n) iv id]> h) = Ok (0, h') ∧ inv h' ∧
    timers h' = <[id := mkNode (n_type n) (n_act n) (timerValue n) iv id]> (timers h).
Proof.
  intros Hinv Hs Hn Hid. set (n' := mkNode _ _ _ iv id).
  assert (∀ i k, <[slot := n']> (mHeap h) !! i = Some k →
    ∃ k0, mHeap h !! i = Some k0 ∧ timerId k = timerId k0 ∧ timerValue k = timerValue k0) as Hback.
  { intros i k [[-> <-]|[? Hk]]%lookup_insert_Some; eauto. }
  assert (inv (with_heap <[slot := n']> h)) as Hi'.
  { split; try apply Hinv; cbn.
    - pose proof (inv_idx _ Hinv) as Hidx. split; [apply Hidx| |].
      + intros i Hi Hne. destruct (idx_slot _ _ _ _ _ _ Hidx i) as (k & Hk & ? & Hki & ?); [done..|].
        destruct (decide (i = slot)) as [->|].
        * simplify_eq. exists n'. by rewrite lookup_insert_eq.
        * exists k. by rewrite lookup_insert_ne.
      + intros k v Hv H0 HX. destruct (idx_id _ _ _ _ _ _ Hidx k v Hv H0 HX) as (? & ? & m & Hm & He).
        split_and!; [done..|]. destruct (decide (Z.to_nat v = slot)) as [Hvs|].
        * rewrite Hvs in *. simplify_eq. exists n'. split; [apply lookup_insert_eq|exact He].
        * exists m. by rewrite lookup_insert_ne.
    - intros i Hi a b (a0 & Ha & _ & ->)%Hback (b0 & Hb & _ & ->)%Hback. by eapply (inv_ord _ Hinv). }
  eexists. split; [done|]. split; [done|]. apply map_eq. intros k. apply option_eq. intros m.
  rewrite lookup_insert_Some, !inv_lookup by done. cbn. split.
  - intros (<- & i & Hi & [[-> <-]|[Hne Hm]]%lookup_insert_Some); [by left|right].
    split; [|by split; [|exists i]]. intros He. apply Hne.
    eapply (idx_inj (inv_idx _ Hinv) slot i n m); eauto; [lia..|congruence].
  - intros [[<- <-]|(Hne & <- & i & Hi & Hm)].
    + split; [done|]. exists slot. by rewrite lookup_insert_eq.
    + split; [done|]. exists i. split; [done|]. rewrite lookup_insert_ne; [done|]. congruence.
Qed.

(** The destructor's loop: after [i] frees the nodes of the other slots are intact. *)
Lemma destroy_loop_ok {W} (w : W) k i h :
  mCurSize h = k → (i + k ≤ mMaxSize h)%nat → length (mTimerIds h) = mMaxSize h →
  (∀ j, (i ≤ j < i + k)%nat → ∃ n, mHeap h !! j = Some n ∧ 0 ≤ timerId n ∧
     mTimerIds h !! Z.to_nat (timerId n) = Some (Z.of_nat j)) →
  (∀ id v, mTimerIds h !! id = Some v → 0 ≤ v → (i ≤ Z.to_nat v < i + k)%nat ∧
     ∃ n, mHeap h !! Z.to_nat v = Some n ∧ timerId n = Z.of_nat id) →
  ∃ h', destroy_loop k i w h = Ok (w, h') ∧ mCurSize h' = 0%nat ∧ mCurLimbo h' = mCurLimbo h ∧
    Forall (λ v, v < 0) (mTimerIds h').
Proof.
  revert i h. induction k as [|k IH]; intros i h Hc Hm Hlen Hn Hids; cbn [destroy_loop].
  { exists h. split_and!; try done. apply Forall_lookup. intros id v Hv.
    destruct (decide (v < 0)); [done|]. destruct (Hids id v); [done|lia|lia]. }
  destruct (Hn i) as (n & Hni & Hid & Hv); [lia|].
  rewrite (heap_at_ok h i n), bind_Ok by (done || lia).
  unfold freeNode, pushFreelist, dec_cur. rewrite (id_at_ok _ _ _ Hv), bind_Ok.
  rewrite (proj2 (Z.eqb_neq _ _)), Hc by lia. change (S k =? 0)%nat with false. cbv iota. rewrite bind_Ok.
  pose proof (lookup_lt_Some _ _ _ Hv).
  rewrite set_id_ok, bind_Ok by done. set (g := upd _ _ _).
  assert (∀ a b, ∃ h', destroy_loop k (S i) w (with_free a b g) = Ok (w, h') ∧ mCurSize h' = 0%nat ∧
     mCurLimbo h' = mCurLimbo h ∧ Forall (λ v, v < 0) (mTimerIds h')) as Hstep.
  { intros a b. apply (IH (S i) (with_free a b g)); cbn.
    - by rewrite Hc.
    - lia.
    - by rewrite length_insert.
    - intros j Hj. destruct (Hn j) as (m & ? & ? & Hmj); [lia|]. exists m. split_and!; try done.
      rewrite list_lookup_insert_ne; [done|]. intros He. rewrite He in Hv. simplify_eq. lia.
    - intros id v [(_ & <- & _)|[Hne Hl]]%list_lookup_insert_Some H0; [lia|].
      destruct (Hids id v Hl H0) as (Hr & m & Hmv & Hmid). split; [|by exists m].
      destruct (decide (Z.to_nat v = i)) as [He|]; [|lia]. rewrite He in Hmv. simplify_eq. lia. }
  destruct (_ && _); [apply Hstep|]. apply (Hstep (mTimerIdsCurr g) (mTimerIdsMinFree g)).
Qed.

(** ** A new queue *)

Lemma new_queue_inv size :
  (2 ≤ size)%nat → Z.of_nat size < 2 ^ 31 →
  inv (TimerHeap_new size) ∧ timers (TimerHeap_new size) = ∅.
Proof.
  intros H2 Hs. unfold TimerHeap_new. rewrite Z.gtb_ltb, (proj2 (Z.ltb_ge _ _)) by lia.
  split; [|done].
  assert (cls <$> replicate size (-1) = replicate size Free) as Hc by apply fmap_replicate.
  split; cbn; rewrite ?Hc, ?count_replicate; try done; try lia.
  - split; [apply length_replicate|lia|]. intros id v [-> _]%lookup_replicate. lia.
  - split; [lia|lia| |change (count Free [] ≤ 1)%nat; unfold count; cbn; lia]. intros _. rewrite lookup_replicate_2 by lia. split; [done|lia].
Qed.

(** ** Properties *)

(** A new queue satisfies the invariant and holds no timer. *)
Theorem new_queue_empty size :
  (2 ≤ size)%nat → Z.of_nat size < 2 ^ 31 →
  inv (TimerHeap_new size) ∧ timers (TimerHeap_new size) = ∅.
Proof. apply new_queue_inv. Qed.

Example new_queue_empty_witness : timers (TimerHeap_new 4) = ∅ ∧ (2 ≤ 4)%nat ∧ Z.of_nat 4 < 2 ^ 31.
Proof.
  assert (2 ≤ 4)%nat as Ha by lia. assert (Z.of_nat 4 < 2 ^ 31) as Hb by lia.
  destruct (new_queue_empty 4 Ha Hb). done.
Defined.

(** [schedule] always finds a free id (the freelist search cannot miss,
    whatever ids were freed before, and the arrays double in time), binds the
    new timer to it and touches no other timer. *)
Lemma schedule_adds_timer h type act ft iv :
  inv h → may_grow h →
  ∃ id h', schedule type act ft iv h = Ok (id, h') ∧ inv h' ∧
    0 ≤ id < Z.of_nat (mMaxSize h) ∧ timers h !! id = None ∧
    timers h' = <[id := mkNode type act ft iv id]> (timers h).
Proof.
  intros Hinv Hg. destruct (scheduleI_ok h type act ft iv Hinv Hg)
    as (id & h' & Hs & Hi & [Hid Hfree] & _ & _ & _ & Hnone & Ht & _).
  exists id, h'. split_and!; try done.
  apply lookup_lt_Some in Hfree. rewrite length_fmap, (idx_len _ _ _ _ _ _ (inv_idx _ Hinv)) in Hfree. lia.
Qed.

(** A queue of three timers, used as the concrete input of the witnesses. *)
Definition queue_of (l : list (Z * TimeValue * TimeValue)) (h : TimerHeap) : result TimerHeap :=
  foldl (λ r '(type, ft, iv), h ← r; '(_, h) ← schedule type 0 ft iv h; Ok h) (Ok h) l.

Definition three_timers : TimerHeap :=
  match queue_of [(7, mkTV 3 0, zero); (8, mkTV 1 0, mkTV 2 0); (7, mkTV 9 0, zero)] (TimerHeap_new 4) with
  | Ok h => h | Fault _ => TimerHeap_new 4 end.

Lemma queue_of_inv l h :
  inv h → 2 * Z.of_nat (mCurSize h + mCurLimbo h + length l + 2) < 2 ^ 31 →
  ∃ h', queue_of l h = Ok h' ∧ inv h'.
Proof.
  revert h. induction l as [|[[ty ft] iv] l IH]; intros h Hinv Hb; [by exists h|].
  destruct (scheduleI_ok h ty 0 ft iv Hinv) as (id & h1 & Hs & Hi1 & _ & Hc1 & Hl1 & _).
  { intros Hgr. pose proof (inv_room _ Hinv). cbn in Hb. lia. }
  unfold queue_of. cbn. unfold schedule. rewrite Hs, bind_Ok. apply IH; [done|].
  rewrite Hc1, Hl1. cbn in Hb. lia.
Qed.

Lemma three_timers_inv : inv three_timers.
Proof.
  unfold three_timers.
  match goal with |- context [queue_of ?l ?h] => destruct (queue_of_inv l h) as (h' & -> & Hi) end.
  - apply new_queue_inv; lia.
  - cbn. lia.
  - done.
Qed.

Lemma three_timers_canonical : map_Forall (λ _, node_canonical) (timers three_timers).
Proof. apply (bool_decide_unpack _). vm_compute. exact I. Qed.

Example schedule_adds_timer_witness :
  inv three_timers ∧ may_grow three_timers ∧
  ∃ id h', schedule 5 6 (mkTV 4 0) zero three_timers = Ok (id, h') ∧ timers three_timers !! id = None ∧ inv h'.
Proof.
  assert (may_grow three_timers) as Hg by (intros _; vm_compute; reflexivity).
  split; [apply three_timers_inv|]. split; [exact Hg|].
  destruct (schedule_adds_timer three_timers 5 6 (mkTV 4 0) zero three_timers_inv Hg)
    as (id & h' & H1 & H2 & _ & H3 & _).
  exists id, h'. exact (conj H1 (conj H3 H2)).
Defined.

(** [cancel (timer_id)] without upcall (the default) removes exactly the
    timer with that id, makes the id free for another timer, and returns 1
    and its [act]; for an id that names no
    timer (free, in limbo, negative or beyond the arrays) it returns 0 and
    changes nothing. *)
Lemma cancel_id_removes {W} `{EventHandlers W} h id dont_call (w : W) :
  inv h → dont_call ≠ 0 → id ≠ Z.of_nat (mMaxSize h) →
  match timers h !! id with
  | None => cancel_id id dont_call w h = Ok (0, None, w, h)
  | Some n => ∃ h', cancel_id id dont_call w h = Ok (1, Some (n_act n), w, h') ∧ inv h' ∧
                timers h' = delete id (timers h) ∧ in_class h' Free id
  end.
Proof.
  intros Hinv Hdc Hne. destruct (cancel_id_cases h id dont_call w Hinv Hne)
    as [[-> Hc]|(n & h1 & -> & Hid & Hi1 & Hlim & _ & _ & _ & Ht1 & ->)]; [done|].
  unfold cancellation. rewrite (proj2 (Z.eqb_neq _ _)), bind_Ok by done.
  rewrite <- Hid in Hlim. destruct (freeNode_ok h1 n Hi1 Hlim) as (h2 & -> & Hi2 & _ & _ & _ & Hcl2 & Ht2).
  exists h2. rewrite bind_Ok, Ht2, Ht1. split_and!; try done. destruct Hlim as [Hid0 Hl]. rewrite <- Hid.
  split; [done|]. rewrite Hcl2. apply list_lookup_insert_eq. by eapply lookup_lt_Some.
Qed.

(** Handlers for the witnesses: a log of the upcalls, every call returns 0. *)
Definition logging : PassiveHandlers (list (Z * Z)) :=
  mkPassive _ (λ eh _ act w, (0, w ++ [(eh, act)])) (λ eh w, w ++ [(eh, -1)]).

Example cancel_id_removes_witness :
  inv three_timers ∧ ∃ h', cancel_id (H := passive logging) 2 1 [] three_timers = Ok (1, Some 0, [], h') ∧ inv h'.
Proof.
  pose proof (cancel_id_removes (H := passive logging) three_timers 2 1 [] three_timers_inv
    ltac:(lia) ltac:(vm_compute; discriminate)) as Hc.
  assert (timers three_timers !! 2 = Some (mkNode 8 0 (mkTV 1 0) (mkTV 2 0) 2)) as Ht by (vm_compute; reflexivity).
  rewrite Ht in Hc. destruct Hc as (h' & Hc & Hi & _).
  split; [apply three_timers_inv|]. exists h'. exact (conj Hc Hi).
Defined.

(** the range check of [cancel (timer_id)] and [resetInterval] admits
    [timer_id == mMaxSize], one past the end of [mTimerIds]: for that id both
    read out of bounds, in every state. *)
Lemma cancel_past_the_end {W} `{EventHandlers W} h dont_call iv (w : W) :
  inv h → cancel_id (Z.of_nat (mMaxSize h)) dont_call w h = Fault OutOfBounds ∧
  resetInterval (Z.of_nat (mMaxSize h)) iv h = Fault OutOfBounds.
Proof.
  intros Hinv. unfold cancel_id, resetInterval. rewrite in_range by lia.
  unfold id_at. rewrite lookup_ge_None_2; [done|].
  rewrite (idx_len _ _ _ _ _ _ (inv_idx _ Hinv)). lia.
Qed.

Example cancel_past_the_end_witness :
  inv three_timers ∧ resetInterval (Z.of_nat (mMaxSize three_timers)) zero three_timers = Fault OutOfBounds.
Proof.
  split; [apply three_timers_inv|].
  apply (cancel_past_the_end (H := passive logging) three_timers 1 zero [] three_timers_inv).
Defined.

(** [cancel (type)] returns the number of timers of the handler and
    removes exactly those; the loop, which restarts from the root after each
    removal, ends. *)
Lemma cancel_type_removes {W} `{EventHandlers W} h type dont_call (w : W) :
  inv h → dont_call ≠ 0 →
  ∃ h', cancel_type type dont_call w h =
      Ok (Z.of_nat (size (filter (λ p, n_type p.2 = type) (timers h))), w, h') ∧ inv h' ∧
    timers h' = filter (λ p, n_type p.2 ≠ type) (timers h).
Proof.
  intros Hinv Hdc. unfold cancel_type.
  destruct (cancel_loop_ok (S (mCurSize h) * S (mCurSize h)) (mCurSize h) type 0 0 h)
    as (h' & -> & [Hi' _] & _ & Ht'); [done|done|nia|lia|].
  unfold cancellation. rewrite bind_Ok, (proj2 (Z.eqb_neq _ _)), bind_Ok by done.
  exists h'. done.
Qed.

Example cancel_type_removes_witness :
  inv three_timers ∧ ∃ h', cancel_type (H := passive logging) 7 1 [] three_timers = Ok (2, [], h').
Proof.
  split; [apply three_timers_inv|].
  destruct (cancel_type_removes (H := passive logging) three_timers 7 1 [] three_timers_inv ltac:(lia))
    as (h' & Hc & _).
  exists h'. rewrite Hc. vm_compute. reflexivity.
Defined.

(** handlers may call back into the queue from [handleClose] and
    [handleTimeout].  As long as each such call keeps the invariant and leaves
    alone the timers the queue holds in limbo (every operation of the queue
    does), both [cancel]s with upcall, and the [timeout] upcall, return and
    keep the invariant: the node being cancelled stays valid until it is
    freed. *)
Lemma upcalls_keep_invariant {W} `{LawfulHandlers W} h id type dont_call act recurring cur (w : W) :
  inv h → id ≠ Z.of_nat (mMaxSize h) →
  (∃ r a w' h', cancel_id id dont_call w h = Ok (r, a, w', h') ∧ inv h') ∧
  (∃ r w' h', cancel_type type dont_call w h = Ok (r, w', h') ∧ extends h h') ∧
  (∃ w' h', timeout type act recurring cur w h = Ok (w', h') ∧ extends h h').
Proof.
  intros Hinv Hne.
  assert (∀ eh dc w h, inv h → ∃ w' h', cancellation eh dc w h = Ok (w', h') ∧ extends h h') as Hcan.
  { intros eh dc w0 h0 Hi0. unfold cancellation. destruct (dc =? 0); [by apply handleClose_ok|].
    do 2 eexists. split; [done|by split]. }
  assert (∀ ty dc w h, inv h → ∃ r w' h', cancel_type ty dc w h = Ok (r, w', h') ∧ extends h h') as Hct.
  { intros ty dc w0 h0 Hi0. unfold cancel_type.
    destruct (cancel_loop_ok (S (mCurSize h0) * S (mCurSize h0)) (mCurSize h0) ty 0 0 h0)
      as (h1 & -> & [Hi1 Hl1] & _); [done|done|nia|lia|]. rewrite bind_Ok.
    destruct (Hcan ty dc w0 h1 Hi1) as (w2 & h2 & -> & Hi2 & Hl2). rewrite bind_Ok.
    do 3 eexists. split; [done|]. split; auto. }
  split_and!; [|by apply Hct|].
  - destruct (cancel_id_cases h id dont_call w Hinv Hne)
      as [[_ ->]|(n & h1 & _ & <- & Hi1 & Hlim & _ & _ & _ & _ & ->)]; [by eauto 6|].
    destruct (Hcan (n_type n) dont_call w h1 Hi1) as (w2 & h2 & -> & Hi2 & Hl2). rewrite bind_Ok.
    destruct (freeNode_ok h2 n Hi2) as (h3 & -> & Hi3 & _); [by apply Hl2|]. by eauto 6.
  - unfold timeout. destruct (handleTimeout_ok type cur act w h Hinv) as (r & w1 & h1 & -> & Hi1 & Hl1).
    rewrite bind_Ok. destruct (r =? -1); [|do 2 eexists; split; [done|by split]].
    destruct (Hct type 0 w1 h1 Hi1) as (r2 & w2 & h2 & -> & Hi2 & Hl2). rewrite bind_Ok.
    do 2 eexists. split; [done|]. split; auto.
Qed.

(** A handler that cancels every timer of handler 8 when it is closed. *)
Definition closing : EventHandlers nat := {|
  handleTimeout _ _ _ w h := Ok (-1, w, h);
  handleClose eh w h :=
    '(_, _, h) ← cancel_type (H := passive logging) 8 1 [] h; Ok (S w, h) |}.

Lemma closing_lawful : LawfulHandlers nat (H := closing).
Proof.
  split; intros; cbn [handleTimeout handleClose closing].
  - do 3 eexists. split; [done|]. by split.
  - unfold cancel_type.
    destruct (cancel_loop_ok (S (mCurSize h) * S (mCurSize h)) (mCurSize h) 8 0 0 h)
      as (h1 & -> & Hx & _); [done|done|nia|lia|]. do 2 eexists. split; [done|]. done.
Qed.

Example upcalls_keep_invariant_witness :
  inv three_timers ∧ ∃ r a w' h', cancel_id (H := closing) 1 0 0%nat three_timers = Ok (r, a, w', h') ∧ inv h'.
Proof.
  split; [apply three_timers_inv|].
  apply (@upcalls_keep_invariant nat closing closing_lawful three_timers 1 7 0 0 false zero 0%nat three_timers_inv
    ltac:(vm_compute; discriminate)).
Defined.

(** C2: [expire (cur_time)], with handlers that leave the queue alone and do
    not return -1, returns the number of due timers; it runs the upcall of
    each due timer exactly once, in the order of their expiry times; one-shot
    timers are then gone, interval timers move past [cur_time] by the least
    multiple of their interval, and the other timers are untouched.  Fuel for
    one round per due timer is enough: the loop ends.  The current time and the
    intervals are within [AGE], so that no sum overflows [time_t]. *)
Theorem expire_fires_due_timers {W} (p : PassiveHandlers W) cur (w : W) h fuel :
  (∀ eh t act w, (on_timeout p eh t act w).1 ≠ -1) →
  inv h → in_age cur → map_Forall (λ _, node_canonical) (timers h) →
  (size (filter (λ q, due cur q.2) (timers h)) ≤ fuel)%nat →
  ∃ fired h', expire (H := passive p) fuel cur w h =
      Ok (#fired, run_timeouts p cur fired w, h') ∧ inv h' ∧
    fired ≡ₚ (map_to_list (filter (λ q, due cur q.2) (timers h))).*2 ∧
    StronglySorted (λ a b, tle (timerValue a) (timerValue b)) fired ∧
    ∀ id, match timers h !! id with
          | None => timers h' !! id = None
          | Some n =>
              if decide (due cur n) then
                if tv_gt (interval n) zero then
                  ∃ tv, timers h' !! id = Some (with_value tv n) ∧ canonical tv ∧
                    usecs cur < usecs tv ≤ usecs cur + usecs (interval n) ∧
                    ∃ k, 1 ≤ k ∧ usecs tv = usecs (timerValue n) + k * usecs (interval n)
                else timers h' !! id = None
              else timers h' !! id = Some n
          end.
Proof.
  intros Hret Hinv Hcur Hcan Hf. destruct (expire_passive p fuel cur w h) as (fired & h' & Hx & Hi & Hp & Hs & Ht); try done.
  exists fired, h'. split_and!; try done. intros id. rewrite Ht, lookup_omap.
  destruct (timers h !! id) as [n|] eqn:E; [|done]. cbn. unfold expire_one.
  destruct (decide (due cur n)) as [Hd|]; [|done].
  destruct (tv_gt _ _) eqn:Eg; [|unfold rearm; by rewrite Eg].
  destruct (rearm_interval cur n Hcur (Hcan _ _ E) Hd Eg) as (tv & _ & -> & [[Hc _] _] & _ & Hr & Hk). eauto.
Qed.

Example expire_fires_due_timers_witness :
  inv three_timers ∧ ∃ h', expire (H := passive logging) 3 (mkTV 5 0) [] three_timers = Ok (2, [(8, 0); (7, 0)], h').
Proof.
  split; [apply three_timers_inv|].
  destruct (expire_fires_due_timers logging (mkTV 5 0) [] three_timers 3) as (l & h' & Hx & _).
  - intros. cbn. lia.
  - apply three_timers_inv.
  - vm_compute. intuition discriminate.
  - apply three_timers_canonical.
  - vm_compute. lia.
  - assert (expire (H := passive logging) 3 (mkTV 5 0) [] three_timers =
      Ok (2, [(8, 0); (7, 0)], h')) as Hr; [|exists h'; exact Hr].
    rewrite Hx. revert Hx. vm_compute. congruence.
Defined.

(** [calculateTimeout] returns how long the reactor may wait: the caller's
    bound when no timer is scheduled, zero when a timer is due, and otherwise
    the smaller of the bound and the time to the earliest timer. *)
Lemma calculateTimeout_spec maxWait now h :
  inv h → in_age now → map_Forall (λ _, node_canonical) (timers h) →
  (∀ m, maxWait = Some m → canonical m) →
  calculateTimeout2 maxWait true now h = calculateTimeout maxWait now h ∧
  ((timers h = ∅ ∧ calculateTimeout maxWait now h = Ok maxWait) ∨
   ∃ n t, timers h !! timerId n = Some n ∧
     (∀ id m, timers h !! id = Some m → usecs (timerValue n) ≤ usecs (timerValue m)) ∧
     calculateTimeout maxWait now h = Ok (Some t) ∧ canonical t ∧
     usecs t = match maxWait with
               | Some m => if usecs (timerValue n) <=? usecs now then 0
                           else Z.min (usecs m) (usecs (timerValue n) - usecs now)
               | None => Z.max 0 (usecs (timerValue n) - usecs now)
               end).
Proof.
  intros Hinv Hnow Hcan Hmax. unfold calculateTimeout, calculateTimeout2. cbn [negb].
  destruct (isEmpty h) eqn:He. { split; [done|]. left. by apply isEmpty_spec in He. }
  destruct (root_spec h Hinv He) as (n & Hr & _ & Ht & Hmin).
  rewrite (earliestTime_ok h n Hr), !bind_Ok. pose proof (Hcan _ _ Ht) as [[Hn Hna] _]. destruct Hnow as [Hnow Hnowa].
  rewrite tv_gt_usecs by done. destruct (tv_sub_spec (timerValue n) now) as [Hu Hc]; [done|done|apply in_time_ages; lia|].
  destruct canonical_zero as [Hzc Hzu].
  split; [destruct (_ <? _); destruct maxWait; try done; by destruct (tv_gt _ _)|].
  right. exists n. assert (∀ id m, timers h !! id = Some m → usecs (timerValue n) ≤ usecs (timerValue m)) as Hmin'.
  { intros id m Hm. pose proof (Hcan _ _ Hm) as [[? _] _]. pose proof (Hmin id m Hm) as Hle.
    unfold tle, tv_le in Hle. rewrite tv_ge_usecs in Hle by done. by b2p. }
  destruct (_ <? _) eqn:E; b2p; cycle 1.
  { exists zero. split_and!; try done; destruct maxWait; [|lia]. by rewrite (proj2 (Z.leb_le _ _)). }
  destruct maxWait as [m|]; [|exists (tv_sub (timerValue n) now); split_and!; try done; lia].
  specialize (Hmax m eq_refl). rewrite (proj2 (Z.leb_gt _ _)) by lia. rewrite tv_gt_usecs, Hu by done.
  destruct (_ <? _) eqn:E2; b2p; eexists; split_and!; try done; lia.
Qed.

Example calculateTimeout_spec_witness :
  inv three_timers ∧ calculateTimeout (Some (mkTV 5 0)) (mkTV 0 250000) three_timers = Ok (Some (mkTV 0 750000)).
Proof.
  split; [apply three_timers_inv|].
  destruct (calculateTimeout_spec (Some (mkTV 5 0)) (mkTV 0 250000) three_timers) as [H2 _].
  - apply three_timers_inv.
  - vm_compute. intuition discriminate.
  - apply three_timers_canonical.
  - intros m [= <-]. vm_compute. intuition discriminate.
  - rewrite <- H2. vm_compute. reflexivity.
Defined.

(** [resetInterval] changes the interval of exactly the timer with that id
    and returns 0; for an id that names no timer it returns -1 and changes
    nothing. *)
Lemma resetInterval_spec h id iv :
  inv h → id ≠ Z.of_nat (mMaxSize h) →
  match timers h !! id with
  | None => resetInterval id iv h = Ok (-1, h)
  | Some n => ∃ h', resetInterval id iv h = Ok (0, h') ∧ inv h' ∧
      timers h' = <[id := mkNode (n_type n) (n_act n) (timerValue n) iv id]> (timers h)
  end.
Proof.
  intros Hinv Hne. unfold resetInterval. destruct (decide (0 ≤ id < Z.of_nat (mMaxSize h))) as [Hr|Hr]; cycle 1.
  { rewrite out_of_range, timers_out_of_range by (done || lia). done. }
  rewrite in_range by lia. destruct (id_cases h id Hinv Hr) as (v & -> & Hcase). rewrite bind_Ok.
  destruct Hcase as [[Hv ->]|(Hv & Hc & n & Hn & -> & Hid & ->)].
  { by rewrite (proj2 (Z.ltb_lt _ _)). }
  rewrite (proj2 (Z.ltb_ge _ _)), bind_Ok, Hid, Z.eqb_refl by done.
  by apply reset_node_ok.
Qed.

Example resetInterval_spec_witness :
  inv three_timers ∧ ∃ h', resetInterval 1 (mkTV 6 0) three_timers = Ok (0, h') ∧ inv h'.
Proof.
  pose proof (resetInterval_spec three_timers 1 (mkTV 6 0) three_timers_inv ltac:(vm_compute; discriminate)) as Hc.
  assert (timers three_timers !! 1 = Some (mkNode 7 0 (mkTV 3 0) zero 1)) as Ht by (vm_compute; reflexivity).
  rewrite Ht in Hc. destruct Hc as (h' & Hc & Hi & _).
  split; [apply three_timers_inv|]. exists h'. exact (conj Hc Hi).
Defined.

(** the destructor frees the node of every slot: no access is out of
    bounds, no counter underflows, and no id is left in use. *)
Lemma destroy_frees_all {W} (w : W) h :
  inv h → ∃ h', TimerHeap_destroy w h = Ok (w, h') ∧ mCurSize h' = 0%nat ∧
    Forall (λ v, v < 0) (mTimerIds h').
Proof.
  intros Hinv. pose proof (inv_idx _ Hinv) as Hidx. pose proof (inv_room _ Hinv).
  destruct (destroy_loop_ok w (mCurSize h) 0 h) as (h' & ? & ? & _ & ?); [done|lia|apply Hidx| | |by exists h'].
  - intros j Hj. destruct (inv_slot h j Hinv) as (n & _ & Hn & _ & [? _] & ?); [lia|]. by exists n.
  - intros id v Hv H0. destruct (idx_id _ _ _ _ _ _ Hidx id v Hv H0) as (? & _ & ?); [set_solver|]. split; [lia|done].
Qed.

Example destroy_frees_all_witness :
  inv three_timers ∧ ∃ h', TimerHeap_destroy tt three_timers = Ok (tt, h') ∧ mCurSize h' = 0%nat.
Proof.
  split; [apply three_timers_inv|].
  destruct (destroy_frees_all tt three_timers three_timers_inv) as (h' & H1 & H2 & _).
  exists h'. exact (conj H1 H2).
Defined.
