(* ===== verification/TimerThread.v ===== *)
(** * TimerThread: a timer queue with a thread of its own
      (icc/TimerQueueAdapter.cpp)

    The thread sleeps until its earliest timer is due, or for ever while it has
    none, and then runs the upcalls of what has expired.  Other threads schedule
    and cancel while it sleeps, under the same mutex, and signal its condition.

    [Adapter] has the queue, where the thread is, and the application.  A [turn]
    is what happens between two points at which the mutex may change hands; the
    clock is an argument of the turns that read it. *)
From Stdlib Require Import Sorted.
From S2P Require Import Prelude TimeValue TimerHeap TimerQueue.

(** ** State *)

(** The thread holds the mutex at the top of its loop; it waits for the
    condition, for ever or until a time; it is about to expire timers.  Before
    [svc] runs others may call the queue already. *)
Inductive phase := NotStarted | AtTop | Asleep (deadline : option TimeValue) | Awake.

Record Adapter (W : Type) := mkAdapter { mTimerQueue : TimerHeap; ad_phase : phase; ad_app : W }.
Arguments mkAdapter {W} _ _ _.
Arguments mTimerQueue {W} _.
Arguments ad_phase {W} _.
Arguments ad_app {W} _.

Section adapter.

Context {W : Type} `{EventHandlers W}.
Implicit Types s : Adapter W.

(** [mCondition.signal ()]. *)
Definition wake (p : phase) : phase := match p with Asleep _ => Awake | _ => p end.

Definition adapter_schedule (handler act : Z) (futureTime interval : TimeValue) s : result (Z * Adapter W) :=
  '(result, q) ← schedule handler act futureTime interval (mTimerQueue s);
  Ok (result, mkAdapter q (wake (ad_phase s)) (ad_app s)).

Definition adapter_cancel (timerId : Z) s : result (Z * option Z * Adapter W) :=
  '(result, act, w, q) ← cancel_id timerId 1 (ad_app s) (mTimerQueue s);
  Ok (result, act, mkAdapter q (wake (ad_phase s)) w).

(** The loop of [svc] up to the wait; the clock is read twice. *)
Definition svc_top (tvCurr now : TimeValue) s : result (Adapter W) :=
  if isEmpty (mTimerQueue s) then Ok (mkAdapter (mTimerQueue s) (Asleep None) (ad_app s))
  else
    tvEarl ← earliestTime (mTimerQueue s);
    if tv_gt tvEarl tvCurr then Ok (mkAdapter (mTimerQueue s) (Asleep (Some (tv_add now (tv_sub tvEarl tvCurr)))) (ad_app s))
    else Ok (mkAdapter (mTimerQueue s) Awake (ad_app s)).

(** Its end: [expire ()]. *)
Definition svc_expire (fuel : nat) (now : TimeValue) s : result (Z * Adapter W) :=
  '(n, w, q) ← expire fuel now (ad_app s) (mTimerQueue s);
  Ok (n, mkAdapter q AtTop w).

(** A wait also ends when its time is over, and without a reason. *)
Inductive tick :=
  | KStart
  | KTop (tvCurr now : TimeValue)
  | KWake
  | KExpire (fuel : nat) (now : TimeValue)
  | KSchedule (handler act : Z) (futureTime interval : TimeValue)
  | KCancel (timerId : Z).

Definition tick_step (e : tick) s : result (Adapter W) :=
  match e with
  | KStart => Ok (mkAdapter (mTimerQueue s) AtTop (ad_app s))
  | KTop tvCurr now => svc_top tvCurr now s
  | KWake => Ok (mkAdapter (mTimerQueue s) (wake (ad_phase s)) (ad_app s))
  | KExpire fuel now => '(_, s) ← svc_expire fuel now s; Ok s
  | KSchedule handler act ft iv => '(_, s) ← adapter_schedule handler act ft iv s; Ok s
  | KCancel id => '(_, _, s) ← adapter_cancel id s; Ok s
  end.

Fixpoint tick_run (es : list tick) s : result (Adapter W) :=
  match es with
  | [] => Ok s
  | e :: es => s ← tick_step e s; tick_run es s
  end.

Definition Adapter_new (size : nat) (w : W) : Adapter W := mkAdapter (TimerHeap_new size) NotStarted w.

End adapter.

(** ** Lemmas *)

Section ticks.

Context {W : Type} (p : PassiveHandlers W) (gap : Z).
#[local] Instance app_handlers : EventHandlers W := passive p.
Implicit Types s : Adapter W.

(** What the thread, the other threads and the clock may do.  The thread holds
    the mutex at the top of its loop.  The two readings of the clock are at most
    [gap] microseconds apart; times are within [AGE]; an id that is cancelled is
    not one past the tables, where [cancel] leaves them. *)
Definition may_tick (e : tick) s : Prop :=
  match e with
  | KStart => ad_phase s = NotStarted
  | KTop tvCurr now => ad_phase s = AtTop ∧ in_age tvCurr ∧ in_age now ∧ usecs tvCurr ≤ usecs now ≤ usecs tvCurr + gap
  | KWake => match ad_phase s with Asleep _ | Awake => True | _ => False end
  | KExpire fuel now => ad_phase s = Awake ∧ in_age now ∧ (size (filter (λ q, due now q.2) (timers (mTimerQueue s))) ≤ fuel)%nat
  | KSchedule _ _ ft iv => ad_phase s ≠ AtTop ∧ (canonical ft ∧ Z.abs (usecs ft) ≤ 2 * AGE) ∧ in_age iv ∧ may_grow (mTimerQueue s)
  | KCancel id => ad_phase s ≠ AtTop ∧ id ≠ Z.of_nat (mMaxSize (mTimerQueue s))
  end.

Fixpoint may_run (es : list tick) s : Prop :=
  match es with
  | [] => True
  | e :: es => may_tick e s ∧ ∀ s', tick_step e s = Ok s' → may_run es s'
  end.

(** The sleep is right: for ever only without timers, else until the earliest is
    due, or [gap] later. *)
Definition sleeps_right s : Prop :=
  match ad_phase s with
  | Asleep None => timers (mTimerQueue s) = ∅
  | Asleep (Some d) => canonical d ∧ ∃ id n, timers (mTimerQueue s) !! id = Some n ∧
      (∀ id' m, timers (mTimerQueue s) !! id' = Some m → usecs (timerValue n) ≤ usecs (timerValue m)) ∧
      usecs (timerValue n) ≤ usecs d ≤ usecs (timerValue n) + gap
  | _ => True
  end.

Record adapter_ok s : Prop := {
  ad_inv : inv (mTimerQueue s);
  ad_canonical : map_Forall (λ _, node_canonical) (timers (mTimerQueue s));
  ad_sleep : sleeps_right s }.

(** A signal ends the sleep. *)
Lemma awake_ok q w ph : inv q → map_Forall (λ _, node_canonical) (timers q) → adapter_ok (mkAdapter q (wake ph) w).
Proof. intros Hi Hc. split; try done. unfold sleeps_right. by destruct ph. Qed.

Lemma svc_top_ok tvCurr now s : adapter_ok s → may_tick (KTop tvCurr now) s → ∃ s', svc_top tvCurr now s = Ok s' ∧ adapter_ok s'.
Proof.
  intros [Hi Hc _] (_ & [H1 A1] & [H2 A2] & Hg). unfold svc_top. destruct (isEmpty (mTimerQueue s)) eqn:He.
  - eexists. split; [done|]. split; try done. by apply isEmpty_spec.
  - destruct (root_spec _ Hi He) as (n & Hr & _ & Ht & Hmin). rewrite (earliestTime_ok _ _ Hr), bind_Ok.
    pose proof (Hc _ _ Ht) as [[Hn An] _]. rewrite tv_gt_usecs by done. destruct (usecs tvCurr <? usecs (timerValue n)) eqn:E; b2p.
    + eexists. split; [done|]. split; try done. destruct (tv_sub_spec (timerValue n) tvCurr) as [U1 C1]; [done|done|apply in_time_ages; lia|].
      destruct (tv_add_spec now (tv_sub (timerValue n) tvCurr)) as [U2 C2]; [done|done|apply in_time_ages; lia|]. split; [done|]. exists (timerId n), n. split; [done|]. split.
      * intros id m Hm. pose proof (Hmin _ _ Hm) as Hle. pose proof (Hc _ _ Hm) as [[? _] _]. unfold tle, tv_le in Hle. rewrite tv_ge_usecs in Hle by done. by b2p.
      * rewrite U2, U1. lia.
    + eexists. split; [done|]. by split.
Qed.

Context (Hret : ∀ eh t act w, (on_timeout p eh t act w).1 ≠ -1).

(** [expire] as [TimerQueue] has it; what is left is not due. *)
Lemma svc_expire_ok fuel now s :
  adapter_ok s → may_tick (KExpire fuel now) s →
  ∃ fired q, svc_expire fuel now s = Ok (#fired, mkAdapter q AtTop (run_timeouts p now fired (ad_app s))) ∧
    adapter_ok (mkAdapter q AtTop (run_timeouts p now fired (ad_app s))) ∧
    fired ≡ₚ (map_to_list (filter (λ q, due now q.2) (timers (mTimerQueue s)))).*2 ∧
    StronglySorted (λ a b, tle (timerValue a) (timerValue b)) fired ∧
    (∀ id n, timers q !! id = Some n → usecs now < usecs (timerValue n)).
Proof using Hret.
  intros [Hi Hc _] (_ & Hnow & Hf). unfold svc_expire, app_handlers. set (h := mTimerQueue s) in *.
  destruct (expire_passive p fuel now (ad_app s) h Hret Hi Hnow Hc Hf) as (fired & q & -> & Hq & Hp & Hs & Ht).
  rewrite bind_Ok. exists fired, q. split; [done|].
  assert (∀ id n, timers q !! id = Some n → node_canonical n ∧ ¬ due now n) as Hleft.
  { intros id n Hn. rewrite Ht, lookup_omap in Hn. destruct (timers h !! id) as [m|] eqn:E; [|done]. cbn in Hn. unfold expire_one in Hn.
    destruct (decide (due now m)) as [Hd|Hd]; [|simplify_eq; split; [by eapply Hc|done]].
    unfold rearm in Hn. destruct (tv_gt _ _) eqn:Eg; [|done].
    destruct (rearm_interval now m Hnow (Hc _ _ E) Hd Eg) as (tv & Ha & _ & Hcn & Hnd & _). rewrite Ha in Hn. by simplify_eq. }
  split_and!; [|done|done|].
  - split; [done| |done]. intros id n Hn. by apply (Hleft id).
  - intros id n Hn. destruct (Hleft _ _ Hn) as [Hcn Hd]. rewrite (due_usecs now n (proj1 Hnow) Hcn) in Hd. lia.
Qed.

Lemma tick_step_ok e s : adapter_ok s → may_tick e s → ∃ s', tick_step e s = Ok s' ∧ adapter_ok s'.
Proof using Hret.
  intros Hok Hm. destruct e as [|t now| |fuel now|eh act ft iv|id]; cbn [tick_step].
  - eexists. split; [done|]. destruct Hok as [Hi Hc _]. by split.
  - by apply svc_top_ok.
  - eexists. split; [done|]. destruct Hok as [Hi Hc _]. by apply awake_ok.
  - destruct (svc_expire_ok fuel now s Hok Hm) as (fired & q & -> & Hok' & _). rewrite bind_Ok. by eexists.
  - destruct Hok as [Hi Hc _]. destruct Hm as (_ & Hft & Hiv & Hg).
    destruct (scheduleI_ok _ eh act ft iv Hi Hg) as (id & q & Hs & Hq & _ & _ & _ & _ & _ & Ht & _).
    unfold adapter_schedule, schedule. rewrite Hs, !bind_Ok. eexists. split; [done|]. apply awake_ok; [done|].
    rewrite Ht. apply map_Forall_insert_2; [by split|done].
  - destruct Hok as [Hi Hc _]. destruct Hm as (_ & Hid). unfold adapter_cancel.
    destruct (cancel_id_cases (mTimerQueue s) id 1 (ad_app s) Hi Hid) as [[_ ->]|(n & h1 & _ & Hnid & Hi1 & Hlim & _ & _ & _ & Ht1 & ->)].
    + rewrite !bind_Ok. eexists. split; [done|]. by apply awake_ok.
    + unfold cancellation. cbn [Z.eqb]. rewrite bind_Ok. rewrite <- Hnid in Hlim. destruct (freeNode_ok h1 n Hi1 Hlim) as (h2 & -> & Hi2 & _ & _ & _ & _ & Ht2).
      rewrite !bind_Ok. eexists. split; [done|]. apply awake_ok; [done|]. rewrite Ht2, Ht1. by apply map_Forall_delete.
Qed.

Lemma tick_run_ok es : ∀ s, adapter_ok s → may_run es s → ∃ s', tick_run es s = Ok s' ∧ adapter_ok s'.
Proof using Hret.
  induction es as [|e es IH]; intros s Hok Hm; [by exists s|]. destruct Hm as [Hm Hrun].
  destruct (tick_step_ok e s Hok Hm) as (s1 & Hs & Hok1). cbn [tick_run]. rewrite Hs, bind_Ok. apply IH; [done|by apply Hrun].
Qed.

(** ** Properties *)

(** C25: no timer is missed.  Whatever other threads schedule and cancel, before
    [svc] runs or while it waits, however their calls and the steps of the timer
    thread are interleaved and whenever its wait ends: no step faults, and while
    the thread sleeps, it sleeps for ever only if there is no timer, and else
    not longer than until the earliest is due and the time between its two
    readings of the clock ([gap]).  When it wakes, it runs the upcall of every
    timer that is due, once and in the order of their times, and none that is
    left is due.  This is for upcalls that neither return -1 nor call the queue,
    for cancelled ids other than the size of the tables ([cancel] reads past them
    there), and for times in [AGE]. *)
Theorem timer_thread_misses_none size w es :
  (2 ≤ size)%nat → Z.of_nat size < 2 ^ 31 → may_run es (Adapter_new size w) →
  ∃ s, tick_run es (Adapter_new size w) = Ok s ∧
    match ad_phase s with
    | Asleep None => timers (mTimerQueue s) = ∅
    | Asleep (Some d) => ∃ id n, timers (mTimerQueue s) !! id = Some n ∧
        (∀ id' m, timers (mTimerQueue s) !! id' = Some m → usecs (timerValue n) ≤ usecs (timerValue m)) ∧
        usecs (timerValue n) ≤ usecs d ≤ usecs (timerValue n) + gap
    | _ => True
    end ∧
    ∀ fuel now, may_tick (KExpire fuel now) s → ∃ fired q,
      svc_expire fuel now s = Ok (#fired, mkAdapter q AtTop (run_timeouts p now fired (ad_app s))) ∧
      fired ≡ₚ (map_to_list (filter (λ q, due now q.2) (timers (mTimerQueue s)))).*2 ∧
      StronglySorted (λ a b, tle (timerValue a) (timerValue b)) fired ∧
      (∀ id n, timers q !! id = Some n → usecs now < usecs (timerValue n)).
Proof using Hret.
  intros H1 H2 Hm. assert (adapter_ok (Adapter_new size w)) as Hok0.
  { destruct (new_queue_inv size H1 H2) as [Hi Ht]. split; try done. }
  destruct (tick_run_ok es _ Hok0 Hm) as (s & Hr & Hok). exists s. split; [done|]. split.
  - pose proof (ad_sleep _ Hok) as Hs. unfold sleeps_right in Hs. destruct (ad_phase s) as [| |[d|]|]; try done. apply Hs.
  - intros fuel now He. destruct (svc_expire_ok fuel now s Hok He) as (fired & q & Hx & _ & Hp & Hso & Hl). by exists fired, q.
Qed.

End ticks.

(** ** Example: timers are scheduled before the thread runs and while it sleeps,
    one is cancelled, and the others expire *)

Definition demo_ticks : list tick :=
  [KSchedule 6 5 (mkTV 1 0) zero; KStart; KTop (mkTV 1 0) (mkTV 1 0); KExpire 1 (mkTV 1 0); KTop (mkTV 1 1) (mkTV 1 1); KSchedule 7 0 (mkTV 3 0) zero; KExpire 0 (mkTV 1 2); KTop (mkTV 1 3) (mkTV 1 5); KWake;
   KExpire 1 (mkTV 3 4); KTop (mkTV 3 5) (mkTV 3 5); KSchedule 8 1 (mkTV 5 0) zero; KCancel 3; KSchedule 9 1 (mkTV 4 0) zero].

(** Checking a tick by evaluation. *)
Ltac may_tick_now :=
  cbn [may_tick]; repeat split;
  first [exact I | reflexivity | vm_compute; discriminate | vm_compute; lia | intros _; vm_compute; reflexivity | vm_compute; intuition discriminate].

Lemma demo_ticks_may_run : may_run logging 10 demo_ticks (Adapter_new 4 []).
Proof. unfold demo_ticks. repeat (split; [may_tick_now|intros ? E; vm_compute in E; injection E as <-]). exact I. Qed.

Lemma timer_thread_misses_none_witness :
  ∃ s, tick_run (H := passive logging) demo_ticks (Adapter_new 4 []) = Ok s ∧ ad_app s = [(6, 5); (7, 0)] ∧
    ∃ q, svc_expire (H := passive logging) 2 (mkTV 6 0) s = Ok (1, mkAdapter q AtTop [(6, 5); (7, 0); (9, 1)]).
Proof.
  destruct (timer_thread_misses_none logging 10 ltac:(intros; cbn; lia) 4 [] demo_ticks ltac:(lia) ltac:(lia) demo_ticks_may_run)
    as (s & Hr & _ & Hx). exists s. split; [exact Hr|]. vm_compute in Hr. injection Hr as <-. split; [reflexivity|].
  destruct (Hx 2%nat (mkTV 6 0)) as (fired & q & He & _); [may_tick_now|]. exists q. eapply eq_trans; [exact He|]. revert He. vm_compute. congruence.
Defined.
