(* ===== verification/HandleSet.v ===== *)
(** * Handle sets (icc/HandleSet.cpp)

    The bit sets that [SelectReactor] hands to [select], the count and the
    largest handle they keep, and the iterator over the handles of a set.

    A word of the set is an [fd_mask], a signed [long]; it is a [Z] in its
    signed range, so that [Z.land], [Z.shiftr] and [Z.testbit] are the
    operators of the code.  The width of a word is the class [Platform]: 32 or
    64 bits.  [FD_SET] and the like outside the array are faults.

    Theorems: the operations keep count and maximum and are those of a finite
    set; the iterator returns exactly the members, in ascending order; the
    table of bit counts is right, and [sync] restores the invariant where
    [countBits] sees all bits; on a 64-bit platform it does not. *)
From S2P Require Import Prelude.

Definition ACE_INVALID_HANDLE : Z := -1.
Definition MAXSIZE : Z := 1024.

Class Platform := {
  NFDBITS : Z;
  NFDBITS_long : NFDBITS = 32 ∨ NFDBITS = 64
}.

Record HandleSet := mkHandleSet {
  m_size : Z;
  m_mask : list Z;
  m_maxHandle : Z
}.

#[export] Instance HandleSet_eq_dec : EqDecision HandleSet.
Proof. solve_decision. Defined.

(** The number of bits set in a byte. *)
Definition nbits : list Z := [
  0; 1; 1; 2; 1; 2; 2; 3; 1; 2; 2; 3; 2; 3; 3; 4;
  1; 2; 2; 3; 2; 3; 3; 4; 2; 3; 3; 4; 3; 4; 4; 5;
  1; 2; 2; 3; 2; 3; 3; 4; 2; 3; 3; 4; 3; 4; 4; 5;
  2; 3; 3; 4; 3; 4; 4; 5; 3; 4; 4; 5; 4; 5; 5; 6;
  1; 2; 2; 3; 2; 3; 3; 4; 2; 3; 3; 4; 3; 4; 4; 5;
  2; 3; 3; 4; 3; 4; 4; 5; 3; 4; 4; 5; 4; 5; 5; 6;
  2; 3; 3; 4; 3; 4; 4; 5; 3; 4; 4; 5; 4; 5; 5; 6;
  3; 4; 4; 5; 4; 5; 5; 6; 4; 5; 5; 6; 5; 6; 6; 7;
  1; 2; 2; 3; 2; 3; 3; 4; 2; 3; 3; 4; 3; 4; 4; 5;
  2; 3; 3; 4; 3; 4; 4; 5; 3; 4; 4; 5; 4; 5; 5; 6;
  2; 3; 3; 4; 3; 4; 4; 5; 3; 4; 4; 5; 4; 5; 5; 6;
  3; 4; 4; 5; 4; 5; 5; 6; 4; 5; 5; 6; 5; 6; 6; 7;
  2; 3; 3; 4; 3; 4; 4; 5; 3; 4; 4; 5; 4; 5; 5; 6;
  3; 4; 4; 5; 4; 5; 5; 6; 4; 5; 5; 6; 5; 6; 6; 7;
  3; 4; 4; 5; 4; 5; 5; 6; 4; 5; 5; 6; 5; 6; 6; 7;
  4; 5; 5; 6; 5; 6; 6; 7; 5; 6; 6; 7; 6; 7; 7; 8].

(** An index of [nbits] is masked with 0xff, so it is in range. *)
Definition nbits_at (b : Z) : Z := default 0 (nbits !! Z.to_nat b).

Definition countBits (n : Z) : Z :=
  nbits_at (Z.land n 255)
  + nbits_at (Z.land (Z.shiftr n 8) 255)
  + nbits_at (Z.land (Z.shiftr n 16) 255)
  + nbits_at (Z.land (Z.shiftr n 24) 255).

Section operations.
Context {pf : Platform}.

Definition NUM_WORDS : Z := (MAXSIZE + (NFDBITS - 1)) / NFDBITS.

(** [ACE_MSB_MASK]: all bits but the most significant. *)
Definition MSB_MASK : Z := Z.lnot (swrap NFDBITS (Z.shiftl 1 (NFDBITS - 1))).

(** [(val >> 1) & ACE_MSB_MASK], the shift that does not copy the sign. *)
Definition shift_word (val : Z) : Z := Z.land (Z.shiftr val 1) MSB_MASK.

(** [maskp[i]]. *)
Definition maskp (mask : list Z) (i : Z) : result Z :=
  if 0 <=? i then
    match mask !! Z.to_nat i with Some w => Ok w | None => Fault OutOfBounds end
  else Fault OutOfBounds.

(** The macros of the C library, on [fds_bits]. *)
Definition fd_bit (d : Z) : Z := swrap NFDBITS (Z.shiftl 1 (Z.rem d NFDBITS)).

Definition fd_word (d : Z) (mask : list Z) : result Z :=
  if 0 <=? d then maskp mask (Z.quot d NFDBITS) else Fault OutOfBounds.

Definition FD_ISSET (d : Z) (mask : list Z) : result bool :=
  w ← fd_word d mask;
  Ok (negb (Z.land w (fd_bit d) =? 0)).

Definition FD_SET (d : Z) (mask : list Z) : result (list Z) :=
  w ← fd_word d mask;
  Ok (<[Z.to_nat (Z.quot d NFDBITS) := Z.lor w (fd_bit d)]> mask).

Definition FD_CLR (d : Z) (mask : list Z) : result (list Z) :=
  w ← fd_word d mask;
  Ok (<[Z.to_nat (Z.quot d NFDBITS) := Z.land w (Z.lnot (fd_bit d))]> mask).

Definition FD_ZERO : list Z := replicate (Z.to_nat NUM_WORDS) 0.

Definition hs_reset : HandleSet := mkHandleSet 0 FD_ZERO ACE_INVALID_HANDLE.

Definition HandleSet_new : HandleSet := hs_reset.

Definition isSet (handle : Z) (hs : HandleSet) : result bool := FD_ISSET handle (m_mask hs).

(** The scan for the last word that is not zero: it runs down from [i]. *)
Fixpoint last_word (mask : list Z) (i : nat) : result Z :=
  w ← maskp mask (Z.of_nat i);
  if w =? 0 then
    match i with O => Fault OutOfBounds | S i => last_word mask i end
  else Ok (Z.of_nat i).

(** The position of the most significant bit, by shifting. *)
Fixpoint top_bit (fuel : nat) (val maxHandle : Z) : result Z :=
  if Z.land val (Z.lnot 1) =? 0 then Ok maxHandle
  else match fuel with
  | O => Fault OutOfFuel
  | S fuel => top_bit fuel (shift_word val) (maxHandle + 1)
  end.

Definition setMax (currentMax : Z) (hs : HandleSet) : result HandleSet :=
  maxHandle ←
    (if m_size hs =? 0 then Ok ACE_INVALID_HANDLE
     else
       let i := Z.quot (currentMax - 1) NFDBITS in
       if i <? 0 then Fault OutOfBounds
       else
         i ← last_word (m_mask hs) (Z.to_nat i);
         val ← maskp (m_mask hs) i;
         top_bit (Z.to_nat NFDBITS) val (i * NFDBITS));
  Ok (mkHandleSet (m_size hs) (m_mask hs)
        (if MAXSIZE <=? maxHandle then MAXSIZE - 1 else maxHandle)).

(** The guard joins its two tests with [&], which evaluates both. *)
Definition setBit (handle : Z) (hs : HandleSet) : result HandleSet :=
  set ← isSet handle hs;
  if negb (handle =? ACE_INVALID_HANDLE) && negb set then
    mask ← FD_SET handle (m_mask hs);
    Ok (mkHandleSet (m_size hs + 1) mask
          (if m_maxHandle hs <? handle then handle else m_maxHandle hs))
  else Ok hs.

Definition clrBit (handle : Z) (hs : HandleSet) : result HandleSet :=
  if handle =? ACE_INVALID_HANDLE then Ok hs
  else
    set ← isSet handle hs;
    if (set : bool) then
      mask ← FD_CLR handle (m_mask hs);
      let hs := mkHandleSet (m_size hs - 1) mask (m_maxHandle hs) in
      if handle =? m_maxHandle hs then setMax (m_maxHandle hs) hs else Ok hs
    else Ok hs.

(** The loop of [sync] over the words [n - 1], ..., 0. *)
Fixpoint sync_loop (mask : list Z) (n : nat) (size : Z) : result Z :=
  match n with
  | O => Ok size
  | S i =>
      w ← maskp mask (Z.of_nat i);
      sync_loop mask i (size + countBits (wrap NFDBITS w))
  end.

Definition sync (max : Z) (hs : HandleSet) : result HandleSet :=
  size ← sync_loop (m_mask hs) (Z.to_nat (Z.quot (max - 1) NFDBITS + 1)) 0;
  setMax max (mkHandleSet size (m_mask hs) (m_maxHandle hs)).

(** [fdset]: null when the count is zero. *)
Definition fdset (hs : HandleSet) : option (list Z) :=
  if 0 <? m_size hs then Some (m_mask hs) else None.

Definition maxSet (hs : HandleSet) : Z := m_maxHandle hs.

(** ** The iterator

    It refers to the set, which may change between two calls; the word it
    examines is a copy.  [m_wordVal] has no initial value. *)
Record HandleSetIterator := mkIter {
  m_handleIndex : Z;
  m_wordNum : Z;
  m_wordVal : option Z
}.

(** [while (m_handleIndex < maxhandlep1 && maskp[++m_wordNum] == 0)]. *)
Fixpoint first_word (fuel : nat) (mask : list Z) (maxhandlep1 index wordNum : Z) : result (Z * Z) :=
  if index <? maxhandlep1 then
    let wordNum := wordNum + 1 in
    w ← maskp mask wordNum;
    if w =? 0 then
      match fuel with
      | O => Fault OutOfFuel
      | S fuel => first_word fuel mask maxhandlep1 (index + NFDBITS) wordNum
      end
    else Ok (index, wordNum)
  else Ok (index, wordNum).

(** The loop to the first bit, bounded by the largest handle. *)
Fixpoint first_bit (fuel : nat) (maxhandlep1 val index : Z) : result (Z * Z) :=
  if (Z.land val 1 =? 0) && (index <? maxhandlep1) then
    match fuel with
    | O => Fault OutOfFuel
    | S fuel => first_bit fuel maxhandlep1 (shift_word val) (index + 1)
    end
  else Ok (val, index).

Definition resetState (hs : HandleSet) (it : HandleSetIterator) : result HandleSetIterator :=
  let maxhandlep1 := m_maxHandle hs + 1 in
  '(index, wordNum) ← first_word (Z.to_nat NUM_WORDS) (m_mask hs) maxhandlep1 0 (-1);
  if maxhandlep1 <=? index then Ok (mkIter maxhandlep1 wordNum (m_wordVal it))
  else
    val ← maskp (m_mask hs) wordNum;
    '(val, index) ← first_bit (Z.to_nat NFDBITS) maxhandlep1 val index;
    Ok (mkIter index wordNum (Some val)).

Definition HandleSetIterator_new (hs : HandleSet) : result HandleSetIterator :=
  resetState hs (mkIter 0 (-1) None).

(** The loop over the following words in [operator()]. *)
Fixpoint next_word (fuel : nat) (mask : list Z) (maxhandlep1 index wordNum : Z) : result (Z * Z) :=
  if index <? maxhandlep1 then
    w ← maskp mask wordNum;
    if w =? 0 then
      match fuel with
      | O => Fault OutOfFuel
      | S fuel => next_word fuel mask maxhandlep1 (index + NFDBITS) (wordNum + 1)
      end
    else Ok (index, wordNum)
  else Ok (index, wordNum).

(** The loop to the next bit in [operator()], without a bound. *)
Fixpoint next_bit (fuel : nat) (val index : Z) : result (Z * Z) :=
  if Z.land val 1 =? 0 then
    match fuel with
    | O => Fault OutOfFuel
    | S fuel => next_bit fuel (shift_word val) (index + 1)
    end
  else Ok (val, index).

Definition iterator_next (hs : HandleSet) (it : HandleSetIterator) : result (Z * HandleSetIterator) :=
  let maxhandlep1 := m_maxHandle hs + 1 in
  if maxhandlep1 <=? m_handleIndex it then Ok (ACE_INVALID_HANDLE, it)
  else
    let res := m_handleIndex it in
    match m_wordVal it with
    | None => Fault OutOfBounds
    | Some val =>
        let val := shift_word val in
        if val =? 0 then
          let wordNum := m_wordNum it + 1 in
          '(index, wordNum) ← next_word (Z.to_nat NUM_WORDS) (m_mask hs) maxhandlep1 (wordNum * NFDBITS) wordNum;
          if maxhandlep1 <=? index then Ok (res, mkIter maxhandlep1 wordNum (Some val))
          else
            val ← maskp (m_mask hs) wordNum;
            '(val, index) ← next_bit (Z.to_nat NFDBITS) val index;
            Ok (res, mkIter index wordNum (Some val))
        else
          '(val, index) ← next_bit (Z.to_nat NFDBITS) val (res + 1);
          Ok (res, mkIter index (m_wordNum it) (Some val))
    end.

(** The loop of a client: call the iterator until it returns no handle. *)
Fixpoint iterate (fuel : nat) (hs : HandleSet) (it : HandleSetIterator) : result (list Z) :=
  match fuel with
  | O => Fault OutOfFuel
  | S fuel =>
      '(handle, it) ← iterator_next hs it;
      if handle =? ACE_INVALID_HANDLE then Ok []
      else rest ← iterate fuel hs it; Ok (handle :: rest)
  end.

End operations.

(** ** Words *)

Section words.
Context {pf : Platform}.

Lemma NFDBITS_pos : 32 ≤ NFDBITS ≤ 64.
Proof. destruct NFDBITS_long; lia. Qed.

(** The range of a word. *)
Abbreviation word_ok := (in_s NFDBITS).

Lemma swrap_top k : 0 < k → swrap k (2 ^ (k - 1)) = - 2 ^ (k - 1).
Proof.
  intros Hk. unfold swrap. assert (2 ^ k = 2 * 2 ^ (k - 1)) as E.
  { rewrite <- Z.pow_succ_r by lia. f_equal. lia. }
  replace (2 ^ (k - 1) + 2 ^ (k - 1)) with (2 ^ k) by lia.
  rewrite Z_mod_same_full. lia.
Qed.

Lemma MSB_MASK_ones : MSB_MASK = Z.ones (NFDBITS - 1).
Proof.
  pose proof NFDBITS_pos. unfold MSB_MASK. rewrite Z.shiftl_1_l, swrap_top by lia.
  unfold Z.lnot. rewrite Z.ones_equiv. lia.
Qed.

(** The sign of a word is its top bit. *)
Lemma word_sign_bit w j : word_ok w → NFDBITS - 1 ≤ j → Z.testbit w j = (w <? 0).
Proof.
  intros [Hl Hu] Hj. pose proof NFDBITS_pos.
  assert (2 ^ (NFDBITS - 1) ≤ 2 ^ j) by (apply Z.pow_le_mono_r; lia).
  destruct (w <? 0) eqn:E; b2p.
  - rewrite <- (Z.lnot_involutive w), Z.lnot_spec by lia.
    apply negb_true_iff. destruct (decide (Z.lnot w = 0)) as [->|]; [apply Z.bits_0|].
    apply Z.bits_above_log2; [unfold Z.lnot; lia|].
    apply Z.log2_lt_pow2; unfold Z.lnot in *; lia.
  - destruct (decide (w = 0)) as [->|]; [apply Z.bits_0|].
    apply Z.bits_above_log2; [done|]. apply Z.log2_lt_pow2; lia.
Qed.

Lemma word_zero w : word_ok w → (∀ j, 0 ≤ j < NFDBITS → Z.testbit w j = false) → w = 0.
Proof.
  intros Hw H. pose proof NFDBITS_pos. apply Z.bits_inj'. intros j Hj. rewrite Z.bits_0.
  destruct (decide (j < NFDBITS)); [by apply H; lia|].
  rewrite word_sign_bit by (try done; lia).
  rewrite <- (word_sign_bit w (NFDBITS - 1)) by (try done; lia). apply H. lia.
Qed.

(** A number is in the range of a word when its high bits repeat the sign bit. *)
Lemma word_ok_bits w :
  (∀ j, NFDBITS ≤ j → Z.testbit w j = Z.testbit w (NFDBITS - 1)) → word_ok w.
Proof.
  intros H. pose proof NFDBITS_pos. unfold in_s.
  assert (Z.shiftr w (NFDBITS - 1) = if Z.testbit w (NFDBITS - 1) then -1 else 0) as E.
  { apply Z.bits_inj'. intros j Hj. rewrite Z.shiftr_spec by done.
    destruct (decide (j = 0)) as [->|].
    - rewrite Z.add_0_l. destruct (Z.testbit w (NFDBITS - 1)); [by rewrite Z.bits_m1|done].
    - rewrite H by lia. destruct (Z.testbit w (NFDBITS - 1)); [by rewrite Z.bits_m1|by rewrite Z.bits_0]. }
  rewrite Z.shiftr_div_pow2 in E by lia.
  assert (0 < 2 ^ (NFDBITS - 1)) by (apply Z.pow_pos_nonneg; lia).
  pose proof (Z.div_mod w (2 ^ (NFDBITS - 1)) ltac:(lia)) as Hdiv.
  pose proof (Z.mod_pos_bound w (2 ^ (NFDBITS - 1)) ltac:(lia)).
  rewrite E in Hdiv. destruct (Z.testbit w (NFDBITS - 1)); lia.
Qed.

Lemma shift_word_spec w j :
  0 ≤ j → Z.testbit (shift_word w) j = Z.testbit w (j + 1) && (j <? NFDBITS - 1).
Proof.
  intros Hj. pose proof NFDBITS_pos. unfold shift_word.
  rewrite Z.land_spec, Z.shiftr_spec, MSB_MASK_ones by done. f_equal.
  rewrite Z.testbit_ones_nonneg by lia. done.
Qed.

Lemma shift_word_ok w : word_ok (shift_word w).
Proof.
  pose proof NFDBITS_pos. apply word_ok_bits. intros j Hj. rewrite !shift_word_spec by lia.
  rewrite !(proj2 (Z.ltb_ge _ _)) by lia. by rewrite !andb_false_r.
Qed.

Lemma fd_bit_spec d j :
  0 ≤ d → 0 ≤ j < NFDBITS → Z.testbit (fd_bit d) j = (j =? d mod NFDBITS).
Proof.
  intros Hd Hj. pose proof NFDBITS_pos. unfold fd_bit.
  rewrite Z.rem_mod_nonneg, Z.shiftl_1_l by lia.
  pose proof (Z.mod_pos_bound d NFDBITS ltac:(lia)).
  destruct (decide (d mod NFDBITS = NFDBITS - 1)) as [->|].
  - rewrite swrap_top by lia. destruct (j =? NFDBITS - 1) eqn:E; b2p.
    + subst j. rewrite <- (Z.lnot_involutive (- _)), Z.lnot_spec by lia.
      replace (Z.lnot (- 2 ^ (NFDBITS - 1))) with (Z.ones (NFDBITS - 1)) by (rewrite Z.ones_equiv; unfold Z.lnot; lia).
      by rewrite Z.ones_spec_high by lia.
    + rewrite <- (Z.lnot_involutive (- _)), Z.lnot_spec by lia.
      replace (Z.lnot (- 2 ^ (NFDBITS - 1))) with (Z.ones (NFDBITS - 1)) by (rewrite Z.ones_equiv; unfold Z.lnot; lia).
      by rewrite Z.ones_spec_low by lia.
  - rewrite swrap_small; [|lia|].
    + rewrite Z.pow2_bits_eqb by lia. apply Z.eqb_sym.
    + pose proof (Z.pow_nonneg 2 (NFDBITS - 1)). pose proof (Z.pow_nonneg 2 (d mod NFDBITS)).
      split; [lia|]. apply Z.pow_lt_mono_r; lia.
Qed.

Lemma fd_bit_ok d : word_ok (fd_bit d).
Proof.
  pose proof NFDBITS_pos. unfold fd_bit, in_s, swrap.
  assert (2 ^ NFDBITS = 2 * 2 ^ (NFDBITS - 1)) as E.
  { rewrite <- Z.pow_succ_r by lia. f_equal. lia. }
  pose proof (Z.mod_pos_bound (Z.shiftl 1 (Z.rem d NFDBITS) + 2 ^ (NFDBITS - 1)) (2 ^ NFDBITS)
    ltac:(apply Z.pow_pos_nonneg; lia)). lia.
Qed.

Lemma word_bitwise_ok f w v u :
  (∀ j, 0 ≤ j → Z.testbit u j = f (Z.testbit w j) (Z.testbit v j)) →
  word_ok w → word_ok v → word_ok u.
Proof.
  intros Hf Hw Hv. pose proof NFDBITS_pos. apply word_ok_bits. intros j Hj.
  rewrite !Hf by lia. f_equal.
  - by rewrite !word_sign_bit by (try done; lia).
  - by rewrite !word_sign_bit by (try done; lia).
Qed.

Lemma word_set_ok w d : word_ok w → word_ok (Z.lor w (fd_bit d)).
Proof.
  intros. eapply (word_bitwise_ok orb w (fd_bit d)); [|done|apply fd_bit_ok].
  intros. apply Z.lor_spec.
Qed.

Lemma word_clear_ok w d : word_ok w → word_ok (Z.land w (Z.lnot (fd_bit d))).
Proof.
  intros. eapply (word_bitwise_ok (λ a b, a && negb b) w (fd_bit d)); [|done|apply fd_bit_ok].
  intros j Hj. by rewrite Z.land_spec, Z.lnot_spec.
Qed.

Lemma land_fd_bit w d :
  0 ≤ d → word_ok w → negb (Z.land w (fd_bit d) =? 0) = Z.testbit w (d mod NFDBITS).
Proof.
  intros Hd Hw. pose proof NFDBITS_pos.
  assert (0 ≤ d mod NFDBITS < NFDBITS) as Hm by (apply Z.mod_pos_bound; lia).
  destruct (Z.testbit w (d mod NFDBITS)) eqn:E.
  - apply negb_true_iff, Z.eqb_neq. intros H0.
    pose proof (Z.land_spec w (fd_bit d) (d mod NFDBITS)) as Hl.
    rewrite H0, Z.bits_0, E, fd_bit_spec, Z.eqb_refl in Hl by lia. done.
  - apply negb_false_iff, Z.eqb_eq, word_zero.
    + eapply (word_bitwise_ok andb w (fd_bit d)); [|done|apply fd_bit_ok].
      intros. apply Z.land_spec.
    + intros j Hj. rewrite Z.land_spec, fd_bit_spec by lia.
      destruct (j =? _) eqn:Ej; b2p; [by subst; rewrite E|apply andb_false_r].
Qed.

Lemma land_1 w : (Z.land w 1 =? 0) = negb (Z.testbit w 0).
Proof.
  change 1 with (Z.ones 1). rewrite Z.land_ones by lia. rewrite Z.bit0_odd.
  change (2 ^ 1) with 2. rewrite Zmod_odd. by destruct (Z.odd w).
Qed.

(** [(val & ~1) == 0]: no bit above the lowest. *)
Lemma land_not_1 w :
  word_ok w → (Z.land w (Z.lnot 1) =? 0) = true ↔ (∀ j, 0 < j < NFDBITS → Z.testbit w j = false).
Proof.
  intros Hw. pose proof NFDBITS_pos.
  assert (∀ j, 0 ≤ j → Z.testbit (Z.land w (Z.lnot 1)) j = Z.testbit w j && negb (j =? 0)) as Hb.
  { intros j Hj. rewrite Z.land_spec, Z.lnot_spec by done. do 2 f_equal. }
  split.
  - intros H0 j Hj. b2p. specialize (Hb j ltac:(lia)). rewrite H0, Z.bits_0 in Hb.
    rewrite (proj2 (Z.eqb_neq j 0)), andb_true_r in Hb by lia. done.
  - intros H0. apply Z.eqb_eq, word_zero.
    + apply word_ok_bits. intros j Hj. rewrite !Hb by lia.
      rewrite !(word_sign_bit w) by (try done; lia). rewrite !(proj2 (Z.eqb_neq _ 0)) by lia. done.
    + intros j Hj. rewrite Hb by lia. destruct (decide (j = 0)) as [->|]; [apply andb_false_r|].
      by rewrite H0 by lia.
Qed.

End words.

(** ** The set a [HandleSet] stands for *)

Section sets.
Context {pf : Platform}.

Abbreviation word_ok := (in_s NFDBITS).

(** Membership, as a total function. *)
Definition bit (mask : list Z) (h : Z) : bool :=
  match mask !! Z.to_nat (h / NFDBITS) with
  | Some w => (0 <=? h) && Z.testbit w (h mod NFDBITS)
  | None => false
  end.

(** The handles of a set from [lo] on, in ascending order. *)
Definition members_from (lo : Z) (mask : list Z) : list Z :=
  filter (λ h, bit mask h = true) (seqZ lo (MAXSIZE - lo)).

Definition members (hs : HandleSet) : list Z := members_from 0 (m_mask hs).

Definition mask_ok (mask : list Z) : Prop :=
  #mask = NUM_WORDS ∧ Forall word_ok mask.

(** [m] is the largest handle, -1 when there is none. *)
Definition is_max (mask : list Z) (m : Z) : Prop :=
  (m = ACE_INVALID_HANDLE ∨ bit mask m = true) ∧ ∀ h, bit mask h = true → h ≤ m.

Record hs_ok (hs : HandleSet) : Prop := {
  ok_mask : mask_ok (m_mask hs);
  ok_size : m_size hs = #(members hs);
  ok_max : is_max (m_mask hs) (m_maxHandle hs)
}.

Lemma NUM_WORDS_max : NUM_WORDS * NFDBITS = MAXSIZE.
Proof. unfold NUM_WORDS, MAXSIZE. destruct NFDBITS_long as [-> | ->]; reflexivity. Qed.

Lemma NUM_WORDS_pos : 0 < NUM_WORDS.
Proof. unfold NUM_WORDS, MAXSIZE. destruct NFDBITS_long as [-> | ->]; reflexivity. Qed.

(** The word and the position of a handle in range. *)
Lemma handle_word h : 0 ≤ h < MAXSIZE → 0 ≤ h / NFDBITS < NUM_WORDS ∧ 0 ≤ h mod NFDBITS < NFDBITS.
Proof.
  intros Hh. pose proof NUM_WORDS_max. pose proof NFDBITS_pos.
  split_and!; [by apply Z.div_pos; lia| |by apply Z.mod_pos_bound; lia..].
  apply Z.div_lt_upper_bound; lia.
Qed.

Lemma bit_range mask h : mask_ok mask → bit mask h = true → 0 ≤ h < MAXSIZE.
Proof.
  intros [Hl _] Hb. unfold bit in Hb. pose proof NUM_WORDS_max. pose proof NFDBITS_pos.
  destruct (mask !! _) as [w|] eqn:E; [|done]. apply lookup_lt_Some in E. b2p.
  assert (0 ≤ h / NFDBITS) by (apply Z.div_pos; lia).
  assert (NFDBITS * (h / NFDBITS) ≤ h < NFDBITS * (h / NFDBITS) + NFDBITS).
  { pose proof (Z.div_mod h NFDBITS). pose proof (Z.mod_pos_bound h NFDBITS). lia. }
  assert (h / NFDBITS < NUM_WORDS) by lia. nia.
Qed.

Lemma elem_of_members_from lo mask h :
  mask_ok mask → 0 ≤ lo → h ∈ members_from lo mask ↔ lo ≤ h ∧ bit mask h = true.
Proof.
  intros Hm Hlo. unfold members_from. rewrite list_elem_of_filter, elem_of_seqZ. split.
  - intros [Hb Hr]. split; [lia|done].
  - intros [Hl Hb]. pose proof (bit_range _ _ Hm Hb). split; [done|lia].
Qed.

Lemma NoDup_members_from lo mask : NoDup (members_from lo mask).
Proof. apply NoDup_filter, NoDup_seqZ. Qed.

(** The elements from a member on. *)
Lemma members_from_cons lo mask :
  mask_ok mask → 0 ≤ lo → bit mask lo = true →
  members_from lo mask = lo :: members_from (lo + 1) mask.
Proof.
  intros Hm Hlo Hb. pose proof (bit_range _ _ Hm Hb). unfold members_from.
  rewrite seqZ_cons by lia. rewrite filter_cons_True by done.
  do 3 f_equal; lia.
Qed.

(** Positions that are not members can be skipped. *)
Lemma members_from_skip lo hi mask :
  0 ≤ lo ≤ hi → hi ≤ MAXSIZE → (∀ x, lo ≤ x < hi → bit mask x = false) →
  members_from lo mask = members_from hi mask.
Proof.
  intros Hr Hh Hb. unfold members_from.
  replace (MAXSIZE - lo) with ((hi - lo) + (MAXSIZE - hi)) by lia.
  rewrite seqZ_app by lia. rewrite filter_app.
  rewrite (filter_none _ (seqZ lo (hi - lo))) by
    (intros x Hx; apply elem_of_seqZ in Hx; rewrite Hb by lia; done).
  simpl. do 2 f_equal. lia.
Qed.

Lemma members_from_end lo mask m :
  mask_ok mask → is_max mask m → m < lo → 0 ≤ lo → members_from lo mask = [].
Proof.
  intros Hm [_ Hmax] Hlt Hlo. apply filter_none.
  intros x Hx. apply elem_of_seqZ in Hx. intros Hb. specialize (Hmax x Hb). lia.
Qed.

Lemma members_from_ext lo mask mask' :
  (∀ x, lo ≤ x → bit mask' x = bit mask x) → members_from lo mask' = members_from lo mask.
Proof. intros H. apply filter_ext_in. intros x Hx. apply elem_of_seqZ in Hx. by rewrite H by lia. Qed.

(** Access to a word in range. *)
Lemma maskp_ok mask i :
  mask_ok mask → 0 ≤ i < NUM_WORDS → ∃ w, maskp mask i = Ok w ∧ mask !! Z.to_nat i = Some w ∧ word_ok w.
Proof.
  intros [Hl Hf] Hi. destruct (lookup_lt_is_Some_2 mask (Z.to_nat i)) as [w Hw]; [lia|].
  exists w. unfold maskp. rewrite (proj2 (Z.leb_le _ _)) by lia. rewrite Hw.
  split_and!; [done..|]. by eapply Forall_lookup_1.
Qed.

Lemma bit_word mask h w :
  0 ≤ h → mask !! Z.to_nat (h / NFDBITS) = Some w → bit mask h = Z.testbit w (h mod NFDBITS).
Proof. intros Hh Hw. unfold bit. by rewrite Hw, (proj2 (Z.leb_le _ _)) by lia. Qed.

(** The same, for the [j]-th bit of the [i]-th word. *)
Lemma bit_at mask i j w :
  0 ≤ i → 0 ≤ j < NFDBITS → mask !! Z.to_nat i = Some w → bit mask (i * NFDBITS + j) = Z.testbit w j.
Proof.
  intros Hi Hj Hw. pose proof NFDBITS_pos.
  assert ((i * NFDBITS + j) / NFDBITS = i) as Hd.
  { rewrite Z.add_comm, Z.div_add by lia. rewrite Z.div_small; lia. }
  assert ((i * NFDBITS + j) mod NFDBITS = j) as Hr.
  { rewrite Z.add_comm, Z.mod_add by lia. apply Z.mod_small. lia. }
  rewrite (bit_word _ _ w); [by rewrite Hr|nia|by rewrite Hd].
Qed.

Lemma fd_word_ok d mask :
  mask_ok mask → 0 ≤ d < MAXSIZE →
  ∃ w, fd_word d mask = Ok w ∧ mask !! Z.to_nat (d / NFDBITS) = Some w ∧ word_ok w ∧ Z.quot d NFDBITS = d / NFDBITS.
Proof.
  intros Hm Hd. pose proof NFDBITS_pos. destruct (handle_word d Hd) as [Hq _].
  unfold fd_word. rewrite (proj2 (Z.leb_le _ _)) by lia.
  rewrite Z.quot_div_nonneg by lia. destruct (maskp_ok mask (d / NFDBITS)) as (w & ? & ? & ?); [done..|].
  by exists w.
Qed.

Lemma FD_ISSET_ok d mask :
  mask_ok mask → 0 ≤ d < MAXSIZE → FD_ISSET d mask = Ok (bit mask d).
Proof.
  intros Hm Hd. destruct (fd_word_ok d mask) as (w & Hw & Hl & Hok & _); [done..|].
  unfold FD_ISSET. rewrite Hw. cbn. rewrite (bit_word _ _ w), land_fd_bit by (try done; lia). done.
Qed.

(** Writing one word of the mask. *)
Lemma bit_insert mask i w h :
  mask_ok mask → 0 ≤ i < NUM_WORDS → 0 ≤ h →
  bit (<[Z.to_nat i := w]> mask) h =
    if h / NFDBITS =? i then Z.testbit w (h mod NFDBITS) else bit mask h.
Proof.
  intros [Hl _] Hi Hh. pose proof NFDBITS_pos. assert (0 ≤ h / NFDBITS) by (apply Z.div_pos; lia).
  unfold bit. destruct (_ =? i) eqn:E; b2p.
  - rewrite E, list_lookup_insert_eq by lia. by rewrite (proj2 (Z.leb_le _ _)).
  - rewrite list_lookup_insert_ne by lia. done.
Qed.

Lemma same_position h d : 0 ≤ h → 0 ≤ d → h / NFDBITS = d / NFDBITS → h mod NFDBITS = d mod NFDBITS → h = d.
Proof.
  intros _ _ Hq Hr. pose proof NFDBITS_pos.
  rewrite (Z.div_mod h NFDBITS), (Z.div_mod d NFDBITS) by lia. congruence.
Qed.

(** What a bit of a word is after [FD_SET] and [FD_CLR]. *)
Lemma bit_update f w u d mask h :
  mask_ok mask → 0 ≤ d < MAXSIZE → 0 ≤ h →
  mask !! Z.to_nat (d / NFDBITS) = Some w →
  (∀ j, 0 ≤ j < NFDBITS → Z.testbit u j = f (Z.testbit w j) (j =? d mod NFDBITS)) →
  (∀ b, f b false = b) →
  bit (<[Z.to_nat (d / NFDBITS) := u]> mask) h = f (bit mask h) (h =? d).
Proof.
  intros Hm Hd Hh Hw Hu Hf. pose proof NFDBITS_pos. destruct (handle_word d Hd) as [Hq _].
  assert (0 ≤ h mod NFDBITS < NFDBITS) by (apply Z.mod_pos_bound; lia).
  rewrite bit_insert by (try done; lia). destruct (_ =? _) eqn:E; b2p.
  - rewrite Hu, (bit_word mask h w) by (try done; try lia; congruence). f_equal.
    destruct (h =? d) eqn:Ed; b2p; [by subst; apply Z.eqb_refl|].
    apply Z.eqb_neq. intros Hr. apply Ed. apply same_position; lia.
  - rewrite (proj2 (Z.eqb_neq h d)) by (intros ->; done). by rewrite Hf.
Qed.

Lemma FD_SET_ok d mask :
  mask_ok mask → 0 ≤ d < MAXSIZE →
  ∃ mask', FD_SET d mask = Ok mask' ∧ mask_ok mask' ∧ ∀ h, 0 ≤ h → bit mask' h = bit mask h || (h =? d).
Proof.
  intros Hm Hd. destruct (fd_word_ok d mask) as (w & Hw & Hl & Hok & Hq); [done..|].
  unfold FD_SET. rewrite Hw. cbn. rewrite Hq. eexists. split_and!; [done|..].
  - destruct Hm as [Hlen Hf]. split; [by rewrite length_insert|].
    apply Forall_insert; [done|]. by apply word_set_ok.
  - intros h Hh. apply (bit_update orb w); try done; [|apply orb_false_r].
    intros j Hj. rewrite Z.lor_spec, fd_bit_spec by lia. done.
Qed.

Lemma FD_CLR_ok d mask :
  mask_ok mask → 0 ≤ d < MAXSIZE →
  ∃ mask', FD_CLR d mask = Ok mask' ∧ mask_ok mask' ∧ ∀ h, 0 ≤ h → bit mask' h = bit mask h && negb (h =? d).
Proof.
  intros Hm Hd. destruct (fd_word_ok d mask) as (w & Hw & Hl & Hok & Hq); [done..|].
  unfold FD_CLR. rewrite Hw. cbn. rewrite Hq. eexists. split_and!; [done|..].
  - destruct Hm as [Hlen Hf]. split; [by rewrite length_insert|].
    apply Forall_insert; [done|]. by apply word_clear_ok.
  - intros h Hh. apply (bit_update (λ a b, a && negb b) w); try done; [|intros; apply andb_true_r].
    intros j Hj. by rewrite Z.land_spec, Z.lnot_spec, fd_bit_spec by lia.
Qed.

(** *** [setMax] *)

Lemma top_bit_ok fuel w base k :
  word_ok w → 0 ≤ k < NFDBITS → (k < Z.of_nat fuel + 1) →
  Z.testbit w k = true → (∀ j, k < j < NFDBITS → Z.testbit w j = false) →
  top_bit fuel w base = Ok (base + k).
Proof.
  revert w base k. induction fuel as [|fuel IH]; intros w base k Hw Hk Hf Hb Hz; cbn [top_bit].
  - rewrite (proj2 (land_not_1 w Hw)); [f_equal; lia|]. intros. apply Hz. lia.
  - destruct (decide (k = 0)) as [->|].
    { rewrite (proj2 (land_not_1 w Hw)); [f_equal; lia|]. intros. apply Hz. lia. }
    destruct (Z.land w (Z.lnot 1) =? 0) eqn:E.
    { rewrite (proj1 (land_not_1 w Hw) E) in Hb by lia. done. }
    rewrite (IH _ _ (k - 1)); [f_equal; lia|apply shift_word_ok|lia|lia|..].
    + rewrite shift_word_spec by lia. rewrite Z.sub_add, Hb. apply Z.ltb_lt. lia.
    + intros j Hj. rewrite shift_word_spec by lia. rewrite andb_false_iff.
      destruct (decide (j < NFDBITS - 1)); [left; apply Hz; lia|right; apply Z.ltb_ge; lia].
Qed.

(** A set whose handles are at most [m], one of them [m]. *)
Lemma last_word_ok mask m (n : nat) :
  mask_ok mask → bit mask m = true → (∀ h, bit mask h = true → h ≤ m) →
  m / NFDBITS ≤ Z.of_nat n < NUM_WORDS → last_word mask n = Ok (m / NFDBITS).
Proof.
  intros Hm Hb Hmax. pose proof NFDBITS_pos. pose proof (bit_range _ _ Hm Hb) as Hr.
  destruct (handle_word m Hr) as [Hq Hj].
  induction n as [|n IH]; intros Hn; cbn [last_word].
  - destruct (maskp_ok mask (Z.of_nat 0)) as (w & -> & Hw & Hok); [done|lia|]. cbn.
    destruct (w =? 0) eqn:E; b2p.
    + exfalso. rewrite (bit_word _ _ w), E, Z.bits_0 in Hb; [done|lia|].
      replace (m / NFDBITS) with (Z.of_nat 0) by lia. done.
    + f_equal. lia.
  - destruct (maskp_ok mask (Z.of_nat (S n))) as (w & -> & Hw & Hok); [done|lia|]. cbn [mbind result_bind].
    destruct (decide (m / NFDBITS = Z.of_nat (S n))) as [Eq|].
    + destruct (w =? 0) eqn:E; b2p; [|by rewrite Eq].
      exfalso. rewrite (bit_word _ _ w), E, Z.bits_0 in Hb; [done|lia|]. by rewrite Eq.
    + assert (w = 0) as ->.
      { apply word_zero; [done|]. intros j Hj'. rewrite <- (bit_at mask (Z.of_nat (S n)) j w) by (try done; lia).
        apply not_true_is_false. intros Hbit. apply Hmax in Hbit.
        assert (m < Z.of_nat (S n) * NFDBITS); [|lia].
        pose proof (Z.div_mod m NFDBITS). nia. }
      cbn. apply IH. lia.
Qed.

Lemma setMax_ok size mask m0 currentMax m :
  mask_ok mask → size ≠ 0 → bit mask m = true → (∀ h, bit mask h = true → h ≤ m) →
  m < currentMax ≤ MAXSIZE ∨ (m = 0 ∧ currentMax = 0) →
  setMax currentMax (mkHandleSet size mask m0) = Ok (mkHandleSet size mask m).
Proof.
  intros Hm Hs Hb Hmax Hcur. pose proof NFDBITS_pos. pose proof NUM_WORDS_max as Hnw.
  pose proof (bit_range _ _ Hm Hb) as Hr. destruct (handle_word m Hr) as [Hq Hj].
  unfold setMax. cbn [m_size m_mask]. rewrite (proj2 (Z.eqb_neq size 0)) by done.
  assert (m / NFDBITS ≤ Z.quot (currentMax - 1) NFDBITS < NUM_WORDS) as Hi.
  { destruct Hcur as [Hcur|[-> ->]].
    - rewrite Z.quot_div_nonneg by lia. split; [apply Z.div_le_mono; lia|].
      apply Z.div_lt_upper_bound; lia.
    - rewrite Z.div_0_l by lia. 
      assert (Z.quot (0 - 1) NFDBITS = 0) as -> by (destruct NFDBITS_long as [-> | ->]; reflexivity). lia. }
  rewrite (proj2 (Z.ltb_ge _ _)) by lia.
  rewrite (last_word_ok mask m) by (try done; lia). cbn [mbind result_bind].
  destruct (maskp_ok mask (m / NFDBITS)) as (w & -> & Hw & Hok); [done..|]. cbn [mbind result_bind].
  rewrite (top_bit_ok _ w _ (m mod NFDBITS)); try done; try lia.
  - cbn [mbind result_bind]. assert (m / NFDBITS * NFDBITS + m mod NFDBITS = m) as ->.
    { pose proof (Z.div_mod m NFDBITS). lia. }
    rewrite (proj2 (Z.leb_gt _ _)) by lia. done.
  - by rewrite <- (bit_word mask m) by (try done; lia).
  - intros j Hjj. apply not_true_is_false. intros Hbit.
    rewrite <- (bit_at mask (m / NFDBITS)) in Hbit by (try done; lia). apply Hmax in Hbit.
    pose proof (Z.div_mod m NFDBITS). lia.
Qed.

(** *** The operations *)

Lemma bit_zero h : bit FD_ZERO h = false.
Proof.
  unfold bit, FD_ZERO. destruct (_ !! _) as [w|] eqn:E; [|done].
  apply lookup_replicate in E as [-> _]. by rewrite Z.bits_0, andb_false_r.
Qed.

Lemma reset_ok : hs_ok hs_reset ∧ members hs_reset = [].
Proof.
  assert (mask_ok FD_ZERO) as Hm.
  { pose proof NFDBITS_pos. pose proof NUM_WORDS_max. unfold MAXSIZE in *.
    split; [unfold FD_ZERO; rewrite length_replicate; nia|]. apply Forall_replicate.
    pose proof (Z.pow_pos_nonneg 2 (NFDBITS - 1)). unfold in_s. lia. }
  assert (members hs_reset = []) as He.
  { apply filter_none. intros x _. cbn. by rewrite bit_zero. }
  split; [|done]. split; [done| |].
  - by rewrite He.
  - split; [by left|]. cbn. intros h. by rewrite bit_zero.
Qed.

Lemma isSet_ok h hs : hs_ok hs → 0 ≤ h < MAXSIZE → isSet h hs = Ok (bit (m_mask hs) h).
Proof. intros [Hm _ _] Hh. by apply FD_ISSET_ok. Qed.

Lemma max_range hs : hs_ok hs → -1 ≤ m_maxHandle hs < MAXSIZE.
Proof.
  intros [Hm _ [[-> | Hb] _]]; [unfold ACE_INVALID_HANDLE, MAXSIZE; lia|].
  pose proof (bit_range _ _ Hm Hb). lia.
Qed.

Lemma setBit_ok h hs :
  hs_ok hs → 0 ≤ h < MAXSIZE →
  ∃ hs', setBit h hs = Ok hs' ∧ hs_ok hs' ∧ ∀ x, bit (m_mask hs') x = bit (m_mask hs) x || (x =? h).
Proof.
  intros Hok Hh. pose proof Hok as [Hm Hs [Hmax1 Hmax2]]. unfold setBit. rewrite isSet_ok by done. cbn.
  rewrite (proj2 (Z.eqb_neq h ACE_INVALID_HANDLE)) by (unfold ACE_INVALID_HANDLE; lia). cbn [negb andb].
  destruct (bit (m_mask hs) h) eqn:Hb; cbn [negb].
  { exists hs. split_and!; [done..|]. intros x. destruct (x =? h) eqn:E; b2p; [subst; by rewrite Hb|].
    by rewrite orb_false_r. }
  destruct (FD_SET_ok h (m_mask hs)) as (mask' & -> & Hm' & Hbits); [done..|]. cbn.
  assert (∀ x, bit mask' x = bit (m_mask hs) x || (x =? h)) as Hall.
  { intros x. destruct (decide (0 ≤ x)); [by apply Hbits|].
    rewrite (proj2 (Z.eqb_neq x h)) by lia. unfold bit.
    rewrite !(proj2 (Z.leb_gt 0 x)) by lia. by repeat case_match. }
  eexists. split_and!; [done| |done]. split; cbn [m_mask m_size m_maxHandle]; [done|..].
  - rewrite Hs. assert (members_from 0 mask' ≡ₚ h :: members hs) as Hp.
    { apply NoDup_Permutation; [apply NoDup_members_from| |].
      - constructor; [|apply NoDup_members_from]. unfold members. rewrite elem_of_members_from by done.
        rewrite Hb. by intros [_ ?].
      - intros x. rewrite elem_of_cons. unfold members. rewrite !elem_of_members_from, Hall by done.
        rewrite orb_true_iff, Z.eqb_eq. split; [naive_solver|]. intros [->|[? ?]]; naive_solver lia. }
    unfold members at 2. cbn [m_mask]. rewrite Hp. cbn [length]. lia.
  - split.
    + right. rewrite Hall. destruct (_ <? h) eqn:E; [by rewrite Z.eqb_refl, orb_true_r|].
      b2p. destruct Hmax1 as [Hn|Hn]; [unfold ACE_INVALID_HANDLE in *; lia|]. by rewrite Hn.
    + intros x. rewrite Hall, orb_true_iff, Z.eqb_eq. intros [Hx| ->]; [apply Hmax2 in Hx|];
        split_if; lia.
Qed.

(** What is left after a handle is gone: the members are one less. *)
Lemma members_clear mask mask' h :
  mask_ok mask → mask_ok mask' → 0 ≤ h → bit mask h = true →
  (∀ x, bit mask' x = bit mask x && negb (x =? h)) →
  members_from 0 mask ≡ₚ h :: members_from 0 mask'.
Proof.
  intros Hm Hm' Hh Hb Hall. apply NoDup_Permutation; [apply NoDup_members_from| |].
  - constructor; [|apply NoDup_members_from]. rewrite elem_of_members_from by done.
    rewrite Hall, Z.eqb_refl, andb_false_r. by intros [_ ?].
  - intros x. rewrite elem_of_cons, !elem_of_members_from, Hall by done.
    rewrite andb_true_iff, negb_true_iff, Z.eqb_neq. destruct (decide (x = h)) as [->|]; naive_solver.
Qed.

(** A non-empty set has a largest handle. *)
Lemma max_exists mask n :
  mask_ok mask → (∀ h, bit mask h = true → h < n) → members_from 0 mask ≠ [] →
  ∃ m, bit mask m = true ∧ ∀ h, bit mask h = true → h ≤ m.
Proof.
  intros Hm. destruct (decide (0 ≤ n)) as [Hn|Hn].
  - revert n Hn. apply (natlike_ind (λ n, _ → _ → _)).
    + intros H0 Hne. exfalso. apply Hne, filter_none. intros x Hx. apply elem_of_seqZ in Hx.
      intros Hb. apply H0 in Hb. lia.
    + intros n Hn IH Hlt Hne. destruct (bit mask n) eqn:E.
      * exists n. split; [done|]. intros h Hh. apply Hlt in Hh. lia.
      * apply IH; [|done]. intros h Hh. pose proof (Hlt h Hh).
        destruct (decide (h = n)); [congruence|lia].
  - intros H0 Hne. exfalso. apply Hne, filter_none. intros x Hx. apply elem_of_seqZ in Hx.
    intros Hb. apply H0 in Hb. lia.
Qed.

Lemma clrBit_ok h hs :
  hs_ok hs → 0 ≤ h < MAXSIZE →
  ∃ hs', clrBit h hs = Ok hs' ∧ hs_ok hs' ∧ ∀ x, bit (m_mask hs') x = bit (m_mask hs) x && negb (x =? h).
Proof.
  intros Hok Hh. pose proof Hok as [Hm Hs [Hmax1 Hmax2]]. unfold clrBit.
  rewrite (proj2 (Z.eqb_neq h ACE_INVALID_HANDLE)) by (unfold ACE_INVALID_HANDLE; lia).
  rewrite isSet_ok by done. cbn [mbind result_bind].
  destruct (bit (m_mask hs) h) eqn:Hb.
  2:{ exists hs. split_and!; [done..|]. intros x. destruct (x =? h) eqn:E; b2p; [subst; by rewrite Hb|].
      by rewrite andb_true_r. }
  destruct (FD_CLR_ok h (m_mask hs)) as (mask' & -> & Hm' & Hbits); [done..|]. cbn [mbind result_bind].
  assert (∀ x, bit mask' x = bit (m_mask hs) x && negb (x =? h)) as Hall.
  { intros x. destruct (decide (0 ≤ x)); [by apply Hbits|].
    rewrite (proj2 (Z.eqb_neq x h)), andb_true_r by lia. unfold bit.
    rewrite !(proj2 (Z.leb_gt 0 x)) by lia. by repeat case_match. }
  pose proof (members_clear _ _ h Hm Hm' ltac:(lia) Hb Hall) as Hp.
  assert (m_size hs - 1 = #(members_from 0 mask')) as Hsz.
  { rewrite Hs. unfold members. rewrite Hp. cbn [length]. lia. }
  cbn [m_maxHandle]. destruct (h =? m_maxHandle hs) eqn:Eh; b2p.
  - destruct (decide (members_from 0 mask' = [])) as [He|He].
    + unfold setMax. cbn [m_size]. rewrite Hsz, He. cbn.
      eexists. split_and!; [done| |done]. split; cbn; [done|unfold members; cbn; by rewrite He|].
      split; [by left|]. intros x Hx. assert (x ∈ members_from 0 mask') as Hin.
      { apply elem_of_members_from; [done..|]. pose proof (bit_range _ _ Hm' Hx). split; [lia|done]. }
      rewrite He in Hin. by apply not_elem_of_nil in Hin.
    + assert (∀ x, bit mask' x = true → x < h) as Hlt.
      { intros x. rewrite Hall, andb_true_iff, negb_true_iff, Z.eqb_neq. intros [Hx ?].
        apply Hmax2 in Hx. lia. }
      destruct (max_exists mask' h) as (m & Hbm & Hmm); [done..|].
      rewrite (setMax_ok _ _ _ _ m); [|done| |done|done|pose proof (Hlt m Hbm); lia].
      * eexists. split_and!; [done| |done]. split; cbn; [done|done|]. split; [by right|done].
      * rewrite Hsz. destruct (members_from 0 mask'); [done|cbn; lia].
  - eexists. split_and!; [done| |done]. split; cbn [m_mask m_size m_maxHandle]; [done|done|]. split.
    + destruct Hmax1 as [->|Hx]; [by left|]. right. rewrite Hall, Hx.
      by rewrite (proj2 (Z.eqb_neq _ _)) by lia.
    + intros x. rewrite Hall, andb_true_iff. intros [Hx _]. by apply Hmax2.
Qed.

End sets.

(** ** The iterator *)

Section iterator.
Context {pf : Platform}.

Abbreviation word_ok := (in_s NFDBITS).

(** The copied word holds the members from the current handle to the end of
    its word. *)
Record at_member (mask : list Z) (it : HandleSetIterator) (val : Z) : Prop := {
  am_bit : bit mask (m_handleIndex it) = true;
  am_word : m_wordNum it = m_handleIndex it / NFDBITS;
  am_ok : word_ok val;
  am_val : ∀ j, 0 ≤ j < NFDBITS →
    Z.testbit val j = (j <? NFDBITS - m_handleIndex it mod NFDBITS) && bit mask (m_handleIndex it + j)
}.

(** Between two calls the iterator is past the last handle or at the next one. *)
Definition iter_at (hs : HandleSet) (it : HandleSetIterator) : Prop :=
  m_maxHandle hs < m_handleIndex it ∧ 0 ≤ m_handleIndex it
  ∨ ∃ val, m_wordVal it = Some val ∧ at_member (m_mask hs) it val.

(** The scan from position [base] of a shifted word to its first bit, at [base + k]. *)
Lemma next_bit_ok fuel val base k :
  word_ok val → 0 ≤ k < NFDBITS → k < Z.of_nat fuel + 1 →
  Z.testbit val k = true → (∀ j, 0 ≤ j < k → Z.testbit val j = false) →
  ∃ val', next_bit fuel val base = Ok (val', base + k) ∧ word_ok val' ∧
    ∀ j, 0 ≤ j < NFDBITS → Z.testbit val' j = (j + k <? NFDBITS) && Z.testbit val (j + k).
Proof.
  revert val base k. induction fuel as [|fuel IH]; intros val base k Hok Hk Hf Hb Hz; cbn [next_bit].
  all: rewrite land_1; destruct (decide (k = 0)) as [->|].
  1,3: rewrite Hb; exists val; rewrite !Z.add_0_r; split_and!; [done..|];
       intros j Hj; rewrite Z.add_0_r, (proj2 (Z.ltb_lt _ _)) by lia; done.
  - lia.
  - rewrite Hz by lia. cbn [negb].
    destruct (IH (shift_word val) (base + 1) (k - 1)) as (val' & -> & Hok' & Hb');
      [apply shift_word_ok|lia|lia|rewrite shift_word_spec, Z.sub_add, Hb, (proj2 (Z.ltb_lt _ _)) by lia; done|..].
    + intros j Hj. rewrite shift_word_spec, Hz by lia. done.
    + exists val'. split_and!; [f_equal; f_equal; lia|done|]. intros j Hj. rewrite Hb' by done.
      destruct (j + k <? NFDBITS) eqn:E; b2p; cbn [andb].
      * rewrite (proj2 (Z.ltb_lt _ _)) by lia. cbn [andb]. rewrite shift_word_spec by lia.
        rewrite (proj2 (Z.ltb_lt (j + (k - 1)) _)) by lia. rewrite andb_true_r. f_equal. lia.
      * destruct (j + (k - 1) <? NFDBITS) eqn:E2; b2p; [|done]. cbn [andb]. rewrite shift_word_spec by lia.
        rewrite (proj2 (Z.ltb_ge _ _)) by lia. apply andb_false_r.
Qed.

(** A word with a bit has a lowest one. *)
Lemma lowest_bit val n :
  0 ≤ n → (∃ j, 0 ≤ j < n ∧ Z.testbit val j = true) →
  ∃ k, 0 ≤ k < n ∧ Z.testbit val k = true ∧ ∀ j, 0 ≤ j < k → Z.testbit val j = false.
Proof.
  intros Hn. revert n Hn. apply (natlike_ind (λ n, _ → _)); [intros (j & Hj & _); lia|].
  intros n Hn IH (j & Hj & Hb).
  destruct (decide (Exists (λ i, Z.testbit val i = true) (seqZ 0 n))) as [He|Hno].
  - apply Exists_exists in He as (i & Hi & Hbi). apply elem_of_seqZ in Hi.
    destruct IH as (k & Hk & Hbk & Hzk); [by exists i; split; [lia|]|].
    exists k. split_and!; [lia..|done|done].
  - assert (∀ i, 0 ≤ i < n → Z.testbit val i = false) as Hz.
    { intros i Hi. apply not_true_is_false. intros Hbi. apply Hno, Exists_exists. exists i. split; [|done].
      apply elem_of_seqZ. lia. }
    destruct (decide (j = n)) as [->|]; [|rewrite Hz in Hb by lia; done].
    exists n. split_and!; [lia..|done|done].
Qed.

Lemma nonzero_lowest_bit val :
  word_ok val → val ≠ 0 →
  ∃ k, 0 ≤ k < NFDBITS ∧ Z.testbit val k = true ∧ ∀ j, 0 ≤ j < k → Z.testbit val j = false.
Proof.
  intros Hok Hne. pose proof NFDBITS_pos. apply lowest_bit; [lia|].
  destruct (decide (Exists (λ j, Z.testbit val j = true) (seqZ 0 NFDBITS))) as [He|Hno].
  - apply Exists_exists in He as (j & Hj & Hbj). apply elem_of_seqZ in Hj. exists j. split; [lia|done].
  - exfalso. apply Hne, word_zero; [done|]. intros j Hj. apply not_true_is_false. intros Hbj.
    apply Hno, Exists_exists. exists j. split; [apply elem_of_seqZ; lia|done].
Qed.

(** Entering the word [i], which is not zero. *)
Lemma enter_word mask i w :
  mask_ok mask → 0 ≤ i < NUM_WORDS → mask !! Z.to_nat i = Some w → w ≠ 0 →
  ∃ k val, 0 ≤ k < NFDBITS ∧ next_bit (Z.to_nat NFDBITS) w (i * NFDBITS) = Ok (val, i * NFDBITS + k) ∧
    at_member mask (mkIter (i * NFDBITS + k) i (Some val)) val ∧
    ∀ x, i * NFDBITS ≤ x < i * NFDBITS + k → bit mask x = false.
Proof.
  intros Hm Hi Hw Hne. pose proof NFDBITS_pos.
  assert (word_ok w) as Hok by (destruct Hm; by eapply Forall_lookup_1).
  destruct (nonzero_lowest_bit w Hok Hne) as (k & Hk & Hb & Hz).
  destruct (next_bit_ok (Z.to_nat NFDBITS) w (i * NFDBITS) k) as (val & Hn & Hokv & Hv); [done|done|lia|done|done|].
  exists k, val. split_and!; [lia..|done| |].
  - assert ((i * NFDBITS + k) / NFDBITS = i) as Hd.
    { rewrite Z.add_comm, Z.div_add by lia. rewrite Z.div_small; lia. }
    assert ((i * NFDBITS + k) mod NFDBITS = k) as Hr.
    { rewrite Z.add_comm, Z.mod_add by lia. apply Z.mod_small. lia. }
    split; cbn [m_handleIndex m_wordNum]; [by rewrite (bit_at mask i k w) by (try done; lia)|by rewrite Hd|done|].
    intros j Hj. rewrite Hv, Hr by done.
    replace (j <? NFDBITS - k) with (j + k <? NFDBITS) by (apply eq_true_iff_eq; rewrite !Z.ltb_lt; lia).
    destruct (j + k <? NFDBITS) eqn:E; b2p; [|done]. cbn [andb].
    rewrite <- Z.add_assoc, (bit_at mask i (k + j) w) by (try done; lia). f_equal. lia.
  - intros x Hx. replace x with (i * NFDBITS + (x - i * NFDBITS)) by lia.
    rewrite (bit_at mask i _ w) by (try done; lia). apply Hz. lia.
Qed.

(** The scan over words from the word [n]. *)
Lemma next_word_ok fuel mask m n :
  mask_ok mask → is_max mask m → 0 ≤ n → m + 1 ≤ (n + Z.of_nat fuel) * NFDBITS →
  ∃ i, n ≤ i ∧ next_word fuel mask (m + 1) (n * NFDBITS) n = Ok (i * NFDBITS, i) ∧
    (∀ x, n * NFDBITS ≤ x < i * NFDBITS → bit mask x = false) ∧
    (m + 1 ≤ i * NFDBITS ∨
     i * NFDBITS ≤ m ∧ 0 ≤ i < NUM_WORDS ∧ ∃ w, maskp mask i = Ok w ∧ mask !! Z.to_nat i = Some w ∧ w ≠ 0).
Proof.
  intros Hm Hmax. pose proof NFDBITS_pos. pose proof NUM_WORDS_max.
  revert n. induction fuel as [|fuel IH]; intros n Hn Hf; cbn [next_word].
  - rewrite (proj2 (Z.ltb_ge _ _)) by lia. exists n. split_and!; [lia..|done|lia|left; lia].
  - destruct (n * NFDBITS <? m + 1) eqn:E; b2p.
    2:{ exists n. split_and!; [lia..|done|lia|left; lia]. }
    assert (m < MAXSIZE) as Hr.
    { destruct Hmax as [[->|Hb] _]; [unfold ACE_INVALID_HANDLE, MAXSIZE; lia|].
      pose proof (bit_range _ _ Hm Hb). lia. }
    destruct (maskp_ok mask n) as (w & Hp & Hw & Hok); [done|nia|]. rewrite Hp. cbn [mbind result_bind].
    destruct (w =? 0) eqn:Ew; b2p.
    + replace (n * NFDBITS + NFDBITS) with ((n + 1) * NFDBITS) by lia.
      destruct (IH (n + 1)) as (i & Hi & -> & Hz & Hcase); [lia..|].
      exists i. split_and!; [lia|done| |done]. intros x Hx.
      destruct (decide ((n + 1) * NFDBITS ≤ x)); [apply Hz; lia|].
      replace x with (n * NFDBITS + (x - n * NFDBITS)) by lia.
      rewrite (bit_at mask n _ w) by (try done; lia). subst w. apply Z.bits_0.
    + exists n. split_and!; [lia|done|lia|]. right. split_and!; [lia|lia|nia|]. by exists w.
Qed.

(** The scan of the constructor is the same; it stops one word earlier at the end. *)
Lemma first_word_next fuel mask m1 n :
  first_word fuel mask m1 (n * NFDBITS) (n - 1) =
    '(index, i) ← next_word fuel mask m1 (n * NFDBITS) n;
    Ok (index, if m1 <=? index then i - 1 else i).
Proof.
  revert n. induction fuel as [|fuel IH]; intros n; cbn [first_word next_word];
    rewrite Z.sub_add; destruct (_ <? m1) eqn:E; b2p.
  2,4: cbn; by rewrite (proj2 (Z.leb_le _ _)) by lia.
  all: destruct (maskp mask n) as [w|]; [|done]; cbn [mbind result_bind]; destruct (w =? 0) eqn:Ew.
  1: done.
  1,3: cbn; by rewrite (proj2 (Z.leb_gt _ _)) by lia.
  replace (n * NFDBITS + NFDBITS) with ((n + 1) * NFDBITS) by lia.
  rewrite <- IH. f_equal. lia.
Qed.

(** The bound of the constructor's loop over bits is not reached. *)
Lemma first_bit_next fuel m1 val index val' index' :
  next_bit fuel val index = Ok (val', index') → index' < m1 →
  first_bit fuel m1 val index = Ok (val', index').
Proof.
  revert val index. induction fuel as [|fuel IH]; intros val index; cbn [next_bit first_bit];
    destruct (Z.land val 1 =? 0); try done.
  intros Hn Hlt. assert (index < m1) as Hi; [|rewrite (proj2 (Z.ltb_lt _ _)) by done; by apply IH].
  assert (∀ f v i v' i', next_bit f v i = Ok (v', i') → i ≤ i') as Hmono.
  { clear. induction f as [|f IH]; intros v i v' i'; cbn [next_bit]; destruct (_ =? 0); try done;
      intros Hn; try (inv_ok; lia). apply IH in Hn. lia. }
  apply Hmono in Hn. lia.
Qed.

Lemma resetState_ok hs it :
  hs_ok hs →
  ∃ it', resetState hs it = Ok it' ∧ iter_at hs it' ∧
    (∀ x, 0 ≤ x < m_handleIndex it' → bit (m_mask hs) x = false) ∧ 0 ≤ m_handleIndex it' ≤ MAXSIZE.
Proof.
  intros Hok. pose proof Hok as [Hm Hs Hmax]. pose proof (max_range hs Hok).
  pose proof NFDBITS_pos. pose proof NUM_WORDS_max.
  unfold resetState. change 0 with (0 * NFDBITS) at 1. change (-1) with (0 - 1) at 1.
  rewrite first_word_next.
  destruct (next_word_ok (Z.to_nat NUM_WORDS) (m_mask hs) (m_maxHandle hs) 0) as (i & Hi & -> & Hz & Hcase);
    [done..|nia|]. cbn [mbind result_bind].
  destruct Hcase as [Hend|(Hle & Hi' & w & Hp & Hw & Hne)].
  - rewrite !(proj2 (Z.leb_le _ (i * NFDBITS))) by lia. eexists. split_and!; [done|..]; cbn [m_handleIndex].
    + left. cbn [m_handleIndex]. lia.
    + intros x Hx. apply Hz. lia.
    + lia.
    + lia.
  - rewrite !(proj2 (Z.leb_gt _ (i * NFDBITS))) by lia. rewrite Hp. cbn [mbind result_bind].
    destruct (enter_word (m_mask hs) i w) as (k & val & Hk & Hn & Ham & Hzk); [done..|].
    pose proof (am_bit _ _ _ Ham) as Hb. cbn in Hb. pose proof (proj2 Hmax _ Hb).
    rewrite (first_bit_next _ _ _ _ _ _ Hn) by lia. cbn [mbind result_bind].
    eexists. split_and!; [done|..]; cbn [m_handleIndex]; [right; by exists val| |nia|lia].
    intros x Hx. destruct (decide (x < i * NFDBITS)); [apply Hz; lia|apply Hzk; lia].
Qed.

(** What is left of the word after its current bit. *)
Lemma shifted_bits mask h val j :
  (∀ j, 0 ≤ j < NFDBITS → Z.testbit val j = (j <? NFDBITS - h mod NFDBITS) && bit mask (h + j)) →
  0 ≤ h → 0 ≤ j →
  Z.testbit (shift_word val) j = (j + 1 <? NFDBITS - h mod NFDBITS) && bit mask (h + 1 + j).
Proof.
  intros Hbits Hh Hj. pose proof NFDBITS_pos. assert (0 ≤ h mod NFDBITS < NFDBITS) by (apply Z.mod_pos_bound; lia).
  rewrite shift_word_spec by done. destruct (j <? NFDBITS - 1) eqn:Ej; b2p.
  - rewrite Hbits, andb_true_r by lia. do 2 f_equal. lia.
  - rewrite andb_false_r. rewrite (proj2 (Z.ltb_ge _ _)) by lia. done.
Qed.

(** The next member is in the same word. *)
Lemma stay_in_word mask h val :
  0 ≤ h → (∀ j, 0 ≤ j < NFDBITS → Z.testbit val j = (j <? NFDBITS - h mod NFDBITS) && bit mask (h + j)) →
  shift_word val ≠ 0 →
  ∃ k val', 0 ≤ k ∧ next_bit (Z.to_nat NFDBITS) (shift_word val) (h + 1) = Ok (val', h + 1 + k) ∧
    at_member mask (mkIter (h + 1 + k) (h / NFDBITS) (Some val')) val' ∧
    ∀ x, h < x < h + 1 + k → bit mask x = false.
Proof.
  intros Hh Hbits Hne. pose proof NFDBITS_pos. assert (0 ≤ h mod NFDBITS < NFDBITS) as Hj by (apply Z.mod_pos_bound; lia).
  pose proof (λ j, shifted_bits mask h val j Hbits Hh) as Hsh.
  destruct (nonzero_lowest_bit (shift_word val)) as (k & Hk & Hbk & Hzk); [apply shift_word_ok|done|].
  destruct (next_bit_ok (Z.to_nat NFDBITS) (shift_word val) (h + 1) k) as (v' & -> & Hokv' & Hv');
    [apply shift_word_ok|done|lia|done|done|].
  rewrite Hsh in Hbk by lia. apply andb_true_iff in Hbk as [Hkl Hbk]. b2p.
  assert ((h + 1 + k) / NFDBITS = h / NFDBITS ∧ (h + 1 + k) mod NFDBITS = h mod NFDBITS + 1 + k) as [Hd' Hm'].
  { assert (h = NFDBITS * (h / NFDBITS) + h mod NFDBITS) as Hdm by (apply Z.div_mod; lia).
    replace (h + 1 + k) with (h mod NFDBITS + 1 + k + h / NFDBITS * NFDBITS) by lia.
    rewrite Z.div_add, Z.mod_add by lia. rewrite Z.div_small, Z.mod_small by lia. lia. }
  exists k, v'. split_and!; [lia|done| |].
  - split; cbn [m_handleIndex m_wordNum]; [done|congruence|done|].
    intros j Hj'. rewrite Hv', Hm' by done. rewrite Hsh by lia.
    destruct (j <? NFDBITS - (h mod NFDBITS + 1 + k)) eqn:E; b2p.
    + rewrite !(proj2 (Z.ltb_lt _ _)) by lia. cbn. f_equal. lia.
    + rewrite (proj2 (Z.ltb_ge (j + k + 1) _)) by lia. by rewrite andb_false_r.
  - intros x Hx. specialize (Hzk (x - h - 1) ltac:(lia)). rewrite Hsh in Hzk by lia.
    rewrite (proj2 (Z.ltb_lt _ _)) in Hzk by lia. cbn in Hzk. rewrite <- Hzk. f_equal. lia.
Qed.

(** One call of the iterator. *)
Lemma iterator_next_ok hs it :
  hs_ok hs → iter_at hs it →
  (m_maxHandle hs < m_handleIndex it ∧ iterator_next hs it = Ok (ACE_INVALID_HANDLE, it)) ∨
  (bit (m_mask hs) (m_handleIndex it) = true ∧
   ∃ it', iterator_next hs it = Ok (m_handleIndex it, it') ∧ iter_at hs it' ∧
     m_handleIndex it < m_handleIndex it' ≤ MAXSIZE ∧
     ∀ x, m_handleIndex it < x < m_handleIndex it' → bit (m_mask hs) x = false).
Proof.
  intros Hok Hat. pose proof Hok as [Hm Hs Hmax]. pose proof (max_range hs Hok).
  pose proof NFDBITS_pos. pose proof NUM_WORDS_max. unfold iterator_next.
  destruct Hat as [Hend|(val & Hval & [Hb Hwn Hokv Hbits])].
  { left. rewrite (proj2 (Z.leb_le _ _)) by lia. split; [lia|done]. }
  right. split; [done|]. pose proof (proj2 Hmax _ Hb) as Hle. pose proof (bit_range _ _ Hm Hb) as Hr.
  rewrite (proj2 (Z.leb_gt _ _)), Hval by lia. destruct it as [h n v]; cbn in *.
  destruct (handle_word h Hr) as [Hq Hj]. pose proof (Z.div_mod h NFDBITS ltac:(lia)) as Hdm.
  destruct (shift_word val =? 0) eqn:Ez; b2p.
  - assert (∀ x, h < x < (n + 1) * NFDBITS → bit (m_mask hs) x = false) as Hz0.
    { intros x Hx. pose proof (shifted_bits (m_mask hs) h val (x - h - 1) Hbits ltac:(lia) ltac:(lia)) as Hsh.
      rewrite Ez, Z.bits_0 in Hsh.
      rewrite (proj2 (Z.ltb_lt _ _)) in Hsh by lia. cbn in Hsh. rewrite Hsh. f_equal. lia. }
    destruct (next_word_ok (Z.to_nat NUM_WORDS) (m_mask hs) (m_maxHandle hs) (n + 1)) as (i & Hi & -> & Hz & Hcase);
      [done|done|lia|nia|]. cbn [mbind result_bind].
    destruct Hcase as [Hend|(Hle' & Hi' & w & Hp & Hw & Hne)].
    + rewrite (proj2 (Z.leb_le _ _)) by lia. eexists. split_and!; [done|left; cbn; lia|cbn; lia|cbn; lia|].
      cbn. intros x Hx. destruct (decide (x < (n + 1) * NFDBITS)); [apply Hz0; lia|apply Hz; lia].
    + rewrite (proj2 (Z.leb_gt _ _)) by lia. rewrite Hp. cbn [mbind result_bind].
      destruct (enter_word (m_mask hs) i w) as (k & v' & Hk & -> & Ham & Hzk); [done..|]. cbn [mbind result_bind].
      eexists. split_and!; [done|right; by exists v'|cbn; nia|cbn; nia|].
      cbn. intros x Hx. destruct (decide (x < (n + 1) * NFDBITS)); [apply Hz0; lia|].
      destruct (decide (x < i * NFDBITS)); [apply Hz; lia|apply Hzk; lia].
  - destruct (stay_in_word (m_mask hs) h val) as (k & v' & Hk & -> & Ham & Hz); [lia|done|done|].
    cbn [mbind result_bind]. pose proof (am_bit _ _ _ Ham) as Hbk. cbn in Hbk.
    pose proof (bit_range _ _ Hm Hbk).
    eexists. split_and!; [done|right; exists v'; by subst n|cbn; lia|cbn; lia|done].
Qed.

Lemma iterate_ok fuel hs it :
  hs_ok hs → iter_at hs it → 0 ≤ m_handleIndex it ≤ MAXSIZE →
  MAXSIZE - m_handleIndex it < Z.of_nat fuel →
  iterate fuel hs it = Ok (members_from (m_handleIndex it) (m_mask hs)).
Proof.
  intros Hok. revert it. induction fuel as [|fuel IH]; intros it Hat Hr Hf; [lia|]. cbn [iterate].
  pose proof Hok as [Hm _ Hmax].
  destruct (iterator_next_ok hs it Hok Hat) as [[Hend ->]|(Hb & it' & -> & Hat' & Hlt & Hz)].
  - cbn. by erewrite members_from_end by (try done; lia).
  - pose proof (bit_range _ _ Hm Hb). cbn [mbind result_bind].
    rewrite (proj2 (Z.eqb_neq _ _)) by (unfold ACE_INVALID_HANDLE; lia).
    rewrite IH by (try done; lia). cbn. f_equal. rewrite (members_from_cons (m_handleIndex it)) by (try done; lia).
    f_equal. symmetry. apply members_from_skip; [lia|lia|]. intros x Hx. apply Hz. lia.
Qed.

End iterator.

(** ** Counting bits *)

Section counting.
Context {pf : Platform}.

Abbreviation word_ok := (in_s NFDBITS).

(** The number of [k] positions from [lo] at which [f] is true. *)
Fixpoint count_positions (f : Z → bool) (lo : Z) (k : nat) : Z :=
  match k with
  | O => 0
  | S k => (if f lo then 1 else 0) + count_positions f (lo + 1) k
  end.

Lemma count_bits_filter f lo n :
  0 ≤ n → #(filter (λ h, f h = true) (seqZ lo n)) = count_positions f lo (Z.to_nat n).
Proof.
  intros Hn. revert n Hn lo. apply (natlike_ind (λ n, ∀ lo, _)); [done|].
  intros n Hn IH lo. rewrite seqZ_cons, Z2Nat.inj_succ by lia.
  rewrite Z.pred_succ. cbn [count_positions]. rewrite <- IH. rewrite Z.add_1_r.
  destruct (f lo) eqn:E.
  - rewrite filter_cons_True by done. cbn [length]. lia.
  - rewrite filter_cons_False by (by rewrite E). lia.
Qed.

Lemma count_bits_ext f g lo lo' k :
  (∀ j, 0 ≤ j < Z.of_nat k → f (lo + j) = g (lo' + j)) → count_positions f lo k = count_positions g lo' k.
Proof.
  revert lo lo'. induction k as [|k IH]; intros lo lo' H; [done|]. cbn [count_positions].
  rewrite <- (Z.add_0_r lo) at 1. rewrite <- (Z.add_0_r lo') at 1. rewrite H by lia. f_equal.
  apply IH. intros j Hj. rewrite <- !Z.add_assoc. apply H. lia.
Qed.

Lemma count_bits_app f lo a b : count_positions f lo (a + b) = count_positions f lo a + count_positions f (lo + Z.of_nat a) b.
Proof.
  revert lo. induction a as [|a IH]; intros lo; [cbn; by rewrite Z.add_0_r|].
  cbn [Nat.add count_positions]. rewrite IH. replace (lo + Z.of_nat (S a)) with (lo + 1 + Z.of_nat a) by lia. lia.
Qed.

Lemma count_bits_none f lo k : (∀ j, 0 ≤ j < Z.of_nat k → f (lo + j) = false) → count_positions f lo k = 0.
Proof.
  revert lo. induction k as [|k IH]; intros lo H; [done|]. cbn [count_positions].
  rewrite <- (Z.add_0_r lo) at 1. rewrite H by lia. rewrite IH; [done|].
  intros j Hj. rewrite <- Z.add_assoc. apply H. lia.
Qed.

(** The table is right. *)
Lemma nbits_ok b : 0 ≤ b < 256 → nbits_at b = count_positions (Z.testbit b) 0 8.
Proof.
  intros Hb. assert (Forall (λ b, nbits_at b = count_positions (Z.testbit b) 0 8) (seqZ 0 256)) as Hall.
  { apply (bool_decide_unpack _). vm_compute. done. }
  rewrite Forall_forall in Hall. apply Hall. apply elem_of_seqZ. lia.
Qed.

Lemma nbits_byte n s : 0 ≤ s → nbits_at (Z.land (Z.shiftr n s) 255) = count_positions (Z.testbit n) s 8.
Proof.
  intros Hs. change 255 with (Z.ones 8). rewrite nbits_ok.
  - apply count_bits_ext. intros j Hj. rewrite Z.land_spec, Z.shiftr_spec by lia.
    rewrite Z.ones_spec_low by lia. rewrite andb_true_r. f_equal. lia.
  - rewrite Z.land_ones by lia. apply Z.mod_pos_bound. lia.
Qed.

(** [countBits] counts the 32 low bits. *)
Lemma countBits_low n : countBits n = count_positions (Z.testbit n) 0 32.
Proof.
  unfold countBits. rewrite <- (Z.shiftr_0_r n) at 1. rewrite !nbits_byte by lia.
  change 32%nat with (8 + (8 + (8 + 8)))%nat. rewrite !count_bits_app.
  change (0 + Z.of_nat 8) with 8. change (8 + Z.of_nat 8) with 16. change (16 + Z.of_nat 8) with 24. lia.
Qed.

(** All bits of a word that has none above the 32 low ones. *)
Lemma countBits_word w :
  word_ok w → (∀ j, 32 ≤ j < NFDBITS → Z.testbit w j = false) →
  countBits (wrap NFDBITS w) = count_positions (Z.testbit w) 0 (Z.to_nat NFDBITS).
Proof.
  intros Hw Hz. pose proof NFDBITS_pos. rewrite countBits_low.
  replace (Z.to_nat NFDBITS) with (32 + (Z.to_nat NFDBITS - 32))%nat by lia.
  rewrite count_bits_app, (count_bits_none _ (0 + _)).
  - rewrite Z.add_0_r. apply count_bits_ext. intros j Hj. unfold wrap.
    by rewrite Z.mod_pow2_bits_low by lia.
  - intros j Hj. apply Hz. lia.
Qed.

Lemma sync_loop_ok mask n size :
  mask_ok mask → Z.of_nat n ≤ NUM_WORDS → (∀ h, bit mask h = true → h mod NFDBITS < 32) →
  sync_loop mask n size = Ok (size + count_positions (bit mask) 0 (n * Z.to_nat NFDBITS)).
Proof.
  intros Hm Hn Hlow. pose proof NFDBITS_pos. revert size. induction n as [|n IH]; intros size; cbn [sync_loop].
  { f_equal. cbn. lia. }
  destruct (maskp_ok mask (Z.of_nat n)) as (w & -> & Hw & Hok); [done|lia|]. cbn [mbind result_bind].
  rewrite IH by lia. f_equal. rewrite countBits_word; [|done|].
  - replace (S n * Z.to_nat NFDBITS)%nat with (n * Z.to_nat NFDBITS + Z.to_nat NFDBITS)%nat by lia.
    rewrite count_bits_app. rewrite <- Z.add_assoc. f_equal. rewrite Z.add_comm. f_equal.
    apply count_bits_ext. intros j Hj. rewrite Z.add_0_l.
    replace (0 + Z.of_nat (n * Z.to_nat NFDBITS) + j) with (Z.of_nat n * NFDBITS + j) by lia.
    symmetry. apply bit_at; [lia|lia|done].
  - intros j Hj. apply not_true_is_false. intros Hb.
    rewrite <- (bit_at mask (Z.of_nat n)) in Hb by (try done; lia).
    apply Hlow in Hb. rewrite Z.add_comm, Z.mod_add, Z.mod_small in Hb by lia. lia.
Qed.

(** [sync] on the bits that [select] left. *)
Lemma sync_ok max hs :
  mask_ok (m_mask hs) → 0 ≤ max ≤ MAXSIZE →
  (∀ h, bit (m_mask hs) h = true → h < max ∧ h mod NFDBITS < 32) →
  ∃ hs', sync max hs = Ok hs' ∧ m_mask hs' = m_mask hs ∧ hs_ok hs'.
Proof.
  intros Hm Hr Hb. pose proof NFDBITS_pos. pose proof NUM_WORDS_max as Hnw. pose proof NUM_WORDS_pos.
  assert (0 ≤ Z.quot (max - 1) NFDBITS < NUM_WORDS) as Hq.
  { destruct (decide (max = 0)) as [->|].
    - assert (Z.quot (0 - 1) NFDBITS = 0) as -> by (destruct NFDBITS_long as [-> | ->]; reflexivity). nia.
    - rewrite Z.quot_div_nonneg by lia. split; [apply Z.div_pos; lia|apply Z.div_lt_upper_bound; lia]. }
  unfold sync. rewrite sync_loop_ok; [|done|lia|intros; by apply Hb]. cbn [mbind result_bind].
  set (n := (Z.to_nat (Z.quot (max - 1) NFDBITS + 1) * Z.to_nat NFDBITS)%nat).
  assert (max ≤ Z.of_nat n ≤ MAXSIZE) as Hn.
  { subst n. rewrite Nat2Z.inj_mul, !Z2Nat.id by lia.
    destruct (decide (max = 0)) as [->|]; [nia|].
    assert (max - 1 = NFDBITS * Z.quot (max - 1) NFDBITS + Z.rem (max - 1) NFDBITS) by (apply Z.quot_rem; lia).
    assert (0 ≤ Z.rem (max - 1) NFDBITS < NFDBITS) by (apply Z.rem_bound_pos; lia). nia. }
  assert (0 + count_positions (bit (m_mask hs)) 0 n = #(members_from 0 (m_mask hs))) as ->.
  { unfold members_from. rewrite count_bits_filter by (unfold MAXSIZE; lia). rewrite Z.sub_0_r.
    replace (Z.to_nat MAXSIZE) with (n + (Z.to_nat MAXSIZE - n))%nat by lia.
    rewrite count_bits_app, (count_bits_none _ (0 + _)); [lia|]. intros j Hj. apply not_true_is_false.
    intros Hx. apply Hb in Hx. lia. }
  destruct (decide (members_from 0 (m_mask hs) = [])) as [He|He].
  - unfold setMax. rewrite He. cbn. eexists. split_and!; [done..|].
    split; cbn; [done|unfold members; cbn; by rewrite He|]. split; [by left|].
    intros x Hx. assert (x ∈ members_from 0 (m_mask hs)) as Hin.
    { apply elem_of_members_from; [done..|]. pose proof (bit_range _ _ Hm Hx). split; [lia|done]. }
    rewrite He in Hin. by apply not_elem_of_nil in Hin.
  - destruct (max_exists (m_mask hs) max) as (m & Hbm & Hmm); [done|intros h Hh; by apply Hb|done|].
    rewrite (setMax_ok _ _ _ _ m); [|done| |done|done|destruct (Hb m Hbm); lia].
    + eexists. split_and!; [done..|]. split; cbn; [done|done|]. split; [by right|done].
    + destruct (members_from 0 (m_mask hs)); [done|cbn; lia].
Qed.

(** Bits above the 32 low ones are not counted. *)
Lemma sync_loop_high mask n size :
  mask_ok mask → Z.of_nat n ≤ NUM_WORDS → (∀ h, bit mask h = true → 32 ≤ h mod NFDBITS) →
  sync_loop mask n size = Ok size.
Proof.
  intros Hm Hn Hhigh. pose proof NFDBITS_pos. revert size. induction n as [|n IH]; intros size; cbn [sync_loop]; [done|].
  destruct (maskp_ok mask (Z.of_nat n)) as (w & -> & Hw & Hok); [done|lia|]. cbn [mbind result_bind].
  rewrite IH by lia. f_equal. rewrite countBits_low, count_bits_none; [lia|].
  intros j Hj. unfold wrap. rewrite Z.mod_pow2_bits_low by lia. apply not_true_is_false. intros Hb.
  rewrite <- (bit_at mask (Z.of_nat n)) in Hb by (try done; lia).
  apply Hhigh in Hb. rewrite Z.add_comm, Z.mod_add, Z.mod_small in Hb by lia. lia.
Qed.

Lemma sync_high max hs :
  mask_ok (m_mask hs) → 0 ≤ max ≤ MAXSIZE → (∀ h, bit (m_mask hs) h = true → 32 ≤ h mod NFDBITS) →
  sync max hs = Ok (mkHandleSet 0 (m_mask hs) ACE_INVALID_HANDLE).
Proof.
  intros Hm Hr Hb. pose proof NFDBITS_pos. pose proof NUM_WORDS_max as Hnw. pose proof NUM_WORDS_pos.
  unfold sync. rewrite sync_loop_high; [done|done| |done].
  assert (Z.quot (max - 1) NFDBITS < NUM_WORDS); [|lia].
  destruct (decide (max = 0)) as [->|].
  - assert (Z.quot (0 - 1) NFDBITS = 0) as -> by (destruct NFDBITS_long as [-> | ->]; reflexivity). lia.
  - rewrite Z.quot_div_nonneg by lia. apply Z.div_lt_upper_bound; lia.
Qed.

End counting.

(** ** Handle sets as finite sets *)

Inductive hs_op :=
  | OpSet (h : Z)
  | OpClr (h : Z)
  | OpReset.

Definition op_handle (o : hs_op) : Z := match o with OpSet h | OpClr h => h | OpReset => 0 end.

Definition hs_step {pf : Platform} (hs : HandleSet) (o : hs_op) : result HandleSet :=
  match o with OpSet h => setBit h hs | OpClr h => clrBit h hs | OpReset => Ok hs_reset end.

Definition hs_run {pf : Platform} (ops : list hs_op) (hs : HandleSet) : result HandleSet :=
  foldl (λ r o, hs ← r; hs_step hs o) (Ok hs) ops.

(** The reference: a set of integers. *)
Definition ref_step (X : gset Z) (o : hs_op) : gset Z :=
  match o with OpSet h => {[h]} ∪ X | OpClr h => X ∖ {[h]} | OpReset => ∅ end.

Definition ascending (X : gset Z) : list Z := filter (λ h, h ∈ X) (seqZ 0 MAXSIZE).

Section reference.
Context {pf : Platform}.

Definition represents (hs : HandleSet) (X : gset Z) : Prop :=
  hs_ok hs ∧ ∀ h, bit (m_mask hs) h = true ↔ h ∈ X.

Lemma hs_step_ok hs X o :
  represents hs X → 0 ≤ op_handle o < MAXSIZE →
  ∃ hs', hs_step hs o = Ok hs' ∧ represents hs' (ref_step X o).
Proof.
  intros [Hok Hbits] Hr. destruct o as [h|h|]; cbn [hs_step ref_step op_handle] in *.
  - destruct (setBit_ok h hs Hok Hr) as (hs' & -> & Hok' & Hb). exists hs'. split; [done|]. split; [done|].
    intros x. rewrite Hb, orb_true_iff, Hbits, Z.eqb_eq. set_solver.
  - destruct (clrBit_ok h hs Hok Hr) as (hs' & -> & Hok' & Hb). exists hs'. split; [done|]. split; [done|].
    intros x. rewrite Hb, andb_true_iff, Hbits, negb_true_iff, Z.eqb_neq. set_solver.
  - exists hs_reset. split; [done|]. split; [apply reset_ok|]. intros h. cbn. rewrite bit_zero. set_solver.
Qed.

Lemma hs_run_ok ops hs X :
  represents hs X → Forall (λ o, 0 ≤ op_handle o < MAXSIZE) ops →
  ∃ hs', hs_run ops hs = Ok hs' ∧ represents hs' (foldl ref_step X ops).
Proof.
  intros Hrep Hall. revert hs X Hrep. induction Hall as [|o ops Ho _ IH]; intros hs X Hrep; [by exists hs|].
  unfold hs_run. cbn [foldl]. rewrite bind_Ok. destruct (hs_step_ok hs X o Hrep Ho) as (hs' & -> & Hrep').
  by apply IH.
Qed.

Lemma members_ascending hs X : represents hs X → members hs = ascending X.
Proof.
  intros [Hok Hbits]. unfold members, members_from, ascending. rewrite Z.sub_0_r.
  apply list_filter_iff. intros x. apply Hbits.
Qed.

Lemma represents_size hs X : represents hs X → m_size hs = Z.of_nat (size X).
Proof.
  intros [Hok Hbits]. rewrite (ok_size _ Hok). f_equal. pose proof (ok_mask _ Hok) as Hm.
  replace X with (list_to_set (C := gset Z) (members hs)).
  - symmetry. apply size_list_to_set, NoDup_members_from.
  - apply set_eq. intros x. rewrite elem_of_list_to_set. unfold members.
    rewrite elem_of_members_from, Hbits by done. split; [by intros [_ ?]|]. intros Hx. split; [|done].
    apply Hbits in Hx. apply (bit_range _ _ Hm) in Hx. lia.
Qed.

(** All of an iteration. *)
Lemma iterate_members hs :
  hs_ok hs → (it ← HandleSetIterator_new hs; iterate 1025 hs it) = Ok (members hs).
Proof.
  intros Hok. unfold HandleSetIterator_new.
  destruct (resetState_ok hs (mkIter 0 (-1) None) Hok) as (it & -> & Hat & Hz & Hr). rewrite bind_Ok.
  rewrite iterate_ok by (try done; unfold MAXSIZE in *; lia). f_equal.
  symmetry. apply members_from_skip; [lia|lia|]. intros x Hx. by apply Hz.
Qed.

End reference.

(** C27: A [HandleSet] is a finite set: after any sequence of [setBit], [clrBit]
    and [reset] on handles in range, none of which faults, [isSet] is
    membership, the count is the size of the set, [maxSet] its largest element
    or -1, and the iterator returns its elements in ascending order and then
    [ACE_INVALID_HANDLE]. *)
Theorem handle_set_is_set {pf : Platform} ops :
  Forall (λ o, 0 ≤ op_handle o < MAXSIZE) ops →
  let X := foldl ref_step ∅ ops in
  ∃ hs, hs_run ops HandleSet_new = Ok hs ∧
    (∀ h, 0 ≤ h < MAXSIZE → isSet h hs = Ok (bool_decide (h ∈ X))) ∧
    m_size hs = Z.of_nat (size X) ∧
    (∀ h, h ∈ X → h ≤ maxSet hs) ∧ (if decide (X = ∅) then maxSet hs = -1 else maxSet hs ∈ X) ∧
    (it ← HandleSetIterator_new hs; iterate 1025 hs it) = Ok (ascending X).
Proof.
  intros Hall X. destruct (hs_run_ok ops HandleSet_new ∅) as (hs & Hrun & Hrep); [|done|].
  { split; [apply reset_ok|]. intros h. cbn. rewrite bit_zero. set_solver. }
  fold X in Hrep. pose proof Hrep as [Hok Hbits]. pose proof (ok_max _ Hok) as [Hm1 Hm2].
  exists hs. split_and!; [done|..].
  - intros h Hh. rewrite isSet_ok by done. f_equal. apply eq_true_iff_eq.
    by rewrite Hbits, bool_decide_eq_true.
  - by apply represents_size.
  - intros h Hh. by apply Hm2, Hbits.
  - unfold maxSet. destruct (decide (X = ∅)) as [He|He].
    + destruct Hm1 as [?|Hb]; [done|]. apply Hbits in Hb. set_solver.
    + destruct Hm1 as [Hn|Hb]; [|by apply Hbits]. exfalso. apply He. apply set_eq. intros x.
      split; [|set_solver]. intros Hx. apply Hbits in Hx. pose proof (Hm2 x Hx).
      pose proof (bit_range _ _ (ok_mask _ Hok) Hx). unfold ACE_INVALID_HANDLE in *. lia.
  - by rewrite iterate_members, (members_ascending hs X).
Qed.

Definition lp64 : Platform := {| NFDBITS := 64; NFDBITS_long := or_intror eq_refl |}.
Definition ilp32 : Platform := {| NFDBITS := 32; NFDBITS_long := or_introl eq_refl |}.

Example handle_set_is_set_witness :
  ∃ hs, hs_run (pf := lp64) [OpSet 70; OpSet 3; OpSet 1023; OpSet 63; OpClr 1023; OpSet 3] (HandleSet_new (pf := lp64)) = Ok hs ∧
    (it ← HandleSetIterator_new (pf := lp64) hs; iterate (pf := lp64) 1025 hs it) = Ok [3; 63; 70].
Proof.
  destruct (handle_set_is_set (pf := lp64) [OpSet 70; OpSet 3; OpSet 1023; OpSet 63; OpClr 1023; OpSet 3])
    as (hs & Hrun & _ & _ & _ & _ & Hit).
  - repeat constructor; vm_compute; intuition discriminate.
  - exists hs. split; [exact Hrun|]. rewrite Hit. vm_compute. reflexivity.
Defined.
