(* ===== verification/SelectReactor.v ===== *)
(** * The reactor (icc/SelectReactor.cpp)

    [SelectReactor] demultiplexes the events of all connections: it keeps
    which handler is registered for which handle and events, waits in
    [select] until a handle is ready or a timer is due, runs the timers and
    then the handlers of the ready handles.

    The handlers are code of the application; they may call the reactor back.
    The class [ReactorHandlers] is their interface; the class [Kernel] is
    [select] and the clock, with what the manual says of [select] in
    [LawfulSelect].  The state is the record [SelectReactor]; its timers are
    the [TimerHeap] of the timer queue.

    Theorems: registration and removal change exactly the masks they are asked
    to and keep the tables consistent; [handleEvents] runs the handler of each
    ready handle exactly once; where it never returns. *)
From S2P Require Import Prelude TimeValue TimerHeap TimerQueue HandleSet.

(** ** Events and masks (icc/EventHandler.h) *)

Definition NULL_MASK : Z := 0.
Definition READ_MASK : Z := 1.
Definition WRITE_MASK : Z := 2.
Definition EXCEPT_MASK : Z := 4.
Definition ACCEPT_MASK : Z := 8.
Definition CONNECT_MASK : Z := 16.
Definition ALL_EVENTS_MASK : Z := 511.
Definition DONT_CALL : Z := 512.

Definition BIT_ENABLED (word bits : Z) : bool := negb (Z.land word bits =? 0).

(** The three upcalls a handle can cause. *)
Inductive callback := handleOutput_ | handleException_ | handleInput_.

#[export] Instance callback_eq_dec : EqDecision callback.
Proof. solve_decision. Defined.

(** The operations of [bitOps] (icc/Reactor.h). *)
Inductive mask_op := GET_MASK | SET_MASK | ADD_MASK | CLR_MASK.

#[export] Instance mask_op_eq_dec : EqDecision mask_op.
Proof. solve_decision. Defined.

(** ** State *)

Record SelectReactorHandleSet := mkSets {
  rdMask : HandleSet;
  wrMask : HandleSet;
  exMask : HandleSet
}.

(** The members of [SelectReactor] and of its handler repository, without the
    timer queue.  [eventHandlers] maps handles to pointers, 0 is null. *)
Record Tables := mkTables {
  dispatchSet : SelectReactorHandleSet;
  waitSet : SelectReactorHandleSet;
  eventHandlers : gmap Z Z;
  m_maxHandleP1 : Z;
  stateChanged : bool
}.

Record SelectReactor := mkReactor {
  sr_tables : Tables;
  timerQueue : TimerHeap
}.

Definition with_dispatch (d : SelectReactorHandleSet) (t : Tables) : Tables :=
  mkTables d (waitSet t) (eventHandlers t) (m_maxHandleP1 t) (stateChanged t).
Definition with_wait (s : SelectReactorHandleSet) (t : Tables) : Tables :=
  mkTables (dispatchSet t) s (eventHandlers t) (m_maxHandleP1 t) (stateChanged t).
Definition with_handlers (m : gmap Z Z) (t : Tables) : Tables :=
  mkTables (dispatchSet t) (waitSet t) m (m_maxHandleP1 t) (stateChanged t).
Definition with_maxHandleP1 (m : Z) (t : Tables) : Tables :=
  mkTables (dispatchSet t) (waitSet t) (eventHandlers t) m (stateChanged t).
Definition with_changed (b : bool) (t : Tables) : Tables :=
  mkTables (dispatchSet t) (waitSet t) (eventHandlers t) (m_maxHandleP1 t) b.

(** The set of a callback. *)
Definition set_of (cb : callback) (s : SelectReactorHandleSet) : HandleSet :=
  match cb with handleOutput_ => wrMask s | handleException_ => exMask s | handleInput_ => rdMask s end.

Definition update_set (cb : callback) (hs : HandleSet) (s : SelectReactorHandleSet) : SelectReactorHandleSet :=
  match cb with
  | handleOutput_ => mkSets (rdMask s) hs (exMask s)
  | handleException_ => mkSets (rdMask s) (wrMask s) hs
  | handleInput_ => mkSets hs (wrMask s) (exMask s)
  end.

(** ** What the reactor calls *)

(** The handlers: [W] is the state of the application.  [getHandle] faults on
    a pointer that is not a live handler. *)
Class ReactorHandlers (W : Type) := {
  getHandle : Z → W → result Z;
  on_event : callback → Z → Z → W → SelectReactor → result (Z * W * SelectReactor);
  on_close_event : Z → Z → Z → W → SelectReactor → result (W * SelectReactor);
  on_timer : Z → TimeValue → Z → W → SelectReactor → result (Z * W * SelectReactor);
  on_close_timer : Z → W → SelectReactor → result (W * SelectReactor)
}.

(** The timer queue calls the same handlers: their state is that of the
    application and the tables. *)
#[export] Instance timer_handlers {W} {rh : ReactorHandlers W} : EventHandlers (W * Tables) := {|
  handleTimeout eh t act wt h :=
    '(r, w, sr) ← on_timer eh t act wt.1 (mkReactor wt.2 h);
    Ok (r, (w, sr_tables sr), timerQueue sr);
  handleClose eh wt h :=
    '(w, sr) ← on_close_timer eh wt.1 (mkReactor wt.2 h);
    Ok ((w, sr_tables sr), timerQueue sr)
|}.

(** What [select] returns: a count and the sets it has overwritten, or an error. *)
Inductive select_result :=
  | Ready (n : Z) (rd wr ex : list Z)
  | SelectError (errno : Z).

Definition EINTR : Z := 4.
Definition EBADF : Z := 9.

Class Kernel (W : Type) := {
  gettimeofday : W → TimeValue * W;
  select : Z → option (list Z) → option (list Z) → option (list Z) → option TimeValue → W → select_result * W
}.

Section operations.
Context {pf : Platform} {W : Type} {rh : ReactorHandlers W} {kn : Kernel W}.

(** The timer queue reads the clock only when it has a timer. *)
Definition queue_clock (h : TimerHeap) (w : W) : TimeValue * W :=
  if isEmpty h then (zero, w) else gettimeofday w.

(** ** Tables of handlers *)

Definition find (handle : Z) (t : Tables) : option Z := eventHandlers t !! handle.

Definition maxHandleP1 (t : Tables) : Z := m_maxHandleP1 t.

(** Clear one handle in one set of the dispatch sets. *)
Definition clear_dispatch (cb : callback) (handle : Z) (t : Tables) : result Tables :=
  hs ← clrBit handle (set_of cb (dispatchSet t));
  Ok (with_dispatch (update_set cb hs (dispatchSet t)) t).

Definition clearDispatchMask (handle mask : Z) (t : Tables) : result Tables :=
  t ← (if BIT_ENABLED mask READ_MASK || BIT_ENABLED mask ACCEPT_MASK
       then clear_dispatch handleInput_ handle t else Ok t);
  t ← (if BIT_ENABLED mask WRITE_MASK then clear_dispatch handleOutput_ handle t else Ok t);
  t ← (if BIT_ENABLED mask EXCEPT_MASK then clear_dispatch handleException_ handle t else Ok t);
  Ok (with_changed true t).

(** The member function [ptmf] points to. *)
Definition ptmf (ops : mask_op) : Z → HandleSet → result HandleSet :=
  match ops with CLR_MASK => clrBit | _ => setBit end.

(** One of the three statements of [bitOps]: [enabled] is its condition. *)
Definition bit_op (cb : callback) (enabled : bool) (ops : mask_op) (handle : Z) (t : Tables) : result Tables :=
  let hs := set_of cb (waitSet t) in
  hs ← (if enabled then ptmf ops handle hs
        else if decide (ops = SET_MASK) then clrBit handle hs else Ok hs);
  Ok (with_wait (update_set cb hs (waitSet t)) t).

(** [bitOps] on the wait sets, the only ones it is called with.  The case
    [CLR_MASK] falls through to the next. *)
Definition bitOps (handle mask : Z) (ops : mask_op) (t : Tables) : result (Z * Tables) :=
  r ← isSet handle (rdMask (waitSet t));
  w ← isSet handle (wrMask (waitSet t));
  e ← isSet handle (exMask (waitSet t));
  let omask := Z.lor (if (r : bool) then READ_MASK else 0)
                 (Z.lor (if (w : bool) then WRITE_MASK else 0) (if (e : bool) then EXCEPT_MASK else 0)) in
  if decide (ops = GET_MASK) then Ok (omask, t) else
  t ← (if decide (ops = CLR_MASK) then clearDispatchMask handle mask t else Ok t);
  t ← bit_op handleInput_ (BIT_ENABLED mask READ_MASK || BIT_ENABLED mask ACCEPT_MASK || BIT_ENABLED mask CONNECT_MASK) ops handle t;
  t ← bit_op handleOutput_ (BIT_ENABLED mask WRITE_MASK || BIT_ENABLED mask CONNECT_MASK) ops handle t;
  t ← bit_op handleException_ (BIT_ENABLED mask EXCEPT_MASK) ops handle t;
  Ok (omask, t).

(** [std::map::insert] keeps an entry that is there. *)
Definition map_insert (k v : Z) (m : gmap Z Z) : gmap Z Z :=
  match m !! k with Some _ => m | None => <[k := v]> m end.

Definition bind (handle eventHandler mask : Z) (w : W) (t : Tables) : result (Z * Tables) :=
  if eventHandler =? 0 then Ok (-1, t) else
  handle ← (if handle =? ACE_INVALID_HANDLE then getHandle eventHandler w else Ok handle);
  let t := with_handlers (map_insert handle eventHandler (eventHandlers t)) t in
  let t := if m_maxHandleP1 t <? handle + 1 then with_maxHandleP1 (handle + 1) t else t in
  '(_, t) ← bitOps handle mask ADD_MASK t;
  Ok (0, t).

(** [unbind] up to the call of [handleClose]: the handler to close, if any. *)
Definition unbind_tables (handle mask : Z) (t : Tables) : result (option Z * Tables) :=
  match eventHandlers t !! handle with
  | None => Ok (None, t)
  | Some eventHandler =>
      '(_, t) ← bitOps handle mask CLR_MASK t;
      r ← isSet handle (rdMask (waitSet t));
      any ← (if (r : bool) then Ok true else
             w ← isSet handle (wrMask (waitSet t));
             if (w : bool) then Ok true else isSet handle (exMask (waitSet t)));
      let t := if negb any && negb (eventHandler =? 0)
               then with_handlers (delete handle (eventHandlers t)) t else t in
      Ok (Some eventHandler, t)
  end.

Definition unbind (handle mask : Z) (w : W) (sr : SelectReactor) : result (Z * W * SelectReactor) :=
  '(eh, t) ← unbind_tables handle mask (sr_tables sr);
  let sr := mkReactor t (timerQueue sr) in
  match eh with
  | None => Ok (-1, w, sr)
  | Some eventHandler =>
      if eventHandler =? 0 then Ok (-1, w, sr)
      else if negb (BIT_ENABLED mask DONT_CALL) then
        '(w, sr) ← on_close_event eventHandler handle mask w sr;
        Ok (0, w, sr)
      else Ok (0, w, sr)
  end.

(** ** The public operations *)

Definition SelectReactor_new (size : nat) : SelectReactor :=
  let s := mkSets HandleSet_new HandleSet_new HandleSet_new in
  mkReactor (mkTables s s ∅ 0 false) (TimerHeap_new size).

Definition registerHandlerInternal (handle eventHandler mask : Z) (w : W) (sr : SelectReactor) : result (Z * SelectReactor) :=
  '(r, t) ← bind handle eventHandler mask w (sr_tables sr);
  Ok (r, mkReactor t (timerQueue sr)).

Definition registerHandler (eventHandler mask : Z) (w : W) (sr : SelectReactor) : result (Z * SelectReactor) :=
  handle ← getHandle eventHandler w;
  registerHandlerInternal handle eventHandler mask w sr.

Definition removeHandlerInternal (handle mask : Z) (w : W) (sr : SelectReactor) : result (Z * W * SelectReactor) :=
  unbind handle mask w sr.

Definition removeHandler (eventHandler mask : Z) (w : W) (sr : SelectReactor) : result (Z * W * SelectReactor) :=
  handle ← getHandle eventHandler w;
  removeHandlerInternal handle mask w sr.

Definition scheduleTimer (eventHandler arg : Z) (delay interval : TimeValue) (w : W) (sr : SelectReactor)
  : result (Z * W * SelectReactor) :=
  let '(now, w) := gettimeofday w in
  '(id, h) ← schedule eventHandler arg (tv_add now delay) interval (timerQueue sr);
  Ok (id, w, mkReactor (sr_tables sr) h).

Definition resetTimerInterval (timerId : Z) (interval : TimeValue) (sr : SelectReactor) : result (Z * SelectReactor) :=
  '(r, h) ← resetInterval timerId interval (timerQueue sr);
  Ok (r, mkReactor (sr_tables sr) h).

Definition cancelTimer_id (timerId dontCallHandleClose : Z) (w : W) (sr : SelectReactor)
  : result (Z * option Z * W * SelectReactor) :=
  '(r, act, (w, t), h) ← cancel_id timerId dontCallHandleClose (w, sr_tables sr) (timerQueue sr);
  Ok (r, act, w, mkReactor t h).

Definition cancelTimer_handler (handler dontCallHandleClose : Z) (w : W) (sr : SelectReactor)
  : result (Z * W * SelectReactor) :=
  '(r, (w, t), h) ← cancel_type handler dontCallHandleClose (w, sr_tables sr) (timerQueue sr);
  Ok (r, w, mkReactor t h).

(** ** Waiting *)

(** A set after [select]: only the bits change, and those of a null pointer do not. *)
Definition overwrite (hs : HandleSet) (mask : list Z) : HandleSet :=
  match fdset hs with
  | Some _ => mkHandleSet (m_size hs) mask (m_maxHandle hs)
  | None => hs
  end.

(** The loop around [select]: it repeats on every error but [EINTR]. *)
Fixpoint select_loop (fuel : nat) (maxWaitTime : option TimeValue) (w : W) (sr : SelectReactor)
  : result (Z * W * SelectReactor) :=
  let '(now, w) := queue_clock (timerQueue sr) w in
  thisTimeout ← calculateTimeout2 maxWaitTime true now (timerQueue sr);
  let d := waitSet (sr_tables sr) in
  let '(res, w) := select (maxHandleP1 (sr_tables sr)) (fdset (rdMask d)) (fdset (wrMask d)) (fdset (exMask d))
                     thisTimeout w in
  match res with
  | Ready n rd wr ex =>
      let d := mkSets (overwrite (rdMask d) rd) (overwrite (wrMask d) wr) (overwrite (exMask d) ex) in
      Ok (n, w, mkReactor (with_dispatch d (sr_tables sr)) (timerQueue sr))
  | SelectError errno =>
      let sr := mkReactor (with_dispatch d (sr_tables sr)) (timerQueue sr) in
      if errno =? EINTR then Ok (-1, w, sr)
      else match fuel with
      | O => Fault OutOfFuel
      | S fuel => select_loop fuel maxWaitTime w sr
      end
  end.

Definition sync_sets (max : Z) (d : SelectReactorHandleSet) : result SelectReactorHandleSet :=
  rd ← sync max (rdMask d);
  wr ← sync max (wrMask d);
  ex ← sync max (exMask d);
  Ok (mkSets rd wr ex).

Definition waitForMultipleEvents (fuel : nat) (maxWaitTime : option TimeValue) (w : W) (sr : SelectReactor)
  : result (Z * W * SelectReactor) :=
  '(n, w, sr) ← select_loop fuel maxWaitTime w sr;
  let t := sr_tables sr in
  if 0 <? n then
    d ← sync_sets (maxHandleP1 t) (dispatchSet t);
    Ok (n, w, mkReactor (with_dispatch d t) (timerQueue sr))
  else if n =? -1 then
    Ok (n, w, mkReactor (with_dispatch (mkSets hs_reset hs_reset hs_reset) t) (timerQueue sr))
  else Ok (n, w, sr).

(** ** Dispatching *)

Definition notifyHandle (handle mask : Z) (eventHandler : option Z) (cb : callback) (w : W) (sr : SelectReactor)
  : result (W * SelectReactor) :=
  match eventHandler with
  | None => Ok (w, sr)
  | Some eh =>
      if eh =? 0 then Ok (w, sr) else
      '(status, w, sr) ← on_event cb eh handle w sr;
      if status <? 0 then
        '(_, w, sr) ← removeHandlerInternal handle mask w sr; Ok (w, sr)
      else Ok (w, sr)
  end.

(** The loop of [dispatchIoSet]; the iterator reads the set as it now is. *)
Fixpoint dispatch_set_loop (fuel : nat) (numActive numDispatched mask : Z) (cb : callback) (it : HandleSetIterator)
    (w : W) (sr : SelectReactor) : result (Z * W * SelectReactor) :=
  '(handle, it) ← iterator_next (set_of cb (dispatchSet (sr_tables sr))) it;
  if negb (handle =? ACE_INVALID_HANDLE) && (numDispatched <? numActive) then
    match fuel with
    | O => Fault OutOfFuel
    | S fuel =>
        '(w, sr) ← notifyHandle handle mask (find handle (sr_tables sr)) cb w sr;
        t ← clearDispatchMask handle mask (sr_tables sr);
        dispatch_set_loop fuel numActive (numDispatched + 1) mask cb it w (mkReactor t (timerQueue sr))
    end
  else Ok (numDispatched, w, sr).

Definition dispatchIoSet (numActive numDispatched mask : Z) (cb : callback) (w : W) (sr : SelectReactor)
  : result (Z * W * SelectReactor) :=
  it ← HandleSetIterator_new (set_of cb (dispatchSet (sr_tables sr)));
  dispatch_set_loop (Z.to_nat MAXSIZE) numActive numDispatched mask cb it w sr.

(** The counts of active and of dispatched handles after the three sets; no
    call of [dispatchIoSet] returns -1. *)
Definition dispatchIoHandlers (numActive numDispatched : Z) (w : W) (sr : SelectReactor)
  : result (Z * Z * W * SelectReactor) :=
  '(numDispatched, w, sr) ← dispatchIoSet numActive numDispatched WRITE_MASK handleOutput_ w sr;
  '(numDispatched, w, sr) ← dispatchIoSet numActive numDispatched EXCEPT_MASK handleException_ w sr;
  '(numDispatched, w, sr) ← dispatchIoSet numActive numDispatched READ_MASK handleInput_ w sr;
  Ok (numActive - numDispatched, numDispatched, w, sr).

Definition dispatchTimerHandler (fuel : nat) (numDispatched : Z) (w : W) (sr : SelectReactor)
  : result (Z * W * SelectReactor) :=
  let '(now, w) := queue_clock (timerQueue sr) w in
  '(n, (w, t), h) ← expire fuel now (w, sr_tables sr) (timerQueue sr);
  Ok (numDispatched + n, w, mkReactor t h).

(** The loop of [dispatch]; [fuel] bounds its turns, [tfuel] those of [expire]. *)
Fixpoint dispatch (fuel tfuel : nat) (active io other : Z) (w : W) (sr : SelectReactor)
  : result (Z * W * SelectReactor) :=
  let sr := mkReactor (with_changed false (sr_tables sr)) (timerQueue sr) in
  if active =? -1 then Ok (-1, w, sr) else
  '(other, w, sr) ← dispatchTimerHandler tfuel other w sr;
  if active =? 0 then Ok (io + other, w, sr) else
  '(active, io, w, sr) ← dispatchIoHandlers active io w sr;
  if 0 <? active then
    match fuel with O => Fault OutOfFuel | S fuel => dispatch fuel tfuel active io other w sr end
  else Ok (io + other, w, sr).

Definition handleEvents (sfuel fuel tfuel : nat) (maxWaitTime : option TimeValue) (w : W) (sr : SelectReactor)
  : result (Z * W * SelectReactor) :=
  let sr := mkReactor (with_dispatch (mkSets hs_reset hs_reset hs_reset) (sr_tables sr)) (timerQueue sr) in
  '(n, w, sr) ← waitForMultipleEvents sfuel maxWaitTime w sr;
  dispatch fuel tfuel n 0 0 w sr.

End operations.

(** ** The masks of the tables *)

Section masks.
Context {pf : Platform} {W : Type} {rh : ReactorHandlers W}.

(** A handler is registered for an event, an event is waiting for dispatch. *)
Definition wants (t : Tables) (cb : callback) (h : Z) : bool := bit (m_mask (set_of cb (waitSet t))) h.
Definition ready (t : Tables) (cb : callback) (h : Z) : bool := bit (m_mask (set_of cb (dispatchSet t))) h.

Definition sets_ok (s : SelectReactorHandleSet) : Prop := ∀ cb, hs_ok (set_of cb s).

(** After a time-out the dispatch sets are empty, but count and maximum are
    still those of the wait sets. *)
Definition usable (hs : HandleSet) : Prop :=
  hs_ok hs ∨ mask_ok (m_mask hs) ∧ ∀ x, bit (m_mask hs) x = false.

Definition sets_usable (s : SelectReactorHandleSet) : Prop := ∀ cb, usable (set_of cb s).

Lemma clrBit_usable h hs :
  usable hs → 0 ≤ h < MAXSIZE →
  ∃ hs', clrBit h hs = Ok hs' ∧ usable hs' ∧ (hs_ok hs → hs_ok hs') ∧
    ∀ x, bit (m_mask hs') x = bit (m_mask hs) x && negb (x =? h).
Proof.
  intros [Hok|[Hm Hz]] Hh.
  - destruct (clrBit_ok h hs Hok Hh) as (hs' & -> & Hok' & Hb). exists hs'. split_and!; [done|by left|done|done].
  - exists hs. unfold clrBit, isSet. rewrite FD_ISSET_ok, Hz by done. cbn.
    split_and!; [by case_match|by right|done|]. intros x. by rewrite Hz.
Qed.

(** The events a mask registers for, and those it clears in the dispatch sets. *)
Definition enables (mask : Z) (cb : callback) : bool :=
  match cb with
  | handleInput_ => BIT_ENABLED mask READ_MASK || BIT_ENABLED mask ACCEPT_MASK || BIT_ENABLED mask CONNECT_MASK
  | handleOutput_ => BIT_ENABLED mask WRITE_MASK || BIT_ENABLED mask CONNECT_MASK
  | handleException_ => BIT_ENABLED mask EXCEPT_MASK
  end.

Definition undispatches (mask : Z) (cb : callback) : bool :=
  match cb with
  | handleInput_ => BIT_ENABLED mask READ_MASK || BIT_ENABLED mask ACCEPT_MASK
  | handleOutput_ => BIT_ENABLED mask WRITE_MASK
  | handleException_ => BIT_ENABLED mask EXCEPT_MASK
  end.

Lemma set_of_update cb cb' hs s :
  set_of cb (update_set cb' hs s) = if decide (cb = cb') then hs else set_of cb s.
Proof. by destruct cb, cb'. Qed.

(** [t'] is [t] but for one of its handle sets. *)
Lemma clear_dispatch_ok cb h t :
  sets_usable (dispatchSet t) → 0 ≤ h < MAXSIZE →
  ∃ d, clear_dispatch cb h t = Ok (with_dispatch d t) ∧ sets_usable d ∧ (sets_ok (dispatchSet t) → sets_ok d) ∧
    ∀ cb' x, ready (with_dispatch d t) cb' x = ready t cb' x && negb (bool_decide (cb' = cb) && (x =? h)).
Proof.
  intros Hok Hh. unfold clear_dispatch.
  destruct (clrBit_usable h (set_of cb (dispatchSet t))) as (hs & -> & Hhs & Hhs' & Hb); [done..|]. cbn.
  eexists. split_and!; [done|..].
  - intros cb'. rewrite set_of_update. by case_decide.
  - intros Hs cb'. rewrite set_of_update. case_decide; [by apply Hhs'|apply Hs].
  - intros cb' x. unfold ready. cbn [dispatchSet with_dispatch]. rewrite set_of_update. case_decide as E.
    + subst. by rewrite Hb, bool_decide_eq_true_2.
    + rewrite bool_decide_eq_false_2 by done. by rewrite andb_true_r.
Qed.

Lemma clear_dispatch_if (b : bool) cb h t :
  sets_usable (dispatchSet t) → 0 ≤ h < MAXSIZE →
  ∃ d, (if b then clear_dispatch cb h t else Ok t) = Ok (with_dispatch d t) ∧ sets_usable d ∧ (sets_ok (dispatchSet t) → sets_ok d) ∧
    ∀ cb' x, ready (with_dispatch d t) cb' x = ready t cb' x && negb (b && bool_decide (cb' = cb) && (x =? h)).
Proof.
  intros Hok Hh. destruct b; [by apply clear_dispatch_ok|]. exists (dispatchSet t).
  split_and!; [by destruct t|done|done|]. intros. cbn [andb negb]. rewrite andb_true_r. by destruct t.
Qed.

Lemma clearDispatchMask_ok h mask t :
  sets_usable (dispatchSet t) → 0 ≤ h < MAXSIZE →
  ∃ d, clearDispatchMask h mask t = Ok (with_changed true (with_dispatch d t)) ∧ sets_usable d ∧ (sets_ok (dispatchSet t) → sets_ok d) ∧
    ∀ cb x, ready (with_dispatch d t) cb x = ready t cb x && negb (undispatches mask cb && (x =? h)).
Proof.
  intros Hok Hh. unfold clearDispatchMask.
  destruct (clear_dispatch_if (BIT_ENABLED mask READ_MASK || BIT_ENABLED mask ACCEPT_MASK) handleInput_ h t)
    as (d1 & -> & Hd1 & Hs1 & Hr1); [done..|]. rewrite bind_Ok.
  destruct (clear_dispatch_if (BIT_ENABLED mask WRITE_MASK) handleOutput_ h (with_dispatch d1 t))
    as (d2 & -> & Hd2 & Hs2 & Hr2); [done..|]. rewrite bind_Ok.
  destruct (clear_dispatch_if (BIT_ENABLED mask EXCEPT_MASK) handleException_ h (with_dispatch d2 (with_dispatch d1 t)))
    as (d3 & -> & Hd3 & Hs3 & Hr3); [done..|]. rewrite bind_Ok.
  exists d3. split_and!; [done|done|by intros; apply Hs3, Hs2, Hs1|]. intros cb x.
  change (ready (with_dispatch d3 t) cb x) with (ready (with_dispatch d3 (with_dispatch d2 (with_dispatch d1 t))) cb x).
  rewrite Hr3, Hr2, Hr1. destruct cb; cbn [undispatches]; repeat (rewrite bool_decide_eq_true_2 by done || rewrite bool_decide_eq_false_2 by done);
    rewrite ?andb_false_r, ?andb_true_r; cbn [negb andb]; by rewrite ?andb_true_r.
Qed.

(** One statement of [bitOps]. *)
Lemma bit_op_ok cb (enabled : bool) ops h t :
  sets_ok (waitSet t) → 0 ≤ h < MAXSIZE → ops = ADD_MASK ∨ ops = CLR_MASK →
  ∃ s, bit_op cb enabled ops h t = Ok (with_wait s t) ∧ sets_ok s ∧
    ∀ cb' x, wants (with_wait s t) cb' x =
      if decide (ops = ADD_MASK) then wants t cb' x || (enabled && bool_decide (cb' = cb) && (x =? h))
      else wants t cb' x && negb (enabled && bool_decide (cb' = cb) && (x =? h)).
Proof.
  intros Hok Hh Hops. unfold bit_op.
  assert (∃ hs, (if enabled then ptmf ops h (set_of cb (waitSet t))
                 else if decide (ops = SET_MASK) then clrBit h (set_of cb (waitSet t)) else Ok (set_of cb (waitSet t))) = Ok hs ∧
     hs_ok hs ∧ ∀ x, bit (m_mask hs) x =
       if decide (ops = ADD_MASK) then bit (m_mask (set_of cb (waitSet t))) x || (enabled && (x =? h))
       else bit (m_mask (set_of cb (waitSet t))) x && negb (enabled && (x =? h))) as (hs & -> & Hhs & Hb).
  { destruct enabled; cbn [andb negb].
    - destruct Hops as [-> | ->]; [apply setBit_ok|apply clrBit_ok]; done.
    - rewrite decide_False by (by destruct Hops as [-> | ->]). eexists. split_and!; [done|done|].
      intros x. rewrite orb_false_r, andb_true_r. by case_decide. }
  cbn. eexists. split_and!; [done|..].
  - intros cb'. rewrite set_of_update. by destruct (decide (cb' = cb)).
  - intros cb' x. unfold wants. cbn [waitSet with_wait]. rewrite set_of_update.
    destruct (decide (cb' = cb)) as [->|].
    + rewrite bool_decide_eq_true_2 by done. by rewrite Hb, andb_true_r.
    + rewrite bool_decide_eq_false_2 by done. rewrite andb_false_r. cbn. rewrite orb_false_r, andb_true_r. by case_decide.
Qed.

(** The three of them. *)
Lemma bit_ops_ok mask ops h t (om : Z) :
  sets_ok (waitSet t) → 0 ≤ h < MAXSIZE → ops = ADD_MASK ∨ ops = CLR_MASK →
  ∃ s, (t ← bit_op handleInput_ (enables mask handleInput_) ops h t;
        t ← bit_op handleOutput_ (enables mask handleOutput_) ops h t;
        t ← bit_op handleException_ (enables mask handleException_) ops h t;
        Ok (om, t)) = Ok (om, with_wait s t) ∧ sets_ok s ∧
    ∀ cb x, wants (with_wait s t) cb x =
      if decide (ops = ADD_MASK) then wants t cb x || (enables mask cb && (x =? h))
      else wants t cb x && negb (enables mask cb && (x =? h)).
Proof.
  intros Hok Hh Hops.
  destruct (bit_op_ok handleInput_ (enables mask handleInput_) ops h t) as (s1 & -> & Hs1 & Hw1); [done..|]. rewrite bind_Ok.
  destruct (bit_op_ok handleOutput_ (enables mask handleOutput_) ops h (with_wait s1 t)) as (s2 & -> & Hs2 & Hw2); [done..|].
  rewrite bind_Ok.
  destruct (bit_op_ok handleException_ (enables mask handleException_) ops h (with_wait s2 (with_wait s1 t)))
    as (s3 & -> & Hs3 & Hw3); [done..|]. rewrite bind_Ok.
  exists s3. split_and!; [done..|]. intros cb x.
  change (wants (with_wait s3 t) cb x) with (wants (with_wait s3 (with_wait s2 (with_wait s1 t))) cb x).
  rewrite Hw3, Hw2, Hw1.
  destruct cb; repeat (rewrite bool_decide_eq_true_2 by done || rewrite bool_decide_eq_false_2 by done);
    rewrite ?andb_false_r, ?andb_true_r; cbn [negb andb]; case_decide; by rewrite ?andb_true_r, ?orb_false_r.
Qed.

(** The previous masks of a handle. *)
Definition masks_of (t : Tables) (h : Z) : Z :=
  Z.lor (if wants t handleInput_ h then READ_MASK else 0)
    (Z.lor (if wants t handleOutput_ h then WRITE_MASK else 0) (if wants t handleException_ h then EXCEPT_MASK else 0)).

Lemma isSet_wants t cb h : sets_ok (waitSet t) → 0 ≤ h < MAXSIZE → isSet h (set_of cb (waitSet t)) = Ok (wants t cb h).
Proof. intros Hok Hh. by apply isSet_ok. Qed.

Lemma isSets_wants t h :
  sets_ok (waitSet t) → 0 ≤ h < MAXSIZE →
  isSet h (rdMask (waitSet t)) = Ok (wants t handleInput_ h) ∧
  isSet h (wrMask (waitSet t)) = Ok (wants t handleOutput_ h) ∧
  isSet h (exMask (waitSet t)) = Ok (wants t handleException_ h).
Proof.
  intros Hok Hh. split_and!;
    [apply (isSet_wants t handleInput_)|apply (isSet_wants t handleOutput_)|apply (isSet_wants t handleException_)]; done.
Qed.

Lemma bitOps_add h mask t :
  sets_ok (waitSet t) → 0 ≤ h < MAXSIZE →
  ∃ s, bitOps h mask ADD_MASK t = Ok (masks_of t h, with_wait s t) ∧ sets_ok s ∧
    ∀ cb x, wants (with_wait s t) cb x = wants t cb x || (enables mask cb && (x =? h)).
Proof.
  intros Hok Hh. unfold bitOps. destruct (isSets_wants t h) as (-> & -> & ->); [done..|]. rewrite !bind_Ok.
  rewrite !decide_False by done. rewrite bind_Ok.
  destruct (bit_ops_ok mask ADD_MASK h t (masks_of t h)) as (s & Hs & Hsok & Hw); [done|done|by left|].
  exists s. split_and!; [|done|].
  - exact Hs.
  - intros cb x. rewrite Hw. by rewrite decide_True.
Qed.

Lemma bitOps_clr h mask t :
  sets_ok (waitSet t) → sets_usable (dispatchSet t) → 0 ≤ h < MAXSIZE →
  ∃ s d, bitOps h mask CLR_MASK t = Ok (masks_of t h, with_wait s (with_changed true (with_dispatch d t))) ∧
    sets_ok s ∧ sets_usable d ∧ (sets_ok (dispatchSet t) → sets_ok d) ∧
    (∀ cb x, wants (with_wait s t) cb x = wants t cb x && negb (enables mask cb && (x =? h))) ∧
    (∀ cb x, ready (with_dispatch d t) cb x = ready t cb x && negb (undispatches mask cb && (x =? h))).
Proof.
  intros Hok Hdok Hh. unfold bitOps. destruct (isSets_wants t h) as (-> & -> & ->); [done..|]. rewrite !bind_Ok.
  rewrite decide_False, decide_True by done.
  destruct (clearDispatchMask_ok h mask t) as (d & -> & Hd & Hds & Hr); [done..|]. rewrite bind_Ok.
  destruct (bit_ops_ok mask CLR_MASK h (with_changed true (with_dispatch d t)) (masks_of t h)) as (s & Hs & Hsok & Hw); [done|done|by right|].
  exists s, d. split_and!; [|done|done|done|intros cb x; specialize (Hw cb x); by rewrite decide_False in Hw|done].
  exact Hs.
Qed.

(** ** The invariant *)

(** The handle sets are consistent; who waits for an event has a handler; the
    handles in use are below [m_maxHandleP1]. *)
Record tables_ok (t : Tables) : Prop := {
  to_wait : sets_ok (waitSet t);
  to_dispatch : sets_usable (dispatchSet t);
  to_bound : ∀ cb h, wants t cb h = true → is_Some (eventHandlers t !! h);
  to_handlers : map_Forall (λ h eh, 0 ≤ h < m_maxHandleP1 t ∧ eh ≠ 0) (eventHandlers t);
  to_limit : 0 ≤ m_maxHandleP1 t ≤ MAXSIZE
}.

(** During dispatch the dispatch sets are consistent, and what is ready is waited for. *)
Record dispatching (t : Tables) : Prop := {
  di_sets : sets_ok (dispatchSet t);
  di_ready : ∀ cb h, ready t cb h = true → wants t cb h = true
}.

Lemma wants_range t cb h : tables_ok t → wants t cb h = true → 0 ≤ h < m_maxHandleP1 t.
Proof. intros Hok Hw. destruct (to_bound t Hok cb h Hw) as [eh He]. by apply (to_handlers t Hok) in He as [? _]. Qed.

Lemma bound_handler t cb h : tables_ok t → wants t cb h = true → ∃ eh, eventHandlers t !! h = Some eh ∧ eh ≠ 0.
Proof. intros Hok Hw. destruct (to_bound t Hok cb h Hw) as [eh He]. exists eh. split; [done|]. by apply (to_handlers t Hok) in He as [_ ?]. Qed.

Lemma new_tables_ok size : tables_ok (sr_tables (SelectReactor_new size)).
Proof.
  destruct reset_ok as [Hr _]. split; cbn.
  - by intros [].
  - left. by destruct cb.
  - intros [] h; unfold wants; cbn; by rewrite bit_zero.
  - apply map_Forall_empty.
  - unfold MAXSIZE. lia.
Qed.

(** Registration: the handler is entered when the handle is new; the masks are added. *)
Lemma bind_ok h eh mask w t :
  tables_ok t → eh ≠ 0 → 0 ≤ h < MAXSIZE →
  ∃ t', bind h eh mask w t = Ok (0, t') ∧ tables_ok t' ∧
    eventHandlers t' = map_insert h eh (eventHandlers t) ∧ dispatchSet t' = dispatchSet t ∧
    m_maxHandleP1 t' = Z.max (m_maxHandleP1 t) (h + 1) ∧
    ∀ cb x, wants t' cb x = wants t cb x || (enables mask cb && (x =? h)).
Proof.
  intros Hok Heh Hh. unfold bind. rewrite (proj2 (Z.eqb_neq eh 0)) by done.
  rewrite (proj2 (Z.eqb_neq h ACE_INVALID_HANDLE)) by (unfold ACE_INVALID_HANDLE; lia). rewrite bind_Ok.
  cbn [m_maxHandleP1 with_handlers].
  set (t1 := if m_maxHandleP1 t <? h + 1 then _ else _).
  assert (waitSet t1 = waitSet t ∧ dispatchSet t1 = dispatchSet t ∧ eventHandlers t1 = map_insert h eh (eventHandlers t) ∧
          m_maxHandleP1 t1 = Z.max (m_maxHandleP1 t) (h + 1)) as (Ew & Ed & Eh & Em).
  { subst t1. destruct (_ <? _) eqn:E; b2p; cbn; split_and!; (done || lia). }
  destruct (bitOps_add h mask t1) as (s & -> & Hs & Hw); [by rewrite Ew; apply to_wait|done|]. rewrite bind_Ok.
  assert (∀ cb x, wants (with_wait s t1) cb x = wants t cb x || (enables mask cb && (x =? h))) as Hw'.
  { intros cb x. rewrite Hw. unfold wants. by rewrite Ew. }
  eexists. split_and!; [done| |done..]. split; cbn [waitSet dispatchSet eventHandlers m_maxHandleP1 with_wait];
    rewrite ?Ed, ?Eh, ?Em; [done|by apply to_dispatch|..].
  - intros cb x. rewrite Hw'. unfold map_insert. intros Hx. apply orb_true_iff in Hx as [Hx|Hx].
    + destruct (to_bound t Hok cb x Hx) as [e He]. destruct (eventHandlers t !! h) eqn:E; [by exists e|].
      rewrite lookup_insert_ne by congruence. by exists e.
    + b2p. subst x. destruct (eventHandlers t !! h) eqn:E; [by eexists|]. rewrite lookup_insert_eq. by eexists.
  - unfold map_insert. pose proof (to_handlers t Hok) as Hm.
    assert (map_Forall (λ x e, 0 ≤ x < Z.max (m_maxHandleP1 t) (h + 1) ∧ e ≠ 0) (eventHandlers t)) as Hm'.
    { eapply map_Forall_impl; [exact Hm|]. cbn. intros x e. lia. }
    destruct (eventHandlers t !! h) eqn:E; [done|]. apply map_Forall_insert_2; [|done]. lia.
  - pose proof (to_limit t Hok). lia.
Qed.

(** Removal: the masks are cleared, and the handler is forgotten with the last of them. *)
Lemma unbind_tables_ok h eh mask t :
  tables_ok t → eventHandlers t !! h = Some eh →
  ∃ t', unbind_tables h mask t = Ok (Some eh, t') ∧ tables_ok t' ∧ (sets_ok (dispatchSet t) → sets_ok (dispatchSet t')) ∧
    m_maxHandleP1 t' = m_maxHandleP1 t ∧
    (∀ cb x, wants t' cb x = wants t cb x && negb (enables mask cb && (x =? h))) ∧
    (∀ cb x, ready t' cb x = ready t cb x && negb (undispatches mask cb && (x =? h))) ∧
    eventHandlers t' =
      if wants t' handleInput_ h || wants t' handleOutput_ h || wants t' handleException_ h
      then eventHandlers t else delete h (eventHandlers t).
Proof.
  intros Hok Heh. destruct (to_handlers t Hok h eh Heh) as [Hr Hne].
  assert (0 ≤ h < MAXSIZE) as Hh by (pose proof (to_limit t Hok); lia).
  unfold unbind_tables. rewrite Heh.
  destruct (bitOps_clr h mask t) as (s & d & -> & Hs & Hd & Hds & Hw & Hrd); [by apply to_wait|by apply to_dispatch|done|].
  rewrite bind_Ok. set (t1 := with_wait s (with_changed true (with_dispatch d t))).
  destruct (isSets_wants t1 h) as (-> & -> & ->); [done..|]. rewrite !bind_Ok.
  assert (∀ cb x, wants t1 cb x = wants t cb x && negb (enables mask cb && (x =? h))) as Hw1 by done.
  rewrite (proj2 (Z.eqb_neq eh 0)) by done. cbn [negb].
  set (any := wants t1 handleInput_ h || wants t1 handleOutput_ h || wants t1 handleException_ h).
  assert ((if wants t1 handleInput_ h then Ok true
           else if wants t1 handleOutput_ h then Ok true else Ok (wants t1 handleException_ h)) = Ok any) as ->.
  { subst any. by destruct (wants t1 handleInput_ h), (wants t1 handleOutput_ h). }
  rewrite bind_Ok, andb_true_r. eexists. split; [done|].
  assert (∀ P : Tables → Prop, (∀ m, P (with_handlers m t1)) → P (if negb any then with_handlers (delete h (eventHandlers t1)) t1 else t1)) as Hcase.
  { intros P HP. destruct any; cbn; [|apply HP]. specialize (HP (eventHandlers t1)). by destruct t1. }
  split_and!; [|apply (Hcase (λ t', _ → sets_ok (dispatchSet t'))); done|apply Hcase; done|apply Hcase; intros m cb x; apply Hw1|apply Hcase; intros m cb x; apply Hrd|].
  - split.
    + by apply Hcase.
    + by apply Hcase.
    + intros cb x Hx. assert (wants t1 cb x = true) as Hx1 by (revert Hx; apply Hcase; done).
      assert (wants t cb x = true) as Hx0 by (rewrite Hw1 in Hx1; by b2p).
      destruct (to_bound t Hok cb x Hx0) as [e He]. destruct any eqn:Ea; cbn; [by exists e|].
      rewrite lookup_delete_ne; [by exists e|]. intros <-. subst any.
      apply orb_false_iff in Ea as [Ea ?]. apply orb_false_iff in Ea as [? ?]. destruct cb; congruence.
    + pose proof (to_handlers t Hok) as Hm. destruct any; cbn; [done|]. by apply map_Forall_delete.
    + apply (Hcase (λ t, 0 ≤ m_maxHandleP1 t ≤ MAXSIZE)). intros m. exact (to_limit t Hok).
  - destruct any eqn:Ea; cbn; change (wants (with_handlers _ t1)) with (wants t1); fold any; by rewrite Ea.
Qed.

End masks.

(** ** Handlers that leave the reactor alone *)

Record PassiveApp (W : Type) := mkApp {
  pa_handle : Z → W → Z;
  pa_event : callback → Z → Z → W → Z * W;
  pa_close : Z → Z → Z → W → W;
  pa_timers : PassiveHandlers W
}.
Arguments pa_handle {W} _ _ _.
Arguments pa_event {W} _ _ _ _ _.
Arguments pa_close {W} _ _ _ _ _.
Arguments pa_timers {W} _.

Definition passive_app {W} (p : PassiveApp W) : ReactorHandlers W := {|
  getHandle eh w := Ok (pa_handle p eh w);
  on_event cb eh h w sr := Ok ((pa_event p cb eh h w).1, (pa_event p cb eh h w).2, sr);
  on_close_event eh h mask w sr := Ok (pa_close p eh h mask w, sr);
  on_timer eh t act w sr := Ok ((on_timeout (pa_timers p) eh t act w).1, (on_timeout (pa_timers p) eh t act w).2, sr);
  on_close_timer eh w sr := Ok (on_close (pa_timers p) eh w, sr)
|}.

Section passive_dispatch.
Context {pf : Platform} {W : Type} {kn : Kernel W} (p : PassiveApp W).

Definition mask_of (cb : callback) : Z :=
  match cb with handleOutput_ => WRITE_MASK | handleException_ => EXCEPT_MASK | handleInput_ => READ_MASK end.

Lemma mask_of_enables cb cb' : enables (mask_of cb) cb' = bool_decide (cb' = cb).
Proof. by destruct cb, cb'. Qed.

Lemma mask_of_undispatches cb cb' : undispatches (mask_of cb) cb' = bool_decide (cb' = cb).
Proof. by destruct cb, cb'. Qed.

(** What the upcall of an event does to the application: the state after it,
    and the event again when the handler returned a negative code and was
    closed. *)
Definition run_event (m : gmap Z Z) (w : W) (ev : callback * Z) : W * list (callback * Z) :=
  let eh := default 0 (m !! ev.2) in
  let '(status, w) := pa_event p ev.1 eh ev.2 w in
  if status <? 0 then (pa_close p eh ev.2 (mask_of ev.1) w, [ev]) else (w, []).

Fixpoint run_events (m : gmap Z Z) (evs : list (callback * Z)) (w : W) : W * list (callback * Z) :=
  match evs with
  | [] => (w, [])
  | ev :: evs =>
      let '(w, failed) := run_event m w ev in
      let '(w, rest) := run_events m evs w in
      (w, failed ++ rest)
  end.

(** Nothing is waited for on a handle. *)
Definition idle (t : Tables) (h : Z) : bool :=
  negb (wants t handleInput_ h || wants t handleOutput_ h || wants t handleException_ h).

Lemma idle_spec t h : idle t h = true ↔ ∀ cb, wants t cb h = false.
Proof.
  unfold idle. rewrite negb_true_iff, !orb_false_iff. split; [intros [[? ?] ?] []; done|]. intros H. by rewrite !H.
Qed.

(** What the reactor does after the events [failed] were refused: it stops
    waiting for them, and forgets a handler that waits for nothing any more. *)
Record after (t : Tables) (failed : list (callback * Z)) (t' : Tables) : Prop := {
  af_wants : ∀ cb h, wants t' cb h = wants t cb h && bool_decide ((cb, h) ∉ failed);
  af_handlers : ∀ h, eventHandlers t' !! h =
    if bool_decide (h ∈ failed.*2) && idle t' h then None else eventHandlers t !! h;
  af_max : m_maxHandleP1 t' = m_maxHandleP1 t
}.

Lemma after_nil t t' :
  waitSet t' = waitSet t → eventHandlers t' = eventHandlers t → m_maxHandleP1 t' = m_maxHandleP1 t → after t [] t'.
Proof.
  intros Hw He Hm. split; [|intros h; by rewrite He|done].
  intros cb h. unfold wants. rewrite Hw, bool_decide_eq_true_2 by apply not_elem_of_nil. by rewrite andb_true_r.
Qed.

Lemma after_app t fl1 t1 fl2 t2 : after t fl1 t1 → after t1 fl2 t2 → after t (fl1 ++ fl2) t2.
Proof.
  intros [Hw1 Hh1 Hm1] [Hw2 Hh2 Hm2]. split; [| |congruence].
  - intros cb h. rewrite Hw2, Hw1, <- andb_assoc. f_equal. apply eq_true_iff_eq.
    rewrite andb_true_iff, !bool_decide_eq_true, elem_of_app. tauto.
  - intros h. rewrite Hh2, Hh1. destruct (decide (h ∈ fl2.*2)) as [H2|H2].
    + rewrite (bool_decide_eq_true_2 _ H2), (bool_decide_eq_true_2 (h ∈ (fl1 ++ fl2).*2))
        by (rewrite fmap_app; set_solver).
      cbn [andb]. destruct (idle t2 h) eqn:Hi; [done|].
      destruct (idle t1 h) eqn:Hi1; [|by rewrite andb_false_r]. exfalso.
      assert (idle t2 h = true); [|congruence]. apply idle_spec. intros cb.
      by rewrite Hw2, (proj1 (idle_spec t1 h) Hi1).
    + rewrite (bool_decide_eq_false_2 _ H2). cbn [andb].
      assert (bool_decide (h ∈ (fl1 ++ fl2).*2) = bool_decide (h ∈ fl1.*2)) as ->.
      { apply bool_decide_ext. rewrite fmap_app. set_solver. }
      assert (∀ cb, wants t2 cb h = wants t1 cb h) as Heq; [|unfold idle; by rewrite !Heq].
      intros cb. rewrite Hw2, bool_decide_eq_true_2, andb_true_r; [done|]. intros Hin. apply H2.
      apply list_elem_of_fmap. by exists (cb, h).
Qed.

(** A handler that still waits is the one that was registered. *)
Lemma after_handler t fl t' cb h :
  after t fl t' → wants t' cb h = true → eventHandlers t' !! h = eventHandlers t !! h.
Proof.
  intros [_ Hh _] Hw. rewrite Hh. destruct (idle t' h) eqn:Hi; [|by rewrite andb_false_r].
  by rewrite (proj1 (idle_spec t' h) Hi) in Hw.
Qed.

Lemma run_events_ext m m' evs w :
  (∀ cb h, (cb, h) ∈ evs → m !! h = m' !! h) → run_events m evs w = run_events m' evs w.
Proof.
  revert w. induction evs as [|[cb h] evs IH]; intros w H; [done|]. cbn [run_events].
  assert (run_event m w (cb, h) = run_event m' w (cb, h)) as ->.
  { unfold run_event. cbn. by rewrite (H cb h) by (by left). }
  destruct (run_event m' w (cb, h)) as [w1 f1]. rewrite IH; [done|].
  intros cb' h' Hin. apply (H cb' h'). by right.
Qed.

(** The tables after one refused event. *)
Lemma unbind_after cb h eh t :
  tables_ok t → eventHandlers t !! h = Some eh →
  ∃ t', unbind_tables h (mask_of cb) t = Ok (Some eh, t') ∧ tables_ok t' ∧
    (sets_ok (dispatchSet t) → sets_ok (dispatchSet t')) ∧ after t [(cb, h)] t' ∧
    ∀ cb' x, ready t' cb' x = ready t cb' x && negb (bool_decide (cb' = cb) && (x =? h)).
Proof.
  intros Hok Heh. destruct (unbind_tables_ok h eh (mask_of cb) t Hok Heh) as (t' & Ht' & Hok' & Hds & Hm & Hw & Hr & He).
  exists t'. split_and!; [done|done|done| |].
  - split; [| |done].
    + intros cb' x. rewrite Hw, mask_of_enables. f_equal. apply eq_true_iff_eq.
      rewrite negb_true_iff, andb_false_iff, bool_decide_eq_false, Z.eqb_neq, bool_decide_eq_true, list_elem_of_singleton.
      destruct (decide (cb' = cb)); destruct (decide (x = h)); naive_solver.
    + intros x. rewrite He. cbn [fmap list_fmap snd].
      set (b := wants t' handleInput_ h || wants t' handleOutput_ h || wants t' handleException_ h).
      destruct (decide (x = h)) as [->|].
      * rewrite (bool_decide_eq_true_2 (h ∈ [h])) by set_solver. unfold idle. fold b. destruct b; cbn; [done|by rewrite lookup_delete_eq].
      * rewrite (bool_decide_eq_false_2 (x ∈ [h])) by set_solver. cbn [andb].
        destruct b; [done|]. by rewrite lookup_delete_ne.
  - intros cb' x. by rewrite Hr, mask_of_undispatches.
Qed.

(** One handler is notified and its event struck off. *)
Lemma notify_ok cb h w t tq :
  tables_ok t → dispatching t → wants t cb h = true →
  ∃ t1 t2, notifyHandle (rh := passive_app p) h (mask_of cb) (find h t) cb w (mkReactor t tq) =
      Ok ((run_event (eventHandlers t) w (cb, h)).1, mkReactor t1 tq) ∧
    clearDispatchMask h (mask_of cb) t1 = Ok t2 ∧
    tables_ok t2 ∧ dispatching t2 ∧ after t (run_event (eventHandlers t) w (cb, h)).2 t2 ∧
    ∀ cb' x, ready t2 cb' x = ready t cb' x && negb (bool_decide (cb' = cb) && (x =? h)).
Proof.
  intros Hok Hd Hw. destruct (bound_handler t cb h Hok Hw) as (eh & Heh & Hne).
  assert (0 ≤ h < MAXSIZE) as Hh by (pose proof (wants_range t cb h Hok Hw); pose proof (to_limit t Hok); lia).
  unfold notifyHandle, find, run_event. cbn [snd fst]. rewrite Heh.
  change (default 0 (Some eh)) with eh.
  rewrite (proj2 (Z.eqb_neq eh 0)) by done. cbn [on_event passive_app]. rewrite bind_Ok.
  destruct (pa_event p cb eh h w) as [status w1]. cbn [fst snd].
  assert (∃ t1, (if status <? 0 then
      '(_, w, sr) ← removeHandlerInternal (rh := passive_app p) h (mask_of cb) w1 (mkReactor t tq); Ok (w, sr)
      else Ok (w1, mkReactor t tq)) =
      Ok ((if status <? 0 then (pa_close p eh h (mask_of cb) w1, [(cb, h)]) else (w1, [])).1, mkReactor t1 tq) ∧
      tables_ok t1 ∧ sets_ok (dispatchSet t1) ∧ after t (if status <? 0 then (pa_close p eh h (mask_of cb) w1, [(cb, h)]) else (w1, [])).2 t1 ∧
      ∀ cb' x, ready t1 cb' x && negb (bool_decide (cb' = cb) && (x =? h)) =
               ready t cb' x && negb (bool_decide (cb' = cb) && (x =? h))) as (t1 & -> & Hok1 & Hs1 & Haf & Hr1).
  { pose proof (di_sets t Hd) as Hs. destruct (status <? 0).
    - destruct (unbind_after cb h eh t Hok Heh) as (t1 & Hu & Hok1 & Hs1 & Haf & Hr).
      exists t1. unfold removeHandlerInternal, unbind. cbn [sr_tables timerQueue]. rewrite Hu, bind_Ok.
      rewrite (proj2 (Z.eqb_neq eh 0)) by done.
      replace (BIT_ENABLED (mask_of cb) DONT_CALL) with false by (by destruct cb). cbn.
      split_and!; [done|done|by apply Hs1|done|]. intros cb' x. rewrite Hr, <- andb_assoc. f_equal. apply andb_diag.
    - exists t. split_and!; [done|done|done|by apply after_nil|done]. }
  destruct (clearDispatchMask_ok h (mask_of cb) t1) as (d & Hc & Hdu & Hds & Hr); [by apply to_dispatch|done|].
  assert (∀ cb' x, ready (with_dispatch d t1) cb' x = ready t cb' x && negb (bool_decide (cb' = cb) && (x =? h))) as Hr'.
  { intros cb' x. by rewrite Hr, mask_of_undispatches, Hr1. }
  eexists t1, _. split_and!; [done|exact Hc|..].
  - destruct Hok1 as [Hwt _ Hbd Hhd Hlm]. by split.
  - split; [by apply Hds|]. intros cb' x Hx. change (ready (with_dispatch d t1) cb' x = true) in Hx. rewrite Hr' in Hx.
    apply andb_true_iff in Hx as [Hx Hnot]. apply (di_ready t Hd) in Hx.
    change (wants t1 cb' x = true). rewrite (af_wants _ _ _ Haf), Hx. apply bool_decide_eq_true_2.
    intros Hin. destruct (status <? 0); cbn in Hin; [|by apply not_elem_of_nil in Hin].
    apply list_elem_of_singleton in Hin as [= -> ->].
    by rewrite bool_decide_eq_true_2, Z.eqb_refl in Hnot.
  - destruct Haf as [H1 H2 H3]. by split.
  - done.
Qed.

(** The iterator stays valid when handles behind it are cleared. *)
Lemma iter_at_cleared hs hs' it :
  hs_ok hs → hs_ok hs' → iter_at hs it →
  (∀ x, bit (m_mask hs') x = true → bit (m_mask hs) x = true) →
  (∀ x, m_handleIndex it ≤ x → bit (m_mask hs') x = bit (m_mask hs) x) →
  iter_at hs' it.
Proof.
  intros Hok Hok' [[He H0]|(val & Hv & [Hb Hw Hvo Hvb])] Hsub Hsame.
  - left. split; [|done]. destruct (ok_max _ Hok') as [[->|Hm] _]; [unfold ACE_INVALID_HANDLE; lia|].
    apply Hsub in Hm. apply (proj2 (ok_max _ Hok)) in Hm. lia.
  - right. exists val. split; [done|]. split; [by rewrite Hsame by lia|done|done|].
    intros j Hj. rewrite Hvb by done. by rewrite Hsame by lia.
Qed.

(** The mask of a set as a total function. *)
Abbreviation dmask t cb := (m_mask (set_of cb (dispatchSet t))).

Lemma dispatch_set_loop_ok fuel cb it na nd w t tq :
  tables_ok t → dispatching t → iter_at (set_of cb (dispatchSet t)) it →
  0 ≤ m_handleIndex it ≤ MAXSIZE → MAXSIZE - m_handleIndex it ≤ Z.of_nat fuel →
  nd + #(members_from (m_handleIndex it) (dmask t cb)) ≤ na →
  let evs := pair cb <$> members_from (m_handleIndex it) (dmask t cb) in
  ∃ t', dispatch_set_loop (rh := passive_app p) fuel na nd (mask_of cb) cb it w (mkReactor t tq) =
      Ok (nd + #evs, (run_events (eventHandlers t) evs w).1, mkReactor t' tq) ∧
    tables_ok t' ∧ dispatching t' ∧ after t (run_events (eventHandlers t) evs w).2 t' ∧
    ∀ cb' x, ready t' cb' x = ready t cb' x && negb (bool_decide (cb' = cb) && (m_handleIndex it <=? x)).
Proof.
  revert it nd w t. induction fuel as [|fuel IH]; intros it nd w t Hok Hd Hat Hr Hf Hna.
  all: pose proof (di_sets t Hd cb) as Hhs; pose proof (ok_mask _ Hhs) as Hm; cbn [dispatch_set_loop sr_tables].
  all: destruct (iterator_next_ok _ it Hhs Hat) as [[Hend ->]|(Hb & it' & -> & Hat' & Hlt & Hz)]; rewrite bind_Ok.
  1,3: cbn; rewrite (members_from_end (m_handleIndex it) _ _ Hm (ok_max _ Hhs)) by lia; cbn; exists t;
    rewrite Z.add_0_r; split_and!; [done..|by apply after_nil|];
    intros cb' x; destruct (bool_decide (cb' = cb)) eqn:E; [|by rewrite andb_true_r];
    apply bool_decide_eq_true in E as ->; destruct (ready t cb x) eqn:Er; [|done];
    apply (proj2 (ok_max _ Hhs)) in Er; rewrite (proj2 (Z.leb_gt _ _)) by lia; done.
  { pose proof (bit_range _ _ Hm Hb). lia. }
  set (h := m_handleIndex it) in *. pose proof (bit_range _ _ Hm Hb) as Hrange.
  assert (members_from h (dmask t cb) = h :: members_from (m_handleIndex it') (dmask t cb)) as Hmem.
  { rewrite members_from_cons by (try done; lia). f_equal. apply members_from_skip; [lia|lia|].
    intros x Hx. apply Hz. lia. }
  rewrite Hmem in Hna |- *. cbn [length] in Hna. cbn zeta. rewrite fmap_cons. cbn [length run_events].
  rewrite (proj2 (Z.eqb_neq h _)) by (unfold ACE_INVALID_HANDLE; lia).
  rewrite (proj2 (Z.ltb_lt nd na)) by lia. cbn [negb andb].
  destruct (notify_ok cb h w t tq Hok Hd (di_ready t Hd _ _ Hb)) as (t1 & t2 & Hn & Hc & Hok2 & Hd2 & Haf & Hr2).
  rewrite Hn, bind_Ok. cbn [sr_tables timerQueue]. rewrite Hc, bind_Ok.
  destruct (run_event (eventHandlers t) w (cb, h)) as [w1 f1]. cbn [fst snd] in *.
  assert (∀ x, m_handleIndex it' ≤ x → bit (dmask t2 cb) x = bit (dmask t cb) x) as Hsame.
  { intros x Hx. specialize (Hr2 cb x). unfold ready in Hr2. rewrite Hr2.
    rewrite (proj2 (Z.eqb_neq x h)), andb_false_r by lia. apply andb_true_r. }
  assert (members_from (m_handleIndex it') (dmask t2 cb) = members_from (m_handleIndex it') (dmask t cb)) as Hmem2.
  { by apply members_from_ext. }
  destruct (IH it' (nd + 1) w1 t2) as (t' & Hloop & Hok' & Hd' & Haf' & Hr').
  - done.
  - done.
  - eapply iter_at_cleared; [exact Hhs|by apply di_sets|done| |exact Hsame].
    intros x. specialize (Hr2 cb x). unfold ready in Hr2. rewrite Hr2. intros Hx. by b2p.
  - lia.
  - lia.
  - rewrite Hmem2. lia.
  - rewrite Hmem2 in *.
    assert (run_events (eventHandlers t2) (pair cb <$> members_from (m_handleIndex it') (dmask t cb)) w1
            = run_events (eventHandlers t) (pair cb <$> members_from (m_handleIndex it') (dmask t cb)) w1) as Hext.
    { apply run_events_ext. intros cb' x Hin. apply list_elem_of_fmap in Hin as (y & [= -> ->] & Hy).
      apply elem_of_members_from in Hy as [Hy1 Hy2]; [|done|lia].
      apply (after_handler t f1 t2 cb); [done|]. apply (di_ready t2 Hd2). unfold ready. by rewrite Hsame. }
    rewrite Hext in Hloop, Haf'. exists t'. rewrite Hloop.
    destruct (run_events (eventHandlers t) _ w1) as [w2 f2]. cbn [fst snd] in *.
    split_and!; [do 3 f_equal; lia|done|done|by eapply after_app|].
    intros cb' x. rewrite Hr', Hr2. destruct (bool_decide (cb' = cb)) eqn:E; [|by rewrite !andb_true_r].
    apply bool_decide_eq_true in E as ->. cbn [andb]. destruct (ready t cb x) eqn:Er; [|done]. cbn [andb].
    apply eq_true_iff_eq. rewrite andb_true_iff, !negb_true_iff, Z.eqb_neq, !Z.leb_gt.
    split; [|lia]. intros [Hx1 Hx2]. destruct (decide (h < x)); [|lia].
    unfold ready in Er. rewrite Hz in Er by lia. done.
Qed.

(** The ready handles of a set, in the order they are served. *)
Definition ready_list (cb : callback) (t : Tables) : list (callback * Z) :=
  pair cb <$> members (set_of cb (dispatchSet t)).

Definition ready_events (t : Tables) : list (callback * Z) :=
  ready_list handleOutput_ t ++ ready_list handleException_ t ++ ready_list handleInput_ t.

Lemma dispatchIoSet_ok cb na nd w t tq :
  tables_ok t → dispatching t → nd + #(ready_list cb t) ≤ na →
  ∃ t', dispatchIoSet (rh := passive_app p) na nd (mask_of cb) cb w (mkReactor t tq) =
      Ok (nd + #(ready_list cb t), (run_events (eventHandlers t) (ready_list cb t) w).1, mkReactor t' tq) ∧
    tables_ok t' ∧ dispatching t' ∧ after t (run_events (eventHandlers t) (ready_list cb t) w).2 t' ∧
    ∀ cb' x, ready t' cb' x = ready t cb' x && negb (bool_decide (cb' = cb)).
Proof.
  intros Hok Hd Hna. unfold dispatchIoSet, HandleSetIterator_new. cbn [sr_tables].
  pose proof (di_sets t Hd cb) as Hhs. pose proof (ok_mask _ Hhs) as Hm.
  destruct (resetState_ok _ (mkIter 0 (-1) None) Hhs) as (it & -> & Hat & Hz & Hr). rewrite bind_Ok.
  assert (members (set_of cb (dispatchSet t)) = members_from (m_handleIndex it) (dmask t cb)) as Hmem.
  { apply members_from_skip; [lia|lia|]. intros x Hx. by apply Hz. }
  unfold ready_list in *. rewrite Hmem in *. rewrite length_fmap in Hna.
  destruct (dispatch_set_loop_ok (Z.to_nat MAXSIZE) cb it na nd w t tq) as (t' & -> & Hok' & Hd' & Haf & Hrd);
    [done|done|done|done|unfold MAXSIZE in *; lia|done|].
  exists t'. split_and!; [done..|]. intros cb' x. rewrite Hrd.
  destruct (bool_decide (cb' = cb)) eqn:E; [|done]. apply bool_decide_eq_true in E as ->.
  destruct (ready t cb x) eqn:Er; [|done]. cbn [andb negb]. destruct (_ <=? x) eqn:El; [done|]. b2p.
  unfold ready in Er. rewrite Hz in Er; [done|]. pose proof (bit_range _ _ Hm Er). lia.
Qed.

Lemma run_events_app m a b w :
  run_events m (a ++ b) w =
    ((run_events m b (run_events m a w).1).1, (run_events m a w).2 ++ (run_events m b (run_events m a w).1).2).
Proof.
  revert w. induction a as [|ev a IH]; intros w; cbn [run_events app]; [cbn; by destruct (run_events m b w)|].
  destruct (run_event m w ev) as [w1 f1]. rewrite IH. destruct (run_events m a w1) as [w2 f2]. cbn [fst snd].
  by rewrite app_assoc.
Qed.

(** A set that has not been served yet. *)
Lemma unserved cb t fl t' w :
  dispatching t → dispatching t' → after t fl t' → (∀ x, ready t' cb x = ready t cb x) →
  ready_list cb t' = ready_list cb t ∧
  run_events (eventHandlers t') (ready_list cb t) w = run_events (eventHandlers t) (ready_list cb t) w.
Proof.
  intros Hd Hd' Haf Hr.
  assert (ready_list cb t' = ready_list cb t) as E.
  { unfold ready_list. f_equal. apply members_from_ext. intros x _. apply Hr. }
  split; [done|]. apply run_events_ext. intros cb' x Hin. rewrite <- E in Hin.
  apply list_elem_of_fmap in Hin as (y & [= -> ->] & Hy).
  apply elem_of_members_from in Hy as [_ Hy]; [|apply ok_mask, di_sets; done|lia].
  eapply after_handler; [done|]. by apply (di_ready t' Hd').
Qed.

Lemma dispatchIoHandlers_ok w t tq :
  tables_ok t → dispatching t →
  ∃ t', dispatchIoHandlers (rh := passive_app p) (#(ready_events t)) 0 w (mkReactor t tq) =
      Ok (0, #(ready_events t), (run_events (eventHandlers t) (ready_events t) w).1, mkReactor t' tq) ∧
    tables_ok t' ∧ sets_ok (dispatchSet t') ∧ after t (run_events (eventHandlers t) (ready_events t) w).2 t' ∧
    ∀ cb x, ready t' cb x = false.
Proof.
  intros Hok Hd. unfold dispatchIoHandlers. set (na := #(ready_events t)).
  assert (na = #(ready_list handleOutput_ t) + #(ready_list handleException_ t) + #(ready_list handleInput_ t)) as Hna
    by (subst na; unfold ready_events; rewrite !length_app; lia).
  destruct (dispatchIoSet_ok handleOutput_ na 0 w t tq)
    as (t1 & Hio & Hok1 & Hd1 & Haf1 & Hr1); [done|done|lia|]. cbn [mask_of] in Hio. rewrite Hio, bind_Ok. clear Hio.
  destruct (unserved handleException_ t _ t1 (run_events (eventHandlers t) (ready_list handleOutput_ t) w).1 Hd Hd1 Haf1) as [El2 Er2];
    [intros; by rewrite Hr1, bool_decide_eq_false_2, andb_true_r by done|].
  destruct (dispatchIoSet_ok handleException_ na (0 + #(ready_list handleOutput_ t))
      (run_events (eventHandlers t) (ready_list handleOutput_ t) w).1 t1 tq)
    as (t2 & Hio & Hok2 & Hd2 & Haf2 & Hr2); [done|done|rewrite El2; lia|]. cbn [mask_of] in Hio. rewrite Hio, bind_Ok. clear Hio.
  rewrite El2 in *. rewrite Er2 in *.
  pose proof (after_app _ _ _ _ _ Haf1 Haf2) as Haf12.
  set (w2 := (run_events (eventHandlers t) (ready_list handleException_ t) (run_events (eventHandlers t) (ready_list handleOutput_ t) w).1).1) in *.
  destruct (unserved handleInput_ t _ t2 w2 Hd Hd2 Haf12) as [El3 Er3];
    [intros; by rewrite Hr2, Hr1, !bool_decide_eq_false_2, !andb_true_r by done|].
  destruct (dispatchIoSet_ok handleInput_ na (0 + #(ready_list handleOutput_ t) + #(ready_list handleException_ t)) w2 t2 tq)
    as (t3 & Hio & Hok3 & Hd3 & Haf3 & Hr3); [done|done|rewrite El3; lia|]. cbn [mask_of] in Hio. rewrite Hio, bind_Ok. clear Hio.
  rewrite El3 in *. rewrite Er3 in *.
  exists t3. unfold ready_events. rewrite !run_events_app. cbn [fst snd]. fold w2. split_and!.
  - do 4 f_equal; lia.
  - done.
  - by apply di_sets.
  - rewrite app_assoc. by eapply after_app.
  - intros cb x. rewrite Hr3, Hr2, Hr1. destruct cb; rewrite ?bool_decide_eq_true_2 by done; cbn; by rewrite ?andb_false_r.
Qed.

(** The timers run first. *)

Definition lifted_timers : PassiveHandlers (W * Tables) := {|
  on_timeout eh t act wt := ((on_timeout (pa_timers p) eh t act wt.1).1, ((on_timeout (pa_timers p) eh t act wt.1).2, wt.2));
  on_close eh wt := (on_close (pa_timers p) eh wt.1, wt.2)
|}.

Lemma timer_handlers_passive : timer_handlers (rh := passive_app p) = passive lifted_timers.
Proof. reflexivity. Qed.

Lemma run_timeouts_lifted cur l w t :
  run_timeouts lifted_timers cur l (w, t) = (run_timeouts (pa_timers p) cur l w, t).
Proof. unfold run_timeouts. revert w. induction l as [|n l IH]; intros w; [done|]. cbn. apply IH. Qed.

(** The timers due at [cur], in a state of the queue. *)
Definition due_timers (cur : TimeValue) (h : TimerHeap) : gmap Z TimerNode := filter (λ q, due cur q.2) (timers h).

(** What the reactor relies on in its timer queue. *)
Definition timers_ok (h : TimerHeap) : Prop := inv h ∧ map_Forall (λ _, node_canonical) (timers h).

Definition steady : Prop := ∀ eh t act w, (on_timeout (pa_timers p) eh t act w).1 ≠ -1.

Lemma dispatchTimerHandler_ok fuel nd w t h :
  steady → timers_ok h → in_age (queue_clock h w).1 →
  (size (due_timers (queue_clock h w).1 h) ≤ fuel)%nat →
  ∃ fired h', dispatchTimerHandler (rh := passive_app p) fuel nd w (mkReactor t h) =
      Ok (nd + #fired, run_timeouts (pa_timers p) (queue_clock h w).1 fired (queue_clock h w).2, mkReactor t h') ∧
    inv h' ∧ fired ≡ₚ (map_to_list (due_timers (queue_clock h w).1 h)).*2 ∧
    Sorted.StronglySorted (λ a b, tle (timerValue a) (timerValue b)) fired ∧
    timers h' = omap (expire_one (queue_clock h w).1) (timers h).
Proof.
  intros Hst [Hinv Hcan] Hcl Hf. unfold dispatchTimerHandler. cbn [timerQueue sr_tables].
  destruct (queue_clock h w) as [now w1]. cbn [fst snd] in *. rewrite timer_handlers_passive.
  destruct (expire_passive lifted_timers fuel now (w1, t) h) as (fired & h' & -> & Hi & Hp & Hs & Ht);
    [intros; apply Hst|done|done|done|done|].
  exists fired, h'. rewrite bind_Ok, run_timeouts_lifted. by split_and!.
Qed.

End passive_dispatch.

(** ** [select] *)

(** The manual of [select]: a set that is passed comes back as a subset of
    itself below [width], and the count is the number of bits left. *)
Definition select_subset {pf : Platform} (width : Z) (arg : option (list Z)) (res : list Z) : Prop :=
  match arg with
  | None => True
  | Some mask => mask_ok mask → mask_ok res ∧ ∀ x, bit res x = true → bit mask x = true ∧ x < width
  end.

Definition select_count {pf : Platform} (arg : option (list Z)) (res : list Z) : Z :=
  match arg with None => 0 | Some _ => #(members_from 0 res) end.

Class LawfulSelect {pf : Platform} (W : Type) {kn : Kernel W} : Prop := {
  select_ready width rd wr ex tmo w n rd' wr' ex' w' :
    select width rd wr ex tmo w = (Ready n rd' wr' ex', w') →
    select_subset width rd rd' ∧ select_subset width wr wr' ∧ select_subset width ex ex' ∧
    n = select_count rd rd' + select_count wr wr' + select_count ex ex'
}.

Section waiting.
Context {pf : Platform} {W : Type} {kn : Kernel W} {ls : LawfulSelect W} (p : PassiveApp W).

(** The dispatch sets when [select] has returned. *)
Definition selected (t : Tables) (rd wr ex : list Z) : SelectReactorHandleSet :=
  mkSets (overwrite (rdMask (waitSet t)) rd) (overwrite (wrMask (waitSet t)) wr) (overwrite (exMask (waitSet t)) ex).

(** The events it reported, in the order they are served. *)
Definition reported (t : Tables) (rd wr ex : list Z) : list (callback * Z) :=
  ready_events (with_dispatch (selected t rd wr ex) t).

(** [countBits] sees the handles in use. *)
Definition low_handles (t : Tables) : Prop := ∀ cb h, wants t cb h = true → h mod NFDBITS < 32.

Lemma overwrite_ok hs width res :
  hs_ok hs → select_subset width (fdset hs) res →
  mask_ok (m_mask (overwrite hs res)) ∧
  (∀ x, bit (m_mask (overwrite hs res)) x = true → bit (m_mask hs) x = true) ∧
  select_count (fdset hs) res = #(members (overwrite hs res)).
Proof.
  intros Hok. unfold overwrite, fdset. destruct (0 <? m_size hs) eqn:E; cbn.
  - intros Hsub. destruct Hsub as [Hm Hs]; [by apply ok_mask|]. split_and!; [done| |done].
    intros x Hx. by apply Hs.
  - intros _. b2p. rewrite (ok_size _ Hok) in E. split_and!; [by apply ok_mask|done|]. lia.
Qed.

Lemma calculateTimeout2_ok maxWait now h : inv h → ∃ r, calculateTimeout2 maxWait true now h = Ok r.
Proof.
  intros Hinv. unfold calculateTimeout2. cbn [negb]. destruct (isEmpty h) eqn:He; [by eexists|].
  destruct (root_spec h Hinv He) as (n & Hr & _). rewrite (earliestTime_ok h n Hr), bind_Ok.
  destruct (tv_gt _ _); by eexists.
Qed.

(** What is known when [select] has returned. *)
Lemma selected_ok t rd wr ex tmo w n w' :
  tables_ok t →
  select (m_maxHandleP1 t) (fdset (rdMask (waitSet t))) (fdset (wrMask (waitSet t))) (fdset (exMask (waitSet t))) tmo w
    = (Ready n rd wr ex, w') →
  (∀ cb, mask_ok (m_mask (set_of cb (selected t rd wr ex)))) ∧
  (∀ cb x, bit (m_mask (set_of cb (selected t rd wr ex))) x = true → wants t cb x = true) ∧
  n = #(reported t rd wr ex).
Proof.
  intros Hok Hsel. apply select_ready in Hsel as (Hr & Hw & He & ->).
  pose proof (to_wait t Hok) as Hws.
  destruct (overwrite_ok _ _ _ (Hws handleInput_) Hr) as (Mr & Br & Cr).
  destruct (overwrite_ok _ _ _ (Hws handleOutput_) Hw) as (Mw & Bw & Cw).
  destruct (overwrite_ok _ _ _ (Hws handleException_) He) as (Me & Be & Ce).
  split_and!; [by intros []|by intros []|].
  cbn [set_of] in *. rewrite Cr, Cw, Ce. unfold reported, ready_events, ready_list.
  rewrite !length_app, !length_fmap. cbn. lia.
Qed.

Lemma sync_sets_ok t rd wr ex tmo w n w' :
  tables_ok t → low_handles t →
  select (m_maxHandleP1 t) (fdset (rdMask (waitSet t))) (fdset (wrMask (waitSet t))) (fdset (exMask (waitSet t))) tmo w
    = (Ready n rd wr ex, w') →
  ∃ d, sync_sets (m_maxHandleP1 t) (selected t rd wr ex) = Ok d ∧ dispatching (with_dispatch d t) ∧
    ready_events (with_dispatch d t) = reported t rd wr ex.
Proof.
  intros Hok Hlow Hsel. destruct (selected_ok _ _ _ _ _ _ _ _ Hok Hsel) as (Hm & Hb & _).
  assert (∀ cb, ∃ hs, sync (m_maxHandleP1 t) (set_of cb (selected t rd wr ex)) = Ok hs ∧
    m_mask hs = m_mask (set_of cb (selected t rd wr ex)) ∧ hs_ok hs) as Hsync.
  { intros cb. apply sync_ok; [done|by apply to_limit|]. intros x Hx. apply Hb in Hx.
    split; [apply (wants_range t cb x Hok Hx)|by apply (Hlow cb)]. }
  destruct (Hsync handleInput_) as (r & Hr & Mr & Or), (Hsync handleOutput_) as (o & Ho & Mo & Oo),
    (Hsync handleException_) as (e & He & Me & Oe). cbn [set_of] in *.
  exists (mkSets r o e). unfold sync_sets. rewrite Hr, bind_Ok, Ho, bind_Ok, He, bind_Ok.
  split_and!; [done| |].
  - split; [by intros []|]. intros cb x Hx. apply Hb. destruct cb; unfold ready in Hx; cbn in *; congruence.
  - unfold reported, ready_events, ready_list, members. cbn [dispatchSet with_dispatch set_of].
    cbn in Mr, Mo, Me |- *. congruence.
Qed.

(** The state between [select] and [dispatch]. *)
Lemma waitForMultipleEvents_ok sfuel maxWait w t h n rd wr ex w1 :
  tables_ok t → inv h → low_handles t →
  (∀ tmo, calculateTimeout2 maxWait true (queue_clock h w).1 h = Ok tmo →
     select (m_maxHandleP1 t) (fdset (rdMask (waitSet t))) (fdset (wrMask (waitSet t))) (fdset (exMask (waitSet t)))
       tmo (queue_clock h w).2 = (Ready n rd wr ex, w1)) →
  ∃ d, waitForMultipleEvents sfuel maxWait w (mkReactor t h) = Ok (n, w1, mkReactor (with_dispatch d t) h) ∧
    n = #(reported t rd wr ex) ∧ tables_ok (with_dispatch d t) ∧
    (n = 0 → ∀ cb x, ready (with_dispatch d t) cb x = false) ∧
    (0 < n → dispatching (with_dispatch d t) ∧ ready_events (with_dispatch d t) = reported t rd wr ex).
Proof.
  intros Hok Hinv Hlow Hsel. destruct (calculateTimeout2_ok maxWait (queue_clock h w).1 h Hinv) as [tmo Htmo].
  specialize (Hsel tmo Htmo). destruct (selected_ok _ _ _ _ _ _ _ _ Hok Hsel) as (Hm & Hb & Hn).
  assert (select_loop sfuel maxWait w (mkReactor t h) =
          Ok (n, w1, mkReactor (with_dispatch (selected t rd wr ex) t) h)) as Hl.
  { destruct sfuel; cbn [select_loop timerQueue sr_tables]; destruct (queue_clock h w) as [now w0];
      cbn [fst snd] in *; rewrite Htmo, bind_Ok; unfold maxHandleP1; by rewrite Hsel. }
  unfold waitForMultipleEvents. rewrite Hl, bind_Ok. cbn [sr_tables dispatchSet with_dispatch timerQueue].
  destruct (0 <? n) eqn:En; b2p.
  - destruct (sync_sets_ok _ _ _ _ _ _ _ _ Hok Hlow Hsel) as (d & Hd & Hdi & Hre).
    unfold maxHandleP1. cbn [m_maxHandleP1 with_dispatch]. rewrite Hd, bind_Ok.
    exists d. split_and!; [done|done| |lia|done]. destruct Hok as [Hw _ Hbd Hh Hlm]. split; try done.
    intros cb. left. apply (di_sets _ Hdi).
  - assert (n = 0) as -> by lia.
    assert (∀ cb x, bit (m_mask (set_of cb (selected t rd wr ex))) x = false) as Hz.
    { intros cb x. apply not_true_is_false. intros Hx.
      assert ((cb, x) ∈ reported t rd wr ex) as Hin.
      { unfold reported, ready_events. rewrite !elem_of_app.
        assert ((cb, x) ∈ ready_list cb (with_dispatch (selected t rd wr ex) t)).
        { apply list_elem_of_fmap. exists x. split; [done|]. apply elem_of_members_from; [apply Hm|lia|].
          split; [|done]. pose proof (bit_range _ _ (Hm cb) Hx). lia. }
        destruct cb; tauto. }
      destruct (reported t rd wr ex); [by apply not_elem_of_nil in Hin|cbn in Hn; lia]. }
    exists (selected t rd wr ex). split_and!; [done|done| |done|lia].
    destruct Hok as [Hw _ Hbd Hh Hlm]. split; try done. intros cb. right. split; [apply Hm|apply Hz].
Qed.

Lemma tables_ok_dispatch d t : tables_ok t → sets_usable d → tables_ok (with_dispatch d t).
Proof. intros [Hw _ Hb Hh Hl] Hd. by split. Qed.

Lemma reset_usable : sets_usable (mkSets hs_reset hs_reset hs_reset).
Proof. intros cb. left. by destruct cb; apply reset_ok. Qed.

(** One turn of [dispatch] does it all. *)
Lemma dispatch_ok fuel tfuel n w t h evs :
  tables_ok t → timers_ok h → steady p → in_age (queue_clock h w).1 →
  (size (due_timers (queue_clock h w).1 h) ≤ tfuel)%nat → n = #evs →
  (n = 0 → ∀ cb x, ready t cb x = false) → (0 < n → dispatching t ∧ ready_events t = evs) →
  ∃ fired t' h',
    let ran := run_events p (eventHandlers t) evs
                 (run_timeouts (pa_timers p) (queue_clock h w).1 fired (queue_clock h w).2) in
    dispatch (rh := passive_app p) fuel tfuel n 0 0 w (mkReactor t h) = Ok (n + #fired, ran.1, mkReactor t' h') ∧
    fired ≡ₚ (map_to_list (due_timers (queue_clock h w).1 h)).*2 ∧
    Sorted.StronglySorted (λ a b, tle (timerValue a) (timerValue b)) fired ∧
    timers h' = omap (expire_one (queue_clock h w).1) (timers h) ∧ inv h' ∧
    tables_ok t' ∧ after t ran.2 t' ∧ ∀ cb x, ready t' cb x = false.
Proof.
  intros Hok Hti Hst Hcl Hf Hn Hz Hp.
  destruct (dispatchTimerHandler_ok p tfuel 0 w (with_changed false t) h Hst Hti Hcl Hf)
    as (fired & h' & Ht & Hi & Hperm & Hs & Htm).
  assert (tables_ok (with_changed false t)) as Hok0 by (by destruct Hok; split).
  set (w1 := run_timeouts (pa_timers p) (queue_clock h w).1 fired (queue_clock h w).2) in *.
  exists fired. cbn zeta. fold w1.
  assert (∃ t', dispatch (rh := passive_app p) fuel tfuel n 0 0 w (mkReactor t h) =
      Ok (n + #fired, (run_events p (eventHandlers t) evs w1).1, mkReactor t' h') ∧
      tables_ok t' ∧ after t (run_events p (eventHandlers t) evs w1).2 t' ∧ ∀ cb x, ready t' cb x = false)
    as (t' & Hd & Hrest); [|exists t', h'; split_and!; (done || by apply Hrest)].
  destruct fuel; cbn [dispatch sr_tables timerQueue]; rewrite (proj2 (Z.eqb_neq n (-1))) by lia;
    rewrite Ht, bind_Ok; (destruct (n =? 0) eqn:En; b2p;
    [destruct evs; [|cbn in Hn; lia]; exists (with_changed false t); subst n; split_and!;
       [do 3 f_equal; lia|done|by apply after_nil|by apply Hz]|]);
    (destruct Hp as [Hdi Hre]; [lia|];
     destruct (dispatchIoHandlers_ok p w1 (with_changed false t) h' Hok0) as (t' & Hio & Hok' & _ & Haf & Hrd);
       [by destruct Hdi; split|];
     change (ready_events (with_changed false t)) with (ready_events t) in Hio, Haf; rewrite Hre in Hio, Haf;
     rewrite Hn, Hio, bind_Ok; exists t'; split_and!; [cbn; do 3 f_equal; lia|done|by destruct Haf; split|done]).
Qed.

End waiting.

(** C26: [handleEvents] serves every ready handle.  When [select] reports the
    events [reported], with handlers that do not call the reactor back, the
    timers that are due run first, in order; then the handler registered for
    each reported event is called, exactly once, in the order write, except,
    read and in ascending order of the handles.  A handler that returns a
    negative code is closed and no longer waits for that event, and is
    forgotten when it waits for none; all other registrations stay.  Nothing
    is left to dispatch, the tables stay consistent, the count of events and
    timers is returned: the loops end.  The upcalls of timers do not return -1
    ([steady]) and times are within [AGE].  The handles in use must be ones that
    [countBits] sees ([low_handles]), which on words of 32 bits all are; with
    others the loops do not end, or leave the tables
    ([mixed_handles_out_of_bounds]). *)
Theorem reactor_serves_ready {pf : Platform} {W} {kn : Kernel W} {ls : LawfulSelect W} (p : PassiveApp W)
    sfuel fuel tfuel maxWait w t h n rd wr ex w1 :
  tables_ok t → low_handles t → timers_ok h → steady p →
  (∀ tmo, calculateTimeout2 maxWait true (queue_clock h w).1 h = Ok tmo →
     select (m_maxHandleP1 t) (fdset (rdMask (waitSet t))) (fdset (wrMask (waitSet t))) (fdset (exMask (waitSet t)))
       tmo (queue_clock h w).2 = (Ready n rd wr ex, w1)) →
  in_age (queue_clock h w1).1 → (size (due_timers (queue_clock h w1).1 h) ≤ tfuel)%nat →
  ∃ fired t' h',
    let ran := run_events p (eventHandlers t) (reported t rd wr ex)
                 (run_timeouts (pa_timers p) (queue_clock h w1).1 fired (queue_clock h w1).2) in
    handleEvents (rh := passive_app p) sfuel fuel tfuel maxWait w (mkReactor t h) =
      Ok (n + #fired, ran.1, mkReactor t' h') ∧ n = #(reported t rd wr ex) ∧
    fired ≡ₚ (map_to_list (due_timers (queue_clock h w1).1 h)).*2 ∧
    Sorted.StronglySorted (λ a b, tle (timerValue a) (timerValue b)) fired ∧
    timers h' = omap (expire_one (queue_clock h w1).1) (timers h) ∧ inv h' ∧
    tables_ok t' ∧ after t ran.2 t' ∧ ∀ cb x, ready t' cb x = false.
Proof.
  intros Hok Hlow Hti Hst Hsel Hcl Hf. unfold handleEvents. cbn [sr_tables timerQueue].
  set (t0 := with_dispatch (mkSets hs_reset hs_reset hs_reset) t).
  assert (tables_ok t0) as Hok0 by (apply tables_ok_dispatch; [done|apply reset_usable]).
  destruct (waitForMultipleEvents_ok sfuel maxWait w t0 h n rd wr ex w1 Hok0 (proj1 Hti) Hlow Hsel)
    as (d & -> & Hn & Hokd & Hz & Hp). rewrite bind_Ok.
  destruct (dispatch_ok p fuel tfuel n w1 (with_dispatch d t0) h (reported t rd wr ex) Hokd Hti Hst Hcl Hf Hn Hz Hp)
    as (fired & t' & h' & Hd & H1 & H2 & H3 & H4 & H5 & H6 & H7).
  exists fired, t', h'. cbn zeta. split_and!; try done. by destruct H6; split.
Qed.

(** ** An example: two connections, a kernel with a script *)

Module Sample.

#[local] Existing Instance lp64.

#[local] Instance mask_ok_dec mask : Decision (mask_ok mask).
Proof. unfold mask_ok, in_s. apply _. Defined.

(** The kernel reports what [w_rd] and [w_wr] say, if that is a subset of what
    it is asked for; the clock stands still. *)
Record World := mkWorld { w_now : TimeValue; w_rd : list Z; w_wr : list Z; w_log : list (callback * Z * Z) }.

Definition subset_b (width : Z) (arg : option (list Z)) (res : list Z) : bool :=
  match arg with
  | None => true
  | Some mask => bool_decide (mask_ok res) &&
      forallb (λ x, implb (bit res x) (bit mask x && (x <? width))) (seqZ 0 MAXSIZE)
  end.

Lemma subset_b_ok width arg res : subset_b width arg res = true → select_subset width arg res.
Proof.
  unfold subset_b, select_subset. destruct arg as [mask|]; [|done]. intros H _.
  apply andb_true_iff in H as [Hm Hall]. apply bool_decide_eq_true in Hm. split; [done|].
  intros x Hx. pose proof (bit_range _ _ Hm Hx) as Hr. rewrite forallb_forall in Hall.
  specialize (Hall x). rewrite Hx in Hall. cbn in Hall.
  assert (bit mask x && (x <? width) = true) as Hb by (apply Hall, list_elem_of_In, elem_of_seqZ; lia).
  by b2p.
Qed.

#[local] Instance scripted : Kernel World := {|
  gettimeofday w := (w_now w, w);
  select width rd wr ex tmo w :=
    if subset_b width rd (w_rd w) && subset_b width wr (w_wr w) && subset_b width ex FD_ZERO
    then (Ready (select_count rd (w_rd w) + select_count wr (w_wr w) + select_count ex FD_ZERO)
            (w_rd w) (w_wr w) FD_ZERO, w)
    else (SelectError EINTR, w)
|}.

#[local] Instance scripted_lawful : LawfulSelect World.
Proof.
  split. cbn. intros width rd wr ex tmo w n rd' wr' ex' w' H. destruct (_ && _) eqn:E in H; [|done]. simplify_eq.
  apply andb_true_iff in E as [E He]. apply andb_true_iff in E as [Hr Hw].
  split_and!; [by apply subset_b_ok..|done].
Qed.

(** Handler 100 serves the handle 3; 200 the handle 70, where it fails to read. *)
Definition app : PassiveApp World := {|
  pa_handle eh _ := if eh =? 100 then 3 else 70;
  pa_event cb eh hd w :=
    (if decide (cb = handleInput_ ∧ eh = 200) then -1 else 0,
     mkWorld (w_now w) (w_rd w) (w_wr w) (w_log w ++ [(cb, eh, hd)]));
  pa_close eh hd mask w := mkWorld (w_now w) (w_rd w) (w_wr w) (w_log w ++ [(handleException_, eh, mask)]);
  pa_timers := mkPassive World (λ _ _ _ w, (0, w)) (λ _ w, w)
|}.

Definition set_of_list (l : list Z) : list Z :=
  match hs_run (OpSet <$> l) HandleSet_new with Ok hs => m_mask hs | Fault _ => [] end.

Definition world : World := mkWorld (mkTV 10 0) (set_of_list [3; 70]) (set_of_list [70]) [].

Definition registered : result (Z * SelectReactor) :=
  '(_, sr) ← registerHandler (rh := passive_app app) 100 READ_MASK world (SelectReactor_new 4);
  registerHandler (rh := passive_app app) 200 (READ_MASK + WRITE_MASK) world sr.

Definition reactor : SelectReactor :=
  match registered with Ok (_, sr) => sr | Fault _ => SelectReactor_new 4 end.

Lemma registered_keeps eh mask w sr r sr' :
  tables_ok (sr_tables sr) → eh ≠ 0 →
  registerHandler (rh := passive_app app) eh mask w sr = Ok (r, sr') →
  tables_ok (sr_tables sr') ∧ timerQueue sr' = timerQueue sr.
Proof.
  intros Hok Hne H. unfold registerHandler, registerHandlerInternal in H. cbn [getHandle passive_app] in H.
  rewrite bind_Ok in H.
  destruct (bind_ok (rh := passive_app app) (pa_handle app eh w) eh mask w (sr_tables sr) Hok Hne) as (t' & Hb & Hok' & _).
  { cbn. unfold MAXSIZE. destruct (eh =? 100); lia. }
  rewrite Hb, bind_Ok in H. by inv_ok.
Qed.

Lemma reactor_registered : registered = Ok (0, reactor).
Proof. vm_compute. reflexivity. Qed.

Lemma reactor_ok : tables_ok (sr_tables reactor) ∧ timerQueue reactor = TimerHeap_new 4.
Proof.
  pose proof reactor_registered as H. unfold registered in H.
  destruct (registerHandler 100 READ_MASK world (SelectReactor_new 4)) as [[r1 sr1]|] eqn:E1; [|done].
  rewrite bind_Ok in H.
  destruct (registered_keeps 100 _ _ _ _ _ (new_tables_ok 4) ltac:(lia) E1) as [Hok1 Hq1].
  destruct (registered_keeps 200 _ _ _ _ _ Hok1 ltac:(lia) H) as [Hok Hq]. by rewrite Hq, Hq1.
Qed.

Lemma reactor_low : low_handles (sr_tables reactor).
Proof.
  intros cb h Hw. pose proof (bit_range _ _ (ok_mask _ (to_wait _ (proj1 reactor_ok) cb)) Hw) as Hr.
  assert (Forall (λ h, wants (sr_tables reactor) cb h = true → h mod NFDBITS < 32) (seqZ 0 MAXSIZE)) as Hall.
  { apply (bool_decide_unpack _). destruct cb; vm_compute; done. }
  rewrite Forall_forall in Hall. apply Hall; [apply elem_of_seqZ; lia|done].
Qed.

End Sample.

Example reactor_serves_ready_witness :
  ∃ w' sr', handleEvents (pf := lp64) (kn := Sample.scripted) (rh := passive_app Sample.app) 0 0 0 None Sample.world Sample.reactor
      = Ok (3, w', sr') ∧
    Sample.w_log w' = [(handleOutput_, 200, 70); (handleInput_, 100, 3); (handleInput_, 200, 70); (handleException_, 200, READ_MASK)] ∧
    ∀ cb x, ready (pf := lp64) (sr_tables sr') cb x = false.
Proof.
  destruct Sample.reactor_ok as [Hok Hq].
  assert (Sample.reactor = mkReactor (sr_tables Sample.reactor) (TimerHeap_new 4)) as Er
    by (rewrite <- Hq; by destruct Sample.reactor).
  destruct (reactor_serves_ready (pf := lp64) (kn := Sample.scripted) (ls := Sample.scripted_lawful) Sample.app 0 0 0 None
    Sample.world (sr_tables Sample.reactor) (TimerHeap_new 4) 3 (Sample.w_rd Sample.world) (Sample.w_wr Sample.world)
    (FD_ZERO (pf := lp64)) Sample.world Hok Sample.reactor_low) as (fired & t' & h' & Hd & _ & Hp & _ & _ & _ & _ & _ & Hz).
  - split; [apply new_queue_inv; lia|]. intros id n Hn. vm_compute in Hn. discriminate.
  - intros eh t act w. cbn. lia.
  - intros tmo _. vm_compute. reflexivity.
  - vm_compute. intuition discriminate.
  - vm_compute. lia.
  - assert (fired = []) as -> by (apply Permutation_nil; symmetry; exact Hp).
    rewrite Er. eexists _, _. split_and!; [rewrite Hd; reflexivity|vm_compute; reflexivity|exact Hz].
Defined.

(** C28: Registration and removal do exactly what they are asked.
    [registerHandler] adds the events of the mask for the handle of the
    handler, enters the handler unless the handle has one, and changes nothing
    else.  [removeHandler] clears the events of the mask in the wait sets and
    takes the handle out of the current dispatch, forgets the handler when no
    event is left, and calls its [handleClose] unless told not to; for a
    handle without a handler it returns -1 and changes nothing.  Both keep the
    tables consistent. *)
Theorem registration_exact {pf : Platform} {W} {rh : ReactorHandlers W} eh hd mask (w : W) t h :
  tables_ok t → getHandle eh w = Ok hd → 0 ≤ hd < MAXSIZE →
  (eh ≠ 0 → ∃ t', registerHandler eh mask w (mkReactor t h) = Ok (0, mkReactor t' h) ∧ tables_ok t' ∧
     (∀ cb x, wants t' cb x = wants t cb x || (enables mask cb && (x =? hd))) ∧
     (∀ x, eventHandlers t' !! x = if x =? hd then Some (default eh (eventHandlers t !! hd)) else eventHandlers t !! x) ∧
     dispatchSet t' = dispatchSet t) ∧
  match eventHandlers t !! hd with
  | None => removeHandler eh mask w (mkReactor t h) = Ok (-1, w, mkReactor t h)
  | Some eh' =>
      ∃ t', removeHandler eh mask w (mkReactor t h) =
          (if BIT_ENABLED mask DONT_CALL then Ok (0, w, mkReactor t' h)
           else '(w', sr') ← on_close_event eh' hd mask w (mkReactor t' h); Ok (0, w', sr')) ∧ tables_ok t' ∧
        (∀ cb x, wants t' cb x = wants t cb x && negb (enables mask cb && (x =? hd))) ∧
        (∀ cb x, ready t' cb x = ready t cb x && negb (undispatches mask cb && (x =? hd))) ∧
        (∀ x, eventHandlers t' !! x = if (x =? hd) && idle t' hd then None else eventHandlers t !! x)
  end.
Proof.
  intros Hok Hget Hr. split.
  - intros Hne. unfold registerHandler, registerHandlerInternal. rewrite Hget, bind_Ok. cbn [sr_tables timerQueue].
    destruct (bind_ok hd eh mask w t Hok Hne Hr) as (t' & -> & Hok' & Hh & Hd & _ & Hw). rewrite bind_Ok.
    exists t'. split_and!; try done. intros x. rewrite Hh. unfold map_insert.
    destruct (eventHandlers t !! hd) as [e|] eqn:E; destruct (x =? hd) eqn:Ex; b2p; subst; try done.
    + by rewrite lookup_insert_eq.
    + by rewrite lookup_insert_ne.
  - unfold removeHandler, removeHandlerInternal, unbind. rewrite Hget, bind_Ok. cbn [sr_tables timerQueue].
    destruct (eventHandlers t !! hd) as [eh'|] eqn:E.
    + destruct (unbind_tables_ok hd eh' mask t Hok E) as (t' & -> & Hok' & _ & _ & Hw & Hrd & He). rewrite bind_Ok.
      rewrite (proj2 (Z.eqb_neq eh' 0)) by (by apply (to_handlers t Hok) in E as [_ ?]).
      exists t'. split_and!; [by destruct (BIT_ENABLED mask DONT_CALL)|done..|].
      intros x. rewrite He. unfold idle. destruct (x =? hd) eqn:Ex; b2p; subst; cbn [andb]; destruct (_ || _) eqn:Eo; try done.
      * by rewrite lookup_delete_eq.
      * by rewrite lookup_delete_ne.
    + unfold unbind_tables. by rewrite E, bind_Ok.
Qed.

Example registration_exact_witness :
  ∃ t', registerHandler (pf := lp64) (rh := passive_app Sample.app) 100 WRITE_MASK Sample.world Sample.reactor =
      Ok (0, mkReactor t' (timerQueue Sample.reactor)) ∧
    wants (pf := lp64) t' handleOutput_ 3 = true ∧ wants (pf := lp64) t' handleInput_ 3 = true.
Proof.
  destruct (registration_exact (pf := lp64) (rh := passive_app Sample.app) 100 3 WRITE_MASK Sample.world
    (sr_tables Sample.reactor) (timerQueue Sample.reactor)) as [Hreg _].
  - apply Sample.reactor_ok.
  - reflexivity.
  - unfold MAXSIZE. lia.
  - destruct Hreg as (t' & Ht & _ & Hw & _); [lia|]. exists t'. split_and!.
    + rewrite <- Ht. by destruct Sample.reactor.
    + rewrite Hw. vm_compute. reflexivity.
    + rewrite Hw. vm_compute. reflexivity.
Defined.

(** ** Where the reactor never returns *)

Section hanging.
Context {pf : Platform} {W : Type} {rh : ReactorHandlers W} {kn : Kernel W}.

(** The iterator goes by the maximum that the set keeps. *)
Lemma no_max_no_handle hs :
  m_maxHandle hs = -1 → ∃ it, HandleSetIterator_new hs = Ok it ∧ iterator_next hs it = Ok (ACE_INVALID_HANDLE, it).
Proof.
  intros Hm. unfold HandleSetIterator_new, resetState. rewrite Hm. change (-1 + 1) with 0.
  assert (first_word (Z.to_nat NUM_WORDS) (m_mask hs) 0 0 (-1) = Ok (0, -1)) as ->.
  { by destruct (Z.to_nat NUM_WORDS). }
  rewrite bind_Ok. cbn [m_wordVal]. eexists. split; [done|]. unfold iterator_next. by rewrite Hm.
Qed.

Definition nothing_ready (t : Tables) : Prop := ∀ cb, m_maxHandle (set_of cb (dispatchSet t)) = -1.

Lemma dispatchIoSet_none cb mask na nd w t h :
  nothing_ready t → dispatchIoSet na nd mask cb w (mkReactor t h) = Ok (nd, w, mkReactor t h).
Proof.
  intros Hno. unfold dispatchIoSet. cbn [sr_tables]. destruct (no_max_no_handle _ (Hno cb)) as (it & -> & Hn).
  rewrite bind_Ok. by destruct (Z.to_nat MAXSIZE); cbn [dispatch_set_loop sr_tables]; rewrite Hn.
Qed.

Lemma dispatchIoHandlers_none n w t h :
  nothing_ready t → dispatchIoHandlers n 0 w (mkReactor t h) = Ok (n, 0, w, mkReactor t h).
Proof.
  intros Hno. unfold dispatchIoHandlers. do 3 (rewrite dispatchIoSet_none, bind_Ok by done). by rewrite Z.sub_0_r.
Qed.

(** With nothing to dispatch the loop makes no progress. *)
Lemma dispatch_spins fuel tfuel n other w t h :
  0 < n → nothing_ready t → isEmpty h = true →
  dispatch fuel tfuel n 0 other w (mkReactor t h) = Fault OutOfFuel.
Proof.
  intros Hn. revert other t. induction fuel as [|fuel IH]; intros other t Hno He; cbn [dispatch sr_tables timerQueue].
  all: rewrite (proj2 (Z.eqb_neq n (-1))), (proj2 (Z.eqb_neq n 0)) by lia.
  all: unfold dispatchTimerHandler, queue_clock, expire; cbn [sr_tables timerQueue]; rewrite He, !bind_Ok.
  all: rewrite dispatchIoHandlers_none, bind_Ok by done.
  all: rewrite (proj2 (Z.ltb_lt 0 n)) by lia; try done.
  by apply IH.
Qed.

End hanging.

(** A timer that removes the handler whose event is ready hangs the
    reactor: if after the timers of a turn nothing is left to dispatch though
    [select] counted events, [dispatch] never returns, since the count is not
    adjusted ([stateChanged] is set but never read). *)
Lemma timer_removal_hangs {pf : Platform} {W} {rh : ReactorHandlers W} {kn : Kernel W} fuel tfuel n w sr k w1 t1 h1 :
  0 < n →
  dispatchTimerHandler tfuel 0 w (mkReactor (with_changed false (sr_tables sr)) (timerQueue sr)) = Ok (k, w1, mkReactor t1 h1) →
  nothing_ready t1 → isEmpty h1 = true →
  dispatch fuel tfuel n 0 0 w sr = Fault OutOfFuel.
Proof.
  intros Hn Ht Hno He. destruct fuel as [|fuel]; cbn [dispatch].
  all: rewrite (proj2 (Z.eqb_neq n (-1))), Ht, bind_Ok, (proj2 (Z.eqb_neq n 0)) by lia.
  all: rewrite dispatchIoHandlers_none, bind_Ok by done.
  all: rewrite (proj2 (Z.ltb_lt 0 n)) by lia; try done.
  by apply dispatch_spins.
Qed.

Module TimerRemoves.

(** The timer of handler 200 gives up the connection of handler 100, which is
    ready; a handler like this closes connections that were idle too long. *)
Definition app : ReactorHandlers Sample.World := {|
  getHandle := getHandle (ReactorHandlers := passive_app Sample.app);
  on_event := on_event (ReactorHandlers := passive_app Sample.app);
  on_close_event := on_close_event (ReactorHandlers := passive_app Sample.app);
  on_timer eh t act w sr :=
    '(_, w, sr) ← removeHandlerInternal (pf := lp64) (rh := passive_app Sample.app) 3 (ALL_EVENTS_MASK + DONT_CALL) w sr;
    Ok (0, w, sr);
  on_close_timer := on_close_timer (ReactorHandlers := passive_app Sample.app)
|}.

Definition world : Sample.World := Sample.mkWorld (mkTV 10 0) (Sample.set_of_list [3]) (FD_ZERO (pf := lp64)) [].

Definition sr : SelectReactor :=
  match scheduleTimer (kn := Sample.scripted) 200 0 zero zero world Sample.reactor with
  | Ok (_, _, sr) => sr | Fault _ => Sample.reactor end.

(** The reactor after [select] has reported the handle 3. *)
Definition waited : Z * SelectReactor :=
  match waitForMultipleEvents (pf := lp64) (kn := Sample.scripted) 0 None world sr with
  | Ok (n, _, sr) => (n, sr) | Fault _ => (0, sr) end.

Definition timers_ran : SelectReactor :=
  match dispatchTimerHandler (kn := Sample.scripted) (rh := app) 1 0 world
          (mkReactor (with_changed false (sr_tables waited.2)) (timerQueue waited.2)) with
  | Ok (_, _, sr) => sr | Fault _ => sr end.

End TimerRemoves.

Example timer_removal_hangs_witness :
  TimerRemoves.waited.1 = 1 ∧
  ∀ fuel, dispatch (pf := lp64) (kn := Sample.scripted) (rh := TimerRemoves.app) fuel 1 TimerRemoves.waited.1 0 0
    TimerRemoves.world TimerRemoves.waited.2 = Fault OutOfFuel.
Proof.
  split; [vm_compute; reflexivity|]. intros fuel.
  apply (timer_removal_hangs (pf := lp64) (kn := Sample.scripted) (rh := TimerRemoves.app) fuel 1 TimerRemoves.waited.1
    TimerRemoves.world TimerRemoves.waited.2 1 TimerRemoves.world (sr_tables TimerRemoves.timers_ran)
    (timerQueue TimerRemoves.timers_ran)).
  - vm_compute. reflexivity.
  - vm_compute. reflexivity.
  - intros []; vm_compute; reflexivity.
  - vm_compute. reflexivity.
Defined.

Section high_handles.
Context {pf : Platform} {W : Type} {rh : ReactorHandlers W} {kn : Kernel W} {ls : LawfulSelect W}.

(** What [sync] makes of sets in which only bits above the 32 low ones of a
    word are set. *)
Lemma sync_sets_high max d :
  0 ≤ max ≤ MAXSIZE → (∀ cb, mask_ok (m_mask (set_of cb d))) →
  (∀ cb x, bit (m_mask (set_of cb d)) x = true → 32 ≤ x mod NFDBITS) →
  ∃ d', sync_sets max d = Ok d' ∧ ∀ cb, m_maxHandle (set_of cb d') = -1.
Proof.
  intros Hr Hm Hhigh. unfold sync_sets.
  rewrite (sync_high max (rdMask d)) by (try done; first [apply (Hm handleInput_)|apply (Hhigh handleInput_)]).
  rewrite bind_Ok.
  rewrite (sync_high max (wrMask d)) by (try done; first [apply (Hm handleOutput_)|apply (Hhigh handleOutput_)]).
  rewrite bind_Ok.
  rewrite (sync_high max (exMask d)) by (try done; first [apply (Hm handleException_)|apply (Hhigh handleException_)]).
  rewrite bind_Ok. eexists. split; [done|]. by intros [].
Qed.

End high_handles.

(** C40: The reactor hangs on 64-bit platforms: when the only ready handles are
    ones whose position in their 64-bit word is 32 or more (descriptors 32 to
    63, 96 to 127, ...), [sync] counts no bit and forgets them, while the count
    of [select] is positive; [handleEvents] never returns and calls no
    handler. *)
Theorem high_handle_hangs {pf : Platform} {W} {rh : ReactorHandlers W} {kn : Kernel W} {ls : LawfulSelect W}
    sfuel fuel tfuel maxWait w t h n rd wr ex w1 :
  tables_ok t → isEmpty h = true → 0 < n →
  select (m_maxHandleP1 t) (fdset (rdMask (waitSet t))) (fdset (wrMask (waitSet t))) (fdset (exMask (waitSet t)))
    maxWait w = (Ready n rd wr ex, w1) →
  (∀ cb x, bit (m_mask (set_of cb (selected t rd wr ex))) x = true → 32 ≤ x mod NFDBITS) →
  handleEvents sfuel fuel tfuel maxWait w (mkReactor t h) = Fault OutOfFuel.
Proof.
  intros Hok He Hn Hsel Hhigh. unfold handleEvents. cbn [sr_tables timerQueue].
  set (t0 := with_dispatch (mkSets hs_reset hs_reset hs_reset) t).
  destruct (selected_ok t rd wr ex maxWait w n w1 Hok Hsel) as (Hm & _ & _).
  destruct (sync_sets_high (m_maxHandleP1 t) (selected t rd wr ex)) as (d & Hd & Hno); [by apply to_limit|done|done|].
  assert (waitForMultipleEvents sfuel maxWait w (mkReactor t0 h) = Ok (n, w1, mkReactor (with_dispatch d t0) h)) as ->.
  { unfold waitForMultipleEvents.
    assert (select_loop sfuel maxWait w (mkReactor t0 h) =
            Ok (n, w1, mkReactor (with_dispatch (selected t rd wr ex) t0) h)) as ->.
    { destruct sfuel; cbn [select_loop timerQueue sr_tables]; unfold queue_clock, calculateTimeout2;
        rewrite He; cbn [negb]; rewrite bind_Ok; unfold maxHandleP1; cbn [m_maxHandleP1 waitSet with_dispatch t0];
        by rewrite Hsel. }
    rewrite bind_Ok. cbn [sr_tables timerQueue dispatchSet with_dispatch]. rewrite (proj2 (Z.ltb_lt 0 n)) by done.
    unfold maxHandleP1. cbn [m_maxHandleP1 with_dispatch t0]. by rewrite Hd, bind_Ok. }
  rewrite bind_Ok. by apply dispatch_spins.
Qed.

Module HighHandle.

(** The reactor of [Sample] with a connection on the descriptor 40. *)
Definition tables : Tables :=
  match bind (pf := lp64) (rh := passive_app Sample.app) 40 300 READ_MASK Sample.world (sr_tables Sample.reactor) with
  | Ok (_, t) => t | Fault _ => sr_tables Sample.reactor end.

Lemma tables_ok_40 : tables_ok (pf := lp64) tables.
Proof.
  destruct (bind_ok (pf := lp64) (rh := passive_app Sample.app) 40 300 READ_MASK Sample.world (sr_tables Sample.reactor))
    as (t' & Ht & Hok & _); [apply Sample.reactor_ok|done|by unfold MAXSIZE|].
  unfold tables. by rewrite Ht.
Qed.

Definition world (rd : list Z) : Sample.World :=
  Sample.mkWorld (mkTV 10 0) (Sample.set_of_list rd) (FD_ZERO (pf := lp64)) [].

End HighHandle.

Example high_handle_hangs_witness :
  32 ≤ 40 mod 64 ∧
  ∀ fuel, handleEvents (pf := lp64) (kn := Sample.scripted) (rh := passive_app Sample.app) 0 fuel 0 None
    (HighHandle.world [40]) (mkReactor HighHandle.tables (TimerHeap_new 4)) = Fault OutOfFuel.
Proof.
  split; [vm_compute; discriminate|]. intros fuel.
  apply (high_handle_hangs (pf := lp64) (kn := Sample.scripted) (ls := Sample.scripted_lawful) (rh := passive_app Sample.app)
    0 fuel 0 None (HighHandle.world [40]) HighHandle.tables (TimerHeap_new 4) 1 (Sample.set_of_list [40])
    (FD_ZERO (pf := lp64)) (FD_ZERO (pf := lp64)) (HighHandle.world [40]) HighHandle.tables_ok_40).
  - vm_compute. reflexivity.
  - lia.
  - vm_compute. reflexivity.
  - intros cb x Hx.
    assert (bit (pf := lp64) (m_mask (set_of cb (selected HighHandle.tables (Sample.set_of_list [40]) (FD_ZERO (pf := lp64)) (FD_ZERO (pf := lp64))))) x = true) as Hx' by exact Hx.
    destruct (selected_ok (pf := lp64) (kn := Sample.scripted) (ls := Sample.scripted_lawful) HighHandle.tables (Sample.set_of_list [40]) (FD_ZERO (pf := lp64))
      (FD_ZERO (pf := lp64)) None (HighHandle.world [40]) 1 (HighHandle.world [40]) HighHandle.tables_ok_40 ltac:(vm_compute; reflexivity))
      as (Hm & _ & _).
    pose proof (bit_range (pf := lp64) _ _ (Hm cb) Hx) as Hr.
    assert (Forall (λ x, bit (pf := lp64) (m_mask (set_of cb (selected HighHandle.tables (Sample.set_of_list [40])
      (FD_ZERO (pf := lp64)) (FD_ZERO (pf := lp64))))) x = true → 32 ≤ x mod NFDBITS (Platform := lp64)) (seqZ 0 MAXSIZE)) as Hall.
    { apply (bool_decide_unpack _). destruct cb; vm_compute; done. }
    rewrite Forall_forall in Hall. apply Hall; [apply elem_of_seqZ; lia|done].
Defined.

(** With a counted and an uncounted handle ready, the count reaches zero and
    then passes it: [setMax] reads before the first word of the set. *)
Example mixed_handles_out_of_bounds :
  handleEvents (pf := lp64) (kn := Sample.scripted) (rh := passive_app Sample.app) 0 1 0 None
    (HighHandle.world [3; 40]) (mkReactor HighHandle.tables (TimerHeap_new 4)) = Fault OutOfBounds.
Proof. vm_compute. reflexivity. Qed.

(** The handle of a handler whose stream is closed is -1: [removeHandler] finds
    nothing under it, and the handle that was registered stays. *)
Lemma removeHandler_closed {pf : Platform} {W} {rh : ReactorHandlers W} eh mask (w : W) sr :
  getHandle eh w = Ok (-1) → eventHandlers (sr_tables sr) !! (-1) = None → removeHandler eh mask w sr = Ok (-1, w, sr).
Proof.
  intros Hh Hn. unfold removeHandler, removeHandlerInternal, unbind, unbind_tables. rewrite Hh, bind_Ok, Hn, bind_Ok. by destruct sr.
Qed.

(** The test of the loop around [select] is inverted: on any error but an
    interruption it calls [select] again at once, for ever. *)
Lemma select_error_spins {pf : Platform} {W} {kn : Kernel W} errno fuel maxWait (w : W) sr :
  errno ≠ EINTR → (∀ width rd wr ex tmo w, (select width rd wr ex tmo w).1 = SelectError errno) →
  inv (timerQueue sr) → select_loop fuel maxWait w sr = Fault OutOfFuel.
Proof.
  intros Hne Hsel Hinv. revert w sr Hinv. induction fuel as [|fuel IH]; intros w sr Hinv; cbn [select_loop].
  all: destruct (queue_clock (timerQueue sr) w) as [now w0];
    destruct (calculateTimeout2_ok maxWait now (timerQueue sr) Hinv) as [tmo ->]; rewrite bind_Ok.
  all: specialize (Hsel (maxHandleP1 (sr_tables sr)) (fdset (rdMask (waitSet (sr_tables sr))))
         (fdset (wrMask (waitSet (sr_tables sr)))) (fdset (exMask (waitSet (sr_tables sr)))) tmo w0) as Hs.
  all: destruct (select _ _ _ _ tmo w0) as [res w1]; cbn [fst] in Hs; subst res; rewrite (proj2 (Z.eqb_neq errno EINTR)) by done.
  - done.
  - by apply IH.
Qed.

(** [setBit] evaluates [isSet] for the invalid handle as well: a shift by -1. *)
Lemma setBit_invalid_handle {pf : Platform} hs : setBit ACE_INVALID_HANDLE hs = Fault OutOfBounds.
Proof. reflexivity. Qed.
