(* ===== verification/EventLoop.v ===== *)
(** * EventLoop: one event, with handlers that call the reactor back

    The theorems of [SelectReactor] about a turn of the loop are for handlers
    that leave the reactor alone.  An acceptor does not: its upcall registers
    the handler of the connection it accepted.  Here are the lemmas for a turn
    in which [select] reports one event, for handlers of any kind. *)
From S2P Require Import Prelude TimeValue TimerHeap TimerQueue HandleSet SelectReactor.

(** What the tables say but for the dispatch in progress. *)
Definition registrations (t : Tables) : SelectReactorHandleSet * gmap Z Z * Z := (waitSet t, eventHandlers t, m_maxHandleP1 t).

Section one_event.

Context {pf : Platform} {W : Type} {rh : ReactorHandlers W} {kn : Kernel W} {ls : LawfulSelect W}.
Implicit Types (w : W) (t : Tables) (tq : TimerHeap).

Lemma registrations_wants t t' cb h : registrations t' = registrations t → wants t' cb h = wants t cb h.
Proof. unfold registrations, wants. by intros [= -> _ _]. Qed.

(** A set without a ready handle. *)
Lemma dispatchIoSet_unready cb na nd mask w t tq :
  sets_ok (dispatchSet t) → (∀ x, ready t cb x = false) →
  dispatchIoSet na nd mask cb w (mkReactor t tq) = Ok (nd, w, mkReactor t tq).
Proof.
  intros Hs Hr. unfold dispatchIoSet, HandleSetIterator_new. cbn [sr_tables].
  destruct (resetState_ok _ (mkIter 0 (-1) None) (Hs cb)) as (it & -> & Hat & _ & _). rewrite bind_Ok.
  destruct (Z.to_nat MAXSIZE); cbn [dispatch_set_loop sr_tables];
    (destruct (iterator_next_ok _ it (Hs cb) Hat) as [[_ ->]|(Hb & _)];
     [by rewrite bind_Ok|unfold ready in Hr; by rewrite Hr in Hb]).
Qed.

(** The upcall of the one ready handle. *)
Lemma dispatchIoSet_one cb h eh w w2 t t2 tq st :
  tables_ok t → sets_ok (dispatchSet t) → (∀ x, ready t cb x = (x =? h)) →
  eventHandlers t !! h = Some eh →
  on_event cb eh h w (mkReactor t tq) = Ok (st, w2, mkReactor t2 tq) → 0 ≤ st → tables_ok t2 → dispatchSet t2 = dispatchSet t →
  ∃ t3, dispatchIoSet 1 0 (mask_of cb) cb w (mkReactor t tq) = Ok (1, w2, mkReactor t3 tq) ∧
    tables_ok t3 ∧ sets_ok (dispatchSet t3) ∧ registrations t3 = registrations t2 ∧
    ∀ cb' x, ready t3 cb' x = ready t cb' x && negb (bool_decide (cb' = cb) && (x =? h)).
Proof.
  intros Hok Hs Hr Heh Hev Hst Hok2 Hd2. destruct (to_handlers t Hok h eh Heh) as [Hh Hne]. pose proof (to_limit t Hok) as Hlim.
  pose proof (Hs cb) as Hhs. pose proof (ok_mask _ Hhs) as Hm.
  unfold dispatchIoSet, HandleSetIterator_new. cbn [sr_tables].
  destruct (resetState_ok _ (mkIter 0 (-1) None) Hhs) as (it & -> & Hat & Hz & _). rewrite bind_Ok.
  assert (Z.to_nat MAXSIZE = S (pred (Z.to_nat MAXSIZE))) as -> by (unfold MAXSIZE; lia).
  cbn [dispatch_set_loop sr_tables].
  destruct (iterator_next_ok _ it Hhs Hat) as [[Hend _]|(Hb & it' & -> & Hat' & Hlt & Hz')].
  { exfalso. assert (bit (m_mask (set_of cb (dispatchSet t))) h = true) as Hb by (specialize (Hr h); unfold ready in Hr; by rewrite Hr, Z.eqb_refl).
    pose proof (proj2 (ok_max _ Hhs) h Hb). destruct (decide (h < m_handleIndex it)); [by rewrite Hz in Hb by lia|lia]. }
  rewrite bind_Ok. pose proof (Hr (m_handleIndex it)) as Hi. unfold ready in Hi. rewrite Hb in Hi. symmetry in Hi. apply Z.eqb_eq in Hi. rewrite Hi in *.
  rewrite (proj2 (Z.eqb_neq h _)) by (unfold ACE_INVALID_HANDLE; lia). cbn [negb andb Z.ltb Z.compare].
  unfold notifyHandle, find. rewrite Heh, (proj2 (Z.eqb_neq eh 0)) by done. rewrite Hev, bind_Ok.
  rewrite (proj2 (Z.ltb_ge st 0)) by lia. rewrite bind_Ok. cbn [sr_tables timerQueue].
  destruct (clearDispatchMask_ok h (mask_of cb) t2) as (d & -> & Hdu & Hds & Hrd); [by apply to_dispatch|lia|]. rewrite bind_Ok.
  set (t3 := with_changed true (with_dispatch d t2)).
  assert (sets_ok (dispatchSet t3)) as Hs3 by (apply Hds; by rewrite Hd2).
  assert (∀ cb' x, ready t3 cb' x = ready t cb' x && negb (bool_decide (cb' = cb) && (x =? h))) as Hr3.
  { intros cb' x. change (ready t3 cb' x) with (ready (with_dispatch d t2) cb' x). rewrite Hrd, mask_of_undispatches.
    unfold ready. by rewrite Hd2. }
  assert (∀ x, ready t3 cb x = false) as Hnone.
  { intros x. rewrite Hr3, Hr, bool_decide_eq_true_2 by done. by destruct (x =? h). }
  exists t3. split_and!; [|destruct Hok2 as [? _ ? ? ?]; by split|done|done|done].
  assert (iter_at (set_of cb (dispatchSet t3)) it') as Hat3.
  { eapply iter_at_cleared; [exact Hhs|apply Hs3|done| |]; intros x; specialize (Hnone x); unfold ready in Hnone; rewrite Hnone; [done|].
    intros Hx. symmetry. specialize (Hr x). unfold ready in Hr. rewrite Hr. apply Z.eqb_neq. lia. }
  destruct (pred (Z.to_nat MAXSIZE)); cbn [dispatch_set_loop sr_tables];
    (destruct (iterator_next_ok _ it' (Hs3 cb) Hat3) as [[_ ->]|(Hb3 & _)];
     [by rewrite bind_Ok|unfold ready in Hnone; by rewrite Hnone in Hb3]).
Qed.

(** A turn of the loop with no timers, in which [select] reports that one handle
    can be read: the upcall of its handler, whatever it registers, is all that
    happens. *)
Lemma handleEvents_reads_one (P : Tables → Prop) sfuel fuel tfuel maxWait w w1 w2 t tq n rd wr ex h eh :
  tables_ok t → low_handles t → inv tq → isEmpty tq = true →
  (∀ tmo, calculateTimeout2 maxWait true zero tq = Ok tmo →
     select (m_maxHandleP1 t) (fdset (rdMask (waitSet t))) (fdset (wrMask (waitSet t))) (fdset (exMask (waitSet t))) tmo w
       = (Ready n rd wr ex, w1)) →
  reported t rd wr ex = [(handleInput_, h)] → eventHandlers t !! h = Some eh →
  (∀ a b, registrations a = registrations b → P a → P b) →
  (∀ td, tables_ok td → sets_ok (dispatchSet td) → registrations td = registrations t →
     ∃ st t2, on_event handleInput_ eh h w1 (mkReactor td tq) = Ok (st, w2, mkReactor t2 tq) ∧ 0 ≤ st ∧
       tables_ok t2 ∧ dispatchSet t2 = dispatchSet td ∧ P t2) →
  ∃ t', handleEvents sfuel fuel tfuel maxWait w (mkReactor t tq) = Ok (1, w2, mkReactor t' tq) ∧ tables_ok t' ∧ P t'.
Proof.
  intros Hok Hlow Hinv He Hsel Hrep Heh HP Hev. unfold handleEvents. cbn [sr_tables timerQueue].
  set (t0 := with_dispatch (mkSets hs_reset hs_reset hs_reset) t).
  assert (tables_ok t0) as Hok0 by (apply tables_ok_dispatch; [done|apply reset_usable]).
  assert (∀ v : W, queue_clock tq v = (zero, v)) as Hclock by (intros v; unfold queue_clock; by rewrite He).
  destruct (waitForMultipleEvents_ok sfuel maxWait w t0 tq n rd wr ex w1 Hok0 Hinv Hlow) as (d & -> & Hn & Hokd & _ & Hp);
    [by rewrite Hclock|]. rewrite bind_Ok. change (reported t0 rd wr ex) with (reported t rd wr ex) in Hn, Hp. rewrite Hrep in Hn, Hp. change (n = 1) in Hn. subst n.
  destruct Hp as [Hdi Hre]; [lia|].
  set (td := with_changed false (with_dispatch d t0)).
  assert (sets_ok (dispatchSet td)) as Hsd by apply (di_sets _ Hdi).
  assert (tables_ok td) as Hokt by (by destruct Hokd; split).
  assert (∀ cb x, ready td cb x = true → (cb, x) ∈ ready_events td) as Hmem.
  { intros cb x Hx. assert ((cb, x) ∈ ready_list cb td) as Hin.
    { apply list_elem_of_fmap. exists x. split; [done|]. apply elem_of_members_from; [apply ok_mask, Hsd|lia|].
      split; [|done]. pose proof (bit_range _ _ (ok_mask _ (Hsd cb)) Hx). lia. }
    unfold ready_events. rewrite !elem_of_app. destruct cb; tauto. }
  change (ready_events td) with (ready_events (with_dispatch d t0)) in Hmem. rewrite Hre in Hmem.
  assert (∀ cb x, ready td cb x = bool_decide (cb = handleInput_) && (x =? h)) as Hready.
  { intros cb x. apply eq_true_iff_eq. rewrite andb_true_iff, bool_decide_eq_true, Z.eqb_eq. split.
    - intros Hx. apply Hmem, list_elem_of_singleton in Hx. by injection Hx.
    - intros [-> ->]. assert ((handleInput_, h) ∈ ready_events (with_dispatch d t0)) as Hin by (rewrite Hre; by left).
      unfold ready_events in Hin. rewrite !elem_of_app in Hin.
      destruct Hin as [Hin|[Hin|Hin]]; apply list_elem_of_fmap in Hin as (y & [=] & Hy). subst y.
      apply elem_of_members_from in Hy as [_ Hy]; [done|apply ok_mask, Hsd|lia]. }
  destruct (Hev td Hokt Hsd eq_refl) as (st & t2 & Hcall & Hst & Hok2 & Hd2 & HP2).
  destruct (dispatchIoSet_one handleInput_ h eh w1 w2 td t2 tq st Hokt Hsd) as (t3 & Hio & Hok3 & Hs3 & Hreg & Hr3);
    [intros x; by rewrite Hready, bool_decide_eq_true_2|exact Heh|exact Hcall|done|done|done|].
  assert (dispatchTimerHandler tfuel 0 w1 (mkReactor td tq) = Ok (0, w1, mkReactor td tq)) as Htm.
  { unfold dispatchTimerHandler. cbn [timerQueue sr_tables]. rewrite Hclock. unfold expire. by rewrite He. }
  exists t3. split; [|split; [done|by eapply HP; [symmetry; exact Hreg|]]].
  destruct fuel; cbn [dispatch sr_tables timerQueue]; fold td; cbn [Z.eqb]; rewrite Htm, bind_Ok; unfold dispatchIoHandlers;
    rewrite (dispatchIoSet_unready handleOutput_) by (done || (intros x; by rewrite Hready, bool_decide_eq_false_2)); rewrite bind_Ok;
    rewrite (dispatchIoSet_unready handleException_) by (done || (intros x; by rewrite Hready, bool_decide_eq_false_2)); rewrite bind_Ok;
    cbn [mask_of] in Hio; rewrite Hio, !bind_Ok; done.
Qed.

End one_event.
