(* ===== verification/Block.v ===== *)
(** * Block: a message block and its data block as one value
      (icc/MessageBlock.h, icc/MessageBlock.cpp)

    The streams work on message blocks that own their buffers.  A [Block] is
    such a block: the bytes of the buffer (as many as its capacity,
    [m_maxSize]), the size in use [m_curSize], and the read and write
    offsets.  Pointers into the buffer are offsets from its base; [b_pad] is
    the distance from the base to the next multiple of 8, the only thing the
    streams ask of an address.  [MessageBlock.v] has the blocks that share
    buffers, with their reference counts.

    The contents of fresh memory are a parameter, the class [Allocator]. *)
From S2P Require Import Prelude.

(** [new char[n]]: a buffer with unspecified contents, aligned for any type. *)
Class Allocator := {
  junk : Z → list Z;
  junk_length n : 0 ≤ n → #(junk n) = n;
  junk_bytes n : bytes_ok (junk n) }.

(** Fresh memory that happens to be zero, for the concrete examples. *)
Definition zero_memory : Allocator.
Proof.
  refine {| junk := λ n, replicate (Z.to_nat n) 0 |}.
  - intros n Hn. rewrite length_replicate. lia.
  - intros n. apply Forall_replicate. unfold is_byte. lia.
Defined.

Record Block := mkBlock {
  b_data : list Z;
  b_size : Z;
  b_pad : Z;
  b_rd : Z;
  b_wr : Z
}.

Definition with_rd (rd : Z) (b : Block) : Block := mkBlock (b_data b) (b_size b) (b_pad b) rd (b_wr b).
Definition with_wr (wr : Z) (b : Block) : Block := mkBlock (b_data b) (b_size b) (b_pad b) (b_rd b) wr.
Definition with_data (d : list Z) (b : Block) : Block := mkBlock d (b_size b) (b_pad b) (b_rd b) (b_wr b).

(** ** Accessors *)

(** [capacity ()], and [end ()] as an offset from the base. *)
Definition b_capacity (b : Block) : Z := #(b_data b).

(** [length ()]: [m_wrPtr - m_rdPtr], a [size_t]. *)
Definition b_length (b : Block) : Z := u64 (b_wr b - b_rd b).

(** [length (len)]. *)
Definition b_set_length (len : Z) (b : Block) : Block := with_wr (b_rd b + len) b.

(** [space ()]: from the write pointer to the mark. *)
Definition b_space (b : Block) : Z := u64 (b_size b - b_wr b).

(** [reset ()]. *)
Definition b_reset (b : Block) : Block := with_wr 0 (with_rd 0 b).

(** ** Operations *)

Section operations.

Context `{Allocator}.

(** A message block on a new buffer: [MessageBlock (size)]. *)
Definition new_block (size : Z) : Block := mkBlock (junk size) size 0 0 0.

(** A message block on a buffer of the caller: [MessageBlock (data, size)];
    the buffer itself says how it is aligned. *)
Definition user_block (data : list Z) (pad : Z) : Block :=
  mkBlock data (#data) pad 0 0.

(** A message block on a copy of the caller's buffer:
    [MessageBlock (size, 0, data, true)]. *)
Definition copied_block (size : Z) (data : list Z) : result Block :=
  if size =? 0 then Ok (mkBlock [] 0 0 0 0) else
  d ← load 0 size data; Ok (mkBlock d size 0 0 0).

(** [copy (buf, n)]: append [n] bytes of [buf]; -1 when they do not fit. *)
Definition b_copy (buf : list Z) (n : Z) (b : Block) : result (Z * Block) :=
  let len := u64 (b_capacity b - b_wr b) in
  if len <? n then Ok (-1, b) else
  src ← load 0 n buf;
  d ← store (b_wr b) src (b_data b);
  Ok (0, with_wr (b_wr b + n) (with_data d b)).

(** [strlen]: the bytes before the first zero; past the end of the buffer
    when there is none. *)
Fixpoint c_str (buf : list Z) : result (list Z) :=
  match buf with
  | [] => Fault OutOfBounds
  | c :: buf => if c =? 0 then Ok [] else s ← c_str buf; Ok (c :: s)
  end.

(** [copy (buf)]: append a C string with its terminator. *)
Definition b_copy_str (buf : list Z) (b : Block) : result (Z * Block) :=
  s ← c_str buf;
  let bufLen := #s + 1 in
  let len := u64 (b_capacity b - b_wr b) in
  if len <? bufLen then Ok (-1, b) else
  src ← load 0 bufLen buf;
  d ← store (b_wr b) src (b_data b);
  Ok (0, with_wr (b_wr b + bufLen) (with_data d b)).

(** [crunch ()]: move the unread bytes to the base. *)
Definition b_crunch (b : Block) : result Block :=
  if b_rd b >? 0 then
    let len := b_length b in
    src ← load (b_rd b) len (b_data b);
    d ← store 0 src (b_data b);
    Ok (with_wr len (with_rd 0 (with_data d b)))
  else Ok b.

(** [size (length)]: within the capacity only the mark moves, else the bytes
    in use go to a larger buffer; the offsets stay. *)
Definition b_resize (len : Z) (b : Block) : result Block :=
  if len <=? b_capacity b then Ok (mkBlock (b_data b) len (b_pad b) (b_rd b) (b_wr b)) else
  src ← load 0 (b_size b) (b_data b);
  d ← store 0 src (junk len);
  Ok (mkBlock d len 0 (b_rd b) (b_wr b)).

End operations.

(** The bytes between the read and the write pointer. *)
Definition b_content (b : Block) : list Z := slice (b_rd b) (b_wr b) (b_data b).

(** A block in order: the pointers are in the buffer, in order, and the mark
    is not past the end; buffers are smaller than the address space. *)
Record block_ok (b : Block) : Prop := mkBlockOk {
  bo_rd : 0 ≤ b_rd b ≤ b_wr b;
  bo_wr : b_wr b ≤ b_capacity b;
  bo_size : 0 ≤ b_size b ≤ b_capacity b;
  bo_max : b_capacity b < 2 ^ 62 }.

(** ** Lemmas *)

Lemma block_length b : block_ok b → b_length b = #(b_content b).
Proof.
  intros [Hr Hw Hs Hm]. unfold b_length, b_content, b_capacity in *. rewrite length_slice by lia.
  apply wrap_small. unfold in_u. lia.
Qed.

Lemma content_length b : block_ok b → #(b_content b) = b_wr b - b_rd b.
Proof. intros [Hr Hw Hs Hm]. unfold b_content, b_capacity in *. by rewrite length_slice by lia. Qed.

Lemma load_all (bs : list Z) n : n = #bs → load 0 n bs = Ok bs.
Proof. intros ->. rewrite load_slice by lia. by rewrite Z.add_0_l, slice_full. Qed.

(** Writing at the write pointer appends to the contents. *)
Lemma store_at_wr b bs :
  block_ok b → b_wr b + #bs ≤ b_capacity b →
  ∃ d, store (b_wr b) bs (b_data b) = Ok d ∧ length d = length (b_data b) ∧
    let b' := with_wr (b_wr b + #bs) (with_data d b) in
    block_ok b' ∧ b_content b' = b_content b ++ bs.
Proof.
  intros [Hr Hw Hs Hm] Hfit. unfold b_capacity in *.
  destruct (store_ok (b_wr b) bs (b_data b)) as (d & -> & Hl & Hsl & Hlo & _); [lia..|].
  exists d. split_and!; [done|done| |].
  - split; unfold b_capacity; cbn; lia.
  - unfold b_content; cbn. rewrite (slice_app _ (b_wr b)) by lia. rewrite Hsl. f_equal. apply Hlo; lia.
Qed.

Lemma b_copy_ok b bs n :
  block_ok b → n = #bs → b_wr b + n ≤ b_capacity b →
  ∃ b', b_copy bs n b = Ok (0, b') ∧ block_ok b' ∧ b_content b' = b_content b ++ bs ∧
    b_capacity b' = b_capacity b ∧ b_size b' = b_size b ∧ b_rd b' = b_rd b.
Proof.
  intros Hb -> Hfit. pose proof Hb as [Hr Hw Hs Hm]. unfold b_copy.
  rewrite wrap_small by (unfold in_u; lia). rewrite (proj2 (Z.ltb_ge _ _)) by lia.
  rewrite load_all, bind_Ok by done.
  destruct (store_at_wr b bs Hb Hfit) as (d & -> & Hl & Hb' & Hc'). rewrite bind_Ok.
  eexists. split; [done|]. split_and!; try done. unfold b_capacity. cbn. lia.
Qed.

Lemma new_block_ok `{Allocator} n : 0 ≤ n < 2 ^ 62 → block_ok (new_block n) ∧ b_content (new_block n) = [] ∧
  b_capacity (new_block n) = n.
Proof.
  intros Hn. unfold new_block, b_content, b_capacity. cbn. rewrite slice_empty, junk_length by lia.
  split_and!; [|done|done]. split; unfold b_capacity; cbn; rewrite ?junk_length; lia.
Qed.

(** ** Properties *)

(** [copy] appends the given bytes to the contents of a block when they fit,
    and otherwise returns -1 and leaves the block alone; it never writes
    outside the buffer. *)
Lemma copy_appends b bs :
  block_ok b →
  if b_wr b + #bs <=? b_capacity b
  then ∃ b', b_copy bs (#bs) b = Ok (0, b') ∧ block_ok b' ∧
         b_content b' = b_content b ++ bs ∧ b_capacity b' = b_capacity b
  else b_copy bs (#bs) b = Ok (-1, b).
Proof.
  intros Hb. destruct (_ <=? _) eqn:E; b2p.
  - destruct (b_copy_ok b bs _ Hb eq_refl E) as (b' & ? & ? & ? & ? & _). by exists b'.
  - destruct Hb as [Hr Hw Hs Hm]. unfold b_copy. rewrite wrap_small by (unfold in_u; lia).
    by rewrite (proj2 (Z.ltb_lt _ _)) by lia.
Qed.

(** A block of six bytes with two of four written bytes read, for the witnesses. *)
Definition sample_block : Block := mkBlock [1; 2; 3; 4; 0; 0] 6 0 2 4.

Lemma sample_block_ok : block_ok sample_block.
Proof. split; vm_compute; intuition congruence. Qed.

Example copy_appends_witness :
  ∃ b', b_copy [5; 6] 2 sample_block = Ok (0, b') ∧ b_content b' = [3; 4; 5; 6].
Proof.
  pose proof (copy_appends sample_block [5; 6] sample_block_ok) as Hc.
  cbn in Hc. destruct Hc as (b' & Hb & _ & Hcont & _). exists b'. exact (conj Hb Hcont).
Defined.

(** [crunch] keeps the unread bytes and makes room: the contents are the
    same, they start at the base, and the free space grows by what was read. *)
Theorem crunch_keeps_content b :
  block_ok b →
  ∃ b', b_crunch b = Ok b' ∧ block_ok b' ∧ b_content b' = b_content b ∧ b_rd b' = 0 ∧
    b_capacity b' - b_wr b' = b_capacity b - b_wr b + b_rd b.
Proof.
  intros Hb. pose proof Hb as [Hr Hw Hs Hm]. unfold b_crunch. rewrite Z.gtb_ltb.
  destruct (0 <? b_rd b) eqn:E; b2p; [|exists b; split_and!; done || lia].
  rewrite block_length by done. pose proof (content_length b Hb) as Hl. unfold b_capacity in *.
  rewrite load_slice, bind_Ok by lia. replace (b_rd b + _) with (b_wr b) by lia.
  change (slice (b_rd b) (b_wr b) (b_data b)) with (b_content b).
  destruct (store_ok 0 (b_content b) (b_data b)) as (d & -> & Hd & Hsl & _); [lia..|]. rewrite bind_Ok.
  eexists. split; [done|]. split_and!.
  - split; unfold b_capacity; cbn; lia.
  - unfold b_content at 1; cbn. by rewrite Z.add_0_l in Hsl.
  - done.
  - unfold b_capacity. cbn. lia.
Qed.

Example crunch_keeps_content_witness :
  ∃ b', b_crunch sample_block = Ok b' ∧ b_content b' = [3; 4] ∧ b_rd b' = 0.
Proof.
  destruct (crunch_keeps_content sample_block sample_block_ok) as (b' & Hb & _ & Hc & Hr & _).
  exists b'. exact (conj Hb (conj Hc Hr)).
Defined.

(** [size (n)] keeps the contents of the block (when the write pointer is
    within the size in use), gives at least [n] bytes of capacity and leaves
    the pointers where they were. *)
Theorem resize_keeps_content `{Allocator} b n :
  block_ok b → b_wr b ≤ b_size b → 0 ≤ n < 2 ^ 62 →
  ∃ b', b_resize n b = Ok b' ∧ block_ok b' ∧ b_content b' = b_content b ∧ b_size b' = n ∧
    n ≤ b_capacity b' ∧ b_rd b' = b_rd b ∧ b_wr b' = b_wr b.
Proof.
  intros Hb Hws Hn. pose proof Hb as [Hr Hw Hs Hm]. unfold b_resize.
  destruct (n <=? b_capacity b) eqn:E; b2p.
  { eexists. split; [done|]. split_and!; try done. split; unfold b_capacity in *; cbn; lia. }
  unfold b_capacity in *. rewrite load_slice, bind_Ok by lia. rewrite Z.add_0_l.
  assert (#(slice 0 (b_size b) (b_data b)) = b_size b) as Hsl by (rewrite length_slice; lia).
  destruct (store_ok 0 (slice 0 (b_size b) (b_data b)) (junk n)) as (d & -> & Hd & Hst & _);
    [lia|rewrite junk_length; lia|]. rewrite bind_Ok.
  pose proof (junk_length n ltac:(lia)) as Hj.
  eexists. split; [done|]. split_and!; unfold b_capacity; cbn; try done; try lia.
  - split; unfold b_capacity; cbn; lia.
  - unfold b_content; cbn. rewrite Z.add_0_l, Hsl in Hst.
    assert (∀ m, slice (b_rd b) (b_wr b) m = slice (b_rd b) (b_wr b) (slice 0 (b_size b) m)) as Hsub.
    { intros m. unfold slice. rewrite Z.sub_0_r, drop_0, skipn_firstn_comm, take_take. f_equal. lia. }
    by rewrite Hsub, Hst, <- Hsub.
Qed.

Example resize_keeps_content_witness :
  ∃ b', b_resize (H := zero_memory) 32 sample_block = Ok b' ∧ b_content b' = [3; 4] ∧ 32 ≤ b_capacity b'.
Proof.
  destruct (resize_keeps_content (H := zero_memory) sample_block 32 sample_block_ok)
    as (b' & Hb & _ & Hc & _ & Hcap & _); [vm_compute; discriminate|lia|].
  exists b'. exact (conj Hb (conj Hc Hcap)).
Defined.
