(* ===== verification/MessageBlock.v ===== *)
(** * MessageBlock: message blocks that share data blocks
      (icc/MessageBlock.h, icc/MessageBlock.cpp)

    [Block.v] has one block with a buffer of its own, as the streams use it.
    This file has the objects: message blocks point to data blocks, which count
    their references and own a character array or borrow one.  [Heap] is the
    memory all of them live in.  An object is found by its address; following
    a pointer to what was deleted is a fault, and addresses are not used again.

    A character pointer is an array and an offset in it; [null] is no array.

    [Shared] is the abstract model: chains of views of shared buffers.  The
    theorem [message_blocks_share] says that the objects are this model over
    any history of operations, and counts what is not given back. *)
From S2P Require Import Prelude Block.

(** ** The heap *)

Abbreviation Ptr := (Z * Z)%type (only parsing).
Definition null : Z * Z := (0, 0).

Record DataBlock := mkDB {
  d_curSize : Z;
  d_maxSize : Z;
  d_base : Ptr;
  d_referenceCount : Z;
  d_deleteData : bool }.

Record MessageBlock := mkMB {
  m_rdPtr : Z;
  m_wrPtr : Z;
  m_cont : Z;
  m_next : Z;
  m_prev : Z;
  m_dataBlock : Z }.

Record Heap := mkHeap {
  h_chars : gmap Z (list Z);
  h_data : gmap Z DataBlock;
  h_msgs : gmap Z MessageBlock;
  h_fresh : Z }.

Definition empty_heap : Heap := mkHeap ∅ ∅ ∅ 1.

Definition with_chars c (h : Heap) : Heap := mkHeap c (h_data h) (h_msgs h) (h_fresh h).
Definition with_dbs d (h : Heap) : Heap := mkHeap (h_chars h) d (h_msgs h) (h_fresh h).
Definition with_msgs m (h : Heap) : Heap := mkHeap (h_chars h) (h_data h) m (h_fresh h).

Definition put_array a bs (h : Heap) : Heap := with_chars (<[a := bs]> (h_chars h)) h.
Definition put_db d db (h : Heap) : Heap := with_dbs (<[d := db]> (h_data h)) h.
Definition put_mb m b (h : Heap) : Heap := with_msgs (<[m := b]> (h_msgs h)) h.

(** The next address that no object has had. *)
Definition fresh_address (h : Heap) : Z * Heap :=
  (h_fresh h, mkHeap (h_chars h) (h_data h) (h_msgs h) (h_fresh h + 1)).

(** Following a pointer to an object. *)
Definition follow {A} (m : gmap Z A) (p : Z) : result A :=
  if p =? 0 then Fault NullDeref else
  match m !! p with Some a => Ok a | None => Fault UseAfterFree end.

Definition get_db d (h : Heap) : result DataBlock := follow (h_data h) d.
Definition get_mb m (h : Heap) : result MessageBlock := follow (h_msgs h) m.

(** The bytes from a pointer, and writing there; nothing is touched for a
    length of zero. *)
Definition read_chars (p : Ptr) (n : Z) (h : Heap) : result (list Z) :=
  if n =? 0 then Ok [] else
  bs ← follow (h_chars h) p.1; load p.2 n bs.

Definition write_chars (p : Ptr) (src : list Z) (h : Heap) : result Heap :=
  if #src =? 0 then Ok h else
  bs ← follow (h_chars h) p.1; bs ← store p.2 src bs; Ok (put_array p.1 bs h).

(** [newPtr - base]: defined within one array. *)
Definition ptr_diff (p q : Ptr) : result Z :=
  if p.1 =? q.1 then Ok (p.2 - q.2) else Fault OutOfBounds.

Definition ptr_add (p : Ptr) (n : Z) : Ptr := (p.1, p.2 + n).

(** [delete[] p]: nothing for a null pointer, an array by its start. *)
Definition delete_array (p : Ptr) (h : Heap) : result Heap :=
  if p.1 =? 0 then Ok h else
  if negb (p.2 =? 0) then Fault OutOfBounds else
  _ ← follow (h_chars h) p.1; Ok (with_chars (delete p.1 (h_chars h)) h).

(** ** Data blocks *)

Definition db_with_count n (b : DataBlock) : DataBlock := mkDB (d_curSize b) (d_maxSize b) (d_base b) n (d_deleteData b).
Definition db_with_size n (b : DataBlock) : DataBlock := mkDB n (d_maxSize b) (d_base b) (d_referenceCount b) (d_deleteData b).

Section operations.

Context `{Allocator}.

(** [new char[n]]. *)
Definition new_array (n : Z) (h : Heap) : Ptr * Heap :=
  let '(a, h) := fresh_address h in ((a, 0), put_array a (junk n) h).

(** [new DataBlock (size, msgData, deleteData)]. *)
Definition DataBlock_new (size : Z) (msgData : Ptr) (deleteData : bool) (h : Heap) : result (Z * Heap) :=
  let '(d, h) := fresh_address h in
  '(base, deleteData, h) ←
    (if negb deleteData then
       if (msgData.1 =? 0) && negb (size =? 0) then
         let '(p, h) := new_array size h in Ok (p, true, h)
       else Ok (msgData, deleteData, h)
     else if (msgData.1 =? 0) && negb (size =? 0) then
       let '(p, h) := new_array size h in Ok (p, deleteData, h)
     else if negb (msgData.1 =? 0) && negb (size =? 0) then
       let '(p, h) := new_array size h in
       src ← read_chars msgData size h;
       h ← write_chars p src h; Ok (p, deleteData, h)
     else Ok (msgData, deleteData, h));
  Ok (d, put_db d (mkDB size size base 1 deleteData) h).

(** [delete] of a data block, with its destructor. *)
Definition DataBlock_delete (d : Z) (h : Heap) : result Heap :=
  b ← get_db d h;
  _ ← assert_ (d_referenceCount b =? 0);
  h ← (if d_deleteData b then delete_array (d_base b) h else Ok h);
  Ok (with_dbs (delete d (h_data h)) h).

Definition db_duplicate (d : Z) (h : Heap) : result (Z * Heap) :=
  b ← get_db d h; Ok (d, put_db d (db_with_count (s32 (d_referenceCount b + 1)) b) h).

Definition db_release (d : Z) (h : Heap) : result (Z * Heap) :=
  b ← get_db d h;
  let count := s32 (d_referenceCount b - 1) in
  let h := put_db d (db_with_count count b) h in
  if count =? 0 then h ← DataBlock_delete d h; Ok (0, h) else Ok (d, h).

Definition db_base (d : Z) (h : Heap) : result Ptr := b ← get_db d h; Ok (d_base b).
Definition db_end (d : Z) (h : Heap) : result Ptr := b ← get_db d h; Ok (ptr_add (d_base b) (d_maxSize b)).
Definition db_mark (d : Z) (h : Heap) : result Ptr := b ← get_db d h; Ok (ptr_add (d_base b) (d_curSize b)).
Definition db_size (d : Z) (h : Heap) : result Z := b ← get_db d h; Ok (d_curSize b).
Definition db_capacity (d : Z) (h : Heap) : result Z := b ← get_db d h; Ok (d_maxSize b).
Definition db_referenceCount (d : Z) (h : Heap) : result Z := b ← get_db d h; Ok (d_referenceCount b).

(** [base (msgData, msgLength)]: another array, of the caller. *)
Definition db_set_base (d : Z) (msgData : Ptr) (msgLength : Z) (h : Heap) : result Heap :=
  b ← get_db d h;
  h ← (if d_deleteData b then delete_array (d_base b) h else Ok h);
  Ok (put_db d (mkDB msgLength msgLength msgData (d_referenceCount b) false) h).

(** [size (length)]. *)
Definition db_set_size (d : Z) (length : Z) (h : Heap) : result (Z * Heap) :=
  b ← get_db d h;
  if length <=? d_maxSize b then Ok (0, put_db d (db_with_size length b) h) else
  let '(buf, h) := new_array length h in
  src ← read_chars (d_base b) (d_curSize b) h;
  h ← write_chars buf src h;
  h ← (if d_deleteData b then delete_array (d_base b) h else Ok h);
  Ok (0, put_db d (mkDB length length buf (d_referenceCount b) (d_deleteData b)) h).

Definition db_clone (d : Z) (h : Heap) : result (Z * Heap) :=
  b ← get_db d h;
  '(nb, h) ← DataBlock_new (d_maxSize b) null true h;
  nbase ← db_base nb h;
  src ← read_chars (d_base b) (d_maxSize b) h;
  h ← write_chars nbase src h;
  Ok (nb, h).

Definition db_cloneNoCopy (d : Z) (h : Heap) : result (Z * Heap) :=
  b ← get_db d h; DataBlock_new (d_maxSize b) null true h.

End operations.

(** ** Message blocks *)

Definition mb_with_rd n (b : MessageBlock) : MessageBlock := mkMB n (m_wrPtr b) (m_cont b) (m_next b) (m_prev b) (m_dataBlock b).
Definition mb_with_wr n (b : MessageBlock) : MessageBlock := mkMB (m_rdPtr b) n (m_cont b) (m_next b) (m_prev b) (m_dataBlock b).
Definition mb_with_cont c (b : MessageBlock) : MessageBlock := mkMB (m_rdPtr b) (m_wrPtr b) c (m_next b) (m_prev b) (m_dataBlock b).
Definition mb_with_next c (b : MessageBlock) : MessageBlock := mkMB (m_rdPtr b) (m_wrPtr b) (m_cont b) c (m_prev b) (m_dataBlock b).
Definition mb_with_prev c (b : MessageBlock) : MessageBlock := mkMB (m_rdPtr b) (m_wrPtr b) (m_cont b) (m_next b) c (m_dataBlock b).
Definition mb_with_data d (b : MessageBlock) : MessageBlock := mkMB (m_rdPtr b) (m_wrPtr b) (m_cont b) (m_next b) (m_prev b) d.

(** An assignment to a field of a message block. *)
Definition mb_update (m : Z) (f : MessageBlock → MessageBlock) (h : Heap) : result Heap :=
  b ← get_mb m h; Ok (put_mb m (f b) h).

(** What [new] leaves in the field [m_dataBlock] of a fresh message block: the
    constructor with five arguments does not initialise it. *)
Class FreshBlock := { stale : Heap → Z }.

Section message_blocks.

Context `{Allocator} `{FreshBlock}.

Definition mb_cont (m : Z) (h : Heap) : result Z := b ← get_mb m h; Ok (m_cont b).
Definition mb_set_cont (m c : Z) (h : Heap) : result Heap := mb_update m (mb_with_cont c) h.
Definition mb_next (m : Z) (h : Heap) : result Z := b ← get_mb m h; Ok (m_next b).
Definition mb_set_next (m c : Z) (h : Heap) : result Heap := mb_update m (mb_with_next c) h.
Definition mb_prev (m : Z) (h : Heap) : result Z := b ← get_mb m h; Ok (m_prev b).
Definition mb_set_prev (m c : Z) (h : Heap) : result Heap := mb_update m (mb_with_prev c) h.

(** [base ()], [end ()], [mark ()], [size ()], [capacity ()],
    [referenceCount ()]. *)
Definition mb_base (m : Z) (h : Heap) : result Ptr := b ← get_mb m h; db_base (m_dataBlock b) h.
Definition mb_end (m : Z) (h : Heap) : result Ptr := b ← get_mb m h; db_end (m_dataBlock b) h.
Definition mb_mark (m : Z) (h : Heap) : result Ptr := b ← get_mb m h; db_mark (m_dataBlock b) h.
Definition mb_size (m : Z) (h : Heap) : result Z := b ← get_mb m h; db_size (m_dataBlock b) h.
Definition mb_capacity (m : Z) (h : Heap) : result Z := b ← get_mb m h; db_capacity (m_dataBlock b) h.
Definition mb_referenceCount (m : Z) (h : Heap) : result Z :=
  b ← get_mb m h; if m_dataBlock b =? 0 then Ok 0 else db_referenceCount (m_dataBlock b) h.

(** The pointers as addresses, and set from addresses or moved. *)
Definition mb_rdPtr (m : Z) (h : Heap) : result Ptr :=
  p ← mb_base m h; b ← get_mb m h; Ok (ptr_add p (m_rdPtr b)).
Definition mb_wrPtr (m : Z) (h : Heap) : result Ptr :=
  p ← mb_base m h; b ← get_mb m h; Ok (ptr_add p (m_wrPtr b)).
Definition mb_set_rdPtr (m : Z) (newPtr : Ptr) (h : Heap) : result Heap :=
  p ← mb_base m h; n ← ptr_diff newPtr p; mb_update m (mb_with_rd (u64 n)) h.
Definition mb_set_wrPtr (m : Z) (newPtr : Ptr) (h : Heap) : result Heap :=
  p ← mb_base m h; n ← ptr_diff newPtr p; mb_update m (mb_with_wr (u64 n)) h.
Definition mb_move_rdPtr (m n : Z) (h : Heap) : result Heap :=
  mb_update m (λ b, mb_with_rd (u64 (m_rdPtr b + n)) b) h.
Definition mb_move_wrPtr (m n : Z) (h : Heap) : result Heap :=
  mb_update m (λ b, mb_with_wr (u64 (m_wrPtr b + n)) b) h.

Definition mb_length (m : Z) (h : Heap) : result Z := b ← get_mb m h; Ok (u64 (m_wrPtr b - m_rdPtr b)).
Definition mb_set_length (m len : Z) (h : Heap) : result Heap :=
  mb_update m (λ b, mb_with_wr (u64 (m_rdPtr b + len)) b) h.
Definition mb_space (m : Z) (h : Heap) : result Z :=
  e ← mb_mark m h; w ← mb_wrPtr m h; n ← ptr_diff e w; Ok (u64 n).
Definition mb_reset (m : Z) (h : Heap) : result Heap := mb_update m (λ b, mb_with_wr 0 (mb_with_rd 0 b)) h.

(** [base (msgData, msgLength)]. *)
Definition mb_set_base (m : Z) (msgData : Ptr) (msgLength : Z) (h : Heap) : result Heap :=
  h ← mb_reset m h; b ← get_mb m h; db_set_base (m_dataBlock b) msgData msgLength h.

(** [dataBlock (db)]: the block gives up its data block and takes the caller's
    reference to another. *)
Definition mb_set_dataBlock (m db : Z) (h : Heap) : result Heap :=
  b ← get_mb m h;
  h ← (if negb (m_dataBlock b =? 0) then '(_, h) ← db_release (m_dataBlock b) h; Ok h else Ok h);
  h ← mb_update m (mb_with_data db) h;
  p ← db_base db h;
  h ← mb_set_rdPtr m p h;
  mb_set_wrPtr m p h.

(** [replaceDataBlock (db)]: the caller gets the old one. *)
Definition mb_replaceDataBlock (m db : Z) (h : Heap) : result (Z * Heap) :=
  b ← get_mb m h;
  h ← mb_update m (mb_with_data db) h;
  p ← db_base db h;
  h ← mb_set_rdPtr m p h;
  h ← mb_set_wrPtr m p h;
  Ok (m_dataBlock b, h).

Definition mb_initI (m size cont : Z) (data : Ptr) (deleteData : bool) (db : Z) (h : Heap) : result (Z * Heap) :=
  b ← get_mb m h;
  h ← mb_update m (λ b, mkMB 0 0 cont 0 0 (m_dataBlock b)) h;
  h ← (if negb (m_dataBlock b =? 0) then
         '(_, h) ← db_release (m_dataBlock b) h; mb_update m (mb_with_data 0) h
       else Ok h);
  '(db, h) ← (if db =? 0 then DataBlock_new size data deleteData h else Ok (db, h));
  h ← mb_set_dataBlock m db h;
  Ok (0, h).

(** [new] of a message block: the object before its constructor, with what is
    in [m_dataBlock] when the constructor's body starts. *)
Definition mb_alloc (dataBlock : Z) (h : Heap) : Z * Heap :=
  let '(m, h) := fresh_address h in (m, put_mb m (mkMB 0 0 0 0 0 dataBlock) h).

(** The constructors: [MessageBlock ()], [MessageBlock (dataBlock)],
    [MessageBlock (data, size)], [MessageBlock (size, cont, data, clone)], and
    the protected one with five arguments. *)
Definition MessageBlock_new (h : Heap) : result (Z * Heap) :=
  let '(m, h) := mb_alloc 0 h in '(_, h) ← mb_initI m 0 0 null false 0 h; Ok (m, h).
Definition MessageBlock_of_db (db : Z) (h : Heap) : result (Z * Heap) :=
  let '(m, h) := mb_alloc 0 h in '(_, h) ← mb_initI m 0 0 null false db h; Ok (m, h).
Definition MessageBlock_of_data (data : Ptr) (size : Z) (h : Heap) : result (Z * Heap) :=
  let '(m, h) := mb_alloc 0 h in '(_, h) ← mb_initI m size 0 data false 0 h; Ok (m, h).
Definition MessageBlock_of_size (size cont : Z) (data : Ptr) (clone : bool) (h : Heap) : result (Z * Heap) :=
  let '(m, h) := mb_alloc 0 h in '(_, h) ← mb_initI m size cont data clone 0 h; Ok (m, h).
Definition MessageBlock_new5 (size cont : Z) (data : Ptr) (deleteData : bool) (db : Z) (h : Heap) : result (Z * Heap) :=
  let '(m, h) := mb_alloc (stale h) h in '(_, h) ← mb_initI m size cont data deleteData db h; Ok (m, h).

(** [init (size, cont, data)] and [init (data, size)]. *)
Definition mb_init (m size cont : Z) (data : Ptr) (h : Heap) : result (Z * Heap) :=
  mb_initI m size cont data (negb (data.1 =? 0)) 0 h.
Definition mb_init_data (m : Z) (data : Ptr) (size : Z) (h : Heap) : result (Z * Heap) :=
  mb_initI m size 0 data false 0 h.

(** [delete] of a message block, with its destructor. *)
Definition MessageBlock_delete (m : Z) (h : Heap) : result Heap :=
  b ← get_mb m h;
  h ← (if negb (m_dataBlock b =? 0) then '(_, h) ← db_release (m_dataBlock b) h; Ok h else Ok h);
  h ← mb_update m (λ b, mb_with_next 0 (mb_with_prev 0 b)) h;
  Ok (with_msgs (delete m (h_msgs h)) h).

(** [release ()]: the loop over the continuations, then the block itself. *)
Fixpoint release_conts (fuel : nat) (mb : Z) (h : Heap) : result Heap :=
  match fuel with
  | O => Fault OutOfFuel
  | S fuel =>
      let tmp := mb in
      b ← get_mb tmp h;
      let mb := m_cont b in
      h ← mb_set_cont tmp 0 h;
      h ← (if negb (m_dataBlock b =? 0) then '(_, h) ← db_release (m_dataBlock b) h; Ok h else Ok h);
      if negb (mb =? 0) then release_conts fuel mb h else Ok h
  end.

(** The number of message blocks bounds the length of a chain. *)
Definition chain_fuel (h : Heap) : nat := S (size (h_msgs h)).

Definition mb_release (m : Z) (h : Heap) : result (Z * Heap) :=
  b ← get_mb m h;
  h ← (if negb (m_cont b =? 0) then
         h ← release_conts (chain_fuel h) (m_cont b) h; mb_set_cont m 0 h
       else Ok h);
  b ← get_mb m h;
  h ← (if negb (m_dataBlock b =? 0) then
         '(_, h) ← db_release (m_dataBlock b) h; mb_update m (mb_with_data 0) h
       else Ok h);
  h ← MessageBlock_delete m h;
  Ok (0, h).

(** [duplicate ()]: a chain of new blocks on the same data blocks. *)
Fixpoint mb_duplicate_ (fuel : nat) (m : Z) (h : Heap) : result (Z * Heap) :=
  match fuel with
  | O => Fault OutOfFuel
  | S fuel =>
      b ← get_mb m h;
      '(db, h) ← db_duplicate (m_dataBlock b) h;
      '(nb, h) ← MessageBlock_new5 0 0 null false db h;
      h ← mb_move_rdPtr nb (m_rdPtr b) h;
      h ← mb_move_wrPtr nb (m_wrPtr b) h;
      if negb (m_cont b =? 0) then
        '(c, h) ← mb_duplicate_ fuel (m_cont b) h;
        h ← mb_set_cont nb c h;
        if c =? 0 then '(_, h) ← mb_release nb h; Ok (0, h) else Ok (nb, h)
      else Ok (nb, h)
  end.
Definition mb_duplicate (m : Z) (h : Heap) : result (Z * Heap) := mb_duplicate_ (chain_fuel h) m h.

(** [clone ()]: a chain of new blocks on copies of the data blocks. *)
Fixpoint mb_clone_ (fuel : nat) (m : Z) (h : Heap) : result (Z * Heap) :=
  match fuel with
  | O => Fault OutOfFuel
  | S fuel =>
      b ← get_mb m h;
      '(db, h) ← db_clone (m_dataBlock b) h;
      if db =? 0 then Ok (0, h) else
      '(nb, h) ← MessageBlock_new5 0 0 null false db h;
      if nb =? 0 then '(_, h) ← db_release db h; Ok (0, h) else
      h ← mb_move_rdPtr nb (m_rdPtr b) h;
      h ← mb_move_wrPtr nb (m_wrPtr b) h;
      if negb (m_cont b =? 0) then
        '(c, h) ← mb_clone_ fuel (m_cont b) h;
        h ← mb_set_cont nb c h;
        if c =? 0 then '(_, h) ← mb_release nb h; Ok (0, h) else Ok (nb, h)
      else Ok (nb, h)
  end.
Definition mb_clone (m : Z) (h : Heap) : result (Z * Heap) := mb_clone_ (chain_fuel h) m h.

(** The static [duplicate (mb)] and [release (mb)], for null pointers too. *)
Definition mb_duplicate_s (m : Z) (h : Heap) : result (Z * Heap) := if m =? 0 then Ok (0, h) else mb_duplicate m h.
Definition mb_release_s (m : Z) (h : Heap) : result (Z * Heap) := if m =? 0 then Ok (0, h) else mb_release m h.

(** [copy (buf, n)] and [copy (buf)]. *)
Definition mb_copy (m : Z) (buf : list Z) (n : Z) (h : Heap) : result (Z * Heap) :=
  e ← mb_end m h; w ← mb_wrPtr m h; len ← ptr_diff e w;
  if u64 len <? n then Ok (-1, h) else
  src ← load 0 n buf;
  h ← write_chars w src h;
  h ← mb_move_wrPtr m n h;
  Ok (0, h).
Definition mb_copy_str (m : Z) (buf : list Z) (h : Heap) : result (Z * Heap) :=
  e ← mb_end m h; w ← mb_wrPtr m h; len ← ptr_diff e w;
  s ← c_str buf;
  let bufLen := #s + 1 in
  if u64 len <? bufLen then Ok (-1, h) else
  src ← load 0 bufLen buf;
  h ← write_chars w src h;
  h ← mb_move_wrPtr m bufLen h;
  Ok (0, h).

(** [crunch ()]. *)
Definition mb_crunch (m : Z) (h : Heap) : result Heap :=
  r ← mb_rdPtr m h; p ← mb_base m h; n ← ptr_diff r p;
  if n >? 0 then
    len ← mb_length m h;
    src ← read_chars r len h;
    h ← write_chars p src h;
    h ← mb_set_rdPtr m p h;
    mb_set_wrPtr m (ptr_add p len) h
  else Ok h.

(** [size (length)]. *)
Definition mb_set_size (m length : Z) (h : Heap) : result (Z * Heap) :=
  b ← get_mb m h; '(r, h) ← db_set_size (m_dataBlock b) length h;
  if r =? -1 then Ok (-1, h) else Ok (0, h).

(** [totalLength ()], [totalSize ()], [totalCapacity ()]: a loop over the
    chain that adds up one function of the blocks. *)
Fixpoint total (fuel : nat) (f : Z → Heap → result Z) (m acc : Z) (h : Heap) : result Z :=
  match fuel with
  | O => Fault OutOfFuel
  | S fuel =>
      if m =? 0 then Ok acc else
      n ← f m h; c ← mb_cont m h; total fuel f c (u64 (acc + n)) h
  end.
Definition mb_totalLength (m : Z) (h : Heap) : result Z := total (chain_fuel h) mb_length m 0 h.
Definition mb_totalSize (m : Z) (h : Heap) : result Z := total (chain_fuel h) mb_size m 0 h.
Definition mb_totalCapacity (m : Z) (h : Heap) : result Z := total (chain_fuel h) mb_capacity m 0 h.

End message_blocks.

(** ** The abstract model: chains of views of shared buffers *)

(** A view has a buffer and a read and a write offset of its own; a buffer is
    the size in use and the bytes. *)
Record View := mkView { v_buf : nat; v_rd : Z; v_wr : Z }.

Record Shared := mkShared {
  s_chains : list (list View);
  s_bufs : gmap nat (Z * list Z);
  s_next : nat;
  s_lost : nat }.

Definition no_blocks : Shared := mkShared [] ∅ 0 0.

(** What a client does with its handles, the pointers to the heads of chains:
    [i] is the number of a handle, [k] that of a block in the chain. *)
Inductive BlockOp :=
  | BNew (size : Z)
  | BDuplicate (i : nat)
  | BClone (i : nat)
  | BRelease (i : nat)
  | BLink (i j : nat)
  | BCopy (i k : nat) (bs : list Z)
  | BResize (i k : nat) (n : Z)
  | BSkip (i k : nat) (n : Z).

Definition ids_of (cs : list (list View)) : list nat := v_buf <$> mjoin cs.

(** Buffers that somebody refers to. *)
Definition keep {A} (ids : list nat) (m : gmap nat A) : gmap nat A := filter (λ p, p.1 ∈ ids) m.

Section abstract.

Context `{Allocator}.

(** The views of a clone, on new buffers with the whole capacity in use. *)
Fixpoint clone_views (vs : list View) (bufs : gmap nat (Z * list Z)) (n : nat)
    : list View * gmap nat (Z * list Z) * nat :=
  match vs with
  | [] => ([], bufs, n)
  | v :: vs =>
      let bs := (default (0, []) (bufs !! v_buf v)).2 in
      let '(vs', bufs, n') := clone_views vs (<[n := (#bs, bs)]> bufs) (S n) in
      (mkView n (v_rd v) (v_wr v) :: vs', bufs, n')
  end.

(** Writing at an offset, and the bytes of a larger buffer. *)
Definition patched (off : Z) (bs m : list Z) : list Z :=
  take (Z.to_nat off) m ++ bs ++ drop (Z.to_nat off + length bs) m.

(** One operation; [None] where the client may not: an index out of range, an
    empty buffer, 2^31 blocks at a time, reading past the write pointer. *)
Definition block_step (o : BlockOp) (s : Shared) : option Shared :=
  match o with
  | BNew size =>
      if bool_decide (0 < size < 2 ^ 62 ∧ #(ids_of (s_chains s)) + 1 < 2 ^ 31) then
        Some (mkShared (s_chains s ++ [[mkView (s_next s) 0 0]]) (<[s_next s := (size, junk size)]> (s_bufs s)) (S (s_next s)) (s_lost s))
      else None
  | BDuplicate i =>
      c ← s_chains s !! i;
      if bool_decide (#(ids_of (s_chains s)) + #c < 2 ^ 31) then
        Some (mkShared (s_chains s ++ [c]) (s_bufs s) (s_next s) (s_lost s))
      else None
  | BClone i =>
      c ← s_chains s !! i;
      if bool_decide (#(ids_of (s_chains s)) + #c < 2 ^ 31) then
        let '(vs, bufs, n) := clone_views c (s_bufs s) (s_next s) in
        Some (mkShared (s_chains s ++ [vs]) bufs n (s_lost s))
      else None
  | BRelease i =>
      c ← s_chains s !! i;
      let cs := delete i (s_chains s) in
      Some (mkShared cs (keep (ids_of cs) (s_bufs s)) (s_next s) (s_lost s + (length c - 1)))
  | BLink i j =>
      if bool_decide (i = j) then None else
      c ← s_chains s !! i; d ← s_chains s !! j;
      Some (mkShared (delete j (<[i := c ++ d]> (s_chains s))) (s_bufs s) (s_next s) (s_lost s))
  | BCopy i k bs =>
      c ← s_chains s !! i; v ← c !! k; '(cur, m) ← s_bufs s !! v_buf v;
      if #m - v_wr v <? #bs then Some s else
      Some (mkShared (<[i := <[k := mkView (v_buf v) (v_rd v) (v_wr v + #bs)]> c]> (s_chains s))
              (<[v_buf v := (cur, patched (v_wr v) bs m)]> (s_bufs s)) (s_next s) (s_lost s))
  | BResize i k n =>
      if bool_decide (0 ≤ n < 2 ^ 62) then
        c ← s_chains s !! i; v ← c !! k; '(cur, m) ← s_bufs s !! v_buf v;
        let buf := if n <=? #m then (n, m) else (n, patched 0 (take (Z.to_nat cur) m) (junk n)) in
        Some (mkShared (s_chains s) (<[v_buf v := buf]> (s_bufs s)) (s_next s) (s_lost s))
      else None
  | BSkip i k n =>
      c ← s_chains s !! i; v ← c !! k;
      if bool_decide (0 ≤ n ∧ v_rd v + n ≤ v_wr v) then
        Some (mkShared (<[i := <[k := mkView (v_buf v) (v_rd v + n) (v_wr v)]> c]> (s_chains s)) (s_bufs s) (s_next s) (s_lost s))
      else None
  end.

Fixpoint block_steps (os : list BlockOp) (s : Shared) : option Shared :=
  match os with [] => Some s | o :: os => s ← block_step o s; block_steps os s end.

(** What a handle shows: for each block of its chain the size in use, the
    capacity and the bytes from the read to the write pointer. *)
Definition shows (s : Shared) (c : list View) : list (Z * Z * list Z) :=
  (λ v, let '(cur, m) := default (0, []) (s_bufs s !! v_buf v) in (cur, #m, slice (v_rd v) (v_wr v) m)) <$> c.

(** ** The same on the objects *)

Context `{FreshBlock}.

Definition handle (hs : list Z) (i : nat) : result Z :=
  match hs !! i with Some m => Ok m | None => Fault OutOfBounds end.

Fixpoint nth_cont (k : nat) (m : Z) (h : Heap) : result Z :=
  match k with O => Ok m | S k => c ← mb_cont m h; nth_cont k c h end.

(** The last block of a chain. *)
Fixpoint last_cont (fuel : nat) (m : Z) (h : Heap) : result Z :=
  match fuel with
  | O => Fault OutOfFuel
  | S fuel => c ← mb_cont m h; if c =? 0 then Ok m else last_cont fuel c h
  end.

Definition block_op (o : BlockOp) (hs : list Z) (h : Heap) : result (list Z * Heap) :=
  match o with
  | BNew size => '(m, h) ← MessageBlock_of_size size 0 null false h; Ok (hs ++ [m], h)
  | BDuplicate i => m ← handle hs i; '(m, h) ← mb_duplicate m h; Ok (hs ++ [m], h)
  | BClone i => m ← handle hs i; '(m, h) ← mb_clone m h; Ok (hs ++ [m], h)
  | BRelease i => m ← handle hs i; '(_, h) ← mb_release m h; Ok (delete i hs, h)
  | BLink i j =>
      m ← handle hs i; m' ← handle hs j; t ← last_cont (chain_fuel h) m h;
      h ← mb_set_cont t m' h; Ok (delete j hs, h)
  | BCopy i k bs => m ← handle hs i; m ← nth_cont k m h; '(_, h) ← mb_copy m bs (#bs) h; Ok (hs, h)
  | BResize i k n => m ← handle hs i; m ← nth_cont k m h; '(_, h) ← mb_set_size m n h; Ok (hs, h)
  | BSkip i k n => m ← handle hs i; m ← nth_cont k m h; h ← mb_move_rdPtr m n h; Ok (hs, h)
  end.

Fixpoint block_ops (os : list BlockOp) (hs : list Z) (h : Heap) : result (list Z * Heap) :=
  match os with [] => Ok (hs, h) | o :: os => '(hs, h) ← block_op o hs h; block_ops os hs h end.

(** What a handle shows, read from the objects. *)
Fixpoint mb_shows (fuel : nat) (m : Z) (h : Heap) : result (list (Z * Z * list Z)) :=
  match fuel with
  | O => Fault OutOfFuel
  | S fuel =>
      if m =? 0 then Ok [] else
      cur ← mb_size m h; cap ← mb_capacity m h; r ← mb_rdPtr m h; len ← mb_length m h;
      bs ← read_chars r len h; c ← mb_cont m h; rest ← mb_shows fuel c h;
      Ok ((cur, cap, bs) :: rest)
  end.

End abstract.

(** *** The link of the two *)

(** [c] is the chain of blocks from [m]. *)
Fixpoint linked (h : Heap) (m : Z) (c : list Z) : Prop :=
  match c with
  | [] => m = 0
  | x :: c => m = x ∧ ∃ b, h_msgs h !! x = Some b ∧ linked h (m_cont b) c
  end.

(** The block [m] is the view [v]; [r] gives the data block of a buffer. *)
Definition sees (h : Heap) (r : gmap nat Z) (m : Z) (v : View) : Prop :=
  ∃ b, h_msgs h !! m = Some b ∧ m_rdPtr b = v_rd v ∧ m_wrPtr b = v_wr v ∧ r !! v_buf v = Some (m_dataBlock b).

Definition times (i : nat) (l : list nat) : Z := Z.of_nat (length (filter (λ j, j = i) l)).

(** A data block with an array of its own that holds a buffer. *)
Definition holds (h : Heap) (db : DataBlock) (buf : Z * list Z) : Prop :=
  d_curSize db = buf.1 ∧ d_maxSize db = #(buf.2) ∧ 0 ≤ buf.1 ≤ #(buf.2) ∧ 0 < #(buf.2) < 2 ^ 62 ∧
  d_deleteData db = true ∧ (d_base db).2 = 0 ∧ 0 < (d_base db).1 ∧ h_chars h !! (d_base db).1 = Some buf.2.

(** The data blocks are the buffers, each referenced as often as [ids] says
    and each with an array of its own; there are no other arrays. *)
Record data_ok (h : Heap) (r : gmap nat Z) (bufs : gmap nat (Z * list Z)) (ids : list nat) : Prop := mkDataOk {
  do_inj : ∀ i j d, r !! i = Some d → r !! j = Some d → i = j;
  do_live : ∀ i d, r !! i = Some d → ∃ db buf, h_data h !! d = Some db ∧ bufs !! i = Some buf ∧
     holds h db buf ∧ d_referenceCount db = times i ids;
  do_ids : ∀ i, i ∈ ids ↔ is_Some (r !! i);
  do_data : ∀ d, is_Some (h_data h !! d) → ∃ i, r !! i = Some d;
  do_bufs : ∀ i, is_Some (bufs !! i) → is_Some (r !! i);
  do_chars : ∀ a, is_Some (h_chars h !! a) → ∃ d db, h_data h !! d = Some db ∧ (d_base db).1 = a;
  do_own : ∀ d d' db db', h_data h !! d = Some db → h_data h !! d' = Some db' → (d_base db).1 = (d_base db').1 → d = d';
  do_fresh : (∀ a, is_Some (h_chars h !! a) → 0 < a < h_fresh h) ∧ (∀ d, is_Some (h_data h !! d) → 0 < d < h_fresh h) }.

Definition msgs_ok (h : Heap) : Prop := 0 < h_fresh h ∧ ∀ m, is_Some (h_msgs h !! m) → 0 < m < h_fresh h.

Definition view_ok (bufs : gmap nat (Z * list Z)) (v : View) : Prop :=
  ∃ buf, bufs !! v_buf v = Some buf ∧ 0 ≤ v_rd v ≤ v_wr v ∧ v_wr v ≤ #(buf.2).

Record related (hs : list Z) (h : Heap) (s : Shared) (cs : list (list Z)) (r : gmap nat Z) : Prop := mkRelated {
  re_linked : Forall2 (linked h) hs cs;
  re_ends : Forall (λ c, c ≠ []) cs;
  re_sees : Forall2 (Forall2 (sees h r)) cs (s_chains s);
  re_nodup : NoDup (mjoin cs);
  re_data : data_ok h r (s_bufs s) (ids_of (s_chains s));
  re_msgs : msgs_ok h;
  re_views : Forall (view_ok (s_bufs s)) (mjoin (s_chains s));
  re_next : ∀ i, is_Some (r !! i) → (i < s_next s)%nat;
  re_bound : #(ids_of (s_chains s)) < 2 ^ 31;
  re_lost : size (h_msgs h) = (length (mjoin cs) + s_lost s)%nat }.

(** ** Lemmas on data blocks *)

Lemma times_cons i j l : times i (j :: l) = (if decide (j = i) then 1 else 0) + times i l.
Proof. unfold times. rewrite filter_cons. case_decide; cbn [length]; lia. Qed.

Lemma times_app i l k : times i (l ++ k) = times i l + times i k.
Proof. unfold times. rewrite filter_app, length_app. lia. Qed.

Lemma times_nonneg i l : 0 ≤ times i l ≤ #l.
Proof. unfold times. pose proof (length_filter (λ j, j = i) l). lia. Qed.

Lemma times_pos i l : i ∈ l ↔ 0 < times i l.
Proof.
  induction l as [|j l IH]; [unfold times; cbn; split; [by intros ?%not_elem_of_nil|lia]|].
  rewrite times_cons, elem_of_cons. pose proof (times_nonneg i l). case_decide; naive_solver lia.
Qed.

Lemma times_perm i l k : l ≡ₚ k → times i l = times i k.
Proof. intros Hp. unfold times. by rewrite Hp. Qed.

(** Order does not matter in the list of references. *)
#[export] Instance data_ok_proper h r bufs : Proper ((≡ₚ) ==> iff) (data_ok h r bufs).
Proof.
  assert (∀ l k, l ≡ₚ k → data_ok h r bufs l → data_ok h r bufs k) as Hone.
  { intros l k Hp [Hi Hl Hd Ha Hb Hc Ho Hf]. constructor; try done.
    - intros i d Hr. destruct (Hl i d Hr) as (db & buf & ? & ? & ? & ?). exists db, buf. by rewrite <- (times_perm i l k Hp).
    - intros i. rewrite <- Hd. by rewrite Hp. }
  intros l k Hp. split; apply Hone; done.
Qed.

(** Nothing here depends on the message blocks. *)
Lemma data_ok_msgs h h' r bufs ids :
  data_ok h r bufs ids → h_data h' = h_data h → h_chars h' = h_chars h → h_fresh h ≤ h_fresh h' →
  data_ok h' r bufs ids.
Proof.
  intros [Hi Hl Hd Ha Hb Hc Ho [Hf1 Hf2]] E1 E2 Hle. constructor; try done.
  - intros i d Hr. destruct (Hl i d Hr) as (db & buf & ? & ? & Hh & ?). exists db, buf. rewrite E1.
    unfold holds in *. by rewrite E2.
  - by rewrite E1.
  - rewrite E2, E1. done.
  - by rewrite E1.
  - split; [rewrite E2 | rewrite E1]; intros x Hx; [specialize (Hf1 x Hx) | specialize (Hf2 x Hx)]; lia.
Qed.

Lemma follow_ok {A} (m : gmap Z A) p a : m !! p = Some a → p ≠ 0 → follow m p = Ok a.
Proof. intros E Hp. unfold follow. rewrite (proj2 (Z.eqb_neq _ _)) by done. by rewrite E. Qed.

Lemma keep_lookup {A} ids (m : gmap nat A) i : i ∈ ids → keep ids m !! i = m !! i.
Proof.
  intros Hi. unfold keep. destruct (m !! i) as [x|] eqn:E.
  - apply map_lookup_filter_Some. done.
  - apply map_lookup_filter_None. by left.
Qed.

Lemma keep_Some {A} ids (m : gmap nat A) i x : keep ids m !! i = Some x ↔ m !! i = Some x ∧ i ∈ ids.
Proof. unfold keep. by rewrite map_lookup_filter_Some. Qed.

Lemma keep_all {A} ids (m : gmap nat A) : (∀ i, is_Some (m !! i) → i ∈ ids) → keep ids m = m.
Proof. intros Hall. unfold keep. apply map_filter_id. intros i x E. apply Hall. by eexists. Qed.

Lemma keep_keep {A} ids ids' (m : gmap nat A) : ids' ⊆ ids → keep ids' (keep ids m) = keep ids' m.
Proof.
  intros Hs. apply map_eq. intros i. apply option_eq. intros x. rewrite !keep_Some. naive_solver.
Qed.

Section data.

Context `{Allocator}.

(** One buffer changes: its count, its bytes, or its array for a new one. *)
Lemma data_ok_update h h' r bufs buf' ids ids' i d db db' :
  data_ok h r bufs ids → r !! i = Some d → h_data h !! d = Some db →
  h_data h' = <[d := db']> (h_data h) → h_fresh h ≤ h_fresh h' →
  holds h' db' buf' → d_referenceCount db' = times i ids' →
  (∀ j, j ≠ i → times j ids' = times j ids) → i ∈ ids' →
  (∀ a, a ≠ (d_base db).1 → a ≠ (d_base db').1 → h_chars h' !! a = h_chars h !! a) →
  (d_base db').1 = (d_base db).1 ∨ h_fresh h ≤ (d_base db').1 < h_fresh h' ∧ h_chars h' !! (d_base db).1 = None →
  data_ok h' r (<[i := buf']> bufs) ids'.
Proof.
  intros [Hi Hl Hd Ha Hb Hc Ho [Hf1 Hf2]] Hr Hdb Edata Hle Hh Hct Hothers Hin Hchars Hbase.
  assert (∀ d1 b1, d1 ≠ d → h_data h !! d1 = Some b1 → (d_base b1).1 ≠ (d_base db).1 ∧ (d_base b1).1 ≠ (d_base db').1) as Hne.
  { intros d1 b1 Hd1 E1.
    assert ((d_base b1).1 ≠ (d_base db).1) as H1 by (intros E; apply Hd1; eapply Ho; eauto).
    split; [done|]. destruct Hbase as [->|[? _]]; [done|].
    destruct (Ha d1) as [j Hj]; [by eexists|]. destruct (Hl j d1 Hj) as (b2 & buf & E2 & _ & Hh2 & _).
    simplify_eq. destruct Hh2 as (_ & _ & _ & _ & _ & _ & _ & Hch). specialize (Hf1 _ (mk_is_Some _ _ Hch)). lia. }
  constructor; try rewrite Edata; try done.
  - intros j d' Hj. destruct (Hl j d' Hj) as (b1 & buf1 & E1 & E2 & Hh1 & Hct1).
    destruct (decide (d' = d)) as [->|Hd'].
    + assert (j = i) as -> by (by eapply Hi). exists db', buf'. by rewrite !lookup_insert_eq.
    + assert (j ≠ i) as Hji by (intros ->; congruence).
      exists b1, buf1. rewrite !lookup_insert_ne by done. split_and!; try done.
      * destruct (Hne d' b1 Hd' E1) as [N1 N2]. unfold holds in *. by rewrite Hchars.
      * by rewrite Hothers.
  - intros j. rewrite <- Hd. destruct (decide (j = i)) as [->|Hji].
    + split; [|done]. intros _. apply Hd. by eexists.
    + by rewrite !times_pos, Hothers.
  - intros d'. rewrite lookup_insert_is_Some. intros [<- |[_ ?]]; eauto.
  - intros j. rewrite lookup_insert_is_Some. intros [<- |[_ ?]]; eauto.
  - intros a [x Ha']. destruct (decide (a = (d_base db').1)) as [->|N].
    { exists d, db'. by rewrite lookup_insert_eq. }
    assert (a ≠ (d_base db).1) as N' by (intros ->; destruct Hbase as [?|[_ ?]]; congruence).
    rewrite Hchars in Ha' by done. destruct (Hc a) as (d' & b' & E & Ea); [by eexists|].
    exists d', b'. split; [|done]. rewrite lookup_insert_ne; [done|]. intros <-. congruence.
  - intros d1 d2 b1 b2. rewrite !lookup_insert_Some. intros [[<- <-]|[N1 E1]] [[<- <-]|[N2 E2]] E; eauto.
    + destruct (Hne d2 b2) as [_ ?]; [done..|]. congruence.
    + destruct (Hne d1 b1) as [_ ?]; [done..|]. congruence.
  - split.
    + intros a [x Ha']. destruct (decide (a = (d_base db').1)) as [->|N].
      * destruct Hbase as [E|[? _]]; [|destruct Hh as (_ & _ & _ & _ & _ & _ & ? & _); lia].
        destruct (Hl i d Hr) as (b1 & buf1 & E1 & _ & Hh1 & _). simplify_eq. destruct Hh1 as (_ & _ & _ & _ & _ & _ & _ & Hch).
        rewrite E. specialize (Hf1 _ (mk_is_Some _ _ Hch)). lia.
      * assert (a ≠ (d_base db).1) as N' by (intros ->; destruct Hbase as [?|[_ ?]]; congruence).
        rewrite Hchars in Ha' by done. specialize (Hf1 a (mk_is_Some _ _ Ha')). lia.
    + intros d'. rewrite lookup_insert_is_Some. intros [<- |[_ Hs]].
      * specialize (Hf2 d (mk_is_Some _ _ Hdb)). lia.
      * specialize (Hf2 d' Hs). lia.
Qed.

(** A change of the count alone. *)
Lemma data_ok_count h r bufs ids ids' i d db n :
  data_ok h r bufs ids → r !! i = Some d → h_data h !! d = Some db → n = times i ids' →
  (∀ j, j ≠ i → times j ids' = times j ids) → i ∈ ids' →
  data_ok (put_db d (db_with_count n db) h) r bufs ids'.
Proof.
  intros Hok Hr Hdb Hn Hothers Hin. destruct (do_live _ _ _ _ Hok i d Hr) as (b1 & buf & E1 & E2 & Hh & _).
  simplify_eq. rewrite <- (insert_id bufs i buf E2).
  eapply data_ok_update; try done. by left.
Qed.

(** One more reference to a buffer. *)
Lemma db_duplicate_ok h r bufs ids i d :
  data_ok h r bufs ids → r !! i = Some d → #ids < 2 ^ 31 - 1 →
  ∃ db, db_duplicate d h = Ok (d, put_db d db h) ∧ data_ok (put_db d db h) r bufs (i :: ids).
Proof.
  intros Hok Hr Hlen. destruct (do_live _ _ _ _ Hok i d Hr) as (db & buf & Hdb & Hbuf & Hh & Hct).
  assert (0 < d < h_fresh h) as Hd0 by (apply (do_fresh _ _ _ _ Hok); by eexists).
  unfold db_duplicate, get_db. rewrite (follow_ok _ _ _ Hdb), bind_Ok by lia.
  eexists. split; [reflexivity|]. pose proof (times_nonneg i ids).
  eapply data_ok_count; try done.
  - rewrite times_cons, decide_True, Hct, swrap_small; [lia|lia| |done]. split; cbn; lia.
  - intros j Hj. rewrite times_cons, decide_False by done. lia.
  - by left.
Qed.

(** One reference less: the last one takes the data block and its array. *)
Lemma db_release_ok h r bufs ids i d :
  data_ok h r bufs (i :: ids) → #ids < 2 ^ 31 - 1 → r !! i = Some d →
  ∃ x h', db_release d h = Ok (x, h') ∧ h_msgs h' = h_msgs h ∧ h_fresh h' = h_fresh h ∧
    data_ok h' (keep ids r) (keep ids bufs) ids.
Proof.
  intros Hok Hlen Hr. pose proof Hok as [Hi Hl Hd Ha Hb Hc Ho [Hf1 Hf2]].
  destruct (Hl i d Hr) as (db & buf & Hdb & Hbuf & Hh & Hct).
  assert (0 < d < h_fresh h) as Hd0 by (apply Hf2; by eexists).
  rewrite times_cons, decide_True in Hct by done. pose proof (times_nonneg i ids) as Hn.
  unfold db_release, get_db. rewrite (follow_ok _ _ _ Hdb), bind_Ok by lia. cbv zeta.
  replace (s32 _) with (times i ids) by (rewrite Hct, swrap_small; [lia|lia|split; cbn; lia]).
  assert (∀ j, j ∈ ids → is_Some (r !! j)) as Hids by (intros j Hj; apply Hd; by right).
  split_if.
  - (* the last reference *)
    assert (i ∉ ids) as Hni by (rewrite times_pos; lia).
    assert (∀ j, is_Some (r !! j) → j ≠ i → j ∈ ids) as Hrest.
    { intros j Hj Hne. apply Hd in Hj as [->|]%elem_of_cons; done. }
    destruct Hh as (? & ? & ? & ? & Hdel & Hb0 & Hbp & Hch).
    unfold DataBlock_delete, get_db. cbn [put_db with_dbs h_data]. erewrite follow_ok; [|by rewrite lookup_insert_eq|lia].
    rewrite bind_Ok. cbn [db_with_count d_referenceCount d_deleteData d_base]. rewrite Hdel.
    replace (times i ids =? 0) with true by (symmetry; by apply Z.eqb_eq). cbn [assert_]. rewrite bind_Ok.
    unfold delete_array. rewrite (proj2 (Z.eqb_neq _ 0)) by lia. rewrite Hb0. cbn [Z.eqb negb].
    cbn [put_db with_dbs h_chars]. erewrite follow_ok by (done || lia). rewrite !bind_Ok.
    eexists _, _. split; [reflexivity|]. cbn [with_dbs with_chars h_data h_chars h_msgs h_fresh].
    split_and!; [done..|].
    assert (∀ j d', r !! j = Some d' → j ≠ i → d' ≠ d) as Hdd by (intros j d' E1 E2 ->; eauto).
    constructor; cbn [put_db with_dbs with_chars h_data h_chars h_msgs h_fresh]; rewrite ?delete_insert_eq.
    + intros j k d'. rewrite !keep_Some. intros [? _] [? _]. eauto.
    + intros j d'. rewrite keep_Some. intros [Hj Hjn]. destruct (Hl j d' Hj) as (db' & buf' & E1 & E2 & Hh' & Hct').
      assert (j ≠ i) as Hji by (intros ->; done). assert (d' ≠ d) as Hne by eauto.
      exists db', buf'. rewrite lookup_delete_ne by done. rewrite keep_lookup by done. split_and!; [done|done| |].
      * unfold holds in *. cbn [put_db with_dbs with_chars h_chars]. rewrite lookup_delete_ne; [done|].
        intros E. apply Hne. symmetry. eapply Ho; eauto.
      * rewrite Hct', times_cons, decide_False by done. lia.
    + intros j. split.
      * intros Hj. destruct (Hids j Hj) as [d' Hd']. exists d'. by rewrite keep_lookup.
      * intros [d' Hd']. by apply keep_Some in Hd' as [_ ?].
    + intros d' [x Hx]. apply lookup_delete_Some in Hx as [Hne Hx]. destruct (Ha d') as [j Hj]; [by eexists|].
      exists j. apply keep_Some. split; [done|]. apply Hrest; [by eexists|]. intros ->. congruence.
    + intros j [x Hx]. apply keep_Some in Hx as [Hx Hj]. rewrite keep_lookup by done. apply Hb. by eexists.
    + intros a [x Hx]. apply lookup_delete_Some in Hx as [Hne Hx]. destruct (Hc a) as (d' & db' & E & Ea); [by eexists|].
      exists d', db'. split; [|done]. rewrite lookup_delete_ne; [done|]. intros ->. congruence.
    + intros d1 d2 b1 b2 [_ E1]%lookup_delete_Some [_ E2]%lookup_delete_Some. eauto.
    + split.
      * intros a [x [_ Hx]%lookup_delete_Some]. eauto.
      * intros d' [x [_ Hx]%lookup_delete_Some]. eauto.
  - (* still in use *)
    assert (i ∈ ids) as Hin by (rewrite times_pos; lia).
    eexists _, _. split; [reflexivity|]. split_and!; [done..|].
    assert (∀ j, is_Some (r !! j) → j ∈ ids) as Hin' by (intros j Hj; apply Hd in Hj as [->|]%elem_of_cons; done).
    rewrite !keep_all by eauto.
    eapply data_ok_count; try done.
    intros j Hj. rewrite times_cons, decide_False by done. lia.
Qed.

Lemma store_patched off bs m : 0 ≤ off → off + #bs ≤ #m → store off bs m = Ok (patched off bs m).
Proof. intros H1 H2. unfold store. by rewrite !(proj2 (Z.leb_le _ _)) by lia. Qed.

Lemma patched_length off bs m : 0 ≤ off → off + #bs ≤ #m → #(patched off bs m) = #m.
Proof. intros. unfold patched. rewrite !length_app, length_take, length_drop. lia. Qed.

Lemma patched_all bs m : #bs = #m → patched 0 bs m = bs.
Proof. intros E. unfold patched. cbn. rewrite drop_ge by lia. apply app_nil_r. Qed.

(** A data block on a new array. *)
Lemma DataBlock_new_ok h r bufs ids i n del :
  data_ok h r bufs ids → 0 < h_fresh h → 0 < n < 2 ^ 62 → r !! i = None →
  ∃ h', DataBlock_new n null del h = Ok (h_fresh h, h') ∧ h_msgs h' = h_msgs h ∧ h_fresh h' = h_fresh h + 2 ∧
    h_data h' = <[h_fresh h := mkDB n n (h_fresh h + 1, 0) 1 true]> (h_data h) ∧
    h_chars h' = <[h_fresh h + 1 := junk n]> (h_chars h) ∧
    data_ok h' (<[i := h_fresh h]> r) (<[i := (n, junk n)]> bufs) (i :: ids).
Proof.
  intros [Hi Hl Hd Ha Hb Hc Ho [Hf1 Hf2]] Hfr Hn Hr.
  assert (h_data h !! h_fresh h = None) as Hd1.
  { apply eq_None_not_Some. intros Hs. specialize (Hf2 _ Hs). lia. }
  assert (h_chars h !! (h_fresh h + 1) = None) as Hc1.
  { apply eq_None_not_Some. intros Hs. specialize (Hf1 _ Hs). lia. }
  assert (i ∉ ids) as Hni by (rewrite Hd, Hr; apply is_Some_None).
  assert (∀ d db, h_data h !! d = Some db → h_chars h !! (d_base db).1 = None → False) as Hbase.
  { intros d db E E'. destruct (Ha d) as [j Hj]; [by eexists|].
    destruct (Hl j d Hj) as (db' & buf & E1 & _ & Hh & _). simplify_eq. destruct Hh as (_ & _ & _ & _ & _ & _ & _ & ?). congruence. }
  assert ((n =? 0) = false) as En by (apply Z.eqb_neq; lia).
  exists (mkHeap (<[h_fresh h + 1 := junk n]> (h_chars h)) (<[h_fresh h := mkDB n n (h_fresh h + 1, 0) 1 true]> (h_data h)) (h_msgs h) (h_fresh h + 2)).
  split_and!; [|done..|].
  { unfold DataBlock_new, new_array, fresh_address, put_db, put_array, with_dbs, with_chars. cbn. rewrite En. cbn.
    destruct del; cbn; do 3 f_equal; lia. }
  constructor; cbn [h_data h_chars h_fresh h_msgs].
  - assert (∀ j, r !! j = Some (h_fresh h) → False) as Hno.
    { intros j Hj. destruct (Hl _ _ Hj) as (? & ? & E & _). congruence. }
    intros j k d'. rewrite !lookup_insert_Some. intros [[<- <-]|[? E1]] [[<- ?]|[? E2]]; subst; eauto; exfalso; eauto.
  - intros j d'. rewrite lookup_insert_Some. intros [[<- <-]|[Hne Hj]].
    + eexists _, _. rewrite !lookup_insert_eq. split_and!; [reflexivity..| |].
      * unfold holds. cbn. rewrite junk_length, lookup_insert_eq by lia. split_and!; try lia; done.
      * cbn. rewrite times_cons, decide_True by done. unfold times.
        destruct (filter _ ids) eqn:E; [done|]. exfalso. apply Hni. rewrite times_pos. unfold times. rewrite E. cbn. lia.
    + destruct (Hl j d' Hj) as (db & buf & E1 & E2 & Hh & Hct). exists db, buf.
      rewrite !lookup_insert_ne by (try done; intros <-; congruence). split_and!; try done.
      * unfold holds in *. cbn [h_chars]. destruct Hh as (? & ? & ? & ? & ? & ? & ? & Hch). split_and!; try done; try lia.
        rewrite lookup_insert_ne; [done|]. intros E. congruence.
      * rewrite times_cons, decide_False by done. done.
  - intros j. rewrite elem_of_cons, lookup_insert_is_Some, Hd. naive_solver.
  - intros d'. rewrite lookup_insert_is_Some. intros [<- |[_ Hs]].
    + exists i. by rewrite lookup_insert_eq.
    + destruct (Ha d' Hs) as [j Hj]. exists j. rewrite lookup_insert_ne; [done|]. intros <-. congruence.
  - intros j. rewrite !lookup_insert_is_Some. intros [<- |[? ?]]; eauto.
  - intros a. rewrite lookup_insert_is_Some. intros [<- |[_ Hs]].
    + eexists _, _. by rewrite lookup_insert_eq.
    + destruct (Hc a Hs) as (d' & db & E & ?). exists d', db. rewrite lookup_insert_ne; [done|]. intros <-. congruence.
  - intros d1 d2 b1 b2. rewrite !lookup_insert_Some. intros [[<- <-]|[? E1]] [[<- <-]|[? E2]] E; eauto; exfalso; cbn in E.
    + eapply Hbase; [exact E2|]. by rewrite <- E.
    + eapply Hbase; [exact E1|]. by rewrite E.
  - split; [intros a | intros d']; rewrite lookup_insert_is_Some; (intros [<- |[_ Hs]]; [lia|]).
    + specialize (Hf1 a Hs). lia.
    + specialize (Hf2 d' Hs). lia.
Qed.

Lemma db_clone_ok h r bufs ids i j d cur bs :
  data_ok h r bufs ids → 0 < h_fresh h → r !! i = None → r !! j = Some d → bufs !! j = Some (cur, bs) →
  ∃ h', db_clone d h = Ok (h_fresh h, h') ∧ h_msgs h' = h_msgs h ∧ h_fresh h < h_fresh h' ∧
    data_ok h' (<[i := h_fresh h]> r) (<[i := (#bs, bs)]> bufs) (i :: ids).
Proof.
  intros Hok Hfr Hi Hj Hbuf. destruct (do_live _ _ _ _ Hok j d Hj) as (db & buf & Hdb & E & Hh & _). simplify_eq.
  destruct Hh as (Hc & Hm & Hcm & Hbs & Hdel & Hb0 & Hbp & Hch). cbn [fst snd] in *.
  assert (0 < d < h_fresh h) as Hd0 by (apply (do_fresh _ _ _ _ Hok); by eexists).
  unfold db_clone, get_db. rewrite (follow_ok _ _ _ Hdb), bind_Ok by lia. rewrite Hm.
  destruct (DataBlock_new_ok h r bufs ids i (#bs) true Hok Hfr Hbs Hi) as (h1 & E1 & Em & Ef & Ed & Ec & Hok1).
  rewrite E1, bind_Ok. unfold db_base, get_db. rewrite Ed. erewrite follow_ok; [|by rewrite lookup_insert_eq|lia].
  rewrite !bind_Ok. cbn [d_base].
  assert ((d_base db).1 < h_fresh h) as Hlt by (apply (proj1 (do_fresh _ _ _ _ Hok)); by eexists).
  unfold read_chars. rewrite (proj2 (Z.eqb_neq _ 0)) by lia. rewrite Ec.
  rewrite (follow_ok _ _ bs) by (try lia; rewrite lookup_insert_ne by lia; done). rewrite bind_Ok, Hb0, (load_all bs) by done.
  rewrite bind_Ok. unfold write_chars. rewrite (proj2 (Z.eqb_neq _ 0)) by lia. cbn [fst snd]. rewrite Ec.
  rewrite (follow_ok _ _ (junk (#bs))) by (try lia; apply lookup_insert_eq). rewrite bind_Ok.
  rewrite store_patched by (try rewrite junk_length by lia; lia). rewrite patched_all by (rewrite junk_length by lia; lia).
  rewrite !bind_Ok. eexists. split; [reflexivity|]. cbn [put_array with_chars h_msgs h_fresh]. split_and!; [done|lia|].
  rewrite <- (insert_insert_eq bufs i (#bs, bs) (#bs, junk (#bs))).
  eapply (data_ok_update h1 _ _ _ _ (i :: ids) (i :: ids) i (h_fresh h)); try done.
  - by rewrite lookup_insert_eq.
  - rewrite Ed. by rewrite lookup_insert_eq.
  - cbn [put_array with_chars h_data]. rewrite Ed. by rewrite insert_insert_eq.
  - unfold holds. cbn [d_curSize d_maxSize d_deleteData d_base fst snd put_array with_chars h_chars].
    rewrite lookup_insert_eq. split_and!; try done; lia.
  - cbn [d_referenceCount]. destruct (do_live _ _ _ _ Hok1 i (h_fresh h)) as (db1 & b1 & Ed1 & _ & _ & Hct).
    + by rewrite lookup_insert_eq.
    + rewrite Ed, lookup_insert_eq in Ed1. by simplify_eq.
  - by left.
  - cbn [d_base fst put_array with_chars h_chars]. intros a Ha _. by rewrite lookup_insert_ne.
  - by left.
Qed.

End data.

(** ** Lemmas on message blocks *)

Lemma get_mb_ok m b h : h_msgs h !! m = Some b → m ≠ 0 → get_mb m h = Ok b.
Proof. apply follow_ok. Qed.

Lemma get_db_ok d b h : h_data h !! d = Some b → d ≠ 0 → get_db d h = Ok b.
Proof. apply follow_ok. Qed.

Lemma mb_update_ok m b f h : h_msgs h !! m = Some b → m ≠ 0 → mb_update m f h = Ok (put_mb m (f b) h).
Proof. intros E Hm. unfold mb_update. by rewrite (get_mb_ok _ _ _ E Hm). Qed.

Lemma put_mb_put m b b' h : put_mb m b' (put_mb m b h) = put_mb m b' h.
Proof. unfold put_mb, with_msgs. cbn. by rewrite insert_insert_eq. Qed.

Lemma put_mb_get m b h : h_msgs (put_mb m b h) !! m = Some b.
Proof. apply lookup_insert_eq. Qed.

Lemma ptr_diff_self p : ptr_diff p p = Ok 0.
Proof. unfold ptr_diff. rewrite Z.eqb_refl. f_equal. lia. Qed.


Lemma mb_set_rdPtr_base m b d D h :
  h_msgs h !! m = Some b → m ≠ 0 → m_dataBlock b = d → h_data h !! d = Some D → d ≠ 0 →
  mb_set_rdPtr m (d_base D) h = Ok (put_mb m (mb_with_rd 0 b) h).
Proof.
  intros Hm Hm0 Hd HD Hd0. unfold mb_set_rdPtr, mb_base, db_base.
  rewrite (get_mb_ok m b), bind_Ok, Hd, (get_db_ok d D), !bind_Ok, ptr_diff_self, bind_Ok by done.
  by erewrite mb_update_ok by done.
Qed.

Lemma mb_set_wrPtr_base m b d D h :
  h_msgs h !! m = Some b → m ≠ 0 → m_dataBlock b = d → h_data h !! d = Some D → d ≠ 0 →
  mb_set_wrPtr m (d_base D) h = Ok (put_mb m (mb_with_wr 0 b) h).
Proof.
  intros Hm Hm0 Hd HD Hd0. unfold mb_set_wrPtr, mb_base, db_base.
  rewrite (get_mb_ok m b), bind_Ok, Hd, (get_db_ok d D), !bind_Ok, ptr_diff_self, bind_Ok by done.
  by erewrite mb_update_ok by done.
Qed.

Lemma mb_set_dataBlock_ok m b d D h :
  h_msgs h !! m = Some b → m ≠ 0 → m_dataBlock b = 0 → h_data h !! d = Some D → d ≠ 0 →
  mb_set_dataBlock m d h = Ok (put_mb m (mkMB 0 0 (m_cont b) (m_next b) (m_prev b) d) h).
Proof.
  intros Hm Hm0 Hb HD Hd0. unfold mb_set_dataBlock, db_base. rewrite (get_mb_ok m b), bind_Ok, Hb by done.
  cbn [Z.eqb negb]. rewrite bind_Ok. rewrite (mb_update_ok m b) by done. rewrite bind_Ok.
  rewrite (get_db_ok d D), !bind_Ok by done.
  erewrite mb_set_rdPtr_base by (first [apply put_mb_get | done]). rewrite bind_Ok, put_mb_put.
  erewrite mb_set_wrPtr_base by (first [apply put_mb_get | done]). by rewrite put_mb_put.
Qed.

Section blocks.

Context `{Allocator} `{FreshBlock}.

Definition bump (h : Heap) : Heap := mkHeap (h_chars h) (h_data h) (h_msgs h) (h_fresh h + 1).

(** The block the constructors make on a data block. *)
Definition block_on (cont d : Z) : MessageBlock := mkMB 0 0 cont 0 0 d.

Lemma new5_ok h d D :
  h_data h !! d = Some D → d ≠ 0 → 0 < h_fresh h → stale h = 0 →
  MessageBlock_new5 0 0 null false d h = Ok (h_fresh h, put_mb (h_fresh h) (block_on 0 d) (bump h)).
Proof.
  intros HD Hd Hf Hs. unfold MessageBlock_new5, mb_alloc. rewrite Hs. cbn [fresh_address]. fold (bump h).
  unfold mb_initI. erewrite get_mb_ok by (first [apply put_mb_get | lia]). rewrite bind_Ok.
  erewrite mb_update_ok by (first [apply put_mb_get | lia]). rewrite bind_Ok, put_mb_put. cbn [m_dataBlock Z.eqb negb].
  rewrite bind_Ok, (proj2 (Z.eqb_neq d 0)), bind_Ok by done.
  erewrite mb_set_dataBlock_ok by (first [apply put_mb_get | done | lia]). by rewrite !bind_Ok, put_mb_put.
Qed.

Lemma of_size_ok h r bufs ids i n :
  data_ok h r bufs ids → 0 < h_fresh h → 0 < n < 2 ^ 62 → r !! i = None →
  ∃ h' d, MessageBlock_of_size n 0 null false h = Ok (h_fresh h, h') ∧
    h_msgs h' = <[h_fresh h := block_on 0 d]> (h_msgs h) ∧ h_fresh h < h_fresh h' ∧
    data_ok h' (<[i := d]> r) (<[i := (n, junk n)]> bufs) (i :: ids).
Proof.
  intros Hok Hf Hn Hi. unfold MessageBlock_of_size, mb_alloc. cbn [fresh_address]. fold (bump h).
  unfold mb_initI. erewrite get_mb_ok by (first [apply put_mb_get | lia]). rewrite bind_Ok.
  erewrite mb_update_ok by (first [apply put_mb_get | lia]). rewrite bind_Ok, put_mb_put. cbn [m_dataBlock Z.eqb negb].
  rewrite bind_Ok.
  set (h1 := put_mb _ _ _).
  destruct (DataBlock_new_ok h1 r bufs ids i n false) as (h2 & E & Em & Ef & Ed & Ec & Hok2); [|cbn; lia|done..|].
  { eapply data_ok_msgs; try done. cbn. lia. }
  rewrite E, bind_Ok. erewrite (mb_set_dataBlock_ok _ (block_on 0 0)).
  - rewrite !bind_Ok. eexists _, _. split; [reflexivity|]. split_and!; [| |eapply data_ok_msgs; try done].
    + cbn [put_mb with_msgs h_msgs]. rewrite Em. subst h1. cbn [put_mb with_msgs h_msgs bump]. by rewrite !insert_insert_eq.
    + cbn [put_mb with_msgs h_fresh]. rewrite Ef. cbn. lia.
  - rewrite Em. apply put_mb_get.
  - lia.
  - done.
  - rewrite Ed. apply lookup_insert_eq.
  - cbn. lia.
Qed.

(** *** Chains that are made of new blocks *)

Lemma linked_mono h h' m c : h_msgs h ⊆ h_msgs h' → linked h m c → linked h' m c.
Proof.
  intros Hs. revert m. induction c as [|x c IH]; intros m; cbn [linked]; [done|].
  intros (-> & b & Hb & Hl). split; [done|]. exists b. split; [by eapply lookup_weaken|]. by apply IH.
Qed.

Lemma sees_mono h h' r r' m v : h_msgs h ⊆ h_msgs h' → r ⊆ r' → sees h r m v → sees h' r' m v.
Proof. intros Hs Hr (b & Hb & ? & ? & ?). exists b. split_and!; try done; by eapply lookup_weaken. Qed.

Lemma linked_other h h' m c :
  (∀ x, x ∈ c → h_msgs h' !! x = h_msgs h !! x) → linked h m c → linked h' m c.
Proof.
  revert m. induction c as [|x c IH]; intros m Hx; cbn [linked]; [done|].
  intros (-> & b & Hb & Hl). split; [done|]. exists b. rewrite Hx by by left. split; [done|].
  apply IH; [|done]. intros y Hy. apply Hx. by right.
Qed.

Lemma sees_other h h' r m v : h_msgs h' !! m = h_msgs h !! m → sees h r m v → sees h' r m v.
Proof. intros E (b & Hb & ?). exists b. by rewrite E. Qed.

Lemma chain_other h h' r c vs :
  (∀ x, x ∈ c → h_msgs h' !! x = h_msgs h !! x) → Forall2 (sees h r) c vs → Forall2 (sees h' r) c vs.
Proof.
  intros Hx. induction 1 as [|x v c vs Hs _ IH]; constructor.
  - eapply sees_other; [|done]. apply Hx. by left.
  - apply IH. intros y Hy. apply Hx. by right.
Qed.

Lemma msg_nonnull h m b : msgs_ok h → h_msgs h !! m = Some b → m ≠ 0.
Proof. intros [_ Hok] Hb. specialize (Hok m (mk_is_Some _ _ Hb)). lia. Qed.

Lemma linked_nonnull h m c : msgs_ok h → linked h m c → c ≠ [] → m ≠ 0.
Proof.
  intros [_ Hok] Hl Hc. destruct c as [|x c]; [done|]. destruct Hl as (-> & b & Hb & _).
  specialize (Hok x (mk_is_Some _ _ Hb)). lia.
Qed.

(** [c] is a new chain from [m] of views [vs] in [h']; the blocks of [h] are
    as they were. *)
Record made (h : Heap) (r : gmap nat Z) (m : Z) (c : list Z) (vs : list View) (h' : Heap) : Prop := mkMade {
  ma_linked : linked h' m c;
  ma_sees : Forall2 (sees h' r) c vs;
  ma_nodup : NoDup c;
  ma_new : Forall (λ x, h_fresh h ≤ x) c;
  ma_ok : msgs_ok h';
  ma_sub : h_msgs h ⊆ h_msgs h';
  ma_size : size (h_msgs h') = (size (h_msgs h) + length c)%nat }.

Lemma fresh_msg h : msgs_ok h → h_msgs h !! h_fresh h = None.
Proof. intros [_ Hok]. apply eq_None_not_Some. intros Hs. specialize (Hok _ Hs). lia. Qed.

Lemma made_one h h' r v d :
  msgs_ok h → r !! v_buf v = Some d →
  h_msgs h' = <[h_fresh h := mkMB (v_rd v) (v_wr v) 0 0 0 d]> (h_msgs h) → h_fresh h < h_fresh h' →
  made h r (h_fresh h) [h_fresh h] [v] h'.
Proof.
  intros Hok Hr Em Hlt. pose proof (fresh_msg h Hok) as Hn. constructor.
  - cbn [linked]. split; [done|]. eexists. by rewrite Em, lookup_insert_eq.
  - constructor; [|done]. eexists. by rewrite Em, lookup_insert_eq.
  - apply NoDup_singleton.
  - constructor; [lia|done].
  - destruct Hok as [Hf Hok]. split; [lia|]. intros x. rewrite Em.
    rewrite lookup_insert_is_Some. intros [<- |[_ Hs]]; [lia|]. specialize (Hok x Hs). lia.
  - rewrite Em. by apply insert_subseteq.
  - cbn [length]. rewrite Em, map_size_insert_None by done. lia.
Qed.

Lemma made_single h r v d :
  msgs_ok h → r !! v_buf v = Some d →
  made h r (h_fresh h) [h_fresh h] [v] (put_mb (h_fresh h) (mkMB (v_rd v) (v_wr v) 0 0 0 d) (bump h)).
Proof. intros Hok Hr. eapply made_one; try done. cbn. lia. Qed.

Lemma made_base h h1 r m c vs h' : h_msgs h1 = h_msgs h → h_fresh h ≤ h_fresh h1 → made h1 r m c vs h' → made h r m c vs h'.
Proof.
  intros E Hle [L S N F O B Z]. constructor; try done.
  - eapply Forall_impl; [exact F|]. cbn. lia.
  - by rewrite <- E.
  - by rewrite <- E.
Qed.

Lemma made_mono h r r' m c vs h' : r ⊆ r' → made h r m c vs h' → made h r' m c vs h'.
Proof. intros Hr [L S N F O B Z]. constructor; try done. eapply Forall2_impl; [exact S|]. intros. eapply sees_mono; [reflexivity|done..]. Qed.

(** Linking a block in front of a chain made after it. *)
Lemma made_cons h h1 h2 r nb v m c vs b :
  msgs_ok h → made h r nb [nb] [v] h1 → made h1 r m c vs h2 → h_fresh h ≤ h_fresh h1 → h_msgs h2 !! nb = Some b →
  made h r nb (nb :: c) (v :: vs) (put_mb nb (mb_with_cont m b) h2).
Proof.
  intros [_ O0] [L1 S1 N1 F1 O1 B1 Z1] [L2 S2 N2 F2 O2 B2 Z2] Hle Hb.
  assert (h_msgs h1 !! nb = Some b) as Hb1.
  { destruct L1 as (_ & b1 & Hb1 & _). rewrite Hb1. rewrite (lookup_weaken _ _ _ _ Hb1 B2) in Hb. done. }
  assert (nb ∉ c) as Hni.
  { intros Hin. rewrite Forall_forall in F2. specialize (F2 nb Hin). destruct O1 as [_ O1].
    specialize (O1 nb (mk_is_Some _ _ Hb1)). lia. }
  assert (∀ x, x ∈ c → h_msgs (put_mb nb (mb_with_cont m b) h2) !! x = h_msgs h2 !! x) as Ho.
  { intros x Hx. cbn. rewrite lookup_insert_ne; [done|]. intros ->. done. }
  constructor.
  - cbn [linked]. split; [done|]. eexists. rewrite put_mb_get. split; [done|]. cbn. by eapply linked_other.
  - constructor.
    + apply Forall2_cons_1 in S1 as [(b1 & E & ? & ? & ?) _]. rewrite Hb1 in E. simplify_eq. eexists. rewrite put_mb_get. done.
    + by eapply chain_other.
  - by apply NoDup_cons.
  - constructor; [by apply Forall_cons in F1 as [? _]|]. eapply Forall_impl; [exact F2|]. cbn. lia.
  - destruct O2 as [Hf2 O2]. split; [done|]. intros x. cbn [put_mb with_msgs h_msgs h_fresh].
    rewrite lookup_insert_is_Some. intros [<- |[_ Hs]]; [|by apply O2]. apply O2. by eexists.
  - apply map_subseteq_spec. intros x bx Hx. cbn [put_mb with_msgs h_msgs].
    destruct (decide (x = nb)) as [->|Hne].
    + exfalso. apply Forall_cons in F1 as [F1 _]. specialize (O0 nb (mk_is_Some _ _ Hx)). lia.
    + rewrite lookup_insert_ne by done. eapply lookup_weaken; [|exact B2]. by eapply lookup_weaken.
  - cbn [put_mb with_msgs h_msgs length]. rewrite map_size_insert_Some by eauto. cbn [length] in Z1. lia.
Qed.

(** The two moves from the start of the buffer. *)
Lemma mb_moves m h d rd wr :
  m ≠ 0 → 0 ≤ rd < 2 ^ 62 → 0 ≤ wr < 2 ^ 62 → h_msgs h !! m = Some (block_on 0 d) →
  mb_move_rdPtr m rd h = Ok (put_mb m (mkMB rd 0 0 0 0 d) h) ∧
  mb_move_wrPtr m wr (put_mb m (mkMB rd 0 0 0 0 d) h) = Ok (put_mb m (mkMB rd wr 0 0 0 d) h).
Proof.
  intros Hm Hrd Hwr E. unfold mb_move_rdPtr, mb_move_wrPtr.
  rewrite (mb_update_ok m (block_on 0 d)) by done. erewrite mb_update_ok by (first [apply put_mb_get | done]).
  unfold block_on, mb_with_rd, mb_with_wr. cbn. rewrite !wrap_small by (unfold in_u; lia).
  split; [done|]. by rewrite put_mb_put.
Qed.

Hypothesis no_stale : ∀ h, stale h = 0.

Lemma mb_duplicate_ok r bufs c : ∀ fuel h m vs ids,
  (length c ≤ fuel)%nat → c ≠ [] → linked h m c → Forall2 (sees h r) c vs → Forall (view_ok bufs) vs →
  data_ok h r bufs ids → msgs_ok h → #ids + #c < 2 ^ 31 →
  ∃ m' c' h', mb_duplicate_ fuel m h = Ok (m', h') ∧ c' ≠ [] ∧ made h r m' c' vs h' ∧
    data_ok h' r bufs ((v_buf <$> vs) ++ ids).
Proof.
  induction c as [|x c IH]; intros fuel h m vs ids Hfuel Hne Hl Hs Hv Hd Hm Hlen; [done|].
  destruct fuel as [|fuel]; [cbn in Hfuel; lia|]. destruct Hl as (-> & b & Hb & Hl).
  apply Forall2_cons_inv_l in Hs as (v & vs' & (b' & E & Hrd & Hwr & Hr) & Hs & ->). simplify_eq.
  apply Forall_cons in Hv as [(buf & Hbuf & Hr0 & Hw0) Hv].
  destruct (do_live _ _ _ _ Hd _ _ Hr) as (D & buf' & HD & HB & Hh & _). simplify_eq.
  destruct Hh as (_ & _ & _ & Hbl & _). cbn [length] in Hlen.
  destruct (db_duplicate_ok h r bufs ids _ _ Hd Hr ltac:(lia)) as (D' & E1 & Hd1).
  cbn [mb_duplicate_]. rewrite (get_mb_ok x b), bind_Ok, E1, bind_Ok by eauto using msg_nonnull.
  destruct Hm as [Hf Hm0]. assert (msgs_ok h) as Hm by done.
  assert (m_dataBlock b ≠ 0) as Hd0 by (pose proof (proj2 (do_fresh _ _ _ _ Hd) _ (mk_is_Some _ _ HD)); lia).
  erewrite new5_ok by (first [apply lookup_insert_eq | done]). rewrite bind_Ok.
  set (h1 := put_db _ _ _) in *. change (h_fresh h1) with (h_fresh h).
  destruct (mb_moves (h_fresh h) (put_mb (h_fresh h) (block_on 0 (m_dataBlock b)) (bump h1)) (m_dataBlock b) (m_rdPtr b) (m_wrPtr b)) as [E2 E3];
    [lia|lia|lia|apply put_mb_get|].
  rewrite E2, bind_Ok, E3, bind_Ok, put_mb_put. clear E2 E3. rewrite Hrd, Hwr.
  set (nb := h_fresh h) in *. set (h2 := put_mb nb _ _).
  assert (made h r nb [nb] [v] h2) as Hmade.
  { eapply made_base; [| |exact (made_single h1 r v _ Hm Hr)]; [done|cbn; lia]. }
  assert (data_ok h2 r bufs (v_buf v :: ids)) as Hd2 by (eapply data_ok_msgs; try done; cbn; lia).
  destruct c as [|y c].
  - cbn [linked] in Hl. rewrite Hl. cbn [Z.eqb negb]. apply Forall2_nil_inv_l in Hs as ->.
    exists nb, [nb], h2. done.
  - rewrite (proj2 (Z.eqb_neq _ 0)) by (by eapply linked_nonnull). cbn [negb].
    destruct (IH fuel h2 (m_cont b) vs' (v_buf v :: ids)) as (m3 & c3 & h3 & E3 & Hc3 & Hmade3 & Hd3); try done.
    + cbn in Hfuel |- *. lia.
    + eapply linked_mono; [exact (ma_sub _ _ _ _ _ _ Hmade)|done].
    + eapply Forall2_impl; [exact Hs|]. intros. eapply sees_mono; [exact (ma_sub _ _ _ _ _ _ Hmade)|done|done].
    + exact (ma_ok _ _ _ _ _ _ Hmade).
    + cbn [length] in Hlen |- *. lia.
    + rewrite E3, bind_Ok.
      assert (∃ b2, h_msgs h3 !! nb = Some b2) as [b2 Hb2].
      { destruct (ma_linked _ _ _ _ _ _ Hmade) as (_ & b2 & Hb2 & _). exists b2.
        eapply lookup_weaken; [exact Hb2|]. exact (ma_sub _ _ _ _ _ _ Hmade3). }
      unfold mb_set_cont. rewrite (mb_update_ok nb b2), bind_Ok by (try done; lia).
      rewrite (proj2 (Z.eqb_neq m3 0)) by (eapply linked_nonnull; [exact (ma_ok _ _ _ _ _ _ Hmade3)|exact (ma_linked _ _ _ _ _ _ Hmade3)|done]).
      eexists _, (nb :: c3), _. split; [reflexivity|]. split; [done|]. split.
      * eapply made_cons; try done. cbn. lia.
      * eapply (data_ok_msgs h3); [|reflexivity..|cbn; lia]. cbn [fmap list_fmap app].
        eapply data_ok_proper; [|exact Hd3]. cbn. by rewrite Permutation_middle.
Qed.

Lemma view_ok_mono bufs bufs' v : bufs ⊆ bufs' → view_ok bufs v → view_ok bufs' v.
Proof. intros Hs (buf & E & ?). exists buf. split; [by eapply lookup_weaken|done]. Qed.

Lemma mb_clone_ok c : ∀ fuel h m vs r bufs ids n,
  (length c ≤ fuel)%nat → c ≠ [] → linked h m c → Forall2 (sees h r) c vs → Forall (view_ok bufs) vs →
  data_ok h r bufs ids → msgs_ok h → (∀ i, is_Some (r !! i) → (i < n)%nat) →
  ∃ m' c' h' r' vs' bufs' n', mb_clone_ fuel m h = Ok (m', h') ∧ c' ≠ [] ∧ clone_views vs bufs n = (vs', bufs', n') ∧
    made h r' m' c' vs' h' ∧ r ⊆ r' ∧ bufs ⊆ bufs' ∧ data_ok h' r' bufs' ((v_buf <$> vs') ++ ids) ∧
    (∀ i, is_Some (r' !! i) → (i < n')%nat) ∧ Forall (view_ok bufs') vs'.
Proof.
  induction c as [|x c IH]; intros fuel h m vs r bufs ids n Hfuel Hne Hl Hs Hv Hd Hm Hn; [done|].
  destruct fuel as [|fuel]; [cbn in Hfuel; lia|]. destruct Hl as (-> & b & Hb & Hl).
  apply Forall2_cons_inv_l in Hs as (v & vs' & (b' & E & Hrd & Hwr & Hr) & Hs & ->). simplify_eq.
  apply Forall_cons in Hv as [([cur bs] & Hbuf & Hr0 & Hw0) Hv].
  assert (r !! n = None) as Hrn by (apply eq_None_not_Some; intros Hi; specialize (Hn n Hi); lia).
  assert (bufs !! n = None) as Hbn by (apply eq_None_not_Some; intros Hi%(do_bufs _ _ _ _ Hd); rewrite Hrn in Hi; by apply is_Some_None in Hi).
  destruct (do_live _ _ _ _ Hd _ _ Hr) as (D & buf' & HD & HB & Hh & _). simplify_eq.
  destruct Hh as (_ & _ & _ & Hbl & _). cbn [fst snd] in Hbl, Hw0. pose proof Hm as [Hf _].
  destruct (db_clone_ok h r bufs ids n _ _ cur bs Hd Hf Hrn Hr Hbuf) as (h1 & E1 & Em1 & Ef1 & Hd1).
  cbn [mb_clone_ clone_views]. rewrite (get_mb_ok x b), bind_Ok, E1, bind_Ok by eauto using msg_nonnull.
  rewrite Hbuf. cbn [default from_option id fst snd]. rewrite (proj2 (Z.eqb_neq (h_fresh h) 0)) by lia.
  destruct (do_live _ _ _ _ Hd1 n (h_fresh h)) as (D1 & _ & HD1 & _); [by rewrite lookup_insert_eq|].
  erewrite new5_ok by (first [exact HD1 | done | lia]). rewrite bind_Ok.
  rewrite (proj2 (Z.eqb_neq (h_fresh h1) 0)) by lia.
  destruct (mb_moves (h_fresh h1) (put_mb (h_fresh h1) (block_on 0 (h_fresh h)) (bump h1)) (h_fresh h) (m_rdPtr b) (m_wrPtr b)) as [E2 E3];
    [lia|lia|lia|apply put_mb_get|].
  rewrite E2, bind_Ok, E3, bind_Ok, put_mb_put. clear E2 E3. rewrite Hrd, Hwr.
  assert (msgs_ok h1) as Hm1.
  { destruct Hm as [_ Hm]. split; [lia|]. rewrite Em1. intros y Hy. specialize (Hm y Hy). lia. }
  set (nb := h_fresh h1) in *. set (h2 := put_mb nb _ _). set (r1 := <[n := h_fresh h]> r) in *.
  set (bufs1 := <[n := (#bs, bs)]> bufs) in *. set (v1 := mkView n (v_rd v) (v_wr v)).
  assert (made h r1 nb [nb] [v1] h2) as Hmade.
  { eapply made_base; [| |exact (made_single h1 r1 v1 (h_fresh h) Hm1 (lookup_insert_eq _ _ _))]; [done|lia]. }
  assert (data_ok h2 r1 bufs1 (v_buf v1 :: ids)) as Hd2 by (eapply data_ok_msgs; [exact Hd1|done|done|cbn; lia]).
  assert (r ⊆ r1) as Hr1 by (by apply insert_subseteq). assert (bufs ⊆ bufs1) as Hb1 by (by apply insert_subseteq).
  assert (∀ i, is_Some (r1 !! i) → (i < S n)%nat) as Hn1.
  { intros i. unfold r1. rewrite lookup_insert_is_Some. intros [<- |[_ Hi]]; [lia|]. specialize (Hn i Hi). lia. }
  assert (view_ok bufs1 v1) as Hv1.
  { exists (#bs, bs). unfold bufs1, v1. cbn. rewrite lookup_insert_eq. done. }
  destruct c as [|y c].
  - cbn [linked] in Hl. rewrite Hl. cbn [Z.eqb negb]. apply Forall2_nil_inv_l in Hs as ->. cbn [clone_views].
    exists nb, [nb], h2, r1, [v1], bufs1, (S n). split_and!; try done. by constructor.
  - rewrite (proj2 (Z.eqb_neq _ 0)) by (eapply (linked_nonnull h); done). cbn [negb].
    destruct (IH fuel h2 (m_cont b) vs' r1 bufs1 (v_buf v1 :: ids) (S n))
      as (m3 & c3 & h3 & r3 & vs3 & bufs3 & n3 & E3 & Hc3 & Ec3 & Hmade3 & Hr3 & Hb3 & Hd3 & Hn3 & Hv3); try done.
    + cbn in Hfuel |- *. lia.
    + eapply linked_mono; [exact (ma_sub _ _ _ _ _ _ Hmade)|done].
    + eapply Forall2_impl; [exact Hs|]. intros. eapply sees_mono; [exact (ma_sub _ _ _ _ _ _ Hmade)|done|done].
    + eapply Forall_impl; [exact Hv|]. intros. by eapply view_ok_mono.
    + exact (ma_ok _ _ _ _ _ _ Hmade).
    + rewrite E3, bind_Ok, Ec3.
      assert (∃ b2, h_msgs h3 !! nb = Some b2) as [b2 Hb2].
      { destruct (ma_linked _ _ _ _ _ _ Hmade) as (_ & b2 & Hb2 & _). exists b2.
        eapply lookup_weaken; [exact Hb2|]. exact (ma_sub _ _ _ _ _ _ Hmade3). }
      unfold mb_set_cont. rewrite (mb_update_ok nb b2), bind_Ok by (try done; lia).
      rewrite (proj2 (Z.eqb_neq m3 0)) by (eapply linked_nonnull; [exact (ma_ok _ _ _ _ _ _ Hmade3)|exact (ma_linked _ _ _ _ _ _ Hmade3)|done]).
      eexists _, (nb :: c3), _, r3, (v1 :: vs3), bufs3, n3. split; [reflexivity|]. split_and!; try done.
      * eapply made_cons; try done; [|cbn; lia]. by eapply made_mono.
      * by etrans.
      * by etrans.
      * eapply (data_ok_msgs h3); [|reflexivity..|cbn; lia]. cbn [fmap list_fmap app].
        eapply data_ok_proper; [|exact Hd3]. cbn. by rewrite Permutation_middle.
      * constructor; [by eapply view_ok_mono|done].
Qed.

(** *** Release *)

(** What is left of a block when its data block is released. *)
Lemma release_data_ok h r bufs i ids d :
  data_ok h r bufs (i :: ids) → #ids < 2 ^ 31 - 1 → r !! i = Some d →
  ∃ h', (if negb (d =? 0) then '(_, h) ← db_release d h; Ok h else Ok h) = Ok h' ∧
    h_msgs h' = h_msgs h ∧ h_fresh h' = h_fresh h ∧ data_ok h' (keep ids r) (keep ids bufs) ids.
Proof.
  intros Hd Hlen Hr. destruct (db_release_ok h r bufs ids i d Hd Hlen Hr) as (x & h' & E & ? & ? & ?).
  destruct (do_live _ _ _ _ Hd i d Hr) as (D & buf & HD & _).
  pose proof (proj2 (do_fresh _ _ _ _ Hd) d (mk_is_Some _ _ HD)).
  rewrite (proj2 (Z.eqb_neq d 0)) by lia. cbn [negb]. rewrite E, bind_Ok. eauto.
Qed.

Lemma sees_keep h r ids c vs :
  (∀ v, v ∈ vs → v_buf v ∈ ids) → Forall2 (sees h r) c vs → Forall2 (sees h (keep ids r)) c vs.
Proof.
  intros Hin. induction 1 as [|x v c vs (b & ? & ? & ? & Hr) _ IH]; constructor.
  - exists b. rewrite keep_lookup by (apply Hin; by left). done.
  - apply IH. intros w Hw. apply Hin. by right.
Qed.

Lemma release_conts_ok c : ∀ fuel h m vs r bufs ids,
  (length c ≤ fuel)%nat → c ≠ [] → NoDup c → linked h m c → Forall2 (sees h r) c vs → msgs_ok h →
  data_ok h r bufs ((v_buf <$> vs) ++ ids) → #ids + #c < 2 ^ 31 →
  ∃ h', release_conts fuel m h = Ok h' ∧ h_fresh h' = h_fresh h ∧
    (∀ x, x ∉ c → h_msgs h' !! x = h_msgs h !! x) ∧ dom (h_msgs h') = dom (h_msgs h) ∧
    data_ok h' (keep ids r) (keep ids bufs) ids.
Proof.
  induction c as [|x c IH]; intros fuel h m vs r bufs ids Hfuel Hne Hnd Hl Hs Hm Hd Hlen; [done|].
  destruct fuel as [|fuel]; [cbn in Hfuel; lia|]. destruct Hl as (-> & b & Hb & Hl).
  apply Forall2_cons_inv_l in Hs as (v & vs' & (b' & E & Hrd & Hwr & Hr) & Hs & ->). simplify_eq.
  apply NoDup_cons in Hnd as [Hx Hnd]. pose proof (Forall2_length _ _ _ Hs) as Hlv.
  cbn [release_conts]. rewrite (get_mb_ok x b), bind_Ok by eauto using msg_nonnull.
  unfold mb_set_cont. rewrite (mb_update_ok x b), bind_Ok by eauto using msg_nonnull.
  set (h1 := put_mb _ _ _). cbn [fmap list_fmap app] in Hd.
  destruct (release_data_ok h1 r bufs (v_buf v) ((v_buf <$> vs') ++ ids) (m_dataBlock b)) as (h2 & E2 & Em & Ef & Hd2); [|..|done|].
  { by eapply data_ok_msgs. }
  { rewrite length_app, length_fmap. cbn [length] in Hlen. lia. }
  rewrite E2, bind_Ok. clear E2.
  assert (∀ y, y ≠ x → h_msgs h2 !! y = h_msgs h !! y) as Hsame.
  { intros y Hy. rewrite Em. cbn. by rewrite lookup_insert_ne. }
  assert (dom (h_msgs h2) = dom (h_msgs h)) as Hdom.
  { rewrite Em. cbn. rewrite dom_insert_L. apply elem_of_dom_2 in Hb. set_solver. }
  destruct c as [|y c].
  - cbn [linked] in Hl. rewrite Hl. cbn [Z.eqb negb]. apply Forall2_nil_inv_l in Hs as ->.
    exists h2. split_and!; try done. intros y Hy. apply Hsame. set_solver.
  - rewrite (proj2 (Z.eqb_neq _ 0)) by (eapply (linked_nonnull h); done). cbn [negb].
    set (rest := (v_buf <$> vs') ++ ids) in *.
    assert (∀ z, z ∈ y :: c → z ≠ x) as Hzx by (intros z Hz ->; done).
    destruct (IH fuel h2 (m_cont b) vs' (keep rest r) (keep rest bufs) ids) as (h3 & E3 & Ef3 & Hs3 & Hdom3 & Hd3); try done.
    + cbn in Hfuel |- *. lia.
    + eapply linked_other; [|exact Hl]. auto.
    + apply sees_keep; [|eapply chain_other; [|exact Hs]; auto]. intros w Hw. unfold rest. apply elem_of_app. left.
      by apply list_elem_of_fmap_2.
    + destruct Hm as [Hf Hm]. split; [by rewrite Ef|]. intros z Hz%elem_of_dom. rewrite Hdom in Hz. apply elem_of_dom in Hz.
      specialize (Hm z Hz). rewrite Ef. cbn. lia.
    + cbn [length] in Hlen |- *. lia.
    + exists h3. rewrite E3. split_and!; [done|by rewrite Ef3, Ef| |by rewrite Hdom3|].
      * intros z Hz. rewrite Hs3, Hsame; [done|set_solver..].
      * rewrite !keep_keep in Hd3 by (unfold rest; set_solver). done.
Qed.

Lemma linked_size h m c : NoDup c → linked h m c → (length c ≤ size (h_msgs h))%nat.
Proof.
  intros Hnd Hl. rewrite <- size_dom, <- (size_list_to_set (C := gset Z)) by done. apply subseteq_size.
  revert m Hl. clear Hnd. induction c as [|z c IH]; intros m; [set_solver|]. intros (_ & b & Hz & Hl).
  apply elem_of_dom_2 in Hz. specialize (IH _ Hl). set_solver.
Qed.

(** The first part of [release]: the continuations, if there are any. *)
Lemma release_rest_ok h x b c v vs r bufs ids :
  x ∉ c → NoDup c → h_msgs h !! x = Some b → linked h (m_cont b) c → Forall2 (sees h r) c vs → msgs_ok h →
  data_ok h r bufs ((v_buf <$> v :: vs) ++ ids) → #ids + #(x :: c) < 2 ^ 31 →
  ∃ h1 b1, (if negb (m_cont b =? 0) then h ← release_conts (chain_fuel h) (m_cont b) h; mb_set_cont x 0 h else Ok h) = Ok h1 ∧
    h_msgs h1 !! x = Some b1 ∧ m_dataBlock b1 = m_dataBlock b ∧ h_fresh h1 = h_fresh h ∧
    (∀ y, y ∉ x :: c → h_msgs h1 !! y = h_msgs h !! y) ∧ dom (h_msgs h1) = dom (h_msgs h) ∧
    data_ok h1 (keep (v_buf v :: ids) r) (keep (v_buf v :: ids) bufs) (v_buf v :: ids).
Proof.
  intros Hx Hnd Hb Hl Hs Hm Hd Hlen. pose proof (msg_nonnull _ _ _ Hm Hb) as Hx0. destruct c as [|y c].
  - cbn [linked] in Hl. rewrite Hl. cbn [Z.eqb negb]. apply Forall2_nil_inv_l in Hs as ->. exists h, b. split_and!; try done.
    assert (∀ i, is_Some (r !! i) → i ∈ v_buf v :: ids) as Hin by (intros i Hi; by apply (do_ids _ _ _ _ Hd) in Hi).
    rewrite !keep_all; [done| |done]. intros i Hi. by apply Hin, (do_bufs _ _ _ _ Hd).
  - rewrite (proj2 (Z.eqb_neq _ 0)) by (eapply (linked_nonnull h); done). cbn [negb].
    destruct (release_conts_ok (y :: c) (chain_fuel h) h (m_cont b) vs r bufs (v_buf v :: ids)) as (h1 & E1 & Ef1 & Hs1 & Hdom1 & Hd1); try done.
    + unfold chain_fuel. apply le_S. by eapply linked_size.
    + eapply data_ok_proper; [|exact Hd]. cbn. symmetry. apply Permutation_middle.
    + cbn [length] in Hlen |- *. lia.
    + rewrite E1, bind_Ok. unfold mb_set_cont. assert (h_msgs h1 !! x = Some b) as Hb1 by (rewrite Hs1; [done|set_solver]).
      rewrite (mb_update_ok x b) by done. eexists _, _. split; [reflexivity|]. rewrite put_mb_get. split_and!; [done..| | |].
      * intros z Hz. cbn. rewrite lookup_insert_ne by set_solver. apply Hs1. set_solver.
      * cbn. rewrite dom_insert_L, Hdom1. apply elem_of_dom_2 in Hb. set_solver.
      * by eapply data_ok_msgs.
Qed.

Lemma mb_release_ok h x c v vs r bufs ids :
  NoDup (x :: c) → linked h x (x :: c) → Forall2 (sees h r) (x :: c) (v :: vs) → msgs_ok h →
  data_ok h r bufs ((v_buf <$> v :: vs) ++ ids) → #ids + #(x :: c) < 2 ^ 31 →
  ∃ h', mb_release x h = Ok (0, h') ∧ msgs_ok h' ∧
    (∀ y, y ∉ x :: c → h_msgs h' !! y = h_msgs h !! y) ∧ (size (h_msgs h) = size (h_msgs h') + 1)%nat ∧
    data_ok h' (keep ids r) (keep ids bufs) ids.
Proof.
  intros Hnd (_ & b & Hb & Hl) Hs Hm Hd Hlen. apply Forall2_cons_1 in Hs as [(b' & E & Hrd & Hwr & Hr) Hs]. simplify_eq.
  apply NoDup_cons in Hnd as [Hx Hnd]. pose proof (msg_nonnull _ _ _ Hm Hb) as Hx0.
  unfold mb_release. rewrite (get_mb_ok x b), bind_Ok by done.
  destruct (release_rest_ok h x b c v vs r bufs ids) as (h1 & b1 & E1 & Hb1 & Hd1 & Ef1 & Hs1 & Hdom1 & Hok1); [done..|].
  rewrite E1, bind_Ok, (get_mb_ok x b1), bind_Ok, Hd1 by done. clear E1.
  destruct (db_release_ok h1 (keep (v_buf v :: ids) r) (keep (v_buf v :: ids) bufs) ids (v_buf v) (m_dataBlock b) Hok1) as (z & h2 & E2 & Em2 & Ef2 & Hd2).
  { cbn [length] in Hlen. lia. }
  { rewrite keep_lookup; [done|by left]. }
  rewrite !keep_keep in Hd2 by set_solver.
  assert (m_dataBlock b ≠ 0) as Hd0.
  { destruct (do_live _ _ _ _ Hd _ _ Hr) as (D & buf & HD & _). pose proof (proj2 (do_fresh _ _ _ _ Hd) _ (mk_is_Some _ _ HD)). lia. }
  rewrite (proj2 (Z.eqb_neq _ 0) Hd0). cbn [negb]. rewrite E2, bind_Ok.
  rewrite (mb_update_ok x b1), bind_Ok by (try rewrite Em2; done).
  unfold MessageBlock_delete. erewrite get_mb_ok by (first [apply put_mb_get | done]). rewrite bind_Ok.
  cbn [mb_with_data m_dataBlock Z.eqb negb]. rewrite bind_Ok. erewrite mb_update_ok by (first [apply put_mb_get | done]).
  rewrite !bind_Ok. eexists. split; [reflexivity|].
  unfold msgs_ok. cbn [with_msgs put_mb h_msgs h_fresh]. rewrite !delete_insert_eq, Em2.
  split_and!.
  - destruct Hm as [Hf Hm]. lia.
  - destruct Hm as [Hf Hm]. intros y [b2 [_ Hy]%lookup_delete_Some].
    apply mk_is_Some, elem_of_dom in Hy. rewrite Hdom1 in Hy. apply elem_of_dom in Hy. rewrite Ef2, Ef1. by apply Hm.
  - intros y Hy. rewrite lookup_delete_ne by set_solver. by apply Hs1.
  - assert (size (h_msgs h1) = size (h_msgs h)) as Hsz by (by rewrite <- !size_dom, Hdom1).
    rewrite map_size_delete_Some by eauto. rewrite <- Hsz. assert (size (h_msgs h1) ≠ 0%nat); [|lia].
    intros Hz. apply map_size_empty_iff in Hz. rewrite Hz in Hb1. done.
  - by eapply data_ok_msgs.
Qed.

(** ** Histories *)

Lemma join_delete {A} (cs : list (list A)) i c : cs !! i = Some c → mjoin cs ≡ₚ c ++ mjoin (delete i cs).
Proof. intros E. rewrite (delete_Permutation cs i c E) at 1. done. Qed.

Lemma join_inj {A} (cs : list (list A)) i j c d k l x :
  NoDup (mjoin cs) → cs !! i = Some c → cs !! j = Some d → c !! k = Some x → d !! l = Some x → i = j ∧ k = l.
Proof.
  intros Hnd Hi Hj Hk Hl. rewrite (join_delete cs i c Hi) in Hnd. apply NoDup_app in Hnd as (Hc & Hno & _).
  destruct (decide (i = j)) as [->|Hne].
  - simplify_eq. split; [done|]. by eapply NoDup_lookup.
  - exfalso. apply (Hno x); [by eapply list_elem_of_lookup_2|]. apply list_elem_of_join. exists d.
    split; [by eapply list_elem_of_lookup_2|].
    assert (d ∈ c :: delete i cs) as Hd by (rewrite <- (delete_Permutation cs i c Hi); by eapply list_elem_of_lookup_2).
    apply elem_of_cons in Hd as [->|]; [|done]. exfalso. clear -Hi Hj Hne Hno Hk. apply (Hno x).
    { by eapply list_elem_of_lookup_2. }
    apply list_elem_of_join. exists c. split; [by eapply list_elem_of_lookup_2|].
    apply list_elem_of_lookup. destruct (decide (j < i)%nat).
    + exists j. by rewrite list_lookup_delete_lt.
    + exists (j - 1)%nat. rewrite list_lookup_delete_ge by lia. by replace (S (j - 1)) with j by lia.
Qed.

Lemma related_chain hs h s cs r i vs :
  related hs h s cs r → s_chains s !! i = Some vs →
  ∃ m c, hs !! i = Some m ∧ cs !! i = Some c ∧ c ≠ [] ∧ NoDup c ∧ linked h m c ∧ Forall2 (sees h r) c vs.
Proof.
  intros [L E S N D M V X B Z] Hi.
  destruct (Forall2_lookup_r _ _ _ _ _ S Hi) as (c & Hc & Hsees).
  destruct (Forall2_lookup_r _ _ _ _ _ L Hc) as (m & Hm & Hl).
  exists m, c. split_and!; try done; [exact (Forall_lookup_1 _ _ _ _ E Hc)|].
  rewrite (join_delete cs i c Hc) in N. by apply NoDup_app in N as [? _].
Qed.

Lemma related_alive hs h s cs r x : related hs h s cs r → x ∈ mjoin cs → is_Some (h_msgs h !! x).
Proof.
  intros Hr. intros (c & Hx & Hc)%list_elem_of_join. apply list_elem_of_lookup in Hc as [i Hi].
  destruct (Forall2_lookup_l _ _ _ _ _ (re_sees _ _ _ _ _ Hr) Hi) as (vs & _ & Hs).
  apply list_elem_of_lookup in Hx as [k Hk]. destruct (Forall2_lookup_l _ _ _ _ _ Hs Hk) as (v & _ & b & Hb & _). by eexists.
Qed.

(** A new chain for a new handle. *)
Lemma related_app hs h s cs r h' m c vs r' bufs' n' :
  related hs h s cs r → made h r' m c vs h' → c ≠ [] → r ⊆ r' →
  data_ok h' r' bufs' ((v_buf <$> vs) ++ ids_of (s_chains s)) → #vs + #(ids_of (s_chains s)) < 2 ^ 31 →
  Forall (view_ok bufs') (mjoin (s_chains s)) → Forall (view_ok bufs') vs →
  (∀ i, is_Some (r' !! i) → (i < n')%nat) →
  related (hs ++ [m]) h' (mkShared (s_chains s ++ [vs]) bufs' n' (s_lost s)) (cs ++ [c]) r'.
Proof.
  intros Hrel [Lm Sm Nm Fm Om Bm Zm] Hc Hr Hd Hlen Hv Hv' Hn. pose proof Hrel as [L E S N D M V X B Z].
  assert (ids_of (s_chains s ++ [vs]) ≡ₚ (v_buf <$> vs) ++ ids_of (s_chains s)) as Hids.
  { unfold ids_of. rewrite join_app, fmap_app. cbn. rewrite app_nil_r. apply Permutation_app_comm. }
  constructor; cbn [s_chains s_bufs s_next s_lost].
  - apply Forall2_app; [|by constructor]. eapply Forall2_impl; [exact L|]. intros. by eapply linked_mono.
  - apply Forall_app_2; [done|]. by constructor.
  - apply Forall2_app; [|by constructor]. eapply Forall2_impl; [exact S|]. intros c' vs' Hs.
    eapply Forall2_impl; [exact Hs|]. intros. by eapply sees_mono.
  - rewrite join_app. cbn. rewrite app_nil_r. apply NoDup_app. split_and!; [done| |done].
    intros x Hx Hxc. rewrite Forall_forall in Fm. specialize (Fm x Hxc).
    pose proof (proj2 M x (related_alive _ _ _ _ _ x Hrel Hx)). lia.
  - by rewrite Hids.
  - done.
  - rewrite join_app. apply Forall_app_2; [done|]. cbn. by rewrite app_nil_r.
  - done.
  - rewrite Hids, length_app, length_fmap. lia.
  - rewrite join_app, length_app, Zm, Z. cbn. rewrite app_nil_r. lia.
Qed.

Lemma linked_conts h h' m c :
  (∀ x b, h_msgs h !! x = Some b → ∃ b', h_msgs h' !! x = Some b' ∧ m_cont b' = m_cont b) →
  linked h m c → linked h' m c.
Proof.
  intros Hx. revert m. induction c as [|x c IH]; intros m; cbn [linked]; [done|].
  intros (-> & b & Hb & Hl). split; [done|]. destruct (Hx x b Hb) as (b' & Hb' & E). exists b'.
  split; [done|]. rewrite E. auto.
Qed.

(** One block moves its pointers, and its buffer may change. *)
Lemma related_update hs h s cs r h' bufs' i k c vs x v v' b b' :
  related hs h s cs r → cs !! i = Some c → s_chains s !! i = Some vs → c !! k = Some x → vs !! k = Some v →
  h_msgs h !! x = Some b → h_msgs h' = <[x := b']> (h_msgs h) → h_fresh h ≤ h_fresh h' →
  m_cont b' = m_cont b → m_dataBlock b' = m_dataBlock b → v_buf v' = v_buf v →
  m_rdPtr b' = v_rd v' → m_wrPtr b' = v_wr v' →
  data_ok h' r bufs' (ids_of (s_chains s)) →
  (∀ w, view_ok (s_bufs s) w → view_ok bufs' w) → view_ok bufs' v' →
  related hs h' (mkShared (<[i := <[k := v']> vs]> (s_chains s)) bufs' (s_next s) (s_lost s)) cs r.
Proof.
  intros Hrel Hc Hvs Hx Hv Hb Em Hfr Ec Ed Ev Erd Ewr Hd Hmono Hv'. pose proof Hrel as [L E S N D M V X B Z].
  assert (ids_of (<[i := <[k := v']> vs]> (s_chains s)) = ids_of (s_chains s)) as Hids.
  { unfold ids_of. 
    rewrite <- (take_drop_middle _ _ _ Hvs) at 2. rewrite insert_take_drop by by eapply lookup_lt_Some.
    rewrite !join_app. cbn. rewrite !fmap_app. do 2 f_equal. rewrite list_fmap_insert. apply list_insert_id.
    rewrite list_lookup_fmap, Hv. cbn. by rewrite Ev. }
  assert (Forall2 (sees h r) c vs) as Hs by (by eapply (Forall2_lookup_lr _ _ _ i)).
  assert (∀ j d l y, cs !! j = Some d → d !! l = Some y → (j, l) ≠ (i, k) → h_msgs h' !! y = h_msgs h !! y) as Hsame.
  { intros j d l y Hj Hl Hne. rewrite Em, lookup_insert_ne; [done|]. intros <-.
    destruct (join_inj cs i j c d k l x) as [-> ->]; done. }
  constructor; cbn [s_chains s_bufs s_next s_lost]; rewrite ?Hids; try done.
  - eapply Forall2_impl; [exact L|]. intros m d. apply linked_conts. intros y by_ Hy. rewrite Em.
    destruct (decide (y = x)) as [->|Hne]; [|rewrite lookup_insert_ne by done; by eexists].
    rewrite lookup_insert_eq. simplify_eq. by eexists.
  - apply Forall2_same_length_lookup. split; [rewrite length_insert; by eapply Forall2_length|].
    intros j d ws Hj Hws. apply list_lookup_insert_Some in Hws as [(<- & <- & _)|[Hne Hws]].
    + simplify_eq. apply Forall2_same_length_lookup. split; [rewrite length_insert; by eapply Forall2_length|].
      intros l y w Hl Hw. apply list_lookup_insert_Some in Hw as [(<- & <- & _)|[Hne Hw]].
      * simplify_eq. exists b'. rewrite Em, lookup_insert_eq, Ev, Ed. split_and!; try done.
        destruct (Forall2_lookup_lr _ _ _ _ _ _ Hs Hx Hv) as (b1 & ? & _ & _ & ?). by simplify_eq.
      * eapply sees_other; [|by eapply (Forall2_lookup_lr _ _ _ l _ _ Hs)]. eapply (Hsame i _ l); [done..|congruence].
    + eapply chain_other; [|by eapply (Forall2_lookup_lr _ _ _ j _ _ S)]. intros y Hy.
      apply list_elem_of_lookup in Hy as [l Hl]. eapply (Hsame j d l); [done..|congruence].
  - destruct M as [Hf M]. split; [lia|]. rewrite Em. intros y. rewrite lookup_insert_is_Some. intros [<- |[_ Hy]].
    + specialize (M x (mk_is_Some _ _ Hb)). lia.
    + specialize (M y Hy). lia.
  - apply Forall_forall. intros w (ws & Hw & Hws)%list_elem_of_join. apply list_elem_of_lookup in Hws as [j Hws].
    assert (∀ j ws w, s_chains s !! j = Some ws → w ∈ ws → view_ok bufs' w) as Hold.
    { intros j' ws' w' H1 H2. apply Hmono. rewrite Forall_forall in V. apply V. apply list_elem_of_join. exists ws'.
      split; [done|]. by eapply list_elem_of_lookup_2. }
    apply list_lookup_insert_Some in Hws as [(<- & <- & _)|[Hne Hws]]; [|by eapply Hold].
    apply list_elem_of_lookup in Hw as [l Hw]. apply list_lookup_insert_Some in Hw as [(<- & <- & _)|[_ Hw]]; [done|].
    eapply Hold; [exact Hvs|]. by eapply list_elem_of_lookup_2.
  - rewrite Em, map_size_insert_Some by eauto. done.
Qed.

Lemma handle_ok hs i m : hs !! i = Some m → handle hs i = Ok m.
Proof. intros E. unfold handle. by rewrite E. Qed.

Lemma nth_cont_ok h c : ∀ m k x, msgs_ok h → linked h m c → c !! k = Some x → nth_cont k m h = Ok x.
Proof.
  induction c as [|y c IH]; intros m k x Hok Hl Hk; [done|]. destruct Hl as (-> & b & Hb & Hl).
  destruct k as [|k]; cbn in Hk; [by simplify_eq|]. cbn [nth_cont]. unfold mb_cont.
  rewrite (get_mb_ok y b), !bind_Ok by eauto using msg_nonnull. by apply IH.
Qed.

Lemma last_cont_ok h c : ∀ fuel m, msgs_ok h → (length c ≤ fuel)%nat → c ≠ [] → linked h m c →
  ∃ d t, c = d ++ [t] ∧ last_cont fuel m h = Ok t.
Proof.
  induction c as [|y c IH]; intros fuel m Hok Hfuel Hne Hl; [done|]. destruct Hl as (-> & b & Hb & Hl).
  destruct fuel as [|fuel]; [cbn in Hfuel; lia|]. cbn [last_cont]. unfold mb_cont.
  rewrite (get_mb_ok y b), !bind_Ok by eauto using msg_nonnull. destruct c as [|z c].
  - cbn in Hl. rewrite Hl. exists [], y. done.
  - rewrite (proj2 (Z.eqb_neq _ 0)) by (by eapply linked_nonnull).
    destruct (IH fuel (m_cont b)) as (d & t & -> & E); try done; [cbn in *; lia|]. exists (y :: d), t. done.
Qed.

Definition simulates (o : BlockOp) : Prop := ∀ hs h s cs r s',
  related hs h s cs r → block_step o s = Some s' →
  ∃ hs' h' cs' r', block_op o hs h = Ok (hs', h') ∧ related hs' h' s' cs' r'.

Lemma step_new size : simulates (BNew size).
Proof.
  intros hs h s cs r s' Hrel Hstep. cbn [block_step] in Hstep. case_bool_decide as Hg; [|done]. destruct Hg as [Hsz Hlen].
  simplify_eq. cbn [block_op]. pose proof Hrel as [L E S N D M V X B Z].
  assert (r !! s_next s = None) as Hn by (apply eq_None_not_Some; intros Hi; specialize (X _ Hi); lia).
  destruct (of_size_ok h r (s_bufs s) _ (s_next s) size D (proj1 M) Hsz Hn) as (h' & d & E1 & Em & Ef & Hd).
  rewrite E1, bind_Ok. eexists _, _, (cs ++ [[h_fresh h]]), (<[s_next s := d]> r). split; [reflexivity|].
  assert (s_bufs s !! s_next s = None) as Hbn by (apply eq_None_not_Some; intros Hi%(do_bufs _ _ _ _ D); rewrite Hn in Hi; by apply is_Some_None in Hi).
  eapply related_app; try done.
  - eapply made_one; try done. apply lookup_insert_eq.
  - by apply insert_subseteq.
  - cbn. lia.
  - eapply Forall_impl; [exact V|]. intros v Hv. eapply view_ok_mono; [|exact Hv]. by apply insert_subseteq.
  - constructor; [|done]. eexists. cbn. rewrite lookup_insert_eq. split; [reflexivity|]. cbn. rewrite junk_length by lia. lia.
  - intros i. rewrite lookup_insert_is_Some. intros [<- |[_ Hi]]; [lia|]. specialize (X i Hi). lia.
Qed.

Lemma chain_views s i c : s_chains s !! i = Some c → Forall (view_ok (s_bufs s)) (mjoin (s_chains s)) → Forall (view_ok (s_bufs s)) c.
Proof.
  intros Hi Hv. rewrite Forall_forall in Hv |- *. intros v Hin. apply Hv. apply list_elem_of_join. exists c.
  split; [done|]. by eapply list_elem_of_lookup_2.
Qed.

Lemma step_duplicate i : simulates (BDuplicate i).
Proof.
  intros hs h s cs r s' Hrel Hstep. cbn [block_step] in Hstep.
  destruct (s_chains s !! i) as [vs|] eqn:Hi; [|done]. cbn in Hstep. case_bool_decide as Hg; [|done]. simplify_eq.
  destruct (related_chain _ _ _ _ _ _ _ Hrel Hi) as (m & c & Hm & Hc & Hne & Hnd & Hl & Hs).
  pose proof Hrel as [L E S N D M V X B Z]. pose proof (Forall2_length _ _ _ Hs) as Hlen.
  cbn [block_op]. rewrite (handle_ok _ _ _ Hm), bind_Ok. unfold mb_duplicate.
  destruct (mb_duplicate_ok r (s_bufs s) c (chain_fuel h) h m vs _ ltac:(unfold chain_fuel; pose proof (linked_size _ _ _ Hnd Hl); lia)
    Hne Hl Hs (chain_views _ _ _ Hi V) D M) as (m' & c' & h' & E1 & Hne' & Hmade & Hd); [lia|].
  rewrite E1, bind_Ok. eexists _, _, (cs ++ [c']), r. split; [reflexivity|].
  eapply related_app; try done; [lia|by eapply chain_views].
Qed.

Lemma clone_views_length vs : ∀ bufs n, length (clone_views vs bufs n).1.1 = length vs.
Proof.
  induction vs as [|v vs IH]; intros bufs n; cbn [clone_views]; [done|]. cbv zeta.
  specialize (IH (<[n := (#((default (0, []) (bufs !! v_buf v)).2), (default (0, []) (bufs !! v_buf v)).2)]> bufs) (S n)).
  destruct (clone_views vs _ _) as [[us b1] n1]. cbn in *. by rewrite IH.
Qed.

Lemma step_clone i : simulates (BClone i).
Proof.
  intros hs h s cs r s' Hrel Hstep. cbn [block_step] in Hstep.
  destruct (s_chains s !! i) as [vs|] eqn:Hi; [|done]. cbn in Hstep. case_bool_decide as Hg; [|done].
  destruct (related_chain _ _ _ _ _ _ _ Hrel Hi) as (m & c & Hm & Hc & Hne & Hnd & Hl & Hs).
  pose proof Hrel as [L E S N D M V X B Z].
  cbn [block_op]. rewrite (handle_ok _ _ _ Hm), bind_Ok. unfold mb_clone.
  destruct (mb_clone_ok c (chain_fuel h) h m vs r (s_bufs s) _ (s_next s) ltac:(unfold chain_fuel; pose proof (linked_size _ _ _ Hnd Hl); lia)
    Hne Hl Hs (chain_views _ _ _ Hi V) D M X) as (m' & c' & h' & r' & vs' & bufs' & n' & E1 & Hne' & Ec & Hmade & Hr & Hb & Hd & Hn & Hv).
  rewrite E1, bind_Ok. rewrite Ec in Hstep. simplify_eq. eexists _, _, (cs ++ [c']), r'. split; [reflexivity|].
  assert (length vs' = length vs) as Hlen.
  { rewrite <- (clone_views_length vs (s_bufs s) (s_next s)). by rewrite Ec. }
  eapply related_app; try done; [lia|]. eapply Forall_impl; [exact V|]. intros. by eapply view_ok_mono.
Qed.

Lemma elem_ids v c cs i : cs !! i = Some c → v ∈ c → v_buf v ∈ ids_of cs.
Proof.
  intros Hi Hv. unfold ids_of. apply list_elem_of_fmap_2. apply list_elem_of_join. exists c. split; [done|]. by eapply list_elem_of_lookup_2.
Qed.

Lemma step_release i : simulates (BRelease i).
Proof.
  intros hs h s cs r s' Hrel Hstep. cbn [block_step] in Hstep.
  destruct (s_chains s !! i) as [vs|] eqn:Hi; [|done]. cbn in Hstep. simplify_eq.
  destruct (related_chain _ _ _ _ _ _ _ Hrel Hi) as (m & c & Hm & Hc & Hne & Hnd & Hl & Hs).
  pose proof Hrel as [L E S N D M V X B Z]. pose proof (Forall2_length _ _ _ Hs) as Hlen.
  destruct c as [|x c]; [done|]. destruct vs as [|v vs]; [done|]. assert (m = x) as -> by apply Hl.
  assert (ids_of (s_chains s) ≡ₚ (v_buf <$> v :: vs) ++ ids_of (delete i (s_chains s))) as Hids.
  { unfold ids_of. rewrite (join_delete _ _ _ Hi) at 1. by rewrite fmap_app. }
  set (ids := ids_of (delete i (s_chains s))) in *.
  rewrite Hids in D. rewrite Hids, length_app, length_fmap in B.
  destruct (mb_release_ok h x c v vs r (s_bufs s) ids Hnd Hl Hs M D) as (h' & E1 & Hm' & Hsame & Hsz & Hd); [lia|].
  cbn [block_op]. rewrite (handle_ok _ _ _ Hm), bind_Ok, E1, bind_Ok.
  eexists _, _, (delete i cs), (keep ids r). split; [reflexivity|].
  rewrite (join_delete cs i _ Hc) in N. apply NoDup_app in N as (_ & Hdis & N).
  assert (∀ y, y ∈ mjoin (delete i cs) → h_msgs h' !! y = h_msgs h !! y) as Hothers.
  { intros y Hy. apply Hsame. intros Hin. by apply (Hdis y). }
  assert (∀ j d y, delete i cs !! j = Some d → y ∈ d → h_msgs h' !! y = h_msgs h !! y) as Hothers'.
  { intros j d y Hj Hy. apply Hothers. apply list_elem_of_join. exists d. split; [done|]. by eapply list_elem_of_lookup_2. }
  constructor; cbn [s_chains s_bufs s_next s_lost]; try done.
  - apply Forall2_same_length_lookup. split; [by eapply Forall2_length, Forall2_delete|].
    intros j y d Hy Hd'. eapply linked_other; [intros; by eapply Hothers'|].
    eapply (Forall2_lookup_lr (linked h)); [by apply Forall2_delete|done..].
  - by apply Forall_delete.
  - apply Forall2_same_length_lookup. split; [by eapply Forall2_length, Forall2_delete|].
    intros j d ws Hd' Hws. apply sees_keep; [intros; by eapply elem_ids|].
    eapply chain_other; [intros; by eapply Hothers'|].
    eapply (Forall2_lookup_lr (Forall2 (sees h r))); [by apply Forall2_delete|done..].
  - apply Forall_forall. intros w Hw. rewrite Forall_forall in V.
    destruct (V w) as (buf & Hbuf & ?).
    { rewrite (join_delete _ _ _ Hi). apply elem_of_app. by right. }
    exists buf. rewrite keep_lookup; [done|]. by apply list_elem_of_fmap_2.
  - intros j [d Hj]. apply keep_Some in Hj as [Hj _]. apply X. by eexists.
  - fold ids. lia.
  - rewrite (join_delete cs i _ Hc), length_app in Z. cbn [length] in *. lia.
Qed.

Lemma list_delete_insert {A} (l : list A) i x : delete i (<[i := x]> l) = delete i l.
Proof. revert i. induction l as [|y l IH]; intros [|i]; cbn; [done..|]. f_equal. apply IH. Qed.

(** Joining two of the chains keeps all blocks. *)
Lemma join_link {A} (cs : list (list A)) i j c d :
  i ≠ j → cs !! i = Some c → cs !! j = Some d → mjoin (delete j (<[i := c ++ d]> cs)) ≡ₚ mjoin cs.
Proof.
  intros Hij Hi Hj. apply (Permutation_app_inv_l d).
  assert (<[i := c ++ d]> cs !! j = Some d) as E1 by (by rewrite list_lookup_insert_ne).
  rewrite <- (join_delete _ _ _ E1).
  assert (<[i := c ++ d]> cs !! i = Some (c ++ d)) as E2 by (apply list_lookup_insert_eq; by eapply lookup_lt_Some).
  rewrite (join_delete _ _ _ E2), (join_delete cs i c Hi), !app_assoc. apply Permutation_app; [apply Permutation_app_comm|].
  by rewrite list_delete_insert.
Qed.

Lemma linked_append h h' m c t m' d b :
  linked h m (c ++ [t]) → linked h' m' d → h_msgs h !! t = Some b → NoDup (c ++ [t]) →
  h_msgs h' = <[t := mb_with_cont m' b]> (h_msgs h) → linked h' m ((c ++ [t]) ++ d).
Proof.
  intros Hl Hd Hb Hnd Em. revert m Hl. induction c as [|x c IH]; intros m Hl.
  - destruct Hl as (-> & _). cbn. split; [done|]. eexists. rewrite Em, lookup_insert_eq. done.
  - destruct Hl as (-> & bx & Hx & Hl). apply NoDup_cons in Hnd as [Hnx Hnd]. cbn. split; [done|]. exists bx.
    rewrite Em, lookup_insert_ne by (intros ->; apply Hnx; set_solver). split; [done|]. by apply IH.
Qed.

Lemma step_link i j : simulates (BLink i j).
Proof.
  intros hs h s cs r s' Hrel Hstep. cbn [block_step] in Hstep. case_bool_decide as Hij; [done|].
  destruct (s_chains s !! i) as [vs|] eqn:Hi; [|done]. destruct (s_chains s !! j) as [ws|] eqn:Hj; [|done].
  cbn in Hstep. simplify_eq. pose proof Hrel as [L E S N D M V X B Z].
  destruct (related_chain _ _ _ _ _ _ _ Hrel Hi) as (m & c & Hm & Hc & Hne & Hnd & Hl & Hs).
  destruct (related_chain _ _ _ _ _ _ _ Hrel Hj) as (m' & d & Hm' & Hd & Hned & Hndd & Hld & Hsd).
  cbn [block_op]. rewrite (handle_ok _ _ _ Hm), bind_Ok, (handle_ok _ _ _ Hm'), bind_Ok.
  destruct (last_cont_ok h c (chain_fuel h) m M) as (c0 & t & -> & El); [|done..|].
  { unfold chain_fuel. pose proof (linked_size _ _ _ Hnd Hl). lia. }
  assert (is_Some (h_msgs h !! t)) as [b Hb].
  { eapply related_alive; [done|]. apply list_elem_of_join. exists (c0 ++ [t]). split; [set_solver|]. by eapply list_elem_of_lookup_2. }
  rewrite El, bind_Ok. unfold mb_set_cont. rewrite (mb_update_ok t b), bind_Ok by eauto using msg_nonnull.
  set (h' := put_mb _ _ _). eexists _, h', (delete j (<[i := (c0 ++ [t]) ++ d]> cs)), r. split; [reflexivity|].
  assert (∀ k e y, k ≠ i → cs !! k = Some e → y ∈ e → h_msgs h' !! y = h_msgs h !! y) as Hsame.
  { intros k e y Hk He Hy. cbn. rewrite lookup_insert_ne; [done|]. intros <-. apply list_elem_of_lookup in Hy as [l Hl'].
    destruct (join_inj cs i k (c0 ++ [t]) e (length c0) l t) as [? _]; try done. by rewrite lookup_app_r, Nat.sub_diag by lia. }
  assert (∀ e us, Forall2 (sees h r) e us → Forall2 (sees h' r) e us) as Hsees.
  { intros e us. induction 1 as [|y u e us (b1 & Hy & ? & ? & ?) _ IH]; constructor; [|done].
    cbn. destruct (decide (y = t)) as [->|].
    - simplify_eq. exists (mb_with_cont m' b). unfold h'. by rewrite put_mb_get.
    - exists b1. cbn. by rewrite lookup_insert_ne. }
  assert (ids_of (delete j (<[i := vs ++ ws]> (s_chains s))) ≡ₚ ids_of (s_chains s)) as Hids.
  { unfold ids_of. by rewrite (join_link _ _ _ _ _ Hij Hi Hj). }
  constructor; cbn [s_chains s_bufs s_next s_lost].
  - apply Forall2_delete with (i := j) (l := hs). rewrite <- (list_insert_id hs i m Hm).
    apply Forall2_same_length_lookup. split; [rewrite !length_insert; by eapply Forall2_length|].
    intros k y e Hy He. apply list_lookup_insert_Some in He as [(<- & <- & _)|[Hk He]].
    + rewrite list_lookup_insert_eq in Hy by (by eapply lookup_lt_Some). simplify_eq.
      eapply linked_append; [exact Hl| |exact Hb|done|done]. eapply linked_other; [|exact Hld].
      intros z Hz. by eapply (Hsame j).
    + rewrite list_lookup_insert_ne in Hy by done. eapply linked_other; [intros z Hz; by eapply (Hsame k)|].
      by eapply (Forall2_lookup_lr _ _ _ k _ _ L).
  - apply Forall_delete, Forall_insert; [done|]. by destruct c0.
  - apply Forall2_delete. eapply Forall2_insert; [|apply Forall2_app; by apply Hsees].
    eapply Forall2_impl; [exact S|]. auto.
  - by rewrite (join_link _ _ _ _ _ Hij Hc Hd).
  - rewrite Hids. by eapply data_ok_msgs.
  - destruct M as [Hf M]. split; [done|]. intros y. cbn. rewrite lookup_insert_is_Some. intros [<- |[_ Hy]]; [|by apply M].
    apply M. by eexists.
  - by rewrite (join_link _ _ _ _ _ Hij Hi Hj).
  - done.
  - by rewrite Hids.
  - cbn. rewrite map_size_insert_Some by eauto. by rewrite (join_link _ _ _ _ _ Hij Hc Hd).
Qed.

(** The block a handle and an index lead to, with its buffer. *)
Lemma related_block hs h s cs r i k vs v :
  related hs h s cs r → s_chains s !! i = Some vs → vs !! k = Some v →
  ∃ m c x b D buf, hs !! i = Some m ∧ cs !! i = Some c ∧ c !! k = Some x ∧ nth_cont k m h = Ok x ∧
    h_msgs h !! x = Some b ∧ x ≠ 0 ∧ m_rdPtr b = v_rd v ∧ m_wrPtr b = v_wr v ∧ r !! v_buf v = Some (m_dataBlock b) ∧
    h_data h !! m_dataBlock b = Some D ∧ m_dataBlock b ≠ 0 ∧ s_bufs s !! v_buf v = Some buf ∧ holds h D buf ∧
    d_referenceCount D = times (v_buf v) (ids_of (s_chains s)) ∧ v_buf v ∈ ids_of (s_chains s) ∧
    0 ≤ v_rd v ≤ v_wr v ∧ v_wr v ≤ #(buf.2).
Proof.
  intros Hrel Hi Hk. destruct (related_chain _ _ _ _ _ _ _ Hrel Hi) as (m & c & Hm & Hc & Hne & Hnd & Hl & Hs).
  pose proof Hrel as [L E S N D M V X B Z].
  destruct (Forall2_lookup_r _ _ _ _ _ Hs Hk) as (x & Hx & b & Hb & Hrd & Hwr & Hr).
  destruct (do_live _ _ _ _ D _ _ Hr) as (db & buf & Hdb & Hbuf & Hh & Hct).
  pose proof (proj2 (do_fresh _ _ _ _ D) _ (mk_is_Some _ _ Hdb)).
  destruct (proj1 (Forall_forall _ _) (chain_views _ _ _ Hi V) v) as (buf' & E' & Hv1 & Hv2); [by eapply list_elem_of_lookup_2|].
  simplify_eq. exists m, c, x, b, db, buf. split_and!; try done; try lia.
  - by eapply nth_cont_ok.
  - by eapply msg_nonnull.
  - eapply elem_ids; [done|]. by eapply list_elem_of_lookup_2.
Qed.

(** A larger or rewritten buffer keeps the views on it. *)
Lemma view_ok_insert bufs i buf buf' w :
  bufs !! i = Some buf → #(buf.2) ≤ #(buf'.2) → view_ok bufs w → view_ok (<[i := buf']> bufs) w.
Proof.
  intros Hb Hle (b & E & H1 & H2). destruct (decide (v_buf w = i)) as [<-|Hne].
  - simplify_eq. exists buf'. rewrite lookup_insert_eq. split_and!; try done; lia.
  - exists b. by rewrite lookup_insert_ne.
Qed.

Lemma step_skip i k n : simulates (BSkip i k n).
Proof.
  intros hs h s cs r s' Hrel Hstep. cbn [block_step] in Hstep.
  destruct (s_chains s !! i) as [vs|] eqn:Hi; [|done]. cbn in Hstep. destruct (vs !! k) as [v|] eqn:Hk; [|done].
  cbn in Hstep. case_bool_decide as Hg; [|done]. simplify_eq.
  destruct (related_block _ _ _ _ _ _ _ _ _ Hrel Hi Hk)
    as (m & c & x & b & D & buf & Hm & Hc & Hx & Ex & Hb & Hx0 & Hrd & Hwr & Hr & HD & Hd0 & Hbuf & Hh & Hct & Hin & Hv1 & Hv2).
  cbn [block_op]. rewrite (handle_ok _ _ _ Hm), bind_Ok, Ex, bind_Ok. unfold mb_move_rdPtr.
  rewrite (mb_update_ok x b), bind_Ok by done. eexists _, _, cs, r. split; [reflexivity|].
  destruct Hh as (_ & _ & _ & Hbl & _).
  eapply (related_update hs h s cs r _ (s_bufs s) i k c vs x v); try done; cbn [mb_with_rd m_rdPtr m_wrPtr v_rd v_wr v_buf].
  - rewrite Hrd, wrap_small; [done|]. unfold in_u. lia.
  - eapply data_ok_msgs; [exact (re_data _ _ _ _ _ Hrel)|done..].
  - exists buf. cbn. split_and!; try done; lia.
Qed.

Lemma step_copy i k bs : simulates (BCopy i k bs).
Proof.
  intros hs h s cs r s' Hrel Hstep. cbn [block_step] in Hstep.
  destruct (s_chains s !! i) as [vs|] eqn:Hi; [|done]. cbn in Hstep. destruct (vs !! k) as [v|] eqn:Hk; [|done]. cbn in Hstep.
  destruct (related_block _ _ _ _ _ _ _ _ _ Hrel Hi Hk)
    as (m & c & x & b & D & [cur w] & Hm & Hc & Hx & Ex & Hb & Hx0 & Hrd & Hwr & Hr & HD & Hd0 & Hbuf & Hh & Hct & Hin & Hv1 & Hv2).
  rewrite Hbuf in Hstep. cbn in Hstep. cbn [fst snd] in Hv2.
  destruct (Hh) as (Hc1 & Hm1 & Hcm & Hbl & Hdel & Hb0 & Hbp & Hch). cbn [fst snd] in *.
  cbn [block_op]. rewrite (handle_ok _ _ _ Hm), bind_Ok, Ex, bind_Ok.
  unfold mb_copy, mb_end, mb_wrPtr, mb_base, db_end, db_base.
  rewrite !(get_mb_ok x b), !bind_Ok, !(get_db_ok _ D), !bind_Ok by done. unfold ptr_diff, ptr_add. cbn [fst snd].
  rewrite Z.eqb_refl, bind_Ok, Hb0, Hm1, Hwr. replace (0 + #w - (0 + v_wr v)) with (#w - v_wr v) by lia.
  rewrite wrap_small by (unfold in_u; lia).
  destruct (#w - v_wr v <? #bs) eqn:Hfit; b2p.
  { simplify_eq. rewrite bind_Ok. eexists _, _, cs, r. done. }
  simplify_eq. rewrite (load_all bs), bind_Ok by done.
  set (h1 := put_array (d_base D).1 (patched (v_wr v) bs w) h).
  assert (∃ h2, write_chars ((d_base D).1, 0 + v_wr v) bs h = Ok h2 ∧ h_msgs h2 = h_msgs h ∧ h_data h2 = h_data h ∧ h_fresh h2 = h_fresh h ∧
            h_chars h2 = h_chars h1) as (h2 & E2 & Em2 & Ed2 & Ef2 & Ec2).
  { unfold write_chars. cbn [fst snd]. split_if.
    - destruct bs; [|done]. eexists. split; [reflexivity|]. split_and!; try done. unfold h1. cbn [put_array with_chars h_chars].
      rewrite insert_id; [done|]. rewrite Hch. f_equal. unfold patched. cbn. rewrite Nat.add_0_r. by rewrite take_drop.
    - rewrite (follow_ok _ _ w), bind_Ok by (done || lia). rewrite store_patched by lia. rewrite bind_Ok. by eexists. }
  rewrite E2, bind_Ok. unfold mb_move_wrPtr. rewrite (mb_update_ok x b), !bind_Ok by (try rewrite Em2; done).
  eexists _, _, cs, r. split; [reflexivity|].
  eapply (related_update hs h s cs r _ _ i k c vs x v _ b (mb_with_wr (u64 (m_wrPtr b + #bs)) b)); try done; cbn [mb_with_wr m_rdPtr m_wrPtr v_rd v_wr v_buf].
  - cbn [put_mb with_msgs h_msgs]. by rewrite Em2.
  - cbn. lia.
  - rewrite Hwr, wrap_small; [done|]. unfold in_u. lia.
  - eapply (data_ok_update h _ r (s_bufs s) _ (ids_of (s_chains s)) _ (v_buf v) (m_dataBlock b) D D); try done.
    + exact (re_data _ _ _ _ _ Hrel).
    + cbn. rewrite Ed2. by rewrite insert_id.
    + cbn. lia.
    + unfold holds. cbn [put_mb with_msgs h_chars fst snd]. rewrite Ec2. unfold h1. cbn [put_array with_chars h_chars].
      rewrite lookup_insert_eq, patched_length by lia. split_and!; try done; lia.
    + intros a Ha _. cbn [put_mb with_msgs h_chars]. rewrite Ec2. unfold h1. cbn. by rewrite lookup_insert_ne.
    + by left.
  - intros u Hu. eapply view_ok_insert; [exact Hbuf| |exact Hu]. cbn. rewrite patched_length by lia. lia.
  - eexists. cbn. rewrite lookup_insert_eq. split; [reflexivity|]. cbn. rewrite patched_length by lia. lia.
Qed.

(** What [size (n)] leaves in a data block of [cur] bytes in use of [w]. *)
Definition resized (n cur : Z) (w : list Z) : Z * list Z :=
  if n <=? #w then (n, w) else (n, patched 0 (take (Z.to_nat cur) w) (junk n)).

Lemma resized_length n cur w : 0 ≤ cur ≤ #w → #w ≤ #((resized n cur w).2).
Proof.
  intros Hc. unfold resized. split_if; cbn; [lia|]. rewrite patched_length; rewrite ?junk_length, ?length_take by lia; lia.
Qed.

Lemma db_set_size_ok h d D cur w n :
  h_data h !! d = Some D → d ≠ 0 → holds h D (cur, w) → (d_base D).1 < h_fresh h → 0 ≤ n < 2 ^ 62 →
  ∃ h' D', db_set_size d n h = Ok (0, h') ∧ h_msgs h' = h_msgs h ∧ h_fresh h ≤ h_fresh h' ∧
    h_data h' = <[d := D']> (h_data h) ∧ d_referenceCount D' = d_referenceCount D ∧ holds h' D' (resized n cur w) ∧
    (∀ a, a ≠ (d_base D).1 → a ≠ (d_base D').1 → h_chars h' !! a = h_chars h !! a) ∧
    ((d_base D').1 = (d_base D).1 ∨ h_fresh h ≤ (d_base D').1 < h_fresh h' ∧ h_chars h' !! (d_base D).1 = None).
Proof.
  intros HD Hd0 (Hc1 & Hm1 & Hcm & Hbl & Hdel & Hb0 & Hbp & Hch) Hba Hn. cbn [fst snd] in *. unfold db_set_size, resized.
  rewrite (get_db_ok _ D), bind_Ok, Hm1 by done. split_if.
  - eexists _, (db_with_size n D). split; [reflexivity|]. cbn [put_db with_dbs h_msgs h_fresh h_data h_chars db_with_size d_referenceCount d_base].
    split_and!; try done; [|by left]. unfold holds. cbn. split_and!; try done; lia.
  - unfold new_array, fresh_address. cbv beta iota zeta. rewrite Hdel, Hc1.
    set (a := h_fresh h) in *. set (src := take (Z.to_nat cur) w).
    assert (#src = cur) as Hsrc by (unfold src; rewrite length_take; lia).
    change (put_array a (junk n) _) with (put_array a (junk n) (bump h)). set (h1 := put_array a (junk n) (bump h)).
    assert (read_chars (d_base D) cur h1 = Ok src) as Er.
    { unfold read_chars. split_if; [subst src; by replace cur with 0|]. unfold h1. cbn [put_array with_chars h_chars bump].
      rewrite (follow_ok _ _ w) by (try lia; rewrite lookup_insert_ne by lia; done). rewrite bind_Ok, Hb0.
      rewrite load_slice by lia. unfold slice, src. by rewrite Z.sub_0_r, Z.add_0_l. }
    rewrite Er, bind_Ok.
    assert (write_chars (a, 0) src h1 = Ok (put_array a (patched 0 src (junk n)) h1)) as Ew.
    { unfold write_chars. cbn [fst snd]. split_if.
      - destruct src; [|done]. unfold patched. cbn. unfold h1, put_array, with_chars. cbn. by rewrite insert_insert_eq.
      - rewrite (follow_ok _ _ (junk n)) by (try lia; unfold h1; cbn; apply lookup_insert_eq).
        rewrite bind_Ok, store_patched by (rewrite ?junk_length by lia; lia). done. }
    rewrite Ew, bind_Ok. unfold delete_array. rewrite (proj2 (Z.eqb_neq _ 0)) by lia. rewrite Hb0. cbn [Z.eqb negb].
    unfold h1. cbn [put_array with_chars h_chars bump].
    rewrite (follow_ok _ _ w) by (try lia; rewrite !lookup_insert_ne by lia; done). rewrite !bind_Ok.
    eexists _, _. split; [reflexivity|]. unfold holds.
    cbn [put_db put_array bump with_dbs with_chars h_msgs h_fresh h_data h_chars d_referenceCount d_curSize d_maxSize d_deleteData d_base fst snd].
    rewrite patched_length by (rewrite ?junk_length by lia; lia). rewrite junk_length by lia.
    split_and!; try done; try (cbn; lia).
    + cbn [d_base fst]. rewrite lookup_delete_ne by lia. by rewrite lookup_insert_eq.
    + intros a' Ha1 Ha2. by rewrite lookup_delete_ne, !lookup_insert_ne by done.
    + right. split; [cbn; lia|]. apply lookup_delete_eq.
Qed.

Lemma step_resize i k n : simulates (BResize i k n).
Proof.
  intros hs h s cs r s' Hrel Hstep. cbn [block_step] in Hstep. case_bool_decide as Hn; [|done].
  destruct (s_chains s !! i) as [vs|] eqn:Hi; [|done]. cbn in Hstep. destruct (vs !! k) as [v|] eqn:Hk; [|done]. cbn in Hstep.
  destruct (related_block _ _ _ _ _ _ _ _ _ Hrel Hi Hk)
    as (m & c & x & b & D & [cur w] & Hm & Hc & Hx & Ex & Hb & Hx0 & Hrd & Hwr & Hr & HD & Hd0 & Hbuf & Hh & Hct & Hin & Hv1 & Hv2).
  rewrite Hbuf in Hstep. cbn in Hstep. simplify_eq. fold (resized n cur w).
  assert (h_chars h !! (d_base D).1 = Some w ∧ 0 ≤ cur ≤ #w) as [Hch Hcur] by (destruct Hh as (_ & _ & ? & _ & _ & _ & _ & ?); done).
  pose proof Hrel as [L E S N Dk M V X B Z].
  assert (0 < (d_base D).1 < h_fresh h) as Hba by (apply (proj1 (do_fresh _ _ _ _ Dk)); by eexists).
  cbn [block_op]. rewrite (handle_ok _ _ _ Hm), bind_Ok, Ex, bind_Ok. unfold mb_set_size. rewrite (get_mb_ok x b), bind_Ok by done.
  destruct (db_set_size_ok h _ D cur w n HD Hd0 Hh (proj2 Hba) Hn) as (h' & D' & E1 & Em & Ef & Ed & Ect & Hh' & Hothers & Hbase).
  rewrite E1, !bind_Ok. cbn [Z.eqb]. eexists _, h', cs, r. split; [reflexivity|].
  rewrite <- (list_insert_id (s_chains s) i vs Hi) at 1. rewrite <- (list_insert_id vs k v Hk) at 1.
  pose proof (resized_length n cur w Hcur).
  eapply (related_update hs h s cs r h' _ i k c vs x v v b b); try done.
  - by rewrite Em, insert_id.
  - eapply data_ok_update; try done. by rewrite Ect.
  - intros u Hu. by eapply view_ok_insert.
  - eapply view_ok_insert; [done..|]. eexists. split; [exact Hbuf|]. cbn in Hv2 |- *. lia.
Qed.

Lemma block_op_ok o : simulates o.
Proof.
  destruct o; auto using step_new, step_duplicate, step_clone, step_release, step_link, step_copy, step_resize, step_skip.
Qed.

Lemma no_blocks_related : related [] empty_heap no_blocks [] ∅.
Proof.
  assert (data_ok empty_heap ∅ ∅ []) as Hd.
  { split; cbn.
    - intros i j d Hi. by rewrite lookup_empty in Hi.
    - intros i d Hi. by rewrite lookup_empty in Hi.
    - intros i. rewrite lookup_empty. split; [by intros ?%not_elem_of_nil|by intros ?%is_Some_None].
    - intros d Hd. by apply lookup_empty_is_Some in Hd.
    - intros d Hd. by apply lookup_empty_is_Some in Hd.
    - intros d Hd. by apply lookup_empty_is_Some in Hd.
    - intros d d' db db' Hd. by rewrite lookup_empty in Hd.
    - split; intros d Hd; by apply lookup_empty_is_Some in Hd. }
  split; try done; cbn; try constructor; try done.
  - intros m Hm. cbn in Hm. by apply lookup_empty_is_Some in Hm.
  - intros i Hi. by apply lookup_empty_is_Some in Hi.
Qed.

Lemma block_ops_related os : ∀ hs h s cs r s',
  related hs h s cs r → block_steps os s = Some s' →
  ∃ hs' h' cs' r', block_ops os hs h = Ok (hs', h') ∧ related hs' h' s' cs' r'.
Proof.
  induction os as [|o os IH]; intros hs h s cs r s' Hrel Hsteps; cbn [block_steps block_ops] in *.
  - simplify_eq. eauto 10.
  - destruct (block_step o s) as [s1|] eqn:E; [|done]. cbn in Hsteps.
    destruct (block_op_ok o _ _ _ _ _ _ Hrel E) as (hs1 & h1 & cs1 & r1 & E1 & Hrel1). rewrite E1, bind_Ok. by eapply IH.
Qed.

(** What the objects of a chain show is what the model says. *)
Lemma mb_shows_ok h r bufs ids c s : ∀ m vs,
  linked h m c → Forall2 (sees h r) c vs → msgs_ok h → data_ok h r bufs ids → Forall (view_ok bufs) vs →
  s_bufs s = bufs → mb_shows (S (length vs)) m h = Ok (shows s vs).
Proof.
  induction c as [|x c IH]; intros m vs Hl Hs Hm Hd Hv Hbufs.
  - apply Forall2_nil_inv_l in Hs as ->. cbn in Hl. by rewrite Hl.
  - destruct Hl as (-> & b & Hb & Hl). apply Forall2_cons_inv_l in Hs as (v & vs' & (b' & E & Hrd & Hwr & Hr) & Hs & ->). simplify_eq.
    apply Forall_cons in Hv as [([cur w] & Hbuf & Hv1 & Hv2) Hv]. cbn [fst snd] in Hv2.
    destruct (do_live _ _ _ _ Hd _ _ Hr) as (D & buf & HD & Hbuf' & Hh & _). simplify_eq.
    destruct Hh as (Hc1 & Hm1 & Hcm & Hbl & _ & Hb0 & Hbp & Hch). cbn [fst snd] in *.
    pose proof (msg_nonnull _ _ _ Hm Hb) as Hx. pose proof (proj2 (do_fresh _ _ _ _ Hd) _ (mk_is_Some _ _ HD)).
    cbn [length]. remember (S (length vs')) as f eqn:Ef. cbn [mb_shows]. rewrite (proj2 (Z.eqb_neq x 0)) by done.
    unfold mb_size, mb_capacity, mb_rdPtr, mb_base, mb_length, mb_cont, db_size, db_capacity, db_base.
    rewrite !(get_mb_ok x b), !bind_Ok, !(get_db_ok _ D), !bind_Ok by (done || lia).
    rewrite Hrd, Hwr, wrap_small by (unfold in_u; lia).
    assert (read_chars (ptr_add (d_base D) (v_rd v)) (v_wr v - v_rd v) h = Ok (slice (v_rd v) (v_wr v) w)) as Er.
    { unfold read_chars, ptr_add. cbn [fst snd]. split_if.
      - unfold slice. replace (v_wr v - v_rd v) with 0 by lia. done.
      - rewrite (follow_ok _ _ w), bind_Ok by (done || lia). rewrite Hb0, Z.add_0_l, load_slice by lia. do 2 f_equal. lia. }
    rewrite Er, !bind_Ok, Ef. rewrite (IH _ vs' Hl Hs Hm Hd Hv eq_refl), bind_Ok. unfold shows. cbn. rewrite Hbuf, Hc1, Hm1. done.
Qed.

End blocks.

Lemma size_bijection {K A B} `{Countable K} (m1 : gmap K A) (m2 : gmap Z B) (f : K → A → Z) :
  (∀ k a, m1 !! k = Some a → is_Some (m2 !! f k a)) →
  (∀ z, is_Some (m2 !! z) → ∃ k a, m1 !! k = Some a ∧ f k a = z) →
  (∀ k k' a a', m1 !! k = Some a → m1 !! k' = Some a' → f k a = f k' a' → k = k') →
  size m1 = size m2.
Proof.
  intros Hto Hfrom Hinj. rewrite <- (size_dom m2).
  set (l := (λ p, f p.1 p.2) <$> map_to_list m1).
  assert (NoDup l) as Hnd.
  { unfold l. apply NoDup_fmap_2_strong; [|apply NoDup_map_to_list]. intros [k a] [k' a'] Hk%elem_of_map_to_list Hk'%elem_of_map_to_list E.
    cbn in E. assert (k = k') as <- by (by eapply Hinj). congruence. }
  assert (list_to_set l = dom m2) as <-.
  { apply set_eq. intros z. rewrite elem_of_list_to_set, elem_of_dom. unfold l. rewrite list_elem_of_fmap. split.
    - intros ([k a] & -> & Hk%elem_of_map_to_list). cbn. eauto.
    - intros Hz. destruct (Hfrom z Hz) as (k & a & Hk & <-). exists (k, a). split; [done|]. by apply elem_of_map_to_list. }
  rewrite size_list_to_set by done. unfold l. by rewrite length_fmap, length_map_to_list.
Qed.

Lemma join_length {A B} (R : A → B → Prop) cs ws : Forall2 (Forall2 R) cs ws → length (mjoin cs) = length (mjoin ws).
Proof. induction 1 as [|c vs cs ws Hs _ IH]; [done|].
  change (length (c ++ mjoin cs) = length (vs ++ mjoin ws)). rewrite !length_app, IH. by rewrite (Forall2_length _ _ _ Hs).
Qed.

(** The objects are as many as the buffers. *)
Lemma data_size h r bufs ids : data_ok h r bufs ids → size (h_data h) = size bufs.
Proof.
  intros D. assert (size r = size bufs) as <-.
  { rewrite <- !size_dom. f_equal. apply set_eq. intros j. rewrite !elem_of_dom. split; [|by apply (do_bufs _ _ _ _ D)].
    intros [d Hd]. destruct (do_live _ _ _ _ D _ _ Hd) as (_ & buf & _ & ? & _). by eexists. }
  symmetry. apply (size_bijection r (h_data h) (λ _ d, d)).
  - intros j d Hj. destruct (do_live _ _ _ _ D _ _ Hj) as (db & _ & ? & _). by eexists.
  - intros d Hd. destruct (do_data _ _ _ _ D d Hd) as [j Hj]. eauto.
  - intros j j' d d' Hj Hj' ->. by eapply (do_inj _ _ _ _ D).
Qed.

Lemma chars_size h r bufs ids : data_ok h r bufs ids → size (h_chars h) = size (h_data h).
Proof.
  intros D. symmetry. apply (size_bijection (h_data h) (h_chars h) (λ _ db, (d_base db).1)).
  - intros d db Hd. destruct (do_data _ _ _ _ D d (mk_is_Some _ _ Hd)) as [j Hj].
    destruct (do_live _ _ _ _ D _ _ Hj) as (db' & buf & ? & _ & Hh & _). simplify_eq. destruct Hh as (_ & _ & _ & _ & _ & _ & _ & ?). by eexists.
  - intros a Ha. destruct (do_chars _ _ _ _ D a Ha) as (d & db & ? & ?). eauto.
  - intros d d' db db' Hd Hd' E. by eapply (do_own _ _ _ _ D).
Qed.

(** C13: Message blocks are views of shared, reference-counted buffers.  Over
    any history of constructions, duplicates, clones, releases, links, copies,
    resizings and reads that the model allows, and if the field [m_dataBlock] that
    the constructor leaves uninitialised and [initI] releases reads as null in
    every new block ([stale]; else see [duplicate_releases_stale]), no call follows a dangling
    pointer, leaves an array or fails an assertion; every handle shows the
    bytes the model says (a duplicate shares its buffers, a clone has its own);
    the count of a data block is the number of views of it; and the data blocks
    and character arrays that are allocated are those of the buffers in use.
    What is not given back is counted too: the message blocks allocated are
    those of the chains and one for each continuation ever released. *)
Theorem message_blocks_share `{Allocator} `{FreshBlock} os s :
  (∀ h, stale h = 0) → block_steps os no_blocks = Some s →
  ∃ hs h, block_ops os [] empty_heap = Ok (hs, h) ∧ length hs = length (s_chains s) ∧
    (∀ i vs, s_chains s !! i = Some vs → ∃ m, hs !! i = Some m ∧ mb_shows (S (length vs)) m h = Ok (shows s vs)) ∧
    (∀ i k vs v, s_chains s !! i = Some vs → vs !! k = Some v →
       ∃ m x, hs !! i = Some m ∧ nth_cont k m h = Ok x ∧ mb_referenceCount x h = Ok (times (v_buf v) (ids_of (s_chains s)))) ∧
    (∀ j, is_Some (s_bufs s !! j) ↔ j ∈ ids_of (s_chains s)) ∧
    size (h_data h) = size (s_bufs s) ∧ size (h_chars h) = size (s_bufs s) ∧
    size (h_msgs h) = (length (mjoin (s_chains s)) + s_lost s)%nat.
Proof.
  intros Hst Hsteps. destruct (block_ops_related Hst os [] empty_heap no_blocks [] ∅ s no_blocks_related Hsteps) as (hs & h & cs & r & E & Hrel).
  exists hs, h. pose proof Hrel as [L En S N D M V X B Z]. split_and!; [done| | | | | | |].
  - by rewrite (Forall2_length _ _ _ L), (Forall2_length _ _ _ S).
  - intros i vs Hi. destruct (related_chain _ _ _ _ _ _ _ Hrel Hi) as (m & c & Hm & _ & _ & _ & Hl & Hs).
    exists m. split; [done|]. eapply mb_shows_ok; try done. by eapply chain_views.
  - intros i k vs v Hi Hk. destruct (related_block _ _ _ _ _ _ _ _ _ Hrel Hi Hk)
      as (m & c & x & b & db & buf & Hm & _ & _ & Ex & Hb & Hx0 & _ & _ & _ & Hdb & Hd0 & _ & _ & Hct & _).
    exists m, x. split_and!; [done..|]. unfold mb_referenceCount, db_referenceCount.
    rewrite (get_mb_ok x b), bind_Ok, (proj2 (Z.eqb_neq _ 0) Hd0), (get_db_ok _ db), bind_Ok by done. by rewrite Hct.
  - intros j. rewrite (do_ids _ _ _ _ D). split; [by apply (do_bufs _ _ _ _ D)|].
    intros [d Hd]. destruct (do_live _ _ _ _ D _ _ Hd) as (_ & buf & _ & ? & _). by eexists.
  - by eapply data_size.
  - erewrite <- data_size by done. by eapply chars_size.
  - rewrite Z. f_equal. by eapply join_length.
Qed.

(** Memory that is zero wherever it is not initialised. *)
Definition clean_blocks : FreshBlock := {| stale := λ _, 0 |}.

(** Two blocks linked, written, duplicated and cloned; the first handle goes. *)
Definition sample_ops : list BlockOp :=
  [BNew 4; BNew 3; BLink 0 1; BCopy 0 0 [1; 2]; BDuplicate 0; BClone 0; BCopy 0 1 [7]; BResize 1 1 10; BRelease 0; BSkip 0 0 1].

Lemma message_blocks_share_witness :
  ∃ hs h, @block_ops zero_memory clean_blocks sample_ops [] empty_heap = Ok (hs, h) ∧ length hs = 2%nat ∧
    size (h_data h) = 4%nat ∧ size (h_msgs h) = 5%nat.
Proof.
  assert (∃ s, @block_steps zero_memory sample_ops no_blocks = Some s ∧ length (s_chains s) = 2%nat ∧ size (s_bufs s) = 4%nat ∧
    (length (mjoin (s_chains s)) + s_lost s = 5)%nat) as (s & Hs & Hl & Hb & Hm).
  { eexists. split; [vm_compute; reflexivity|]. vm_compute. done. }
  destruct (@message_blocks_share zero_memory clean_blocks sample_ops s (λ _, eq_refl) Hs) as (hs & h & E & H1 & _ & _ & _ & H2 & _ & H3).
  exists hs, h. split; [exact E|]. split; [rewrite H1; exact Hl|]. split; [rewrite H2; exact Hb|]. rewrite H3; exact Hm.
Defined.

(** ** Where the code does less

    The constructor with five arguments releases whatever the memory of the new
    block holds in [m_dataBlock]: if that is the address of a data block, as it
    is when the memory was a message block before, [duplicate] takes a
    reference away from its owner, here the last one. *)
Definition dirty_blocks : FreshBlock := {| stale := λ _, 2 |}.

Lemma duplicate_releases_stale :
  ∃ h m m', ('(m, h) ← @MessageBlock_of_size zero_memory 4 0 null false empty_heap;
     '(m', h) ← @MessageBlock_of_size zero_memory 4 0 null false h;
     '(_, h) ← @mb_duplicate zero_memory dirty_blocks m' h; Ok (m, m', h)) = Ok (m, m', h) ∧
    mb_base m h = Fault UseAfterFree.
Proof. eexists _, _, _. split; [vm_compute; reflexivity|]. vm_compute. reflexivity. Qed.

(** A block made empty and given a size later never frees the array: its data
    block does not own what [size (n)] allocates. *)
Lemma resized_empty_block_leaks :
  ∃ h, ('(m, h) ← @MessageBlock_new zero_memory empty_heap; '(_, h) ← @mb_set_size zero_memory m 8 h;
        '(_, h) ← mb_release m h; Ok h) = Ok h ∧ h_data h = ∅ ∧ size (h_chars h) = 1%nat.
Proof. eexists. split; [vm_compute; reflexivity|]. split; vm_compute; reflexivity. Qed.

(** [copy] fills a block up to its capacity, but growing it moves only the
    bytes up to its size: what was copied past the size is lost. *)
Lemma growing_loses_bytes :
  ∃ s c, @block_steps zero_memory [BNew 8; BResize 0 0 2; BCopy 0 0 [1; 2; 3; 4]; BResize 0 0 16] no_blocks = Some s ∧
    s_chains s !! 0%nat = Some c ∧ shows s c = [(16, 16, [1; 2; 0; 0])].
Proof. eexists _, _. split; [vm_compute; reflexivity|]. split; [vm_compute; reflexivity|]. vm_compute. reflexivity. Qed.
