(* ===== verification/MessageQueue.v ===== *)
(** * MessageQueue: the queue of message blocks between threads
      (icc/MessageQueue.h, icc/MessageQueue.cpp, icc/Task.cpp)

    The queue is a list of message blocks linked by their fields [m_next] and
    [m_prev], with a mutex and two condition variables.  [MessageQueue] and the
    functions of the first part are what runs under the mutex, on the heap of
    [MessageBlock.v].

    [Monitor] adds the threads: the calls that are ready to take the mutex and
    those that wait on a condition.  An [turn] is a call by the application,
    the run of one ready call from the mutex to its return or to [wait], a wait
    that times out, or one that returns without a signal; [mon_step] says what
    each does.  Which waiting call a signal wakes is part of the event. *)
From S2P Require Import Prelude Block MessageBlock.

Record MessageQueue := mkMQ {
  q_head : Z;
  q_tail : Z;
  q_curCount : Z;
  q_lowWaterMark : Z;
  q_highWaterMark : Z }.

Definition DEFAULT_HWM : Z := 16 * 1024.
Definition DEFAULT_LWM : Z := 16 * 1024.

Definition q_set_list (head tail count : Z) (q : MessageQueue) : MessageQueue :=
  mkMQ head tail count (q_lowWaterMark q) (q_highWaterMark q).

(** [open (hwm, lwm)]. *)
Definition q_open (hwm lwm : Z) : MessageQueue := mkMQ 0 0 0 lwm hwm.

Definition isEmptyInternal (q : MessageQueue) : bool := q_tail q =? 0.
Definition isFullInternal (q : MessageQueue) : bool := q_curCount q >=? q_highWaterMark q.

(** [enqueueTailInternal (newItem)], up to the signal; the flag says whether
    there is one. *)
Definition enqueueTailInternal (newItem : Z) (h : Heap) (q : MessageQueue) : result (Z * bool * Heap * MessageQueue) :=
  if newItem =? 0 then Ok (-1, false, h, q) else
  let count := u64 (q_curCount q + 1) in
  '(h, q) ← (if q_tail q =? 0 then Ok (h, q_set_list newItem newItem count q)
    else
      h ← mb_set_next (q_tail q) newItem h;
      h ← mb_set_prev newItem (q_tail q) h;
      Ok (h, q_set_list (q_head q) newItem count q));
  Ok (s32 (q_curCount q), true, h, q).

(** [dequeueHeadInternal (firstItem)]. *)
Definition dequeueHeadInternal (h : Heap) (q : MessageQueue) : result (Z * Z * bool * Heap * MessageQueue) :=
  if q_head q =? 0 then Ok (-1, 0, false, h, q) else
  let firstItem := q_head q in
  head ← mb_next (q_head q) h;
  let q := q_set_list head (q_tail q) (q_curCount q) q in
  '(h, q) ← (if q_head q =? 0 then Ok (h, q_set_list (q_head q) 0 (q_curCount q) q)
    else h ← mb_set_prev (q_head q) 0 h; Ok (h, q));
  let q := q_set_list (q_head q) (q_tail q) (u64 (q_curCount q - 1)) q in
  let q := if (q_curCount q =? 0) && (q_head q =? q_tail q) then q_set_list 0 0 (q_curCount q) q else q in
  h ← mb_set_prev firstItem 0 h;
  h ← mb_set_next firstItem 0 h;
  Ok (s32 (q_curCount q), firstItem, q_curCount q <=? q_lowWaterMark q, h, q).

(** ** The threads *)

Inductive call :=
  | Enqueue (newItem : Z)
  | Dequeue.

(** [mo_notFull] and [mo_notEmpty] are the calls in [wait]; [mo_put] and
    [mo_got] are the items taken and given, in order. *)
Record Monitor := mkMon {
  mo_heap : Heap;
  mo_q : MessageQueue;
  mo_ready : list call;
  mo_notFull : list call;
  mo_notEmpty : list call;
  mo_put : list Z;
  mo_got : list Z }.

Inductive turn :=
  | ECall (c : call)
  | ERun (i w : nat)
  | ETimeout (full : bool) (i : nat)
  | ESpurious (full : bool) (i : nat).

(** [signal ()]: one of the calls that wait, if there is any. *)
Definition signal (w : nat) (waiting ready : list call) : list call * list call :=
  let i := (w mod length waiting)%nat in
  match waiting !! i with
  | None => (waiting, ready)
  | Some c => (delete i waiting, ready ++ [c])
  end.

(** [enqueueTail (newItem, timeout)] with the mutex: [wait] while the queue is
    full. *)
Definition run_enqueue (newItem : Z) (w : nat) (s : Monitor) : result Monitor :=
  if isFullInternal (mo_q s) then
    Ok (mkMon (mo_heap s) (mo_q s) (mo_ready s) (mo_notFull s ++ [Enqueue newItem]) (mo_notEmpty s) (mo_put s) (mo_got s))
  else
    '(r, sig, h, q) ← enqueueTailInternal newItem (mo_heap s) (mo_q s);
    let '(notEmpty, ready) := if (sig : bool) then signal w (mo_notEmpty s) (mo_ready s) else (mo_notEmpty s, mo_ready s) in
    Ok (mkMon h q ready (mo_notFull s) notEmpty (if r =? -1 then mo_put s else mo_put s ++ [newItem]) (mo_got s)).

(** [dequeueHead (firstItem, timeout)] with the mutex. *)
Definition run_dequeue (w : nat) (s : Monitor) : result Monitor :=
  if isEmptyInternal (mo_q s) then
    Ok (mkMon (mo_heap s) (mo_q s) (mo_ready s) (mo_notFull s) (mo_notEmpty s ++ [Dequeue]) (mo_put s) (mo_got s))
  else
    '(r, item, sig, h, q) ← dequeueHeadInternal (mo_heap s) (mo_q s);
    let '(notFull, ready) := if (sig : bool) then signal w (mo_notFull s) (mo_ready s) else (mo_notFull s, mo_ready s) in
    Ok (mkMon h q ready notFull (mo_notEmpty s) (mo_put s) (if r =? -1 then mo_got s else mo_got s ++ [item])).

Definition with_ready r (s : Monitor) : Monitor :=
  mkMon (mo_heap s) (mo_q s) r (mo_notFull s) (mo_notEmpty s) (mo_put s) (mo_got s).
Definition with_waiting (full : bool) ws (s : Monitor) : Monitor :=
  mkMon (mo_heap s) (mo_q s) (mo_ready s) (if full then ws else mo_notFull s) (if full then mo_notEmpty s else ws) (mo_put s) (mo_got s).
Definition waiting (full : bool) (s : Monitor) : list call := if full then mo_notFull s else mo_notEmpty s.

Definition mon_step (e : turn) (s : Monitor) : result Monitor :=
  match e with
  | ECall c => Ok (with_ready (mo_ready s ++ [c]) s)
  | ERun i w =>
      match mo_ready s !! i with
      | None => Ok s
      | Some c =>
          let s := with_ready (delete i (mo_ready s)) s in
          match c with Enqueue m => run_enqueue m w s | Dequeue => run_dequeue w s end
      end
  | ETimeout full i => Ok (with_waiting full (delete i (waiting full s)) s)
  | ESpurious full i =>
      match waiting full s !! i with
      | None => Ok s
      | Some c => Ok (with_ready (mo_ready s ++ [c]) (with_waiting full (delete i (waiting full s)) s))
      end
  end.

Fixpoint mon_run (es : list turn) (s : Monitor) : result Monitor :=
  match es with [] => Ok s | e :: es => s ← mon_step e s; mon_run es s end.

Definition mon_open (hwm lwm : Z) (h : Heap) : Monitor := mkMon h (q_open hwm lwm) [] [] [] [] [].

(** ** Lemmas: the linked list *)

(** The blocks of [items], in order, are the list of [q]. *)
Record list_ok (h : Heap) (q : MessageQueue) (items : list Z) : Prop := mkListOk {
  lo_head : q_head q = default 0 (head items);
  lo_tail : q_tail q = default 0 (last items);
  lo_count : q_curCount q = #items;
  lo_nodup : NoDup items;
  lo_links : ∀ i m, items !! i = Some m → m ≠ 0 ∧ ∃ b, h_msgs h !! m = Some b ∧ m_next b = default 0 (items !! S i) }.

(** A block that is in no list. *)
Definition unlinked (h : Heap) (m : Z) : Prop := m ≠ 0 ∧ ∃ b, h_msgs h !! m = Some b ∧ m_next b = 0.

Lemma last_tail items q : q_tail q = default 0 (last items) → (∀ i m, items !! i = Some m → m ≠ 0) → (q_tail q =? 0) = bool_decide (items = []).
Proof.
  intros E Hn. rewrite E. destruct (last items) as [m|] eqn:El.
  - rewrite bool_decide_eq_false_2 by (by intros ->). apply Z.eqb_neq. rewrite last_lookup in El. by eapply Hn.
  - apply last_None in El as ->. done.
Qed.

Lemma enqueue_ok h q items m :
  list_ok h q items → unlinked h m → m ∉ items → 1 + #items < 2 ^ 31 →
  ∃ h' q', enqueueTailInternal m h q = Ok (1 + #items, true, h', q') ∧ list_ok h' q' (items ++ [m]) ∧
    q_highWaterMark q' = q_highWaterMark q ∧ q_lowWaterMark q' = q_lowWaterMark q ∧
    (∀ x, x ∉ items → x ≠ m → h_msgs h' !! x = h_msgs h !! x).
Proof.
  intros [Hh Ht Hc Hnd Hl] (Hm & b & Hb & Hbn) Hni Hlen. unfold enqueueTailInternal. rewrite (proj2 (Z.eqb_neq m 0) Hm).
  rewrite (last_tail items q Ht) by (intros i x Hx; by apply Hl in Hx as [? _]). rewrite Hc.
  rewrite (wrap_small 64) by (unfold in_u; lia).
  assert (NoDup (items ++ [m])) as Hnd'.
  { apply NoDup_app. split_and!; [done|set_solver +Hni|apply NoDup_singleton]. }
  destruct (bool_decide_reflect (items = [])) as [->|Hne].
  - rewrite bind_Ok. exists h, (q_set_list m m 1 q). cbn [q_curCount q_set_list length Z.of_nat]. rewrite swrap_small by (unfold in_s; lia).
    split_and!; try done. split; try done. intros [|i] x Hx; [|done]. injection Hx as <-. split; [done|]. by exists b.
  - destruct (last items) as [t|] eqn:El; [|by apply last_None in El]. cbn in Ht. rewrite Ht. clear Ht.
    rewrite last_lookup in El. destruct (Hl _ _ El) as (Ht0 & bt & Hbt & Hbtn).
    assert (t ≠ m) as Htm by (intros ->; apply Hni; by eapply list_elem_of_lookup_2).
    unfold mb_set_next, mb_set_prev. rewrite (mb_update_ok t bt) by done. rewrite bind_Ok.
    rewrite (mb_update_ok m b) by (try done; cbn; by rewrite lookup_insert_ne). rewrite !bind_Ok.
    eexists _, (q_set_list (q_head q) m (#items + 1) q). cbn [q_curCount q_set_list]. rewrite swrap_small by (unfold in_s; lia).
    replace (#items + 1) with (1 + #items) by lia. split_and!; try done.
    + split; try done.
      * cbn. rewrite Hh. by destruct items.
      * cbn. by rewrite last_snoc.
      * cbn [q_curCount q_set_list]. rewrite length_app. cbn [length]. lia.
      * intros i x Hx. cbn. apply lookup_app_Some in Hx as [Hx|[Hi Hx]].
        -- destruct (Hl _ _ Hx) as (Hx0 & bx & Hbx & Hbxn). split; [done|].
           assert (x ≠ m) as Hxm by (intros ->; apply Hni; by eapply list_elem_of_lookup_2).
           apply lookup_lt_Some in Hx as Hil. destruct (decide (i = pred (length items))) as [->|Hii].
           ++ rewrite El in Hx. injection Hx as <-. exists (mb_with_next m bt). rewrite lookup_insert_ne by done. rewrite lookup_insert_eq.
              split; [done|]. cbn. replace (S (pred (length items))) with (length items) by lia.
              by rewrite lookup_app_r, Nat.sub_diag by lia.
           ++ exists bx. rewrite !lookup_insert_ne; [|intros E; apply Hii; subst t; exact (NoDup_lookup _ _ _ _ Hnd Hx El)|by intros E; apply Hxm].
              split; [done|]. rewrite lookup_app_l by lia. done.
        -- apply list_lookup_singleton_Some in Hx as [Hi0 <-]. split; [done|]. exists (mb_with_prev t b). rewrite lookup_insert_eq.
           split; [done|]. cbn. rewrite Hbn, lookup_ge_None_2; [done|]. rewrite length_app. cbn [length]. lia.
    + intros x Hx Hxm. cbn. rewrite !lookup_insert_ne; [done|intros E; apply Hx; subst t; by eapply list_elem_of_lookup_2|by intros E; apply Hxm].
Qed.

Lemma dequeue_ok h q m rest :
  list_ok h q (m :: rest) → #rest < 2 ^ 31 →
  ∃ h' q', dequeueHeadInternal h q = Ok (#rest, m, #rest <=? q_lowWaterMark q, h', q') ∧ list_ok h' q' rest ∧
    q_highWaterMark q' = q_highWaterMark q ∧ q_lowWaterMark q' = q_lowWaterMark q ∧ unlinked h' m ∧
    (∀ x, x ∉ m :: rest → h_msgs h' !! x = h_msgs h !! x).
Proof.
  intros [Hh Ht Hc Hnd Hl] Hlen. cbn in Hh. apply NoDup_cons in Hnd as [Hni Hnd]. cbn [length] in Hc.
  destruct (Hl 0%nat m eq_refl) as (Hm & b & Hb & Hbn). cbn in Hbn.
  unfold dequeueHeadInternal, mb_next. rewrite Hh, (proj2 (Z.eqb_neq m 0) Hm), (get_mb_ok m b), !bind_Ok by done. cbv zeta.
  cbn [q_head q_tail q_curCount q_set_list]. rewrite Hbn.
  destruct rest as [|n rest].
  - cbn [lookup list_lookup default Z.eqb]. cbn [length Z.of_nat] in *. rewrite bind_Ok. cbn [q_head q_tail q_curCount q_set_list]. rewrite Hc.
    change (u64 (Z.of_nat 1 - 1)) with 0. cbn [Z.eqb andb q_curCount q_set_list]. unfold mb_set_prev, mb_set_next.
    rewrite (mb_update_ok m b), bind_Ok by done.
    rewrite (mb_update_ok m (mb_with_prev 0 b)) by (try done; apply put_mb_get). rewrite bind_Ok, put_mb_put.
    eexists _, _. split; [reflexivity|]. refine (conj _ (conj eq_refl (conj eq_refl (conj (conj Hm _) _)))).
    + split; try done.
    + eexists. split; [apply put_mb_get|done].
    + intros x Hx. cbn. rewrite lookup_insert_ne; [done|]. intros ->. apply Hx. by left.
  - cbn [lookup list_lookup default]. destruct (Hl 1%nat n eq_refl) as (Hn & bn & Hbn' & Hbnn). cbn in Hbnn.
    assert (n ≠ m) as Hnm by (intros ->; apply Hni; by left).
    cbn. rewrite (proj2 (Z.eqb_neq n 0) Hn). unfold mb_set_prev, mb_set_next. rewrite (mb_update_ok n bn) by done. rewrite !bind_Ok.
    cbn [q_head q_tail q_curCount q_set_list]. rewrite Hc.
    replace (Z.of_nat (S (length (n :: rest))) - 1) with (#(n :: rest)) by lia. rewrite (wrap_small 64) by (unfold in_u; lia).
    rewrite (proj2 (Z.eqb_neq (#(n :: rest)) 0)) by (cbn [length]; lia). cbn [andb q_curCount q_set_list q_lowWaterMark].
    rewrite (mb_update_ok m b) by (try done; cbn; by rewrite lookup_insert_ne). rewrite bind_Ok.
    rewrite (mb_update_ok m (mb_with_prev 0 b)) by (try done; apply put_mb_get). rewrite bind_Ok, put_mb_put, swrap_small by (unfold in_s; lia).
    eexists _, _. split; [reflexivity|]. refine (conj _ (conj eq_refl (conj eq_refl (conj (conj Hm _) _)))).
    + split; try done.
      * intros i x Hx. destruct (Hl (S i) x Hx) as (Hx0 & bx & Hbx & Hbxn). split; [done|].
        assert (m ≠ x) as Hmx by (intros <-; apply Hni; by eapply list_elem_of_lookup_2).
        cbn. rewrite lookup_insert_ne by done. destruct (decide (n = x)) as [<-|Hnx].
        -- exists (mb_with_prev 0 bn). rewrite lookup_insert_eq. split; [done|]. rewrite Hbn' in Hbx. injection Hbx as <-. done.
        -- exists bx. rewrite lookup_insert_ne by done. done.
    + eexists. split; [apply put_mb_get|done].
    + intros x Hx. cbn. apply not_elem_of_cons in Hx as [Hx1 Hx]. apply not_elem_of_cons in Hx as [Hx2 _].
      rewrite !lookup_insert_ne by done. done.
Qed.

(** ** Lemmas: the monitor *)

Definition item_of (c : call) : option Z := match c with Enqueue m => Some m | Dequeue => None end.

(** The items of the calls that have not come to put them. *)
Definition pending (s : Monitor) : list Z := omap item_of (mo_ready s ++ mo_notFull s).

(** The queue holds [items]; [pend] wait to be put. *)
Record holds_items (h : Heap) (q : MessageQueue) (items pend put got : list Z) : Prop := mkHolds {
  hi_list : list_ok h q items;
  hi_unlinked : ∀ m, m ∈ pend → unlinked h m;
  hi_nodup : NoDup (items ++ pend);
  hi_bound : #items ≤ q_highWaterMark q < 2 ^ 31;
  hi_log : put = got ++ items }.

Lemma holds_perm h q items pend pend' put got :
  pend ≡ₚ pend' → holds_items h q items pend put got → holds_items h q items pend' put got.
Proof.
  intros Hp [Hl Hu Hn Hb Hg]. split; try done.
  - intros m Hm. apply Hu. by rewrite Hp.
  - by rewrite <- Hp.
Qed.

Lemma holds_drop h q items m pend put got : holds_items h q items (m :: pend) put got → holds_items h q items pend put got.
Proof.
  intros [Hl Hu Hn Hb Hg]. split; try done.
  - intros x Hx. apply Hu. by right.
  - rewrite <- Permutation_middle in Hn. by apply NoDup_cons in Hn as [_ ?].
Qed.

Lemma holds_call h q items m pend put got :
  unlinked h m → m ∉ items → m ∉ pend → holds_items h q items pend put got → holds_items h q items (m :: pend) put got.
Proof.
  intros Hm Hi Hp [Hl Hu Hn Hb Hg]. split; try done.
  - intros x [->|Hx]%elem_of_cons; auto.
  - rewrite <- Permutation_middle. apply NoDup_cons. split; [|done]. intros [?|?]%elem_of_app; auto.
Qed.

(** Changing other blocks leaves a block unlinked. *)
Lemma unlinked_other h h' x : h_msgs h' !! x = h_msgs h !! x → unlinked h x → unlinked h' x.
Proof. intros E [Hx (b & Hb & Hn)]. split; [done|]. exists b. by rewrite E. Qed.

Lemma holds_enqueue h q items m pend put got :
  holds_items h q items (m :: pend) put got → isFullInternal q = false →
  ∃ h' q', enqueueTailInternal m h q = Ok (1 + #items, true, h', q') ∧
    holds_items h' q' (items ++ [m]) pend (put ++ [m]) got ∧
    q_highWaterMark q' = q_highWaterMark q ∧ q_lowWaterMark q' = q_lowWaterMark q.
Proof.
  intros [Hl Hu Hn Hb Hg] Hf. unfold isFullInternal in Hf. rewrite (lo_count _ _ _ Hl), Z.geb_leb in Hf. b2p.
  apply NoDup_app in Hn as (Hn1 & Hn2 & Hn3). apply NoDup_cons in Hn3 as [Hm Hn3].
  assert (m ∉ items) as Hmi by (intros Hmi; apply (Hn2 m Hmi); by left).
  destruct (enqueue_ok h q items m) as (h' & q' & -> & Hl' & E1 & E2 & Hk); [done|apply Hu; by left|done|lia|].
  exists h', q'. split; [done|]. split; [|done]. split; [done| | | |].
  - intros x Hx. apply (unlinked_other h); [|apply Hu; by right]. apply Hk; [|by intros ->].
    intros Hxi. apply (Hn2 x Hxi). by right.
  - rewrite <- app_assoc. apply NoDup_app. split_and!; [done| |by apply NoDup_cons].
    intros x Hxi Hx. apply (Hn2 x Hxi). done.
  - rewrite length_app. cbn [length]. lia.
  - by rewrite Hg, app_assoc.
Qed.

Lemma holds_dequeue h q m rest pend put got :
  holds_items h q (m :: rest) pend put got →
  ∃ h' q', dequeueHeadInternal h q = Ok (#rest, m, #rest <=? q_lowWaterMark q, h', q') ∧
    holds_items h' q' rest pend put (got ++ [m]) ∧ unlinked h' m ∧
    q_highWaterMark q' = q_highWaterMark q ∧ q_lowWaterMark q' = q_lowWaterMark q.
Proof.
  intros [Hl Hu Hn Hb Hg]. cbn [length] in Hb.
  destruct (dequeue_ok h q m rest) as (h' & q' & -> & Hl' & E1 & E2 & Hum & Hk); [done|lia|].
  exists h', q'. split; [done|]. split; [|done]. apply NoDup_app in Hn as (Hn1 & Hn2 & Hn3). apply NoDup_cons in Hn1 as [Hmr Hn1].
  split; [done| | | |].
  - intros x Hx. apply (unlinked_other h); [|by apply Hu]. apply Hk. intros Hxi. by apply (Hn2 x Hxi).
  - apply NoDup_app. split_and!; [done| |done]. intros x Hxi. apply Hn2. by right.
  - lia.
  - by rewrite Hg, <- app_assoc.
Qed.

(** Whether the queue is empty shows in the pointers. *)
Lemma holds_empty h q items pend put got : holds_items h q items pend put got → isEmptyInternal q = bool_decide (items = []).
Proof. intros [Hl _ _ _ _]. apply last_tail; [apply Hl|]. intros i m Hm. by apply Hl in Hm as [? _]. Qed.

(** A signal takes one call that waits, if any. *)
Lemma signal_none w ready : signal w [] ready = ([], ready).
Proof. done. Qed.

Lemma signal_one w ws ready :
  ws ≠ [] → ∃ c ws', signal w ws ready = (ws', ready ++ [c]) ∧ ws ≡ₚ c :: ws'.
Proof.
  intros Hne. unfold signal. destruct (lookup_lt_is_Some_2 ws (w mod length ws)%nat) as [c Hc].
  { apply Nat.mod_upper_bound. by destruct ws. }
  rewrite Hc. eexists c, _. split; [done|]. by apply delete_Permutation.
Qed.

#[global] Instance call_eq_dec : EqDecision call.
Proof. solve_decision. Defined.

Definition producers (l : list call) : nat := length (omap item_of l).
Definition consumers (l : list call) : nat := length (filter (λ c, c = Dequeue) l).

#[global] Instance producers_perm : Proper ((≡ₚ) ==> (=)) producers.
Proof. intros l l' E. unfold producers. by rewrite E. Qed.
#[global] Instance consumers_perm : Proper ((≡ₚ) ==> (=)) consumers.
Proof. intros l l' E. unfold consumers. by rewrite E. Qed.

Lemma producers_cons c l : producers (c :: l) = ((if decide (c = Dequeue) then 0 else 1) + producers l)%nat.
Proof. by destruct c. Qed.
Lemma consumers_cons c l : consumers (c :: l) = ((if decide (c = Dequeue) then 1 else 0) + consumers l)%nat.
Proof. by destruct c. Qed.
Lemma producers_snoc c l : producers (l ++ [c]) = ((if decide (c = Dequeue) then 0 else 1) + producers l)%nat.
Proof. rewrite <- Permutation_cons_append. apply producers_cons. Qed.
Lemma consumers_snoc c l : consumers (l ++ [c]) = ((if decide (c = Dequeue) then 1 else 0) + consumers l)%nat.
Proof. rewrite <- Permutation_cons_append. apply consumers_cons. Qed.

(** What holds between two runs.  The last field: when a taker waits, there are
    as many takers ready as items, and when a putter waits as many putters as
    free places, provided that every removal signals. *)
Record mon_ok (s : Monitor) (items : list Z) : Prop := mkMonOk {
  mk_holds : holds_items (mo_heap s) (mo_q s) items (pending s) (mo_put s) (mo_got s);
  mk_putters : Forall (λ c, c ≠ Dequeue) (mo_notFull s);
  mk_takers : Forall (λ c, c = Dequeue) (mo_notEmpty s);
  mk_wake : q_highWaterMark (mo_q s) ≤ q_lowWaterMark (mo_q s) + 1 →
    (mo_notEmpty s ≠ [] → (length items ≤ consumers (mo_ready s))%nat) ∧
    (mo_notFull s ≠ [] → q_highWaterMark (mo_q s) ≤ #items + Z.of_nat (producers (mo_ready s))) }.

(** What the application may do: put blocks that are allocated, in no list, and
    not given to the queue already. *)
Definition allowed (e : turn) (s : Monitor) : Prop :=
  match e with
  | ECall (Enqueue m) => unlinked (mo_heap s) m ∧ (m ∉ drop (length (mo_got s)) (mo_put s)) ∧ m ∉ pending s
  | _ => True
  end.

Definition same_marks (s s' : Monitor) : Prop :=
  q_highWaterMark (mo_q s') = q_highWaterMark (mo_q s) ∧ q_lowWaterMark (mo_q s') = q_lowWaterMark (mo_q s).

Lemma pending_snoc c s : pending (with_ready (mo_ready s ++ [c]) s) ≡ₚ (omap item_of [c] ++ pending s).
Proof.
  unfold pending. cbn [mo_ready mo_notFull with_ready]. rewrite <- omap_app.
  rewrite <- app_assoc. rewrite (Permutation_app_comm (mo_ready s)), <- app_assoc, (Permutation_app_comm (mo_notFull s)). done.
Qed.

Lemma pending_delete i c s :
  mo_ready s !! i = Some c → pending s ≡ₚ (omap item_of [c] ++ pending (with_ready (delete i (mo_ready s)) s)).
Proof. intros Hi. unfold pending. cbn [mo_ready mo_notFull with_ready]. rewrite (delete_Permutation (mo_ready s) i c Hi) at 1. by rewrite <- omap_app. Qed.

(** [m] is put by a run. *)
Lemma run_enqueue_ok m w s items :
  holds_items (mo_heap s) (mo_q s) items (m :: pending s) (mo_put s) (mo_got s) →
  Forall (λ c, c ≠ Dequeue) (mo_notFull s) → Forall (λ c, c = Dequeue) (mo_notEmpty s) →
  (q_highWaterMark (mo_q s) ≤ q_lowWaterMark (mo_q s) + 1 →
    (mo_notEmpty s ≠ [] → (length items ≤ consumers (mo_ready s))%nat) ∧
    (mo_notFull s ≠ [] → q_highWaterMark (mo_q s) ≤ #items + 1 + Z.of_nat (producers (mo_ready s)))) →
  ∃ s' items', run_enqueue m w s = Ok s' ∧ mon_ok s' items' ∧ same_marks s s'.
Proof.
  intros Hh Hp Ht Hw. unfold run_enqueue. destruct (isFullInternal (mo_q s)) eqn:Hf.
  - eexists _, items. split; [done|]. split; [|done]. split; cbn [mo_heap mo_q mo_ready mo_notFull mo_notEmpty mo_put mo_got].
    + eapply holds_perm; [|exact Hh]. unfold pending. cbn [mo_ready mo_notFull]. rewrite app_assoc, <- (Permutation_cons_append _ (Enqueue m)). done.
    + apply Forall_app. split; [done|]. by apply Forall_singleton.
    + done.
    + intros Hm. split; [by apply Hw|]. intros _. unfold isFullInternal in Hf. rewrite (lo_count _ _ _ (hi_list _ _ _ _ _ _ Hh)), Z.geb_leb in Hf. b2p. lia.
  - destruct (holds_enqueue _ _ _ _ _ _ _ Hh Hf) as (h' & q' & -> & Hh' & E1 & E2). rewrite bind_Ok.
    rewrite (proj2 (Z.eqb_neq _ (-1))) by lia.
    destruct (decide (mo_notEmpty s = [])) as [Hn|Hn].
    + rewrite Hn, signal_none. eexists _, (items ++ [m]). split; [done|]. split; [|by split]. split; try done.
      cbn [mo_heap mo_q mo_ready mo_notFull mo_notEmpty mo_put mo_got]. rewrite E1, E2. intros Hm. split; [done|].
      intros Hf'. destruct (Hw Hm) as [_ Hw2]. specialize (Hw2 Hf'). rewrite length_app. cbn [length]. lia.
    + destruct (signal_one w _ (mo_ready s) Hn) as (c & ws & -> & Hperm). eexists _, (items ++ [m]). split; [done|]. split; [|by split].
      rewrite Hperm in Ht. apply Forall_cons in Ht as [-> Ht]. split; cbn [mo_heap mo_q mo_ready mo_notFull mo_notEmpty mo_put mo_got]; try done.
      * eapply holds_perm; [|exact Hh']. symmetry. exact (pending_snoc Dequeue s).
      * rewrite E1, E2, consumers_snoc, producers_snoc, !decide_True by done. intros Hm. destruct (Hw Hm) as [Hw1 Hw2]. specialize (Hw1 Hn).
        rewrite !length_app. cbn [length]. split; [lia|]. intros Hf'. specialize (Hw2 Hf'). lia.
Qed.

Lemma run_dequeue_ok w s items :
  holds_items (mo_heap s) (mo_q s) items (pending s) (mo_put s) (mo_got s) →
  Forall (λ c, c ≠ Dequeue) (mo_notFull s) → Forall (λ c, c = Dequeue) (mo_notEmpty s) →
  (q_highWaterMark (mo_q s) ≤ q_lowWaterMark (mo_q s) + 1 →
    (mo_notEmpty s ≠ [] → (length items ≤ S (consumers (mo_ready s)))%nat) ∧
    (mo_notFull s ≠ [] → q_highWaterMark (mo_q s) ≤ #items + Z.of_nat (producers (mo_ready s)))) →
  ∃ s' items', run_dequeue w s = Ok s' ∧ mon_ok s' items' ∧ same_marks s s'.
Proof.
  intros Hh Hp Ht Hw. unfold run_dequeue. rewrite (holds_empty _ _ _ _ _ _ Hh). destruct items as [|m rest].
  - rewrite bool_decide_eq_true_2 by done. eexists _, []. split; [done|]. split; [|done].
    split; cbn [mo_heap mo_q mo_ready mo_notFull mo_notEmpty mo_put mo_got]; try done.
    + apply Forall_app. split; [done|]. by apply Forall_singleton.
    + intros Hm. split; [intros _; cbn [length]; lia|]. by apply Hw.
  - rewrite bool_decide_eq_false_2 by done. destruct (holds_dequeue _ _ _ _ _ _ _ Hh) as (h' & q' & -> & Hh' & _ & E1 & E2). rewrite bind_Ok.
    rewrite (proj2 (Z.eqb_neq _ (-1))) by lia. pose proof (hi_bound _ _ _ _ _ _ Hh) as Hb. cbn [length] in Hb.
    assert (∀ nf rd, (nf, rd) = (if #rest <=? q_lowWaterMark (mo_q s) then signal w (mo_notFull s) (mo_ready s) else (mo_notFull s, mo_ready s)) →
      omap item_of (rd ++ nf) ≡ₚ pending s ∧ Forall (λ c, c ≠ Dequeue) nf ∧ consumers rd = consumers (mo_ready s) ∧
      (q_highWaterMark (mo_q s) ≤ q_lowWaterMark (mo_q s) + 1 → nf ≠ [] →
         q_highWaterMark (mo_q s) ≤ #rest + Z.of_nat (producers rd))) as Hsig.
    { intros nf rd E. cbn [length] in Hw. destruct (#rest <=? _) eqn:El; b2p.
      - destruct (decide (mo_notFull s = [])) as [Hn|Hn].
        + rewrite Hn, signal_none in E. injection E as -> ->. split_and!; try done. unfold pending. by rewrite Hn.
        + destruct (signal_one w _ (mo_ready s) Hn) as (c & ws & Es & Hperm). rewrite Es in E. injection E as -> ->.
          rewrite Hperm in Hp. apply Forall_cons in Hp as [Hc Hp]. rewrite consumers_snoc, producers_snoc, !decide_False by done.
          split_and!; try done.
          * unfold pending. rewrite Hperm. by rewrite <- app_assoc.
          * intros Hm _. destruct (Hw Hm) as [_ Hw2]. specialize (Hw2 Hn). lia.
      - injection E as -> ->. split_and!; try done. intros Hm. lia. }
    destruct (if _ <=? _ then _ else _) as [nf rd]. destruct (Hsig nf rd eq_refl) as (Hpd & Hp' & Hc & Hw').
    eexists _, rest. split; [done|]. split; [|by split]. split; cbn [mo_heap mo_q mo_ready mo_notFull mo_notEmpty mo_put mo_got]; try done.
    + eapply holds_perm; [|exact Hh']. by symmetry.
    + rewrite E1, E2. intros Hm. split; [|by apply Hw']. intros Hn. destruct (Hw Hm) as [Hw1 _]. specialize (Hw1 Hn). cbn [length] in Hw1. lia.
Qed.

(** A call that waits leaves: its wait times out, or it goes on without a signal. *)
Lemma waiting_delete full i c s items :
  mon_ok s items → waiting full s !! i = Some c → mon_ok (with_waiting full (delete i (waiting full s)) s) items.
Proof.
  intros [Hh Hp Ht Hw] Hi. pose proof (delete_Permutation _ _ _ Hi) as Hperm. destruct full; cbn [waiting] in *.
  - split; cbn [mo_heap mo_q mo_ready mo_notFull mo_notEmpty mo_put mo_got with_waiting]; try done.
    + assert (pending s ≡ₚ (omap item_of [c] ++ pending (with_waiting true (delete i (mo_notFull s)) s))) as E.
      { unfold pending. cbn [mo_ready mo_notFull with_waiting]. rewrite Hperm at 1. rewrite <- Permutation_middle. by rewrite <- omap_app. }
      apply (holds_perm _ _ _ _ _ _ _ E) in Hh. destruct c as [m|]; [exact (holds_drop _ _ _ _ _ _ _ Hh)|exact Hh].
    + rewrite Hperm in Hp. by apply Forall_cons in Hp as [_ ?].
    + intros Hm. destruct (Hw Hm) as [Hw1 Hw2]. split; [done|]. intros _. apply Hw2. intros E. by rewrite E in Hi.
  - split; cbn [mo_heap mo_q mo_ready mo_notFull mo_notEmpty mo_put mo_got with_waiting]; try done.
    + rewrite Hperm in Ht. by apply Forall_cons in Ht as [_ ?].
    + intros Hm. destruct (Hw Hm) as [Hw1 Hw2]. split; [|done]. intros _. apply Hw1. intros E. by rewrite E in Hi.
Qed.

Lemma ready_grows c s items :
  holds_items (mo_heap s) (mo_q s) items (omap item_of [c] ++ pending s) (mo_put s) (mo_got s) → mon_ok s items →
  mon_ok (with_ready (mo_ready s ++ [c]) s) items.
Proof.
  intros Hh' [Hh Hp Ht Hw]. split; cbn [mo_heap mo_q mo_ready mo_notFull mo_notEmpty mo_put mo_got with_ready]; try done.
  - eapply holds_perm; [|exact Hh']. symmetry. apply pending_snoc.
  - intros Hm. destruct (Hw Hm) as [Hw1 Hw2]. rewrite consumers_snoc, producers_snoc.
    split; [intros Hn; specialize (Hw1 Hn); lia|intros Hn; specialize (Hw2 Hn); lia].
Qed.

Lemma delete_beyond {A} (l : list A) i : l !! i = None → delete i l = l.
Proof. revert i. induction l as [|x l IH]; intros [|i] Hi; cbn in *; try done. f_equal. by apply IH. Qed.

Lemma mon_step_ok e s items :
  mon_ok s items → allowed e s → ∃ s' items', mon_step e s = Ok s' ∧ mon_ok s' items' ∧ same_marks s s'.
Proof.
  intros Hok Ha. pose proof Hok as [Hh Hp Ht Hw]. destruct e as [c|i w|full i|full i]; cbn [mon_step].
  - exists (with_ready (mo_ready s ++ [c]) s), items. split_and!; try done. apply ready_grows; [|done]. destruct c as [m|]; [|done].
    destruct Ha as (Hu & Hd & Hpd). rewrite (hi_log _ _ _ _ _ _ Hh), drop_app_length in Hd. by apply holds_call.
  - destruct (mo_ready s !! i) as [c|] eqn:Hi; [|by exists s, items]. set (s1 := with_ready (delete i (mo_ready s)) s).
    pose proof (pending_delete i c s Hi) as Hpd. fold s1 in Hpd. pose proof (delete_Permutation _ _ _ Hi) as Hperm.
    apply (holds_perm _ _ _ _ _ _ _ Hpd) in Hh. change (delete i (mo_ready s)) with (mo_ready s1) in Hperm.
    destruct c as [m|].
    + apply (run_enqueue_ok m w s1 items Hh Hp Ht). intros Hm. destruct (Hw Hm) as [Hw1 Hw2]. rewrite Hperm in Hw1, Hw2.
      rewrite consumers_cons, decide_False in Hw1 by done. rewrite producers_cons, decide_False in Hw2 by done.
      split; [exact Hw1|]. intros Hn. specialize (Hw2 Hn). change (mo_q s1) with (mo_q s). lia.
    + apply (run_dequeue_ok w s1 items Hh Hp Ht). intros Hm. destruct (Hw Hm) as [Hw1 Hw2]. rewrite Hperm in Hw1, Hw2.
      rewrite consumers_cons, decide_True in Hw1 by done. rewrite producers_cons, decide_True in Hw2 by done. done.
  - exists (with_waiting full (delete i (waiting full s)) s), items. destruct (waiting full s !! i) as [c|] eqn:Hi.
    + split; [done|]. split; [by eapply waiting_delete|by destruct full].
    + rewrite (delete_beyond _ _ Hi). by destruct full, s.
  - destruct (waiting full s !! i) as [c|] eqn:Hi; [|by exists s, items].
    pose proof (waiting_delete full i c s items Hok Hi) as Hok2. set (s1 := with_waiting full _ s) in *.
    exists (with_ready (mo_ready s1 ++ [c]) s1), items. split; [by destruct full|]. split; [|by destruct full].
    apply ready_grows; [|done]. eapply holds_perm; [|]; cycle 1.
    { replace (mo_heap s1) with (mo_heap s) by (by destruct full). replace (mo_q s1) with (mo_q s) by (by destruct full).
      replace (mo_put s1) with (mo_put s) by (by destruct full). replace (mo_got s1) with (mo_got s) by (by destruct full). exact Hh. }
    pose proof (delete_Permutation _ _ _ Hi) as Hperm. unfold s1, pending. destruct full; cbn [waiting] in Hperm, Hi.
    + cbn [mo_ready mo_notFull with_waiting waiting]. rewrite Hperm at 1. rewrite <- Permutation_middle. by rewrite <- omap_app.
    + cbn [mo_ready mo_notFull with_waiting waiting]. by rewrite (proj1 (Forall_lookup _ _) Ht i c Hi).
Qed.

(** A history in which the application keeps to what is allowed. *)
Fixpoint legal_turns (es : list turn) (s : Monitor) : Prop :=
  match es with
  | [] => True
  | e :: es => allowed e s ∧ ∀ s', mon_step e s = Ok s' → legal_turns es s'
  end.

Lemma mon_run_ok es : ∀ s items, mon_ok s items → legal_turns es s → ∃ s' items', mon_run es s = Ok s' ∧ mon_ok s' items' ∧ same_marks s s'.
Proof.
  induction es as [|e es IH]; intros s items Hok Hl; [by exists s, items|]. destruct Hl as [Ha Hl].
  destruct (mon_step_ok e s items Hok Ha) as (s1 & items1 & E & Hok1 & [M1 M2]). cbn [mon_run]. rewrite E, bind_Ok.
  destruct (IH s1 items1 Hok1 (Hl s1 E)) as (s2 & items2 & -> & Hok2 & [M3 M4]). exists s2, items2. split_and!; try done.
  split; congruence.
Qed.

Lemma mon_open_ok hwm lwm h : 0 ≤ hwm < 2 ^ 31 → mon_ok (mon_open hwm lwm h) [].
Proof.
  intros Hb. split; try done. split; cbn; try done.
  - split; try done. apply NoDup_nil_2.
  - intros m Hm. by apply elem_of_nil in Hm.
  - apply NoDup_nil_2.
Qed.

(** ** Properties *)

(** C19: The queue between threads is a bounded first-in first-out queue.
    Whatever the threads call, in whatever order they get the mutex, whichever
    call a signal wakes, and however waits time out or return on their own: no
    step faults; what was taken out is, in order, a prefix of what was put in,
    the rest being the list linked in the heap; there are never more items than
    the high water mark; and the count is their number. *)
Theorem queue_is_fifo hwm lwm h es :
  0 ≤ hwm < 2 ^ 31 → legal_turns es (mon_open hwm lwm h) →
  ∃ s items, mon_run es (mon_open hwm lwm h) = Ok s ∧ mo_put s = mo_got s ++ items ∧ #items ≤ hwm ∧
    q_curCount (mo_q s) = #items ∧ list_ok (mo_heap s) (mo_q s) items.
Proof.
  intros Hb Hl. destruct (mon_run_ok es _ [] (mon_open_ok hwm lwm h Hb) Hl) as (s & items & E & [Hh _ _ _] & [M1 _]).
  exists s, items. pose proof Hh as [Hlo _ _ Hbd Hlog]. split_and!; try done; [cbn in M1; lia|apply Hlo].
Qed.

(** C20: No wake-up is lost.  When the low water mark is at least the high one
    less one, as with the default marks, a state in which no call can run has
    takers waiting only if the queue is empty and putters waiting only if it is
    full; so that putters and takers never all wait for each other. *)
Theorem no_lost_wakeup hwm lwm h es :
  0 < hwm < 2 ^ 31 → hwm ≤ lwm + 1 → legal_turns es (mon_open hwm lwm h) →
  ∃ s, mon_run es (mon_open hwm lwm h) = Ok s ∧
    (mo_ready s = [] →
     (mo_notEmpty s ≠ [] → mo_put s = mo_got s) ∧
     (mo_notFull s ≠ [] → #(mo_put s) = #(mo_got s) + hwm) ∧
     (mo_notEmpty s = [] ∨ mo_notFull s = [])).
Proof.
  intros Hb Hm Hl. destruct (mon_run_ok es _ [] (mon_open_ok hwm lwm h ltac:(lia)) Hl) as (s & items & E & [Hh _ _ Hw] & [M1 M2]).
  cbn in M1, M2. exists s. split; [done|]. intros Hr. rewrite Hr, M1, M2 in Hw. destruct (Hw Hm) as [Hw1 Hw2]. cbn in Hw1, Hw2.
  pose proof Hh as [_ _ _ Hbd Hlog]. rewrite Hlog, length_app. split_and!.
  - intros Hn. specialize (Hw1 Hn). destruct items; [by rewrite app_nil_r|cbn in Hw1; lia].
  - intros Hn. specialize (Hw2 Hn). lia.
  - destruct (decide (mo_notEmpty s = [])) as [|Hn]; [by left|]. right. specialize (Hw1 Hn).
    destruct (decide (mo_notFull s = [])) as [|Hn']; [done|]. specialize (Hw2 Hn'). lia.
Qed.

(** Three blocks; two takers wait, one put of each kind of turn. *)
Definition demo_blocks : Heap :=
  mkHeap ∅ ∅ (<[1 := mkMB 0 0 0 0 0 0]> (<[2 := mkMB 0 0 0 0 0 0]> (<[3 := mkMB 0 0 0 0 0 0]> ∅))) 4.

Definition demo_turns : list turn :=
  [ECall Dequeue; ERun 0 0; ECall (Enqueue 1); ECall (Enqueue 2); ERun 1 0; ERun 0 0; ESpurious true 0; ERun 0 0; ERun 0 0; ETimeout false 5].

(** Checking a turn by evaluation. *)
Ltac legal_turn :=
  split; [first [exact I
    | split; [split; [discriminate|eexists; split; [vm_compute; reflexivity|reflexivity]]|split; apply (bool_decide_unpack _); vm_compute; exact I]]
  | intros ? E; vm_compute in E; injection E as <-].

Lemma demo_turns_legal : legal_turns demo_turns (mon_open 1 1 demo_blocks).
Proof. unfold demo_turns. repeat legal_turn. exact I. Qed.

Lemma queue_is_fifo_witness :
  ∃ s items, mon_run demo_turns (mon_open 1 1 demo_blocks) = Ok s ∧ mo_put s = mo_got s ++ items ∧ mo_put s = [2; 1] ∧ mo_got s = [2].
Proof.
  destruct (queue_is_fifo 1 1 demo_blocks demo_turns) as (s & items & E & Hl & _).
  - lia.
  - exact demo_turns_legal.
  - exists s, items. split; [exact E|]. split; [exact Hl|]. vm_compute in E. injection E as <-. split; reflexivity.
Defined.

(** Two putters wait on a full queue. *)
Definition demo_stuck : list turn :=
  [ECall (Enqueue 1); ECall (Enqueue 2); ERun 0 0; ERun 0 0; ECall (Enqueue 3); ERun 0 0].

Lemma demo_stuck_legal : legal_turns demo_stuck (mon_open 1 0 demo_blocks).
Proof. unfold demo_stuck. repeat legal_turn. exact I. Qed.

Lemma no_lost_wakeup_witness :
  ∃ s, mon_run demo_stuck (mon_open 1 0 demo_blocks) = Ok s ∧ length (mo_notFull s) = 2%nat ∧ #(mo_put s) = #(mo_got s) + 1.
Proof.
  destruct (no_lost_wakeup 1 0 demo_blocks demo_stuck) as (s & E & Hs).
  - lia.
  - lia.
  - exact demo_stuck_legal.
  - exists s. split; [exact E|]. assert (mo_ready s = [] ∧ length (mo_notFull s) = 2%nat) as [Hr Hf] by (vm_compute in E; injection E as <-; split; reflexivity).
    split; [exact Hf|]. apply (proj1 (proj2 (Hs Hr))). intros Hn. rewrite Hn in Hf. discriminate.
Defined.
