(* ===== verification/OutputStream.v ===== *)
(** * OutputStream: marshalling (icm/IcmStream.h, icm/IcmStream.cpp)

    An [OutputStream] writes into a chain of message blocks and adds a block
    when the current one is full.  The model keeps the chain as a zipper: the
    blocks before the current one, the current block and the blocks after it.
    The configuration is the one of os/config.h, [ICC_LACKS_CDR_ALIGNMENT]:
    nothing is aligned on the wire.  The code set translators are null in
    every constructor, so their branches are left out.

    A value is written as its bytes in memory, reversed when
    [do_byte_swap_] is set.  The host's byte order is the class [Host];
    [ACE_CDR_BYTE_ORDER], and with it [do_byte_swap_], is 1 on a little-endian
    host.  Values of a floating type are given by their bit pattern. *)
From S2P Require Import Prelude Block.

Class Host := { little_endian : bool }.

(** The bytes of an [n]-byte number in memory. *)
Definition native `{Host} (n : nat) (x : Z) : list Z :=
  if little_endian then le_bytes n x else be_bytes n x.

(** [ACE_CDR_BYTE_ORDER]. *)
Definition ACE_CDR_BYTE_ORDER `{Host} : bool := little_endian.

(** ** Constants (IcmStream.h) *)

Definition OCTET_SIZE : Z := 1.
Definition SHORT_SIZE : Z := 2.
Definition INT_SIZE : Z := 4.
Definition LONG_SIZE : Z := 8.
Definition LONGLONG_SIZE : Z := 8.
Definition LONGDOUBLE_SIZE : Z := 16.
Definition MAX_ALIGNMENT : Z := 8.
Definition DEFAULT_BUFSIZE : Z := 512.
Definition EXP_GROWTH_MAX : Z := 65536.
Definition LINEAR_GROWTH_CHUNK : Z := 65536.

(** ** ACE_CDR *)

(** [swap_2], [swap_4], [swap_8] and [swap_16] copy the bytes in reverse;
    the streams use [std::reverse_copy], which is the same. *)
Definition swap_2 (orig : list Z) : list Z :=
  match orig with a :: b :: _ => [b; a] | _ => orig end.
Definition swap_4 (orig : list Z) : list Z :=
  match orig with a :: b :: c :: d :: _ => [d; c; b; a] | _ => orig end.
Definition swap_8 (orig : list Z) : list Z :=
  match orig with
  | a :: b :: c :: d :: e :: f :: g :: h :: _ => [h; g; f; e; d; c; b; a]
  | _ => orig end.
Definition swap_16 (orig : list Z) : list Z := swap_8 (drop 8 orig) ++ swap_8 orig.

(** [mb_align]: both pointers to the first aligned byte. *)
Definition mb_align (b : Block) : Block := with_wr (b_pad b) (with_rd (b_pad b) b).

Fixpoint first_size_loop (fuel : nat) (newsize minsize : Z) : result Z :=
  if newsize <? minsize then
    match fuel with
    | O => Fault OutOfFuel
    | S fuel =>
        first_size_loop fuel (if newsize <? EXP_GROWTH_MAX then newsize * 2
                              else newsize + LINEAR_GROWTH_CHUNK) minsize
    end
  else Ok newsize.

(** Seven doublings, then steps of 64K. *)
Definition first_size (minsize : Z) : result Z :=
  if minsize =? 0 then Ok DEFAULT_BUFSIZE else
  first_size_loop (Z.to_nat (8 + minsize / LINEAR_GROWTH_CHUNK)) DEFAULT_BUFSIZE minsize.

Definition next_size (minsize : Z) : result Z :=
  newsize ← first_size minsize;
  Ok (if newsize =? minsize
      then if newsize <? EXP_GROWTH_MAX then newsize * 2 else newsize + LINEAR_GROWTH_CHUNK
      else newsize).

Definition total_length (chain : list Block) : Z :=
  foldl (λ l b, u64 (l + b_length b)) 0 chain.

(** ** The stream *)

Record OutputStream := mkOS {
  os_done : list Block;
  os_cur : Block;
  os_rest : list Block;
  os_writable : bool;
  os_swap : bool;
  os_good : bool
}.

Definition with_cur (b : Block) (s : OutputStream) : OutputStream :=
  mkOS (os_done s) b (os_rest s) (os_writable s) (os_swap s) (os_good s).
Definition with_swap (v : bool) (s : OutputStream) : OutputStream :=
  mkOS (os_done s) (os_cur s) (os_rest s) (os_writable s) v (os_good s).
Definition with_good (v : bool) (s : OutputStream) : OutputStream :=
  mkOS (os_done s) (os_cur s) (os_rest s) (os_writable s) (os_swap s) v.

Section output.

Context `{Allocator, Host}.

(** *** Constructors *)

Definition on_block (b : Block) : OutputStream :=
  mkOS [] (mb_align b) [] true ACE_CDR_BYTE_ORDER true.

(** [OutputStream (size)]. *)
Definition OutputStream_new (size : Z) : OutputStream :=
  on_block (new_block (if size =? 0 then DEFAULT_BUFSIZE + MAX_ALIGNMENT else size)).

(** [OutputStream (data, size)]: a copy of the caller's buffer. *)
Definition OutputStream_data (data : list Z) (size : Z) : result OutputStream :=
  b ← copied_block size data; Ok (on_block b).

(** [OutputStream (MessageBlock * data)]: on the buffer of another block; the
    pointers start at the base again. *)
Definition OutputStream_block (b : Block) : OutputStream := on_block b.

(** [reset ()]: the continuation blocks are released; the code does not set
    [good_bit_] again. *)
Definition os_reset (s : OutputStream) : OutputStream :=
  let start := match os_done s with b :: _ => b | [] => os_cur s end in
  mkOS [] (mb_align start) [] true (os_swap s) (os_good s).

(** *** Room in the current block *)

(** [grow_and_adjust] up to the tail call of [adjust]: the next block becomes
    the current one, a new one when there is none that is big enough. *)
Definition grow (size : Z) (s : OutputStream) : result OutputStream :=
  let fresh := match os_rest s with
               | [] => true
               | c :: _ => negb (os_writable s) || (b_size c <? size + MAX_ALIGNMENT)
               end in
  if fresh then
    let cursize := match os_rest s with c :: _ => b_size c | [] => b_size (os_cur s) end in
    let minsize := size + MAX_ALIGNMENT in
    let minsize := if minsize <? cursize then cursize else minsize in
    newsize ← next_size minsize;
    _ ← assert_ (newsize <=? 100000);
    Ok (mkOS (os_done s ++ [os_cur s]) (new_block newsize) (os_rest s) true (os_swap s) true)
  else
    match os_rest s with
    | [] => Fault NullDeref
    | c :: rest => Ok (mkOS (os_done s ++ [os_cur s]) c rest true (os_swap s) (os_good s))
    end.

(** [adjust (size, align, buf)]: [buf] as an offset in the current block.  The
    code of the result is 0 whenever the call returns. *)
Fixpoint adjust (fuel : nat) (size : Z) (s : OutputStream) : result (Z * Z * OutputStream) :=
  let buf := b_wr (os_cur s) in
  let end_ := buf + size in
  if os_writable s && (end_ <=? b_capacity (os_cur s)) then
    Ok (0, buf, with_cur (with_wr end_ (os_cur s)) s)
  else
    match fuel with
    | O => Fault OutOfFuel
    | S fuel => s ← grow size s; adjust fuel size s
    end.

(** One call of [grow_and_adjust] per block of the chain, and one for a new
    block. *)
Definition adjust_fuel (s : OutputStream) : nat := S (S (length (os_rest s))).

(** Bytes of the value to the wire. *)
Definition wire (s : OutputStream) (bytes : list Z) : list Z :=
  if os_swap s then reverse bytes else bytes.

Definition os_store (buf : Z) (bytes : list Z) (s : OutputStream) : result OutputStream :=
  d ← store buf bytes (b_data (os_cur s));
  Ok (with_cur (with_data d (os_cur s)) s).

(** *** Basic writes *)

Definition write_1 (x : list Z) (s : OutputStream) : result (bool * OutputStream) :=
  '(r, buf, s) ← adjust (adjust_fuel s) 1 s;
  if r =? 0 then x ← load 0 1 x; s ← os_store buf x s; Ok (true, s) else Ok (false, s).

Definition write_2 (x : list Z) (s : OutputStream) : result (bool * OutputStream) :=
  '(r, buf, s) ← adjust (adjust_fuel s) SHORT_SIZE s;
  if r =? 0 then x ← load 0 2 x; s ← os_store buf (wire s x) s; Ok (true, s) else Ok (false, s).

Definition write_4 (x : list Z) (s : OutputStream) : result (bool * OutputStream) :=
  '(r, buf, s) ← adjust (adjust_fuel s) INT_SIZE s;
  if r =? 0 then x ← load 0 4 x; s ← os_store buf (wire s x) s; Ok (true, s) else Ok (false, s).

Definition write_8 (x : list Z) (s : OutputStream) : result (bool * OutputStream) :=
  '(r, buf, s) ← adjust (adjust_fuel s) LONGLONG_SIZE s;
  if r =? 0 then x ← load 0 8 x; s ← os_store buf (wire s x) s; Ok (true, s) else Ok (false, s).

Definition write_16 (x : list Z) (s : OutputStream) : result (bool * OutputStream) :=
  '(r, buf, s) ← adjust (adjust_fuel s) LONGDOUBLE_SIZE s;
  if r =? 0 then x ← load 0 16 x; s ← os_store buf (wire s x) s; Ok (true, s) else Ok (false, s).

(** The copy loop of [write_array]: [n] elements of [size] bytes. *)
Fixpoint write_elems (n : nat) (size : Z) (source : list Z) (buf : Z) (s : OutputStream) : result OutputStream :=
  match n with
  | O => Ok s
  | S n =>
      x ← load 0 size source;
      s ← os_store buf (wire s x) s;
      write_elems n size (drop (Z.to_nat size) source) (buf + size) s
  end.

Definition write_array (x : list Z) (size : Z) (length : Z) (s : OutputStream) : result (bool * OutputStream) :=
  '(r, buf, s) ← adjust (adjust_fuel s) (size * length) s;
  if r =? 0 then s ← write_elems (Z.to_nat length) size x buf s; Ok (true, s)
  else Ok (false, with_good false s).

(** *** Typed writes *)

Definition write_octet (x : Z) (s : OutputStream) : result (bool * OutputStream) := write_1 (native 1 x) s.

Definition write_boolean (x : Z) (s : OutputStream) : result (bool * OutputStream) :=
  write_octet (if x =? 0 then 0 else 1) s.

Definition write_char (x : Z) (s : OutputStream) : result (bool * OutputStream) := write_1 (native 1 x) s.

Definition write_wchar (x : Z) (s : OutputStream) : result (bool * OutputStream) := write_2 (native 2 x) s.

Definition write_short (x : Z) (s : OutputStream) : result (bool * OutputStream) := write_2 (native 2 x) s.

Definition write_ushort (x : Z) (s : OutputStream) : result (bool * OutputStream) := write_2 (native 2 x) s.

Definition write_int (x : Z) (s : OutputStream) : result (bool * OutputStream) := write_4 (native 4 x) s.

Definition write_uint (x : Z) (s : OutputStream) : result (bool * OutputStream) := write_4 (native 4 x) s.

Definition write_long (x : Z) (s : OutputStream) : result (bool * OutputStream) := write_8 (native 8 x) s.

Definition write_ulong (x : Z) (s : OutputStream) : result (bool * OutputStream) := write_8 (native 8 x) s.

Definition write_longlong (x : Z) (s : OutputStream) : result (bool * OutputStream) := write_8 (native 8 x) s.

Definition write_ulonglong (x : Z) (s : OutputStream) : result (bool * OutputStream) := write_8 (native 8 x) s.

(** Floating values go out in the byte order of the host: [do_byte_swap_] is
    cleared for the call. *)
Definition write_float (x : Z) (s : OutputStream) : result (bool * OutputStream) :=
  let swap := os_swap s in
  '(r, s) ← write_4 (native 4 x) (with_swap false s); Ok (r, with_swap swap s).

Definition write_double (x : Z) (s : OutputStream) : result (bool * OutputStream) :=
  let swap := os_swap s in
  '(r, s) ← write_8 (native 8 x) (with_swap false s); Ok (r, with_swap swap s).

Definition write_longdouble (x : Z) (s : OutputStream) : result (bool * OutputStream) :=
  let swap := os_swap s in
  '(r, s) ← write_16 (native 16 x) (with_swap false s); Ok (r, with_swap swap s).

(** *** Arrays: [x] is the memory the pointer points to *)

(** An array of [n]-byte numbers in memory. *)
Definition native_array (n : nat) (xs : list Z) : list Z := mjoin (native n <$> xs).

Definition write_char_array (x : list Z) (length : Z) := write_array x OCTET_SIZE length.

Definition write_wchar_array (xs : list Z) (length : Z) := write_array (native_array 2 xs) SHORT_SIZE length.

Definition write_octet_array (x : list Z) (length : Z) := write_array x OCTET_SIZE length.

Definition write_short_array (xs : list Z) (length : Z) := write_array (native_array 2 xs) SHORT_SIZE length.

Definition write_ushort_array (xs : list Z) (length : Z) := write_array (native_array 2 xs) SHORT_SIZE length.

Definition write_int_array (xs : list Z) (length : Z) := write_array (native_array 4 xs) INT_SIZE length.

Definition write_long_array (xs : list Z) (length : Z) := write_array (native_array 8 xs) LONG_SIZE length.

Definition write_ulong_array (xs : list Z) (length : Z) := write_array (native_array 8 xs) LONG_SIZE length.

Definition write_longlong_array (xs : list Z) (length : Z) := write_array (native_array 8 xs) LONGLONG_SIZE length.

Definition write_ulonglong_array (xs : list Z) (length : Z) := write_array (native_array 8 xs) LONGLONG_SIZE length.

Definition write_float_array (xs : list Z) (length : Z) := write_array (native_array 4 xs) INT_SIZE length.

Definition write_double_array (xs : list Z) (length : Z) := write_array (native_array 8 xs) LONGLONG_SIZE length.

Definition write_longdouble_array (xs : list Z) (length : Z) :=
  write_array (native_array 16 xs) LONGDOUBLE_SIZE length.

Fixpoint write_boolean_loop (xs : list Z) (s : OutputStream) : result OutputStream :=
  match xs with
  | [] => Ok s
  | x :: xs => if os_good s then '(_, s) ← write_boolean x s; write_boolean_loop xs s else Ok s
  end.

Definition write_boolean_array (x : list Z) (length : Z) (s : OutputStream) : result (bool * OutputStream) :=
  x ← load 0 length x;
  s ← write_boolean_loop x s;
  Ok (os_good s, s).

(** *** Sequences: a count, then the elements.  They return 0 whatever happens. *)

Definition write_seq (size : Z) (write_arr : list Z → Z → OutputStream → result (bool * OutputStream))
  (v : list Z) (s : OutputStream) : result (bool * OutputStream) :=
  '(_, s) ← write_uint (u32 size) s;
  if size >? 0 then '(_, s) ← write_arr v (u32 size) s; Ok (false, s) else Ok (false, s).

Definition len (v : list Z) : Z := #v.

Definition write_byte_seq (v : list Z) := write_seq (len v) write_octet_array v.
Definition write_bool_seq (v : list Z) := write_seq (len v) write_boolean_array v.
Definition write_short_seq (v : list Z) := write_seq (len v) write_short_array v.
Definition write_int_seq (v : list Z) := write_seq (len v) write_int_array v.
Definition write_long_seq (v : list Z) := write_seq (len v) write_long_array v.
Definition write_float_seq (v : list Z) := write_seq (len v) write_float_array v.
Definition write_double_seq (v : list Z) := write_seq (len v) write_double_array v.

(** *** Strings *)

(** [write_string (len, x)]; [x] is the memory from the pointer on. *)
Definition write_string_len (len : Z) (x : list Z) (s : OutputStream) : result (bool * OutputStream) :=
  if negb (len =? 0) then
    '(r, s) ← write_uint (u32 (len + 1)) s;
    if (r : bool) then write_char_array x (u32 (len + 1)) s else Ok (false, s)
  else
    '(r, s) ← write_uint 1 s;
    if (r : bool) then write_char 0 s else Ok (false, s).

(** [write_string (const Char * x)], [None] for a null pointer. *)
Definition write_string_c (x : option (list Z)) (s : OutputStream) : result (bool * OutputStream) :=
  match x with
  | Some x => str ← c_str x; write_string_len (u32 (#str)) x s
  | None => write_string_len 0 [] s
  end.

(** [write_string (const std::string & x)]: [c_str ()] ends with a zero. *)
Definition write_string (x : list Z) (s : OutputStream) : result (bool * OutputStream) :=
  write_string_len (u32 (#x)) (x ++ [0]) s.

Fixpoint write_string_seq_loop (v : list (list Z)) (r : bool) (s : OutputStream) : result (bool * OutputStream) :=
  match v with
  | [] => Ok (r, s)
  | x :: v => '(r, s) ← write_string x s; write_string_seq_loop v r s
  end.

Definition write_string_seq (v : list (list Z)) (s : OutputStream) : result (bool * OutputStream) :=
  '(_, s) ← write_uint (u32 (#v)) s;
  write_string_seq_loop v true s.

(** [write_wstring (len, x)], [None] for a null pointer; elements as numbers. *)
Definition write_wstring_len (len : Z) (x : option (list Z)) (s : OutputStream) : result (bool * OutputStream) :=
  match x with
  | Some x =>
      '(r, s) ← write_uint (u32 (len + 1)) s;
      if (r : bool) then write_wchar_array x (u32 (len + 1)) s else Ok (false, s)
  | None =>
      '(r, s) ← write_uint 1 s;
      if (r : bool) then write_wchar 0 s else Ok (false, s)
  end.

Definition write_wstring (x : option (list Z)) (s : OutputStream) : result (bool * OutputStream) :=
  match x with
  | Some x => str ← c_str x; write_wstring_len (u32 (#str)) (Some x) s
  | None => write_wstring_len 0 None s
  end.

(** [write_octet_array_mb]: the contents of a chain of blocks; each block is
    copied (the code after [continue] is not reached). *)
Fixpoint write_octet_array_mb (mb : list Block) (s : OutputStream) : result (bool * OutputStream) :=
  match mb with
  | [] => Ok (true, s)
  | i :: mb =>
      let length := b_length i in
      '(r, s) ← write_array (drop (Z.to_nat (b_rd i)) (b_data i)) OCTET_SIZE (u32 length) s;
      if (r : bool) then write_octet_array_mb mb s else Ok (false, s)
  end.

(** *** Observers *)

(** The blocks from [begin ()] to [end ()]. *)
Definition os_chain (s : OutputStream) : list Block := os_done s ++ [os_cur s].

Definition os_total_length (s : OutputStream) : Z := total_length (os_chain s).

Definition os_length (s : OutputStream) : Z :=
  match os_done s with b :: _ => b_length b | [] => b_length (os_cur s) end.

(** [align_write_ptr]; [off] is the distance to the next aligned address. *)
Definition align_write_ptr (off : Z) (s : OutputStream) : result (Z * OutputStream) :=
  let buf := b_wr (os_cur s) + off in
  if buf <=? b_capacity (os_cur s) then Ok (0, with_cur (with_wr buf (os_cur s)) s)
  else s ← grow 0 s; '(r, _, s) ← adjust (adjust_fuel s) 0 s; Ok (r, s).

(** *** Operators: the value of [good_bit_] is the result *)

Definition insert_op (w : OutputStream → result (bool * OutputStream)) (s : OutputStream)
  : result (bool * OutputStream) :=
  '(_, s) ← w s; Ok (os_good s, s).

(** [operator<<] for a bounded string: [from_string]. *)
Definition insert_from_string (x : list Z) (bound : Z) (s : OutputStream) : result (bool * OutputStream) :=
  str ← c_str x;
  let l := u32 (#str) in
  '(_, s) ← write_string_len l x s;
  Ok (os_good s && (l <=? bound), s).

End output.

(** ** Lemmas: the sizes of new blocks *)

Lemma first_size_loop_small fuel k m :
  (9 ≤ k ≤ 16)%nat → (17 ≤ k + fuel)%nat → m ≤ 2 ^ 16 →
  ∃ j, (9 ≤ j ≤ 16)%nat ∧ first_size_loop fuel (2 ^ Z.of_nat k) m = Ok (2 ^ Z.of_nat j) ∧ m ≤ 2 ^ Z.of_nat j.
Proof.
  revert k. induction fuel as [|fuel IH]; intros k Hk Hf Hm; [lia|]. cbn [first_size_loop].
  destruct (2 ^ Z.of_nat k <? m) eqn:E; b2p; [|by exists k].
  assert (k < 16)%nat as Hk16.
  { destruct (decide (k = 16%nat)) as [->|]; [|lia]. change (Z.of_nat 16) with 16 in E. lia. }
  unfold EXP_GROWTH_MAX. rewrite (proj2 (Z.ltb_lt _ _)).
  2: { change 65536 with (2 ^ 16). apply Z.pow_lt_mono_r; lia. }
  replace (2 ^ Z.of_nat k * 2) with (2 ^ Z.of_nat (S k)) by (rewrite Nat2Z.inj_succ, Z.pow_succ_r; lia).
  apply IH; lia.
Qed.

(** Below 64K the next block is at most 64K and has room for what was asked. *)
Lemma next_size_small m : 0 < m < 65536 → ∃ r, next_size m = Ok r ∧ m ≤ r ≤ 65536.
Proof.
  intros Hm. unfold next_size, first_size. rewrite (proj2 (Z.eqb_neq _ _)) by lia.
  change DEFAULT_BUFSIZE with (2 ^ Z.of_nat 9).
  destruct (first_size_loop_small (Z.to_nat (8 + m / LINEAR_GROWTH_CHUNK)) 9 m) as (j & Hj & -> & Hmj);
    [lia| |lia|].
  { unfold LINEAR_GROWTH_CHUNK. rewrite Z.div_small by lia. cbn. lia. }
  rewrite bind_Ok. eexists. split; [done|]. unfold EXP_GROWTH_MAX, LINEAR_GROWTH_CHUNK.
  assert (2 ^ Z.of_nat j ≤ 2 ^ 16) by (apply Z.pow_le_mono_r; lia).
  destruct (2 ^ Z.of_nat j =? m) eqn:E; b2p; [|lia].
  rewrite (proj2 (Z.ltb_lt _ _)) by lia.
  assert (2 ^ Z.of_nat j ≤ 2 ^ 15); [|lia]. apply Z.pow_le_mono_r; [lia|].
  destruct (decide (j = 16%nat)) as [->|]; [|lia]. change (Z.of_nat 16) with 16 in E. lia.
Qed.

(** From 64K on the sizes go in steps of 64K. *)
Lemma first_size_loop_large fuel j m :
  (1 ≤ j)%nat → m / 65536 + 1 ≤ Z.of_nat (j + fuel) →
  ∃ i, (j ≤ i)%nat ∧ first_size_loop fuel (65536 * Z.of_nat j) m = Ok (65536 * Z.of_nat i) ∧
    m ≤ 65536 * Z.of_nat i ∧ (i = j ∨ 65536 * Z.of_nat i < m + 65536).
Proof.
  revert j. induction fuel as [|fuel IH]; intros j Hj Hf; cbn [first_size_loop];
    destruct (_ <? m) eqn:E; b2p; try (exists j; by auto).
  - exfalso. dlia.
  - unfold EXP_GROWTH_MAX, LINEAR_GROWTH_CHUNK. rewrite (proj2 (Z.ltb_ge _ _)) by lia.
    replace (65536 * Z.of_nat j + 65536) with (65536 * Z.of_nat (S j)) by lia.
    destruct (IH (S j)) as (i & ? & -> & ? & ?); [lia|lia|]. exists i. split_and!; [lia|done|done|right; lia].
Qed.

Lemma first_size_loop_double fuel k m :
  k < 65536 → k < m → first_size_loop (S fuel) k m = first_size_loop fuel (k * 2) m.
Proof. intros Hk Hm. cbn [first_size_loop]. unfold EXP_GROWTH_MAX. by rewrite !(proj2 (Z.ltb_lt _ _)). Qed.

Lemma first_size_loop_seven fuel m :
  65536 ≤ m → first_size_loop (7 + fuel) 512 m = first_size_loop fuel 65536 m.
Proof. intros Hm. cbn [Nat.add]. by rewrite !first_size_loop_double by lia. Qed.

Lemma first_size_large m :
  65536 ≤ m → ∃ i, first_size m = Ok (65536 * Z.of_nat i) ∧ (1 ≤ i)%nat ∧
    m ≤ 65536 * Z.of_nat i ≤ m + 65536.
Proof.
  intros Hm. unfold first_size. rewrite (proj2 (Z.eqb_neq _ _)) by lia.
  unfold LINEAR_GROWTH_CHUNK, DEFAULT_BUFSIZE.
  replace (Z.to_nat (8 + m / 65536)) with (7 + Z.to_nat (1 + m / 65536))%nat by (assert (0 ≤ m / 65536) by (apply Z.div_pos; lia); lia).
  rewrite first_size_loop_seven by done.
  destruct (first_size_loop_large (Z.to_nat (1 + m / 65536)) 1 m) as (i & Hi & Hfl & Hmi & Hor); [lia| |].
  { assert (0 ≤ m / 65536) by (apply Z.div_pos; lia). lia. }
  change (65536 * Z.of_nat 1) with 65536 in Hfl. rewrite Hfl. exists i. split_and!; [done|done|lia|destruct Hor; lia].
Qed.

Lemma next_size_large m : 65536 ≤ m → ∃ r, next_size m = Ok r ∧ 100000 < r.
Proof.
  intros Hm. unfold next_size. destruct (first_size_large m Hm) as (i & -> & ? & ?). rewrite bind_Ok.
  eexists. split; [done|]. unfold EXP_GROWTH_MAX, LINEAR_GROWTH_CHUNK.
  destruct (_ =? m) eqn:E; b2p; [|lia]. rewrite (proj2 (Z.ltb_ge _ _)) by lia. lia.
Qed.

(** A first size exists for every request. *)
Lemma first_size_ok m : 0 < m → ∃ r, first_size m = Ok r ∧ m ≤ r ≤ m + 65536 ∧ 512 ≤ r.
Proof.
  intros Hm. destruct (decide (m < 65536)) as [Hs|Hs].
  - unfold first_size. rewrite (proj2 (Z.eqb_neq _ _)) by lia.
    destruct (first_size_loop_small (Z.to_nat (8 + m / LINEAR_GROWTH_CHUNK)) 9 m) as (j & Hj & Hf & Hmj); [lia| |lia|].
    { unfold LINEAR_GROWTH_CHUNK. rewrite Z.div_small by lia. cbn. lia. }
    change DEFAULT_BUFSIZE with (2 ^ Z.of_nat 9). exists (2 ^ Z.of_nat j).
    assert (2 ^ 9 ≤ 2 ^ Z.of_nat j ≤ 2 ^ 16) by (split; apply Z.pow_le_mono_r; lia). split_and!; [done|done|lia|lia].
  - destruct (first_size_large m) as (i & -> & ? & ?); [lia|]. eexists. split; [done|lia].
Qed.

(** ** The invariant and the contents *)

(** The bytes written so far. *)
Definition os_content (s : OutputStream) : list Z := mjoin (b_content <$> os_chain s).

(** The current block is the last of the chain, is writable, and its size is
    its capacity. *)
Record os_ok (s : OutputStream) : Prop := mkOsOk {
  ok_rest : os_rest s = [];
  ok_writable : os_writable s = true;
  ok_good : os_good s = true;
  ok_blocks : Forall block_ok (os_chain s);
  ok_size : b_size (os_cur s) = b_capacity (os_cur s);
  ok_rd : b_rd (os_cur s) ≤ 7 }.

(** The bytes a stream takes without asking for a block over its limit. *)
Definition os_limit : Z := 65000.

Definition os_len (s : OutputStream) : Z := #(os_content s).

Lemma ok_cur s : os_ok s → block_ok (os_cur s).
Proof. intros Hs. pose proof (ok_blocks _ Hs) as Hf. by apply Forall_app in Hf as [_ [? _]%Forall_cons_1]. Qed.

Lemma os_content_app s : os_content s = mjoin (b_content <$> os_done s) ++ b_content (os_cur s).
Proof.
  unfold os_content, os_chain. rewrite fmap_app, join_app. cbn. by rewrite app_nil_r.
Qed.

Lemma cur_length s : os_ok s → b_wr (os_cur s) ≤ 7 + os_len s.
Proof.
  intros Hs. pose proof (content_length _ (ok_cur _ Hs)) as Hl. pose proof (ok_rd _ Hs).
  unfold os_len. rewrite os_content_app, length_app. lia.
Qed.

(** The chain has at least [k] bytes in its first block, and no empty block. *)
Definition headed (k : nat) (s : OutputStream) : Prop :=
  Forall (λ b, b_content b ≠ []) (os_chain s) ∧
  ∃ b rest, os_chain s = b :: rest ∧ (k ≤ length (b_content b))%nat.

(** What writing never undoes: the bytes of the first block stay where they
    are, and no block is left empty on the way. *)
Definition keeps (s s' : OutputStream) : Prop := ∀ k, headed k s → headed k s'.

#[export] Instance keeps_preorder : PreOrder keeps.
Proof. split; [by intros s k | intros s1 s2 s3 H12 H23 k Hk; by apply H23, H12]. Qed.

(** The current block took [bytes]; it is the one there was, or a new one. *)
Lemma keeps_store s s0 s' bytes :
  (s0 = s ∨ bytes ≠ [] ∧ os_done s0 = os_chain s) → os_done s' = os_done s0 →
  b_content (os_cur s') = b_content (os_cur s0) ++ bytes → keeps s s'.
Proof.
  unfold keeps, headed, os_chain. intros [-> | [Hne Hd0]] Hd Hc k [Hall (b & rest & Hb & Hk)]; rewrite Hd.
  - apply Forall_app in Hall as [Hall Hcur]. rewrite Forall_singleton in Hcur. split.
    + apply Forall_app. split; [done|]. apply Forall_singleton. rewrite Hc.
      intros [E1 E2]%app_eq_nil. contradiction.
    + destruct (os_done s) as [|d ds]; cbn in Hb |- *; [|by exists d, (ds ++ [os_cur s']); simplify_eq].
      exists (os_cur s'), []. simplify_eq. rewrite Hc, length_app. split; [done|lia].
  - rewrite Hd0. split.
    + apply Forall_app. split; [done|]. apply Forall_singleton. rewrite Hc.
      intros [E1 E2]%app_eq_nil. contradiction.
    + rewrite Hb. by exists b, (rest ++ [os_cur s']).
Qed.

Section writing.

Context `{Allocator, Host}.

(** [adjust] reserves [n] bytes at the write pointer of a block. *)
Lemma adjust_ok s n :
  os_ok s → 0 ≤ n → os_len s + n ≤ os_limit →
  ∃ s0, adjust (adjust_fuel s) n s =
      Ok (0, b_wr (os_cur s0), OutputStream.with_cur (with_wr (b_wr (os_cur s0) + n) (os_cur s0)) s0) ∧
    os_ok s0 ∧ os_content s0 = os_content s ∧ os_swap s0 = os_swap s ∧
    b_wr (os_cur s0) + n ≤ b_capacity (os_cur s0) ∧ (s0 = s ∨ 0 < n ∧ os_done s0 = os_chain s).
Proof.
  intros Hs Hn Hlim. unfold os_limit in Hlim. unfold adjust_fuel. rewrite (ok_rest _ Hs). cbn [length adjust].
  rewrite (ok_writable _ Hs). cbn [andb].
  destruct (_ <=? _) eqn:E; b2p; [exists s; split_and!; auto|].
  pose proof (cur_length _ Hs) as Hcur. pose proof (ok_cur _ Hs) as Hb.
  unfold grow. rewrite (ok_rest _ Hs). unfold MAX_ALIGNMENT. rewrite (ok_size _ Hs).
  set (m := if n + 8 <? b_capacity (os_cur s) then b_capacity (os_cur s) else n + 8).
  assert (0 < m < 65536 ∧ n + 8 ≤ m) as [Hm Hnm].
  { subst m. destruct Hb as [? ? ? ?]. destruct (_ <? _) eqn:E2; b2p; lia. }
  destruct (next_size_small m Hm) as (r & -> & Hr). rewrite bind_Ok.
  unfold assert_. rewrite (proj2 (Z.leb_le r 100000)) by lia. rewrite !bind_Ok.
  destruct (new_block_ok r) as (Hnb & Hnc & Hncap); [lia|].
  cbn [os_writable os_cur andb]. change (b_wr (new_block r)) with 0. rewrite Hncap.
  rewrite (proj2 (Z.leb_le _ _)) by lia. 
  exists (mkOS (os_done s ++ [os_cur s]) (new_block r) [] true (os_swap s) true). cbn [os_cur os_swap].
  split; [reflexivity|]. split_and!; try done.
  - split; [done|done|done| |by cbn [os_cur]; rewrite Hncap|cbn; lia].
    apply Forall_app. split; [by apply ok_blocks|]. by apply Forall_singleton.
  - rewrite os_content_app. cbn [os_done os_cur]. rewrite Hnc, app_nil_r. done.
  - rewrite Hncap. cbn. lia.
  - right. split; [|done]. destruct Hb. lia.
Qed.

(** Storing at the place [adjust] reserved appends to the contents. *)
Lemma os_store_ok s0 bytes n :
  os_ok s0 → n = #bytes → b_wr (os_cur s0) + n ≤ b_capacity (os_cur s0) →
  ∃ s', os_store (b_wr (os_cur s0)) bytes
      (OutputStream.with_cur (with_wr (b_wr (os_cur s0) + n) (os_cur s0)) s0) = Ok s' ∧
    os_ok s' ∧ os_content s' = os_content s0 ++ bytes ∧ os_swap s' = os_swap s0 ∧
    ∀ s, (s0 = s ∨ 0 < n ∧ os_done s0 = os_chain s) → keeps s s'.
Proof.
  intros Hs -> Hfit. pose proof (ok_cur _ Hs) as Hb. unfold os_store. cbn [os_cur OutputStream.with_cur].
  destruct (store_at_wr _ _ Hb Hfit) as (d & Hst & Hl & Hb' & Hc'). cbn [b_data with_wr]. rewrite Hst, bind_Ok.
  eexists. split; [done|]. split_and!.
  - destruct Hs as [? ? ? Hf ? ?]. split; cbn; try done.
    + apply Forall_app in Hf as [Hf _]. apply Forall_app. split; [done|]. by apply Forall_singleton.
    + unfold b_capacity. cbn. rewrite Hl. done.
  - rewrite !os_content_app. cbn [os_done os_cur OutputStream.with_cur]. rewrite <- app_assoc. f_equal. exact Hc'.
  - done.
  - intros s Hor. apply (keeps_store s s0 _ bytes); [|done|exact Hc'].
    destruct Hor as [|[Hp ?]]; [by left|right]. split; [|done]. intros ->. cbn in Hp. lia.
Qed.

(** All fixed-size writes have this shape. *)
Definition write_n (n : Z) (x : list Z) (s : OutputStream) : result (bool * OutputStream) :=
  '(r, buf, s) ← adjust (adjust_fuel s) n s;
  if r =? 0 then x ← load 0 n x; s ← os_store buf (wire s x) s; Ok (true, s) else Ok (false, s).

Lemma length_wire s x : length (wire s x) = length x.
Proof. unfold wire. destruct (os_swap s); [apply length_reverse|done]. Qed.

Lemma write_n_ok s n x :
  os_ok s → n = #x → os_len s + n ≤ os_limit →
  ∃ s', write_n n x s = Ok (true, s') ∧ os_ok s' ∧ os_content s' = os_content s ++ wire s x ∧
    os_swap s' = os_swap s ∧ keeps s s'.
Proof.
  intros Hs Hn Hlim. unfold write_n.
  destruct (adjust_ok s n Hs ltac:(lia) Hlim) as (s0 & -> & Hs0 & Hc0 & Hw0 & Hfit & Hor). rewrite bind_Ok. cbn [Z.eqb].
  rewrite load_all, bind_Ok by done. change (wire (OutputStream.with_cur _ s0) x) with (wire s0 x).
  destruct (os_store_ok s0 (wire s0 x) n Hs0) as (s' & -> & Hs' & Hc' & Hw' & Hk'); [by rewrite length_wire|done|].
  rewrite bind_Ok. exists s'. split_and!; try done; [|congruence|by apply Hk'].
  rewrite Hc', Hc0. unfold wire. by rewrite Hw0.
Qed.

End writing.

(** ** What each write appends *)

Section appending.

Context `{Allocator, Host}.

(** [w] returns [ret] and appends [bytes], while the stream has room. *)
Definition appends (w : OutputStream → result (bool * OutputStream)) (ret : bool) (bytes : list Z) : Prop :=
  ∀ s, os_ok s → os_swap s = little_endian → os_len s + #bytes ≤ os_limit →
  ∃ s', w s = Ok (ret, s') ∧ os_ok s' ∧ os_swap s' = os_swap s ∧ os_content s' = os_content s ++ bytes ∧
    keeps s s'.

Lemma length_native n x : length (native n x) = n.
Proof. unfold native. destruct little_endian; [apply length_le_bytes|apply length_be_bytes]. Qed.

(** Swapping the host's bytes makes network order. *)
Lemma wire_native s n x : os_swap s = little_endian → wire s (native n x) = be_bytes n x.
Proof. unfold wire, native, be_bytes. intros ->. by destruct little_endian. Qed.

Lemma wire_1 s x : wire s (native 1 x) = be_bytes 1 x.
Proof. unfold wire, native, be_bytes. destruct (os_swap s), little_endian; reflexivity. Qed.

Lemma os_len_app s s' bytes :
  os_content s' = os_content s ++ bytes → os_len s' = os_len s + #bytes.
Proof. intros Hc. unfold os_len. rewrite Hc, length_app. lia. Qed.

Lemma write_n_appends n k x : n = Z.of_nat k → appends (write_n n (native k x)) true (be_bytes k x).
Proof.
  intros -> s Hs Hsw Hl. rewrite length_be_bytes in Hl.
  destruct (write_n_ok s (Z.of_nat k) (native k x) Hs) as (s' & ? & ? & Hc & ? & ?); [by rewrite length_native|done|].
  exists s'. rewrite Hc, wire_native by done. done.
Qed.

Lemma write_1_appends x : appends (write_1 (native 1 x)) true (be_bytes 1 x).
Proof.
  intros s Hs Hsw Hl. rewrite length_be_bytes in Hl.
  destruct (write_n_ok s 1 (native 1 x) Hs) as (s' & Hw & ? & Hc & ? & ?); [by rewrite length_native|done|].
  exists s'. rewrite Hc, wire_1. split_and!; try done. rewrite <- Hw. unfold write_1, write_n.
  destruct (adjust _ _ _) as [[[r buf] s1]|]; [|done]. rewrite !bind_Ok. destruct (r =? 0); [|done].
  rewrite load_all, !bind_Ok by (by rewrite length_native).
  rewrite wire_1. unfold native, be_bytes. by destruct little_endian.
Qed.

(** Floating values: the host's order. *)
Lemma write_raw_appends n k x :
  n = Z.of_nat k →
  appends (λ s, '(r, s') ← write_n n (native k x) (with_swap false s); Ok (r, with_swap (os_swap s) s'))
    true (native k x).
Proof.
  intros -> s Hs Hsw Hl. rewrite length_native in Hl.
  assert (os_ok (with_swap false s)) as Hs0 by (destruct Hs; by split).
  destruct (write_n_ok (with_swap false s) (Z.of_nat k) (native k x) Hs0) as (s' & -> & Hs' & Hc & ? & Hk);
    [by rewrite length_native|done|].
  rewrite bind_Ok. eexists. split; [done|]. split_and!; [|done|exact Hc|exact Hk].
  destruct Hs'; by split.
Qed.

Lemma wire_lengths s k elems :
  Forall (λ e, length e = k) elems → Forall (λ e, length e = k) (wire s <$> elems).
Proof. intros Hall. apply Forall_fmap. eapply Forall_impl; [done|]. intros e He. cbn. by rewrite length_wire. Qed.

(** The element loop of [write_array] is one store. *)
Lemma write_elems_ok size k elems buf s :
  size = Z.of_nat k → Forall (λ e, length e = k) elems → 0 ≤ buf →
  buf + size * #elems ≤ b_capacity (os_cur s) →
  write_elems (length elems) size (mjoin elems) buf s = os_store buf (mjoin (wire s <$> elems)) s.
Proof.
  intros -> Hall. revert buf s. induction Hall as [|e elems He Hall IH]; intros buf s Hbuf Hfit;
    cbn [length write_elems] in *.
  - rewrite fmap_nil, mjoin_nil. unfold os_store, b_capacity in *. rewrite store_nil, bind_Ok by lia.
    by destruct s as [? [] ? ? ? ?].
  - rewrite fmap_cons, !mjoin_cons.
    rewrite load_slice; [|lia..|rewrite length_app; lia]. rewrite bind_Ok.
    assert (slice 0 (0 + Z.of_nat k) (e ++ mjoin elems) = e) as ->.
    { unfold slice. rewrite drop_0. apply take_app_length'. lia. }
    rewrite drop_app_length' by lia.
    pose proof (length_mjoin k (wire s <$> elems) (wire_lengths s k elems Hall)) as Hlen. rewrite length_fmap in Hlen.
    unfold os_store at 1.
    destruct (store_app buf (wire s e) (mjoin (wire s <$> elems)) (b_data (os_cur s))) as (m1 & -> & Hl1 & Hst);
      [done| |].
    { rewrite length_wire, Hlen. unfold b_capacity in Hfit. lia. }
    rewrite !bind_Ok. rewrite IH; [|lia|].
    2: { unfold b_capacity in *. cbn. rewrite Hl1. lia. }
    unfold os_store. cbn [OutputStream.with_cur os_cur with_data b_data]. rewrite length_wire, He in Hst.
    change (wire (OutputStream.with_cur _ s)) with (wire s). rewrite Hst. done.
Qed.

Lemma write_array_appends size k elems n :
  size = Z.of_nat k → Forall (λ e, length e = k) elems → n = #elems →
  ∀ s, os_ok s → os_len s + size * n ≤ os_limit →
  ∃ s', write_array (mjoin elems) size n s = Ok (true, s') ∧ os_ok s' ∧ os_swap s' = os_swap s ∧
    os_content s' = os_content s ++ mjoin (wire s <$> elems) ∧ keeps s s'.
Proof.
  intros Hsize Hall -> s Hs Hlim. unfold write_array.
  destruct (adjust_ok s (size * #elems) Hs ltac:(nia) Hlim)
    as (s0 & -> & Hs0 & Hc0 & Hw0 & Hfit & Hor). rewrite bind_Ok. cbn [Z.eqb].
  pose proof (ok_cur _ Hs0) as [Hrd _ _ _].
  rewrite Nat2Z.id, (write_elems_ok size k elems) by (done || lia).
  change (wire (OutputStream.with_cur _ s0)) with (wire s0).
  destruct (os_store_ok s0 (mjoin (wire s0 <$> elems)) (size * #elems) Hs0)
    as (s' & -> & Hs' & Hc' & Hw' & Hk'); [|done|].
  { rewrite (length_mjoin k) by (by apply wire_lengths). rewrite length_fmap. lia. }
  rewrite bind_Ok. exists s'. split_and!; try done; [congruence| |by apply Hk'].
  rewrite Hc', Hc0. unfold wire. by rewrite Hw0.
Qed.

(** Arrays of numbers in network order. *)
Definition be_array (k : nat) (xs : list Z) : list Z := mjoin (be_bytes k <$> xs).

Lemma length_be_array k xs : length (be_array k xs) = (k * length xs)%nat.
Proof.
  unfold be_array. rewrite (length_mjoin k); [by rewrite length_fmap|].
  apply Forall_fmap, Forall_forall. intros x _. apply length_be_bytes.
Qed.

Lemma write_numbers_appends size k xs n :
  size = Z.of_nat k → n = #xs →
  appends (write_array (native_array k xs) size n) true (be_array k xs).
Proof.
  intros Hsize Hn s Hs Hsw Hlim. rewrite length_be_array in Hlim.
  destruct (write_array_appends size k (native k <$> xs) n) with (s := s) as (s' & Hw & Hs' & Hw' & Hc' & Hk');
    [done| |by rewrite length_fmap|done|lia|].
  { apply Forall_fmap, Forall_forall. intros x _. apply length_native. }
  exists s'. split_and!; try done. rewrite Hc'. f_equal. unfold be_array. f_equal.
  rewrite <- list_fmap_compose. apply list_fmap_ext. intros _ x _. by apply wire_native.
Qed.

Lemma mjoin_singletons (x : list Z) : mjoin ((λ c, [c]) <$> x) = x.
Proof. induction x as [|c x IH]; [done|]. rewrite fmap_cons, mjoin_cons. cbn [app]. by rewrite IH. Qed.

(** Bytes go out as they are. *)
Lemma write_bytes_appends x n :
  n = #x → appends (write_array x OCTET_SIZE n) true x.
Proof.
  intros -> s Hs Hsw Hlim.
  destruct (write_array_appends 1 1 ((λ c, [c]) <$> x) (#x)) with (s := s)
    as (s' & Hw & Hs' & Hw' & Hc' & Hk'); [done| |by rewrite length_fmap|done|lia|].
  { by apply Forall_fmap, Forall_forall. }
  rewrite mjoin_singletons in Hw. exists s'. split_and!; try done. rewrite Hc'. f_equal.
  rewrite <- (mjoin_singletons x) at 2. f_equal. rewrite <- list_fmap_compose.
  apply list_fmap_ext. intros _ c _. cbn. unfold wire. by destruct (os_swap s).
Qed.

(** One write after another. *)
Lemma appends_bind w1 w2 r1 r2 b1 b2 :
  appends w1 r1 b1 → appends (w2 r1) r2 b2 →
  appends (λ s, '(r, s) ← w1 s; w2 r s) r2 (b1 ++ b2).
Proof.
  intros H1 H2 s Hs Hsw Hlim. rewrite length_app in Hlim.
  destruct (H1 s) as (s1 & -> & Hs1 & Hw1 & Hc1 & Hk1); [done..|lia|]. rewrite bind_Ok.
  destruct (H2 s1) as (s2 & -> & Hs2 & Hw2 & Hc2 & Hk2); [done|congruence| |].
  { rewrite (os_len_app _ _ _ Hc1). lia. }
  exists s2. split_and!; try done; [congruence|by rewrite Hc2, Hc1, app_assoc|by etrans].
Qed.

Lemma write_uint_appends x : appends (write_uint x) true (be_bytes 4 x).
Proof. by apply (write_n_appends 4 4). Qed.

Lemma write_boolean_loop_appends xs :
  appends (λ s, s ← write_boolean_loop xs s; Ok (true, s)) true
    ((λ x, if x =? 0 then 0 else 1) <$> xs).
Proof.
  induction xs as [|x xs IH]; intros s Hs Hsw Hlim; cbn [write_boolean_loop].
  - exists s. rewrite fmap_nil, app_nil_r. done.
  - rewrite (ok_good _ Hs). rewrite fmap_cons in Hlim |- *. cbn [length] in Hlim. unfold write_boolean, write_octet.
    destruct (write_1_appends (if x =? 0 then 0 else 1) s) as (s1 & -> & Hs1 & Hw1 & Hc1 & Hk1); [done|done| |].
    { rewrite length_be_bytes. lia. }
    rewrite bind_Ok. destruct (IH s1) as (s2 & Hr & Hs2 & Hw2 & Hc2 & Hk2); [done|congruence| |].
    { rewrite (os_len_app _ _ _ Hc1), length_be_bytes. lia. }
    exists s2. split_and!; try done; [congruence| |by etrans]. rewrite Hc2, Hc1, <- app_assoc. f_equal.
    by destruct (x =? 0).
Qed.

Lemma write_boolean_array_appends xs n :
  n = #xs →
  appends (write_boolean_array xs n) true ((λ x, if x =? 0 then 0 else 1) <$> xs).
Proof.
  intros Hn s Hs Hsw Hlim. unfold write_boolean_array. rewrite load_all, bind_Ok by done.
  destruct (write_boolean_loop_appends xs s) as (s' & Hr & Hs' & ? & ? & ?); [done..|].
  apply bind_inv in Hr as (s1 & -> & [= ->]). exists s'. rewrite bind_Ok, (ok_good _ Hs'). done.
Qed.

(** A sequence: count and elements.  The result is 0. *)
Lemma write_seq_appends arr v bytes :
  len v < 2 ^ 32 → (0 < len v → appends (arr v (len v)) true bytes) → (len v = 0 → bytes = []) →
  appends (write_seq (len v) arr v) false (be_bytes 4 (len v) ++ bytes).
Proof.
  intros Hlen Harr Hnil. assert (u32 (len v) = len v) as Hu by (apply wrap_small; unfold in_u, len in *; lia).
  unfold write_seq. rewrite Hu, Z.gtb_ltb. destruct (0 <? len v) eqn:E; b2p.
  - eapply (appends_bind (write_uint (len v)) (λ _ s, '(_, s) ← arr v (len v) s; Ok (false, s)));
      [apply write_uint_appends|]. intros s Hs Hsw Hl.
    destruct (Harr E s Hs Hsw Hl) as (s' & -> & ? & ? & ? & ?). by exists s'.
  - rewrite Hnil by (unfold len in *; lia). rewrite app_nil_r. intros s Hs Hsw Hl.
    destruct (write_uint_appends (len v) s Hs Hsw Hl) as (s' & -> & ? & ? & ? & ?). by exists s'.
Qed.

(** A string: its length with the terminator, its bytes, the terminator. *)
Definition enc_string (x : list Z) : list Z := be_bytes 4 (#x + 1) ++ x ++ [0].

Lemma write_string_appends x :
  #x + 1 < 2 ^ 32 → appends (write_string x) true (enc_string x).
Proof.
  intros Hlen. unfold write_string, write_string_len, enc_string.
  rewrite (wrap_small 32 (#x)) by (unfold in_u; lia).
  destruct (#x =? 0) eqn:E; b2p; cbn [negb].
  - destruct x; [|cbn in E; lia]. cbn [app length]. change (Z.of_nat 0 + 1) with 1.
    by eapply (appends_bind (write_uint 1) (λ r s, if (r : bool) then write_char 0 s else Ok (false, s)));
      [apply write_uint_appends|apply write_1_appends].
  - rewrite wrap_small by (unfold in_u; lia).
    eapply (appends_bind (write_uint (#x + 1))
      (λ r s, if (r : bool) then write_char_array (x ++ [0]) (#x + 1) s else Ok (false, s)));
      [apply write_uint_appends|]. apply write_bytes_appends. rewrite length_app. cbn. lia.
Qed.

Lemma write_string_seq_loop_appends v r :
  Forall (λ x, #x + 1 < 2 ^ 32) v →
  appends (write_string_seq_loop v r) (if decide (v = []) then r else true) (mjoin (enc_string <$> v)).
Proof.
  intros Hall. revert r. induction Hall as [|x v Hx Hall IH]; intros r.
  - intros s Hs Hsw Hl. exists s. rewrite fmap_nil, mjoin_nil, app_nil_r. done.
  - rewrite decide_False by done. rewrite fmap_cons, mjoin_cons. cbn [write_string_seq_loop].
    eapply (appends_bind (write_string x) (λ r s, write_string_seq_loop v r s));
      [by apply write_string_appends|]. specialize (IH true). by destruct (decide (v = [])).
Qed.

End appending.
