(* ===== verification/InputStream.v ===== *)
(** * InputStream: unmarshalling (icm/IcmStream.h, icm/IcmStream.cpp)

    An [InputStream] reads from one message block.  The bound of a read is the
    end of the buffer ([end ()], the capacity), as in the code.  A read that
    fails clears [good_bit_] and leaves its out parameter alone: the model
    returns [None] for it.  Locals the code declares without a value have the
    value [uninit] of the class [Uninit]. *)
From S2P Require Import Prelude Block OutputStream.

Class Uninit := { uninit : Z }.

Record InputStream := mkIS { is_start : Block; is_swap : bool; is_good : bool }.

Definition with_start (b : Block) (s : InputStream) : InputStream := mkIS b (is_swap s) (is_good s).
Definition is_with_swap (v : bool) (s : InputStream) : InputStream := mkIS (is_start s) v (is_good s).
Definition is_with_good (v : bool) (s : InputStream) : InputStream := mkIS (is_start s) (is_swap s) v.

Section input.

Context `{Allocator, Host, Uninit}.

(** The number an [n]-byte memory image stands for. *)
Definition native_value (bs : list Z) : Z := if little_endian then le_value bs else be_value bs.

(** *** Room to read *)

Definition is_adjust (size : Z) (s : InputStream) : Z * Z * InputStream :=
  let buf := b_rd (is_start s) in
  let end_ := buf + size in
  if end_ <=? b_capacity (is_start s) then (0, buf, with_start (with_rd end_ (is_start s)) s)
  else (-1, buf, is_with_good false s).

Definition unwire (s : InputStream) (bytes : list Z) : list Z :=
  if is_swap s then reverse bytes else bytes.

(** *** Basic reads: code, memory written to the out parameter, stream *)

Definition read_1 (s : InputStream) : result (bool * option (list Z) * InputStream) :=
  let b := is_start s in
  if b_rd b <? b_capacity b then
    x ← load (b_rd b) 1 (b_data b);
    Ok (true, Some x, with_start (with_rd (b_rd b + 1) b) s)
  else Ok (false, None, is_with_good false s).

(** The shape of [read_2], [read_4] and [read_8]; [n] bytes are copied. *)
Definition read_n (reserve n : Z) (s : InputStream) : result (bool * option (list Z) * InputStream) :=
  let '(r, buf, s) := is_adjust reserve s in
  if r =? 0 then x ← load buf n (b_data (is_start s)); Ok (true, Some (unwire s x), s)
  else Ok (false, None, s).

Definition read_2 := read_n SHORT_SIZE 2.
Definition read_4 := read_n INT_SIZE 4.
Definition read_8 := read_n LONG_SIZE 8.

(** [read_16] reserves [LONGLONG_SIZE] bytes and copies 16. *)
Definition read_16 := read_n LONGLONG_SIZE 16.

(** The copy loop of [read_array]: the memory written. *)
Fixpoint read_elems (n : nat) (size buf : Z) (s : InputStream) : result (list Z) :=
  match n with
  | O => Ok []
  | S n =>
      x ← load buf size (b_data (is_start s));
      rest ← read_elems n size (buf + size) s;
      Ok (unwire s x ++ rest)
  end.

Definition read_array (size length : Z) (s : InputStream) : result (bool * option (list Z) * InputStream) :=
  let '(r, buf, s) := is_adjust (size * length) s in
  if r =? 0 then
    x ← read_elems (Z.to_nat length) size buf s;
    Ok (is_good s, Some x, s)
  else Ok (false, None, s).

(** *** Typed reads *)

Definition read_value (f : list Z → Z) (rd : InputStream → result (bool * option (list Z) * InputStream))
  (s : InputStream) : result (bool * option Z * InputStream) :=
  '(r, x, s) ← rd s; Ok (r, option_map f x, s).

Definition unsigned (n : Z) (bs : list Z) : Z := wrap n (native_value bs).
Definition signed (n : Z) (bs : list Z) : Z := swrap n (native_value bs).

Definition read_octet := read_value (unsigned 8) read_1.

(** The result is [good_bit_]; the flag is computed from [tmp] in any case. *)
Definition read_boolean (s : InputStream) : result (bool * option Z * InputStream) :=
  '(_, tmp, s) ← read_octet s;
  let tmp := default uninit tmp in
  Ok (is_good s, Some (if tmp =? 0 then 0 else 1), s).

Definition read_char := read_value (signed 8) read_1.
Definition read_wchar := read_value (unsigned 16) read_2.
Definition read_short := read_value (signed 16) read_2.
Definition read_ushort := read_value (unsigned 16) read_2.
Definition read_int := read_value (signed 32) read_4.
Definition read_uint := read_value (unsigned 32) read_4.
Definition read_long := read_value (signed 64) read_8.
Definition read_ulong := read_value (unsigned 64) read_8.
Definition read_longlong := read_value (signed 64) read_8.
Definition read_ulonglong := read_value (unsigned 64) read_8.

(** Floating values, as bit patterns, with [do_byte_swap_] cleared. *)
Definition read_raw (bits : Z) (rd : InputStream → result (bool * option (list Z) * InputStream))
  (s : InputStream) : result (bool * option Z * InputStream) :=
  let swap := is_swap s in
  '(r, x, s) ← read_value (unsigned bits) rd (is_with_swap false s);
  Ok (r, x, is_with_swap swap s).

Definition read_float := read_raw 32 read_4.
Definition read_double := read_raw 64 read_8.
Definition read_longdouble := read_raw 128 read_16.

(** *** Arrays: the elements read *)

(** Memory as [n]-byte elements. *)
Fixpoint chunks (k n : nat) (bs : list Z) : list (list Z) :=
  match k with O => [] | S k => take n bs :: chunks k n (drop n bs) end.

Definition read_numbers (f : list Z → Z) (size length : Z) (s : InputStream)
  : result (bool * option (list Z) * InputStream) :=
  '(r, x, s) ← read_array size length s;
  Ok (r, option_map (λ bs, f <$> chunks (Z.to_nat length) (Z.to_nat size) bs) x, s).

(** Characters of arrays and strings are given as the bytes of their memory. *)
Definition read_char_array := read_numbers (unsigned 8) OCTET_SIZE.
Definition read_wchar_array := read_numbers (unsigned 16) SHORT_SIZE.
Definition read_octet_array := read_numbers (unsigned 8) OCTET_SIZE.
Definition read_short_array := read_numbers (signed 16) SHORT_SIZE.
Definition read_ushort_array := read_numbers (unsigned 16) SHORT_SIZE.
Definition read_int_array := read_numbers (signed 32) INT_SIZE.
Definition read_long_array := read_numbers (signed 64) LONG_SIZE.
Definition read_ulong_array := read_numbers (unsigned 64) LONG_SIZE.
Definition read_longlong_array := read_numbers (signed 64) LONGLONG_SIZE.
Definition read_ulonglong_array := read_numbers (unsigned 64) LONGLONG_SIZE.
Definition read_float_array := read_numbers (unsigned 32) INT_SIZE.
Definition read_double_array := read_numbers (unsigned 64) LONGLONG_SIZE.
Definition read_longdouble_array := read_numbers (unsigned 128) LONGDOUBLE_SIZE.

(** [read_boolean_array (x, length)]: the elements read before the first failure
    and the one that failed. *)
Fixpoint read_boolean_loop (n : nat) (s : InputStream) : result (list Z * InputStream) :=
  match n with
  | O => Ok ([], s)
  | S n =>
      if is_good s then
        '(_, x, s) ← read_boolean s;
        '(xs, s) ← read_boolean_loop n s;
        Ok (default uninit x :: xs, s)
      else Ok ([], s)
  end.

Definition read_boolean_array (length : Z) (s : InputStream) : result (bool * list Z * InputStream) :=
  '(xs, s) ← read_boolean_loop (Z.to_nat length) s; Ok (is_good s, xs, s).

(** *** Sequences.  [v] is the vector before the call; the result is 0. *)

Definition resize (n : Z) (v : list Z) : list Z :=
  take (Z.to_nat n) (v ++ replicate (Z.to_nat n - length v) 0).

(** [init] is the value of [sz] before [read_uint]. *)
Definition read_seq (init : Z) (read_arr : Z → InputStream → result (bool * option (list Z) * InputStream))
  (v : list Z) (s : InputStream) : result (bool * list Z * InputStream) :=
  '(_, sz, s) ← read_uint s;
  let sz := default init sz in
  if sz >? 0 then
    let v := resize sz v in
    '(_, xs, s) ← read_arr sz s;
    Ok (false, default v xs, s)
  else Ok (false, v, s).

(** [read_byte_seq] and [read_bool_seq] do not initialise [sz], the others do. *)
Definition read_byte_seq := read_seq uninit read_octet_array.

Definition read_bool_seq (v : list Z) (s : InputStream) : result (bool * list Z * InputStream) :=
  '(_, sz, s) ← read_uint s;
  let sz := default uninit sz in
  if sz >? 0 then '(_, xs, s) ← read_boolean_array sz s; Ok (false, v ++ xs, s)
  else Ok (false, v, s).

Definition read_short_seq := read_seq 0 read_short_array.
Definition read_int_seq := read_seq 0 read_int_array.
Definition read_long_seq := read_seq 0 read_long_array.
Definition read_float_seq := read_seq 0 read_float_array.
Definition read_double_seq := read_seq 0 read_double_array.

(** *** Strings *)

(** [read_string] into a new array: [None] for a null pointer.  [len] is not
    initialised. *)
Definition read_string_c (s : InputStream) : result (bool * option (list Z) * InputStream) :=
  '(_, l, s) ← read_uint s;
  let l := default uninit l in
  if l >? 0 then
    '(r, x, s) ← read_char_array l s;
    if (r : bool) then Ok (true, x, s) else Ok (false, None, s)
  else Ok (false, None, s).

(** [read_string] into a [std::string]: the characters up to the first zero. *)
Definition read_string (s : InputStream) : result (bool * list Z * InputStream) :=
  '(r, data, s) ← read_string_c s;
  if (r : bool) then
    match data with
    | Some data => x ← c_str data; Ok (true, x, s)
    | None => Fault NullDeref
    end
  else Ok (false, [], s).

Fixpoint read_string_seq_loop (n : nat) (s : InputStream) : result (list (list Z) * InputStream) :=
  match n with
  | O => Ok ([], s)
  | S n =>
      '(_, x, s) ← read_string s;
      '(xs, s) ← read_string_seq_loop n s;
      Ok (x :: xs, s)
  end.

Definition read_string_seq (v : list (list Z)) (s : InputStream) : result (bool * list (list Z) * InputStream) :=
  '(_, sz, s) ← read_uint s;
  let sz := default 0 sz in
  if sz >? 0 then '(xs, s) ← read_string_seq_loop (Z.to_nat sz) s; Ok (false, xs, s)
  else Ok (false, v, s).

Definition read_wstring (s : InputStream) : result (bool * option (list Z) * InputStream) :=
  '(_, l, s) ← read_uint s;
  if is_good s then
    '(r, x, s) ← read_wchar_array (default uninit l) s;
    if (r : bool) then Ok (true, x, s) else Ok (false, None, s)
  else Ok (false, None, s).

(** *** Skips *)

Definition skip (rd : InputStream → result (bool * option (list Z) * InputStream)) (s : InputStream)
  : result (bool * InputStream) := '(r, _, s) ← rd s; Ok (r, s).

Definition skip_char := skip read_1.
Definition skip_wchar := skip read_2.
Definition skip_octet := skip read_1.
Definition skip_boolean (s : InputStream) : result (bool * InputStream) :=
  '(_, _, s) ← read_octet s; Ok (is_good s, s).
Definition skip_short := skip read_2.
Definition skip_ushort := skip read_2.
Definition skip_long := skip read_8.
Definition skip_ulong := skip read_8.
Definition skip_longlong := skip read_8.
Definition skip_ulonglong := skip read_8.
Definition skip_float := skip read_4.
Definition skip_double := skip read_8.
Definition skip_longdouble := skip read_16.

Definition skip_bytes (n : Z) (s : InputStream) : result (bool * InputStream) :=
  let b := is_start s in
  if b_rd b + n <=? b_capacity b then Ok (true, with_start (with_rd (b_rd b + n) b) s)
  else Ok (false, is_with_good false s).

Definition skip_string (s : InputStream) : result (bool * InputStream) :=
  '(r, l, s) ← read_uint s;
  if (r : bool) then skip_bytes (default uninit l) s else Ok (false, s).

(** [align_read_ptr]; [off] is the distance to the next aligned address. *)
Definition align_read_ptr (off : Z) (s : InputStream) : Z * InputStream :=
  let b := is_start s in
  if b_rd b + off <=? b_capacity b then (0, with_start (with_rd (b_rd b + off) b) s)
  else (-1, is_with_good false s).

(** *** Constructors and buffer management *)

Definition on_input (b : Block) : InputStream := mkIS b ACE_CDR_BYTE_ORDER true.

(** [InputStream (buf, bufsiz)]: the whole buffer is readable. *)
Definition InputStream_buf (buf : list Z) (pad : Z) : InputStream :=
  let b := user_block buf pad in on_input (with_wr (b_wr b + #buf) b).

(** [InputStream (bufsiz)]. *)
Definition InputStream_new (bufsiz : Z) : InputStream := on_input (new_block bufsiz).

(** [InputStream (DataBlock * data)]. *)
Definition InputStream_db (b : Block) : InputStream := on_input (b_reset b).

(** The copy loop shared by the constructors; the code of [copy] is ignored. *)
Fixpoint copy_chain (chain : list Block) (dst : Block) : result Block :=
  match chain with
  | [] => Ok dst
  | i :: chain =>
      '(_, dst) ← b_copy (drop (Z.to_nat (b_rd i)) (b_data i)) (b_length i) dst;
      copy_chain chain dst
  end.

(** [InputStream (const OutputStream & rhs)]. *)
Definition InputStream_of_output (rhs : OutputStream) : result InputStream :=
  let start := mb_align (new_block (os_total_length rhs + MAX_ALIGNMENT)) in
  start ← copy_chain (os_chain rhs) start;
  Ok (on_input start).

(** [InputStream (rhs, size, offset)]. *)
Definition InputStream_at (rhs : InputStream) (size offset : Z) : InputStream :=
  let b := is_start rhs in
  let newpos := b_rd b + offset in
  if (0 <=? newpos) && (newpos <=? b_capacity b) && (newpos + size <=? b_capacity b)
  then on_input (with_wr (newpos + size) (with_rd newpos b))
  else is_with_good false (on_input (b_reset b)).

(** [InputStream (rhs, size)]: an encapsulation; its byte-order octet is read
    and ignored. *)
Definition InputStream_encaps (rhs : InputStream) (size : Z) : result InputStream :=
  let b := is_start rhs in
  let newpos := b_rd b in
  if (0 <=? newpos) && (newpos <=? b_capacity b) && (newpos + size <=? b_capacity b)
  then '(_, _, s) ← read_octet (on_input (with_wr (newpos + size) (with_rd newpos b)));
       Ok (is_with_swap ACE_CDR_BYTE_ORDER s)
  else Ok (is_with_good false (on_input (b_reset b))).

(** [InputStream (const InputStream & rhs)] and [operator=]: the same buffer and
    position, with [good_bit_] set. *)
Definition InputStream_copy (rhs : InputStream) : InputStream := on_input (is_start rhs).

Definition InputStream_assign (rhs : InputStream) : InputStream := mkIS (is_start rhs) (is_swap rhs) true.

(** [cloneNoCopy] of the data block under a message block: a new buffer of
    the same capacity, both pointers at its base. *)
Definition clone_no_copy (b : Block) : Block := new_block (b_capacity b).

(** [InputStream (Transfer_Contents x)]: the new stream and what is left of the
    old one. *)
Definition InputStream_transfer (rhs : InputStream) : InputStream * InputStream :=
  (on_input (is_start rhs), with_start (clone_no_copy (is_start rhs)) rhs).

(** [ACE_CDR::consolidate (dst, src)]: the chain goes to one buffer, at the
    same position modulo 8 as the first block; the codes of [copy] are
    ignored. *)
Definition consolidate (dst : Block) (src : list Block) : result Block :=
  match src with
  | [] => Ok dst
  | s0 :: _ =>
      newsize ← first_size (total_length src);
      dst ← b_resize newsize dst;
      let srcalign := (b_rd s0 - b_pad s0) mod MAX_ALIGNMENT in
      let dstalign := (b_rd dst - b_pad dst) mod MAX_ALIGNMENT in
      let offset := srcalign - dstalign in
      let offset := if offset <? 0 then offset + MAX_ALIGNMENT else offset in
      let dst := with_rd (b_rd dst + offset) dst in
      let dst := with_wr (b_rd dst) dst in
      copy_chain src dst
  end.

(** [reset (data, byte_order)]: the byte order is fixed. *)
Definition is_reset (data : list Block) (s : InputStream) : result InputStream :=
  start ← consolidate (is_start s) data;
  Ok (mkIS start ACE_CDR_BYTE_ORDER (is_good s)).

(** [InputStream (const MessageBlock * data)], on an empty block. *)
Definition InputStream_mb (data : list Block) : result InputStream :=
  is_reset data (on_input (mkBlock [] 0 0 0 0)).

(** [ACE_CDR::grow (mb, minsize)]. *)
Definition cdr_grow (minsize : Z) (mb : Block) : result Block :=
  newsize ← first_size (minsize + MAX_ALIGNMENT);
  if newsize <=? b_size mb then Ok mb else
  tmp ← b_resize newsize (clone_no_copy mb);
  let tmp := mb_align tmp in
  '(_, tmp) ← b_copy (b_data mb) (b_size mb) tmp;
  Ok tmp.

(** [InputStream::grow (newsize)]: room for [newsize] bytes from the first
    aligned one. *)
Definition is_grow (newsize : Z) (s : InputStream) : result InputStream :=
  b ← cdr_grow newsize (is_start s);
  let b := mb_align b in
  Ok (with_start (with_wr (b_wr b + newsize) b) s).

(** [reset_contents ()]. *)
Definition reset_contents (s : InputStream) : InputStream := with_start (clone_no_copy (is_start s)) s.

(** [steal_from (cdr)]: this stream, and [cdr] after the call. *)
Definition steal_from (cdr s : InputStream) : InputStream * InputStream :=
  (mkIS (is_start cdr) ACE_CDR_BYTE_ORDER (is_good s), reset_contents cdr).

(** [steal_contents ()]: the block returned, and the stream on a copy of the
    buffer, from its start. *)
Definition steal_contents (s : InputStream) : Block * InputStream :=
  (is_start s, with_start (mb_align (is_start s)) s).

Definition byte_order (s : InputStream) : bool :=
  if is_swap s then negb ACE_CDR_BYTE_ORDER else ACE_CDR_BYTE_ORDER.

(** [operator>>]: the value of [good_bit_] is the result. *)
Definition extract_op {V} (rd : InputStream → result (bool * V * InputStream)) (s : InputStream)
  : result (bool * V * InputStream) := '(_, x, s) ← rd s; Ok (is_good s, x, s).

(** [operator>>] for a bounded string: [to_string]. *)
Definition extract_to_string (bound : Z) (s : InputStream) : result (bool * option (list Z) * InputStream) :=
  '(_, x, s) ← read_string_c s;
  if is_good s then
    match x with
    | Some m => str ← c_str m; Ok (#str <=? bound, x, s)
    | None => Fault NullDeref
    end
  else Ok (false, x, s).

(** *** Appending from an input stream *)

Definition append {V} (rd : InputStream → result (bool * option V * InputStream))
  (wr : V → OutputStream → result (bool * OutputStream)) (ins : InputStream) (os : OutputStream)
  : result (bool * InputStream * OutputStream) :=
  '(r, x, ins) ← rd ins;
  match r, x with
  | true, Some x => '(r, os) ← wr x os; Ok (r, ins, os)
  | _, _ => Ok (false, ins, os)
  end.

Definition append_boolean := append read_boolean write_boolean.
Definition append_char := append read_char write_char.
Definition append_wchar := append read_wchar write_wchar.
Definition append_octet := append read_octet write_octet.
Definition append_short := append read_short write_short.
Definition append_ushort := append read_ushort write_ushort.
Definition append_long := append read_long write_long.
Definition append_ulong := append read_ulong write_ulong.
Definition append_longlong := append read_longlong write_longlong.
Definition append_ulonglong := append read_ulonglong write_ulonglong.
Definition append_float := append read_float write_float.
Definition append_double := append read_double write_double.
Definition append_longdouble := append read_longdouble write_longdouble.
Definition append_string := append read_string_c (λ x, write_string_c (Some x)).
Definition append_wstring := append read_wstring (λ x, write_wstring (Some x)).

(** [OutputStream (const InputStream & rhs)]: the start block it is left with.
    The block has no buffer of its own. *)
Definition OutputStream_of_input (rhs : InputStream) : result Block :=
  copy_chain [is_start rhs] (mb_align (mkBlock [] 0 0 0 0)).

End input.

(** ** Lemmas: what each read consumes *)

(** The bytes from the read pointer to the end of the buffer. *)
Definition avail (s : InputStream) : list Z := slice (b_rd (is_start s)) (b_capacity (is_start s)) (b_data (is_start s)).

Definition rd_ok (s : InputStream) : Prop := 0 ≤ b_rd (is_start s) ≤ b_capacity (is_start s).

Section consuming.

Context `{Allocator, Host, Uninit}.

(** A stream as its constructors leave it, with no failed read so far. *)
Definition is_ok_in (s : InputStream) : Prop := rd_ok s ∧ is_swap s = little_endian ∧ is_good s = true.

(** [rd] returns [ret] and [v] and consumes exactly [bytes]. *)
Definition consumes {V} (rd : InputStream → result (bool * V * InputStream)) (ret : bool) (v : V)
  (bytes : list Z) : Prop :=
  ∀ s rest, is_ok_in s → avail s = bytes ++ rest →
  ∃ s', rd s = Ok (ret, v, s') ∧ is_ok_in s' ∧ avail s' = rest.

Lemma avail_length s : rd_ok s → #(avail s) = b_capacity (is_start s) - b_rd (is_start s).
Proof. intros [? ?]. unfold avail, b_capacity in *. by rewrite length_slice by lia. Qed.

(** Moving the read pointer forward drops bytes. *)
Lemma avail_advance s n :
  rd_ok s → 0 ≤ n → b_rd (is_start s) + n ≤ b_capacity (is_start s) →
  avail s = slice (b_rd (is_start s)) (b_rd (is_start s) + n) (b_data (is_start s)) ++
            avail (with_start (with_rd (b_rd (is_start s) + n) (is_start s)) s).
Proof. intros [? ?] Hn Hf. unfold avail. cbn. apply slice_app; [lia|]. exact Hf. Qed.

Lemma avail_split s n bytes rest :
  rd_ok s → avail s = bytes ++ rest → n = #bytes →
  let s' := with_start (with_rd (b_rd (is_start s) + n) (is_start s)) s in
  b_rd (is_start s) + n ≤ b_capacity (is_start s) ∧ rd_ok s' ∧ avail s' = rest ∧
  load (b_rd (is_start s)) n (b_data (is_start s)) = Ok bytes.
Proof.
  intros Hr Ha ->. pose proof (avail_length s Hr) as Hl. rewrite Ha, length_app in Hl.
  assert (b_rd (is_start s) + #bytes ≤ b_capacity (is_start s)) as Hf by lia.
  pose proof (avail_advance s (#bytes) Hr ltac:(lia) Hf) as Hadv.
  rewrite Ha in Hadv. unfold rd_ok, b_capacity in *.
  apply app_inj_1 in Hadv as [Hb Hrest].
  2: { apply Nat2Z.inj. rewrite length_slice; lia. }
  split_and!; [done|cbn; lia|cbn; lia|done|]. rewrite load_slice by lia. by rewrite <- Hb.
Qed.

Lemma is_adjust_ok s n bytes rest :
  rd_ok s → avail s = bytes ++ rest → n = #bytes →
  is_adjust n s = (0, b_rd (is_start s), with_start (with_rd (b_rd (is_start s) + n) (is_start s)) s).
Proof.
  intros Hr Ha Hn. destruct (avail_split s n bytes rest Hr Ha Hn) as (Hf & _).
  unfold is_adjust. by rewrite (proj2 (Z.leb_le _ _)).
Qed.

Lemma read_n_raw s n bytes rest :
  rd_ok s → avail s = bytes ++ rest → n = #bytes →
  let s' := with_start (with_rd (b_rd (is_start s) + n) (is_start s)) s in
  read_n n n s = Ok (true, Some (unwire s bytes), s') ∧ rd_ok s' ∧ avail s' = rest.
Proof.
  intros Hr Ha Hn. destruct (avail_split s n bytes rest Hr Ha Hn) as (Hf & Hr' & Ha' & Hl).
  unfold read_n. rewrite (is_adjust_ok s n bytes rest) by done. cbn [Z.eqb is_start with_start b_data with_rd].
  by rewrite Hl, bind_Ok.
Qed.

Lemma unwire_be s k x : is_swap s = little_endian → unwire s (be_bytes k x) = native k x.
Proof.
  unfold unwire, native, be_bytes. intros ->. destruct little_endian; [apply reverse_involutive|done].
Qed.

Lemma native_value_native k x : native_value (native k x) = wrap (8 * Z.of_nat k) x.
Proof.
  unfold native_value, native. destruct little_endian.
  - apply le_value_le_bytes_wrap.
  - by rewrite be_value_be_bytes, pow_256.
Qed.

Lemma read_n_consumes n k x :
  n = Z.of_nat k → consumes (read_n n n) true (Some (native k x)) (be_bytes k x).
Proof.
  intros Hn s rest (Hr & Hsw & Hg) Ha.
  destruct (read_n_raw s n (be_bytes k x) rest Hr Ha) as (Hrd & Hr' & Ha'); [by rewrite length_be_bytes|].
  rewrite unwire_be in Hrd by done. eexists. split; [exact Hrd|]. done.
Qed.

Lemma read_value_consumes f rd x bytes :
  consumes rd true (Some x) bytes → consumes (read_value f rd) true (Some (f x)) bytes.
Proof.
  intros Hrd s rest Hs Ha. destruct (Hrd s rest Hs Ha) as (s' & Hr & ? & ?).
  exists s'. unfold read_value. by rewrite Hr.
Qed.

Lemma read_1_consumes c : consumes read_1 true (Some [c]) [c].
Proof.
  intros s rest (Hr & Hsw & Hg) Ha. destruct (avail_split s 1 [c] rest Hr Ha eq_refl) as (Hf & Hr' & Ha' & Hl).
  unfold read_1. rewrite (proj2 (Z.ltb_lt _ _)) by lia. rewrite Hl, bind_Ok. eexists. split; [done|]. done.
Qed.

Lemma native_value_1 c : native_value [c] = c.
Proof. unfold native_value, be_value. destruct little_endian; cbn; lia. Qed.

(** Numbers: unsigned and signed. *)
Lemma read_unsigned_consumes n k bits x :
  n = Z.of_nat k → bits = 8 * Z.of_nat k → in_u bits x →
  consumes (read_value (unsigned bits) (read_n n n)) true (Some x) (be_bytes k x).
Proof.
  intros Hn -> Hx. replace x with (unsigned (8 * Z.of_nat k) (native k x)) at 1.
  - by apply read_value_consumes, read_n_consumes.
  - unfold unsigned. rewrite native_value_native. by rewrite !(wrap_small _ x).
Qed.

Lemma read_signed_consumes n k bits x :
  n = Z.of_nat k → bits = 8 * Z.of_nat k → (0 < k)%nat → in_s bits x →
  consumes (read_value (signed bits) (read_n n n)) true (Some x) (be_bytes k x).
Proof.
  intros Hn -> Hk Hx. replace x with (signed (8 * Z.of_nat k) (native k x)) at 1.
  - by apply read_value_consumes, read_n_consumes.
  - unfold signed. rewrite native_value_native, swrap_wrap, swrap_small by (done || lia). done.
Qed.

(** Floating values. *)
Lemma read_raw_consumes n k bits x :
  n = Z.of_nat k → bits = 8 * Z.of_nat k → in_u bits x →
  consumes (read_raw bits (read_n n n)) true (Some x) (native k x).
Proof.
  intros Hn -> Hx s rest (Hr & Hsw & Hg) Ha.
  destruct (read_n_raw (is_with_swap false s) n (native k x) rest) as (Hrd & Hr' & Ha');
    [done|done|by rewrite length_native|].
  unfold read_raw, read_value. rewrite Hrd, !bind_Ok. eexists. split.
  - cbn [option_map unwire is_with_swap is_swap]. unfold unsigned.
    rewrite native_value_native, !(wrap_small _ x) by done. done.
  - done.
Qed.

(** *** Arrays *)

Lemma load_app off a b rest data :
  0 ≤ off → slice off (#data) data = a ++ b ++ rest →
  off + #a ≤ #data →
  load off (#a) data = Ok a ∧
  slice (off + #a) (#data) data = b ++ rest.
Proof.
  intros Ho Hs Hl. rewrite (slice_app _ (off + #a)) in Hs by lia.
  apply app_inj_1 in Hs as [Ha Hb]; [|apply Nat2Z.inj; rewrite length_slice; lia].
  split; [|done]. rewrite load_slice by lia. by rewrite Ha.
Qed.

Lemma read_elems_ok s k elems buf rest :
  Forall (λ e, length e = k) elems → 0 ≤ buf ≤ b_capacity (is_start s) →
  slice buf (b_capacity (is_start s)) (b_data (is_start s)) = mjoin elems ++ rest →
  read_elems (length elems) (Z.of_nat k) buf s = Ok (mjoin (unwire s <$> elems)).
Proof.
  intros Hall. revert buf. induction Hall as [|e elems He Hall IH]; intros buf Hbuf Hsl; [done|].
  cbn [length read_elems]. rewrite fmap_cons, mjoin_cons. rewrite mjoin_cons, <- app_assoc in Hsl.
  pose proof (f_equal length Hsl) as Hlen. apply (f_equal Z.of_nat) in Hlen.
  unfold b_capacity in *. rewrite length_slice, !length_app in Hlen by lia.
  destruct (load_app buf e (mjoin elems) rest _ ltac:(lia) Hsl) as [Hld Hrest]; [lia|].
  rewrite He in Hld, Hrest. rewrite Hld, bind_Ok, IH; [done|lia|done].
Qed.

Lemma read_array_consumes k size n elems mem :
  size = Z.of_nat k → n = #elems → Forall (λ e, length e = k) elems →
  mem = mjoin ((λ e, if little_endian then reverse e else e) <$> elems) →
  consumes (read_array size n) true (Some mem) (mjoin elems).
Proof.
  intros -> -> Hall -> s rest (Hr & Hsw & Hg) Ha.
  pose proof (length_mjoin k elems Hall) as Hlen.
  destruct (avail_split s (Z.of_nat k * #elems) _ rest Hr Ha) as (Hf & Hr' & Ha' & _); [lia|].
  unfold read_array. rewrite (is_adjust_ok s _ (mjoin elems) rest) by (done || lia). cbn [Z.eqb].
  rewrite Nat2Z.id. set (s' := with_start _ s).
  assert (read_elems (length elems) (Z.of_nat k) (b_rd (is_start s)) s' =
    Ok (mjoin (unwire s' <$> elems))) as ->.
  { apply (read_elems_ok s' k elems _ rest); [done| |exact Ha]. destruct Hr. cbn. unfold b_capacity in *. cbn. lia. }
  rewrite bind_Ok. exists s'. change (is_good s') with (is_good s). rewrite Hg. split_and!; try done.
  do 5 f_equal. apply list_fmap_ext. intros _ e _. unfold unwire. change (is_swap s') with (is_swap s). by rewrite Hsw.
Qed.

Lemma chunks_mjoin k elems :
  Forall (λ e, length e = k) elems → chunks (length elems) k (mjoin elems) = elems.
Proof.
  induction 1 as [|e elems He _ IH]; [done|]. cbn [length chunks]. rewrite mjoin_cons.
  rewrite take_app_length', drop_app_length' by done. by rewrite IH.
Qed.

(** An array of numbers; [f] reads one element back. *)
Lemma read_numbers_consumes f k size n xs :
  size = Z.of_nat k → n = #xs →
  Forall (λ x, f (native k x) = x) xs →
  consumes (read_numbers f size n) true (Some xs) (be_array k xs).
Proof.
  intros Hsize Hn Hf s rest Hs Ha.
  assert (∀ g : Z → list Z, (∀ x, length (g x) = k) → Forall (λ e, length e = k) (g <$> xs)) as Hlen.
  { intros g Hg. apply Forall_fmap, Forall_forall. intros x _. apply Hg. }
  destruct (read_array_consumes k size n (be_bytes k <$> xs) (mjoin (native k <$> xs)) Hsize) with (s := s) (rest := rest)
    as (s' & Hrd & Hs' & Ha'); [by rewrite length_fmap|apply Hlen, length_be_bytes| |done|done|].
  { rewrite <- list_fmap_compose. f_equal. apply list_fmap_ext. intros _ x _. cbn.
    unfold native, be_bytes. destruct little_endian; [by rewrite reverse_involutive|done]. }
  exists s'. unfold read_numbers. rewrite Hrd, bind_Ok. cbn [option_map]. split_and!; try done.
  do 4 f_equal. rewrite Hn, Hsize, !Nat2Z.id.
  rewrite <- (length_fmap (native k)), chunks_mjoin by (apply Hlen, length_native).
  rewrite <- list_fmap_compose. rewrite <- (list_fmap_id xs) at 2. apply list_fmap_ext.
  intros i x Hx. rewrite Forall_lookup in Hf. by eapply Hf.
Qed.

Lemma be_array_1 xs : bytes_ok xs → be_array 1 xs = xs.
Proof.
  unfold be_array. induction 1 as [|x xs Hx _ IH]; [done|]. rewrite fmap_cons, mjoin_cons, IH.
  unfold be_bytes. cbn. rewrite Z.mod_small by (unfold is_byte in Hx; lia). done.
Qed.

(** *** Sequences and strings *)

Lemma read_uint_consumes x : in_u 32 x → consumes read_uint true (Some x) (be_bytes 4 x).
Proof. intros Hx. by apply (read_unsigned_consumes 4 4 32). Qed.

Lemma consumes_bind {V W} (rd1 : InputStream → result (bool * V * InputStream))
  (rd2 : bool → V → InputStream → result (bool * W * InputStream)) r1 r2 v1 v2 b1 b2 :
  consumes rd1 r1 v1 b1 → consumes (rd2 r1 v1) r2 v2 b2 →
  consumes (λ s, '(r, v, s) ← rd1 s; rd2 r v s) r2 v2 (b1 ++ b2).
Proof.
  intros H1' H2 s rest Hs Ha. rewrite <- app_assoc in Ha.
  destruct (H1' s (b2 ++ rest) Hs Ha) as (s1 & -> & Hs1 & Ha1). rewrite bind_Ok. by apply H2.
Qed.

Lemma read_seq_consumes init arr v0 xs bytes :
  len xs < 2 ^ 32 → (0 < len xs → consumes (arr (len xs)) true (Some xs) bytes) →
  (len xs = 0 → bytes = [] ∧ v0 = []) →
  consumes (read_seq init arr v0) false xs (be_bytes 4 (len xs) ++ bytes).
Proof.
  intros Hlen Harr Hnil. unfold read_seq.
  apply (consumes_bind read_uint (λ _ sz s, let sz := default init sz in
    if sz >? 0 then let v := resize sz v0 in '(_, xs, s) ← arr sz s; Ok (false, default v xs, s)
    else Ok (false, v0, s)) true false (Some (len xs)) xs).
  { apply read_uint_consumes. unfold in_u, len in *. lia. }
  cbv beta zeta. change (default init (Some (len xs))) with (len xs). rewrite Z.gtb_ltb. destruct (0 <? len xs) eqn:E; b2p; intros s rest Hs Ha.
  - destruct (Harr E s rest Hs Ha) as (s' & Hr & ? & ?). exists s'. by rewrite Hr.
  - assert (len xs = 0) as E0 by (unfold len in *; lia). destruct (Hnil E0) as [-> ->]. exists s.
    unfold len in E0. destruct xs; [done|cbn in E0; lia].
Qed.

Lemma c_str_app x y : (∀ c, c ∈ x → c ≠ 0) → c_str (x ++ 0 :: y) = Ok x.
Proof.
  induction x as [|c x IH]; intros Hx; [done|]. cbn [c_str app].
  rewrite (proj2 (Z.eqb_neq _ _)) by (apply Hx; left). rewrite IH; [done|]. intros d Hd. apply Hx. by right.
Qed.

(** Characters of a string: bytes, none of them zero. *)
Definition string_ok (x : list Z) : Prop :=
  Forall (λ c, is_byte c ∧ c ≠ 0) x ∧ #x + 1 < 2 ^ 32.

Lemma unsigned_byte c : is_byte c → unsigned 8 (native 1 c) = c.
Proof.
  intros Hc. unfold unsigned. rewrite native_value_native. change (8 * Z.of_nat 1) with 8.
  by rewrite !(wrap_small _ c).
Qed.

Lemma read_bytes_consumes x n :
  bytes_ok x → n = #x → consumes (read_numbers (unsigned 8) OCTET_SIZE n) true (Some x) x.
Proof.
  intros Hx Hn. rewrite <- (be_array_1 x Hx) at 2. apply read_numbers_consumes; [done|done|].
  eapply Forall_impl; [exact Hx|]. apply unsigned_byte.
Qed.

Lemma read_string_consumes x : string_ok x → consumes read_string true x (enc_string x).
Proof.
  intros [Hx Hlen]. unfold enc_string. set (l := #x + 1).
  assert (consumes read_string_c true (Some (x ++ [0])) (be_bytes 4 l ++ x ++ [0])) as Hc.
  { unfold read_string_c.
    apply (consumes_bind read_uint (λ _ l s, let l := default uninit l in
      if l >? 0 then '(r, x, s) ← read_char_array l s;
        if (r : bool) then Ok (true, x, s) else Ok (false, None, s)
      else Ok (false, None, s)) true true (Some l)).
    { apply read_uint_consumes. unfold in_u. lia. }
    cbv beta zeta. change (default uninit (Some l)) with l. rewrite Z.gtb_ltb, (proj2 (Z.ltb_lt _ _)) by lia.
    intros s rest Hs Ha.
    destruct (read_bytes_consumes (x ++ [0]) l) with (s := s) (rest := rest) as (s' & Hr & ? & ?);
      [|rewrite length_app; cbn; lia|done|done|].
    - apply Forall_app. split; [|by repeat constructor; unfold is_byte; lia].
      eapply Forall_impl; [exact Hx|]. by intros c [Hc _].
    - exists s'. unfold read_char_array. by rewrite Hr. }
  intros s rest Hs Ha. destruct (Hc s rest Hs Ha) as (s' & Hr & ? & ?). exists s'. unfold read_string.
  rewrite Hr, bind_Ok. rewrite c_str_app; [done|]. intros c Hin. rewrite Forall_forall in Hx. by apply Hx.
Qed.

End consuming.

(** ** Growing *)

(** A block on a buffer from the heap, all of it in use. *)
Definition heap_block (b : Block) : Prop :=
  b_pad b = 0 ∧ b_size b = b_capacity b ∧ b_capacity b < 2 ^ 60.

(** Overwriting bytes keeps the shape of the block. *)
Lemma heap_with_data b d :
  heap_block b → length d = length (b_data b) →
  heap_block (with_data d b) ∧ b_capacity (with_data d b) = b_capacity b.
Proof. unfold heap_block, b_capacity. cbn. intros (? & ? & ?) ->. done. Qed.

Section growing.

Context `{Allocator, Host, Uninit}.

Lemma fresh_heap_block n : 0 ≤ n < 2 ^ 60 → heap_block (new_block n) ∧ b_capacity (new_block n) = n.
Proof.
  intros Hn. unfold heap_block, b_capacity, new_block. cbn. rewrite junk_length by lia. split_and!; done || lia.
Qed.

(** [cdr_grow] makes room and keeps the bytes from the base on. *)
Lemma cdr_grow_ok n b :
  heap_block b → 0 ≤ n < 2 ^ 59 →
  ∃ b', cdr_grow n b = Ok b' ∧ heap_block b' ∧ n + 8 ≤ b_capacity b' ∧
    take (length (b_data b)) (b_data b') = b_data b.
Proof.
  intros (Hpad & Hsize & Hcap) Hn. unfold cdr_grow, MAX_ALIGNMENT.
  destruct (first_size_ok (n + 8)) as (r & -> & Hr & _); [lia|]. rewrite bind_Ok, Hsize.
  destruct (r <=? b_capacity b) eqn:E; b2p.
  { exists b. split_and!; try done; [lia|by rewrite take_ge]. }
  unfold clone_no_copy. destruct (fresh_heap_block (b_capacity b)) as ((_ & _ & _) & Hnb); [unfold b_capacity in *; lia|].
  unfold b_resize. rewrite (proj2 (Z.leb_gt _ _)) by lia. cbn [b_size new_block b_data].
  rewrite load_all by (rewrite junk_length; [done|unfold b_capacity; lia]). rewrite bind_Ok.
  pose proof (junk_length r ltac:(lia)) as Hj.
  destruct (store_ok 0 (junk (b_capacity b)) (junk r)) as (d & -> & Hd & _);
    [lia|rewrite junk_length; unfold b_capacity in *; lia|]. rewrite bind_Ok.
  cbn [b_rd b_wr new_block]. rewrite bind_Ok. set (tmp := mb_align (mkBlock d r 0 0 0)).
  change (b_copy (b_data b) (b_capacity b) tmp) with
    (if u64 (#d - 0) <? b_capacity b then Ok (-1, tmp) else
     src ← load 0 (b_capacity b) (b_data b); d' ← store 0 src d; Ok (0, with_wr (0 + b_capacity b) (with_data d' tmp))).
  rewrite Z.sub_0_r, wrap_small by (unfold in_u; lia).
  rewrite (proj2 (Z.ltb_ge _ _)) by lia. rewrite load_all, bind_Ok by done.
  destruct (store_ok 0 (b_data b) d) as (d2 & Hd2 & Hl2 & _); [lia|unfold b_capacity in *; lia|].
  rewrite Hd2, !bind_Ok. eexists. split; [done|].
  apply store_take in Hd2. cbn in Hd2. unfold heap_block, b_capacity in *. cbn.
  split_and!; try done; lia.
Qed.

(** [InputStream::grow]. *)
Lemma is_grow_ok n s :
  heap_block (is_start s) → 0 ≤ n < 2 ^ 59 →
  ∃ s', is_grow n s = Ok s' ∧ heap_block (is_start s') ∧ b_rd (is_start s') = 0 ∧
    n + 8 ≤ b_capacity (is_start s') ∧
    take (length (b_data (is_start s))) (b_data (is_start s')) = b_data (is_start s) ∧
    is_swap s' = is_swap s ∧ is_good s' = is_good s ∧ b_wr (is_start s') = n.
Proof.
  intros Hb Hn. unfold is_grow. destruct (cdr_grow_ok n _ Hb Hn) as (b' & -> & Hb' & Hc' & Ht). rewrite bind_Ok.
  eexists. split; [done|]. destruct Hb' as (Hp & Hs & Hcap). unfold heap_block, mb_align, b_capacity in *. cbn.
  split_and!; done || lia.
Qed.

End growing.
