(* ===== verification/Marshalling.v ===== *)
(** * Marshalling: what is written is read back

    The two streams together: [encode] is the wire format (integers in network
    byte order, floating values in the order of the host, strings with their
    length and terminator, sequences with their count), every write appends
    exactly the encoding of its argument, every read consumes exactly the
    encoding of its result, and a stream read back after any sequence of
    writes, over any number of block boundaries, gives the values written. *)
From S2P Require Import Prelude Block OutputStream InputStream.

(** ** Values and their encoding *)

Inductive item :=
  | IOctet (x : Z) | IBoolean (x : Z) | IChar (x : Z) | IWChar (x : Z)
  | IShort (x : Z) | IUShort (x : Z) | IInt (x : Z) | IUInt (x : Z)
  | ILong (x : Z) | IULong (x : Z) | ILongLong (x : Z) | IULongLong (x : Z)
  | IFloat (x : Z) | IDouble (x : Z)
  | IString (x : list Z) | IStringSeq (v : list (list Z))
  | IByteSeq (v : list Z) | IBoolSeq (v : list Z) | IShortSeq (v : list Z) | IIntSeq (v : list Z)
  | ILongSeq (v : list Z) | IFloatSeq (v : list Z) | IDoubleSeq (v : list Z).

Definition seq_ok (P : Z → Prop) (v : list Z) : Prop := Forall P v ∧ len v < 2 ^ 32.

Definition is_bool (x : Z) : Prop := x = 0 ∨ x = 1.

(** The values of each type; a string has no zero character. *)
Definition item_ok (i : item) : Prop :=
  match i with
  | IOctet x => in_u 8 x | IBoolean x => is_bool x | IChar x => in_s 8 x | IWChar x => in_u 16 x
  | IShort x => in_s 16 x | IUShort x => in_u 16 x | IInt x => in_s 32 x | IUInt x => in_u 32 x
  | ILong x => in_s 64 x | IULong x => in_u 64 x | ILongLong x => in_s 64 x | IULongLong x => in_u 64 x
  | IFloat x => in_u 32 x | IDouble x => in_u 64 x
  | IString x => string_ok x
  | IStringSeq v => Forall string_ok v ∧ #v < 2 ^ 32
  | IByteSeq v => seq_ok is_byte v | IBoolSeq v => seq_ok is_bool v
  | IShortSeq v => seq_ok (in_s 16) v | IIntSeq v => seq_ok (in_s 32) v | ILongSeq v => seq_ok (in_s 64) v
  | IFloatSeq v => seq_ok (in_u 32) v | IDoubleSeq v => seq_ok (in_u 64) v
  end.

Definition encode `{Host} (i : item) : list Z :=
  match i with
  | IOctet x | IBoolean x | IChar x => be_bytes 1 x
  | IWChar x | IShort x | IUShort x => be_bytes 2 x
  | IInt x | IUInt x => be_bytes 4 x
  | ILong x | IULong x | ILongLong x | IULongLong x => be_bytes 8 x
  | IFloat x => native 4 x
  | IDouble x => native 8 x
  | IString x => enc_string x
  | IStringSeq v => be_bytes 4 (#v) ++ mjoin (enc_string <$> v)
  | IByteSeq v | IBoolSeq v => be_bytes 4 (len v) ++ v
  | IShortSeq v => be_bytes 4 (len v) ++ be_array 2 v
  | IIntSeq v | IFloatSeq v => be_bytes 4 (len v) ++ be_array 4 v
  | ILongSeq v | IDoubleSeq v => be_bytes 4 (len v) ++ be_array 8 v
  end.

(** ** Writing and reading a value *)

Definition write_item `{Allocator, Host} (i : item) : OutputStream → result (bool * OutputStream) :=
  match i with
  | IOctet x => write_octet x | IBoolean x => write_boolean x | IChar x => write_char x
  | IWChar x => write_wchar x | IShort x => write_short x | IUShort x => write_ushort x
  | IInt x => write_int x | IUInt x => write_uint x | ILong x => write_long x | IULong x => write_ulong x
  | ILongLong x => write_longlong x | IULongLong x => write_ulonglong x
  | IFloat x => write_float x | IDouble x => write_double x
  | IString x => write_string x | IStringSeq v => write_string_seq v
  | IByteSeq v => write_byte_seq v | IBoolSeq v => write_bool_seq v | IShortSeq v => write_short_seq v
  | IIntSeq v => write_int_seq v | ILongSeq v => write_long_seq v
  | IFloatSeq v => write_float_seq v | IDoubleSeq v => write_double_seq v
  end.

Inductive kind :=
  | KOctet | KBoolean | KChar | KWChar | KShort | KUShort | KInt | KUInt | KLong | KULong | KLongLong
  | KULongLong | KFloat | KDouble | KString | KStringSeq | KByteSeq | KBoolSeq | KShortSeq | KIntSeq
  | KLongSeq | KFloatSeq | KDoubleSeq.

Definition kind_of (i : item) : kind :=
  match i with
  | IOctet _ => KOctet | IBoolean _ => KBoolean | IChar _ => KChar | IWChar _ => KWChar
  | IShort _ => KShort | IUShort _ => KUShort | IInt _ => KInt | IUInt _ => KUInt | ILong _ => KLong
  | IULong _ => KULong | ILongLong _ => KLongLong | IULongLong _ => KULongLong | IFloat _ => KFloat
  | IDouble _ => KDouble | IString _ => KString | IStringSeq _ => KStringSeq | IByteSeq _ => KByteSeq
  | IBoolSeq _ => KBoolSeq | IShortSeq _ => KShortSeq | IIntSeq _ => KIntSeq | ILongSeq _ => KLongSeq
  | IFloatSeq _ => KFloatSeq | IDoubleSeq _ => KDoubleSeq
  end.

(** A scalar read into a variable that holds 0. *)
Definition scalar (c : Z → item) (rd : InputStream → result (bool * option Z * InputStream)) (s : InputStream)
  : result (bool * item * InputStream) := '(r, x, s) ← rd s; Ok (r, c (default 0 x), s).

Definition vector {V} (c : V → item) (rd : InputStream → result (bool * V * InputStream)) (s : InputStream)
  : result (bool * item * InputStream) := '(r, v, s) ← rd s; Ok (r, c v, s).

Definition read_item `{Host, Uninit} (k : kind) : InputStream → result (bool * item * InputStream) :=
  match k with
  | KOctet => scalar IOctet read_octet | KBoolean => scalar IBoolean read_boolean
  | KChar => scalar IChar read_char | KWChar => scalar IWChar read_wchar
  | KShort => scalar IShort read_short | KUShort => scalar IUShort read_ushort
  | KInt => scalar IInt read_int | KUInt => scalar IUInt read_uint
  | KLong => scalar ILong read_long | KULong => scalar IULong read_ulong
  | KLongLong => scalar ILongLong read_longlong | KULongLong => scalar IULongLong read_ulonglong
  | KFloat => scalar IFloat read_float | KDouble => scalar IDouble read_double
  | KString => vector IString read_string | KStringSeq => vector IStringSeq (read_string_seq [])
  | KByteSeq => vector IByteSeq (read_byte_seq []) | KBoolSeq => vector IBoolSeq (read_bool_seq [])
  | KShortSeq => vector IShortSeq (read_short_seq []) | KIntSeq => vector IIntSeq (read_int_seq [])
  | KLongSeq => vector ILongSeq (read_long_seq []) | KFloatSeq => vector IFloatSeq (read_float_seq [])
  | KDoubleSeq => vector IDoubleSeq (read_double_seq [])
  end.

Fixpoint write_items `{Allocator, Host} (l : list item) (s : OutputStream) : result OutputStream :=
  match l with
  | [] => Ok s
  | i :: l => '(_, s) ← write_item i s; write_items l s
  end.

Fixpoint read_items `{Host, Uninit} (l : list kind) (s : InputStream) : result (list item * InputStream) :=
  match l with
  | [] => Ok ([], s)
  | k :: l => '(_, i, s) ← read_item k s; '(is_, s) ← read_items l s; Ok (i :: is_, s)
  end.

(** The code a write or a read returns: the sequence functions return 0. *)
Definition ret_of (i : item) : bool :=
  match i with
  | IByteSeq _ | IBoolSeq _ | IShortSeq _ | IIntSeq _ | ILongSeq _ | IFloatSeq _ | IDoubleSeq _ => false
  | _ => true
  end.

(** [read_string_seq] returns 0 too. *)
Definition read_ret_of (i : item) : bool :=
  match i with IStringSeq _ => false | _ => ret_of i end.

(** ** Lemmas *)

Section marshalling.

Context `{Allocator, Host, Uninit}.

Lemma write_item_appends i : item_ok i → appends (write_item i) (ret_of i) (encode i).
Proof.
  assert (∀ v, 0 < len v → len v = #v) as Hlen by done.
  assert (∀ k v, len v = 0 → be_array k v = []) as Hnil.
  { intros k v Hv. unfold len in Hv. by destruct v. }
  destruct i; cbn [write_item ret_of encode item_ok]; intros Hok;
    try apply write_1_appends; try (by apply (write_n_appends 2 2)); try (by apply (write_n_appends 4 4));
    try (by apply (write_n_appends 8 8)).
  - unfold write_boolean. destruct Hok as [-> | ->]; apply write_1_appends.
  - by apply (write_raw_appends 4 4).
  - by apply (write_raw_appends 8 8).
  - apply write_string_appends, Hok.
  - destruct Hok as [Hv Hn]. unfold write_string_seq.
    eapply (appends_bind (write_uint (u32 (#v))) (λ _ s, write_string_seq_loop v true s)).
    + rewrite wrap_small by (unfold in_u; lia). apply write_uint_appends.
    + assert (Forall (λ x, #x + 1 < 2 ^ 32) v) as Hv'.
      { eapply Forall_impl; [exact Hv|]. by intros x [_ ?]. }
      pose proof (write_string_seq_loop_appends v true Hv') as Hl. by destruct (decide (v = [])).
  - destruct Hok as [_ Hn]. apply write_seq_appends; [done| |]; intros Hv; [by apply write_bytes_appends|].
    unfold len in Hv. by destruct v.
  - destruct Hok as [Hb Hn]. apply write_seq_appends; [done| |]; intros Hv.
    + assert ((λ x, if x =? 0 then 0 else 1) <$> v = v) as Hid.
      { clear -Hb. induction Hb as [|x v [-> | ->] _ IH]; [done|by cbn; rewrite IH..]. }
      rewrite <- Hid at 3. by apply write_boolean_array_appends.
    + unfold len in Hv. by destruct v.
  - destruct Hok as [_ Hn]. apply write_seq_appends; [done| |by apply Hnil].
    intros _. by apply (write_numbers_appends SHORT_SIZE 2).
  - destruct Hok as [_ Hn]. apply write_seq_appends; [done| |by apply Hnil].
    intros _. by apply (write_numbers_appends INT_SIZE 4).
  - destruct Hok as [_ Hn]. apply write_seq_appends; [done| |by apply Hnil].
    intros _. by apply (write_numbers_appends LONG_SIZE 8).
  - destruct Hok as [_ Hn]. apply write_seq_appends; [done| |by apply Hnil].
    intros _. by apply (write_numbers_appends INT_SIZE 4).
  - destruct Hok as [_ Hn]. apply write_seq_appends; [done| |by apply Hnil].
    intros _. by apply (write_numbers_appends LONGLONG_SIZE 8).
Qed.

Lemma scalar_consumes c rd x bytes :
  consumes rd true (Some x) bytes → consumes (scalar c rd) true (c x) bytes.
Proof.
  intros Hrd s rest Hs Ha. destruct (Hrd s rest Hs Ha) as (s' & Hr & ? & ?).
  exists s'. unfold scalar. by rewrite Hr.
Qed.

Lemma vector_consumes {V} (c : V → item) rd r x bytes :
  consumes rd r x bytes → consumes (vector c rd) r (c x) bytes.
Proof.
  intros Hrd s rest Hs Ha. destruct (Hrd s rest Hs Ha) as (s' & Hr & ? & ?).
  exists s'. unfold vector. by rewrite Hr.
Qed.

Lemma read_octet_consumes x : in_u 8 x → consumes read_octet true (Some x) (be_bytes 1 x).
Proof.
  intros Hx. assert (be_bytes 1 x = [x]) as Hb.
  { unfold be_bytes. cbn. rewrite Z.mod_small by (unfold in_u in Hx; lia). done. }
  rewrite Hb. assert (unsigned 8 [x] = x) as Hu.
  { unfold unsigned. by rewrite native_value_1, wrap_small. }
  rewrite <- Hu at 1. apply read_value_consumes, read_1_consumes.
Qed.

Lemma read_char_consumes x : in_s 8 x → consumes read_char true (Some x) (be_bytes 1 x).
Proof.
  intros Hx. assert (be_bytes 1 x = [u8 x]) as -> by reflexivity.
  assert (signed 8 [u8 x] = x) as Hu.
  { unfold signed. by rewrite native_value_1, swrap_wrap, swrap_small by (done || lia). }
  rewrite <- Hu at 1. apply read_value_consumes, read_1_consumes.
Qed.

Lemma read_boolean_consumes x : is_bool x → consumes read_boolean true (Some x) (be_bytes 1 x).
Proof.
  intros Hx s rest Hs Ha.
  destruct (read_octet_consumes x) with (s := s) (rest := rest) as (s' & Hr & Hs' & ?); [|done|done|].
  { destruct Hx as [-> | ->]; unfold in_u; lia. }
  exists s'. unfold read_boolean. rewrite Hr, bind_Ok. pose proof Hs' as (_ & _ & ->). split; [|done].
  by destruct Hx as [-> | ->].
Qed.

Lemma read_boolean_loop_ok xs : Forall is_bool xs → ∀ s rest, is_ok_in s → avail s = xs ++ rest →
  ∃ s', read_boolean_loop (length xs) s = Ok (xs, s') ∧ is_ok_in s' ∧ avail s' = rest.
Proof.
  induction 1 as [|x xs Hx _ IH]; intros s rest Hs Ha; [by exists s|].
  cbn [length read_boolean_loop]. destruct Hs as (? & ? & Hg). rewrite Hg.
  destruct (read_boolean_consumes x Hx s (xs ++ rest)) as (s1 & -> & Hs1 & Ha1); [done| |].
  { rewrite Ha. by destruct Hx as [-> | ->]. }
  rewrite bind_Ok. destruct (IH s1 rest Hs1 Ha1) as (s2 & -> & ? & ?). rewrite bind_Ok. by exists s2.
Qed.

Lemma read_string_seq_loop_ok v : Forall string_ok v → ∀ s rest, is_ok_in s →
  avail s = mjoin (enc_string <$> v) ++ rest →
  ∃ s', read_string_seq_loop (length v) s = Ok (v, s') ∧ is_ok_in s' ∧ avail s' = rest.
Proof.
  induction 1 as [|x v Hx _ IH]; intros s rest Hs Ha; [by exists s|].
  cbn [length read_string_seq_loop]. rewrite fmap_cons, mjoin_cons, <- app_assoc in Ha.
  destruct (read_string_consumes x Hx s _ Hs Ha) as (s1 & -> & Hs1 & Ha1). rewrite bind_Ok.
  destruct (IH s1 rest Hs1 Ha1) as (s2 & -> & ? & ?). rewrite bind_Ok. by exists s2.
Qed.

Lemma signed_native k x :
  (0 < k)%nat → in_s (8 * Z.of_nat k) x → signed (8 * Z.of_nat k) (native k x) = x.
Proof.
  intros Hk Hx. unfold signed. rewrite native_value_native, swrap_wrap, swrap_small by (done || lia). done.
Qed.

Lemma unsigned_native k x : in_u (8 * Z.of_nat k) x → unsigned (8 * Z.of_nat k) (native k x) = x.
Proof. intros Hx. unfold unsigned. rewrite native_value_native. by rewrite !(wrap_small _ x). Qed.

Lemma read_item_consumes i : item_ok i → consumes (read_item (kind_of i)) (read_ret_of i) i (encode i).
Proof.
  assert (∀ (v : list Z) k, len v = 0 → be_array k v = [] ∧ ([] : list Z) = []) as Hnil.
  { intros v k Hv. unfold len in Hv. by destruct v. }
  destruct i; cbn [kind_of read_item read_ret_of ret_of encode item_ok]; intros Hok;
    try apply vector_consumes; try apply scalar_consumes;
    try (by apply (read_unsigned_consumes 2 2 16)); try (by apply (read_signed_consumes 2 2 16); [..|lia|]);
    try (by apply (read_unsigned_consumes 4 4 32)); try (by apply (read_signed_consumes 4 4 32); [..|lia|]);
    try (by apply (read_unsigned_consumes 8 8 64)); try (by apply (read_signed_consumes 8 8 64); [..|lia|]).
  - by apply read_octet_consumes.
  - by apply read_boolean_consumes.
  - by apply read_char_consumes.
  - by apply (read_raw_consumes 4 4 32).
  - by apply (read_raw_consumes 8 8 64).
  - by apply read_string_consumes.
  - destruct Hok as [Hv Hn]. unfold read_string_seq.
    apply (consumes_bind read_uint (λ _ sz s, let sz := default 0 sz in
      if sz >? 0 then '(xs, s) ← read_string_seq_loop (Z.to_nat sz) s; Ok (false, xs, s)
      else Ok (false, [], s)) true false (Some (#v))).
    { apply read_uint_consumes. unfold in_u. lia. }
    cbv beta zeta. change (default 0 (Some ?x)) with x. rewrite Z.gtb_ltb, Nat2Z.id. intros s rest Hs Ha.
    destruct (read_string_seq_loop_ok v Hv s rest Hs Ha) as (s' & Hr & ? & ?). exists s'. cbn [default from_option id].
    destruct (0 <? _) eqn:E; b2p; [by rewrite Hr|]. destruct v; [|cbn in E; lia]. cbn in Hr. inv_ok. done.
  - destruct Hok as [Hv Hn]. apply read_seq_consumes; [done| |]; intros Hl; [by apply read_bytes_consumes|].
    unfold len in Hl. by destruct v.
  - destruct Hok as [Hv Hn]. unfold read_bool_seq.
    apply (consumes_bind read_uint (λ _ sz s, let sz := default uninit sz in
      if sz >? 0 then '(_, xs, s) ← read_boolean_array sz s; Ok (false, [] ++ xs, s)
      else Ok (false, [], s)) true false (Some (len v))).
    { apply read_uint_consumes. unfold in_u, len in *. lia. }
    cbv beta zeta. rewrite Z.gtb_ltb. intros s rest Hs Ha.
    destruct (read_boolean_loop_ok v Hv s rest Hs Ha) as (s' & Hr & ? & ?). exists s'.
    change (default uninit (Some (len v))) with (len v). unfold read_boolean_array, len. rewrite Nat2Z.id, Hr.
    destruct (0 <? _) eqn:E; b2p; [done|]. destruct v; [|cbn in E; lia]. cbn in Hr. inv_ok. done.
  - destruct Hok as [Hv Hn]. apply read_seq_consumes; [done| |by apply Hnil]. intros _.
    apply (read_numbers_consumes (signed 16) 2); [done|done|].
    eapply Forall_impl; [exact Hv|]. intros x Hx. by apply (signed_native 2); [lia|].
  - destruct Hok as [Hv Hn]. apply read_seq_consumes; [done| |by apply Hnil]. intros _.
    apply (read_numbers_consumes (signed 32) 4); [done|done|].
    eapply Forall_impl; [exact Hv|]. intros x Hx. by apply (signed_native 4); [lia|].
  - destruct Hok as [Hv Hn]. apply read_seq_consumes; [done| |by apply Hnil]. intros _.
    apply (read_numbers_consumes (signed 64) 8); [done|done|].
    eapply Forall_impl; [exact Hv|]. intros x Hx. by apply (signed_native 8); [lia|].
  - destruct Hok as [Hv Hn]. apply read_seq_consumes; [done| |by apply Hnil]. intros _.
    apply (read_numbers_consumes (unsigned 32) 4); [done|done|].
    eapply Forall_impl; [exact Hv|]. intros x Hx. by apply (unsigned_native 4).
  - destruct Hok as [Hv Hn]. apply read_seq_consumes; [done| |by apply Hnil]. intros _.
    apply (read_numbers_consumes (unsigned 64) 8); [done|done|].
    eapply Forall_impl; [exact Hv|]. intros x Hx. by apply (unsigned_native 8).
Qed.

(** *** Sequences of values *)

Lemma write_items_append l s :
  Forall item_ok l → os_ok s → os_swap s = little_endian →
  os_len s + #(mjoin (encode <$> l)) ≤ os_limit →
  ∃ s', write_items l s = Ok s' ∧ os_ok s' ∧ os_content s' = os_content s ++ mjoin (encode <$> l) ∧
    os_swap s' = os_swap s ∧ keeps s s'.
Proof.
  intros Hl. revert s. induction Hl as [|i l Hi _ IH]; intros s Hs Hsw Hlim; cbn [write_items].
  - exists s. rewrite fmap_nil, mjoin_nil, app_nil_r. done.
  - rewrite fmap_cons, mjoin_cons, length_app in Hlim.
    destruct (write_item_appends i Hi s Hs Hsw) as (s1 & -> & Hs1 & Hw1 & Hc1 & Hk1); [lia|]. rewrite bind_Ok.
    destruct (IH s1 Hs1) as (s2 & -> & Hs2 & Hc2 & Hw2 & Hk2); [congruence|rewrite (os_len_app _ _ _ Hc1); lia|].
    exists s2. split_and!; try done; [|congruence|by etrans]. by rewrite Hc2, Hc1, fmap_cons, mjoin_cons, app_assoc.
Qed.

Lemma read_items_ok l s rest :
  Forall item_ok l → is_ok_in s → avail s = mjoin (encode <$> l) ++ rest →
  ∃ s', read_items (kind_of <$> l) s = Ok (l, s') ∧ is_ok_in s' ∧ avail s' = rest.
Proof.
  intros Hl. revert s. induction Hl as [|i l Hi _ IH]; intros s Hs Ha; [by exists s|].
  rewrite fmap_cons. cbn [read_items]. rewrite fmap_cons, mjoin_cons, <- app_assoc in Ha.
  destruct (read_item_consumes i Hi s _ Hs Ha) as (s1 & -> & Hs1 & Ha1). rewrite bind_Ok.
  destruct (IH s1 Hs1 Ha1) as (s2 & -> & ? & ?). rewrite bind_Ok. by exists s2.
Qed.

Lemma new_stream_ok size :
  0 ≤ size < 2 ^ 61 →
  os_ok (OutputStream_new size) ∧ os_content (OutputStream_new size) = [] ∧
  os_swap (OutputStream_new size) = little_endian.
Proof.
  intros Hs. unfold OutputStream_new. set (n := if size =? 0 then _ else size).
  assert (0 < n < 2 ^ 62) as Hn.
  { subst n. unfold DEFAULT_BUFSIZE, MAX_ALIGNMENT. destruct (size =? 0) eqn:E; b2p; lia. }
  destruct (new_block_ok n) as (Hb & Hc & Hcap); [lia|].
  split_and!; [|rewrite os_content_app; cbn [os_done os_cur on_block fmap list_fmap]; exact Hc|done].
  split; try done; first [symmetry; exact Hcap | by apply Forall_singleton].
Qed.

(** *** From an output stream to an input stream *)

Lemma load_content i : block_ok i →
  load 0 (b_length i) (drop (Z.to_nat (b_rd i)) (b_data i)) = Ok (b_content i).
Proof.
  intros Hi. rewrite block_length by done. pose proof (content_length i Hi) as Hl.
  destruct Hi as [Hr Hw _ _]. unfold b_capacity in *.
  rewrite load_slice; [|lia|lia|rewrite length_drop; lia].
  unfold slice, b_content, slice in *. do 2 f_equal. rewrite Hl. f_equal. lia.
Qed.

Lemma b_copy_prefix b buf bs n :
  load 0 n buf = Ok bs → block_ok b → n = #bs → b_copy buf n b = b_copy bs n b.
Proof. intros Hld Hb Hn. unfold b_copy. by rewrite Hld, load_all. Qed.

Lemma copy_chain_ok chain dst :
  Forall block_ok chain → block_ok dst →
  b_wr dst + #(mjoin (b_content <$> chain)) ≤ b_capacity dst →
  ∃ dst', copy_chain chain dst = Ok dst' ∧ block_ok dst' ∧ b_capacity dst' = b_capacity dst ∧
    b_rd dst' = b_rd dst ∧ b_content dst' = b_content dst ++ mjoin (b_content <$> chain).
Proof.
  intros Hc. revert dst. induction Hc as [|i chain Hi _ IH]; intros dst Hd Hfit; cbn [copy_chain].
  - exists dst. rewrite fmap_nil, mjoin_nil, app_nil_r. done.
  - rewrite fmap_cons, mjoin_cons, length_app in Hfit. pose proof (block_length i Hi) as Hlen.
    rewrite (b_copy_prefix _ _ (b_content i)) by (done || by apply load_content).
    destruct (b_copy_ok dst (b_content i) (b_length i)) as (d1 & -> & Hd1 & Hc1 & Hcap1 & _ & Hrd1); [done|done|lia|].
    rewrite bind_Ok. destruct (IH d1 Hd1) as (d2 & -> & Hd2 & Hcap2 & Hrd2 & Hc2).
    { pose proof (content_length _ Hd1) as H1'. pose proof (content_length _ Hd) as H2'.
      rewrite Hc1, length_app in H1'. lia. }
    exists d2. split_and!; try done; [congruence..|]. by rewrite Hc2, Hc1, fmap_cons, mjoin_cons, app_assoc.
Qed.

Lemma total_length_ok chain :
  Forall block_ok chain → #(mjoin (b_content <$> chain)) < 2 ^ 62 →
  total_length chain = #(mjoin (b_content <$> chain)).
Proof.
  intros Hc. unfold total_length.
  assert (∀ n, 0 ≤ n → n + #(mjoin (b_content <$> chain)) < 2 ^ 62 →
    foldl (λ l b, u64 (l + b_length b)) n chain = n + #(mjoin (b_content <$> chain))) as Hgen.
  { induction Hc as [|i chain Hi _ IH]; intros n Hn Hlt; cbn [foldl]; [rewrite fmap_nil, mjoin_nil; cbn; lia|].
    rewrite fmap_cons, mjoin_cons, length_app in *. rewrite block_length by done.
    rewrite wrap_small by (unfold in_u; lia). rewrite IH; lia. }
  intros Hlt. rewrite Hgen; lia.
Qed.

Lemma input_of_output_ok os :
  os_ok os → os_len os ≤ os_limit →
  ∃ s rest, InputStream_of_output os = Ok s ∧ is_ok_in s ∧ avail s = os_content os ++ rest.
Proof.
  intros Hs Hlim. unfold os_len, os_limit, os_content in *. unfold InputStream_of_output, os_total_length.
  rewrite total_length_ok by (apply Hs || lia). set (n := Z.of_nat _ + MAX_ALIGNMENT).
  assert (0 ≤ n < 2 ^ 62) as Hn by (unfold n, MAX_ALIGNMENT; lia).
  destruct (new_block_ok n Hn) as (Hb & Hc & Hcap).
  destruct (copy_chain_ok (os_chain os) (mb_align (new_block n))) as (d & -> & Hd & Hdc & Hdr & Hcont);
    [apply Hs|exact Hb|change (b_capacity (mb_align (new_block n))) with (b_capacity (new_block n)); rewrite Hcap; cbn; unfold n, MAX_ALIGNMENT; lia|].
  rewrite bind_Ok. exists (on_input d), (slice (b_wr d) (b_capacity d) (b_data d)). split; [done|].
  pose proof Hd as [? ? ? ?]. split; [split; [split; cbn; lia|done]|].
  unfold avail. cbn [on_input is_start]. rewrite (slice_app _ (b_wr d)) by lia. f_equal.
  change (slice (b_rd d) (b_wr d) (b_data d)) with (b_content d). rewrite Hcont.
  change (b_content (mb_align (new_block n))) with (b_content (new_block n)). by rewrite Hc.
Qed.

End marshalling.

(** ** Properties *)

(** A little-endian host with zeroed memory, for the witnesses. *)
Definition host_le : Host := {| little_endian := true |}.
Definition host_be : Host := {| little_endian := false |}.
Definition uninit_7 : Uninit := {| uninit := 7 |}.

(** C1: marshalling round trip.  On any host, whatever the size of the first
    buffer, whatever fresh memory and uninitialised locals hold: a sequence of
    values of at most 65000 bytes is written without abort or error, an input
    stream made from the output stream reads the same values back, in order,
    and its good bit stays set.  The values may lie across any number of
    blocks of the chain. *)
Theorem stream_round_trip `{Allocator, Host, Uninit} l size :
  Forall item_ok l → 0 ≤ size < 2 ^ 61 →
  #(mjoin (encode <$> l)) ≤ os_limit →
  ∃ os s s', write_items l (OutputStream_new size) = Ok os ∧
    InputStream_of_output os = Ok s ∧ read_items (kind_of <$> l) s = Ok (l, s') ∧ is_good s' = true.
Proof.
  intros Hl Hsize Hlim. destruct (new_stream_ok size Hsize) as (Hs0 & Hc0 & Hw0).
  assert (os_len (OutputStream_new size) = 0) as Hz by (unfold os_len; by rewrite Hc0).
  destruct (write_items_append l _ Hl Hs0 Hw0) as (os & Hw & Hs & Hc & _); [by rewrite Hz|].
  rewrite Hc0 in Hc. cbn [app] in Hc.
  destruct (input_of_output_ok os Hs) as (s & rest & Hin & Hs1 & Ha); [unfold os_len; by rewrite Hc|].
  rewrite Hc in Ha. destruct (read_items_ok l s rest Hl Hs1 Ha) as (s' & Hr & (_ & _ & Hg) & _).
  by exists os, s, s'.
Qed.

Definition sample_items : list item :=
  [IInt (-2); IString [104; 105]; IShortSeq [1; -1; 300]; IDouble 4607182418800017408; IBoolSeq [1; 0]; IStringSeq [[97]; []]].

Lemma sample_items_ok : Forall item_ok sample_items.
Proof.
  unfold sample_items. repeat (apply Forall_cons; split); [..|constructor];
    cbn [item_ok]; unfold string_ok, seq_ok, in_s, in_u, is_byte, is_bool, len; cbn;
    repeat (split || apply Forall_cons || apply Forall_nil); lia.
Qed.

Example stream_round_trip_witness :
  ∃ os s s', write_items (H := zero_memory) (H0 := host_le) sample_items (@OutputStream_new zero_memory host_le 16) = Ok os ∧
    @InputStream_of_output zero_memory host_le os = Ok s ∧
    @read_items host_le uninit_7 (kind_of <$> sample_items) s = Ok (sample_items, s').
Proof.
  destruct (@stream_round_trip zero_memory host_le uninit_7 sample_items 16 sample_items_ok)
    as (os & s & s' & H1 & H2 & H3 & _).
  - lia.
  - vm_compute. discriminate.
  - exists os, s, s'. exact (conj H1 (conj H2 H3)).
Defined.

Definition floating (i : item) : bool := match i with IFloat _ | IDouble _ => true | _ => false end.

(** what a write puts on the wire is [encode] of its argument, whatever the
    host, and except for single floating values it is the same on every host. *)
Lemma wire_format `{Allocator, Host} i s :
  item_ok i → os_ok s → os_swap s = little_endian →
  os_len s + #(encode i) ≤ os_limit →
  (∃ s', write_item i s = Ok (ret_of i, s') ∧ os_ok s' ∧ os_content s' = os_content s ++ encode i) ∧
  (floating i = false → ∀ h : Host, @encode h i = encode i).
Proof.
  intros Hi Hs Hsw Hlim. split.
  - destruct (write_item_appends i Hi s Hs Hsw Hlim) as (s' & ? & ? & _ & ? & _). by exists s'.
  - intros Hf h. by destruct i.
Qed.

Example wire_format_witness :
  ∃ s', @write_item zero_memory host_be (IUInt 258) (@OutputStream_new zero_memory host_be 0) = Ok (true, s') ∧
    os_content s' = [0; 0; 1; 2].
Proof.
  destruct (@new_stream_ok zero_memory host_be 0) as (Hs & Hc & Hw); [lia|].
  destruct (@wire_format zero_memory host_be (IUInt 258) _ ltac:(cbn; unfold in_u; lia) Hs Hw) as ((s' & H1 & _ & H2) & _).
  - unfold os_len. rewrite Hc. vm_compute. discriminate.
  - exists s'. rewrite Hc in H2. exact (conj H1 H2).
Defined.

(** Single [float]s and [double]s are not portable: they are sent in the
    sender's byte order, so a big-endian and a little-endian host disagree on
    the bytes of 1.0 — while in a [float] sequence the same value is sent in
    network order. *)
Theorem float_not_portable :
  @encode host_le (IFloat 1065353216) ≠ @encode host_be (IFloat 1065353216) ∧
  @encode host_le (IFloatSeq [1065353216]) = @encode host_be (IFloatSeq [1065353216]) ∧
  @encode host_be (IFloat 1065353216) = [63; 128; 0; 0] ∧
  @encode host_le (IFloat 1065353216) = [0; 0; 128; 63].
Proof. vm_compute. split_and!; congruence. Qed.

(** ** Reads of damaged input *)

(** a fixed-size read of [n] bytes with fewer than [n] left returns 0, clears
    the good bit, assigns nothing and does not move. *)
Lemma short_read_fails `{Host} n s :
  rd_ok s → 0 ≤ n → #(avail s) < n →
  read_n n n s = Ok (false, None, is_with_good false s).
Proof.
  intros Hr Hn Hlt. rewrite avail_length in Hlt by done. unfold read_n, is_adjust.
  by rewrite (proj2 (Z.leb_gt _ _)) by lia.
Qed.

Definition input_le (bs : list Z) : InputStream := @InputStream_buf host_le bs 0.

Example short_read_fails_witness :
  @read_uint host_le (input_le [1; 2; 3]) = Ok (false, None, is_with_good false (input_le [1; 2; 3])).
Proof.
  unfold read_uint, read_value, read_4. change INT_SIZE with 4.
  rewrite (@short_read_fails host_le 4 (input_le [1; 2; 3])); [reflexivity|split; vm_compute; discriminate|lia|vm_compute; reflexivity].
Defined.

Lemma read_elems_total s n size buf :
  0 ≤ size → 0 ≤ buf → buf + size * Z.of_nat n ≤ b_capacity (is_start s) →
  ∃ x, read_elems n size buf s = Ok x.
Proof.
  intros Hs. revert buf. induction n as [|n IH]; intros buf Hb Hf; cbn [read_elems]; [by eexists|].
  unfold b_capacity in *. rewrite load_slice, bind_Ok by lia.
  destruct (IH (buf + size)) as [x ->]; [lia|lia|]. by eexists.
Qed.

(** A read of an array never touches memory outside the buffer; it fails when
    the buffer is too short, or when an earlier read failed. *)
Lemma read_array_total s size n :
  rd_ok s → 0 ≤ size → 0 ≤ n →
  ∃ x s', read_array size n s = Ok (bool_decide (size * n ≤ #(avail s)) && is_good s, x, s') ∧
    (is_good s = false → is_good s' = false).
Proof.
  intros Hr Hs Hn. rewrite avail_length by done. unfold read_array, is_adjust.
  destruct (_ <=? _) eqn:E; b2p; cbn [Z.eqb].
  - destruct Hr. destruct (read_elems_total (with_start (with_rd (b_rd (is_start s) + size * n) (is_start s)) s)
      (Z.to_nat n) size (b_rd (is_start s))) as [x ->]; [done|done|cbn; rewrite Z2Nat.id by lia; exact E|].
    rewrite bind_Ok. rewrite bool_decide_true by lia. do 2 eexists. split; [done|]. done.
  - rewrite bool_decide_false by lia. by do 2 eexists.
Qed.

(** [read_string] on a message too short for the length field returns 0, an
    empty string and a cleared good bit, whatever value its uninitialised
    [len] has: no byte outside the buffer is read. *)
Theorem read_string_truncated `{Host, Uninit} s :
  rd_ok s → #(avail s) < 4 → 0 ≤ uninit →
  ∃ s', read_string s = Ok (false, [], s') ∧ is_good s' = false.
Proof.
  intros Hr Hlt Hu. unfold read_string, read_string_c, read_uint, read_value, read_4. change INT_SIZE with 4.
  assert (read_n 4 4 s = Ok (false, None, is_with_good false s)) as ->.
  { rewrite avail_length in Hlt by done. unfold read_n, is_adjust. by rewrite (proj2 (Z.leb_gt _ _)) by lia. }
  rewrite !bind_Ok. change (default uninit (option_map _ None)) with uninit.
  destruct (uninit >? 0); [|by eexists]. unfold read_char_array, read_numbers.
  destruct (read_array_total (is_with_good false s) OCTET_SIZE uninit) as (x & s' & -> & Hg); [done|done|done|].
  cbn [is_good is_with_good]. rewrite andb_false_r, !bind_Ok. exists s'. split; [done|]. by apply Hg.
Qed.

Example read_string_truncated_witness :
  ∃ s', @read_string host_le uninit_7 (input_le [0; 0; 1]) = Ok (false, [], s') ∧ is_good s' = false.
Proof.
  apply (@read_string_truncated host_le uninit_7); [split; vm_compute; discriminate|vm_compute; reflexivity|].
  vm_compute. discriminate.
Defined.

Lemma c_str_unterminated x : (∀ c, c ∈ x → c ≠ 0) → c_str x = Fault OutOfBounds.
Proof.
  induction x as [|c x IH]; intros Hx; [done|]. cbn [c_str].
  rewrite (proj2 (Z.eqb_neq _ _)) by (apply Hx; left). rewrite IH; [done|]. intros d Hd. apply Hx. by right.
Qed.

(** [read_string] into a [std::string] trusts the sender to end the string
    with a zero: for a message whose characters contain none, the assignment
    from the character array reads past its end. *)
Lemma read_string_unterminated `{Host, Uninit} s x rest :
  is_ok_in s → x ≠ [] → Forall (λ c, is_byte c ∧ c ≠ 0) x → len x < 2 ^ 32 →
  avail s = be_bytes 4 (len x) ++ x ++ rest →
  read_string s = Fault OutOfBounds.
Proof.
  intros Hs Hne Hx Hlen Ha. unfold read_string, read_string_c.
  destruct (read_uint_consumes (len x)) with (s := s) (rest := x ++ rest) as (s1 & -> & Hs1 & Ha1);
    [unfold in_u, len in *; lia|done|done|]. rewrite bind_Ok.
  change (default uninit (Some (len x))) with (len x).
  rewrite Z.gtb_ltb, (proj2 (Z.ltb_lt _ _)) by (unfold len; destruct x; [done|cbn; lia]).
  destruct (read_bytes_consumes x (len x)) with (s := s1) (rest := rest) as (s2 & Hr & _); [|done|done|done|].
  { eapply Forall_impl; [exact Hx|]. by intros c [? _]. }
  unfold read_char_array. rewrite Hr, !bind_Ok. rewrite c_str_unterminated; [done|].
  intros c Hc. rewrite Forall_forall in Hx. by apply Hx.
Qed.

Example read_string_unterminated_witness :
  @read_string host_le uninit_7 (input_le [0; 0; 0; 2; 104; 105]) = Fault OutOfBounds.
Proof.
  apply (@read_string_unterminated host_le uninit_7 (input_le [0; 0; 0; 2; 104; 105]) [104; 105] []);
    [|discriminate| |vm_compute; reflexivity|reflexivity].
  - split; [|split; reflexivity]. split; vm_compute; discriminate.
  - repeat constructor; unfold is_byte; lia.
Defined.

(** [read_byte_seq] uses its uninitialised [sz] when the count cannot be
    read: the vector gets as many elements as the garbage says. *)
Theorem read_byte_seq_uninitialised `{Host, Uninit} s :
  rd_ok s → #(avail s) < 4 → #(avail s) < uninit →
  ∃ s', read_byte_seq [] s = Ok (false, replicate (Z.to_nat uninit) 0, s').
Proof.
  intros Hr Hlt Hu. unfold read_byte_seq, read_seq, read_uint, read_value, read_4. change INT_SIZE with 4.
  assert (read_n 4 4 s = Ok (false, None, is_with_good false s)) as ->.
  { rewrite avail_length in Hlt by done. unfold read_n, is_adjust. by rewrite (proj2 (Z.leb_gt _ _)) by lia. }
  rewrite !bind_Ok. change (default uninit (option_map _ None)) with uninit.
  rewrite Z.gtb_ltb, (proj2 (Z.ltb_lt _ _)) by lia.
  unfold read_octet_array, read_numbers, read_array, is_adjust. rewrite avail_length in Hu by done.
  change OCTET_SIZE with 1. rewrite (proj2 (Z.leb_gt _ _)) by (cbn; lia). cbn [Z.eqb].
  rewrite !bind_Ok. eexists. do 3 f_equal. cbn [option_map default from_option]. unfold resize.
  cbn [app length]. rewrite Nat.sub_0_r. apply take_ge. by rewrite length_replicate.
Qed.

Example read_byte_seq_uninitialised_witness :
  ∃ s', @read_byte_seq host_le uninit_7 [] (input_le []) = Ok (false, [0; 0; 0; 0; 0; 0; 0], s').
Proof.
  destruct (@read_byte_seq_uninitialised host_le uninit_7 (input_le [])) as [s' Hs'];
    [split; vm_compute; discriminate|vm_compute; reflexivity|vm_compute; reflexivity|].
  exists s'. exact Hs'.
Defined.

(** [read_longdouble] reserves 8 bytes and copies 16.  It returns the value
    written but leaves half of it unread, so the next read starts in the
    middle of the value; when fewer than 16 bytes are left (but at least 8)
    it reads past the end of the buffer. *)
Theorem read_longdouble_wrong_size `{Host} s x rest :
  is_ok_in s → in_u 128 x → avail s = native 16 x ++ rest →
  (∃ s', read_longdouble s = Ok (true, Some x, s') ∧ avail s' = drop 8 (native 16 x) ++ rest) ∧
  (∀ s1, rd_ok s1 → 8 ≤ #(avail s1) < 16 → read_longdouble s1 = Fault OutOfBounds).
Proof.
  intros (Hr & Hsw & Hg) Hx Ha. split.
  - pose proof (length_native 16 x) as Hl16.
    destruct (avail_split s 16 (native 16 x) rest Hr Ha) as (Hf & _ & _ & Hld); [by rewrite Hl16|].
    destruct (avail_split s 8 (take 8 (native 16 x)) (drop 8 (native 16 x) ++ rest) Hr) as (Hf8 & Hr8 & Ha8 & _).
    { by rewrite app_assoc, take_drop. }
    { rewrite length_take, Hl16. done. }
    unfold read_longdouble, read_raw, read_value, read_16, read_n, is_adjust. change LONGLONG_SIZE with 8.
    cbn [is_start is_with_swap]. rewrite (proj2 (Z.leb_le _ _)) by lia. cbn [Z.eqb].
    cbn [is_start with_start is_with_swap b_data with_rd]. rewrite Hld, !bind_Ok.
    eexists. split; [|exact Ha8]. cbn [unwire is_swap with_start is_with_swap option_map]. unfold unsigned.
    rewrite native_value_native. change (8 * Z.of_nat 16) with 128. by rewrite !(wrap_small _ x).
  - intros s1 Hr1 Hlt. rewrite avail_length in Hlt by done. destruct Hr1.
    unfold read_longdouble, read_raw, read_value, read_16, read_n, is_adjust. change LONGLONG_SIZE with 8.
    cbn [is_start is_with_swap]. rewrite (proj2 (Z.leb_le _ _)) by lia. cbn [Z.eqb].
    cbn [is_start with_start is_with_swap b_data with_rd]. unfold load, b_capacity in *.
    rewrite (proj2 (Z.leb_gt (b_rd (is_start s1) + 16) _)) by lia. by rewrite andb_false_r.
Qed.

Example read_longdouble_wrong_size_witness :
  ∃ s', @read_longdouble host_le (input_le (@native host_le 16 5)) = Ok (true, Some 5, s') ∧
    avail s' = [0; 0; 0; 0; 0; 0; 0; 0].
Proof.
  destruct (@read_longdouble_wrong_size host_le (input_le (@native host_le 16 5)) 5 []) as [(s' & H1 & H2) _].
  - split; [|split; reflexivity]. split; vm_compute; discriminate.
  - unfold in_u. lia.
  - reflexivity.
  - exists s'. exact (conj H1 H2).
Defined.

(** ** Limits of the output stream *)

(** a value of 65528 bytes or more that does not fit in the current block
    makes [grow_and_adjust] ask for a block over its limit: the assertion
    [newsize <= 100000] fails, so one large array, string or sequence aborts
    the program. *)
Lemma large_write_aborts `{Allocator, Host} s x size n :
  os_ok s → 65528 ≤ size * n → b_capacity (os_cur s) < b_wr (os_cur s) + size * n →
  write_array x size n s = Fault AssertFailed.
Proof.
  intros Hs Hn Hfit. unfold write_array, adjust_fuel. rewrite (ok_rest _ Hs). cbn [length adjust].
  rewrite (ok_writable _ Hs), (proj2 (Z.leb_gt _ _)) by done. cbn [andb].
  unfold grow. rewrite (ok_rest _ Hs). unfold MAX_ALIGNMENT.
  set (m := if _ <? _ then _ else _).
  destruct (next_size_large m) as (r & -> & Hr); [subst m; destruct (_ <? _) eqn:E; b2p; lia|].
  rewrite bind_Ok. unfold assert_. by rewrite (proj2 (Z.leb_gt _ _)) by lia.
Qed.

Example large_write_aborts_witness :
  @write_array zero_memory (replicate 3 0) 1 70000 (@OutputStream_new zero_memory host_le 512) = Fault AssertFailed.
Proof.
  apply (@large_write_aborts zero_memory host_le); [|lia|vm_compute; reflexivity].
  apply (@new_stream_ok zero_memory host_le). lia.
Defined.

(** [reset] leaves an empty stream on the first block of the chain, ready to
    be written again, when the first block is aligned like any new block. *)
Theorem reset_empties `{Allocator, Host} s b rest :
  os_ok s → os_chain s = b :: rest → b_size b = b_capacity b → 0 ≤ b_pad b ≤ 7 → b_pad b ≤ b_capacity b →
  os_ok (os_reset s) ∧ os_content (os_reset s) = [] ∧ os_swap (os_reset s) = os_swap s.
Proof.
  intros Hs Hch Hsz Hpad Hcap.
  assert ((match os_done s with b :: _ => b | [] => os_cur s end) = b) as Hstart.
  { unfold os_chain in Hch. destruct (os_done s); by simplify_eq/=. }
  assert (block_ok b) as [Hr Hw Hsb Hm].
  { pose proof (ok_blocks _ Hs) as Hf. rewrite Hch in Hf. by apply Forall_cons_1 in Hf as [? _]. }
  unfold os_reset. rewrite Hstart. split_and!; [|by rewrite os_content_app; cbn; unfold b_content; cbn; rewrite slice_empty|done].
  split; try done; [apply Hs| |cbn; lia].
  apply Forall_singleton. split; unfold b_capacity in *; cbn; lia.
Qed.

Example reset_empties_witness :
  os_content (os_reset (@OutputStream_new zero_memory host_le 512)) = [].
Proof.
  apply (@reset_empties zero_memory host_le _ (mb_align (@new_block zero_memory 512)) []);
    [|reflexivity|vm_compute; reflexivity|vm_compute; split; discriminate|vm_compute; discriminate].
  apply (@new_stream_ok zero_memory host_le). lia.
Defined.

(** [skip_string] moves exactly past what [read_string] reads. *)
Theorem skip_string_skips `{Host, Uninit} x s rest :
  string_ok x → is_ok_in s → avail s = enc_string x ++ rest →
  ∃ s1 s2, skip_string s = Ok (true, s1) ∧ read_string s = Ok (true, x, s2) ∧
    avail s1 = rest ∧ avail s2 = rest.
Proof.
  intros Hx Hs Ha. destruct (read_string_consumes x Hx s rest Hs Ha) as (s2 & Hr & _ & Ha2).
  unfold enc_string in Ha. rewrite <- app_assoc in Ha. unfold skip_string.
  destruct (read_uint_consumes (#x + 1)) with (s := s) (rest := (x ++ [0]) ++ rest)
    as (s1 & -> & (Hr1 & Hs1) & Ha1); [destruct Hx; unfold in_u; lia|done|done|].
  rewrite bind_Ok. change (default uninit (Some ?y)) with y. unfold skip_bytes.
  destruct (avail_split s1 (#x + 1) (x ++ [0]) rest Hr1 Ha1) as (Hf & _ & Ha3 & _);
    [rewrite length_app; cbn; lia|].
  change (default uninit (Some (#x + 1))) with (#x + 1).
  rewrite (proj2 (Z.leb_le _ _)) by done. do 2 eexists. split_and!; [done|done|exact Ha3|done].
Qed.

Example skip_string_skips_witness :
  ∃ s1, @skip_string host_le uninit_7 (input_le [0; 0; 0; 2; 104; 0; 9]) = Ok (true, s1) ∧ avail s1 = [9].
Proof.
  destruct (@skip_string_skips host_le uninit_7 [104] (input_le [0; 0; 0; 2; 104; 0; 9]) [9]) as (s1 & s2 & H1 & _ & H2 & _).
  - split; [repeat constructor; unfold is_byte; lia|cbn; lia].
  - split; [|split; reflexivity]. split; vm_compute; discriminate.
  - reflexivity.
  - exists s1. exact (conj H1 H2).
Defined.

(** ** One buffer from a chain *)

(** [consolidate] (the constructor of an input stream from a chain of message
    blocks) keeps the bytes of the chain, when the buffer it asks for has room
    for them after the alignment gap it leaves in front. *)
Lemma consolidate_keeps_content `{Allocator} dst src s0 tl n :
  src = s0 :: tl → Forall block_ok src → block_ok dst → b_wr dst ≤ b_size dst → b_rd dst = 0 →
  let total := #(mjoin (b_content <$> src)) in
  total < 2 ^ 61 → first_size total = Ok n → 0 ≤ n < 2 ^ 61 →
  7 + total ≤ Z.max n (b_capacity dst) →
  ∃ dst', consolidate dst src = Ok dst' ∧ b_content dst' = mjoin (b_content <$> src).
Proof.
  intros -> Hall Hd Hwd Hrd total Htot Hfs Hn Hroom. unfold consolidate.
  rewrite total_length_ok by (done || lia). fold total. rewrite Hfs, bind_Ok.
  assert (∃ d1, b_resize n dst = Ok d1 ∧ block_ok d1 ∧ Z.max n (b_capacity dst) ≤ b_capacity d1 ∧ b_rd d1 = 0)
    as (d1 & -> & Hd1 & Hcap & Hrd1).
  { unfold b_resize. pose proof Hd as [? ? ? ?]. destruct (n <=? b_capacity dst) eqn:E; b2p.
    - eexists. split; [done|]. split_and!; [split; unfold b_capacity in *; cbn; lia|unfold b_capacity in *; cbn; lia|done].
    - unfold b_capacity in *. rewrite load_slice, bind_Ok by lia.
      destruct (store_ok 0 (slice 0 (0 + b_size dst) (b_data dst)) (junk n)) as (d & -> & Hdl & _).
      { lia. } { rewrite length_slice by lia. rewrite junk_length; lia. }
      rewrite bind_Ok. pose proof (junk_length n ltac:(lia)). eexists. split; [done|].
      split_and!; [split; unfold b_capacity; cbn; lia|unfold b_capacity; cbn; lia|done]. }
  rewrite bind_Ok. set (off := if _ <? 0 then _ else _).
  assert (0 ≤ off ≤ 7) as Hoff.
  { subst off. unfold MAX_ALIGNMENT.
    pose proof (Z.mod_pos_bound (b_rd s0 - b_pad s0) 8). pose proof (Z.mod_pos_bound (b_rd d1 - b_pad d1) 8).
    destruct (_ <? 0) eqn:E; b2p; lia. }
  rewrite Hrd1. cbn [b_rd with_rd]. set (d2 := with_wr _ _). pose proof Hd1 as [? ? ? ?].
  assert (block_ok d2) as Hd2 by (split; unfold b_capacity in *; cbn; lia).
  destruct (copy_chain_ok (s0 :: tl) d2 Hall Hd2) as (d3 & -> & _ & _ & _ & Hc).
  { change (b_capacity d2) with (b_capacity d1). change (b_wr d2) with (0 + off). fold total. lia. }
  exists d3. split; [done|]. rewrite Hc. unfold b_content at 1. cbn. by rewrite slice_empty.
Qed.

Example consolidate_keeps_content_witness :
  ∃ d, @consolidate zero_memory (mkBlock [] 0 0 0 0) [sample_block; sample_block] = Ok d ∧ b_content d = [3; 4; 3; 4].
Proof.
  destruct (@consolidate_keeps_content zero_memory (mkBlock [] 0 0 0 0) [sample_block; sample_block] sample_block [sample_block] 512)
    as (d & H1 & H2).
  - reflexivity.
  - repeat constructor; apply sample_block_ok.
  - split; vm_compute; intuition congruence.
  - vm_compute. discriminate.
  - reflexivity.
  - vm_compute. reflexivity.
  - vm_compute. reflexivity.
  - lia.
  - vm_compute. discriminate.
  - exists d. exact (conj H1 H2).
Defined.

(** A chain of one block of 512 bytes, read from offset 3. *)
Definition unaligned_block : Block := mkBlock (replicate 515 1) 515 0 3 515.

(** [consolidate] ignores the result of [copy]: 512 bytes that do not start at
    a multiple of 8 ask for a buffer of 512 bytes, do not fit behind the
    alignment gap, and are silently dropped. *)
Theorem consolidate_drops_content :
  block_ok unaligned_block ∧ length (b_content unaligned_block) = 512%nat ∧
  ∃ s, @InputStream_mb zero_memory host_le [unaligned_block] = Ok s ∧ b_content (is_start s) = [].
Proof.
  split; [split; vm_compute; intuition congruence|]. split; [vm_compute; reflexivity|].
  eexists. split; [vm_compute; reflexivity|vm_compute; reflexivity].
Qed.
