(* ===== verification/Socket.v ===== *)
(** * Socket: the connected stream under both protocols (icc/SocketStream.cpp)

    The system calls are the environment: [sk_in] lists what successive calls
    of [recv] find (bytes that have arrived, or an errno), [sk_waits] what
    successive calls of [select] answer, [sk_out] how much successive calls
    of [send] take.  [sk_sent] collects the bytes handed to the kernel.
    [recv_n] is the code's loop over [recv] and [select]. *)
From S2P Require Import Prelude Block.

Definition EWOULDBLOCK : Z := 11.
Definition EAGAIN : Z := 11.
Definition ETIME : Z := 62.

(** [Data []] is the end of the stream. *)
Inductive delivery :=
  | Data (bs : list Z)
  | Fails (e : Z).

Inductive answer :=
  | Ready
  | TimedOut
  | SelectFails (e : Z).

Inductive acceptance :=
  | Accepts (n : Z)
  | Rejects (e : Z).

Record socket := mkSocket {
  sk_in : list delivery;
  sk_waits : list answer;
  sk_out : list acceptance;
  sk_sent : list Z;
  sk_errno : Z }.

Definition with_in (ds : list delivery) (sk : socket) : socket :=
  mkSocket ds (sk_waits sk) (sk_out sk) (sk_sent sk) (sk_errno sk).
Definition with_waits (ws : list answer) (sk : socket) : socket :=
  mkSocket (sk_in sk) ws (sk_out sk) (sk_sent sk) (sk_errno sk).
Definition with_errno (e : Z) (sk : socket) : socket :=
  mkSocket (sk_in sk) (sk_waits sk) (sk_out sk) (sk_sent sk) e.

(** [recv (buf, n)]: result, bytes received.  Nothing to receive is
    [EWOULDBLOCK]. *)
Definition recv (n : Z) (sk : socket) : Z * list Z * socket :=
  if n =? 0 then (0, [], sk) else
  match sk_in sk with
  | [] => (-1, [], with_errno EWOULDBLOCK sk)
  | Fails e :: ds => (-1, [], with_errno e (with_in ds sk))
  | Data [] :: _ => (0, [], sk)
  | Data bs :: ds =>
      if #bs <=? n then (#bs, bs, with_in ds sk)
      else (n, take (Z.to_nat n) bs, with_in (Data (drop (Z.to_nat n) bs) :: ds) sk)
  end.

(** The bytes received go to the buffer of a block, from index [off]. *)
Definition recv_at (off n : Z) (b : Block) (sk : socket) : result (Z * Block * socket) :=
  let '(r, bs, sk) := recv n sk in
  match bs with
  | [] => Ok (r, b, sk)
  | _ => d ← store off bs (b_data b); Ok (r, with_data d b, sk)
  end.

(** [send (buf, n)]: the kernel takes a prefix. *)
Definition send (bs : list Z) (sk : socket) : Z * socket :=
  let sent (n : Z) out :=
    (n, mkSocket (sk_in sk) (sk_waits sk) out (sk_sent sk ++ take (Z.to_nat n) bs) (sk_errno sk)) in
  match sk_out sk with
  | [] => sent (#bs) []
  | Accepts n :: out => sent (Z.min (Z.max n 0) (#bs)) out
  | Rejects e :: out => (-1, mkSocket (sk_in sk) (sk_waits sk) out (sk_sent sk) e)
  end.

(** [handleReady]: wait in [select]; no answer is a time-out. *)
Definition handleReady (sk : socket) : Z * socket :=
  match sk_waits sk with
  | Ready :: ws => (1, with_waits ws sk)
  | TimedOut :: ws => (-1, with_errno ETIME (with_waits ws sk))
  | SelectFails e :: ws => (-1, with_errno e (with_waits ws sk))
  | [] => (-1, with_errno ETIME sk)
  end.

(** [recv_n (buf, len, timeout, 0)], into the buffer of [b] from [off]. *)
Fixpoint recv_n_loop (fuel : nat) (bt len off : Z) (b : Block) (sk : socket) : result (Z * Block * socket) :=
  if bt <? len then
    match fuel with
    | O => Fault OutOfFuel
    | S fuel =>
        '(n, b, sk) ← recv_at (off + bt) (len - bt) b sk;
        if (n =? 0) || (n =? -1) then
          if (n =? -1) && ((sk_errno sk =? EWOULDBLOCK) || (sk_errno sk =? 0)) then
            let '(rtn, sk) := handleReady sk in
            if negb (rtn =? -1) then recv_n_loop fuel bt len off b sk
            else Ok (n, b, sk)
          else Ok (n, b, sk)
        else recv_n_loop fuel (bt + n) len off b sk
    end
  else Ok (bt, b, sk).

(** Each turn takes a delivery or an answer, or is the last. *)
Definition recv_n_fuel (sk : socket) : nat := S (length (sk_in sk) + length (sk_waits sk)).

Definition recv_n (len off : Z) (b : Block) (sk : socket) : result (Z * Block * socket) :=
  recv_n_loop (recv_n_fuel sk) 0 len off b sk.

(** ** Lemmas *)

(** The bytes of a list of deliveries. *)
Definition data_of (ds : list delivery) : list Z :=
  mjoin ((λ d, match d with Data bs => bs | Fails _ => [] end) <$> ds).

(** Deliveries with bytes in them, and stalls. *)
Definition arrives (d : delivery) : Prop :=
  match d with Data bs => bs ≠ [] | Fails e => e = EWOULDBLOCK end.

(** Deliveries with bytes in them only: every [recv] finds some, as on a blocking
    socket. *)
Definition flows (d : delivery) : Prop :=
  match d with Data bs => bs ≠ [] | Fails _ => False end.

(** On a socket that does not block: the deliveries are bytes and stalls, with
    stalls only where [may] allows them, counting the bytes from [n]. *)
Fixpoint paced (may : nat → Prop) (n : nat) (ds : list delivery) : Prop :=
  match ds with
  | [] => True
  | Data bs :: ds => bs ≠ [] ∧ paced may (n + length bs) ds
  | Fails e :: ds => e = EWOULDBLOCK ∧ may n ∧ paced may n ds
  end.

(** [select] reports the socket when the stalls before the next bytes are over. *)
Fixpoint skip_stalls (ds : list delivery) : list delivery :=
  match ds with
  | Fails e :: ds' => if e =? EWOULDBLOCK then skip_stalls ds' else ds
  | _ => ds
  end.
Definition wait_input (sk : socket) : socket := with_in (skip_stalls (sk_in sk)) sk.
Definition moving (sk : socket) : Prop := match sk_in sk with Fails _ :: _ => False | _ => True end.

Fixpoint stalls (ds : list delivery) : nat :=
  match ds with
  | [] => 0
  | Data _ :: ds => stalls ds
  | Fails _ :: ds => S (stalls ds)
  end.

Lemma data_of_cons d ds : data_of (d :: ds) = match d with Data bs => bs | Fails _ => [] end ++ data_of ds.
Proof. reflexivity. Qed.

(** Where stalls may be, after [k] bytes. *)
Lemma paced_shift may k ds : ∀ n, paced (λ i, may (k + i)%nat) n ds ↔ paced may (k + n) ds.
Proof.
  induction ds as [|[bs|e] ds IH]; intros n; cbn [paced]; [done|by rewrite IH, Nat.add_assoc|by rewrite IH].
Qed.

Lemma paced_impl (may may' : nat → Prop) ds : (∀ i, may i → may' i) → ∀ n, paced may n ds → paced may' n ds.
Proof. intros Hm. induction ds as [|[bs|e] ds IH]; intros n; cbn [paced]; naive_solver. Qed.

Lemma paced_never n ds : paced (λ _, False) n ds ↔ Forall flows ds.
Proof.
  revert n. induction ds as [|[bs|e] ds IH]; intros n; cbn [paced]; rewrite ?Forall_cons; cbn [flows]; [|by rewrite IH|tauto].
  split; [constructor|done].
Qed.

Lemma flows_paced may n ds : Forall flows ds → paced may n ds.
Proof. rewrite <- (paced_never n). by apply paced_impl. Qed.

Lemma arrives_paced N ds : ∀ n, Forall arrives ds → (N ≤ n)%nat → paced (λ i, (N ≤ i)%nat) n ds.
Proof.
  induction ds as [|[bs|e] ds IH]; intros n Hall Hn; cbn [paced]; [done| |]; apply Forall_cons in Hall as [Hd Hall];
    cbn [arrives] in Hd; split_and!; try done; apply IH; done || lia.
Qed.

Lemma paced_moving may n sk : paced may n (sk_in sk) → ¬ may n → moving sk.
Proof. unfold moving. destruct (sk_in sk) as [|[]]; cbn; tauto. Qed.

Lemma flows_moving sk : Forall flows (sk_in sk) → moving sk.
Proof. intros H. eapply (paced_moving (λ _, False) 0); [by apply paced_never|tauto]. Qed.

Lemma moving_wait sk : moving sk → wait_input sk = sk.
Proof. unfold moving, wait_input. destruct sk as [[|[] ds] ? ? ? ?]; done. Qed.

(** Waiting takes stalls only. *)
Lemma wait_input_ok may n sk :
  paced may n (sk_in sk) →
  moving (wait_input sk) ∧ paced may n (sk_in (wait_input sk)) ∧ data_of (sk_in (wait_input sk)) = data_of (sk_in sk).
Proof.
  unfold wait_input, moving. cbn [sk_in with_in]. intros H. induction (sk_in sk) as [|[bs|e] ds IH]; [done|done|].
  destruct H as (-> & _ & H). cbn [skip_stalls Z.eqb EWOULDBLOCK Pos.eqb]. by apply IH.
Qed.

(** A [recv] that finds bytes takes a non-empty prefix of what is to come. *)
Lemma recv_moving may k n sk :
  moving sk → paced may k (sk_in sk) → 0 < n → data_of (sk_in sk) ≠ [] →
  ∃ bs ds, recv n sk = (#bs, bs, with_in ds sk) ∧ bs ≠ [] ∧
    #bs ≤ n ∧ paced may (k + length bs) ds ∧ data_of (sk_in sk) = bs ++ data_of ds.
Proof.
  unfold moving. intros Hmv Hall Hn Hne. unfold recv. rewrite (proj2 (Z.eqb_neq n 0)) by lia.
  destruct (sk_in sk) as [|d ds]; [done|]. rewrite data_of_cons in *.
  destruct d as [[|c bs]|e]; [by destruct Hall| |done]. destruct Hall as [_ Hall].
  destruct (_ <=? n) eqn:E; b2p.
  - by exists (c :: bs), ds.
  - exists (take (Z.to_nat n) (c :: bs)), (Data (drop (Z.to_nat n) (c :: bs)) :: ds).
    assert (length (take (Z.to_nat n) (c :: bs)) = Z.to_nat n) as Hl by (rewrite length_take; lia).
    rewrite Hl. split_and!; [f_equal; f_equal; lia| | | |].
    + intros Ht. rewrite Ht in Hl. cbn in Hl. lia.
    + lia.
    + split; [intros Hd'; apply (f_equal length) in Hd'; rewrite length_drop in Hd'; cbn [length] in *; lia|].
      replace (k + _ + _)%nat with (k + length (c :: bs))%nat; [done|]. rewrite length_drop. lia.
    + by rewrite data_of_cons, app_assoc, take_drop.
Qed.

(** The result of [recv_at] in a buffer with room. *)
Lemma recv_at_moving may k off n b sk :
  moving sk → paced may k (sk_in sk) → 0 < n → data_of (sk_in sk) ≠ [] → 0 ≤ off → off + n ≤ b_capacity b →
  ∃ bs ds d, recv_at off n b sk = Ok (#bs, with_data d b, with_in ds sk) ∧
    store off bs (b_data b) = Ok d ∧ bs ≠ [] ∧ #bs ≤ n ∧ paced may (k + length bs) ds ∧
    data_of (sk_in sk) = bs ++ data_of ds.
Proof.
  intros Hmv Hall Hn Hne Hoff Hcap. unfold recv_at, b_capacity in *.
  destruct (recv_moving may k n sk Hmv Hall Hn Hne) as (bs & ds & -> & Hbs & Hl & Hds & Hd).
  destruct (store_ok off bs (b_data b)) as (d & Hst & _); [lia..|].
  exists bs, ds, d. split_and!; try done. rewrite Hst. by destruct bs.
Qed.

(** A kernel that takes all it is given. *)
Lemma send_all bs sk :
  sk_out sk = [] →
  send bs sk = (#bs, mkSocket (sk_in sk) (sk_waits sk) [] (sk_sent sk ++ bs) (sk_errno sk)).
Proof. intros Ho. unfold send. rewrite Ho, Nat2Z.id. by rewrite take_ge. Qed.

(** Receiving does not touch what is sent. *)
Definition same_output (sk sk' : socket) : Prop := sk_out sk' = sk_out sk ∧ sk_sent sk' = sk_sent sk.

#[export] Instance same_output_preorder : PreOrder same_output.
Proof. split; [done|]. intros a b c [? ?] [? ?]. split; congruence. Qed.

Lemma recv_same_output n sk r bs sk' : recv n sk = (r, bs, sk') → same_output sk sk'.
Proof.
  unfold recv. split_if; [by intros [= <- <- <-]|]. destruct (sk_in sk) as [|[[|c bs']|e] ds]; try (by intros [= <- <- <-]).
  split_if; by intros [= <- <- <-].
Qed.

Lemma recv_at_same_output off n b sk r b' sk' : recv_at off n b sk = Ok (r, b', sk') → same_output sk sk'.
Proof.
  unfold recv_at. destruct (recv n sk) as [[r' bs] sk1] eqn:E. apply recv_same_output in E.
  destruct bs; intros ?; inv_ok; done.
Qed.

Lemma recv_n_loop_same_output fuel bt len off b sk r b' sk' :
  recv_n_loop fuel bt len off b sk = Ok (r, b', sk') → same_output sk sk'.
Proof.
  revert bt b sk. induction fuel as [|fuel IH]; intros bt b sk; cbn [recv_n_loop]; split_if; intros Hr; try by inv_ok.
  apply bind_inv in Hr as ([[n b1] sk1] & Hv%recv_at_same_output & Hr). etrans; [exact Hv|].
  destruct (_ || _); [|by eapply IH]. destruct (_ && _); [|by inv_ok].
  assert (same_output sk1 (handleReady sk1).2) as Hw by (unfold handleReady; by destruct (sk_waits sk1) as [|[]]).
  destruct (handleReady sk1) as [rtn sk2]. cbn [snd] in Hw. etrans; [exact Hw|].
  destruct (negb _); [by eapply IH|by inv_ok].
Qed.

Lemma recv_n_same_output len off b sk r b' sk' : recv_n len off b sk = Ok (r, b', sk') → same_output sk sk'.
Proof. apply recv_n_loop_same_output. Qed.

Lemma wait_same_output sk : same_output sk (wait_input sk).
Proof. done. Qed.

(** What [recv] and the store of its bytes do, by the delivery. *)
Lemma recv_at_data off n c bs ds b sk :
  sk_in sk = Data (c :: bs) :: ds → 0 < n → 0 ≤ off → off + n ≤ b_capacity b →
  ∃ got rest d, recv_at off n b sk = Ok (#got, with_data d b,
      with_in (match rest with [] => ds | _ => Data rest :: ds end) sk) ∧
    c :: bs = got ++ rest ∧ got ≠ [] ∧ #got ≤ n ∧
    (rest = [] ∨ #got = n) ∧ store off got (b_data b) = Ok d.
Proof.
  intros Hin Hn Hoff Hcap. unfold recv_at, recv, b_capacity in *. rewrite Hin, (proj2 (Z.eqb_neq n 0)) by lia.
  destruct (_ <=? n) eqn:E; b2p.
  - destruct (store_ok off (c :: bs) (b_data b)) as (d & Hd & _); [lia..|].
    exists (c :: bs), [], d. rewrite Hd, app_nil_r. split_and!; auto.
  - set (x := c :: bs) in *. assert (length (take (Z.to_nat n) x) = Z.to_nat n) as Hl by (rewrite length_take; lia).
    destruct (store_ok off (take (Z.to_nat n) x) (b_data b)) as (d & Hd & _); [lia..|].
    exists (take (Z.to_nat n) x), (drop (Z.to_nat n) x), d. rewrite take_drop, Hl.
    assert (take (Z.to_nat n) x ≠ []) as Hne by (intros Ht; rewrite Ht in Hl; cbn in Hl; lia).
    assert (drop (Z.to_nat n) x ≠ []) as Hne2.
    { intros Ht. apply (f_equal length) in Ht. rewrite length_drop in Ht. cbn [length] in *. lia. }
    split_and!; try done; [|lia|right; lia]. rewrite Z2Nat.id by lia.
    destruct (take (Z.to_nat n) x) eqn:E1; [done|]. rewrite Hd, bind_Ok.
    by destruct (drop (Z.to_nat n) x).
Qed.

(** A delivery that is taken whole. *)
Lemma recv_at_whole off n bs ds b sk :
  sk_in sk = Data bs :: ds → bs ≠ [] → #bs ≤ n →
  recv_at off n b sk = d ← store off bs (b_data b); Ok (#bs, with_data d b, with_in ds sk).
Proof.
  intros Hin Hne Hle. unfold recv_at, recv. rewrite Hin. destruct bs as [|c bs]; [done|].
  rewrite (proj2 (Z.eqb_neq n 0)) by (cbn [length] in Hle; lia). by rewrite (proj2 (Z.leb_le _ _)).
Qed.

Lemma recv_n_loop_done fuel bt off b sk : recv_n_loop fuel bt bt off b sk = Ok (bt, b, sk).
Proof. destruct fuel; cbn [recv_n_loop]; by rewrite Z.ltb_irrefl. Qed.

(** [recv_n] gathers its bytes from any fragments, through any stalls that
    [select] sees end. *)
Lemma recv_n_loop_reads ds : ∀ fuel bt x rest k ws b off out sent e,
  Forall arrives ds → data_of ds = x ++ rest → (stalls ds ≤ k)%nat → (length ds ≤ fuel)%nat →
  0 ≤ bt → 0 ≤ off → off + bt + #x ≤ b_capacity b →
  ∃ ds' k' d e', recv_n_loop fuel bt (bt + #x) off b
      (mkSocket ds (replicate k Ready ++ ws) out sent e) =
      Ok (bt + #x, with_data d b, mkSocket ds' (replicate k' Ready ++ ws) out sent e') ∧
    store (off + bt) x (b_data b) = Ok d ∧ Forall arrives ds' ∧ data_of ds' = rest ∧ (stalls ds' ≤ k')%nat.
Proof.
  induction ds as [|dl ds IH]; intros fuel bt x rest k ws b off out sent e Hall Hdata Hk Hf Hbt Hoff Hcap;
    (destruct (decide (x = [])) as [-> | Hx];
      [cbn [length Z.of_nat] in *; rewrite Z.add_0_r, recv_n_loop_done; unfold b_capacity in *;
       eexists _, k, (b_data b), e; rewrite store_nil by lia; by destruct b|]).
  - by destruct x.
  - apply Forall_cons_1 in Hall as [Hd Hall]. destruct fuel as [|fuel]; [cbn in Hf; lia|]. cbn [recv_n_loop].
    assert (0 < #x) as Hlx by (destruct x; [done|cbn; lia]).
    rewrite (proj2 (Z.ltb_lt _ _)), Z.add_simpl_l by lia.
    destruct dl as [[|c bs]|e1]; cbn in Hd; [done| |subst e1].
    + set (sk := mkSocket _ _ _ _ _).
      destruct (recv_at_data (off + bt) (#x) c bs ds b sk)
        as (got & left & d & -> & Hsplit & Hne & Hle & Hor & Hst); [done|lia..|]. rewrite bind_Ok.
      assert (0 < #got) as Hlg by (destruct got; [done|cbn; lia]).
      rewrite !(proj2 (Z.eqb_neq _ _)) by lia. cbn [orb].
      rewrite data_of_cons, Hsplit, <- app_assoc in Hdata.
      assert (∃ x', x = got ++ x' ∧ left ++ data_of ds = x' ++ rest) as (x' & -> & Hrest).
      { apply app_eq_inv in Hdata as [(k' & -> & ->)|(k' & -> & ?)]; [|by exists k'].
        rewrite length_app in Hle. destruct k'; [|cbn in Hle; lia]. exists []. by rewrite !app_nil_r. }
      rewrite length_app, Nat2Z.inj_add, Z.add_assoc in *.
      pose proof (store_length _ _ _ _ Hst) as Hld.
      destruct (store_app (off + bt) got x' (b_data b)) as (m1 & Hm1 & _ & Hm2); [lia|unfold b_capacity in *; lia|].
      assert (m1 = d) as -> by congruence. rewrite <- Hm2.
      destruct left as [|c2 left].
      * destruct (IH fuel (bt + #got) x' rest k ws (with_data d b) off out sent e)
          as (ds' & k' & d' & e' & Hr & Hs' & ? & ? & ?); try done; [cbn in Hf; lia|lia| |].
        { unfold b_capacity in *. cbn. rewrite Hld. lia. }
        exists ds', k', d', e'. rewrite Z.add_assoc in Hs'. done.
      * destruct Hor as [|Heq]; [done|]. assert (x' = []) as -> by (destruct x'; [done|cbn in Heq; lia]).
        cbn [length Z.of_nat] in *. rewrite Z.add_0_r, recv_n_loop_done.
        exists (Data (c2 :: left) :: ds), k, d, e. unfold b_capacity in *. rewrite store_nil by lia.
        split_and!; try done. by constructor.
    + cbn [recv_at recv sk_in]. unfold recv_at, recv. cbn [sk_in]. rewrite (proj2 (Z.eqb_neq _ _)) by lia. rewrite bind_Ok.
      cbn [Z.eqb orb andb sk_errno with_errno EWOULDBLOCK Pos.eqb stalls] in *.
      destruct k as [|k]; [lia|]. cbn [handleReady sk_waits with_errno with_in replicate app negb Z.eqb].
      apply (IH fuel bt x rest k ws b off out sent EWOULDBLOCK); try done; [lia|cbn in Hf; lia].
Qed.

(** A turn of the loop that got bytes used up the first delivery, or filled
    the buffer. *)
Lemma recv_at_progress off n b sk r b' sk' :
  0 < n → recv_at off n b sk = Ok (r, b', sk') →
  sk_waits sk' = sk_waits sk ∧
  (r = 0 ∨ r = n ∨ (length (sk_in sk') < length (sk_in sk))%nat ∨
   r = -1 ∧ (length (sk_in sk') ≤ length (sk_in sk))%nat).
Proof.
  intros Hn. unfold recv_at, recv. rewrite (proj2 (Z.eqb_neq n 0)) by lia.
  destruct (sk_in sk) as [|[[|c bs]|e] ds] eqn:Hin.
  - intros ?. inv_ok. cbn. rewrite Hin. auto 10.
  - intros ?. inv_ok. auto.
  - destruct (_ <=? n); [|destruct (take _ _)]; intros ?; inv_ok; cbn; auto 10.
  - intros ?. inv_ok. cbn. auto 10.
Qed.

Lemma recv_n_loop_total fuel : ∀ bt len off b sk,
  (length (sk_in sk) + length (sk_waits sk) < fuel)%nat →
  recv_n_loop fuel bt len off b sk ≠ Fault OutOfFuel.
Proof.
  induction fuel as [|fuel IH]; intros bt len off b sk Hf; [lia|]. cbn [recv_n_loop].
  destruct (bt <? len) eqn:E; b2p; [|done].
  destruct (recv_at _ _ b sk) as [[[n b1] sk1]|er] eqn:Hr.
  2: { rewrite bind_Fault. unfold recv_at in Hr. destruct (recv _ _) as [[? [|c bs]] ?]; [done|].
       unfold store in Hr. destruct (_ && _); cbn in Hr; congruence. }
  rewrite bind_Ok. apply recv_at_progress in Hr as [Hw Hp]; [|lia].
  destruct ((n =? 0) || (n =? -1)) eqn:E0; b2p.
  - destruct (_ && _) eqn:E1; [|done]. b2p. unfold handleReady. rewrite Hw.
    destruct (sk_waits sk) as [|[]] eqn:Hws; cbn [negb Z.eqb Pos.eqb]; try done.
    apply IH. cbn in Hf |- *. destruct Hp as [|[|[|]]]; lia.
  - destruct Hp as [|[-> |[|]]]; [lia| |apply IH; rewrite Hw; lia|lia].
    rewrite Z.add_sub_assoc, Z.add_simpl_l, recv_n_loop_done. done.
Qed.

(** [bytes] are on their way: in pieces, and with stalls between them that a
    wait in [select] sees end. *)
Definition incoming (sk : socket) (bytes : list Z) : Prop :=
  Forall arrives (sk_in sk) ∧ data_of (sk_in sk) = bytes ∧
  ∃ k ws, sk_waits sk = replicate k Ready ++ ws ∧ (stalls (sk_in sk) ≤ k)%nat.

Lemma recv_n_reads sk off b x rest :
  incoming sk (x ++ rest) → 0 ≤ off → off + #x ≤ b_capacity b →
  ∃ d sk', recv_n (#x) off b sk = Ok (#x, with_data d b, sk') ∧
    store off x (b_data b) = Ok d ∧ incoming sk' rest.
Proof.
  intros (Hall & Hd & k & ws & Hw & Hk) Hoff Hcap. destruct sk as [ds ws0 out sent e]. cbn [sk_in sk_waits] in *. subst ws0.
  unfold recv_n.
  destruct (recv_n_loop_reads ds (recv_n_fuel (mkSocket ds (replicate k Ready ++ ws) out sent e)) 0 x rest k ws b off out sent e)
    as (ds' & k' & d & e' & Hr & Hst & ? & ? & ?); try done; [unfold recv_n_fuel; cbn; lia|lia|].
  rewrite Z.add_0_r in Hst. exists d, (mkSocket ds' (replicate k' Ready ++ ws) out sent e').
  split_and!; try done. split_and!; try done. by exists k', ws.
Qed.

(** ** Properties *)

(** [recv_n] always returns.  Whatever the kernel delivers and [select]
    answers, the loop ends within one turn per delivery and answer. *)
Lemma recv_n_terminates len off b sk : recv_n len off b sk ≠ Fault OutOfFuel.
Proof. apply recv_n_loop_total. unfold recv_n_fuel. lia. Qed.

(** [recv_n] reassembles.  When [x] is what arrives next, in fragments of
    any sizes, with a stall between any two of them that a wait in [select]
    sees end, then [recv_n] for the length of [x] returns that length, has
    stored exactly [x] at the place asked for and nothing else, and leaves the
    bytes after [x], also those of a fragment it took only a part of, to the
    next call. *)
Lemma recv_n_gathers sk off b x rest :
  incoming sk (x ++ rest) → 0 ≤ off → off + #x ≤ b_capacity b →
  ∃ d sk', recv_n (#x) off b sk = Ok (#x, with_data d b, sk') ∧
    take (Z.to_nat off) d = take (Z.to_nat off) (b_data b) ∧
    slice off (off + #x) d = x ∧
    (∀ hi, slice (off + #x) hi d = slice (off + #x) hi (b_data b)) ∧
    incoming sk' rest.
Proof.
  intros Hin Hoff Hcap. destruct (recv_n_reads sk off b x rest Hin Hoff Hcap) as (d & sk' & Hr & Hst & Hin').
  destruct (store_ok off x (b_data b)) as (d' & Hd' & _ & Hs1 & Hs2 & Hs3); [done|done|].
  assert (d' = d) as -> by congruence. exists d, sk'. split_and!; try done.
  - specialize (Hs2 0 off). unfold slice in Hs2. rewrite Z.sub_0_r, !drop_0 in Hs2. apply Hs2; lia.
  - intros hi. apply Hs3. lia.
Qed.

Definition sample_socket : socket :=
  mkSocket [Data [1]; Fails EWOULDBLOCK; Data [2; 3; 4]; Data [5]] [Ready] [] [] 0.

Lemma recv_n_gathers_witness :
  ∃ d sk', recv_n 3 1 (mkBlock [0; 0; 0; 0; 0] 5 0 0 0) sample_socket = Ok (3, mkBlock d 5 0 0 0, sk') ∧
    slice 1 4 d = [1; 2; 3] ∧ data_of (sk_in sk') = [4; 5].
Proof.
  destruct (recv_n_gathers sample_socket 1 (mkBlock [0; 0; 0; 0; 0] 5 0 0 0) [1; 2; 3] [4; 5])
    as (d & sk' & Hr & _ & Hst & _ & (_ & Hd & _)).
  - split; [repeat constructor; cbn; congruence|]. split; [reflexivity|]. exists 1%nat, []. split; [reflexivity|cbn; lia].
  - lia.
  - vm_compute. discriminate.
  - exists d, sk'. exact (conj Hr (conj Hst Hd)).
Defined.
