(* ===== verification/Framing.v ===== *)
(** * Framing: what both protocols do with a message header

    [MsgProtocol::send] and [IcmProtocol::sendMessage] write the length of the
    body into the first block; [MsgProtocol::parse] and
    [IcmProtocol::handleInput] read a header of five bytes, make room for the
    body and go on after the header.  The header is the length of the body
    (four bytes, network order) and the type of the message. *)
From S2P Require Import Prelude Block OutputStream InputStream Marshalling.

Section patching.

Context `{Host}.

(** [buffer ()] is the read pointer of the first block. *)
Definition os_first (os : OutputStream) : Block :=
  match os_done os with b :: _ => b | [] => os_cur os end.

Definition with_first (b : Block) (os : OutputStream) : OutputStream :=
  match os_done os with
  | _ :: ds => mkOS (b :: ds) (os_cur os) (os_rest os) (os_writable os) (os_swap os) (os_good os)
  | [] => OutputStream.with_cur b os
  end.

(** The length of the body, at [offset] of the first block: reversed or not,
    as [do_byte_swap ()] says. *)
Definition patch_length (header offset : Z) (os : OutputStream) : result OutputStream :=
  let bodyLen := native 4 (u32 (u64 (os_total_length os - header))) in
  let b := os_first os in
  d ← store (b_rd b + offset) (if os_swap os then reverse bodyLen else bodyLen) (b_data b);
  Ok (with_first (with_data d b) os).

End patching.

(** ** Lemmas: the header at the receiver *)

(** A message on the wire. *)
Definition frame (ty : Z) (body : list Z) : list Z := be_bytes 4 (len body) ++ [ty] ++ body.

Lemma length_frame ty body : length (frame ty body) = (5 + length body)%nat.
Proof. unfold frame. len_lia. Qed.

Section header.

Context `{Allocator, Host, Uninit}.

(** Reading a [UInt], with the stream it leaves. *)
Lemma read_uint_at s x rest :
  rd_ok s → is_swap s = little_endian → in_u 32 x → avail s = be_bytes 4 x ++ rest →
  read_uint s = Ok (true, Some x, with_start (with_rd (b_rd (is_start s) + 4) (is_start s)) s).
Proof.
  intros Hr Hsw Hx Ha. unfold read_uint, read_value, read_4.
  change (read_n INT_SIZE 4 s) with (read_n INT_SIZE INT_SIZE s).
  destruct (read_n_raw s INT_SIZE (be_bytes 4 x) rest) as (-> & _); [done|done|by rewrite length_be_bytes|].
  rewrite bind_Ok, unwire_be by done. cbn [option_map]. unfold unsigned.
  rewrite native_value_native. change (8 * Z.of_nat 4) with 32. by rewrite !(wrap_small 32 x) by done.
Qed.

(** With a whole header at the base of the buffer: the type is where the code
    looks for it, the length is read, and after [grow] and [skip_bytes] there
    is room for the body behind the header. *)
Lemma open_header s ty n k :
  heap_block (is_start s) → b_rd (is_start s) = 0 → is_swap s = little_endian → in_u 32 n → 5 ≤ k < 2 ^ 59 →
  take 5 (b_data (is_start s)) = be_bytes 4 n ++ [ty] →
  ∃ s1 s2 s3, load (b_rd (is_start s) + 4) 1 (b_data (is_start s)) = Ok [ty] ∧
    read_uint s = Ok (true, Some n, s1) ∧ is_grow k s1 = Ok s2 ∧ skip_bytes 5 s2 = Ok (true, s3) ∧
    heap_block (is_start s3) ∧ b_rd (is_start s3) = 5 ∧ k ≤ b_capacity (is_start s3) ∧
    is_swap s3 = is_swap s ∧ is_good s3 = is_good s ∧
    take 5 (b_data (is_start s3)) = be_bytes 4 n ++ [ty] ∧ b_wr (is_start s3) = k.
Proof.
  intros Hh Hrd Hsw Hn Hk Hhdr. pose proof (take_drop 5 (b_data (is_start s))) as Hsplit. rewrite Hhdr in Hsplit.
  set (data := b_data (is_start s)) in *. rewrite Hrd.
  assert (5 ≤ length data)%nat as Hlen.
  { apply (f_equal length) in Hhdr. rewrite length_take, length_app, length_be_bytes in Hhdr. change (length [ty]) with 1%nat in Hhdr. lia. }
  assert (load (0 + 4) 1 data = Ok [ty]) as Hty.
  { rewrite load_slice by lia. unfold slice. rewrite <- Hsplit, <- app_assoc.
    rewrite drop_app_length' by (by rewrite length_be_bytes). reflexivity. }
  assert (avail s = be_bytes 4 n ++ [ty] ++ drop 5 data) as Hav.
  { unfold avail, b_capacity. rewrite Hrd, slice_full. fold data. by rewrite app_assoc. }
  assert (rd_ok s) as Hok by (unfold rd_ok, b_capacity; rewrite Hrd; fold data; lia).
  pose proof (read_uint_at s n _ Hok Hsw Hn Hav) as Hru. rewrite Hrd in Hru.
  destruct (is_grow_ok k (with_start (with_rd (0 + 4) (is_start s)) s)) as
    (s2 & Hg & Hh2 & Hrd2 & Hcap2 & Hdata2 & Hsw2 & Hgd2 & Hwr2); [done|lia|].
  cbn [is_start with_start with_rd b_data] in Hdata2. fold data in Hdata2.
  eexists _, s2, (with_start (with_rd 5 (is_start s2)) s2). split_and!; try done.
  - unfold skip_bytes. rewrite Hrd2, (proj2 (Z.leb_le _ _)) by lia. done.
  - change (b_capacity _) with (b_capacity (is_start s2)). lia.
  - change (b_data _) with (b_data (is_start s2)). rewrite <- Hhdr, <- Hdata2, take_take.
    f_equal. lia.
Qed.

End header.

(** ** Lemmas: the header at the sender *)

(** Overwriting the start of the contents of a block. *)
Lemma block_overwrite b w :
  block_ok b → (length w ≤ length (b_content b))%nat →
  ∃ d, store (b_rd b) w (b_data b) = Ok d ∧ block_ok (with_data d b) ∧
    b_content (with_data d b) = w ++ drop (length w) (b_content b).
Proof.
  intros Hb Hw. pose proof (content_length b Hb) as Hl. pose proof Hb as [Hr Hwr Hs Hm]. unfold b_capacity in *.
  destruct (store_ok (b_rd b) w (b_data b)) as (d & Hd & Hld & Hsl & _ & Hafter); [lia..|].
  exists d. split_and!; [done|split; unfold b_capacity; cbn; lia|].
  unfold b_content in *. cbn [b_rd b_wr b_data with_data].
  rewrite !(slice_app (b_rd b) (b_rd b + #w) (b_wr b)) by lia.
  rewrite Hsl, Hafter by lia. f_equal. symmetry. apply drop_app_length'.
  apply Nat2Z.inj. rewrite length_slice; lia.
Qed.

Lemma os_chain_first os : os_chain os = os_first os :: tail (os_chain os).
Proof. unfold os_chain, os_first. by destruct (os_done os). Qed.

Lemma os_chain_with_first b os : os_chain (with_first b os) = b :: tail (os_chain os).
Proof. by destruct os as [[|? ?] ? ? ? ? ?]. Qed.

(** A chain that can go out: its blocks are in order and none is empty. *)
Definition sendable (chain : list Block) : Prop := Forall (λ b, block_ok b ∧ b_content b ≠ []) chain.

Lemma headed_sendable k s : os_ok s → headed k s → sendable (os_chain s).
Proof. intros Hs [Hne _]. apply Forall_and. split; [apply Hs|done]. Qed.

Section sending.

Context `{Allocator, Host}.

(** The bytes of a block, as the senders read them. *)
Lemma load_block i : block_ok i → load (b_rd i) (b_length i) (b_data i) = Ok (b_content i).
Proof.
  intros Hi. rewrite block_length by done. pose proof (content_length i Hi) as Hl. destruct Hi as [Hr Hw _ _].
  unfold b_capacity in *. rewrite load_slice by lia. unfold b_content in *. do 2 f_equal. lia.
Qed.

Lemma block_nonempty i : block_ok i → b_content i ≠ [] → negb (b_length i =? 0) = true.
Proof.
  intros Hi Hne. rewrite block_length by done. apply negb_true_iff, Z.eqb_neq.
  destruct (b_content i); [done|cbn; lia].
Qed.

(** [patch_length] writes the number of bytes after the header over the first
    four bytes, and changes nothing else. *)
Lemma patch_length_ok os h body :
  os_ok os → headed 5 os → os_swap os = little_endian → os_len os ≤ os_limit →
  os_content os = h ++ body → length h = 5%nat →
  ∃ os', patch_length 5 0 os = Ok os' ∧ sendable (os_chain os') ∧
    mjoin (b_content <$> os_chain os') = be_bytes 4 (len body) ++ drop 4 h ++ body.
Proof.
  intros Hs Hh Hsw Hlim Hc Hlh. pose proof (headed_sendable 5 os Hs Hh) as Hsend. unfold patch_length.
  assert (os_total_length os = 5 + len body) as Hlen.
  { unfold os_total_length. rewrite total_length_ok; [|apply Hs|unfold os_len, os_limit, os_content in *; lia].
    fold (os_content os). rewrite Hc, length_app, Hlh. unfold len. lia. }
  rewrite Hlen. replace (5 + len body - 5) with (len body) by lia.
  assert (0 ≤ len body ≤ 65000) as Hb by (unfold os_len, os_limit in Hlim; rewrite Hc, length_app in Hlim; unfold len; lia).
  rewrite !wrap_small by (unfold in_u; try rewrite wrap_small; unfold in_u; lia).
  assert ((if os_swap os then reverse (native 4 (len body)) else native 4 (len body)) = be_bytes 4 (len body)) as ->
    by (exact (wire_native os 4 (len body) Hsw)).
  destruct Hh as [_ (b & rest & Hch & Hlb)]. rewrite os_chain_first in Hch. simplify_eq.
  unfold sendable in Hsend. rewrite os_chain_first in Hsend. apply Forall_cons_1 in Hsend as [[Hbok Hbne] Hrest].
  destruct (block_overwrite (os_first os) (be_bytes 4 (len body)) Hbok) as (d & Hd & Hbok' & Hcont');
    [rewrite length_be_bytes; lia|].
  rewrite Z.add_0_r, Hd, bind_Ok. eexists. split; [done|]. unfold sendable. rewrite os_chain_with_first. split.
  - constructor; [|done]. split; [done|]. rewrite Hcont'. intros [E _]%app_eq_nil.
    apply (f_equal length) in E. by rewrite length_be_bytes in E.
  - unfold os_content in Hc. rewrite os_chain_first, fmap_cons, mjoin_cons in Hc.
    rewrite fmap_cons, mjoin_cons, Hcont', length_be_bytes, <- app_assoc. f_equal.
    rewrite <- !drop_app_le by lia. by rewrite Hc.
Qed.

(** Starting a message in the first block of a new stream. *)
Definition start_header (ty : Z) (os : OutputStream) : result OutputStream :=
  '(_, os) ← write_uint 0 os; '(_, os) ← write_octet ty os; Ok os.

Lemma adjust_fits n s :
  os_writable s = true → b_wr (os_cur s) + n ≤ b_capacity (os_cur s) →
  adjust (adjust_fuel s) n s = Ok (0, b_wr (os_cur s), OutputStream.with_cur (with_wr (b_wr (os_cur s) + n) (os_cur s)) s).
Proof. intros Hw Hf. unfold adjust_fuel. cbn [adjust]. by rewrite Hw, (proj2 (Z.leb_le _ _)). Qed.

Lemma os_store_inv buf x s s' :
  os_store buf x s = Ok s' →
  os_done s' = os_done s ∧ b_wr (os_cur s') = b_wr (os_cur s) ∧ b_capacity (os_cur s') = b_capacity (os_cur s) ∧
  os_writable s' = os_writable s.
Proof.
  unfold os_store. intros Hst. apply bind_inv in Hst as (d & Hd & Hs'). inv_ok.
  apply store_length in Hd. unfold b_capacity. cbn. split_and!; done || lia.
Qed.

Lemma start_header_ok ty size :
  5 ≤ size < 2 ^ 61 ∨ size = 0 →
  ∃ os, start_header ty (OutputStream_new size) = Ok os ∧ os_ok os ∧ headed 5 os ∧ os_swap os = little_endian ∧
    os_content os = be_bytes 4 0 ++ be_bytes 1 ty.
Proof.
  intros Hsize. destruct (new_stream_ok size) as (Hs0 & Hc0 & Hw0); [lia|].
  assert (5 ≤ b_capacity (os_cur (OutputStream_new size))) as Hcap.
  { unfold OutputStream_new. cbn [on_block os_cur]. set (n := if _ =? _ then _ else _).
    change (b_capacity (mb_align (new_block n))) with (b_capacity (new_block n)).
    destruct (new_block_ok n) as (_ & _ & ->); subst n; unfold DEFAULT_BUFSIZE, MAX_ALIGNMENT; destruct (size =? 0) eqn:E; b2p; lia. }
  assert (b_wr (os_cur (OutputStream_new size)) = 0) as Hwr by done.
  assert (os_done (OutputStream_new size) = []) as Hdone by done.
  unfold start_header. set (s0 := OutputStream_new size) in *.
  assert (os_len s0 = 0) as Hz by (unfold os_len; by rewrite Hc0).
  destruct (write_uint_appends 0 s0) as (s1 & Hw1 & Hs1 & Hsw1 & Hc1 & _); [done|done|rewrite Hz, length_be_bytes; unfold os_limit; lia|].
  rewrite Hw1, bind_Ok. destruct (write_1_appends ty s1) as (s2 & Hw2 & Hs2 & Hsw2 & Hc2 & _);
    [done|congruence|rewrite (os_len_app _ _ _ Hc1), Hz, !length_be_bytes; unfold os_limit; lia|].
  unfold write_octet. rewrite Hw2, bind_Ok. exists s2. rewrite Hc1, Hc0 in Hc2. split_and!; [done|done| |congruence|done].
  assert (os_done s1 = [] ∧ b_wr (os_cur s1) = 4 ∧ b_capacity (os_cur s1) = b_capacity (os_cur s0)) as (Hd1 & Hwr1 & Hcap1).
  { unfold write_uint, write_4 in Hw1. rewrite adjust_fits in Hw1 by (apply Hs0 || (unfold INT_SIZE; lia)).
    rewrite bind_Ok in Hw1. cbn [Z.eqb] in Hw1. apply bind_inv in Hw1 as (x & _ & Hw1).
    apply bind_inv in Hw1 as (s1' & Hst & Hw1). inv_ok. apply os_store_inv in Hst as (Ed & Ew & Ec & _).
    cbn [os_done os_cur OutputStream.with_cur with_wr b_wr] in Ed, Ew. rewrite Ed, Ew, Ec, Hwr. done. }
  assert (os_done s2 = []) as Hd2.
  { unfold write_1 in Hw2. rewrite adjust_fits in Hw2 by (apply Hs1 || (unfold OCTET_SIZE; lia)).
    rewrite bind_Ok in Hw2. cbn [Z.eqb] in Hw2. apply bind_inv in Hw2 as (x & _ & Hw2).
    apply bind_inv in Hw2 as (s2' & Hst & Hw2). inv_ok. apply os_store_inv in Hst as (? & _). cbn in *. congruence. }
  unfold headed, os_chain. unfold os_content, os_chain in Hc2. rewrite Hd2 in *. cbn [app fmap list_fmap mjoin list_join] in *.
  rewrite app_nil_r in Hc2. split; [|exists (os_cur s2), []; split; [done|]].
  - apply Forall_singleton. rewrite Hc2. done.
  - rewrite Hc2. done.
Qed.

End sending.
