(* ===== verification/MsgProtocol.v ===== *)
(** * MsgProtocol: framing of the message broker (msg/Msg.h, msg/MsgProtocol.cpp)

    A message is a header of five bytes (the size of the body, four bytes in
    network order, and the type) and a body that starts with the topic.  [send]
    writes the size into the first block and sends block by block; [parse]
    takes what has arrived and is called again until the message is complete. *)
From S2P Require Import Prelude Block OutputStream InputStream Marshalling Socket Framing.

Definition MSG_HEADER_LEN : Z := 5.
Definition MESSAGE_SIZE_OFFSET : Z := 0.
Definition MESSAGE_TYPE_OFFSET : Z := 4.

Definition Msg_Subscribe : Z := 0.
Definition Msg_UnSubscribe : Z := 1.
Definition Msg_Subscribe_OK : Z := 2.
Definition Msg_UnSubscribe_OK : Z := 3.
Definition Msg_Event : Z := 4.
Definition Msg_Unknow : Z := 5.
Definition Msg_Publish : Z := 6.
Definition Msg_Publish_OK : Z := 7.
Definition Msg_KeepAlive_Probe : Z := 8.
Definition Msg_KeepAlive_ACK : Z := 9.
Definition Msg_Publish_Buffer_Full : Z := 10.

Record Msg := mkMsg {
  m_type : Z;
  m_size : Z;
  m_off : Z;
  m_is : InputStream;
  m_topic : list Z;
  m_subscriberId : list Z;
  m_keepAliveTryTimes : Z;
  m_keepAliveTimeSpan : Z;
  m_enableBuffering : Z }.

Definition with_is (s : InputStream) (m : Msg) : Msg :=
  mkMsg (m_type m) (m_size m) (m_off m) s (m_topic m) (m_subscriberId m)
    (m_keepAliveTryTimes m) (m_keepAliveTimeSpan m) (m_enableBuffering m).
Definition with_off (o : Z) (m : Msg) : Msg :=
  mkMsg (m_type m) (m_size m) o (m_is m) (m_topic m) (m_subscriberId m)
    (m_keepAliveTryTimes m) (m_keepAliveTimeSpan m) (m_enableBuffering m).
Definition with_header (t n : Z) (m : Msg) : Msg :=
  mkMsg t n (m_off m) (m_is m) (m_topic m) (m_subscriberId m)
    (m_keepAliveTryTimes m) (m_keepAliveTimeSpan m) (m_enableBuffering m).
Definition with_topic (x : list Z) (m : Msg) : Msg :=
  mkMsg (m_type m) (m_size m) (m_off m) (m_is m) x (m_subscriberId m)
    (m_keepAliveTryTimes m) (m_keepAliveTimeSpan m) (m_enableBuffering m).
Definition with_subscriberId (x : list Z) (m : Msg) : Msg :=
  mkMsg (m_type m) (m_size m) (m_off m) (m_is m) (m_topic m) x
    (m_keepAliveTryTimes m) (m_keepAliveTimeSpan m) (m_enableBuffering m).
Definition with_keepAlive (tries span : Z) (m : Msg) : Msg :=
  mkMsg (m_type m) (m_size m) (m_off m) (m_is m) (m_topic m) (m_subscriberId m)
    tries span (m_enableBuffering m).
Definition with_enableBuffering (x : Z) (m : Msg) : Msg :=
  mkMsg (m_type m) (m_size m) (m_off m) (m_is m) (m_topic m) (m_subscriberId m)
    (m_keepAliveTryTimes m) (m_keepAliveTimeSpan m) x.

Section protocol.

Context `{Allocator, Host, Uninit}.

(** [Msg ()]; the last three fields are not initialised. *)
Definition Msg_new : Msg :=
  mkMsg Msg_Unknow 0 0 (InputStream_new DEFAULT_BUFSIZE) [] [] uninit uninit uninit.

(** *** Receiving *)

(** [stream->recv (is.rdPtr () + off, n)]; [n] is an [int], [recv] takes a
    [size_t], and its result is stored in an [int]. *)
Definition recv_msg (off n : Z) (m : Msg) (sk : socket) : result (Z * Msg * socket) :=
  let s := m_is m in
  '(r, b, sk) ← recv_at (b_rd (is_start s) + off) (u64 n) (is_start s) sk;
  Ok (s32 r, with_is (with_start b s) m, sk).

(** The header part: [Some] result when [parse] returns here. *)
Definition parse_header (m : Msg) (sk : socket) : result (option Z * Msg * socket) :=
  let bytesToRead := s32 (u32 (MSG_HEADER_LEN - m_off m)) in
  '(bytesRead, m, sk) ← recv_msg (m_off m) bytesToRead m sk;
  if bytesRead =? -1 then Ok (Some (-1), m, sk)
  else if bytesRead =? 0 then Ok (Some (-1), m, sk)
  else
    let m := with_off (u32 (m_off m + bytesRead)) m in
    if m_off m <? MSG_HEADER_LEN then Ok (Some 1, m, sk)
    else
      _ ← assert_ (m_off m =? MSG_HEADER_LEN);
      let b := is_start (m_is m) in
      ty ← load (b_rd b + MESSAGE_TYPE_OFFSET) 1 (b_data b);
      '(_, size, s) ← read_uint (m_is m);
      let m := with_is s (with_header (le_value ty) (default (m_size m) size) m) in
      s ← is_grow (u32 (MSG_HEADER_LEN + m_size m)) (m_is m);
      '(_, s) ← skip_bytes MSG_HEADER_LEN s;
      Ok (None, with_is s m, sk).

(** The fields a message carries after its topic, by its type. *)
Definition parse_fields (m : Msg) : result Msg :=
  '(_, x, s) ← read_string (m_is m);
  let m := with_topic x (with_is s m) in
  if (m_type m =? Msg_Subscribe) || (m_type m =? Msg_UnSubscribe) || (m_type m =? Msg_Subscribe_OK) then
    '(_, x, s) ← read_string (m_is m);
    let m := with_subscriberId x (with_is s m) in
    if m_type m =? Msg_Subscribe_OK then
      '(_, tries, s) ← read_int (m_is m);
      '(_, span, s) ← read_int s;
      Ok (with_is s (with_keepAlive (default (m_keepAliveTryTimes m) tries) (default (m_keepAliveTimeSpan m) span) m))
    else Ok m
  else if m_type m =? Msg_Event then
    _ ← assert_ (negb (bool_decide (m_topic m = [])));
    Ok m
  else if m_type m =? Msg_Publish_OK then
    '(_, tries, s) ← read_int (m_is m);
    '(_, span, s) ← read_int s;
    '(_, buffering, s) ← read_boolean s;
    Ok (with_enableBuffering (default (m_enableBuffering m) buffering)
         (with_is s (with_keepAlive (default (m_keepAliveTryTimes m) tries) (default (m_keepAliveTimeSpan m) span) m)))
  else Ok m.

(** The body part. *)
Definition parse_body (m : Msg) (sk : socket) : result (Z * Msg * socket) :=
  let done := u32 (m_off m - MSG_HEADER_LEN) in
  let bytesToRead := s32 (u32 (m_size m - done)) in
  '(bytesRead, m, sk) ← recv_msg done bytesToRead m sk;
  if bytesRead =? -1 then Ok (if sk_errno sk =? EWOULDBLOCK then 0 else -1, m, sk)
  else if bytesRead =? 0 then Ok (-1, m, sk)
  else
    let m := with_off (u32 (m_off m + bytesRead)) m in
    if bytesRead <? bytesToRead then Ok (1, m, sk)
    else
      _ ← assert_ (m_off m =? u32 (MSG_HEADER_LEN + m_size m));
      m ← parse_fields m;
      Ok (0, m, sk).

(** [parse (stream, msg)]: -1 error, 0 complete, 1 half read. *)
Definition parse (m : Msg) (sk : socket) : result (Z * Msg * socket) :=
  m ← (if m_off m =? 0 then s ← is_grow MSG_HEADER_LEN (m_is m); Ok (with_is s m) else Ok m);
  '(ret, m, sk) ← (if m_off m <? MSG_HEADER_LEN then parse_header m sk else Ok (None, m, sk));
  match ret with
  | Some r => Ok (r, m, sk)
  | None => parse_body m sk
  end.

(** *** Sending *)

(** [start (type, os)]. *)
Definition start (type : Z) (os : OutputStream) : result OutputStream :=
  '(_, os) ← write_uint 0 os;
  '(_, os) ← write_octet type os;
  Ok os.

(** [toString (os)]. *)
Fixpoint toString_loop (chain : list Block) : result (list Z) :=
  match chain with
  | [] => Ok []
  | i :: chain =>
      _ ← assert_ (negb (b_length i =? 0));
      bs ← load (b_rd i) (b_length i) (b_data i);
      rest ← toString_loop chain;
      Ok (bs ++ rest)
  end.

Definition toString (os : OutputStream) : result (list Z) := toString_loop (os_chain os).

(** [fromString (str)]: the bytes of [c_str ()] end in a zero. *)
Definition fromString (str : list Z) : result OutputStream :=
  os ← OutputStream_data (str ++ [0]) (len str);
  Ok (OutputStream.with_cur (with_wr (b_wr (os_cur os) + len str) (os_cur os)) os).

(** [check (osStr)]: an event has a topic. *)
Definition check (osStr : list Z) : result unit :=
  ty ← load MESSAGE_TYPE_OFFSET 1 (osStr ++ [0]);
  if negb (le_value ty =? Msg_Event) then Ok tt
  else
    s ← is_grow 65536 (m_is Msg_new);
    d ← store (b_rd (is_start s)) osStr (b_data (is_start s));
    '(_, s) ← skip_bytes MSG_HEADER_LEN (with_start (with_data d (is_start s)) s);
    '(_, topic, s) ← read_string s;
    assert_ (negb (bool_decide (topic = []))).

Fixpoint send_loop (chain : list Block) (sk : socket) : result (Z * socket) :=
  match chain with
  | [] => Ok (0, sk)
  | i :: chain =>
      _ ← assert_ (negb (b_length i =? 0));
      bs ← load (b_rd i) (b_length i) (b_data i);
      let '(n, sk) := send bs sk in
      if n >? 0 then send_loop chain sk
      else if n =? -1 then Ok (-1, sk)
      else if n =? 0 then Ok (-1, sk)
      else send_loop chain sk
  end.

(** [send (stream, os)]. *)
Definition send_msg (os : OutputStream) (sk : socket) : result (Z * OutputStream * socket) :=
  str ← toString os;
  _ ← check str;
  os ← patch_length MSG_HEADER_LEN MESSAGE_SIZE_OFFSET os;
  '(r, sk) ← send_loop (os_chain os) sk;
  Ok (r, os, sk).

End protocol.

(** ** Lemmas: receiving one message *)

Section receiving.

Context `{Allocator, Host, Uninit} {may : nat → Prop}.

(** Between two calls of [parse], [off] bytes of the frame are in the buffer
    and the others, then [rest], are to come, with stalls where [may] allows. *)
Record receiving (ty : Z) (body rest : list Z) (off : nat) (m : Msg) (sk : socket) : Prop := mkReceiving {
  rc_off : m_off m = Z.of_nat off;
  rc_paced : paced may off (sk_in sk);
  rc_data : data_of (sk_in sk) = drop off (frame ty body) ++ rest;
  rc_heap : heap_block (is_start (m_is m));
  rc_cap : 5 ≤ b_capacity (is_start (m_is m));
  rc_swap : is_swap (m_is m) = little_endian;
  rc_good : is_good (m_is m) = true;
  rc_bytes : take off (b_data (is_start (m_is m))) = take off (frame ty body);
  rc_head : (0 < off < 5)%nat → b_rd (is_start (m_is m)) = 0;
  rc_body : (5 ≤ off)%nat → b_rd (is_start (m_is m)) = 5 ∧ m_type m = ty ∧ m_size m = len body ∧
                            5 + len body ≤ b_capacity (is_start (m_is m)) ∧
                            b_wr (is_start (m_is m)) = 5 + len body }.

Lemma new_receiving ty body rest sk :
  paced may 0 (sk_in sk) → data_of (sk_in sk) = frame ty body ++ rest →
  receiving ty body rest 0 Msg_new sk.
Proof.
  intros Hf Hd. destruct (fresh_heap_block DEFAULT_BUFSIZE) as (Hh & Hc); [unfold DEFAULT_BUFSIZE; lia|].
  split; try done; try (intros; lia). cbn [Msg_new m_is InputStream_new on_input is_start].
  rewrite Hc. unfold DEFAULT_BUFSIZE. lia.
Qed.

(** One [recv] into the message: [got] is the next piece of the frame. *)
Lemma recv_msg_ok n off at_ m sk x rest :
  moving sk → paced may off (sk_in sk) → data_of (sk_in sk) = x ++ rest → n = #x → 0 < n < 2 ^ 31 →
  b_rd (is_start (m_is m)) + at_ = Z.of_nat off → Z.of_nat off + n ≤ b_capacity (is_start (m_is m)) →
  ∃ got x' d sk', recv_msg at_ n m sk = Ok (#got, with_is (with_start (with_data d (is_start (m_is m))) (m_is m)) m, sk') ∧
    x = got ++ x' ∧ got ≠ [] ∧ paced may (off + length got) (sk_in sk') ∧ data_of (sk_in sk') = x' ++ rest ∧
    length d = length (b_data (is_start (m_is m))) ∧
    take (off + length got) d = take off (b_data (is_start (m_is m))) ++ got.
Proof.
  intros Hmv Hf Hd Hn Hpos Hoff Hcap. unfold recv_msg. rewrite Hoff, (wrap_small 64 n) by (unfold in_u; lia).
  destruct (recv_at_moving may off (Z.of_nat off) n (is_start (m_is m)) sk)
    as (got & ds & d & -> & Hst & Hne & Hle & Hds & Hsplit); try done; [lia| |lia|].
  { rewrite Hd. destruct x; [cbn in Hn; lia|done]. }
  rewrite bind_Ok, swrap_small by (unfold in_s; lia). rewrite Hd in Hsplit.
  assert (∃ x', x = got ++ x' ∧ data_of ds = x' ++ rest) as (x' & Hx & Hds').
  { apply app_eq_inv in Hsplit as [(x' & ? & ?)|(y & -> & ->)]; [by exists x'|].
    rewrite length_app in Hle. destruct y as [|c y]; [|cbn in Hle; lia]. exists []. by rewrite !app_nil_r. }
  exists got, x', d, (with_in ds sk). split_and!; try done; [by apply store_length in Hst|].
  apply store_take in Hst. by rewrite Nat2Z.id in Hst.
Qed.

(** The header part of [parse]: half of it, or all of it. *)
Lemma parse_header_ok ty body rest off m sk :
  receiving ty body rest off m sk → moving sk → (off < 5)%nat → b_rd (is_start (m_is m)) = 0 → 5 + len body < 2 ^ 31 →
  ∃ off' m' sk' ret, parse_header m sk = Ok (ret, m', sk') ∧ receiving ty body rest off' m' sk' ∧
    ((ret = Some 1 ∧ (off < off' < 5)%nat) ∨ (ret = None ∧ off' = 5%nat)).
Proof.
  intros [Hoff Hfl Hdata Hheap Hcap Hsw Hgd Hbytes _ _] Hmv Hlt Hrd Hbody. unfold parse_header, MSG_HEADER_LEN.
  rewrite Hoff, (wrap_small 32 (5 - _)), swrap_small by (unfold in_u, in_s; lia).
  set (hdr := be_bytes 4 (len body) ++ [ty]).
  assert (frame ty body = hdr ++ body) as Hframe by (unfold frame, hdr; by rewrite app_assoc).
  assert (length hdr = 5%nat) as Hlh by (unfold hdr; by rewrite length_app, length_be_bytes).
  rewrite Hframe, drop_app_le, <- app_assoc in Hdata by lia.
  destruct (recv_msg_ok (5 - Z.of_nat off) off (Z.of_nat off) m sk (drop off hdr) (body ++ rest))
    as (got & x' & d & sk' & -> & Hx & Hne & Hfl' & Hdata' & Hld & Htake);
    [done|done|done|rewrite length_drop; lia|lia|lia|lia|]. rewrite bind_Ok.
  assert (0 < length got)%nat as Hlg by (destruct got; [done|cbn; lia]).
  pose proof (f_equal length Hx) as Hlx. rewrite length_drop, length_app in Hlx.
  rewrite !(proj2 (Z.eqb_neq _ _)) by lia. cbn [m_off with_is with_off].
  rewrite Hoff, (wrap_small 32) by (unfold in_u; lia). rewrite <- Nat2Z.inj_add.
  destruct (take_drop_piece off hdr got x') as [Htk Hdr]; [lia|done|].
  assert (take (off + length got) d = take (off + length got) hdr) as Hd.
  { rewrite Htake, Htk, Hbytes, Hframe, take_app_le by lia. done. }
  destruct (heap_with_data _ d Hheap Hld) as [Hheap' Hcap'].
  destruct (_ <? 5) eqn:E; b2p.
  - eexists (off + length got)%nat, _, sk', _. split; [done|]. split; [|left; split; [done|lia]].
    split; try done; try (intros; lia).
    + rewrite Hdata', Hframe, drop_app_le, Hdr, <- app_assoc by lia. done.
    + by rewrite <- Hcap' in Hcap.
    + cbn -[frame]. rewrite Hd, Hframe, take_app_le by lia. done.
  - assert (off + length got = 5)%nat as H5 by lia. rewrite H5 in *. change (Z.of_nat 5 =? 5) with true.
    cbn [assert_]. rewrite bind_Ok. cbn [is_start m_is with_is with_off with_start m_size]. 
    set (s := with_start _ (m_is m)).
    destruct (open_header s ty (len body) (5 + len body)) as (s1 & s2 & s3 & Hld4 & Hru & Hg & Hsk & Hh3 & Hrd3 & Hcap3 & Hsw3 & Hgd3 & Hb3 & Hwr3);
      [done|done|done|unfold in_u, len in *; lia|unfold len in *; lia|cbn; rewrite Hd, take_ge by lia; done|].
    unfold MESSAGE_TYPE_OFFSET. cbn [is_start s with_start] in Hld4 |- *. rewrite Hld4, bind_Ok. cbn [m_is with_off with_is]. fold s.
    rewrite Hru, bind_Ok. cbn [m_size with_is with_header m_is from_option id]. rewrite (wrap_small 32) by (unfold in_u, len in *; lia).
    rewrite Hg, bind_Ok, Hsk, bind_Ok. eexists 5%nat, _, sk', None. split; [done|]. split; [|by right].
    split; try done; cbn -[frame b_capacity]; try (intros; lia).
    + rewrite Hdata', Hframe, drop_app_length' by done. rewrite <- Hdr, drop_ge by lia. done.
    + unfold len in *. lia.
    + by rewrite Hsw3.
    + by rewrite Hgd3.
Qed.

(** The body part of [parse] up to its fields. *)
Lemma parse_body_ok ty body rest off m sk :
  receiving ty body rest off m sk → moving sk → (5 ≤ off < 5 + length body)%nat → 5 + len body < 2 ^ 31 →
  ∃ off' m' sk', (off < off')%nat ∧ receiving ty body rest off' m' sk' ∧
    (((off' < 5 + length body)%nat ∧ parse_body m sk = Ok (1, m', sk')) ∨
     (off' = 5 + length body)%nat ∧ parse_body m sk = m2 ← parse_fields m'; Ok (0, m2, sk')).
Proof.
  intros [Hoff Hfl Hdata Hheap Hcap Hsw Hgd Hbytes _ Hb] Hmv Hlt Hbody. destruct Hb as (Hrd & Hty & Hsz & Hroom & Hwr); [lia|].
  unfold parse_body, MSG_HEADER_LEN. unfold len in *.
  rewrite Hoff, Hsz, (wrap_small 32 (_ - 5)) by (unfold in_u; lia).
  rewrite (wrap_small 32 (#body - _)), swrap_small by (unfold in_u, in_s; lia).
  pose proof (length_frame ty body) as Hlf.
  destruct (recv_msg_ok (#body - (Z.of_nat off - 5)) off (Z.of_nat off - 5) m sk (drop off (frame ty body)) rest)
    as (got & x' & d & sk' & -> & Hx & Hne & Hfl' & Hdata' & Hld & Htake);
    [done|done|done|rewrite length_drop; lia|lia|lia|lia|]. rewrite bind_Ok.
  assert (0 < length got)%nat as Hlg by (destruct got; [done|cbn; lia]).
  pose proof (f_equal length Hx) as Hlx. rewrite length_drop, length_app in Hlx.
  rewrite !(proj2 (Z.eqb_neq _ _)) by lia. cbn [m_off with_is with_off m_size].
  rewrite Hoff, Hsz, !(wrap_small 32) by (unfold in_u; lia). rewrite <- Nat2Z.inj_add.
  destruct (take_drop_piece off (frame ty body) got x') as [Htk Hdr]; [lia|done|].
  destruct (heap_with_data _ d Hheap Hld) as [Hheap' Hcap'].
  set (m' := with_off _ _). assert (receiving ty body rest (off + length got) m' sk') as Hm'.
  { split; try done; try (intros; lia).
    - by rewrite Hdr.
    - by rewrite <- Hcap' in Hcap.
    - change (take (off + length got) d = take (off + length got) (frame ty body)). by rewrite Htake, Hbytes, Htk.
    - intros _. rewrite <- Hcap' in Hroom. by split_and!. }
  exists (off + length got)%nat, m', sk'. split; [lia|]. split; [done|].
  destruct (_ <? _) eqn:E; b2p; [left; split; [lia|done]|right].
  split; [lia|]. rewrite (proj2 (Z.eqb_eq _ _)) by lia. cbn [assert_]. by rewrite bind_Ok.
Qed.

(** The buffer of a new message is given room for the header. *)
Lemma parse_grow_ok ty body rest off m sk :
  receiving ty body rest off m sk → (off < 5)%nat →
  ∃ m1, (if m_off m =? 0 then s ← is_grow MSG_HEADER_LEN (m_is m); Ok (with_is s m) else Ok m) = Ok m1 ∧
    receiving ty body rest off m1 sk ∧ b_rd (is_start (m_is m1)) = 0.
Proof.
  intros Hr Hlt. pose proof Hr as [Hoff Hfl Hdata Hheap Hcap Hsw Hgd Hbytes Hh _]. rewrite Hoff.
  destruct off as [|off]; [|rewrite (proj2 (Z.eqb_neq _ _)) by lia; exists m; split_and!; [done|done|apply Hh; lia]].
  destruct (is_grow_ok MSG_HEADER_LEN (m_is m)) as (s' & -> & Hh' & Hrd' & Hcap' & _ & Hsw' & Hgd' & _); [done|unfold MSG_HEADER_LEN; lia|].
  exists (with_is s' m). split_and!; try done. unfold MSG_HEADER_LEN in *.
  split; try done; try (intros; lia); cbn -[b_capacity]; [lia|congruence|congruence].
Qed.

(** A call of [parse] makes progress and comes to the fields at the end, if it
    finds bytes, and no stall behind a header it completes. *)
Lemma parse_step ty body rest off m sk :
  ¬ may 5%nat → receiving ty body rest off m sk → moving sk → (off < 5 + length body)%nat → body ≠ [] → 5 + len body < 2 ^ 31 →
  ∃ off' m' sk', (off < off')%nat ∧ receiving ty body rest off' m' sk' ∧
    (((off' < 5 + length body)%nat ∧ parse m sk = Ok (1, m', sk')) ∨
     (off' = 5 + length body)%nat ∧ parse m sk = m2 ← parse_fields m'; Ok (0, m2, sk')).
Proof.
  intros Hmay Hr Hmv Hlt Hne Hbody. assert (0 < length body)%nat as Hlb by (destruct body; [done|cbn; lia]).
  destruct (decide (5 ≤ off)%nat) as [H5|H5].
  { assert (parse m sk = parse_body m sk) as ->; [|by apply parse_body_ok].
    unfold parse, MSG_HEADER_LEN. pose proof (rc_off _ _ _ _ _ _ Hr) as Ho.
    rewrite (proj2 (Z.eqb_neq _ _)), bind_Ok, (proj2 (Z.ltb_ge _ _)), bind_Ok by lia. done. }
  destruct (parse_grow_ok ty body rest off m sk Hr ltac:(lia)) as (m1 & Hm1 & Hr1 & Hrd1).
  assert (parse m sk = '(ret, m, sk) ← parse_header m1 sk;
    match ret with Some r => Ok (r, m, sk) | None => parse_body m sk end) as ->.
  { unfold parse. rewrite Hm1, bind_Ok, (rc_off _ _ _ _ _ _ Hr1). unfold MSG_HEADER_LEN.
    by rewrite (proj2 (Z.ltb_lt _ _)) by lia. }
  destruct (parse_header_ok ty body rest off m1 sk) as (off2 & m2 & sk2 & ret & -> & Hr2 & [[-> Ho2]|[-> ->]]); [done|done|lia|done|done| |].
  - rewrite bind_Ok. exists off2, m2, sk2. split_and!; [lia|done|]. left. split; [lia|done].
  - rewrite bind_Ok. destruct (parse_body_ok ty body rest 5 m2 sk2) as (off3 & m3 & sk3 & ? & ? & ?);
      [done|eapply paced_moving; [apply Hr2|done]|lia|done|].
    exists off3, m3, sk3. split_and!; [lia|done|done].
Qed.

(** Waiting changes nothing for the message. *)
Lemma receiving_wait ty body rest off m sk :
  receiving ty body rest off m sk → receiving ty body rest off m (wait_input sk) ∧ moving (wait_input sk).
Proof.
  intros [Hoff Hfl Hdata Hheap Hcap Hsw Hgd Hbytes Hh Hb]. destruct (wait_input_ok may off sk Hfl) as (Hmv & Hp & Hd).
  split; [|done]. split; try done. by rewrite Hd.
Qed.

(** The upcalls of the reactor: [parse] again while the message is half read, each
    time when [select] has reported the socket. *)
Fixpoint parse_until (fuel : nat) (m : Msg) (sk : socket) : result (Z * Msg * socket) :=
  match fuel with
  | O => Fault OutOfFuel
  | S fuel => '(r, m, sk) ← parse m (wait_input sk); if r =? 1 then parse_until fuel m sk else Ok (r, m, sk)
  end.

Lemma parse_until_ok ty body rest fuel : ¬ may 5%nat → ∀ off m sk,
  receiving ty body rest off m sk → (off < 5 + length body)%nat → body ≠ [] → 5 + len body < 2 ^ 31 →
  (5 + length body ≤ off + fuel)%nat →
  ∃ m' sk', receiving ty body rest (5 + length body) m' sk' ∧
    parse_until fuel m sk = m2 ← parse_fields m'; Ok (0, m2, sk').
Proof.
  intros Hmay. induction fuel as [|fuel IH]; intros off m sk Hr Hlt Hne Hbody Hf; [lia|]. cbn [parse_until].
  destruct (receiving_wait _ _ _ _ _ _ Hr) as [Hrw Hmv].
  destruct (parse_step ty body rest off m (wait_input sk) Hmay Hrw Hmv Hlt Hne Hbody) as (off' & m' & sk' & Ho & Hr' & [[Hlt' ->]|[-> ->]]).
  - rewrite bind_Ok. cbn [Z.eqb Pos.eqb]. apply (IH off'); try done. lia.
  - exists m', sk'. split; [done|]. destruct (parse_fields m') as [m2|e]; [by rewrite !bind_Ok|done].
Qed.

(** What is left to read when the whole frame is in the buffer. *)
Lemma received_avail ty body rest m sk :
  receiving ty body rest (5 + length body) m sk →
  is_ok_in (m_is m) ∧ m_type m = ty ∧ ∃ more, avail (m_is m) = body ++ more.
Proof.
  intros [Hoff Hfl Hdata Hheap Hcap Hsw Hgd Hbytes _ Hb]. destruct Hb as (Hrd & Hty & Hsz & Hroom & Hwr); [lia|].
  set (data := b_data (is_start (m_is m))) in *. unfold b_capacity in *. fold data in Hroom, Hcap.
  split_and!; [|done|].
  - split; [|done]. unfold rd_ok, b_capacity. fold data. lia.
  - exists (drop (5 + length body) data). unfold avail, b_capacity. rewrite Hrd. fold data.
    pose proof (length_frame ty body) as Hlf.
    rewrite (take_ge (frame ty body)) in Hbytes by lia.
    unfold slice. rewrite take_ge by (rewrite length_drop; lia).
    rewrite <- (take_drop (5 + length body) data) at 1. rewrite Hbytes, drop_app_le by (rewrite Hlf; cbn; lia).
    reflexivity.
Qed.

(** *** The fields *)

(** What a sender puts in a message. *)
Record content := mkContent {
  c_type : Z;
  c_topic : list Z;
  c_subscriberId : list Z;
  c_keepAliveTryTimes : Z;
  c_keepAliveTimeSpan : Z;
  c_enableBuffering : Z;
  c_payload : list Z }.

Definition has_subscriber (ty : Z) : bool :=
  (ty =? Msg_Subscribe) || (ty =? Msg_UnSubscribe) || (ty =? Msg_Subscribe_OK).

(** The values of a message in the order of the wire, by its type. *)
Definition content_items (c : content) : list item :=
  IString (c_topic c) ::
  (if has_subscriber (c_type c) then [IString (c_subscriberId c)] else []) ++
  (if (c_type c =? Msg_Subscribe_OK) || (c_type c =? Msg_Publish_OK)
   then [IInt (c_keepAliveTryTimes c); IInt (c_keepAliveTimeSpan c)] else []) ++
  (if c_type c =? Msg_Publish_OK then [IBoolean (c_enableBuffering c)] else []).

Definition body_of (c : content) : list Z := mjoin (encode <$> content_items c) ++ c_payload c.

Definition content_ok (c : content) : Prop :=
  in_u 8 (c_type c) ∧ Forall item_ok (content_items c) ∧ (c_type c = Msg_Event → c_topic c ≠ []) ∧
  5 + len (body_of c) < 2 ^ 31.

(** The message a receiver ends up with: its fields are those of the type, and
    the payload is next to be read. *)
Definition received (c : content) (m : Msg) : Prop :=
  m_type m = c_type c ∧ m_topic m = c_topic c ∧
  (has_subscriber (c_type c) = true → m_subscriberId m = c_subscriberId c) ∧
  (c_type c = Msg_Subscribe_OK ∨ c_type c = Msg_Publish_OK →
     m_keepAliveTryTimes m = c_keepAliveTryTimes c ∧ m_keepAliveTimeSpan m = c_keepAliveTimeSpan c) ∧
  (c_type c = Msg_Publish_OK → m_enableBuffering m = c_enableBuffering c) ∧
  is_ok_in (m_is m) ∧ ∃ more, avail (m_is m) = c_payload c ++ more.

Lemma read_int_consumes x : in_s 32 x → consumes read_int true (Some x) (be_bytes 4 x).
Proof. intros Hx. apply (read_signed_consumes 4 4 32); [done|done|lia|done]. Qed.

(** The keep-alive values, read one after the other. *)
Lemma read_keepAlive s a b rest :
  is_ok_in s → in_s 32 a → in_s 32 b → avail s = be_bytes 4 a ++ be_bytes 4 b ++ rest →
  ∃ s1 s2, read_int s = Ok (true, Some a, s1) ∧ read_int s1 = Ok (true, Some b, s2) ∧
    is_ok_in s2 ∧ avail s2 = rest.
Proof.
  intros Hs Ha Hb Hav. destruct (read_int_consumes a Ha s _ Hs Hav) as (s1 & Hr1 & Hs1 & Hav1).
  destruct (read_int_consumes b Hb s1 _ Hs1 Hav1) as (s2 & Hr2 & Hs2 & Hav2). by exists s1, s2.
Qed.

Lemma parse_fields_ok c m more :
  content_ok c → is_ok_in (m_is m) → m_type m = c_type c → avail (m_is m) = body_of c ++ more →
  ∃ m2, parse_fields m = Ok m2 ∧ received c m2.
Proof.
  intros (_ & Hitems & Hev & _) Hs Hty Hav. unfold body_of, content_items in *. unfold parse_fields.
  rewrite fmap_cons, mjoin_cons, <- !app_assoc in Hav. apply Forall_cons_1 in Hitems as [Htopic Hitems].
  destruct (read_string_consumes (c_topic c) Htopic _ _ Hs Hav) as (s1 & -> & Hs1 & Hav1). rewrite bind_Ok.
  cbn [m_type with_topic with_is m_is]. rewrite Hty. fold (has_subscriber (c_type c)). unfold received.
  destruct (has_subscriber (c_type c)) eqn:Hsub.
  - apply Forall_cons_1 in Hitems as [Hid Hitems]. cbn [app] in Hav1.
    rewrite fmap_cons, mjoin_cons, <- !app_assoc in Hav1.
    destruct (read_string_consumes (c_subscriberId c) Hid _ _ Hs1 Hav1) as (s2 & -> & Hs2 & Hav2). rewrite bind_Ok.
    cbn [m_type with_topic with_is m_is with_subscriberId]. rewrite Hty.
    assert ((c_type c =? Msg_Publish_OK) = false) as Hpub.
    { unfold has_subscriber, Msg_Subscribe, Msg_UnSubscribe, Msg_Subscribe_OK, Msg_Publish_OK in *.
      apply Z.eqb_neq. intros E. by rewrite E in Hsub. }
    rewrite Hpub, orb_false_r in Hitems, Hav2. apply Z.eqb_neq in Hpub.
    destruct (c_type c =? Msg_Subscribe_OK) eqn:Hok; b2p; cbn [app] in Hitems, Hav2.
    + apply Forall_cons_1 in Hitems as [Ha Hitems]. apply Forall_cons_1 in Hitems as [Hb _].
      destruct (read_keepAlive s2 (c_keepAliveTryTimes c) (c_keepAliveTimeSpan c) (c_payload c ++ more))
        as (s3 & s4 & -> & Hr4 & Hs4 & Hav4); try done.
      rewrite bind_Ok, Hr4, bind_Ok. eexists. split; [done|]. split_and!; try done. by exists more.
    + eexists. split; [done|]. split_and!; try done; [by intros []|by exists more].
  - unfold has_subscriber in Hsub. b2p. assert ((c_type c =? Msg_Subscribe_OK) = false) as Hno by (by apply Z.eqb_neq).
    rewrite Hno in Hitems, Hav1. cbn [app orb] in Hitems, Hav1.
    destruct (c_type c =? Msg_Event) eqn:E4; b2p.
    + assert ((c_type c =? Msg_Publish_OK) = false) as Hpub by (rewrite E4; done). rewrite Hpub in Hav1.
      cbn [app] in Hav1. rewrite fmap_nil, mjoin_nil in Hav1. cbn [m_topic with_topic]. rewrite bool_decide_false by auto.
      cbn [negb assert_]. rewrite bind_Ok. eexists. split; [done|]. split_and!; try done; [intros []|intros|exists more]; done || by rewrite E4 in *.
    + destruct (c_type c =? Msg_Publish_OK) eqn:E7; b2p.
      * cbn [app] in Hitems, Hav1. apply Forall_cons_1 in Hitems as [Ha Hitems].
        apply Forall_cons_1 in Hitems as [Hb Hitems]. apply Forall_cons_1 in Hitems as [Hbo _].
        destruct (read_keepAlive s1 (c_keepAliveTryTimes c) (c_keepAliveTimeSpan c) (encode (IBoolean (c_enableBuffering c)) ++ c_payload c ++ more))
          as (s3 & s4 & -> & Hr4 & Hs4 & Hav4); try done.
        rewrite bind_Ok, Hr4, bind_Ok.
        destruct (read_boolean_consumes _ Hbo s4 _ Hs4 Hav4) as (s5 & -> & Hs5 & Hav5). rewrite bind_Ok.
        eexists. split; [done|]. split_and!; try done. by exists more.
      * cbn [app] in Hav1. rewrite fmap_nil, mjoin_nil in Hav1. eexists. split; [done|].
        split_and!; try done; [by intros []|by exists more].
Qed.

(** *** The buffer of a message that was received *)

(** Reading moves the read pointer and nothing else of the block. *)
Definition moves (s s' : InputStream) : Prop := ∃ rd, is_start s' = with_rd rd (is_start s).

#[export] Instance moves_preorder : PreOrder moves.
Proof.
  split.
  - intros s. exists (b_rd (is_start s)). by destruct (is_start s).
  - intros a b c [r Hr] [r' Hr']. exists r'. by rewrite Hr', Hr.
Qed.

Lemma is_adjust_moves n s r buf s' : is_adjust n s = (r, buf, s') → moves s s'.
Proof. unfold is_adjust. split_if; intros [= <- <- <-]; [by eexists|]. exists (b_rd (is_start s)). cbn. by destruct (is_start s). Qed.

Lemma read_n_moves k n s r x s' : read_n k n s = Ok (r, x, s') → moves s s'.
Proof.
  unfold read_n. destruct (is_adjust k s) as [[c buf] s1] eqn:E. apply is_adjust_moves in E. split_if; intros ?; by inv_ok.
Qed.

Lemma read_value_moves f k n s r x s' : read_value f (read_n k n) s = Ok (r, x, s') → moves s s'.
Proof. unfold read_value. intros ?. inv_ok. destruct x0 as [[? ?] ?]. inv_ok. by eapply read_n_moves. Qed.

Lemma read_boolean_moves s r x s' : read_boolean s = Ok (r, x, s') → moves s s'.
Proof.
  unfold read_boolean, read_octet, read_value, read_1. intros Hr. apply bind_inv in Hr as ([[? ?] s1] & Ho & Hr).
  apply bind_inv in Ho as ([[? ?] s2] & Hv1 & Ho). assert (s' = s2) as -> by (by inv_ok).
  destruct (_ <? _) in Hv1; inv_ok; [by eexists|].
  exists (b_rd (is_start s)). cbn. by destruct (is_start s).
Qed.

Lemma read_string_moves s r x s' : read_string s = Ok (r, x, s') → moves s s'.
Proof.
  unfold read_string, read_string_c. intros Hr. apply bind_inv in Hr as ([[r1 d] s1] & Hc & Hr).
  apply bind_inv in Hc as ([[r2 l] s2] & Hu & Hc). apply read_value_moves in Hu.
  assert (moves s2 s1) as Hv1.
  { destruct (_ >? 0); [|by inv_ok]. apply bind_inv in Hc as ([[r3 y] s3] & Ha & Hc).
    assert (s1 = s3) as -> by (destruct r3; by inv_ok). unfold read_char_array, read_numbers in Ha.
    apply bind_inv in Ha as ([[r4 z] s4] & Ha & Hb). assert (s3 = s4) as -> by (by inv_ok).
    unfold read_array in Ha. destruct (is_adjust _ s2) as [[c buf] s5] eqn:E. apply is_adjust_moves in E.
    destruct (c =? 0); by inv_ok. }
  etrans; [exact Hu|]. destruct r1; [|by inv_ok]. destruct d; [|by inv_ok]. apply bind_inv in Hr as (? & _ & Hr). by inv_ok.
Qed.

Lemma parse_fields_moves m m2 : parse_fields m = Ok m2 → moves (m_is m) (m_is m2).
Proof.
  unfold parse_fields. intros Hp. apply bind_inv in Hp as ([[? x] s1] & Hv1%read_string_moves & Hp).
  etrans; [exact Hv1|]. cbn [m_is with_topic with_is m_type] in Hp. destruct (_ || _)%bool.
  - apply bind_inv in Hp as ([[? ?] s2] & Hv2%read_string_moves & Hp). etrans; [exact Hv2|].
    cbn [m_is with_subscriberId with_topic with_is m_type] in Hp. destruct (_ =? _); [|by inv_ok].
    apply bind_inv in Hp as ([[? ?] s3] & Hv3%read_value_moves & Hp). etrans; [exact Hv3|].
    apply bind_inv in Hp as ([[? ?] s4] & Hv4%read_value_moves & Hp). by inv_ok.
  - destruct (_ =? _); [by inv_ok|]. destruct (_ =? _); [|by inv_ok].
    apply bind_inv in Hp as ([[? ?] s3] & Hv3%read_value_moves & Hp). etrans; [exact Hv3|].
    apply bind_inv in Hp as ([[? ?] s4] & Hv4%read_value_moves & Hp). etrans; [exact Hv4|].
    apply bind_inv in Hp as ([[? ?] s5] & Hv5%read_boolean_moves & Hp). by inv_ok.
Qed.

(** [parse] does not send. *)
Lemma recv_msg_same_output off n m sk r m' sk' : recv_msg off n m sk = Ok (r, m', sk') → same_output sk sk'.
Proof. unfold recv_msg. intros Hr. apply bind_inv in Hr as ([[? ?] sk1] & Hv%recv_at_same_output & Hr). by inv_ok. Qed.

Lemma parse_same_output m sk r m' sk' : parse m sk = Ok (r, m', sk') → same_output sk sk'.
Proof.
  unfold parse. intros Hp. apply bind_inv in Hp as (m1 & _ & Hp). apply bind_inv in Hp as ([[ret m2] sk1] & Hh & Hp).
  assert (same_output sk sk1) as Hv1.
  { destruct (_ <? _); [|by inv_ok]. unfold parse_header in Hh. apply bind_inv in Hh as ([[n m3] sk2] & Hv%recv_msg_same_output & Hh).
    repeat (destruct (_ =? _); [by inv_ok|]). destruct (_ <? _); [by inv_ok|].
    apply bind_inv in Hh as (_ & _ & Hh). apply bind_inv in Hh as (ty & _ & Hh). apply bind_inv in Hh as ([[? ?] ?] & _ & Hh).
    apply bind_inv in Hh as (? & _ & Hh). apply bind_inv in Hh as ([? ?] & _ & Hh). by inv_ok. }
  destruct ret; [by inv_ok|]. etrans; [exact Hv1|]. unfold parse_body in Hp.
  apply bind_inv in Hp as ([[n m3] sk2] & Hv%recv_msg_same_output & Hp).
  destruct (n =? -1); [by inv_ok|]. destruct (n =? 0); [by inv_ok|]. destruct (_ <? _) in Hp; [by inv_ok|].
  apply bind_inv in Hp as (_ & _ & Hp). apply bind_inv in Hp as (? & _ & Hp). by inv_ok.
Qed.

(** The block of [m], from its base to its write pointer, is [f]. *)
Definition holds (f : list Z) (m : Msg) : Prop :=
  b_wr (is_start (m_is m)) = #f ∧ take (length f) (b_data (is_start (m_is m))) = f ∧
  b_capacity (is_start (m_is m)) < 2 ^ 60.

Lemma received_holds ty body rest m m2 sk :
  receiving ty body rest (5 + length body) m sk → parse_fields m = Ok m2 → holds (frame ty body) m2.
Proof.
  intros [Hoff Hfl Hdata Hheap Hcap Hsw Hgd Hbytes _ Hb] Hp. destruct Hb as (Hrd & Hty & Hsz & Hroom & Hwr); [lia|].
  apply parse_fields_moves in Hp as [rd Hrd2]. pose proof (length_frame ty body) as Hlf. unfold holds. rewrite Hrd2. cbn -[frame].
  rewrite Hlf. split_and!; [rewrite Hwr; unfold len; lia| |apply Hheap]. rewrite Hbytes. by rewrite take_ge by lia.
Qed.

End receiving.

(** ** Lemmas: sending *)

Section sending.

Context `{Allocator, Host, Uninit}.

Lemma toString_ok chain : sendable chain → toString_loop chain = Ok (mjoin (b_content <$> chain)).
Proof.
  induction 1 as [|i chain [Hi Hne] _ IH]; [done|]. cbn [toString_loop].
  rewrite block_nonempty by done. cbn [assert_]. by rewrite bind_Ok, load_block, bind_Ok, IH, bind_Ok by done.
Qed.

Lemma send_loop_ok chain sk :
  sendable chain → sk_out sk = [] →
  ∃ sk', send_loop chain sk = Ok (0, sk') ∧ sk_sent sk' = sk_sent sk ++ mjoin (b_content <$> chain).
Proof.
  intros Hc. revert sk. induction Hc as [|i chain [Hi Hne] _ IH]; intros sk Ho; cbn [send_loop].
  - exists sk. rewrite fmap_nil, mjoin_nil, app_nil_r. done.
  - rewrite block_nonempty by done. cbn [assert_]. rewrite bind_Ok, load_block, bind_Ok, send_all by done.
    assert (0 < length (b_content i))%nat by (destruct (b_content i); [done|cbn; lia]).
    rewrite Z.gtb_ltb, (proj2 (Z.ltb_lt _ _)) by lia.
    destruct (IH (mkSocket (sk_in sk) (sk_waits sk) [] (sk_sent sk ++ b_content i) (sk_errno sk)) eq_refl) as (sk' & -> & Hs').
    exists sk'. split; [done|]. by rewrite Hs', fmap_cons, mjoin_cons, app_assoc.
Qed.

(** Sending leaves what is to be received. *)
Lemma send_keeps bs sk r sk' : send bs sk = (r, sk') → sk_in sk' = sk_in sk ∧ (sk_out sk = [] → sk_out sk' = []).
Proof. unfold send. destruct (sk_out sk) as [|[]]; intros [= <- <-]; by split. Qed.

Lemma send_loop_keeps chain : ∀ sk r sk', send_loop chain sk = Ok (r, sk') → sk_in sk' = sk_in sk ∧ (sk_out sk = [] → sk_out sk' = []).
Proof.
  induction chain as [|i chain IH]; intros sk r sk' Hs; cbn [send_loop] in Hs; [by inv_ok|].
  apply bind_inv in Hs as (_ & _ & Hs). apply bind_inv in Hs as (bs & _ & Hs).
  destruct (send bs sk) as [n sk1] eqn:E. apply send_keeps in E as [E1 E2].
  destruct (n >? 0); [|destruct (n =? -1); [|destruct (n =? 0)]]; try (inv_ok; done);
    apply IH in Hs as [Hk1 Hk2]; (split; [congruence|auto]).
Qed.

(** [check] lets an event with a topic pass, and every other message. *)
Lemma check_ok h ty body :
  length h = 4%nat → 5 + len body ≤ os_limit →
  (ty = Msg_Event → ∃ topic more, body = enc_string topic ++ more ∧ string_ok topic ∧ topic ≠ []) →
  check (h ++ [ty] ++ body) = Ok tt.
Proof.
  intros Hh Hlen Hev. unfold check.
  assert (load MESSAGE_TYPE_OFFSET 1 ((h ++ [ty] ++ body) ++ [0]) = Ok [ty]) as ->.
  { unfold MESSAGE_TYPE_OFFSET. rewrite load_slice; [|lia|lia|rewrite !length_app, Hh; cbn [length]; lia].
    unfold slice. rewrite <- app_assoc, drop_app_length' by done. done. }
  rewrite bind_Ok. change (le_value [ty]) with (ty + 0). rewrite Z.add_0_r.
  destruct (ty =? Msg_Event) eqn:E; b2p; cbn [negb]; [|done].
  destruct (Hev E) as (topic & more & -> & Htopic & Hne). unfold os_limit, len in *.
  destruct (fresh_heap_block DEFAULT_BUFSIZE) as [Hheap _]; [unfold DEFAULT_BUFSIZE; lia|].
  destruct (is_grow_ok 65536 (m_is Msg_new) Hheap) as (s & -> & Hh' & Hrd & Hcap & _ & Hsw & Hgd & _); [lia|].
  rewrite bind_Ok, Hrd. set (str := h ++ [ty] ++ enc_string topic ++ more).
  assert (length str = (5 + length (enc_string topic ++ more))%nat) as Hlstr.
  { unfold str. len_lia. }
  unfold b_capacity in *.
  destruct (store_ok 0 str (b_data (is_start s))) as (d & Hd & Hld & _); [lia|lia|]. rewrite Hd, bind_Ok.
  unfold skip_bytes, b_capacity. cbn [is_start with_start with_data b_data b_rd]. rewrite Hrd, Hld.
  unfold MSG_HEADER_LEN. rewrite (proj2 (Z.leb_le _ _)) by lia. rewrite bind_Ok.
  set (s1 := with_start _ _). apply store_take in Hd. change (take (length str) d = str) in Hd.
  assert (avail s1 = enc_string topic ++ more ++ drop (length str) d) as Hav.
  { unfold avail, b_capacity. cbn [s1 is_start with_start b_data b_rd with_rd with_data].
    unfold slice. rewrite take_ge by (rewrite length_drop; lia).
    change (Z.to_nat (0 + 5)) with 5%nat. rewrite <- (take_drop (length str) d) at 1.
    rewrite Hd. unfold str at 1.
    rewrite (app_assoc h), <- app_assoc, drop_app_length' by (rewrite length_app, Hh; done).
    by rewrite <- app_assoc. }
  assert (is_ok_in s1) as Hs1.
  { split; [|split; [exact Hsw|exact Hgd]]. unfold rd_ok, b_capacity. cbn [s1 is_start with_start b_data b_rd with_rd with_data]. lia. }
  destruct (read_string_consumes topic Htopic s1 _ Hs1 Hav) as (s2 & -> & _).
  rewrite bind_Ok, bool_decide_false by done. done.
Qed.

(** [send] of a stream that starts with a header. *)
Lemma send_msg_ok os h ty body sk :
  os_ok os → headed 5 os → os_swap os = little_endian → os_len os ≤ os_limit →
  os_content os = h ++ [ty] ++ body → length h = 4%nat → sk_out sk = [] →
  (ty = Msg_Event → ∃ topic more, body = enc_string topic ++ more ∧ string_ok topic ∧ topic ≠ []) →
  ∃ os' sk', send_msg os sk = Ok (0, os', sk') ∧ sk_sent sk' = sk_sent sk ++ frame ty body.
Proof.
  intros Hs Hhd Hsw Hlim Hc Hh Hout Hev. unfold send_msg, toString.
  rewrite toString_ok by (by eapply headed_sendable). fold (os_content os). rewrite Hc, bind_Ok.
  rewrite check_ok; [|done| |done].
  2: { unfold os_len in Hlim. rewrite Hc, !length_app, Hh in Hlim. unfold len. cbn [length] in Hlim. lia. }
  rewrite bind_Ok. unfold MSG_HEADER_LEN, MESSAGE_SIZE_OFFSET.
  destruct (patch_length_ok os (h ++ [ty]) body Hs Hhd Hsw Hlim) as (os' & -> & Hsend & Hcont);
    [by rewrite Hc, app_assoc|by rewrite length_app, Hh|]. rewrite bind_Ok.
  destruct (send_loop_ok (os_chain os') sk Hsend Hout) as (sk' & -> & Hsent). rewrite bind_Ok.
  exists os', sk'. split; [done|]. rewrite Hsent, Hcont. unfold frame.
  by rewrite drop_app_length' by done.
Qed.

End sending.

(** ** Properties *)

Section receivers.

Context `{Allocator, Host, Uninit}.

(** Bytes to come bound the number of calls of [parse]. *)
Definition receive_message (sk : socket) : result (Z * Msg * socket) :=
  parse_until (length (data_of (sk_in sk))) Msg_new sk.

(** [n] messages, each into a new [Msg]. *)
Fixpoint receive_messages (n : nat) (sk : socket) : result (list Msg * socket) :=
  match n with
  | O => Ok ([], sk)
  | S n =>
      '(r, m, sk) ← receive_message sk;
      if r =? 0 then '(ms, sk) ← receive_messages n sk; Ok (m :: ms, sk) else Ok ([], sk)
  end.

Definition frame_of (c : content) : list Z := frame (c_type c) (body_of c).

Lemma body_nonempty c : body_of c ≠ [].
Proof. unfold body_of, content_items. rewrite fmap_cons, mjoin_cons. cbn [encode]. unfold enc_string. done. Qed.

Lemma receive_message_ok (may : nat → Prop) c sk rest :
  content_ok c → ¬ may 5%nat → paced may 0 (sk_in sk) → data_of (sk_in sk) = frame_of c ++ rest →
  ∃ m sk', receive_message sk = Ok (0, m, sk') ∧ received c m ∧
    paced may (length (frame_of c)) (sk_in sk') ∧ data_of (sk_in sk') = rest.
Proof.
  intros Hc Hmay Hfl Hdata. unfold receive_message. pose proof Hc as (_ & _ & _ & Hlen).
  pose proof (body_nonempty c) as Hne. pose proof (length_frame (c_type c) (body_of c)) as Hlf. fold (frame_of c) in Hlf.
  destruct (parse_until_ok (c_type c) (body_of c) rest (length (data_of (sk_in sk))) Hmay 0 Msg_new sk)
    as (m' & sk' & Hr & ->); [by apply new_receiving|lia|done|done|rewrite Hdata, length_app; lia|].
  destruct (received_avail _ _ _ _ _ Hr) as (Hs & Hty & more & Hav).
  destruct (parse_fields_ok c m' more Hc Hs Hty Hav) as (m2 & -> & Hrec). rewrite bind_Ok.
  exists m2, sk'. split_and!; try done; [rewrite Hlf; apply Hr|]. rewrite (rc_data _ _ _ _ _ _ Hr).
  rewrite drop_ge by (rewrite length_frame; lia). done.
Qed.

(** The same of one message. *)
Definition not_behind_header (i : nat) : Prop := i ≠ 5%nat.
Lemma behind_header : ¬ not_behind_header 5.
Proof. intros H5. by apply H5. Qed.

(** Where a stall does no harm: anywhere but right behind a header, where [parse]
    goes on to the body ([parse_would_block_completes]). *)
Fixpoint between_headers (cs : list content) (i : nat) : Prop :=
  match cs with
  | [] => True
  | c :: cs => i ≠ 5%nat ∧ ((length (frame_of c) ≤ i)%nat → between_headers cs (i - length (frame_of c)))
  end.

End receivers.

(** C29: the receiver gets the messages that were sent.  Whatever sequence of
    messages is on the wire (of all types, with a body under 2 GB, an event
    with a topic), and however the kernel cuts the bytes into pieces (inside a
    header, inside a length, across two messages), with any stalls of a socket
    that does not block except right behind a header, the calls of [parse], each
    made when the socket is readable, return each message complete, in order,
    with the type, topic, subscriber, keep-alive and buffering fields it was sent
    with and its payload next to be read; the bytes after the last message are
    left alone.  (At a stall right behind a header [parse] returns 0, complete,
    for an empty message: [parse_would_block_completes].) *)
Theorem messages_in_order `{Allocator, Host, Uninit} cs sk rest :
  Forall content_ok cs → paced (between_headers cs) 0 (sk_in sk) →
  data_of (sk_in sk) = mjoin (frame_of <$> cs) ++ rest →
  ∃ ms sk', receive_messages (length cs) sk = Ok (ms, sk') ∧ Forall2 received cs ms ∧
    data_of (sk_in sk') = rest.
Proof.
  intros Hcs. revert sk. induction Hcs as [|c cs Hc _ IH]; intros sk Hfl Hdata; cbn [length receive_messages].
  - exists [], sk. split_and!; [done|constructor|done].
  - rewrite fmap_cons, mjoin_cons, <- app_assoc in Hdata.
    edestruct (receive_message_ok (between_headers (c :: cs)) c sk) as (m & sk1 & -> & Hrec & Hfl1 & Hd1); [done|cbn; tauto|done|exact Hdata|].
    rewrite bind_Ok. cbn [Z.eqb].
    assert (paced (between_headers cs) 0 (sk_in sk1)) as Hfl2.
    { rewrite <- (Nat.add_0_r (length (frame_of c))) in Hfl1. apply paced_shift in Hfl1. eapply paced_impl; [|exact Hfl1].
      intros i [_ Hi]. cbn beta in Hi. replace (length (frame_of c) + i - length (frame_of c))%nat with i in Hi by lia. apply Hi. lia. }
    destruct (IH sk1 Hfl2 Hd1) as (ms & sk2 & -> & Hms & Hd2). rewrite bind_Ok.
    exists (m :: ms), sk2. split_and!; [done|by constructor|done].
Qed.

(** Two messages for the witnesses: a subscription acknowledged and an event. *)
Definition sample_ok : content := mkContent Msg_Subscribe_OK [116] [105; 100] 3 10 0 [].
Definition sample_event : content := mkContent Msg_Event [116] [] 0 0 0 [7; 8; 9].

Lemma sample_ok_ok : @content_ok host_le sample_ok.
Proof.
  split; [vm_compute; split; congruence|]. split; [|split; [done|vm_compute; done]].
  repeat (apply Forall_cons; split); [..|constructor]; cbn [item_ok]; unfold string_ok, in_s; cbn;
    repeat (split || apply Forall_cons || apply Forall_nil); unfold is_byte; lia.
Qed.

Lemma sample_event_ok : @content_ok host_le sample_event.
Proof.
  split; [vm_compute; split; congruence|]. split; [|split; [done|vm_compute; done]].
  repeat (apply Forall_cons; split); [..|constructor]; cbn [item_ok]; unfold string_ok, in_s; cbn;
    repeat (split || apply Forall_cons || apply Forall_nil); unfold is_byte; lia.
Qed.

(** The bytes of both messages, cut after the second byte and seven more, with
    stalls inside the header and the body of the first. *)
Definition sample_wire : list Z := @frame_of host_le sample_ok ++ @frame_of host_le sample_event.
Definition sample_pieces : socket :=
  mkSocket [Data (take 2 sample_wire); Fails EWOULDBLOCK; Data (take 7 (drop 2 sample_wire)); Fails EWOULDBLOCK; Data (drop 9 sample_wire)] [] [] [] 0.

Lemma messages_in_order_witness :
  ∃ m1 m2 sk', @receive_messages zero_memory host_le uninit_7 2 sample_pieces = Ok ([m1; m2], sk') ∧
    m_topic m1 = [116] ∧ m_subscriberId m1 = [105; 100] ∧ m_topic m2 = [116].
Proof.
  destruct (@messages_in_order zero_memory host_le uninit_7 [sample_ok; sample_event] sample_pieces [])
    as (ms & sk' & Hr & Hms & _).
  - exact (Forall_cons_2 _ _ _ sample_ok_ok (Forall_cons_2 _ _ _ sample_event_ok (Forall_nil_2 _))).
  - repeat split; first [discriminate | intros Hl; exfalso; vm_compute in Hl; lia].
  - vm_compute. reflexivity.
  - destruct ms as [|m1 [|m2 [|m3 ms]]]; [inversion Hms|inversion Hms as [|? ? ? ? ? Hn]; inversion Hn| |
      inversion Hms as [|? ? ? ? ? Hn]; inversion Hn as [|? ? ? ? ? Hn2]; inversion Hn2].
    inversion Hms as [|? ? ? ? Hm1 Hn]. inversion Hn as [|? ? ? ? Hm2 _].
    exists m1, m2, sk'. split; [exact Hr|]. destruct Hm1 as (_ & Ht1 & Hid1 & _). destruct Hm2 as (_ & Ht2 & _).
    exact (conj Ht1 (conj (Hid1 eq_refl) Ht2)).
Defined.

(** *** Sender and receiver together *)

(** A sender builds a message: header, fields, payload. *)
Definition compose `{Allocator, Host} (c : content) (size : Z) : result OutputStream :=
  os ← start (c_type c) (OutputStream_new size);
  os ← write_items (content_items c) os;
  '(_, os) ← write_octet_array (c_payload c) (len (c_payload c)) os;
  Ok os.

Lemma compose_ok `{Allocator, Host, Uninit} c size :
  content_ok c → 5 + len (body_of c) ≤ os_limit → 5 ≤ size < 2 ^ 61 ∨ size = 0 →
  ∃ os, compose c size = Ok os ∧ os_ok os ∧ headed 5 os ∧ os_swap os = little_endian ∧
    os_content os = be_bytes 4 0 ++ [c_type c] ++ body_of c.
Proof.
  intros (Hty & Hitems & _ & _) Hlim Hsize. unfold compose, body_of in *. unfold len in *. rewrite length_app in Hlim.
  destruct (start_header_ok (c_type c) size Hsize) as (os0 & Hst & Hs0 & Hh0 & Hsw0 & Hc0).
  change (start (c_type c)) with (start_header (c_type c)). rewrite Hst, bind_Ok.
  assert (os_len os0 = 5) as Hl0 by (unfold os_len; rewrite Hc0; reflexivity).
  destruct (write_items_append (content_items c) os0 Hitems Hs0 Hsw0) as (os1 & -> & Hs1 & Hc1 & Hsw1 & Hk1); [lia|].
  rewrite bind_Ok. destruct (write_bytes_appends (c_payload c) (len (c_payload c)) eq_refl os1 Hs1) as (os2 & Hw2 & Hs2 & Hsw2 & Hc2 & Hk2);
    [congruence|rewrite (os_len_app _ _ _ Hc1); lia|].
  unfold write_octet_array, len in *. rewrite Hw2, bind_Ok. exists os2. split_and!; [done|done|by apply Hk2, Hk1|congruence|].
  rewrite Hc2, Hc1, Hc0, <- !app_assoc. do 2 f_equal. cbn. f_equal. rewrite Z.mod_small; [done|].
  change 256 with (2 ^ 8). exact Hty.
Qed.

(** end to end.  A message of any type whose frame is at most 65000 bytes,
    built in a stream of any initial size with room for the header, passes
    [send] (no assertion fails, result 0) and puts on the wire a length field
    equal to the number of bytes after the header; a receiver that gets these
    bytes in any pieces, whatever follows them, has the message with all its
    fields and its payload. *)
Lemma send_then_parse `{Allocator, Host, Uninit} c size tx :
  content_ok c → 5 + len (body_of c) ≤ os_limit → 5 ≤ size < 2 ^ 61 ∨ size = 0 →
  sk_out tx = [] → sk_sent tx = [] →
  ∃ os os' tx', compose c size = Ok os ∧ send_msg os tx = Ok (0, os', tx') ∧ sk_sent tx' = frame_of c ∧
    ∀ rx rest, Forall flows (sk_in rx) → data_of (sk_in rx) = sk_sent tx' ++ rest →
    ∃ m rx', receive_message rx = Ok (0, m, rx') ∧ received c m ∧ data_of (sk_in rx') = rest.
Proof.
  intros Hc Hlim Hsize Hout Hsent. destruct (compose_ok c size Hc Hlim Hsize) as (os & Hcomp & Hs & Hh & Hsw & Hcont).
  destruct (send_msg_ok os (be_bytes 4 0) (c_type c) (body_of c) tx) as (os' & tx' & Hsend & Htx); try done.
  - unfold os_len, len in *. rewrite Hcont. len_lia.
  - intros Hev. destruct Hc as (_ & Hitems & Htop & _). unfold body_of, content_items in *.
    apply Forall_cons_1 in Hitems as [Htopic _]. rewrite fmap_cons, mjoin_cons, <- app_assoc.
    eexists (c_topic c), _. split; [done|]. split; [exact Htopic|by apply Htop].
  - rewrite Hsent in Htx. exists os, os', tx'. split_and!; try done.
    intros rx rest Hfl Hdata. rewrite Htx in Hdata.
    destruct (receive_message_ok (λ _, False) c rx rest Hc) as (m & rx' & ? & ? & _ & ?); [tauto|by apply flows_paced|done|]. by exists m, rx'.
Qed.

Lemma send_then_parse_witness :
  ∃ os os' tx', @compose zero_memory host_le sample_event 0 = Ok os ∧
    @send_msg zero_memory host_le uninit_7 os (mkSocket [] [] [] [] 0) = Ok (0, os', tx') ∧
    sk_sent tx' = [0; 0; 0; 9; 4; 0; 0; 0; 2; 116; 0; 7; 8; 9].
Proof.
  destruct (@send_then_parse zero_memory host_le uninit_7 sample_event 0 (mkSocket [] [] [] [] 0) sample_event_ok)
    as (os & os' & tx' & H1 & H2 & H3 & _).
  - vm_compute. discriminate.
  - right. reflexivity.
  - reflexivity.
  - reflexivity.
  - exists os, os', tx'. exact (conj H1 (conj H2 H3)).
Defined.

(** *** Strings *)

(** [toString] undoes [fromString] on every string but the empty one; on
    the empty one the assertion of [toString] fails. *)
Theorem fromString_toString `{Allocator, Host} str :
  len str < 2 ^ 60 →
  (os ← fromString str; toString os) = if decide (str = []) then Fault AssertFailed else Ok str.
Proof.
  intros Hlen. unfold fromString, OutputStream_data, copied_block. unfold len in *.
  destruct str as [|c str]; [done|]. set (x := c :: str) in *. rewrite decide_False by done.
  rewrite (proj2 (Z.eqb_neq _ _)) by (cbn; lia).
  rewrite load_slice; [|lia|lia|rewrite length_app; lia].
  assert (slice 0 (0 + #x) (x ++ [0]) = x) as ->.
  { unfold slice. rewrite Z.sub_0_r, Z.add_0_l, Nat2Z.id, drop_0. apply take_app_length. }
  rewrite !bind_Ok. unfold toString.
  set (b := mkBlock x (#x) 0 0 (#x)).
  change (os_chain _) with [b].
  assert (b_content b = x) as Hb by apply slice_full.
  rewrite toString_ok, fmap_cons, mjoin_cons, fmap_nil, mjoin_nil, Hb, app_nil_r; [done|].
  apply Forall_singleton. rewrite Hb. split; [|done]. split; unfold b_capacity; cbn [b b_rd b_wr b_data b_size]; lia.
Qed.

Lemma fromString_toString_witness :
  (os ← @fromString host_le [104; 105]; toString os) = Ok [104; 105].
Proof. apply (@fromString_toString zero_memory host_le [104; 105]). vm_compute. reflexivity. Defined.

(** *** Where the code does less *)

(** a stall before the body ends is taken for a complete message.  In any
    state with the header read and a part of the body missing, a [recv] that
    would block makes [parse] return 0, "complete", with the body unread and
    the topic as it was. *)
Lemma parse_would_block_completes `{Allocator, Host, Uninit} m sk ds :
  MSG_HEADER_LEN ≤ m_off m < MSG_HEADER_LEN + m_size m → m_size m < 2 ^ 31 - 5 →
  sk_in sk = Fails EWOULDBLOCK :: ds →
  ∃ sk', parse m sk = Ok (0, m, sk') ∧ m_off m < MSG_HEADER_LEN + m_size m.
Proof.
  unfold MSG_HEADER_LEN. intros Hoff Hsz Hin. unfold parse, parse_body, recv_msg, recv_at, recv, MSG_HEADER_LEN.
  rewrite (proj2 (Z.eqb_neq (m_off m) 0)), bind_Ok, (proj2 (Z.ltb_ge _ _)), bind_Ok by lia.
  rewrite (wrap_small 32 (m_off m - 5)), (wrap_small 32 (m_size m - _)), swrap_small, wrap_small by (unfold in_u, in_s; lia).
  rewrite (proj2 (Z.eqb_neq _ 0)), Hin, !bind_Ok by lia. change (s32 (-1)) with (-1).
  cbn [Z.eqb Pos.eqb sk_errno with_errno EWOULDBLOCK]. eexists. split; [|lia].
  do 3 f_equal. destruct m as [? ? ? [[] ? ?] ? ? ? ? ?]. reflexivity.
Qed.

(** A message with its header in and six bytes of body to come. *)
Definition sample_half : Msg :=
  mkMsg Msg_Event 6 5 (mkIS (mkBlock (replicate 16 0) 16 0 5 16) true true) [] [] 0 0 0.

Lemma parse_would_block_completes_witness :
  ∃ sk', @parse zero_memory host_le uninit_7 sample_half (mkSocket [Fails EWOULDBLOCK; Data [1]] [] [] [] 0) =
         Ok (0, sample_half, sk') ∧ m_topic sample_half = [].
Proof.
  destruct (@parse_would_block_completes zero_memory host_le uninit_7 sample_half
    (mkSocket [Fails EWOULDBLOCK; Data [1]] [] [] [] 0) [Data [1]]) as (sk' & Hp & _).
  - vm_compute. split; congruence.
  - vm_compute. reflexivity.
  - reflexivity.
  - exists sk'. exact (conj Hp eq_refl).
Defined.

(** A small [grow] leaves the buffer of a new stream. *)
Lemma is_grow_same `{Allocator, Host, Uninit} n s :
  b_pad (is_start s) = 0 → b_size (is_start s) = 512 → n = 4 ∨ n = 5 →
  is_grow n s = Ok (with_start (with_wr n (with_rd 0 (is_start s))) s).
Proof.
  intros Hp Hsz Hn. unfold is_grow, cdr_grow.
  assert (first_size (n + MAX_ALIGNMENT) = Ok 512) as -> by (by destruct Hn as [-> | ->]).
  rewrite bind_Ok, Hsz, Z.leb_refl, bind_Ok. unfold mb_align. by rewrite Hp.
Qed.

(** The header of such a message, received in one piece. *)
Lemma parse_header_wraps `{Allocator, Host, Uninit} ty m sk ds :
  let b := is_start (m_is m) in
  b_pad b = 0 → b_size b = 512 → b_capacity b = 512 → b_rd b = 0 → is_swap (m_is m) = little_endian →
  m_off m = 0 → sk_in sk = Data [255; 255; 255; 255; ty] :: ds →
  ∃ m', parse_header m sk = Ok (None, m', with_in ds sk) ∧ b_rd (is_start (m_is m')) = 5 ∧
    b_capacity (is_start (m_is m')) = 512 ∧ m_off m' = 5 ∧ m_size m' = 2 ^ 32 - 1.
Proof.
  intros b Hp Hsz Hcap Hrd Hsw Hoff Hin. unfold parse_header, recv_msg. fold b. rewrite Hoff, Hrd.
  change (u64 (s32 (u32 (MSG_HEADER_LEN - 0)))) with 5. rewrite (recv_at_whole _ _ [255; 255; 255; 255; ty] ds) by done.
  unfold b_capacity in Hcap.
  destruct (store_ok 0 [255; 255; 255; 255; ty] (b_data b)) as (d & Hd & Hl & _); [lia|cbn [length]; lia|].
  change (0 + 0) with 0. rewrite Hd, !bind_Ok. change (s32 (Z.of_nat (length [255; 255; 255; 255; ty]))) with 5. cbn [m_off with_is with_off].
  rewrite Hoff. change (u32 (0 + 5)) with 5. change (5 =? -1) with false. change (5 =? 0) with false.
  change (5 <? MSG_HEADER_LEN) with false. change (5 =? MSG_HEADER_LEN) with true. cbn [assert_].
  rewrite bind_Ok. cbn [m_is with_off with_is is_start with_start m_size].
  set (s := with_start (with_data d b) (m_is m)).
  pose proof (store_take _ _ _ _ Hd) as Htake. change (take 5 d = [255; 255; 255; 255; ty]) in Htake.
  assert (load (b_rd (with_data d b) + MESSAGE_TYPE_OFFSET) 1 (b_data (with_data d b)) = Ok [ty]) as ->.
  { cbn [b_rd with_data b_data]. rewrite Hrd. unfold MESSAGE_TYPE_OFFSET. rewrite load_slice by lia. unfold slice.
    rewrite <- (take_drop 5 d), Htake. reflexivity. }
  rewrite bind_Ok. assert (rd_ok s) as Hok by (unfold rd_ok, b_capacity; cbn; lia).
  rewrite (read_uint_at s (2 ^ 32 - 1) (ty :: drop 5 d) Hok Hsw).
  2: { unfold in_u. lia. }
  2: { unfold avail, b_capacity. cbn [s is_start with_start b_data with_data b_rd]. rewrite Hrd, slice_full.
       rewrite <- (take_drop 5 d) at 1. rewrite Htake. reflexivity. }
  rewrite bind_Ok. cbn [m_is with_is m_size with_header from_option id].
  change (u32 (MSG_HEADER_LEN + (2 ^ 32 - 1))) with 4. rewrite is_grow_same by (try done; by left). rewrite bind_Ok.
  unfold skip_bytes, b_capacity. cbn [is_start with_start b_rd with_wr with_rd b_data s with_data]. unfold MSG_HEADER_LEN.
  rewrite (proj2 (Z.leb_le _ _)) by lia. rewrite bind_Ok. eexists. split; [done|].
  unfold b_capacity. cbn. split_and!; done || lia.
Qed.

(** the size of a message is added to the header's in 32 bits.  A header
    with the size 2^32 - 1 makes [parse] ask for a buffer of 4 bytes, keep the
    one of 512, and receive into it without a bound: a piece of more than 507
    bytes after the header is stored past the end of the buffer. *)
Lemma parse_size_wraps `{Allocator, Host, Uninit} ty body sk ds :
  (507 < length body)%nat → #body < 2 ^ 31 →
  sk_in sk = Data [255; 255; 255; 255; ty] :: Data body :: ds →
  parse Msg_new sk = Fault OutOfBounds.
Proof.
  intros Hlen Hmax Hin. destruct (fresh_heap_block DEFAULT_BUFSIZE) as [_ Hcap]; [unfold DEFAULT_BUFSIZE; lia|].
  unfold parse. cbn [m_off Msg_new Z.eqb m_is]. rewrite is_grow_same by (try done; by right). rewrite !bind_Ok.
  cbn [m_off with_is].
  destruct (parse_header_wraps ty (with_is (with_start (with_wr 5 (with_rd 0 (is_start (InputStream_new DEFAULT_BUFSIZE))))
    (InputStream_new DEFAULT_BUFSIZE)) Msg_new) sk (Data body :: ds)) as (m' & Hp & Hrd & Hc & Hoff & Hsz); try done.
  unfold MSG_HEADER_LEN. cbn [m_off with_is Msg_new] in Hp. rewrite Hp.
  change (m_off Msg_new <? 5) with true. cbv iota. rewrite bind_Ok.
  unfold parse_body, recv_msg. rewrite Hoff, Hsz, Hrd.
  change (u32 (5 - MSG_HEADER_LEN)) with 0. change (u64 (s32 (u32 (2 ^ 32 - 1 - 0)))) with (2 ^ 64 - 1).
  rewrite (recv_at_whole _ _ body ds) by (done || lia || (intros ->; cbn in Hlen; lia)).
  unfold store, b_capacity in *. rewrite (proj2 (Z.leb_gt _ (#(b_data (is_start (m_is m')))))) by lia.
  by rewrite andb_false_r.
Qed.

Lemma parse_size_wraps_witness :
  @parse zero_memory host_le uninit_7 (@Msg_new zero_memory host_le uninit_7)
    (mkSocket [Data [255; 255; 255; 255; 4]; Data (replicate 600 65)] [] [] [] 0) = Fault OutOfBounds.
Proof.
  apply (@parse_size_wraps zero_memory host_le uninit_7 4 (replicate 600 65) _ []).
  - vm_compute. lia.
  - vm_compute. reflexivity.
  - reflexivity.
Defined.

(** a short write is reported as a success.  When the kernel takes only a
    part of a block, [send] counts the block as sent and returns 0: the rest
    of the block never goes out. *)
Lemma short_send_reported_as_sent os b n sk :
  os_chain os = [b] → block_ok b → 0 < n < #(b_content b) → sk_out sk = [Accepts n] →
  ∃ sk', send_loop (os_chain os) sk = Ok (0, sk') ∧
    sk_sent sk' = sk_sent sk ++ take (Z.to_nat n) (b_content b) ∧
    take (Z.to_nat n) (b_content b) ≠ b_content b.
Proof.
  intros Hch Hb Hn Hout. rewrite Hch. cbn [send_loop].
  rewrite block_nonempty by (done || (intros E; rewrite E in Hn; cbn in Hn; lia)). cbn [assert_].
  rewrite bind_Ok, load_block, bind_Ok by done. unfold send. rewrite Hout.
  rewrite Z.max_l, Z.min_l by lia. rewrite Z.gtb_ltb, (proj2 (Z.ltb_lt _ _)) by lia.
  eexists. split; [done|]. split; [done|]. intros E. apply (f_equal length) in E. rewrite length_take in E. lia.
Qed.

Definition sample_os : OutputStream := mkOS [] sample_block [] true true true.

Lemma short_send_reported_as_sent_witness :
  ∃ sk', send_loop (os_chain sample_os) (mkSocket [] [] [Accepts 1] [] 0) = Ok (0, sk') ∧ sk_sent sk' = [3].
Proof.
  destruct (short_send_reported_as_sent sample_os sample_block 1 (mkSocket [] [] [Accepts 1] [] 0))
    as (sk' & Hs & Hsent & _).
  - reflexivity.
  - exact sample_block_ok.
  - vm_compute. split; reflexivity.
  - reflexivity.
  - exists sk'. exact (conj Hs Hsent).
Defined.
