(* ===== verification/Receiver.v ===== *)
(** * Receiver: what the handlers of broker connections have in common

    Every handler of the message layer keeps the message it is receiving in a
    member, gives it to [MsgProtocol::parse] in each upcall, keeps it while it
    is half read and acts on it when it is complete.  [Receiver] states this
    much of an object with such a handler; from it follows how messages that
    arrive in any pieces reach the object, whatever it does with them. *)
From S2P Require Import Prelude Block OutputStream InputStream Marshalling Socket Framing MsgProtocol.

(** A connection with bytes to come and nothing half read. *)
Definition hears (sk : socket) (bytes : list Z) : Prop := Forall flows (sk_in sk) ∧ data_of (sk_in sk) = bytes.

Section receiver.

Context `{Allocator, Host, Uninit}.

(** [rv_has tm sk s]: the handler in [s] has the message [tm] and the stream
    [sk]; [rv_put] replaces both; [rv_upcall] is the upcall for input, and
    [rv_finish m sk] what it does when [m] is complete and the stream is [sk]. *)
Class Receiver (S : Type) := {
  rv_upcall : S → result S;
  rv_has : option Msg → socket → S → Prop;
  rv_put : option Msg → socket → S → S;
  rv_finish : Msg → socket → S → result S;
  rv_put_has tm sk s tm' sk' : rv_has tm sk s → rv_has tm' sk' (rv_put tm' sk' s);
  rv_finish_put m sk s tm' sk' : rv_finish m sk (rv_put tm' sk' s) = rv_finish m sk s;
  rv_half tm sk s m sk' : rv_has tm sk s →
    parse (default Msg_new tm) sk = Ok (1, m, sk') → rv_upcall s = Ok (rv_put (Some m) sk' s);
  rv_complete tm sk s m sk' : rv_has tm sk s →
    parse (default Msg_new tm) sk = Ok (0, m, sk') → rv_upcall s = rv_finish m sk' s }.

(** The upcalls of the reactor. *)
Fixpoint upcalls {S} `{Receiver S} (n : nat) (s : S) : result S :=
  match n with
  | O => Ok s
  | S n => s ← rv_upcall s; upcalls n s
  end.

Lemma upcalls_app {S} `{Receiver S} n k (s : S) : upcalls (n + k) s = s ← upcalls n s; upcalls k s.
Proof.
  revert s. induction n as [|n IH]; intros s; [done|]. cbn [Nat.add upcalls].
  destruct (rv_upcall s); [|done]. by rewrite !bind_Ok, IH.
Qed.

(** Upcalls until a message is complete. *)
Lemma receive_rest {S} `{Receiver S} ct rest k : ∀ off m tm sk (s : S),
  content_ok ct → receiving (may := λ _, False) (c_type ct) (body_of ct) rest off m sk → (off < 5 + length (body_of ct))%nat →
  (5 + length (body_of ct) ≤ off + k)%nat → rv_has tm sk s → m = default Msg_new tm →
  ∃ n m2 sk', (0 < n)%nat ∧ received ct m2 ∧ hears sk' rest ∧ same_output sk sk' ∧ upcalls n s = rv_finish m2 sk' s.
Proof.
  induction k as [|k IH]; intros off m tm sk s Hc Hr Hlt Hk Hhas ->; [lia|].
  pose proof Hc as (_ & _ & _ & Hlen). pose proof (body_nonempty ct) as Hne.
  assert (moving sk) as Hmv by (eapply paced_moving; [apply Hr|tauto]).
  destruct (parse_step _ _ _ _ _ _ (λ F, F) Hr Hmv Hlt Hne Hlen) as (off' & m' & sk1 & Ho & Hr' & [[Hlt' Hpar]|[-> Hpar]]).
  - pose proof (rv_half tm sk s m' sk1 Hhas Hpar) as Hup.
    destruct (IH off' m' (Some m') sk1 (rv_put (Some m') sk1 s)) as (n & m2 & sk' & Hn & Hrec & Hh & Hso & Hrun); try done; [lia|by eapply rv_put_has|].
    exists (Datatypes.S n), m2, sk'. split_and!; try done; [lia|etrans; [by eapply parse_same_output|done]|].
    cbn [upcalls]. by rewrite Hup, bind_Ok, Hrun, rv_finish_put.
  - destruct (received_avail _ _ _ _ _ Hr') as (Hs & Hty & more & Hav).
    destruct (parse_fields_ok ct m' more Hc Hs Hty Hav) as (m2 & Hpf & Hrec). rewrite Hpf, bind_Ok in Hpar.
    exists 1%nat, m2, sk1. split_and!; [lia|done| |by eapply parse_same_output|].
    + split; [eapply paced_never, (rc_paced _ _ _ _ _ _ Hr')|]. rewrite (rc_data _ _ _ _ _ _ Hr'), drop_ge by (rewrite length_frame; lia). done.
    + cbn [upcalls]. rewrite (rv_complete tm sk s m2 sk1 Hhas Hpar). by destruct (rv_finish m2 sk1 s).
Qed.

Lemma receive_next {S} `{Receiver S} ct rest sk (s : S) :
  content_ok ct → hears sk (frame_of ct ++ rest) → rv_has None sk s →
  ∃ n m2 sk', (0 < n)%nat ∧ received ct m2 ∧ hears sk' rest ∧ same_output sk sk' ∧ upcalls n s = rv_finish m2 sk' s.
Proof.
  intros Hc [Hfl Hd] Hhas. apply (receive_rest ct rest (5 + length (body_of ct)) 0 Msg_new None sk s); try done; [apply new_receiving; [by apply paced_never|done]|lia].
Qed.

(** Messages one after the other: an object that takes each message with
    [P], relating what it was before and after, takes them all. *)
Fixpoint each {S} (P : content → S → S → Prop) (cs : list content) (s s' : S) : Prop :=
  match cs with
  | [] => s' = s
  | c :: cs => ∃ s1, P c s s1 ∧ each P cs s1 s'
  end.

Lemma receive_all {S} `{Receiver S} (P : content → S → S → Prop) (I : socket → Prop) cs :
  (∀ c m sk0 sk s, c ∈ cs → received c m → rv_has None sk0 s → same_output sk0 sk → I sk0 →
     ∃ s' sk', rv_finish m sk s = Ok s' ∧ P c s s' ∧ rv_has None sk' s' ∧ sk_in sk' = sk_in sk ∧ I sk') →
  ∀ sk rest s, Forall content_ok cs → hears sk (mjoin (frame_of <$> cs) ++ rest) → rv_has None sk s → I sk →
  ∃ n s' sk', upcalls n s = Ok s' ∧ each P cs s s' ∧ rv_has None sk' s' ∧ hears sk' rest ∧ I sk'.
Proof.
  intros Hfin. induction cs as [|c cs IH]; intros sk rest s Hcs Hh Hhas Hsk.
  - exists O, s, sk. done.
  - apply Forall_cons in Hcs as [Hc Hcs]. rewrite fmap_cons, mjoin_cons, <- app_assoc in Hh.
    destruct (receive_next c _ sk s Hc Hh Hhas) as (n & m & sk1 & _ & Hrec & Hh1 & Hso & Hrun).
    destruct (Hfin c m sk sk1 s) as (s1 & sk2 & Hf & HP & Hhas1 & Hin & HI2); [left|done..|].
    destruct (IH) with (sk := sk2) (rest := rest) (s := s1) as (n' & s' & sk' & Hrun' & Heach & ? & ? & ?); try done.
    { intros c' m' sk0 sk' s'' Hc'. apply Hfin. by right. }
    { destruct Hh1 as [? ?]. split; by rewrite Hin. }
    exists (n + n')%nat, s', sk'. rewrite upcalls_app, Hrun, Hf, bind_Ok. split_and!; try done. by exists s1.
Qed.

Lemma each_impl {S} (P Q : content → S → S → Prop) cs : (∀ c s s', P c s s' → Q c s s') → ∀ s s', each P cs s s' → each Q cs s s'.
Proof. intros HPQ. induction cs as [|c cs IH]; [done|]. intros s s' (s1 & ? & ?). exists s1. eauto. Qed.

(** The sender's side: a stream that holds a message. *)
Definition composed (c : content) (os : OutputStream) : Prop :=
  ∃ size, compose c size = Ok os ∧ content_ok c ∧ 5 + len (body_of c) ≤ os_limit ∧ (5 ≤ size < 2 ^ 61 ∨ size = 0).

Lemma send_composed c os sk :
  composed c os → sk_out sk = [] →
  ∃ os' sk', send_msg os sk = Ok (0, os', sk') ∧ sk_sent sk' = sk_sent sk ++ frame_of c ∧ sk_in sk' = sk_in sk ∧ sk_out sk' = [].
Proof.
  intros (size & Hcomp & Hc & Hlim & Hsize) Hout.
  destruct (compose_ok c size Hc Hlim Hsize) as (os1 & E & Hs & Hh & Hsw & Hcont). rewrite Hcomp in E. inv_ok.
  destruct (send_msg_ok os1 (be_bytes 4 0) (c_type c) (body_of c) sk) as (os' & sk' & Hsend & Htx); try done.
  - unfold os_len, len in *. rewrite Hcont. len_lia.
  - intros Hev. destruct Hc as (_ & Hitems & Htop & _). unfold body_of, content_items in *.
    apply Forall_cons_1 in Hitems as [Htopic _]. rewrite fmap_cons, mjoin_cons, <- app_assoc.
    eexists (c_topic c), _. split; [done|]. split; [exact Htopic|by apply Htop].
  - exists os', sk'. split; [done|]. split; [done|]. unfold send_msg in Hsend.
    apply bind_inv in Hsend as (str & _ & Hsend). apply bind_inv in Hsend as (? & _ & Hsend).
    apply bind_inv in Hsend as (os2 & _ & Hsend). apply bind_inv in Hsend as ([r sk2] & Hloop & Hsend). inv_ok.
    destruct (send_loop_keeps _ _ _ _ Hloop) as [? Ho]. auto.
Qed.

(** The check that [publish] makes before [send] makes the same. *)
Lemma checks_composed c os sk : composed c os → sk_out sk = [] → ∃ str, toString os = Ok str ∧ check str = Ok tt.
Proof.
  intros Hc Hout. destruct (send_composed c os sk Hc Hout) as (os' & sk' & Hsend & _). unfold send_msg in Hsend.
  apply bind_inv in Hsend as (str & Hs & Hsend). apply bind_inv in Hsend as ([] & Hch & _). eauto.
Qed.

End receiver.
