(* ===== verification/IcmProtocol.v ===== *)
(** * IcmProtocol: requests and replies (icm/IcmProtocol.cpp, icm/ServerRequest.cpp)

    The same header of five bytes as the message broker's.  A transport
    receives with [recv_n] (icm/TcpTransport.cpp), so a call of [handleInput]
    takes a whole header and a whole body.  Requests carry an id, a response
    flag, the identity of the object and the operation; replies the id and a
    status. *)
From S2P Require Import Prelude Block OutputStream InputStream Marshalling Socket Framing.

Definition ICM_HEADER_LEN : Z := 5.
Definition ICM_MESSAGE_SIZE_OFFSET : Z := 0.
Definition ICM_MESSAGE_TYPE_OFFSET : Z := 4.

(** [IcmProtocol::MessageType]. *)
Definition Request : Z := 0.
Definition Reply : Z := 1.
Definition CancelRequest : Z := 2.
Definition Error : Z := 3.

(** [ICM_ReplyStatusType]. *)
Definition ICM_NO_EXCEPTION : Z := 0.
Definition ICM_USER_EXCEPTION : Z := 1.
Definition ICM_SYSTEM_EXCEPTION : Z := 2.
Definition ICM_LOCATION_FORWARD : Z := 3.

(** [byteOrder] is written and never read, [magic] and [moreFragment] are not
    used: they are left out. *)
Record IcmMessageState := mkState {
  st_type : Z;
  st_size : Z;
  st_off : Z;
  st_stream : InputStream }.

Definition with_stream (s : InputStream) (st : IcmMessageState) : IcmMessageState :=
  mkState (st_type st) (st_size st) (st_off st) s.

Record Identity := mkIdentity { id_name : list Z; id_category : list Z }.

Record ServerRequest := mkRequest {
  rq_operation : list Z;
  rq_responseExpected : bool;
  rq_requestId : Z;
  rq_identity : Identity }.

Section protocol.

Context `{Allocator, Host, Uninit}.

Definition IcmMessageState_new : IcmMessageState := mkState Error 0 0 (InputStream_new DEFAULT_BUFSIZE).

Definition isComplete (st : IcmMessageState) : Z := if negb (st_size st =? st_off st) then 0 else 1.

(** [reset ()]: the stream stays. *)
Definition state_reset (st : IcmMessageState) : IcmMessageState := mkState (st_type st) 0 0 (st_stream st).

Definition headerReceived (st : IcmMessageState) : bool := negb (st_size st =? 0).

(** *** Writing *)

Definition startMessage (t : Z) (msg : OutputStream) : result OutputStream :=
  '(_, msg) ← write_uint 0 msg;
  '(_, msg) ← write_octet t msg;
  Ok msg.

Definition writeRequestHeader (requestId responseFlags : Z) (ident : Identity) (opname : list Z) (msg : OutputStream)
  : result OutputStream :=
  '(_, msg) ← insert_op (write_uint requestId) msg;
  '(_, msg) ← insert_op (write_octet responseFlags) msg;
  '(_, msg) ← insert_op (write_string (id_name ident)) msg;
  '(_, msg) ← insert_op (write_string (id_category ident)) msg;
  '(_, msg) ← insert_op (write_string opname) msg;
  Ok msg.

Definition writeReplyHeader (requestId replyStatus : Z) (output : OutputStream) : result OutputStream :=
  '(_, output) ← write_uint requestId output;
  '(_, output) ← write_uint replyStatus output;
  Ok output.

(** [ServerRequest::initReply ()]. *)
Definition initReply (rq : ServerRequest) (outgoing : OutputStream) : result OutputStream :=
  outgoing ← startMessage Reply outgoing;
  '(_, outgoing) ← write_uint (rq_requestId rq) outgoing;
  '(_, outgoing) ← write_uint ICM_NO_EXCEPTION outgoing;
  Ok outgoing.

(** [Identity::write (os)], [Identity::read (is)]. *)
Definition identity_write (ident : Identity) (os : OutputStream) : result OutputStream :=
  '(_, os) ← write_string (id_name ident) os;
  '(_, os) ← write_string (id_category ident) os;
  Ok os.

Definition identity_read (s : InputStream) : result (Identity * InputStream) :=
  '(_, n, s) ← read_string s;
  '(_, c, s) ← read_string s;
  Ok (mkIdentity n c, s).

(** The loop of [sendMessage]; empty blocks are passed over. *)
Fixpoint sendMessage_loop (chain : list Block) (sk : socket) : result (Z * socket) :=
  match chain with
  | [] => Ok (1, sk)
  | i :: chain =>
      if b_length i =? 0 then sendMessage_loop chain sk
      else
        bs ← load (b_rd i) (b_length i) (b_data i);
        let '(n, sk) := send bs sk in
        if n =? -1 then Ok (-1, sk)
        else if n =? 0 then Ok (-1, sk)
        else sendMessage_loop chain sk
  end.

(** [sendMessage (transport, stream)]; [None] is a null transport. *)
Definition sendMessage (transport : option socket) (stream : OutputStream)
  : result (Z * OutputStream * option socket) :=
  match transport with
  | None => Ok (-1, stream, None)
  | Some sk =>
      stream ← patch_length ICM_HEADER_LEN ICM_MESSAGE_SIZE_OFFSET stream;
      '(r, sk) ← sendMessage_loop (os_chain stream) sk;
      Ok (r, stream, Some sk)
  end.

(** *** Reading *)

(** [parseHeader (input, state)]. *)
Definition icm_parseHeader (st : IcmMessageState) : result IcmMessageState :=
  let b := is_start (st_stream st) in
  ty ← load (b_rd b + ICM_MESSAGE_TYPE_OFFSET) 1 (b_data b);
  let input := is_with_swap ACE_CDR_BYTE_ORDER (st_stream st) in
  '(_, size, input) ← read_uint input;
  Ok (mkState (le_value ty) (default (st_size st) size) (st_off st) input).

(** The loop of [readHeader]: [t] bytes are missing, from index [buf] on. *)
Fixpoint readHeader_loop (fuel : nat) (t buf : Z) (b : Block) (sk : socket) : result (Z * Block * socket) :=
  if t =? 0 then Ok (0, b, sk)
  else
    match fuel with
    | O => Fault OutOfFuel
    | S fuel =>
        '(n, b, sk) ← recv_n (u64 t) buf b sk;
        if n =? -1 then Ok (-1, b, sk)
        else if n =? 0 then Ok (-1, b, sk)
        else readHeader_loop fuel (s32 (t - n)) (buf + n) b sk
    end.

(** [readHeader]: the size of the header, or -1.  A turn receives at least one
    byte. *)
Definition readHeader (st : IcmMessageState) (sk : socket) : result (Z * IcmMessageState * socket) :=
  s ← is_grow ICM_HEADER_LEN (st_stream st);
  '(r, b, sk) ← readHeader_loop (Z.to_nat ICM_HEADER_LEN) ICM_HEADER_LEN (b_rd (is_start s)) (is_start s) sk;
  let st := with_stream (with_start b s) st in
  if r =? -1 then Ok (-1, st, sk)
  else
    st ← icm_parseHeader st;
    Ok (ICM_HEADER_LEN, st, sk).

(** [readBuffer (transport, rdPtr () + off, len)]. *)
Definition readBuffer (off len : Z) (st : IcmMessageState) (sk : socket) : result (Z * IcmMessageState * socket) :=
  let s := st_stream st in
  '(n, b, sk) ← recv_n len (b_rd (is_start s) + off) (is_start s) sk;
  Ok (n, with_stream (with_start b s) st, sk).

(** [handleInput]: -1 error, else [isComplete]. *)
Definition handleInput (st : IcmMessageState) (sk : socket) : result (Z * IcmMessageState * socket) :=
  '(r, st, sk) ←
    (if headerReceived st then Ok (0, st, sk)
     else
       '(r, st, sk) ← readHeader st sk;
       if r =? -1 then Ok (-1, st, sk)
       else
         s ← is_grow (u64 (r + st_size st)) (st_stream st);
         '(_, s) ← skip_bytes r s;
         Ok (0, with_stream s st, sk));
  if r =? -1 then Ok (-1, st, sk)
  else
    let missingData := u32 (st_size st - st_off st) in
    '(n, st, sk) ← readBuffer (st_off st) missingData st sk;
    '(n, st, sk) ← (if (n =? -1) && (sk_errno sk =? EAGAIN)
                    then readBuffer (st_off st) missingData st sk else Ok (n, st, sk));
    if n =? -1 then Ok (-1, st, sk)
    else if n =? 0 then Ok (-1, st, sk)
    else
      let st := mkState (st_type st) (st_size st) (u32 (st_off st + n)) (st_stream st) in
      Ok (isComplete st, st, sk).

(** [parseReply]: result, request id, status.  The out parameters stay as they
    were on failure. *)
Definition parseReply (st : IcmMessageState) : result (Z * option Z * option Z * IcmMessageState) :=
  if st_type st =? Request then Ok (-1, None, None, st)
  else
    '(r, id, s) ← read_uint (st_stream st);
    if negb r then Ok (-1, id, None, with_stream s st)
    else
      '(r, status, s) ← read_uint s;
      if negb r then Ok (-1, id, status, with_stream s st)
      else Ok (0, id, status, with_stream s st).

(** [ServerRequest (input, ...)] and [ServerRequest::parseHeader ()]: each
    read overwrites the status of the one before.  [mRequestId] starts as 0,
    [responseFlags] has no value. *)
Definition ServerRequest_new (input : InputStream) : result (Z * ServerRequest * InputStream) :=
  '(hdrStatus, id, input) ← read_uint input;
  '(hdrStatus, responseFlags, input) ← read_octet input;
  '(hdrStatus, n, input) ← read_string input;
  '(hdrStatus, c, input) ← read_string input;
  '(hdrStatus, op, input) ← read_string input;
  Ok (if (hdrStatus : bool) then 0 else -1,
      mkRequest op (negb (default uninit responseFlags =? 0)) (default 0 id) (mkIdentity n c), input).

End protocol.

(** ** Lemmas *)

Section receiving.

Context `{Allocator, Host, Uninit}.

(** Between two messages. *)
Definition ready (st : IcmMessageState) : Prop :=
  heap_block (is_start (st_stream st)) ∧ is_good (st_stream st) = true ∧ st_size st = 0 ∧ st_off st = 0.

Lemma new_ready : ready IcmMessageState_new.
Proof.
  destruct (fresh_heap_block DEFAULT_BUFSIZE) as [Hh _]; [unfold DEFAULT_BUFSIZE; lia|]. by split_and!.
Qed.

(** The whole message is in the buffer, the body next to be read. *)
Record arrived (ty : Z) (body : list Z) (st : IcmMessageState) : Prop := mkArrived {
  ar_type : st_type st = ty;
  ar_size : st_size st = len body;
  ar_heap : heap_block (is_start (st_stream st));
  ar_ok : is_ok_in (st_stream st);
  ar_avail : ∃ more, avail (st_stream st) = body ++ more }.

(** The five bytes of the header, and what the code does with them. *)
Lemma readHeader_ok ty n rest st sk :
  ready st → incoming sk ((be_bytes 4 n ++ [ty]) ++ rest) → in_u 32 n →
  ∃ st1 sk1, readHeader st sk = Ok (5, st1, sk1) ∧ st_type st1 = ty ∧ st_size st1 = n ∧ st_off st1 = 0 ∧
    incoming sk1 rest ∧
    ∀ k, 5 ≤ k < 2 ^ 59 → ∃ s2 s3, is_grow k (st_stream st1) = Ok s2 ∧ skip_bytes 5 s2 = Ok (true, s3) ∧
      heap_block (is_start s3) ∧ b_rd (is_start s3) = 5 ∧ k ≤ b_capacity (is_start s3) ∧
      is_swap s3 = little_endian ∧ is_good s3 = true.
Proof.
  intros (Hheap & Hgd & Hsz & Hoff) Hin Hn. unfold readHeader, ICM_HEADER_LEN.
  destruct (is_grow_ok 5 (st_stream st) Hheap) as (s & -> & Hh & Hrd & Hcap & _ & _ & Hgd' & _); [lia|]. rewrite bind_Ok, Hrd.
  assert (length (be_bytes 4 n ++ [ty]) = 5%nat) as Hl by (by rewrite length_app, length_be_bytes).
  destruct (recv_n_reads sk 0 (is_start s) (be_bytes 4 n ++ [ty]) rest Hin) as (d & sk1 & Hr & Hst & Hin1); [lia|rewrite Hl; lia|].
  rewrite Hl in Hr. change (Z.of_nat 5) with 5 in Hr.
  change (Z.to_nat 5) with 5%nat. cbn [readHeader_loop]. change (u64 5) with 5. rewrite Hr.
  change (5 =? 0) with false. cbv iota. rewrite bind_Ok. change (5 =? -1) with false. change (5 =? 0) with false. cbv iota.
  change (s32 (5 - 5) =? 0) with true. cbv iota. rewrite bind_Ok. change (0 =? -1) with false. cbv iota.
  unfold icm_parseHeader. cbn [st_stream with_stream st_size st_off is_start with_start].
  destruct (heap_with_data _ d Hh (store_length _ _ _ _ Hst)) as [Hhd Hcd].
  pose proof (store_take _ _ _ _ Hst) as Htake. rewrite Hl in Htake. change (take 5 d = be_bytes 4 n ++ [ty]) in Htake.
  set (s1 := is_with_swap ACE_CDR_BYTE_ORDER (with_start (with_data d (is_start s)) s)).
  assert (∀ k, 5 ≤ k < 2 ^ 59 → ∃ s2 s3 s4, load (b_rd (is_start s1) + 4) 1 (b_data (is_start s1)) = Ok [ty] ∧
    read_uint s1 = Ok (true, Some n, s2) ∧ is_grow k s2 = Ok s3 ∧ skip_bytes 5 s3 = Ok (true, s4) ∧
    heap_block (is_start s4) ∧ b_rd (is_start s4) = 5 ∧ k ≤ b_capacity (is_start s4) ∧
    is_swap s4 = little_endian ∧ is_good s4 = true) as Hopen.
  { intros k Hk. destruct (open_header s1 ty n k) as (s2 & s3 & s4 & ? & ? & ? & ? & ? & ? & ? & ? & Hg4 & _); try done.
    exists s2, s3, s4. split_and!; try done. rewrite Hg4. cbn. congruence. }
  destruct (Hopen 5) as (s2 & _ & _ & Hld & Hru & _); [lia|].
  unfold ICM_MESSAGE_TYPE_OFFSET. cbn [s1 is_start is_with_swap with_start] in Hld. rewrite Hld, bind_Ok, Hru, !bind_Ok.
  eexists _, sk1. split; [done|]. cbn [st_type st_size st_off st_stream from_option id le_value].
  split_and!; [lia|done|done|done|]. intros k Hk.
  destruct (Hopen k Hk) as (s2' & s3 & s4 & _ & Hru' & ?). assert (s2' = s2) as -> by congruence. by exists s3, s4.
Qed.

(** A call of [handleInput] between two messages takes the next message. *)
Lemma handleInput_ok ty body rest st sk :
  ready st → incoming sk (frame ty body ++ rest) → body ≠ [] → len body < 2 ^ 31 →
  ∃ st' sk', handleInput st sk = Ok (1, st', sk') ∧ arrived ty body st' ∧ incoming sk' rest.
Proof.
  intros Hready Hin Hne Hlen. pose proof Hready as (_ & _ & Hsz & Hoff). unfold len in *.
  assert (0 < length body)%nat as Hlb by (destruct body; [done|cbn; lia]).
  unfold frame in Hin. rewrite app_assoc, <- app_assoc in Hin.
  destruct (readHeader_ok ty (len body) (body ++ rest) st sk Hready Hin) as (st1 & sk1 & Hrh & Hty1 & Hsz1 & Hoff1 & Hin1 & Hopen);
    [unfold in_u, len; lia|]. unfold len in *.
  unfold handleInput, headerReceived. rewrite Hsz. cbn [Z.eqb negb]. rewrite Hrh, bind_Ok.
  change (5 =? -1) with false. cbv iota. rewrite Hsz1, wrap_small by (unfold in_u; lia).
  destruct (Hopen (5 + #body)) as (s2 & s3 & -> & Hsk & Hh3 & Hrd3 & Hcap3 & Hsw3 & Hgd3); [lia|].
  rewrite bind_Ok, Hsk, !bind_Ok. change (0 =? -1) with false. cbv iota.
  cbn [st_size with_stream st_off]. rewrite Hsz1, Hoff1, Z.sub_0_r, (wrap_small 32) by (unfold in_u; lia).
  destruct (recv_n_reads sk1 5 (is_start s3) body rest Hin1) as (d & sk2 & Hrn & Hst & Hin2); [lia|lia|].
  assert (readBuffer 0 (#body) (with_stream s3 st1) sk1 =
    Ok (#body, with_stream (with_start (with_data d (is_start s3)) s3) (with_stream s3 st1), sk2)) as ->.
  { unfold readBuffer. cbn [st_stream with_stream]. by rewrite Hrd3, Z.add_0_r, Hrn. }
  rewrite !bind_Ok. rewrite (proj2 (Z.eqb_neq (#body) (-1))) by lia. cbn [andb]. rewrite bind_Ok.
  rewrite (proj2 (Z.eqb_neq (#body) (-1))), (proj2 (Z.eqb_neq (#body) 0)) by lia.
  cbn [st_type st_size with_stream st_off st_stream]. rewrite Hoff1, Z.add_0_l, (wrap_small 32), Hsz1 by (unfold in_u; lia).
  unfold isComplete. cbn [st_size st_off]. rewrite Z.eqb_refl. cbn [negb].
  eexists _, sk2. split; [done|]. split; [|done].
  pose proof (store_length _ _ _ _ Hst) as Hld. destruct (heap_with_data _ d Hh3 Hld) as [Hhd Hcd].
  split; cbn [st_type st_size st_stream]; try done.
  - split; [|done]. unfold rd_ok. cbn [is_start with_start]. rewrite Hcd. cbn [b_rd with_data]. lia.
  - apply store_take in Hst. change (Z.to_nat 5) with 5%nat in Hst. exists (drop (5 + length body) d).
    unfold avail, b_capacity in *. cbn [is_start with_start b_rd with_data b_data]. rewrite Hrd3.
    unfold slice. rewrite take_ge by (rewrite length_drop; lia). change (Z.to_nat 5) with 5%nat.
    rewrite <- (take_drop (5 + length body) d) at 1. rewrite Hst, <- app_assoc.
    apply drop_app_length'. rewrite length_take. lia.
Qed.

Lemma readHeader_loop_same_output fuel t buf b sk r b' sk' :
  readHeader_loop fuel t buf b sk = Ok (r, b', sk') → same_output sk sk'.
Proof.
  revert t buf b sk. induction fuel as [|fuel IH]; intros t buf b sk; cbn [readHeader_loop]; split_if; intros Hr; try by inv_ok.
  apply bind_inv in Hr as ([[n b1] sk1] & Hv%recv_n_same_output & Hr). etrans; [exact Hv|].
  destruct (n =? -1); [by inv_ok|]. destruct (n =? 0); [by inv_ok|]. by eapply IH.
Qed.

Lemma readHeader_same_output st sk r st' sk' : readHeader st sk = Ok (r, st', sk') → same_output sk sk'.
Proof.
  unfold readHeader. intros Hr. apply bind_inv in Hr as (s & _ & Hr).
  apply bind_inv in Hr as ([[n b] sk1] & Hv%readHeader_loop_same_output & Hr).
  destruct (n =? -1); by inv_ok.
Qed.

Lemma readBuffer_same_output off n st sk r st' sk' : readBuffer off n st sk = Ok (r, st', sk') → same_output sk sk'.
Proof. unfold readBuffer. intros Hr. apply bind_inv in Hr as ([[? ?] ?] & Hv%recv_n_same_output & Hr). by inv_ok. Qed.

(** Receiving a message sends nothing. *)
Lemma handleInput_same_output st sk r st' sk' : handleInput st sk = Ok (r, st', sk') → same_output sk sk'.
Proof.
  unfold handleInput. intros Hr. apply bind_inv in Hr as ([[r1 st1] sk1] & Hx1 & Hr). transitivity sk1.
  { destruct (headerReceived st); [by inv_ok|]. apply bind_inv in Hx1 as ([[? ?] ?] & Hv%readHeader_same_output & Hx1).
    destruct (_ =? -1); [by inv_ok|]. apply bind_inv in Hx1 as (? & _ & Hx1). apply bind_inv in Hx1 as ([? ?] & _ & Hx1). by inv_ok. }
  destruct (r1 =? -1); [by inv_ok|]. apply bind_inv in Hr as ([[n st2] sk2] & Hv%readBuffer_same_output & Hr). etrans; [exact Hv|].
  apply bind_inv in Hr as ([[n3 st3] sk3] & Hx3 & Hr). transitivity sk3.
  { destruct (_ && _); [|by inv_ok]. by eapply readBuffer_same_output. }
  destruct (n3 =? -1); [by inv_ok|]. destruct (n3 =? 0); by inv_ok.
Qed.

End receiving.

Section sending.

Context `{Allocator, Host, Uninit}.

(** The bytes a chain puts on the wire, with nothing else changed. *)
Lemma sendMessage_loop_sends chain sk :
  sendable chain → sk_out sk = [] →
  sendMessage_loop chain sk =
    Ok (1, mkSocket (sk_in sk) (sk_waits sk) [] (sk_sent sk ++ mjoin (b_content <$> chain)) (sk_errno sk)).
Proof.
  intros Hc. revert sk. induction Hc as [|i chain [Hi Hne] _ IH]; intros sk Ho; cbn [sendMessage_loop].
  - rewrite fmap_nil, mjoin_nil, app_nil_r. destruct sk; cbn in *. by subst.
  - pose proof (block_nonempty i Hi Hne) as Hnz. apply negb_true_iff in Hnz. rewrite Hnz, load_block, bind_Ok, send_all by done.
    assert (0 < length (b_content i))%nat by (destruct (b_content i); [done|cbn; lia]).
    rewrite !(proj2 (Z.eqb_neq _ _)) by lia. rewrite IH by done. cbn [sk_in sk_waits sk_sent sk_errno].
    by rewrite fmap_cons, mjoin_cons, app_assoc.
Qed.

(** A message built of a header and values, sent. *)
Lemma sendMessage_sends os ty body sk :
  os_ok os → headed 5 os → os_swap os = little_endian → os_len os ≤ os_limit →
  os_content os = be_bytes 4 0 ++ [ty] ++ body → sk_out sk = [] →
  ∃ os', sendMessage (Some sk) os =
    Ok (1, os', Some (mkSocket (sk_in sk) (sk_waits sk) [] (sk_sent sk ++ frame ty body) (sk_errno sk))).
Proof.
  intros Hs Hhd Hsw Hlim Hc Hout. unfold sendMessage, ICM_HEADER_LEN, ICM_MESSAGE_SIZE_OFFSET.
  destruct (patch_length_ok os (be_bytes 4 0 ++ [ty]) body Hs Hhd Hsw Hlim) as (os' & -> & Hsend & Hcont);
    [by rewrite Hc, app_assoc|done|]. rewrite bind_Ok.
  rewrite sendMessage_loop_sends, bind_Ok by done. exists os'. by rewrite Hcont.
Qed.

Lemma sendMessage_ok os ty body sk :
  os_ok os → headed 5 os → os_swap os = little_endian → os_len os ≤ os_limit →
  os_content os = be_bytes 4 0 ++ [ty] ++ body → sk_out sk = [] → sk_sent sk = [] →
  ∃ os' sk', sendMessage (Some sk) os = Ok (1, os', Some sk') ∧ sk_sent sk' = frame ty body.
Proof.
  intros Hs Hhd Hsw Hlim Hc Hout Hsent. destruct (sendMessage_sends os ty body sk) as (os' & ->); try done.
  eexists os', _. split; [done|]. cbn. by rewrite Hsent.
Qed.

(** Starting a message and writing values after the header. *)
Lemma start_write_ok ty l size :
  in_u 8 ty → Forall item_ok l → 5 + len (mjoin (encode <$> l)) ≤ os_limit → 5 ≤ size < 2 ^ 61 ∨ size = 0 →
  ∃ os0 os, startMessage ty (OutputStream_new size) = Ok os0 ∧ write_items l os0 = Ok os ∧
    os_ok os ∧ headed 5 os ∧ os_swap os = little_endian ∧ os_len os ≤ os_limit ∧
    os_content os = be_bytes 4 0 ++ [ty] ++ mjoin (encode <$> l).
Proof.
  intros Hty Hl Hlim Hsize. unfold len in *. destruct (start_header_ok ty size Hsize) as (os0 & Hst & Hs0 & Hh0 & Hsw0 & Hc0).
  assert (os_len os0 = 5) as Hl0 by (unfold os_len; rewrite Hc0; reflexivity).
  destruct (write_items_append l os0 Hl Hs0 Hsw0) as (os1 & Hw & Hs1 & Hc1 & Hsw1 & Hk1); [lia|].
  exists os0, os1. split_and!; try done; [by apply Hk1|congruence|rewrite (os_len_app _ _ _ Hc1); lia|].
  rewrite Hc1, Hc0, <- app_assoc. do 2 f_equal. cbn. f_equal. rewrite Z.mod_small; [done|exact Hty].
Qed.

(** The header of a request is the sequence of its five values. *)
Lemma writeRequestHeader_items id flags ident op os :
  writeRequestHeader id flags ident op os =
  write_items [IUInt id; IOctet flags; IString (id_name ident); IString (id_category ident); IString op] os.
Proof.
  unfold writeRequestHeader, insert_op. cbn [write_items write_item].
  destruct (write_uint id os) as [[? s1]|]; [|done]. rewrite !bind_Ok.
  destruct (write_octet flags s1) as [[? s2]|]; [|done]. rewrite !bind_Ok.
  destruct (write_string (id_name ident) s2) as [[? s3]|]; [|done]. rewrite !bind_Ok.
  destruct (write_string (id_category ident) s3) as [[? s4]|]; [|done]. rewrite !bind_Ok.
  by destruct (write_string op s4) as [[? s5]|].
Qed.

Lemma write_items_app l1 l2 os :
  write_items (l1 ++ l2) os = (os ← write_items l1 os; write_items l2 os).
Proof.
  revert os. induction l1 as [|i l1 IH]; intros os; [done|]. cbn [app write_items].
  destruct (write_item i os) as [[? s]|]; [|done]. by rewrite !bind_Ok, IH.
Qed.

(** The server reads the header of a request from what has arrived. *)
Lemma ServerRequest_new_ok id flags ident op s rest :
  is_ok_in s → in_u 32 id → in_u 8 flags → string_ok (id_name ident) → string_ok (id_category ident) → string_ok op →
  avail s = mjoin (encode <$> [IUInt id; IOctet flags; IString (id_name ident); IString (id_category ident); IString op]) ++ rest →
  ∃ s', ServerRequest_new s = Ok (0, mkRequest op (negb (flags =? 0)) id ident, s') ∧ is_ok_in s' ∧ avail s' = rest.
Proof.
  intros Hs Hid Hfl Hn Hc Hop Hav. rewrite !fmap_cons, !mjoin_cons, fmap_nil, mjoin_nil, app_nil_r, <- !app_assoc in Hav.
  cbn [encode] in Hav. unfold ServerRequest_new.
  destruct (read_uint_consumes id Hid s _ Hs Hav) as (s1 & -> & Hs1 & Hav1). rewrite bind_Ok.
  destruct (read_octet_consumes flags Hfl s1 _ Hs1 Hav1) as (s2 & -> & Hs2 & Hav2). rewrite bind_Ok.
  destruct (read_string_consumes _ Hn s2 _ Hs2 Hav2) as (s3 & -> & Hs3 & Hav3). rewrite bind_Ok.
  destruct (read_string_consumes _ Hc s3 _ Hs3 Hav3) as (s4 & -> & Hs4 & Hav4). rewrite bind_Ok.
  destruct (read_string_consumes _ Hop s4 _ Hs4 Hav4) as (s5 & -> & Hs5 & Hav5). rewrite bind_Ok.
  exists s5. split_and!; try done. by destruct ident.
Qed.

(** Reading a [UInt] leaves the same block. *)
Lemma read_uint_heap s x rest :
  is_ok_in s → in_u 32 x → heap_block (is_start s) → avail s = be_bytes 4 x ++ rest →
  ∃ s', read_uint s = Ok (true, Some x, s') ∧ is_ok_in s' ∧ heap_block (is_start s') ∧ avail s' = rest.
Proof.
  intros Hok Hx Hheap Hav. pose proof Hok as (Hrd & Hsw & _).
  pose proof (read_uint_at _ _ _ Hrd Hsw Hx Hav) as Hr.
  destruct (read_uint_consumes x Hx s _ Hok Hav) as (s' & Hr' & Hs' & Hav').
  rewrite Hr in Hr'. inv_ok. eexists. split; [exact Hr|]. by split_and!.
Qed.

Lemma parseReply_ok id status st rest :
  st_type st = Reply → is_ok_in (st_stream st) → heap_block (is_start (st_stream st)) → in_u 32 id → in_u 32 status →
  avail (st_stream st) = be_bytes 4 id ++ be_bytes 4 status ++ rest →
  ∃ st', parseReply st = Ok (0, Some id, Some status, st') ∧ is_ok_in (st_stream st') ∧
    avail (st_stream st') = rest ∧ ready (state_reset st').
Proof.
  intros Hty Hok Hheap Hid Hst Hav. unfold parseReply. rewrite Hty. cbn [Z.eqb Request Reply].
  destruct (read_uint_heap _ _ _ Hok Hid Hheap Hav) as (s1 & -> & Hs1 & Hh1 & Hav1). rewrite bind_Ok. cbn [negb].
  destruct (read_uint_heap _ _ _ Hs1 Hst Hh1 Hav1) as (s2 & -> & Hs2 & Hh2 & Hav2). rewrite bind_Ok. cbn [negb].
  eexists. split; [done|]. split_and!; try done. split_and!; [exact Hh2|apply Hs2|done|done].
Qed.

End sending.

(** ** Properties *)

Record call := mkCall {
  cl_requestId : Z;
  cl_responseFlags : Z;
  cl_identity : Identity;
  cl_operation : list Z;
  cl_arguments : list item }.

Definition call_items (c : call) : list item :=
  [IUInt (cl_requestId c); IOctet (cl_responseFlags c); IString (id_name (cl_identity c));
   IString (id_category (cl_identity c)); IString (cl_operation c)] ++ cl_arguments c.

(** What a proxy does to build a request. *)
Definition compose_request `{Allocator, Host} (c : call) (size : Z) : result OutputStream :=
  os ← startMessage Request (OutputStream_new size);
  os ← writeRequestHeader (cl_requestId c) (cl_responseFlags c) (cl_identity c) (cl_operation c) os;
  write_items (cl_arguments c) os.

(** C30: a request reaches the servant as it was made.  A request of at most
    65000 bytes is sent with result 1; a server between two messages, to which
    these bytes come in any pieces with any stalls that [select] sees end,
    completes the message in one call of [handleInput] and reads from the
    transferred contents the request id, whether a response is expected, the
    identity, the operation, and then the arguments.  After [reset] it is
    between two messages again, and the bytes that follow are untouched. *)
Theorem request_round_trip `{Allocator, Host, Uninit} c size tx :
  Forall item_ok (call_items c) → 5 + len (mjoin (encode <$> call_items c)) ≤ os_limit →
  5 ≤ size < 2 ^ 61 ∨ size = 0 → sk_out tx = [] → sk_sent tx = [] →
  ∃ os os' tx', compose_request c size = Ok os ∧ sendMessage (Some tx) os = Ok (1, os', Some tx') ∧
    sk_sent tx' = frame Request (mjoin (encode <$> call_items c)) ∧
    ∀ st rx rest, ready st → incoming rx (sk_sent tx' ++ rest) →
    ∃ st' rx' s s', handleInput st rx = Ok (1, st', rx') ∧ st_type st' = Request ∧
      ServerRequest_new (InputStream_transfer (st_stream st')).1 =
        Ok (0, mkRequest (cl_operation c) (negb (cl_responseFlags c =? 0)) (cl_requestId c) (cl_identity c), s) ∧
      read_items (kind_of <$> cl_arguments c) s = Ok (cl_arguments c, s') ∧
      ready (state_reset (with_stream (InputStream_transfer (st_stream st')).2 st')) ∧ incoming rx' rest.
Proof.
  intros Hitems Hlim Hsize Hout Hsent.
  destruct (start_write_ok Request (call_items c) size) as (os0 & os & Hst & Hw & Hs & Hh & Hsw & Hl & Hc); try done.
  assert (compose_request c size = Ok os) as Hcomp.
  { unfold compose_request. rewrite Hst, bind_Ok, writeRequestHeader_items. unfold call_items in Hw.
    by rewrite write_items_app in Hw. }
  destruct (sendMessage_ok os Request (mjoin (encode <$> call_items c)) tx) as (os' & tx' & Hsend & Htx); try done.
  exists os, os', tx'. split_and!; try done. intros st rx rest Hready Hin. rewrite Htx in Hin.
  destruct (handleInput_ok Request (mjoin (encode <$> call_items c)) rest st rx Hready Hin)
    as (st' & rx' & Hhi & [Hty Hsz Hheap Hok (more & Hav)] & Hin');
    [unfold call_items; by rewrite fmap_app|unfold os_limit in Hlim; lia|].
  unfold call_items in Hitems, Hav. rewrite fmap_app, join_app, <- app_assoc in Hav. cbn [app] in Hitems.
  apply Forall_cons_1 in Hitems as [Hid Hitems]. apply Forall_cons_1 in Hitems as [Hfl Hitems].
  apply Forall_cons_1 in Hitems as [Hn Hitems]. apply Forall_cons_1 in Hitems as [Hca Hitems].
  apply Forall_cons_1 in Hitems as [Hop Hargs].
  assert (is_ok_in (InputStream_transfer (st_stream st')).1) as Hok1 by (split; [apply Hok|done]).
  destruct (ServerRequest_new_ok (cl_requestId c) (cl_responseFlags c) (cl_identity c) (cl_operation c)
    (InputStream_transfer (st_stream st')).1 (mjoin (encode <$> cl_arguments c) ++ more)) as (s & Hsr & Hs1 & Hav1); try done.
  destruct (read_items_ok (cl_arguments c) s more Hargs Hs1 Hav1) as (s' & Hr & _).
  exists st', rx', s, s'. split_and!; try done.
  destruct (fresh_heap_block (b_capacity (is_start (st_stream st')))) as [Hf _];
    [destruct Hheap as (_ & _ & ?); unfold b_capacity in *; lia|].
  split_and!; [exact Hf|apply Hok|done|done].
Qed.

Definition sample_call : call :=
  mkCall 7 1 (mkIdentity [111; 98; 106] []) [97; 100; 100] [IInt 40; IInt 2].

Lemma sample_call_ok : Forall item_ok (call_items sample_call).
Proof.
  repeat (apply Forall_cons; split); [..|constructor]; cbn [item_ok]; unfold string_ok, in_s, in_u; cbn;
    repeat (split || apply Forall_cons || apply Forall_nil); unfold is_byte; lia.
Qed.

(** The bytes of that request in two pieces, with a stall between them. *)
Definition sample_request_wire : list Z := @frame Request (mjoin (@encode host_le <$> call_items sample_call)).
Definition sample_request_socket : socket :=
  mkSocket [Data (take 3 sample_request_wire); Fails EWOULDBLOCK; Data (drop 3 sample_request_wire)] [Ready] [] [] 0.

Lemma request_round_trip_witness :
  ∃ st' rx' s s',
    @handleInput zero_memory host_le (@IcmMessageState_new zero_memory host_le) sample_request_socket = Ok (1, st', rx') ∧
    @ServerRequest_new host_le uninit_7 (@InputStream_transfer zero_memory host_le (st_stream st')).1 =
      Ok (0, mkRequest [97; 100; 100] true 7 (mkIdentity [111; 98; 106] []), s) ∧
    @read_items host_le uninit_7 (kind_of <$> [IInt 40; IInt 2]) s = Ok ([IInt 40; IInt 2], s').
Proof.
  destruct (@request_round_trip zero_memory host_le uninit_7 sample_call 0 (mkSocket [] [] [] [] 0) sample_call_ok)
    as (os & os' & tx' & _ & _ & Hwire & Hrx).
  - vm_compute. discriminate.
  - right. reflexivity.
  - reflexivity.
  - reflexivity.
  - destruct (Hrx (@IcmMessageState_new zero_memory host_le) sample_request_socket [])
      as (st' & rx' & s & s' & H1 & _ & H2 & H3 & _).
    + exact (@new_ready zero_memory host_le).
    + rewrite Hwire. split; [repeat constructor; vm_compute; discriminate|]. split; [vm_compute; reflexivity|].
      exists 1%nat, []. split; [reflexivity|vm_compute; lia].
    + exists st', rx', s, s'. exact (conj H1 (conj H2 H3)).
Defined.

(** a reply finds its request.  What a server writes with [initReply] and
    the results is completed by one call of [handleInput] at the client;
    [parseReply] returns 0 with the id of the request and no exception, and
    the results are next to be read.  After [reset] the next reply can come. *)
Lemma reply_round_trip `{Allocator, Host, Uninit} rq results size tx :
  in_u 32 (rq_requestId rq) → Forall item_ok results → 13 + len (mjoin (encode <$> results)) ≤ os_limit →
  5 ≤ size < 2 ^ 61 ∨ size = 0 → sk_out tx = [] → sk_sent tx = [] →
  ∃ os0 os os' tx', initReply rq (OutputStream_new size) = Ok os0 ∧ write_items results os0 = Ok os ∧
    sendMessage (Some tx) os = Ok (1, os', Some tx') ∧
    ∀ st rx rest, ready st → incoming rx (sk_sent tx' ++ rest) →
    ∃ st1 rx' st2 s', handleInput st rx = Ok (1, st1, rx') ∧
      parseReply st1 = Ok (0, Some (rq_requestId rq), Some ICM_NO_EXCEPTION, st2) ∧
      read_items (kind_of <$> results) (st_stream st2) = Ok (results, s') ∧
      ready (state_reset st2) ∧ incoming rx' rest.
Proof.
  intros Hid Hres Hlim Hsize Hout Hsent. unfold len in *.
  set (l := IUInt (rq_requestId rq) :: IUInt ICM_NO_EXCEPTION :: results).
  assert (Forall item_ok l) as Hl by (constructor; [done|]; constructor; [unfold item_ok, in_u, ICM_NO_EXCEPTION; lia|done]).
  assert (mjoin (encode <$> l) = be_bytes 4 (rq_requestId rq) ++ be_bytes 4 ICM_NO_EXCEPTION ++ mjoin (encode <$> results)) as Henc by done.
  destruct (start_write_ok Reply l size) as (os0 & os & Hst & Hw & Hs & Hh & Hsw & Hll & Hc); try done.
  { unfold len. rewrite Henc, !length_app, !length_be_bytes. lia. }
  assert (∃ os1, initReply rq (OutputStream_new size) = Ok os1 ∧ write_items results os1 = Ok os) as (os1 & Hi & Hwr).
  { unfold initReply. rewrite Hst, bind_Ok. unfold l in Hw. cbn [write_items write_item] in Hw.
    apply bind_inv in Hw as ([? s1] & -> & Hw). rewrite bind_Ok.
    apply bind_inv in Hw as ([? s2] & -> & Hw). rewrite bind_Ok. by exists s2. }
  destruct (sendMessage_ok os Reply (mjoin (encode <$> l)) tx) as (os' & tx' & Hsend & Htx); try done.
  exists os1, os, os', tx'. split_and!; try done. intros st rx rest Hready Hin. rewrite Htx in Hin.
  destruct (handleInput_ok Reply (mjoin (encode <$> l)) rest st rx Hready Hin)
    as (st1 & rx' & Hhi & [Hty Hsz Hheap Hok (more & Hav)] & Hin');
    [done|unfold len; rewrite Henc, !length_app, !length_be_bytes; unfold os_limit in Hlim; lia|].
  rewrite Henc, <- !app_assoc in Hav.
  destruct (parseReply_ok (rq_requestId rq) ICM_NO_EXCEPTION st1 (mjoin (encode <$> results) ++ more))
    as (st2 & Hpr & Hs2 & Hav2 & Hready2); try done.
  destruct (read_items_ok results _ more Hres Hs2 Hav2) as (s' & Hr & _).
  by exists st1, rx', st2, s'.
Qed.

Lemma reply_round_trip_witness :
  ∃ os0 os os' tx', @initReply zero_memory host_le (mkRequest [97] true 7 (mkIdentity [] [])) (@OutputStream_new zero_memory host_le 0) = Ok os0 ∧
    @write_items zero_memory host_le [IInt 42] os0 = Ok os ∧
    @sendMessage host_le (Some (mkSocket [] [] [] [] 0)) os = Ok (1, os', Some tx').
Proof.
  destruct (@reply_round_trip zero_memory host_le uninit_7 (mkRequest [97] true 7 (mkIdentity [] [])) [IInt 42] 0 (mkSocket [] [] [] [] 0))
    as (os0 & os & os' & tx' & H1 & H2 & H3 & _).
  - split; [cbn; lia|vm_compute; reflexivity].
  - constructor; [split; vm_compute; [discriminate|reflexivity]|constructor].
  - vm_compute. discriminate.
  - right. reflexivity.
  - reflexivity.
  - reflexivity.
  - exists os0, os, os', tx'. exact (conj H1 (conj H2 H3)).
Defined.

(** *** Errors in a request header *)

Section errors.

Context `{Allocator, Host, Uninit}.

(** A read that leaves the good bit set found it set, and succeeded. *)
Lemma read_uint_good s r v s' :
  read_uint s = Ok (r, v, s') → is_good s' = true → is_good s = true ∧ r = true ∧ ∃ x, v = Some x.
Proof.
  unfold read_uint, read_value, read_4, read_n, is_adjust. intros Hr Hg.
  destruct (_ <=? _); cbn [Z.eqb] in Hr.
  - destruct (load _ _ _) as [x|]; [|done]. cbn in Hr. inv_ok. cbn in Hg. eauto.
  - cbn in Hr. by inv_ok.
Qed.

Lemma read_octet_good s r v s' :
  read_octet s = Ok (r, v, s') → is_good s' = true → is_good s = true ∧ r = true ∧ ∃ x, v = Some x.
Proof.
  unfold read_octet, read_value, read_1. intros Hr Hg. destruct (_ <? _).
  - destruct (load _ _ _) as [x|]; [|done]. cbn in Hr. inv_ok. cbn in Hg. eauto.
  - cbn in Hr. by inv_ok.
Qed.

Lemma read_array_good size n s r v s' :
  read_array size n s = Ok (r, v, s') → (r = true → is_good s' = true) ∧ (is_good s' = true → is_good s = true).
Proof.
  unfold read_array, is_adjust. intros Hr. destruct (_ <=? _); cbn [Z.eqb] in Hr.
  - destruct (read_elems _ _ _ _) as [x|]; [|done]. cbn in Hr. by inv_ok.
  - cbn in Hr. by inv_ok.
Qed.

Lemma read_string_good s r v s' :
  read_string s = Ok (r, v, s') → (r = true → is_good s' = true) ∧ (is_good s' = true → is_good s = true).
Proof.
  unfold read_string, read_string_c. intros Hr. apply bind_inv in Hr as ([[r1 data] s1] & Hc & Hr).
  apply bind_inv in Hc as ([[r0 l] s0] & Hu & Hc). destruct (_ >? 0).
  - apply bind_inv in Hc as ([[r2 x] s2] & Ha & Hc). unfold read_char_array, read_numbers in Ha.
    apply bind_inv in Ha as ([[r3 y] s3] & Ha & Ha2). inv_ok. apply read_array_good in Ha as [Ht Hg].
    assert (s' = s2 ∧ (r = true → r2 = true)) as [-> Hrr].
    { destruct r2; inv_ok; [|done]. destruct (option_map _ y); [|done]. apply bind_inv in Hr as (? & _ & Hr). by inv_ok. }
    split; [auto|]. intros Hgs. apply Hg in Hgs. by eapply read_uint_good in Hgs as [? _].
  - inv_ok. split; [done|]. intros Hgs. by eapply read_uint_good in Hgs as [? _].
Qed.

End errors.

(** a truncated request header is refused.  [parseHeader] keeps only the
    status of its last read; that is enough: when it reports no error, the
    good bit is still set, and with it the reads of the request id and of the
    response flag have succeeded on streams with the good bit set, whatever
    the bytes are. *)
Lemma request_errors_detected `{Host, Uninit} s rq s' :
  ServerRequest_new s = Ok (0, rq, s') →
  is_good s = true ∧ is_good s' = true ∧
  ∃ id s1 flags s2, read_uint s = Ok (true, Some id, s1) ∧ rq_requestId rq = id ∧
    read_octet s1 = Ok (true, Some flags, s2) ∧ rq_responseExpected rq = negb (flags =? 0).
Proof.
  unfold ServerRequest_new. intros Hr.
  apply bind_inv in Hr as ([[r1 id] s1] & H1 & Hr). apply bind_inv in Hr as ([[r2 fl] s2] & H2 & Hr).
  apply bind_inv in Hr as ([[r3 n] s3] & H3 & Hr). apply bind_inv in Hr as ([[r4 c] s4] & H4 & Hr).
  apply bind_inv in Hr as ([[r5 op] s5] & H5 & Hr). destruct r5; [|done]. inv_ok.
  apply read_string_good in H5 as [Hg5 Hm5]. apply read_string_good in H4 as [_ Hm4].
  apply read_string_good in H3 as [_ Hm3]. pose proof (Hg5 eq_refl) as Hg. pose proof (Hm3 (Hm4 (Hm5 Hg))) as Hg2.
  destruct (read_octet_good _ _ _ _ H2 Hg2) as (Hg1 & -> & flags & ->).
  destruct (read_uint_good _ _ _ _ H1 Hg1) as (Hg0 & -> & x & ->).
  split_and!; try done. by exists x, s1, flags, s2.
Qed.

Definition sample_header : InputStream :=
  input_le [0; 0; 0; 7; 1; 0; 0; 0; 1; 0; 0; 0; 0; 1; 0; 0; 0; 0; 2; 97; 0].

Lemma request_errors_detected_witness :
  ∃ rq s', @ServerRequest_new host_le uninit_7 sample_header = Ok (0, rq, s') ∧ is_good s' = true.
Proof.
  destruct (@ServerRequest_new host_le uninit_7 sample_header) as [[[e rq] s']|e] eqn:E;
    pose proof E as E'; vm_compute in E'; [|discriminate E'].
  injection E' as <- _ _. exists rq, s'. split; [reflexivity|].
  exact (proj1 (proj2 (@request_errors_detected host_le uninit_7 _ _ _ E))).
Defined.
