(* ===== verification/CppLib.v ===== *)
(** * CppLib: what the broker uses of the C++ library

    [std::set] and [std::map] are stdpp's [gset] and [gmap]; iteration goes
    through the keys in ascending order (for pointers: by address), so a loop
    over a container is a loop over the sorted list [set_iter].  [operator[]]
    of a map of sets inserts an empty set for a key that is absent.  Text
    streams: [>>] into a string or an [int] as [std::istream] defines them,
    with the states [eofbit] and [failbit]. *)
From Stdlib Require Import DecimalZ DecimalPos.
From stdpp Require Import sorting.
From S2P Require Import Prelude.

(** ** Keys and their order *)

Class Key A := {
  key_le : relation A;
  key_le_dec :: RelDecision key_le;
  key_le_refl :: Reflexive key_le;
  key_le_trans :: Transitive key_le;
  key_le_antisymm :: AntiSymm (=) key_le;
  key_le_total :: Total key_le }.

#[export] Instance Z_key : Key Z := {| key_le := Z.le |}.

(** [std::string::compare]: bytes are compared as unsigned characters. *)
Fixpoint lex_le (a b : list Z) : Prop :=
  match a, b with
  | [], _ => True
  | _ :: _, [] => False
  | x :: a, y :: b => x < y ∨ x = y ∧ lex_le a b
  end.

#[export] Instance lex_le_dec : RelDecision lex_le.
Proof.
  intros a. induction a as [|x a IH]; intros [|y b]; cbn; try (apply _).
Defined.

#[export] Program Instance string_key : Key (list Z) := {| key_le := lex_le |}.
Next Obligation. intros a. induction a; cbn; auto. Qed.
Next Obligation.
  intros a. induction a as [|x a IH]; intros [|y b] [|z c]; cbn; try tauto.
  intros [?|[-> ?]] [?|[-> ?]]; eauto with lia.
Qed.
Next Obligation.
  intros a. induction a as [|x a IH]; intros [|y b]; cbn; try tauto.
  intros [?|[-> ?]] [?|[? ?]]; try lia. f_equal. by apply IH.
Qed.
Next Obligation.
  intros a. induction a as [|x a IH]; intros [|y b]; cbn; try tauto.
  destruct (IH b); destruct (Z.lt_trichotomy x y) as [|[->|]]; tauto.
Qed.

(** ** Sets and maps *)

Section containers.

Context `{Countable K, !Key K}.

(** The order in which a loop visits the elements. *)
Definition set_iter (X : gset K) : list K := merge_sort key_le (elements X).

(** The entries of a map in the order of their keys. *)
Definition map_iter {V} (m : gmap K V) : list (K * V) :=
  omap (λ k, pair k <$> m !! k) (set_iter (dom m)).

Lemma set_iter_perm X : set_iter X ≡ₚ elements X.
Proof. apply merge_sort_Permutation. Qed.

Lemma elem_of_set_iter X x : x ∈ set_iter X ↔ x ∈ X.
Proof. by rewrite set_iter_perm, elem_of_elements. Qed.

Lemma NoDup_set_iter X : NoDup (set_iter X).
Proof. rewrite set_iter_perm. apply NoDup_elements. Qed.

(** The loop visits the elements in ascending order. *)
Lemma set_iter_sorted X : StronglySorted key_le (set_iter X).
Proof. apply StronglySorted_merge_sort; apply _. Qed.

Lemma length_set_iter X : length (set_iter X) = size X.
Proof. by rewrite set_iter_perm. Qed.

Lemma set_iter_empty : set_iter ∅ = [].
Proof. unfold set_iter. by rewrite elements_empty. Qed.

Lemma set_iter_singleton x : set_iter {[x]} = [x].
Proof. unfold set_iter. by rewrite elements_singleton. Qed.

Lemma elem_of_map_iter {V} (m : gmap K V) k v : (k, v) ∈ map_iter m ↔ m !! k = Some v.
Proof.
  unfold map_iter. rewrite list_elem_of_omap. setoid_rewrite elem_of_set_iter. split.
  - intros (x & _ & Hx). destruct (m !! x) eqn:E; cbn in Hx; [|done]. by simplify_eq.
  - intros Hk. exists k. split; [by apply elem_of_dom|]. by rewrite Hk.
Qed.

Lemma length_map_iter {V} (m : gmap K V) : (length (map_iter m) ≤ size m)%nat.
Proof.
  unfold map_iter. rewrite <- size_dom, <- (length_set_iter (dom m)).
  induction (set_iter (dom m)) as [|k l IH]; cbn; [lia|]. destruct (m !! k); cbn; lia.
Qed.

Lemma map_iter_singleton {V} k (v : V) : map_iter {[k := v]} = [(k, v)].
Proof. unfold map_iter. rewrite dom_singleton_L, set_iter_singleton. cbn. by rewrite lookup_singleton_eq. Qed.

End containers.

Section map_of_sets.

Context `{Countable K, Countable A}.
Implicit Types m : gmap K (gset A).

(** The set [m[k]] refers to ... *)
Definition at_ (k : K) m : gset A := default ∅ (m !! k).

(** ... after [operator[]] put it there. *)
Definition touch (k : K) m : gmap K (gset A) := <[k := at_ k m]> m.

(** [m[k].insert (a)] and [m[k].erase (a)]. *)
Definition insert_at (k : K) (a : A) m : gmap K (gset A) := <[k := {[a]} ∪ at_ k m]> m.
Definition erase_at (k : K) (a : A) m : gmap K (gset A) := <[k := at_ k m ∖ {[a]}]> m.

Lemma at_touch k j m : at_ k (touch j m) = at_ k m.
Proof.
  unfold touch, at_ at 1. destruct (decide (j = k)) as [->|]; [by rewrite lookup_insert_eq|].
  by rewrite lookup_insert_ne.
Qed.

Lemma at_insert_at k j a m : at_ k (insert_at j a m) = if decide (k = j) then {[a]} ∪ at_ k m else at_ k m.
Proof.
  unfold insert_at, at_ at 1. destruct (decide (k = j)) as [->|]; [by rewrite lookup_insert_eq|].
  by rewrite lookup_insert_ne.
Qed.

Lemma at_erase_at k j a m : at_ k (erase_at j a m) = if decide (k = j) then at_ k m ∖ {[a]} else at_ k m.
Proof.
  unfold erase_at, at_ at 1. destruct (decide (k = j)) as [->|]; [by rewrite lookup_insert_eq|].
  by rewrite lookup_insert_ne.
Qed.

Lemma at_delete k j m : at_ k (delete j m) = if decide (k = j) then ∅ else at_ k m.
Proof.
  unfold at_. destruct (decide (k = j)) as [->|]; [by rewrite lookup_delete_eq|].
  by rewrite lookup_delete_ne.
Qed.

Lemma elem_of_at_dom k a m : a ∈ at_ k m → k ∈ dom m.
Proof. unfold at_. rewrite elem_of_dom. destruct (m !! k); cbn; [eauto|set_solver]. Qed.

Lemma at_nonempty_dom k m : at_ k m ≠ ∅ → k ∈ dom m.
Proof. unfold at_. rewrite elem_of_dom. destruct (m !! k); cbn; [eauto|done]. Qed.

Lemma at_empty k : at_ k ∅ = ∅.
Proof. done. Qed.

(** Two maps that answer every [m[k]] alike: they may differ in keys whose set is empty. *)
Definition same_sets m m' : Prop := ∀ k, at_ k m = at_ k m'.

#[export] Instance same_sets_equiv : Equivalence same_sets.
Proof.
  split; [done | intros ?? Hxy k; by rewrite Hxy | intros ??? Hxy Hyz k; by rewrite Hxy].
Qed.

#[export] Instance insert_at_proper : Proper ((=) ==> (=) ==> same_sets ==> same_sets) insert_at.
Proof. intros k ? <- a ? <- m m' Hm j. by rewrite !at_insert_at, Hm. Qed.

#[export] Instance erase_at_proper : Proper ((=) ==> (=) ==> same_sets ==> same_sets) erase_at.
Proof. intros k ? <- a ? <- m m' Hm j. by rewrite !at_erase_at, Hm. Qed.

Lemma touch_same k m : same_sets (touch k m) m.
Proof. intros j. apply at_touch. Qed.

End map_of_sets.

(** A loop whose body changes the state and may fault. *)
Fixpoint foreach {A S} (f : A → S → result S) (l : list A) (s : S) : result S :=
  match l with
  | [] => Ok s
  | a :: l => s ← f a s; foreach f l s
  end.

Lemma foreach_app {A S} (f : A → S → result S) l l' s :
  foreach f (l ++ l') s = s ← foreach f l s; foreach f l' s.
Proof. revert s. induction l as [|a l IH]; intros s; cbn; [done|]. destruct (f a s); cbn; auto. Qed.

(** A loop keeps what its body keeps, and does not fault when its body does not. *)
(** An invariant of the body is one of the loop. *)
Lemma foreach_inv {A S} (f : A → S → result S) (P : S → Prop) :
  (∀ a s s', P s → f a s = Ok s' → P s') → ∀ l s s', P s → foreach f l s = Ok s' → P s'.
Proof.
  intros Hf l. induction l as [|a l IH]; intros s s' Hs Hr; cbn in Hr; [by inv_ok|].
  apply bind_inv in Hr as (s1 & E & Hr). eauto.
Qed.

Lemma foreach_ok {A S} (f : A → S → result S) (P : list A → S → Prop) l s :
  P [] s → (∀ l1 a l2 s, l = l1 ++ a :: l2 → P l1 s → ∃ s', f a s = Ok s' ∧ P (l1 ++ [a]) s') →
  ∃ s', foreach f l s = Ok s' ∧ P l s'.
Proof.
  intros H0 Hs. assert (∀ l1 l2 s, l = l1 ++ l2 → P l1 s → ∃ s', foreach f l2 s = Ok s' ∧ P l s') as Hgen.
  { intros l1 l2. revert l1. induction l2 as [|a l2 IH]; intros l1 s1 Hl HP.
    - rewrite app_nil_r in Hl. subst. by eauto.
    - destruct (Hs l1 a l2 s1 Hl HP) as (s2 & Hf & HP2). cbn. rewrite Hf, bind_Ok.
      apply (IH (l1 ++ [a])); [by rewrite <- app_assoc|done]. }
  by apply (Hgen []).
Qed.

(** ** Text *)

Definition is_space (c : Z) : bool := (c =? 32) || ((9 <=? c) && (c <=? 13)).
Definition is_digit (c : Z) : bool := (48 <=? c) && (c <=? 57).

(** [os << n] for an [int]. *)
Fixpoint show_uint (d : Decimal.uint) : list Z :=
  match d with
  | Decimal.Nil => []
  | Decimal.D0 d => 48 :: show_uint d
  | Decimal.D1 d => 49 :: show_uint d
  | Decimal.D2 d => 50 :: show_uint d
  | Decimal.D3 d => 51 :: show_uint d
  | Decimal.D4 d => 52 :: show_uint d
  | Decimal.D5 d => 53 :: show_uint d
  | Decimal.D6 d => 54 :: show_uint d
  | Decimal.D7 d => 55 :: show_uint d
  | Decimal.D8 d => 56 :: show_uint d
  | Decimal.D9 d => 57 :: show_uint d
  end.

Definition show_int (n : Z) : list Z :=
  match Z.to_int n with
  | Decimal.Pos d => show_uint d
  | Decimal.Neg d => 45 :: show_uint d
  end.

(** The digits at the head of a text, and what follows. *)
Fixpoint take_digits (t : list Z) : Decimal.uint * list Z :=
  match t with
  | [] => (Decimal.Nil, [])
  | c :: t' =>
      let '(d, r) := take_digits t' in
      if c =? 48 then (Decimal.D0 d, r) else if c =? 49 then (Decimal.D1 d, r)
      else if c =? 50 then (Decimal.D2 d, r) else if c =? 51 then (Decimal.D3 d, r)
      else if c =? 52 then (Decimal.D4 d, r) else if c =? 53 then (Decimal.D5 d, r)
      else if c =? 54 then (Decimal.D6 d, r) else if c =? 55 then (Decimal.D7 d, r)
      else if c =? 56 then (Decimal.D8 d, r) else if c =? 57 then (Decimal.D9 d, r)
      else (Decimal.Nil, t)
  end.

#[export] Instance uint_eq_dec : EqDecision Decimal.uint.
Proof. solve_decision. Defined.

(** An input stream: the characters to come and the two state bits. *)
Record istream := mkIstream { i_text : list Z; i_eof : bool; i_fail : bool }.

Fixpoint skip_space (t : list Z) : list Z :=
  match t with
  | [] => []
  | c :: t' => if is_space c then skip_space t' else t
  end.

Fixpoint take_token (t : list Z) : list Z * list Z :=
  match t with
  | [] => ([], [])
  | c :: t' => if is_space c then ([], t) else let '(w, r) := take_token t' in (c :: w, r)
  end.

(** [is >> str]: [str] keeps its value when there is no character to take. *)
Definition get_string (str : list Z) (i : istream) : list Z * istream :=
  if i_eof i || i_fail i then (str, mkIstream (i_text i) (i_eof i) true)
  else
    let t := skip_space (i_text i) in
    match t with
    | [] => (str, mkIstream [] true true)
    | _ =>
        let '(w, r) := take_token t in
        (w, mkIstream r (bool_decide (r = [])) false)
    end.

(** [is >> n] for an [int]: an unreadable number gives 0, one out of range
    the nearest [int]; both set [failbit]. *)
Definition get_int (n : Z) (i : istream) : Z * istream :=
  if i_eof i || i_fail i then (n, mkIstream (i_text i) (i_eof i) true)
  else
    let t := skip_space (i_text i) in
    match t with
    | [] => (n, mkIstream [] true true)
    | c :: t' =>
        let '(d, r) := take_digits (if (c =? 45) || (c =? 43) then t' else t) in
        let e := bool_decide (r = []) in
        let v := Z.of_int (if c =? 45 then Decimal.Neg d else Decimal.Pos d) in
        if decide (d = Decimal.Nil) then (0, mkIstream r e true)
        else if v <? - 2 ^ 31 then (- 2 ^ 31, mkIstream r e true)
        else if 2 ^ 31 <=? v then (2 ^ 31 - 1, mkIstream r e true)
        else (v, mkIstream r e false)
    end.

(** A word: not empty and without white space. *)
Definition word (w : list Z) : Prop := w ≠ [] ∧ Forall (λ c, is_space c = false) w.

#[export] Instance word_dec w : Decision (word w).
Proof. unfold word. apply _. Defined.

Lemma take_token_word w c t :
  Forall (λ c, is_space c = false) w → is_space c = true → take_token (w ++ c :: t) = (w, c :: t).
Proof.
  intros Hw Hc. induction Hw as [|x w Hx _ IH]; cbn; [by rewrite Hc|]. by rewrite Hx, IH.
Qed.

(** A word and the space after it are read as that word. *)
Lemma get_string_word str w c t :
  word w → is_space c = true →
  get_string str (mkIstream (w ++ c :: t) false false) = (w, mkIstream (c :: t) false false).
Proof.
  intros [Hne Hw] Hc. unfold get_string. cbn [i_eof i_fail orb i_text].
  destruct Hw as [|x w Hx Hw]; [done|]. cbn [app skip_space]. rewrite Hx.
  rewrite app_comm_cons, take_token_word; [done|by constructor|done].
Qed.

Lemma get_string_space str c w t :
  is_space c = true → get_string str (mkIstream (c :: w ++ t) false false) = get_string str (mkIstream (w ++ t) false false).
Proof. intros Hc. unfold get_string. cbn [i_eof i_fail orb i_text skip_space]. by rewrite Hc. Qed.

Lemma get_int_space n c t :
  is_space c = true → get_int n (mkIstream (c :: t) false false) = get_int n (mkIstream t false false).
Proof. intros Hc. unfold get_int. cbn [i_eof i_fail orb i_text skip_space]. by rewrite Hc. Qed.

Lemma get_string_end str c :
  is_space c = true → get_string str (mkIstream [c] false false) = (str, mkIstream [] true true).
Proof. intros Hc. unfold get_string. cbn. by rewrite Hc. Qed.

(** What may follow a number: nothing, or a space. *)
Definition ends_number (rest : list Z) : Prop := match rest with [] => True | c :: _ => is_space c = true end.

Lemma take_digits_show d rest : ends_number rest → take_digits (show_uint d ++ rest) = (d, rest).
Proof.
  intros Hc. induction d; cbn [show_uint app take_digits]; try (rewrite IHd; done).
  destruct rest as [|c t]; [done|]. cbn [take_digits]. destruct (take_digits t). unfold ends_number, is_space in Hc.
  repeat match goal with |- context [c =? ?k] => destruct (Z.eqb_spec c k) as [->|]; [done|] end. done.
Qed.

Lemma show_uint_not_space d : Forall (λ c, is_space c = false) (show_uint d).
Proof. induction d; cbn; auto. Qed.

Lemma show_uint_nonempty d : d ≠ Decimal.Nil → show_uint d ≠ [].
Proof. by destruct d. Qed.

Lemma to_uint_nonempty p : Pos.to_uint p ≠ Decimal.Nil.
Proof. apply DecimalPos.Unsigned.to_uint_nonnil. Qed.

(** A printed number is a word. *)
Lemma show_int_word n : word (show_int n).
Proof.
  unfold show_int. destruct n as [|p|p]; cbn [Z.to_int].
  - split; [done|repeat constructor].
  - split; [apply show_uint_nonempty, to_uint_nonempty|apply show_uint_not_space].
  - split; [done|]. constructor; [done|apply show_uint_not_space].
Qed.

(** A printed [int] is read back. *)
Lemma get_int_printed n n0 rest :
  in_s 32 n → ends_number rest →
  get_int n0 (mkIstream (show_int n ++ rest) false false) = (n, mkIstream rest (bool_decide (rest = [])) false).
Proof.
  intros Hn Hc. unfold get_int. cbn [i_eof i_fail orb i_text].
  pose proof (DecimalZ.of_to n) as Hof. unfold show_int.
  assert (∀ d, d ≠ Decimal.Nil → ∃ x r, show_uint d = x :: r ∧ is_space x = false ∧ (x =? 45) = false ∧ (x =? 43) = false) as Hd.
  { intros [] ?; try done; cbn; eauto 8. }
  unfold in_s in Hn. change (2 ^ (32 - 1)) with (2 ^ 31) in Hn.
  destruct n as [|p|p]; cbn [Z.to_int] in *.
  - cbn [show_uint app skip_space]. change (is_space 48) with false. cbn [Z.eqb Pos.eqb orb].
    change (48 :: rest) with (show_uint (Decimal.D0 Decimal.Nil) ++ rest).
    rewrite take_digits_show by done. done.
  - destruct (Hd (Pos.to_uint p)) as (x & r & Hx & Hsp & H45 & H43); [apply to_uint_nonempty|].
    rewrite Hx. cbn [app skip_space]. rewrite Hsp, H45, H43. cbn [orb].
    rewrite app_comm_cons, <- Hx, take_digits_show by done.
    rewrite decide_False by apply to_uint_nonempty. rewrite Hof.
    rewrite (proj2 (Z.ltb_ge _ _)), (proj2 (Z.leb_gt _ _)) by lia. done.
  - cbn [app skip_space]. change (is_space 45) with false. cbn [Z.eqb Pos.eqb orb].
    rewrite take_digits_show by done. rewrite decide_False by apply to_uint_nonempty. rewrite Hof.
    rewrite (proj2 (Z.ltb_ge _ _)), (proj2 (Z.leb_gt _ _)) by lia. done.
Qed.

Lemma get_int_show n n0 c t :
  in_s 32 n → is_space c = true →
  get_int n0 (mkIstream (show_int n ++ c :: t) false false) = (n, mkIstream (c :: t) false false).
Proof. intros Hn Hc. by rewrite get_int_printed. Qed.

(** Once [failbit] is set and the end was not reached, nothing changes any more. *)
Lemma get_failed str n i : i_fail i = true → get_string str i = (str, i) ∧ get_int n i = (n, i).
Proof. intros Hf. unfold get_string, get_int. rewrite Hf, orb_true_r. by destruct i; cbn in *; subst. Qed.

(** *** Searching *)

(** Where a character is first in a string. *)
Fixpoint index_of (c : Z) (s : list Z) : option nat :=
  match s with
  | [] => None
  | x :: s => if x =? c then Some 0%nat else S <$> index_of c s
  end.

Lemma index_of_some c s t : ∃ i, index_of c (s ++ c :: t) = Some i.
Proof.
  induction s as [|x s [i IH]]; cbn [app index_of]; [rewrite Z.eqb_refl; by eexists|].
  destruct (x =? c); [by eexists|]. rewrite IH. by eexists.
Qed.

Lemma index_of_first c s t : Forall (λ x, x ≠ c) s → index_of c (s ++ c :: t) = Some (length s).
Proof.
  induction 1 as [|x s Hx _ IH]; cbn [app index_of length]; [by rewrite Z.eqb_refl|]. by rewrite (proj2 (Z.eqb_neq _ _) Hx), IH.
Qed.
