(* ===== verification/Properties.v ===== *)
(** * Properties: a table of named strings and its file (icc/Properties.cpp, icc/Properties.h)

    [Properties] is the map; [saveProperties] writes it as lines "key=value" in
    the order of the keys and [loadProperties] reads such lines from a stream.
    The stream is the text to come with its two state bits; [getline] is what
    the library does with it, up to the line it leaves alone when the stream
    was at its end.  [getDouble] and [getFloat] are left out. *)
From S2P Require Import Prelude CppLib.

Abbreviation str := (list Z) (only parsing).
Abbreviation Properties := (gmap (list Z) (list Z)) (only parsing).

(** ** removeLTSpaces *)

Definition is_lt_space (c : Z) : bool := (c =? 32) || (c =? 9) || (c =? 13) || (c =? 10).

Fixpoint drop_lt_spaces (s : str) : str :=
  match s with
  | [] => []
  | c :: s' => if is_lt_space c then drop_lt_spaces s' else s
  end.

Definition removeLTSpaces (s : str) : str := reverse (drop_lt_spaces (reverse (drop_lt_spaces s))).

(** ** Loading and saving *)

(** [getline (ist, line)]. *)
Fixpoint split_line (t : list Z) : list Z * option (list Z) :=
  match t with
  | [] => ([], None)
  | c :: t => if c =? 10 then ([], Some t) else let '(l, r) := split_line t in (c :: l, r)
  end.

Definition getline (line : str) (i : istream) : str * istream :=
  if i_eof i || i_fail i then (line, mkIstream (i_text i) (i_eof i) true)
  else
    let '(l, r) := split_line (i_text i) in
    match r with
    | Some t => (l, mkIstream t false false)
    | None => (l, mkIstream [] true (bool_decide (l = [])))
    end.

(** The body of the loop for one line. *)
Definition load_line (delimiter : Z) (multiline : bool) (line : str) (m : Properties) : Properties :=
  if bool_decide (head line = Some 35) then m
  else
    match index_of delimiter line with
    | None => m
    | Some pos =>
        let key := removeLTSpaces (take pos line) in
        let value := removeLTSpaces (drop (S pos) line) in
        if multiline then <[key := default [] (m !! key) ++ value]> m else <[key := value]> m
    end.

(** [while (ist)]: until a read has failed. *)
Fixpoint load_loop (fuel : nat) (delimiter : Z) (multiline : bool) (line : str) (i : istream) (m : Properties) : result Properties :=
  match fuel with
  | O => Fault OutOfFuel
  | S fuel =>
      if i_fail i then Ok m
      else
        let '(line, i) := getline line i in
        load_loop fuel delimiter multiline line i (load_line delimiter multiline line m)
  end.

Definition loadProperties_stream (text : list Z) (delimiter : Z) (multiline : bool) (m : Properties) : result Properties :=
  load_loop (length text + 3) delimiter multiline [] (mkIstream text false false) m.

(** [loadProperties (fileName, ...)]. *)
Definition loadProperties (file : option (list Z)) (delimiter : Z) (multiline : bool) (m : Properties) : result (Z * Properties) :=
  match file with
  | None => Ok (-1, m)
  | Some text => m ← loadProperties_stream text delimiter multiline m; Ok (0, m)
  end.

Definition show_property (e : str * str) : list Z := e.1 ++ [61] ++ e.2 ++ [10].

(** [saveProperties (fileName)]: the file it leaves. *)
Definition saveProperties (m : Properties) : list Z := mjoin (show_property <$> map_iter m).

(** [getList (outBuf, linePrefix)]. *)
Definition getList (outBuf linePrefix : str) (m : Properties) : str :=
  outBuf ++ mjoin ((λ e : str * str, if bool_decide (e.1 = []) then [] else linePrefix ++ show_property e) <$> map_iter m).

(** ** Typed access *)

Definition prop_set (key value : str) (m : Properties) : Properties := <[key := value]> m.
Definition getStr (key def : str) (m : Properties) : str := default def (m !! key).

(** [atol] of the C library: the number at the head, or the nearest [long]. *)
Definition atol (text : str) : Z :=
  let t := skip_space text in
  match t with
  | [] => 0
  | c :: t' =>
      let '(d, _) := take_digits (if (c =? 45) || (c =? 43) then t' else t) in
      let v := Z.of_int (if c =? 45 then Decimal.Neg d else Decimal.Pos d) in
      Z.max (- 2 ^ 63) (Z.min (2 ^ 63 - 1) v)
  end.

Definition atoi (text : str) : Z := s32 (atol text).

Definition getInt (key : str) (def : Z) (m : Properties) : Z := match m !! key with None => def | Some t => atoi t end.
Definition setInt (key : str) (value : Z) (m : Properties) : Properties := prop_set key (show_int value) m.
Definition getLong (key : str) (def : Z) (m : Properties) : Z := match m !! key with None => def | Some t => atol t end.
Definition setLong (key : str) (value : Z) (m : Properties) : Properties := prop_set key (show_int value) m.
Definition getLongLong (key : str) (def : Z) (m : Properties) : Z := match m !! key with None => def | Some t => atol t end.
Definition getInt64 (key : str) (def : Z) (m : Properties) : Z := match m !! key with None => def | Some t => u64 (atol t) end.

Definition str_true : str := [116; 114; 117; 101].
Definition str_false : str := [102; 97; 108; 115; 101].

Definition getBool (key : str) (def : bool) (m : Properties) : bool :=
  match m !! key with
  | None => def
  | Some value => if bool_decide (value = str_true) then true else if bool_decide (value = str_false) then false else def
  end.
Definition setBool (key : str) (value : bool) (m : Properties) : Properties := prop_set key (if value then str_true else str_false) m.

(** ** Lemmas *)

Lemma split_line_ok x t : Forall (λ c, c ≠ 10) x → split_line (x ++ 10 :: t) = (x, Some t).
Proof.
  induction 1 as [|c x Hc _ IH]; [done|]. cbn [app split_line]. by rewrite (proj2 (Z.eqb_neq _ _) Hc), IH.
Qed.

(** A text that [removeLTSpaces] leaves alone. *)
Definition no_lt_spaces (x : str) : Prop :=
  match head x with Some c => is_lt_space c = false | None => True end ∧ match last x with Some c => is_lt_space c = false | None => True end.

Lemma drop_lt_spaces_id x : match head x with Some c => is_lt_space c = false | None => True end → drop_lt_spaces x = x.
Proof. destruct x as [|c x]; [done|]. cbn. by intros ->. Qed.

Lemma removeLTSpaces_id x : no_lt_spaces x → removeLTSpaces x = x.
Proof.
  intros [Hh Hl]. unfold removeLTSpaces. rewrite (drop_lt_spaces_id x) by done. rewrite drop_lt_spaces_id; [apply reverse_involutive|].
  destruct x as [|y x _] using rev_ind; [done|]. rewrite last_snoc in Hl. by rewrite reverse_snoc.
Qed.

(** A property that survives the file: a new line, and in the key the delimiter
    and a leading "#", would be read as something else. *)
Definition storable (e : str * str) : Prop :=
  Forall (λ c, c ≠ 10) e.1 ∧ Forall (λ c, c ≠ 10) e.2 ∧ Forall (λ c, c ≠ 61) e.1 ∧ head e.1 ≠ Some 35 ∧
  no_lt_spaces e.1 ∧ no_lt_spaces e.2.

Lemma load_line_ok multiline k v m :
  storable (k, v) → load_line 61 multiline (k ++ 61 :: v) m = if multiline then <[k := default [] (m !! k) ++ v]> m else <[k := v]> m.
Proof.
  intros (_ & _ & Heq & Hh & Hk & Hv). cbn [fst snd] in *. unfold load_line.
  rewrite bool_decide_eq_false_2 by (by destruct k). rewrite index_of_first by done. rewrite take_app_length.
  replace (S (length k)) with (length k + 1)%nat by lia. rewrite drop_app_add. cbn [drop]. by rewrite !removeLTSpaces_id.
Qed.

Lemma load_loop_ok es : ∀ fuel line m,
  Forall storable es → (length es + 2 ≤ fuel)%nat →
  load_loop fuel 61 false line (mkIstream (mjoin (show_property <$> es)) false false) m = Ok (foldl (λ m e, <[e.1 := e.2]> m) m es).
Proof.
  induction es as [|[k v] es IH]; intros [|fuel] line m Hs Hf; try (cbn in Hf; lia).
  - destruct fuel as [|fuel]; [cbn in Hf; lia|]. done.
  - apply Forall_cons in Hs as [Hkv Hs]. rewrite fmap_cons, mjoin_cons. unfold show_property at 1. cbn [fst snd].
    cbn [load_loop i_fail]. unfold getline at 1. cbn [i_eof i_fail orb i_text].
    replace ((k ++ [61] ++ v ++ [10]) ++ mjoin (show_property <$> es)) with ((k ++ 61 :: v) ++ 10 :: mjoin (show_property <$> es))
      by (by repeat (rewrite <- !app_assoc; cbn [app])).
    rewrite split_line_ok by (destruct Hkv as (H1 & H2 & _); apply Forall_app; split; [done|by constructor]).
    rewrite load_line_ok by done. rewrite IH by (done || (cbn in Hf; lia)). done.
Qed.

(** A loop over the entries of a map makes the map. *)
Lemma map_iter_all (m : Properties) : foldl (λ m e, <[e.1 := e.2]> m) ∅ (map_iter m) = m.
Proof.
  apply map_eq. intros k.
  assert (∀ l (m0 : Properties) k, NoDup l.*1 → foldl (λ m e, <[e.1 := e.2]> m) m0 l !! k =
    match list_find (λ e, e.1 = k) l with Some (_, e) => Some e.2 | None => m0 !! k end) as Hgen.
  { clear. induction l as [|[x v] l IH]; intros m0 k Hn; [done|]. cbn in Hn. apply NoDup_cons in Hn as [Hx Hn]. cbn [foldl fst snd list_find].
    rewrite IH by done. destruct (decide (x = k)) as [->|Hne].
    - destruct (list_find _ l) as [[i [y w]]|] eqn:E; [|by rewrite lookup_insert_eq].
      apply list_find_Some in E as (E & Ey & _). cbn in Ey. subst y. exfalso. apply Hx. apply list_elem_of_lookup_2 in E. apply list_elem_of_fmap. by exists (k, w).
    - destruct (list_find _ l) as [[i [y w]]|]; [done|]. cbn. by rewrite lookup_insert_ne. }
  assert (NoDup (map_iter m).*1) as Hn.
  { unfold map_iter. pose proof (NoDup_set_iter (dom m)) as Hn. clear Hgen. induction Hn as [|x l Hx _ IH]; [apply NoDup_nil_2|]. cbn.
    destruct (m !! x) as [v|]; cbn; [|done]. apply NoDup_cons. split; [|done]. intros Hin. apply Hx.
    apply list_elem_of_fmap in Hin as ([y w] & -> & Hin). apply list_elem_of_omap in Hin as (z & Hz & Ez).
    destruct (m !! z); cbn in Ez; [|done]. by simplify_eq. }
  rewrite Hgen by done. destruct (list_find _ (map_iter m)) as [[i [y w]]|] eqn:E.
  - apply list_find_Some in E as (E & Ey & _). cbn in Ey. subst y. apply list_elem_of_lookup_2, elem_of_map_iter in E. by rewrite E.
  - apply list_find_None in E. destruct (m !! k) as [v|] eqn:Ek; [|done]. apply elem_of_map_iter in Ek.
    rewrite Forall_forall in E. by apply E in Ek.
Qed.

Lemma atol_show n : in_s 64 n → atol (show_int n) = n.
Proof.
  intros Hn. unfold atol. pose proof (DecimalZ.of_to n) as Hof. unfold show_int.
  assert (∀ d, d ≠ Decimal.Nil → ∃ x r, show_uint d = x :: r ∧ is_space x = false ∧ (x =? 45) = false ∧ (x =? 43) = false) as Hd.
  { intros [] ?; try done; cbn; eauto 8. }
  assert (∀ d, take_digits (show_uint d) = (d, [])) as Ht by (intros d; pose proof (take_digits_show d [] I) as E; by rewrite app_nil_r in E).
  unfold in_s in Hn. change (64 - 1) with 63 in Hn.
  destruct n as [|p|p]; cbn [Z.to_int] in *.
  - done.
  - destruct (Hd (Pos.to_uint p)) as (x & r & Hx & Hsp & H45 & H43); [apply to_uint_nonempty|].
    rewrite Hx. cbn [skip_space]. rewrite Hsp, H45, H43. cbn [orb]. rewrite <- Hx, Ht, Hof. lia.
  - cbn [skip_space]. change (is_space 45) with false. cbn [Z.eqb Pos.eqb orb]. rewrite Ht, Hof. lia.
Qed.

(** ** Properties *)

(** C23: A table comes back from its file.  For any table whose keys and values
    have no new line and no white space at their ends, and whose keys have no
    equal sign and no "#" in front, loading what was saved gives the table,
    with result 0; an earlier table keeps its other entries. *)
Theorem properties_round_trip m m0 :
  map_Forall (λ k v, storable (k, v)) m → loadProperties (Some (saveProperties m)) 61 false m0 = Ok (0, m ∪ m0).
Proof.
  intros Hm. unfold loadProperties, loadProperties_stream, saveProperties.
  assert (Forall storable (map_iter m)) as Hs by (apply Forall_forall; intros [k v] Hkv; apply elem_of_map_iter in Hkv; by apply Hm).
  assert (length (map_iter m) ≤ length (mjoin (show_property <$> map_iter m)))%nat as Hl.
  { clear. induction (map_iter m) as [|e l IH]; [done|]. rewrite fmap_cons, mjoin_cons, length_app. unfold show_property at 1.
    rewrite !length_app. cbn [length]. lia. }
  rewrite load_loop_ok by (done || lia). rewrite bind_Ok. do 2 f_equal. rewrite <- (map_iter_all m) at 2.
  assert (∀ l m1, foldl (λ m e, <[e.1 := e.2]> m) (m1 ∪ m0) l = foldl (λ m e, <[e.1 := e.2]> m) m1 l ∪ m0) as Hgen.
  { clear. induction l as [|[k v] l IH]; intros m1; [done|]. cbn [foldl fst snd]. by rewrite <- IH, insert_union_l. }
  rewrite <- Hgen. by rewrite (left_id_L ∅ (∪)).
Qed.

Definition demo_table : gmap (list Z) (list Z) := <[[97; 98] := [49; 61; 50]]> (<[[] := [120; 32; 121]]> (<[[122] := []]> ∅)).

Lemma properties_round_trip_witness :
  saveProperties demo_table = [61; 120; 32; 121; 10; 97; 98; 61; 49; 61; 50; 10; 122; 61; 10] ∧
  loadProperties (Some (saveProperties demo_table)) 61 false ∅ = Ok (0, demo_table ∪ ∅).
Proof.
  split; [vm_compute; reflexivity|]. apply properties_round_trip. unfold demo_table.
  repeat apply map_Forall_insert_2; try apply map_Forall_empty;
    (unfold storable; cbn [fst snd]; split_and!; try (apply (bool_decide_unpack _); vm_compute; exact I); vm_compute; split; exact eq_refl || exact I).
Defined.

(** What was set is got, for every type that has both operations. *)
Lemma typed_round_trip key m :
  (∀ v def, getStr key def (prop_set key v m) = v) ∧
  (∀ v def, in_s 32 v → getInt key def (setInt key v m) = v) ∧
  (∀ v def, in_s 64 v → getLong key def (setLong key v m) = v) ∧
  (∀ v def, getBool key def (setBool key v m) = v).
Proof.
  unfold getStr, getInt, setInt, getLong, setLong, getBool, setBool, prop_set, atoi. repeat setoid_rewrite lookup_insert_eq. split_and!.
  - done.
  - intros v _ Hv. rewrite atol_show by (unfold in_s in *; lia). by apply swrap_small.
  - intros v _ Hv. by apply atol_show.
  - by intros [].
Qed.

(** *** Where the code does less *)

(** A last line that has no new line is read, and then once more, because the
    read that finds the end leaves the line alone: with [multiline] its value
    is appended twice. *)
Lemma last_line_twice k v m :
  storable (k, v) → m !! k = None →
  loadProperties_stream (k ++ 61 :: v) 61 true m = Ok (<[k := v ++ v]> m).
Proof.
  intros Hs Hk. pose proof Hs as (H1 & H2 & _). unfold loadProperties_stream.
  assert (split_line (k ++ 61 :: v) = (k ++ 61 :: v, None)) as E.
  { assert (∀ x, Forall (λ c, c ≠ 10) x → split_line x = (x, None)) as Hx.
    { induction 1 as [|c x Hc _ IH]; [done|]. cbn [split_line]. by rewrite (proj2 (Z.eqb_neq _ _) Hc), IH. }
    apply Hx. apply Forall_app. split; [done|by constructor]. }
  assert (getline [] (mkIstream (k ++ 61 :: v) false false) = (k ++ 61 :: v, mkIstream [] true false)) as G.
  { unfold getline. cbn [i_eof i_fail orb i_text]. rewrite E. by rewrite bool_decide_eq_false_2 by (by destruct k). }
  rewrite Nat.add_comm. cbn [Nat.add load_loop i_fail]. rewrite G. cbn [i_fail]. unfold getline. cbn [i_eof i_fail orb].
  rewrite !load_line_ok by done. by rewrite Hk, lookup_insert_eq, insert_insert_eq.
Qed.

(** [getInt64] reads with [atol]: a value from 2^63 on comes back as 2^63 - 1. *)
Example getInt64_saturates : getInt64 [97] 0 (prop_set [97] (show_int (2 ^ 63)) ∅) = 2 ^ 63 - 1.
Proof. vm_compute. reflexivity. Qed.
