(* ===== verification/Servants.v ===== *)
(** * Servants: what an object adapter knows (icm/ServantManager.cpp,
      icm/ObjectAdapter.cpp, icm/Object.h)

    Servants and servant locators are objects of the application: the tables
    hold their addresses, 0 is a null pointer.  Servants are found by the name
    of an identity, locators by its category.  [ObjectAdapter::find] is in
    [Transport], because it calls the locators of the application. *)
From S2P Require Import Prelude Block OutputStream InputStream IcmProtocol.

(** [DispatchStatus]. *)
Inductive DispatchStatus :=
  | DispatchOK
  | DispatchUserException
  | DispatchObjectNotExist
  | DispatchFacetNotExist
  | DispatchOperationNotExist
  | DispatchUnknownLocalException
  | DispatchUnknownUserException
  | DispatchUnknownException
  | DispatchAsync.

#[export] Instance DispatchStatus_eq_dec : EqDecision DispatchStatus.
Proof. solve_decision. Defined.

(** A [ServerRequest] with its two streams and the transport it came from. *)
Record Exchange := mkExchange {
  ex_request : ServerRequest;
  ex_incoming : InputStream;
  ex_outgoing : OutputStream;
  ex_transport : Z }.

Definition with_outgoing (os : OutputStream) (ex : Exchange) : Exchange :=
  mkExchange (ex_request ex) (ex_incoming ex) os (ex_transport ex).

Record ServantManager := mkManager {
  mServantMap : gmap (list Z) Z;
  mLocatorMap : gmap (list Z) Z }.

Definition ServantManager_new : ServantManager := mkManager ∅ ∅.

Definition addServant (obj : Z) (ident : Identity) (m : ServantManager) : bool * ServantManager :=
  match mServantMap m !! id_name ident with
  | None => (true, mkManager (<[id_name ident := obj]> (mServantMap m)) (mLocatorMap m))
  | Some _ => (false, m)
  end.

Definition removeServant (ident : Identity) (m : ServantManager) : Z * ServantManager :=
  match mServantMap m !! id_name ident with
  | Some servant => (servant, mkManager (delete (id_name ident) (mServantMap m)) (mLocatorMap m))
  | None => (0, m)
  end.

Definition findServant (ident : Identity) (m : ServantManager) : Z :=
  match mServantMap m !! id_name ident with Some servant => servant | None => 0 end.

Definition hasServant (ident : Identity) (m : ServantManager) : bool :=
  match mServantMap m !! id_name ident with Some _ => true | None => false end.

(** [std::map::insert] keeps the entry that is there. *)
Definition addServantLocator (locator : Z) (category : list Z) (m : ServantManager) : ServantManager :=
  match mLocatorMap m !! category with
  | None => mkManager (mServantMap m) (<[category := locator]> (mLocatorMap m))
  | Some _ => m
  end.

Definition findServantLocator (category : list Z) (m : ServantManager) : Z :=
  match mLocatorMap m !! category with Some locator => locator | None => 0 end.

(** [ObjectAdapter::add (obj, name, category)] and [add (obj, ident)]. *)
Definition adapter_add (obj : Z) (name category : list Z) (m : ServantManager) : bool * ServantManager :=
  addServant obj (mkIdentity name category) m.

(** [ObjectAdapter::remove (name, category)] and [remove (ident)]: the servant is
    not returned. *)
Definition adapter_remove (name category : list Z) (m : ServantManager) : ServantManager :=
  (removeServant (mkIdentity name category) m).2.

(** ** The tables as sequences of registrations *)

Inductive registration :=
  | Add (obj : Z) (ident : Identity)
  | Remove (ident : Identity).

Definition register (m : ServantManager) (r : registration) : ServantManager :=
  match r with
  | Add obj ident => (adapter_add obj (id_name ident) (id_category ident) m).2
  | Remove ident => adapter_remove (id_name ident) (id_category ident) m
  end.

(** What a history of registrations says about a name: the first [Add] after
    the last [Remove]. *)
Fixpoint registered (n : list Z) (history : list registration) (now : option Z) : option Z :=
  match history with
  | [] => now
  | Add obj i :: history =>
      registered n history (if bool_decide (id_name i = n) then Some (default obj now) else now)
  | Remove i :: history =>
      registered n history (if bool_decide (id_name i = n) then None else now)
  end.

Lemma register_lookup m r n :
  mServantMap (register m r) !! n = registered n [r] (mServantMap m !! n) ∧
  mLocatorMap (register m r) = mLocatorMap m.
Proof.
  destruct r as [obj i|i]; cbn [register registered];
    unfold adapter_add, adapter_remove, addServant, removeServant; cbn [id_name id_category].
  - destruct (mServantMap m !! id_name i) as [x|] eqn:E; cbn [snd mServantMap mLocatorMap]; (split; [|done]).
    + case_bool_decide; subst; [by rewrite E|done].
    + case_bool_decide; subst; [by rewrite lookup_insert_eq, E|by rewrite lookup_insert_ne].
  - destruct (mServantMap m !! id_name i) as [x|] eqn:E; cbn [snd mServantMap mLocatorMap]; (split; [|done]).
    + case_bool_decide; subst; [by rewrite lookup_delete_eq|by rewrite lookup_delete_ne].
    + case_bool_decide; subst; [by rewrite E|done].
Qed.

Lemma history_lookup history n : ∀ m,
  mServantMap (foldl register m history) !! n = registered n history (mServantMap m !! n) ∧
  mLocatorMap (foldl register m history) = mLocatorMap m.
Proof.
  induction history as [|r history IH]; intros m; [done|]. cbn [foldl].
  destruct (IH (register m r)) as [-> ->], (register_lookup m r n) as [-> ->]. split; [|done]. by destruct r.
Qed.
