(* ===== verification/Transport.v ===== *)
(** * Transport: one connection of the RPC layer (icm/Pluggable.cpp,
      icm/TcpTransport.cpp, icm/TcpConnection.cpp, icm/TransportMuxStrategy.cpp,
      icm/ReplyDispatcher.cpp, icm/WaitStrategy.cpp, icm/AmhResponseHandler.cpp,
      the server part of icm/IcmProtocol.cpp)

    [World] is the state of a process: its connections, reply dispatchers,
    response handlers, two-way invocations and adapters, by address, and the
    state [W] of the application.  A table without an entry for an address is
    an object that is not, or no longer, allocated: following a pointer to it
    is a fault.  A connection handler contains its transport; they have one
    address.  A transport contains at most one multiplexing strategy, so a
    pointer to a strategy is the address of its transport.

    The code of the application (servants, servant locators, reply handlers)
    is the class [Application]; it may do to the process whatever it likes.

    The time-outs of calls are those of [select], in [Socket].  The default
    wait strategy, [WaitOnRead], is the one modelled; nothing selects another
    one.  Transports are not cached ([Communicator::init] sets the flag to
    [false]), and no [TransportListener] is set. *)
From S2P Require Import Prelude Block OutputStream InputStream Marshalling Socket Framing IcmProtocol CppLib Servants.

Definition ICM_MARSHAL : Z := 50000.
Definition EBADF : Z := 9.

(** ** State *)

(** [SynchReplyDispatcher]: [mReplyReceived], [mReplyStatus], [mMessageState].
    [AsynchReplyDispatcher]: [mReplyStatus], [mReplyHandler], [mTransport]; its
    pointer [mMessageState] is set and not used. *)
Inductive ReplyDispatcher :=
  | SynchReplyDispatcher (received status : Z) (state : IcmMessageState)
  | AsynchReplyDispatcher (status handler transport : Z).

(** [ExclusiveTms]: [mRequestIdGenerator], [mRequestId], [mRd], [mMessageState].
    [MuxedTms]: [mRequestIdGenerator] (an [unsigned long]), [mDispatcherTable],
    [mMessageState], [observers]. *)
Inductive TransportMuxStrategy :=
  | ExclusiveTms (generator id rd : Z) (state : IcmMessageState)
  | MuxedTms (generator : Z) (table : gmap Z Z) (state : option IcmMessageState) (observers : gset Z).

(** [IcmTransport] in its [TcpConnectionHandler].  [tr_open] is false after the
    stream was closed.  [tr_connClosed] is the flag of the wait strategy. *)
Record IcmTransport := mkTransport {
  tr_state : IcmMessageState;
  tr_socket : socket;
  tr_open : bool;
  tr_adapter : Z;
  tr_tms : option TransportMuxStrategy;
  tr_connClosed : bool;
  tr_responseHandler : Z }.

Record AmhResponseHandler := mkAmh {
  ah_requestId : Z;
  ah_responseExpected : bool;
  ah_transport : Z;
  ah_outStream : OutputStream;
  ah_connectionError : bool }.

(** [w_invocations] has the member [tms] of each [TwowayInvocation];
    [w_connects] is what successive connection attempts will meet, [w_dialed]
    the addresses and ports they were made to. *)
Inductive outcome :=
  | Connected (sk : socket)
  | Refused (e : Z)
  | NotOpened (sk : socket) (e : Z).

Record World (W : Type) := mkWorld {
  w_transports : gmap Z IcmTransport;
  w_rds : gmap Z ReplyDispatcher;
  w_amhs : gmap Z AmhResponseHandler;
  w_invocations : gmap Z Z;
  w_adapters : gmap Z ServantManager;
  w_connects : list outcome;
  w_dialed : list (Z * Z);
  w_next : Z;
  w_errno : Z;
  w_app : W }.
Arguments mkWorld {W} _ _ _ _ _ _ _ _ _ _.
Arguments w_transports {W} _.
Arguments w_rds {W} _.
Arguments w_amhs {W} _.
Arguments w_invocations {W} _.
Arguments w_adapters {W} _.
Arguments w_connects {W} _.
Arguments w_dialed {W} _.
Arguments w_next {W} _.
Arguments w_errno {W} _.
Arguments w_app {W} _.

(** The application: [Object::__dispatch], [ServantLocator::locate],
    [ReplyHandler::__response] (which reads the stream of the message state of
    the transport it is given) and the destructor of a reply handler. *)
Class Application (W : Type) := {
  servant_dispatch : Z → Exchange → World W → result (DispatchStatus * Exchange * World W);
  locator_locate : Z → Exchange → World W → result (Z * Exchange * World W);
  handler_response : Z → Z → Z → World W → result (World W);
  handler_delete : Z → World W → result (World W) }.

Section state.

Context {W : Type}.
Implicit Types w : World W.

Definition with_transports (m : gmap Z IcmTransport) w : World W :=
  mkWorld m (w_rds w) (w_amhs w) (w_invocations w) (w_adapters w) (w_connects w) (w_dialed w) (w_next w) (w_errno w) (w_app w).
Definition with_rds (m : gmap Z ReplyDispatcher) w : World W :=
  mkWorld (w_transports w) m (w_amhs w) (w_invocations w) (w_adapters w) (w_connects w) (w_dialed w) (w_next w) (w_errno w) (w_app w).
Definition with_amhs (m : gmap Z AmhResponseHandler) w : World W :=
  mkWorld (w_transports w) (w_rds w) m (w_invocations w) (w_adapters w) (w_connects w) (w_dialed w) (w_next w) (w_errno w) (w_app w).
Definition with_invocations (m : gmap Z Z) w : World W :=
  mkWorld (w_transports w) (w_rds w) (w_amhs w) m (w_adapters w) (w_connects w) (w_dialed w) (w_next w) (w_errno w) (w_app w).
Definition with_adapters (m : gmap Z ServantManager) w : World W :=
  mkWorld (w_transports w) (w_rds w) (w_amhs w) (w_invocations w) m (w_connects w) (w_dialed w) (w_next w) (w_errno w) (w_app w).
Definition with_connects (c : list outcome) (d : list (Z * Z)) w : World W :=
  mkWorld (w_transports w) (w_rds w) (w_amhs w) (w_invocations w) (w_adapters w) c d (w_next w) (w_errno w) (w_app w).
Definition with_next (n : Z) w : World W :=
  mkWorld (w_transports w) (w_rds w) (w_amhs w) (w_invocations w) (w_adapters w) (w_connects w) (w_dialed w) n (w_errno w) (w_app w).
Definition set_errno (e : Z) w : World W :=
  mkWorld (w_transports w) (w_rds w) (w_amhs w) (w_invocations w) (w_adapters w) (w_connects w) (w_dialed w) (w_next w) e (w_app w).
Definition with_app (a : W) w : World W :=
  mkWorld (w_transports w) (w_rds w) (w_amhs w) (w_invocations w) (w_adapters w) (w_connects w) (w_dialed w) (w_next w) (w_errno w) a.

(** [new]: an address that was not used before. *)
Definition alloc w : Z * World W := (w_next w + 1, with_next (w_next w + 1) w).

(** What a pointer points to. *)
Definition deref {A} (p : Z) (m : gmap Z A) : result A :=
  match m !! p with
  | Some a => Ok a
  | None => Fault (if p =? 0 then NullDeref else UseAfterFree)
  end.

Definition put_transport (t : Z) (tr : IcmTransport) w : World W := with_transports (<[t := tr]> (w_transports w)) w.

Definition tr_with_state (st : IcmMessageState) (tr : IcmTransport) : IcmTransport :=
  mkTransport st (tr_socket tr) (tr_open tr) (tr_adapter tr) (tr_tms tr) (tr_connClosed tr) (tr_responseHandler tr).
Definition tr_with_socket (sk : socket) (tr : IcmTransport) : IcmTransport :=
  mkTransport (tr_state tr) sk (tr_open tr) (tr_adapter tr) (tr_tms tr) (tr_connClosed tr) (tr_responseHandler tr).
Definition tr_with_open (b : bool) (tr : IcmTransport) : IcmTransport :=
  mkTransport (tr_state tr) (tr_socket tr) b (tr_adapter tr) (tr_tms tr) (tr_connClosed tr) (tr_responseHandler tr).
Definition tr_with_tms (x : option TransportMuxStrategy) (tr : IcmTransport) : IcmTransport :=
  mkTransport (tr_state tr) (tr_socket tr) (tr_open tr) (tr_adapter tr) x (tr_connClosed tr) (tr_responseHandler tr).
Definition tr_with_connClosed (b : bool) (tr : IcmTransport) : IcmTransport :=
  mkTransport (tr_state tr) (tr_socket tr) (tr_open tr) (tr_adapter tr) (tr_tms tr) b (tr_responseHandler tr).
Definition tr_with_responseHandler (h : Z) (tr : IcmTransport) : IcmTransport :=
  mkTransport (tr_state tr) (tr_socket tr) (tr_open tr) (tr_adapter tr) (tr_tms tr) (tr_connClosed tr) h.

(** A closed stream has the descriptor -1, on which the next system call fails
    with [EBADF]; the operations below give up after one. *)
Definition stream_of w (tr : IcmTransport) : socket :=
  let sk := tr_socket tr in
  if tr_open tr then mkSocket (sk_in sk) (sk_waits sk) (sk_out sk) (sk_sent sk) (w_errno w)
  else mkSocket [Fails EBADF] [] [Rejects EBADF] (sk_sent sk) (w_errno w).

(** The stream after the operation, and [errno]. *)
Definition put_stream (t : Z) (tr : IcmTransport) (sk : socket) w : World W :=
  put_transport t (if tr_open tr then tr_with_socket sk tr else tr) (set_errno (sk_errno sk) w).

Definition validateTransport (t : Z) w : bool := bool_decide (is_Some (w_transports w !! t)).

(** [messageState.reset ()]. *)
Definition reset_state (t : Z) w : result (World W) :=
  tr ← deref t (w_transports w);
  Ok (put_transport t (tr_with_state (state_reset (tr_state tr)) tr) w).

End state.

(** ** Operations *)

Section operations.

Context {W : Type} `{Application W, Allocator, Host, Uninit}.
Implicit Types w : World W.

(** *** Reply dispatchers *)

Definition SynchReplyDispatcher_new w : Z * World W :=
  let '(p, w) := alloc w in
  (p, with_rds (<[p := SynchReplyDispatcher 0 uninit IcmMessageState_new]> (w_rds w)) w).

Definition AsynchReplyDispatcher_new (handler : Z) w : Z * World W :=
  let '(p, w) := alloc w in
  (p, with_rds (<[p := AsynchReplyDispatcher uninit handler 0]> (w_rds w)) w).

(** [delete rd]. *)
Definition rd_delete (p : Z) w : result (World W) :=
  if p =? 0 then Ok w
  else
    rd ← deref p (w_rds w);
    w ← (match rd with
         | SynchReplyDispatcher _ _ _ => Ok w
         | AsynchReplyDispatcher _ handler _ => if negb (handler =? 0) then handler_delete handler w else Ok w
         end);
    Ok (with_rds (delete p (w_rds w)) w).

(** [SynchReplyDispatcher::dispatchReply], [AsynchReplyDispatcher::dispatchReply],
    with the message state of the transport [t].  It is never the state of the
    dispatcher itself: nothing calls [getMessageState]. *)
Definition rd_dispatchReply (p replyStatus t : Z) w : result (Z * World W) :=
  rd ← deref p (w_rds w);
  match rd with
  | SynchReplyDispatcher _ _ st =>
      let st := state_reset st in
      tr ← deref t (w_transports w);
      let '(own, theirs) := steal_from (st_stream (tr_state tr)) (st_stream st) in
      let w := put_transport t (tr_with_state (with_stream theirs (tr_state tr)) tr) w in
      Ok (1, with_rds (<[p := SynchReplyDispatcher 1 replyStatus (with_stream own st)]> (w_rds w)) w)
  | AsynchReplyDispatcher _ handler transport =>
      let w := with_rds (<[p := AsynchReplyDispatcher replyStatus handler transport]> (w_rds w)) w in
      w ← (if handler =? 0 then Fault NullDeref else handler_response handler t replyStatus w);
      w ← rd_delete p w;
      Ok (1, w)
  end.

(** *** Multiplexing strategies *)

Definition tms_requestId (x : TransportMuxStrategy) : Z * TransportMuxStrategy :=
  match x with
  | ExclusiveTms g id rd st => (g, ExclusiveTms (u32 (g + 1)) id rd st)
  | MuxedTms g table st os => (u32 g, MuxedTms (u64 (g + 1)) table st os)
  end.

Definition tms_set_requestId (id : Z) (x : TransportMuxStrategy) : TransportMuxStrategy :=
  match x with
  | ExclusiveTms _ i rd st => ExclusiveTms id i rd st
  | MuxedTms _ table st os => MuxedTms id table st os
  end.

Definition bindDispatcher (requestId rd : Z) (x : TransportMuxStrategy) : Z * TransportMuxStrategy :=
  match x with
  | ExclusiveTms g _ _ st =>
      (1, ExclusiveTms g requestId rd (if negb (st_size st =? 0) then state_reset st else st))
  | MuxedTms g table st os =>
      (1, MuxedTms g (match table !! requestId with None => <[requestId := rd]> table | Some _ => table end) st os)
  end.

(** [MuxedTms::unbindDispatcher (rd, del)] on the strategy of the transport [t]. *)
Definition unbindDispatcher (t rd : Z) (del : bool) w : result (Z * World W) :=
  w ← (if del then rd_delete rd w else Ok w);
  tr ← deref t (w_transports w);
  match tr_tms tr with
  | Some (MuxedTms g table st os) =>
      let table := filter (λ e : Z * Z, e.2 ≠ rd) table in
      Ok (0, put_transport t (tr_with_tms (Some (MuxedTms g table st os)) tr) w)
  | _ => Fault UseAfterFree
  end.

(** [dispatchReply (requestId, replyStatus, messageState)]; [None] is a null
    pointer to the strategy. *)
Definition tms_dispatchReply (requestId replyStatus t : Z) w : result (Z * World W) :=
  tr ← deref t (w_transports w);
  match tr_tms tr with
  | None => Fault NullDeref
  | Some (ExclusiveTms g id rd st) =>
      if negb (id =? requestId) then Ok (0, w)
      else
        let w := put_transport t (tr_with_tms (Some (ExclusiveTms g 0xdeadbeef 0 st)) tr) w in
        rd_dispatchReply rd replyStatus t w
  | Some (MuxedTms g table st os) =>
      match table !! requestId with
      | None => Ok (-1, w)
      | Some rd =>
          let w := put_transport t (tr_with_tms (Some (MuxedTms g (delete requestId table) st os)) tr) w in
          rd_dispatchReply rd replyStatus t w
      end
  end.

(** [getMessageState ()]: the state, which [MuxedTms] makes on demand. *)
Definition getMessageState (x : TransportMuxStrategy) : IcmMessageState * TransportMuxStrategy :=
  match x with
  | ExclusiveTms _ _ _ st => (st, x)
  | MuxedTms g table st os =>
      let st := default IcmMessageState_new st in
      (st, MuxedTms g table (Some st) os)
  end.

(** [destroyMessageState]. *)
Definition destroyMessageState (t : Z) w : result (World W) :=
  tr ← deref t (w_transports w);
  match tr_tms tr with
  | None => Fault NullDeref
  | Some (ExclusiveTms _ _ _ _) => Ok w
  | Some (MuxedTms g table _ os) => Ok (put_transport t (tr_with_tms (Some (MuxedTms g table None os)) tr) w)
  end.

(** [addObserver], [removeObserver]. *)
Definition with_observers (f : gset Z → gset Z) (t : Z) w : result (World W) :=
  tr ← deref t (w_transports w);
  match tr_tms tr with
  | Some (MuxedTms g table st os) => Ok (put_transport t (tr_with_tms (Some (MuxedTms g table st (f os))) tr) w)
  | _ => Fault UseAfterFree
  end.
Definition addObserver (p : Z) := with_observers (λ os, {[p]} ∪ os).
Definition removeObserver (p : Z) := with_observers (λ os, os ∖ {[p]}).

(** [onTmsDestructed] of each observer. *)
Fixpoint notify_observers (ps : list Z) w : result (World W) :=
  match ps with
  | [] => Ok w
  | p :: ps =>
      _ ← deref p (w_invocations w);
      notify_observers ps (with_invocations (<[p := 0]> (w_invocations w)) w)
  end.

Fixpoint delete_dispatchers (entries : list (Z * Z)) w : result (World W) :=
  match entries with
  | [] => Ok w
  | (_, rd) :: entries => w ← rd_delete rd w; delete_dispatchers entries w
  end.

(** [delete mTms]: [~MuxedTms], then [~TransportMuxStrategy] clears the pointer
    in the transport. *)
Definition tms_destroy (t : Z) w : result (World W) :=
  tr ← deref t (w_transports w);
  w ← (match tr_tms tr with
       | Some (MuxedTms _ table _ os) =>
           w ← notify_observers (set_iter os) w;
           delete_dispatchers (map_iter table) w
       | _ => Ok w
       end);
  tr ← deref t (w_transports w);
  Ok (put_transport t (tr_with_tms None tr) w).

(** *** Serving requests *)

(** [ObjectAdapter::find (serverRequest, ident)]. *)
Definition adapter_find (m : ServantManager) (ident : Identity) (ex : Exchange) w : result (Z * Exchange * World W) :=
  if negb (bool_decide (id_category ident = [])) then
    let locator := findServantLocator (id_category ident) m in
    if locator =? 0 then Ok (0, ex, w) else locator_locate locator ex w
  else Ok (findServant ident m, ex, w).

(** [IcmProtocol::sendMessage (transport, ...)], also [TcpTransport::sendRequest]. *)
Definition transport_send (t : Z) (os : OutputStream) w : result (Z * OutputStream * World W) :=
  if t =? 0 then Ok (-1, os, w)
  else
    tr ← deref t (w_transports w);
    '(r, os, sk) ← sendMessage (Some (stream_of w tr)) os;
    match sk with
    | Some sk => Ok (r, os, put_stream t tr sk w)
    | None => Ok (r, os, w)
    end.

Definition processServerRequest (t : Z) (input : InputStream) (output : OutputStream) w : result (Z * World W) :=
  '(parseError, request, input) ← ServerRequest_new input;
  let responseRequired := rq_responseExpected request in
  if negb (parseError =? 0) then Ok (- ICM_MARSHAL, w)
  else
    tr ← deref t (w_transports w);
    if tr_adapter tr =? 0 then Ok (-1, w)
    else
      oa ← deref (tr_adapter tr) (w_adapters w);
      '(object, ex, w) ← adapter_find oa (rq_identity request) (mkExchange request input output t) w;
      if object =? 0 then Ok (-1, w)
      else
        '(ds, ex, w) ← servant_dispatch object ex w;
        if bool_decide (ds = DispatchAsync) then Ok (0, w)
        else if responseRequired then
          '(result, _, w) ← transport_send t (ex_outgoing ex) w;
          Ok (result, w)
        else Ok (0, w).

(** [processServerMessage]: the reply goes to a copy of a buffer on the stack,
    whose contents are not set. *)
Definition processServerMessage (t : Z) (input : InputStream) (messageType : Z) w : result (Z * World W) :=
  output ← OutputStream_data (junk DEFAULT_BUFSIZE) DEFAULT_BUFSIZE;
  if messageType =? Request then processServerRequest t input output w
  else Ok (0, w).

(** [Blobject::__dispatch], for a servant with [icm_invoke]. *)
Definition Blobject_dispatch (icm_invoke : Exchange → World W → result (bool * Exchange * World W))
  (ex : Exchange) w : result (DispatchStatus * Exchange * World W) :=
  '(ok, ex, w) ← icm_invoke ex w;
  os ← initReply (ex_request ex) (ex_outgoing ex);
  Ok (if (ok : bool) then DispatchOK else DispatchUserException, with_outgoing os ex, w).

(** *** [IcmTransport] *)

(** The constructor, in a new [TcpConnectionHandler], with the strategies
    [ClientStrategyFactory] makes. *)
Definition IcmTransport_new (sk : socket) (open : bool) (oa : Z) w : Z * World W :=
  let '(t, w) := alloc w in
  (t, put_transport t (mkTransport IcmMessageState_new sk open oa (Some (MuxedTms 0 ∅ None ∅)) false 0) w).

(** [handleInputI ()]. *)
Definition handleInputI (t : Z) w : result (Z * World W) :=
  tr ← deref t (w_transports w);
  '(result, ms, sk) ← handleInput (tr_state tr) (stream_of w tr);
  let w := put_stream t (tr_with_state ms tr) sk w in
  if (result =? -1) && negb (w_errno w =? 0) then Ok (result, w)
  else if (result =? 0) || (result =? -1) then Ok (result, w)
  else
    let messageType := st_type ms in
    tr ← deref t (w_transports w);
    if messageType =? Request then
      let '(inputStream, rest) := InputStream_transfer (st_stream ms) in
      let w := put_transport t (tr_with_state (with_stream rest ms) tr) w in
      '(result, w) ← processServerMessage t inputStream messageType w;
      let result := if negb (result =? -1) then 0 else result in
      w ← reset_state t w;
      Ok (result, w)
    else if messageType =? Reply then
      '(result, requestId, replyStatus, ms) ← parseReply ms;
      let w := put_transport t (tr_with_state ms tr) w in
      if result =? -1 then w ← reset_state t w; Ok (-1, w)
      else
        '(result, w) ← tms_dispatchReply (default uninit requestId) (default uninit replyStatus) t w;
        if result =? -1 then w ← reset_state t w; Ok (-1, w)
        else if result =? 0 then w ← reset_state t w; Ok (0, w)
        else
          w ← destroyMessageState t w;
          w ← reset_state t w;
          Ok (result, w)
    else if messageType =? Error then Ok (-1, w)
    else Ok (0, w).

(** [TcpTransport::closeConnection]: the stream is closed first, so the reactor
    is asked to remove the descriptor -1 and does nothing
    ([SelectReactor.removeHandler]). *)
Definition closeConnection (t : Z) w : result (World W) :=
  tr ← deref t (w_transports w);
  Ok (put_transport t (tr_with_open false tr) w).

(** [TcpConnectionHandler::handleInput]. *)
Definition handler_handleInput (t : Z) w : result (Z * World W) :=
  '(retval, w) ← handleInputI t w;
  if retval =? -1 then w ← closeConnection t w; Ok (retval, w)
  else Ok (retval, w).

(** [TcpConnectionHandler::svc]: a thread of its own for the connection. *)
Fixpoint handler_svc (fuel : nat) (t : Z) w : result (Z * World W) :=
  match fuel with
  | O => Fault OutOfFuel
  | S fuel =>
      '(result, w) ← handleInputI t w;
      let result := if (result =? -1) && (w_errno w =? ETIME) then 0 else result in
      if result >=? 0 then handler_svc fuel t w else Ok (result, w)
  end.

(** [~IcmTransport]. *)
Definition IcmTransport_destroy (t : Z) w : result (World W) :=
  w ← tms_destroy t w;
  tr ← deref t (w_transports w);
  w ← (if negb (tr_responseHandler tr =? 0) then
         ah ← deref (tr_responseHandler tr) (w_amhs w);
         Ok (with_amhs (<[tr_responseHandler tr :=
           mkAmh (ah_requestId ah) (ah_responseExpected ah) (ah_transport ah) (ah_outStream ah) true]> (w_amhs w)) w)
       else Ok w);
  Ok (with_transports (delete t (w_transports w)) w).

(** [TcpConnectionHandler::handleClose]: the handler deletes itself. *)
Definition handler_handleClose (t : Z) w : result (World W) :=
  tr ← deref t (w_transports w);
  let w := put_transport t (tr_with_connClosed true tr) w in
  IcmTransport_destroy t w.

(** [WaitOnRead::wait (maxWaitTime, replyReceived)]: the flag is a member of the
    dispatcher [rd]. *)
Definition WaitOnRead_wait (t rd : Z) w : result (Z * World W) :=
  '(replyComplete, w) ← handleInputI t w;
  if replyComplete =? -1 then Ok (-1, w)
  else
    x ← deref rd (w_rds w);
    match x with
    | SynchReplyDispatcher received _ _ => _ ← assert_ (negb (received =? 0)); Ok (0, w)
    | AsynchReplyDispatcher _ _ _ => Fault UseAfterFree
    end.

(** *** Asynchronous responses *)

Definition AmhResponseHandler_new (ex : Exchange) w : Z * World W :=
  let '(p, w) := alloc w in
  (p, with_amhs (<[p := mkAmh (rq_requestId (ex_request ex)) (rq_responseExpected (ex_request ex)) (ex_transport ex)
                         (OutputStream_new 0) false]> (w_amhs w)) w).

(** [IcmTransport::setResponsHandler], [clearResponsHandler]. *)
Definition setResponsHandler (t p : Z) w : result (World W) :=
  tr ← deref t (w_transports w);
  Ok (put_transport t (tr_with_responseHandler p tr) w).

Definition put_amh_stream (p : Z) (ah : AmhResponseHandler) (os : OutputStream) w : World W :=
  with_amhs (<[p := mkAmh (ah_requestId ah) (ah_responseExpected ah) (ah_transport ah) os (ah_connectionError ah)]> (w_amhs w)) w.

Definition amh_initReply (p : Z) w : result (World W) :=
  ah ← deref p (w_amhs w);
  os ← startMessage Reply (ah_outStream ah);
  os ← writeReplyHeader (ah_requestId ah) 0 os;
  Ok (put_amh_stream p ah os w).

Definition amh_sendReply (p : Z) w : result (World W) :=
  ah ← deref p (w_amhs w);
  if (ah_transport ah =? 0) || negb (validateTransport (ah_transport ah) w) then
    Ok (with_amhs (<[p := mkAmh (ah_requestId ah) (ah_responseExpected ah) 0 (ah_outStream ah) (ah_connectionError ah)]> (w_amhs w)) w)
  else
    '(_, os, w) ← transport_send (ah_transport ah) (ah_outStream ah) w;
    Ok (put_amh_stream p ah os w).

(** [~AmhResponseHandler]. *)
Definition amh_delete (p : Z) w : result (World W) :=
  ah ← deref p (w_amhs w);
  w ← (if negb (ah_transport ah =? 0) then setResponsHandler (ah_transport ah) 0 w else Ok w);
  Ok (with_amhs (delete p (w_amhs w)) w).

End operations.

(** ** Lemmas *)

Section lemmas.

Context {W : Type}.
Implicit Types w : World W.

(** Worlds are equal when their components are. *)
Lemma world_ext w w' :
  w_transports w = w_transports w' → w_rds w = w_rds w' → w_amhs w = w_amhs w' → w_invocations w = w_invocations w' →
  w_adapters w = w_adapters w' → w_connects w = w_connects w' → w_dialed w = w_dialed w' → w_next w = w_next w' →
  w_errno w = w_errno w' → w_app w = w_app w' → w = w'.
Proof. destruct w, w'. cbn. by intros -> -> -> -> -> -> -> -> -> ->. Qed.

Lemma ok_world {A} (a : A) w w' : w = w' → Ok (a, w) = Ok (a, w').
Proof. by intros ->. Qed.

Lemma deref_some {A} p (m : gmap Z A) a : m !! p = Some a → deref p m = Ok a.
Proof. unfold deref. by intros ->. Qed.

Lemma deref_put t tr w : deref t (w_transports (put_transport t tr w)) = Ok tr.
Proof. apply deref_some, lookup_insert_eq. Qed.

Lemma put_put t tr1 tr2 w : put_transport t tr2 (put_transport t tr1 w) = put_transport t tr2 w.
Proof. unfold put_transport, with_transports. cbn. by rewrite insert_insert_eq. Qed.

(** Writing back what is there. *)
Lemma put_same t tr w : w_transports w !! t = Some tr → put_transport t tr w = w.
Proof. intros Ht. unfold put_transport, with_transports. rewrite insert_id by done. by destruct w. Qed.

Lemma reset_state_put t tr w :
  reset_state t (put_transport t tr w) = Ok (put_transport t (tr_with_state (state_reset (tr_state tr)) tr) w).
Proof. unfold reset_state. rewrite deref_put, bind_Ok. by rewrite put_put. Qed.

Lemma validate_some t tr w : w_transports w !! t = Some tr → validateTransport t w = true.
Proof. intros Ht. unfold validateTransport. rewrite Ht. apply bool_decide_true. eauto. Qed.

End lemmas.

(** Compare two worlds component by component. *)
Ltac world_eq :=
  try apply ok_world; apply world_ext;
  cbn [w_transports w_rds w_amhs w_invocations w_adapters w_connects w_dialed w_next w_errno w_app
       put_transport with_transports with_rds with_amhs with_invocations with_adapters with_connects with_next set_errno with_app];
  rewrite ?insert_insert_eq, ?delete_insert_id by done; try reflexivity.

Section receiving.

Context {W : Type} `{Application W, Allocator, Host, Uninit}.
Implicit Types w : World W.

(** A connection between two messages. *)
Record idle (t : Z) (tr : IcmTransport) w : Prop := mkIdle {
  idle_at : w_transports w !! t = Some tr;
  idle_open : tr_open tr = true;
  idle_ready : ready (tr_state tr);
  idle_out : sk_out (tr_socket tr) = [] }.

(** The message that comes next. *)
Lemma idle_receives t tr w ty body rest :
  idle t tr w → incoming (tr_socket tr) (frame ty body ++ rest) → body ≠ [] → len body < 2 ^ 31 →
  ∃ st sk, handleInput (tr_state tr) (stream_of w tr) = Ok (1, st, sk) ∧ arrived ty body st ∧ incoming sk rest ∧
    sk_out sk = [] ∧ sk_sent sk = sk_sent (tr_socket tr).
Proof.
  intros [Ht Hopen Hready Hout] Hin Hne Hlen.
  destruct (handleInput_ok ty body rest (tr_state tr) (stream_of w tr)) as (st & sk & Hhi & Harr & Hin'); try done.
  { unfold stream_of. by rewrite Hopen. }
  pose proof (handleInput_same_output _ _ _ _ _ Hhi) as [Ho Hs]. unfold stream_of in Ho, Hs. rewrite Hopen in Ho, Hs.
  exists st, sk. split_and!; try done. by rewrite Ho.
Qed.

(** A stream in which a body of [ty] arrived, before it is parsed. *)
Lemma handleInputI_request t tr w body rest :
  idle t tr w → incoming (tr_socket tr) (frame Request body ++ rest) → body ≠ [] → len body < 2 ^ 31 →
  ∃ s sk more st', is_ok_in s ∧ avail s = body ++ more ∧ incoming sk rest ∧ sk_out sk = [] ∧
    sk_sent sk = sk_sent (tr_socket tr) ∧ ready (state_reset st') ∧
    handleInputI t w =
      ('(result, w) ← processServerMessage t s Request
          (put_transport t (tr_with_state st' (tr_with_socket sk tr)) (set_errno (sk_errno sk) w));
       let result := if negb (result =? -1) then 0 else result in
       w ← reset_state t w; Ok (result, w)).
Proof.
  intros Hidle Hin Hne Hlen. pose proof Hidle as [Ht Hopen _ _].
  destruct (idle_receives t tr w Request body rest) as (st & sk & Hhi & [Hty Hsz Hheap Hok (more & Hav)] & Hin' & Ho & Hs); try done.
  exists (InputStream_transfer (st_stream st)).1, sk, more, (with_stream (InputStream_transfer (st_stream st)).2 st).
  split_and!; try done; [split; [apply Hok|done]| |].
  { destruct (fresh_heap_block (b_capacity (is_start (st_stream st)))) as [Hf _];
      [destruct Hheap as (_ & _ & ?); unfold b_capacity in *; lia|].
    split_and!; [exact Hf|apply Hok|done|done]. }
  unfold handleInputI. rewrite (deref_some _ _ _ Ht), bind_Ok, Hhi, bind_Ok. change (1 =? -1) with false. cbn [andb orb Z.eqb].
  unfold put_stream. cbn [tr_open tr_with_state]. rewrite Hopen, deref_put, bind_Ok, Hty.
  change (Request =? Request) with true. unfold InputStream_transfer. cbv beta iota zeta. rewrite put_put. reflexivity.
Qed.

(** The reply that comes next, up to its dispatch. *)
Lemma handleInputI_reply t tr w id status results rest :
  idle t tr w → in_u 32 id → in_u 32 status → len results < 2 ^ 31 - 8 →
  incoming (tr_socket tr) (frame Reply (be_bytes 4 id ++ be_bytes 4 status ++ results) ++ rest) →
  ∃ sk st more, incoming sk rest ∧ sk_out sk = [] ∧ sk_sent sk = sk_sent (tr_socket tr) ∧
    is_ok_in (st_stream st) ∧ heap_block (is_start (st_stream st)) ∧ avail (st_stream st) = results ++ more ∧ ready (state_reset st) ∧
    handleInputI t w =
      ('(result, w) ← tms_dispatchReply id status t
          (put_transport t (tr_with_state st (tr_with_socket sk tr)) (set_errno (sk_errno sk) w));
       if result =? -1 then w ← reset_state t w; Ok (-1, w)
       else if result =? 0 then w ← reset_state t w; Ok (0, w)
       else w ← destroyMessageState t w; w ← reset_state t w; Ok (result, w)).
Proof.
  intros Hidle Hid Hstat Hlen Hin. pose proof Hidle as [Ht Hopen _ _]. unfold len in *.
  destruct (idle_receives t tr w Reply (be_bytes 4 id ++ be_bytes 4 status ++ results) rest)
    as (st & sk & Hhi & [Hty Hsz Hheap Hok (more & Hav)] & Hin' & Ho & Hs); try done.
  { unfold len. rewrite !length_app, !length_be_bytes. lia. }
  rewrite <- !app_assoc in Hav.
  destruct (parseReply_ok id status st (results ++ more)) as (st2 & Hpr & Hs2 & Hav2 & Hready2); try done.
  exists sk, st2, more. split_and!; try done; [apply Hready2|].
  unfold handleInputI. rewrite (deref_some _ _ _ Ht), bind_Ok, Hhi, bind_Ok. change (1 =? -1) with false. cbn [andb orb Z.eqb].
  unfold put_stream. cbn [tr_open tr_with_state]. rewrite Hopen, deref_put, bind_Ok, Hty.
  change (Reply =? Request) with false. change (Reply =? Reply) with true. cbv iota. rewrite Hpr, bind_Ok.
  change (0 =? -1) with false. cbv iota. rewrite put_put. reflexivity.
Qed.

End receiving.
