(* ===== verification/References.v ===== *)
(** * References: addresses, endpoints, references and proxies (icc/InetAddr.cpp,
      icm/Endpoint.cpp, icm/Reference.cpp, icm/Proxy.cpp,
      icm/TransportCacheManager.cpp)

    Texts are lists of bytes.  The C library's [inet_aton] and [gethostbyname]
    are the class [Resolver]; what the code relies on is that [inet_aton] reads
    a dotted quad.  A proxy is the reference it holds; the communicator, the
    context and the time-out of a reference do not matter here. *)
From Stdlib Require Import DecimalZ DecimalPos.
From S2P Require Import Prelude Block OutputStream InputStream Marshalling IcmProtocol CppLib.

(** ** Internet addresses *)

Definition AF_INET : Z := 2.
Definition ACE_MAX_DEFAULT_PORT : Z := 65535.

(** [m_addrType], [m_addrSize] and the members of [m_inetAddr]; the two last are
    in network order, as numbers of the host. *)
Record InetAddr := mkInetAddr {
  ia_type : Z;
  ia_size : Z;
  sin_family : Z;
  sin_port : Z;
  s_addr : Z }.

Definition sizeof_sockaddr_in : Z := 16.

Section addresses.

Context `{Host}.

(** [htonl], [ntohl], [htons], [ntohs]. *)
Definition to_network (n : nat) (x : Z) : Z := native_value (be_bytes n x).
Definition of_network (n : nat) (x : Z) : Z := be_value (native n x).

(** [inet_ntoa]. *)
Definition quad (a b c d : Z) : list Z :=
  show_int a ++ [46] ++ show_int b ++ [46] ++ show_int c ++ [46] ++ show_int d.
Definition inet_ntoa (addr : Z) : list Z :=
  match native 4 addr with [a; b; c; d] => quad a b c d | _ => [] end.

Class Resolver := {
  inet_aton : list Z → option Z;
  gethostbyname : list Z → option Z;
  inet_aton_quad a b c d : is_byte a → is_byte b → is_byte c → is_byte d →
    inet_aton (quad a b c d) = Some (native_value [a; b; c; d]) }.

Context `{!Resolver}.

Definition ia_reset (a : InetAddr) : InetAddr := mkInetAddr (ia_type a) (ia_size a) AF_INET 0 0.

Definition InetAddr_empty : InetAddr := mkInetAddr AF_INET sizeof_sockaddr_in AF_INET 0 0.

Definition setPortNumber (port : Z) (a : InetAddr) : InetAddr :=
  mkInetAddr (ia_type a) (ia_size a) (sin_family a) (to_network 2 port) (s_addr a).

Definition getPortNumber (a : InetAddr) : Z := of_network 2 (sin_port a).

Definition getHostAddr (a : InetAddr) : list Z := inet_ntoa (s_addr a).

Definition setAddress (ip len : Z) (a : InetAddr) : Z * InetAddr :=
  if negb (len =? 4) then (-1, a)
  else (0, mkInetAddr AF_INET sizeof_sockaddr_in AF_INET (sin_port a) (to_network 4 ip)).

(** [set (portNumber, inetAddress)]. *)
Definition set_ip (port ip : Z) (a : InetAddr) : Z * InetAddr :=
  let '(_, a) := setAddress ip 4 a in (0, setPortNumber port a).

(** [set (portNumber, hostName)]; [None] is a null pointer. *)
Definition set_host (port : Z) (host : option (list Z)) (a : InetAddr) : Z * InetAddr :=
  match host with
  | None => (-1, a)
  | Some host =>
      let a := ia_reset a in
      match inet_aton host with
      | Some addr => set_ip port (of_network 4 addr) a
      | None =>
          match gethostbyname host with
          | None => (-1, a)
          | Some addr => set_ip port (of_network 4 addr) a
          end
      end
  end.

(** [strtol (t, &endp, 10)]: the number and the text from [endp] on. *)
Definition strtol (t : list Z) : Z * list Z :=
  let s := skip_space t in
  let '(neg, s) := match s with
                   | c :: s' => if c =? 45 then (true, s') else if c =? 43 then (false, s') else (false, s)
                   | [] => (false, s)
                   end in
  let '(d, r) := take_digits s in
  if decide (d = Decimal.Nil) then (0, t)
  else (Z.max (- 2 ^ 63) (Z.min (2 ^ 63 - 1) (Z.of_int (if (neg : bool) then Decimal.Neg d else Decimal.Pos d))), r).

(** [strrchr (t, ':')], with the text before and the text after it. *)
Fixpoint split_last (t : list Z) : option (list Z * list Z) :=
  match t with
  | [] => None
  | c :: t' =>
      match split_last t' with
      | Some (x, y) => Some (c :: x, y)
      | None => if c =? 58 then Some ([], t') else None
      end
  end.

Definition stringToAddr (s : list Z) (a : InetAddr) : Z * InetAddr :=
  match split_last s with
  | None =>
      let '(port, rest) := strtol s in
      if bool_decide (rest = []) then
        if (port <? 0) || (port >? ACE_MAX_DEFAULT_PORT) then (-1, a) else set_ip (u16 port) 0 a
      else (-1, a)
  | Some (ip, portP) =>
      let '(port, rest) := strtol portP in
      if bool_decide (rest = []) then
        if (port <? 0) || (port >? ACE_MAX_DEFAULT_PORT) then (-1, a) else set_host (u16 port) (Some ip) a
      else (-1, a)
  end.

(** The constructors. *)
Definition InetAddr_host (port : Z) (host : list Z) : InetAddr := (set_host port (Some host) InetAddr_empty).2.
Definition InetAddr_ip (port ip : Z) : InetAddr := (set_ip port ip (ia_reset InetAddr_empty)).2.
Definition InetAddr_text (s : list Z) : InetAddr := (stringToAddr s (ia_reset InetAddr_empty)).2.

(** [operator ==], [operator !=], [operator <]. *)
Definition ia_eq (a b : InetAddr) : bool :=
  if negb (ia_type a =? ia_type b) || negb (ia_size a =? ia_size b) then false
  else (sin_family a =? sin_family b) && (sin_port a =? sin_port b) && (s_addr a =? s_addr b).
Definition ia_ne (a b : InetAddr) : bool := negb (ia_eq a b).
Definition ia_lt (a b : InetAddr) : bool := s_addr a <? s_addr b.

Definition ia_toString (a : InetAddr) : list Z := getHostAddr a ++ [58] ++ show_int (getPortNumber a).

End addresses.

(** *** [TransportCacheManager] *)

(** A [std::map] identifies keys that are not [<] each other: addresses with the
    same [s_addr]. *)
Definition TransportCache : Type := gmap Z (InetAddr * Z).

Definition cacheTransport (addr : InetAddr) (transport : Z) (m : TransportCache) : TransportCache :=
  match m !! s_addr addr with
  | None => <[s_addr addr := (addr, transport)]> m
  | Some _ => m
  end.

Definition findTransport (addr : InetAddr) (m : TransportCache) : Z * option Z :=
  match m !! s_addr addr with
  | Some (_, transport) => (0, Some transport)
  | None => (-1, None)
  end.

Definition closeTransport (addr : InetAddr) (m : TransportCache) : TransportCache := delete (s_addr addr) m.

(** ** Endpoints, references, proxies *)

Record Endpoint := mkEndpoint { ep_protocol : list Z; ep_host : list Z; ep_port : Z }.

Definition Endpoint_empty : Endpoint := mkEndpoint [] [] 0.

Record Reference := mkReference { rf_identity : Identity; rf_endpoint : Endpoint }.

Section proxies.

Context `{Allocator, Host, Uninit}.

Definition endpoint_write (e : Endpoint) (os : OutputStream) : result OutputStream :=
  '(_, os) ← write_string (ep_protocol e) os;
  '(_, os) ← write_string (ep_host e) os;
  '(_, os) ← write_ushort (ep_port e) os;
  Ok os.

(** The port stays as it was when it cannot be read. *)
Definition endpoint_read (e : Endpoint) (s : InputStream) : result (Endpoint * InputStream) :=
  '(_, p, s) ← read_string s;
  '(_, h, s) ← read_string s;
  '(_, port, s) ← read_ushort s;
  Ok (mkEndpoint p h (default (ep_port e) port), s).

(** [ReferenceFactory::create (ident, s)] and [create (ident, endpoint)]; [None] is
    a null pointer. *)
Definition reference_create (ident : Identity) (s : InputStream) : result (option Reference * InputStream) :=
  if bool_decide (id_name ident = []) && bool_decide (id_category ident = []) then Ok (None, s)
  else
    '(e, s) ← endpoint_read Endpoint_empty s;
    Ok (Some (mkReference ident e), s).

Definition reference_of (ident : Identity) (e : Endpoint) : option Reference :=
  if bool_decide (id_name ident = []) && bool_decide (id_category ident = []) then None
  else Some (mkReference ident e).

(** [ProxyFactory::proxyToStream], [streamToProxy]. *)
Definition proxyToStream (proxy : option Reference) (os : OutputStream) : result OutputStream :=
  match proxy with
  | Some ref =>
      os ← identity_write (rf_identity ref) os;
      endpoint_write (rf_endpoint ref) os
  | None => identity_write (mkIdentity [] []) os
  end.

Definition streamToProxy (s : InputStream) : result (option Reference * InputStream) :=
  '(ident, s) ← identity_read s;
  reference_create ident s.

(** [OutputStream::write_obj], [InputStream::read_obj]. *)
Definition write_obj (o : option Reference) (os : OutputStream) : result (bool * OutputStream) :=
  match o with
  | None => Ok (false, os)
  | Some _ => os ← proxyToStream o os; Ok (true, os)
  end.

Definition read_obj (s : InputStream) : result (bool * option Reference * InputStream) :=
  '(o, s) ← streamToProxy s;
  Ok (match o with Some _ => true | None => false end, o, s).

End proxies.

(** ** Lemmas *)

Section lemmas.

Context `{Allocator, Host, Uninit}.

(** A proxy on the wire, as a sequence of values. *)
Definition proxy_items (o : option Reference) : list item :=
  match o with
  | Some ref =>
      [IString (id_name (rf_identity ref)); IString (id_category (rf_identity ref));
       IString (ep_protocol (rf_endpoint ref)); IString (ep_host (rf_endpoint ref)); IUShort (ep_port (rf_endpoint ref))]
  | None => [IString []; IString []]
  end.

Lemma proxyToStream_items o os : proxyToStream o os = write_items (proxy_items o) os.
Proof.
  unfold proxyToStream, identity_write, endpoint_write, proxy_items.
  destruct o as [ref|]; cbn [write_items write_item id_name id_category];
    (destruct (write_string _ os) as [[? s1]|]; [|done]); rewrite !bind_Ok;
    (destruct (write_string _ s1) as [[? s2]|]; [|done]); rewrite !bind_Ok; [|done].
  destruct (write_string (ep_protocol _) s2) as [[? s3]|]; [|done]. rewrite !bind_Ok.
  destruct (write_string (ep_host _) s3) as [[? s4]|]; [|done]. rewrite !bind_Ok.
  by destruct (write_ushort _ s4) as [[? s5]|].
Qed.

(** The identity of a proxy that is not null is not the empty one. *)
Definition proxy_ok (o : option Reference) : Prop :=
  Forall item_ok (proxy_items o) ∧
  match o with Some ref => id_name (rf_identity ref) ≠ [] ∨ id_category (rf_identity ref) ≠ [] | None => True end.

Lemma read_ushort_consumes x : in_u 16 x → consumes read_ushort true (Some x) (be_bytes 2 x).
Proof. intros Hx. by apply (read_unsigned_consumes 2 2 16). Qed.

Lemma streamToProxy_ok o s rest :
  proxy_ok o → is_ok_in s → avail s = mjoin (encode <$> proxy_items o) ++ rest →
  ∃ s', streamToProxy s = Ok (o, s') ∧ is_ok_in s' ∧ avail s' = rest.
Proof.
  intros [Hitems Hid] Hs Hav. unfold streamToProxy, identity_read.
  destruct o as [[[n c] [p h port]]|]; cbn [proxy_items rf_identity rf_endpoint id_name id_category ep_protocol ep_host ep_port] in *;
    rewrite !fmap_cons, !mjoin_cons, fmap_nil, mjoin_nil, app_nil_r, <- !app_assoc in Hav; cbn [encode] in Hav;
    apply Forall_cons_1 in Hitems as [Hn Hitems]; apply Forall_cons_1 in Hitems as [Hc Hitems];
    destruct (read_string_consumes _ Hn s _ Hs Hav) as (s1 & -> & Hs1 & Hav1); rewrite bind_Ok;
    destruct (read_string_consumes _ Hc s1 _ Hs1 Hav1) as (s2 & -> & Hs2 & Hav2); rewrite !bind_Ok;
    unfold reference_create; cbn [id_name id_category]; [|by exists s2].
  apply Forall_cons_1 in Hitems as [Hp Hitems]; apply Forall_cons_1 in Hitems as [Hh Hitems]; apply Forall_cons_1 in Hitems as [Hport _].
  replace (bool_decide (n = []) && bool_decide (c = [])) with false
    by (destruct Hid; rewrite ?(bool_decide_eq_false_2 (n = [])), ?(bool_decide_eq_false_2 (c = [])), ?andb_false_r by done; done).
  unfold endpoint_read.
  destruct (read_string_consumes _ Hp s2 _ Hs2 Hav2) as (s3 & -> & Hs3 & Hav3). rewrite bind_Ok.
  destruct (read_string_consumes _ Hh s3 _ Hs3 Hav3) as (s4 & -> & Hs4 & Hav4). rewrite bind_Ok.
  destruct (read_ushort_consumes _ Hport s4 _ Hs4 Hav4) as (s5 & -> & Hs5 & Hav5). rewrite !bind_Ok. by exists s5.
Qed.

(** *** Numbers as text *)

Lemma take_digits_show_end d : take_digits (show_uint d) = (d, []).
Proof. induction d; cbn [show_uint take_digits]; try (rewrite IHd); done. Qed.

(** The digits of a number that is not negative. *)
Lemma show_int_digits n : 0 ≤ n → ∃ d, show_int n = show_uint d ∧ d ≠ Decimal.Nil ∧ Z.of_int (Decimal.Pos d) = n.
Proof.
  intros Hn. pose proof (DecimalZ.of_to n) as Hof. unfold show_int. destruct n as [|p|p]; [..|lia]; cbn [Z.to_int] in *.
  - by exists (Decimal.D0 Decimal.Nil).
  - exists (Pos.to_uint p). split_and!; [done|apply to_uint_nonempty|done].
Qed.

Lemma strtol_show n : 0 ≤ n < 2 ^ 63 → strtol (show_int n) = (n, []).
Proof.
  intros Hn. destruct (show_int_digits n) as (d & Hd & Hne & Hv); [lia|]. unfold strtol. rewrite Hd.
  assert (∃ x r, show_uint d = x :: r ∧ is_space x = false ∧ (x =? 45) = false ∧ (x =? 43) = false) as (x & r & Hx & Hsp & H45 & H43)
    by (destruct d; [done|cbn; eauto 8..]).
  rewrite Hx. cbn [skip_space]. rewrite Hsp, H45, H43. cbv iota beta. rewrite <- Hx, take_digits_show_end.
  rewrite decide_False by done. cbv iota. rewrite Hv. f_equal. lia.
Qed.

(** No colon in it. *)
Definition colonless (t : list Z) : Prop := Forall (λ c, (c =? 58) = false) t.

Lemma show_uint_colonless d : colonless (show_uint d).
Proof. induction d; cbn; by constructor. Qed.

Lemma show_int_colonless n : 0 ≤ n → colonless (show_int n).
Proof. intros Hn. destruct (show_int_digits n Hn) as (d & -> & _). apply show_uint_colonless. Qed.

Lemma split_last_none t : colonless t → split_last t = None.
Proof. intros Ht. induction Ht as [|c t Hc _ IH]; cbn [split_last]; [done|]. by rewrite IH, Hc. Qed.

Lemma split_last_app x y : colonless y → split_last (x ++ 58 :: y) = Some (x, y).
Proof.
  intros Hy. induction x as [|c x IH]; cbn [app split_last]; [by rewrite split_last_none|]. by rewrite IH.
Qed.

(** *** Byte order *)

Lemma native_native_value bs : bytes_ok bs → native (length bs) (native_value bs) = bs.
Proof.
  intros Hbs. unfold native, native_value, be_bytes, be_value. destruct little_endian; [by apply le_bytes_le_value|].
  rewrite <- (length_reverse bs), le_bytes_le_value by (by apply Forall_reverse). apply reverse_involutive.
Qed.

Lemma native_to_network n x : native n (to_network n x) = be_bytes n x.
Proof.
  unfold to_network. pose proof (native_native_value (be_bytes n x) (be_bytes_ok n x)) as Hn.
  by rewrite length_be_bytes in Hn.
Qed.

Lemma of_to_network n x : in_u (8 * Z.of_nat n) x → of_network n (to_network n x) = x.
Proof.
  intros Hx. unfold of_network. rewrite native_to_network, be_value_be_bytes, Z.mod_small; [done|].
  unfold in_u in Hx. replace (256 ^ Z.of_nat n) with (2 ^ (8 * Z.of_nat n)); [done|]. rewrite Z.pow_mul_r by lia. done.
Qed.

(** The dotted quad of an address. *)
Lemma inet_ntoa_quad ip :
  ∃ a b c d, is_byte a ∧ is_byte b ∧ is_byte c ∧ is_byte d ∧
    inet_ntoa (to_network 4 ip) = quad a b c d ∧ native_value [a; b; c; d] = to_network 4 ip.
Proof.
  unfold inet_ntoa. rewrite native_to_network. pose proof (be_bytes_ok 4 ip) as Hb. pose proof (length_be_bytes 4 ip) as Hl.
  unfold to_network. destruct (be_bytes 4 ip) as [|a [|b [|c [|d [|]]]]]; try done.
  apply Forall_cons_1 in Hb as [Ha Hb]. apply Forall_cons_1 in Hb as [Hb' Hb]. apply Forall_cons_1 in Hb as [Hc Hb].
  apply Forall_cons_1 in Hb as [Hd _]. by exists a, b, c, d.
Qed.

End lemmas.

(** ** Properties *)

(** C36: a proxy survives a message.  A proxy, null or with an identity that is
    not empty, written by [proxyToStream] with any values after it, of at most
    65000 bytes, is read back by [streamToProxy] with its identity, protocol,
    host and port, and the values after it follow. *)
Theorem proxy_round_trip `{Allocator, Host, Uninit} o l size :
  proxy_ok o → Forall item_ok l → 0 ≤ size < 2 ^ 61 →
  #(mjoin (encode <$> proxy_items o ++ l)) ≤ os_limit →
  ∃ os0 os s s1 s2, proxyToStream o (OutputStream_new size) = Ok os0 ∧ write_items l os0 = Ok os ∧
    InputStream_of_output os = Ok s ∧ streamToProxy s = Ok (o, s1) ∧
    read_items (kind_of <$> l) s1 = Ok (l, s2).
Proof.
  intros Ho Hl Hsize Hlim. destruct (new_stream_ok size Hsize) as (Hs0 & Hc0 & Hw0).
  assert (os_len (OutputStream_new size) = 0) as Hz by (unfold os_len; by rewrite Hc0).
  assert (Forall item_ok (proxy_items o ++ l)) as Hall by (apply Forall_app; split; [apply Ho|done]).
  destruct (write_items_append (proxy_items o ++ l) _ Hall Hs0 Hw0) as (os & Hw & Hs & Hc & _); [by rewrite Hz|].
  rewrite Hc0 in Hc. cbn [app] in Hc. rewrite write_items_app in Hw. apply bind_inv in Hw as (os0 & Hw0' & Hw).
  destruct (input_of_output_ok os Hs) as (s & rest & Hin & Hs1 & Ha); [unfold os_len; by rewrite Hc|].
  rewrite Hc, fmap_app, join_app, <- app_assoc in Ha.
  destruct (streamToProxy_ok o s _ Ho Hs1 Ha) as (s1 & Hr1 & Hs2 & Ha1).
  destruct (read_items_ok l s1 rest Hl Hs2 Ha1) as (s2 & Hr2 & _).
  exists os0, os, s, s1, s2. split_and!; try done. by rewrite proxyToStream_items.
Qed.

Definition sample_proxy : option Reference :=
  Some (mkReference (mkIdentity [111; 98; 106] []) (mkEndpoint [84; 67; 80] [108; 111; 99; 97; 108] 8888)).

Lemma proxy_round_trip_witness :
  ∃ os0 os s s1 s2, @proxyToStream zero_memory host_le sample_proxy (@OutputStream_new zero_memory host_le 0) = Ok os0 ∧
    @write_items zero_memory host_le [IInt 5] os0 = Ok os ∧ @InputStream_of_output zero_memory host_le os = Ok s ∧
    @streamToProxy host_le uninit_7 s = Ok (sample_proxy, s1) ∧ @read_items host_le uninit_7 [KInt] s1 = Ok ([IInt 5], s2).
Proof.
  destruct (@proxy_round_trip zero_memory host_le uninit_7 sample_proxy [IInt 5] 0) as (os0 & os & s & s1 & s2 & H1 & H2 & H3 & H4 & H5).
  - split; [|left; discriminate]. repeat (apply Forall_cons; split); [..|constructor]; cbn [item_ok]; unfold string_ok, in_s, in_u; cbn;
      repeat (split || apply Forall_cons || apply Forall_nil); unfold is_byte; lia.
  - constructor; [split; vm_compute; [discriminate|reflexivity]|constructor].
  - lia.
  - vm_compute. discriminate.
  - exists os0, os, s, s1, s2. exact (conj H1 (conj H2 (conj H3 (conj H4 H5)))).
Defined.

(** A null proxy passed to [write_obj], which the stubs call, writes nothing; the
    reader's [read_obj] takes the values after it for an identity.  Here the
    message is a null proxy and the string "obj" twice: the reader gets
    a reference with that identity, and no second string. *)
Lemma null_proxy_not_written :
  ∃ os s s1 ref, @write_obj zero_memory host_le None (@OutputStream_new zero_memory host_le 0) = Ok (false, @OutputStream_new zero_memory host_le 0) ∧
    @write_items zero_memory host_le [IString [111; 98; 106]; IString [111; 98; 106]] (@OutputStream_new zero_memory host_le 0) = Ok os ∧
    @InputStream_of_output zero_memory host_le os = Ok s ∧
    @read_obj host_le uninit_7 s = Ok (true, Some ref, s1) ∧ rf_identity ref = mkIdentity [111; 98; 106] [111; 98; 106].
Proof.
  eexists _, _, _, _. split; [reflexivity|]. split; [vm_compute; reflexivity|]. split; [vm_compute; reflexivity|].
  split; [vm_compute; reflexivity|]. reflexivity.
Qed.

(** the text of an address is its address.  Whatever the byte order of the
    host, [stringToAddr] applied to what [toString] prints for a port and an
    address in host order succeeds and gives the same address and port, on any
    object. *)
Lemma address_text_round_trip `{Host, !Resolver} port ip a :
  in_u 16 port → in_u 32 ip →
  stringToAddr (ia_toString (InetAddr_ip port ip)) a = (0, InetAddr_ip port ip) ∧
  getPortNumber (InetAddr_ip port ip) = port.
Proof.
  intros Hport Hip. assert (of_network 2 (to_network 2 port) = port) as Hp by (by apply of_to_network).
  assert (of_network 4 (to_network 4 ip) = ip) as Hi by (by apply of_to_network).
  split; [|exact Hp]. unfold ia_toString, getHostAddr, getPortNumber. cbn [InetAddr_ip set_ip setAddress setPortNumber snd s_addr sin_port Z.eqb Pos.eqb negb].
  destruct (inet_ntoa_quad ip) as (x & b & c & d & Hx & Hb & Hc & Hd & -> & Hq). rewrite Hp.
  unfold stringToAddr. cbn [app]. unfold in_u in Hport. rewrite split_last_app by (apply show_int_colonless; lia).
  rewrite strtol_show by lia. rewrite bool_decide_true by done. unfold ACE_MAX_DEFAULT_PORT.
  rewrite (proj2 (Z.ltb_ge _ _)) by lia. rewrite Z.gtb_ltb, (proj2 (Z.ltb_ge _ _)) by lia. cbn [orb].
  unfold set_host. rewrite inet_aton_quad, Hq, Hi, wrap_small by (done || (unfold in_u; lia)). reflexivity.
Qed.

(** A resolver that knows dotted quads, for the witnesses. *)
Definition is_quad (t : list Z) (q : Z * Z * Z * Z) : bool := let '(a, b, c, d) := q in bool_decide (t = quad a b c d).
Fixpoint split_dots (t acc : list Z) : list (list Z) :=
  match t with
  | [] => [reverse acc]
  | c :: t => if c =? 46 then reverse acc :: split_dots t [] else split_dots t (c :: acc)
  end.
Definition parse_quad `{Host} (t : list Z) : option Z :=
  match (λ x, (strtol x).1) <$> split_dots t [] with
  | [a; b; c; d] => if is_quad t (a, b, c, d) then Some (native_value [a; b; c; d]) else None
  | _ => None
  end.

Definition dotless (t : list Z) : Prop := Forall (λ c, (c =? 46) = false) t.

Lemma show_int_dotless n : 0 ≤ n → dotless (show_int n).
Proof.
  intros Hn. destruct (show_int_digits n Hn) as (d & -> & _). clear. unfold dotless. induction d; cbn; by constructor.
Qed.

Lemma split_dots_app t r acc : dotless t → split_dots (t ++ 46 :: r) acc = (reverse acc ++ t) :: split_dots r [].
Proof.
  intros Ht. revert acc. induction Ht as [|c t Hc _ IH]; intros acc; cbn [app split_dots]; [by rewrite app_nil_r|].
  by rewrite Hc, IH, reverse_cons, <- app_assoc.
Qed.

Lemma split_dots_end t acc : dotless t → split_dots t acc = [reverse acc ++ t].
Proof.
  intros Ht. revert acc. induction Ht as [|c t Hc _ IH]; intros acc; cbn [split_dots]; [by rewrite app_nil_r|].
  by rewrite Hc, IH, reverse_cons, <- app_assoc.
Qed.

Lemma parse_quad_ok `{Host} a b c d :
  is_byte a → is_byte b → is_byte c → is_byte d → parse_quad (quad a b c d) = Some (native_value [a; b; c; d]).
Proof.
  unfold is_byte. intros Ha Hb Hc Hd. unfold parse_quad, quad at 1. cbn [app].
  rewrite !split_dots_app, split_dots_end by (apply show_int_dotless; lia). cbn [fmap list_fmap reverse app].
  rewrite !reverse_nil, !app_nil_l, !strtol_show by lia. cbn [fst]. unfold is_quad. by rewrite bool_decide_true.
Qed.

Definition quads_only : @Resolver host_le :=
  {| inet_aton := @parse_quad host_le; gethostbyname := λ _, None; inet_aton_quad := @parse_quad_ok host_le |}.

Lemma address_text_round_trip_witness :
  @stringToAddr host_le quads_only (@ia_toString host_le (@InetAddr_ip host_le 8888 3232235777)) InetAddr_empty =
    (0, @InetAddr_ip host_le 8888 3232235777).
Proof.
  apply (@address_text_round_trip host_le quads_only 8888 3232235777 InetAddr_empty); split; vm_compute; congruence.
Defined.

(** The cache of transports confuses the ports of a host.  [InetAddr::operator<]
    compares the addresses only, so that a [std::map] takes two endpoints of
    one host for the same key: after a transport to one port was cached, the
    lookup for any other port of that host finds it, a second transport is not
    cached, and closing the second forgets the first. *)
Lemma cache_confuses_ports `{Host} port1 port2 ip t1 t2 m :
  findTransport (InetAddr_ip port1 ip) m = (-1, None) →
  let m := cacheTransport (InetAddr_ip port1 ip) t1 m in
  findTransport (InetAddr_ip port2 ip) m = (0, Some t1) ∧
  cacheTransport (InetAddr_ip port2 ip) t2 m = m ∧
  findTransport (InetAddr_ip port1 ip) (closeTransport (InetAddr_ip port2 ip) m) = (-1, None).
Proof.
  unfold findTransport, cacheTransport, closeTransport.
  change (s_addr (InetAddr_ip port1 ip)) with (to_network 4 ip). change (s_addr (InetAddr_ip port2 ip)) with (to_network 4 ip).
  destruct (m !! _) as [[? ?]|] eqn:E; [done|]. intros _. cbv zeta. unfold TransportCache in *.
  rewrite lookup_insert_eq, lookup_delete_eq. done.
Qed.

Lemma cache_confuses_ports_witness :
  findTransport (@InetAddr_ip host_le 81 1) (cacheTransport (@InetAddr_ip host_le 80 1) 7 ∅) = (0, Some 7).
Proof. exact (proj1 (@cache_confuses_ports host_le 80 81 1 7 8 ∅ eq_refl)). Defined.
