(* ===== verification/Invocation.v ===== *)
(** * Invocation: the client's side of a call (icm/Invocation.cpp,
      icm/ResourceFactory.cpp, icm/TcpConnector.cpp, icc/Connector.cpp)

    An invocation is a local object of a stub: it is built, started on the
    transport of the proxy (or on a new connection), given its header and
    arguments, invoked and destroyed.  A new connection is what the kernel
    answers next in [w_connects]. *)
From S2P Require Import Prelude Block OutputStream InputStream Marshalling Socket Framing IcmProtocol CppLib Servants Transport References.

Definition ICM_INVOCATION_RECV_REQUEST : Z := 50000.
Definition ICM_TIMEOUT_CONNECT : Z := 50000.
Definition ICM_TIMEOUT_SEND : Z := 50001.
Definition ICM_INVOCATION_START_FAILED : Z := 50002.
Definition ICM_INVOCATION_PREPAREHEADER_FAILED : Z := 50003.
Definition ICM_INVOCATION_INVOKE_FAILED : Z := 50004.
Definition ETIMEDOUT : Z := 110.
Definition TCP : list Z := [84; 67; 80].

(** [Invocation]; [mTransport] has no value before [start]. *)
Record Invocation := mkInvocation {
  iv_reference : Reference;
  iv_opName : list Z;
  iv_requestId : Z;
  iv_outStream : OutputStream;
  iv_transport : Z }.

Definition iv_with_out (os : OutputStream) (iv : Invocation) : Invocation :=
  mkInvocation (iv_reference iv) (iv_opName iv) (iv_requestId iv) os (iv_transport iv).
Definition iv_with_transport (t : Z) (iv : Invocation) : Invocation :=
  mkInvocation (iv_reference iv) (iv_opName iv) (iv_requestId iv) (iv_outStream iv) t.
Definition iv_with_requestId (id : Z) (iv : Invocation) : Invocation :=
  mkInvocation (iv_reference iv) (iv_opName iv) id (iv_outStream iv) (iv_transport iv).

(** [TwowayInvocation]: [mRd], and the address of the object, under which
    [w_invocations] has its member [tms]. *)
Record TwowayInvocation := mkTwoway { tw_base : Invocation; tw_rd : Z; tw_this : Z }.

Record OnewayInvocation := mkOneway { ow_base : Invocation; ow_rd : Z }.

(** [TwowayAsynchInvocation]: [mRd], [mRdHasBound]. *)
Record TwowayAsynchInvocation := mkAsynch { as_base : Invocation; as_rd : Z; as_bound : bool }.

Section invocation.

Context {W : Type} `{Application W, Allocator, Host, Uninit, !Resolver}.
Implicit Types w : World W.

(** *** Connecting *)

(** [Connector::connect] with the hooks of [TcpConnectorImpl]: a new handler,
    with the transport in it; it is deleted when the connection is refused, and
    stays, unused, when it is made and cannot be opened or registered. *)
Definition Connector_connect (addr : InetAddr) w : result (Z * Z * World W) :=
  let '(t, w) := IcmTransport_new (mkSocket [] [] [] [] 0) false 0 w in
  let answer := default (Refused ETIMEDOUT) (head (w_connects w)) in
  let w := with_connects (tail (w_connects w)) (w_dialed w ++ [(s_addr addr, sin_port addr)]) w in
  tr ← deref t (w_transports w);
  match answer with
  | Connected sk => Ok (0, t, put_transport t (tr_with_open true (tr_with_socket sk tr)) w)
  | Refused e => w ← IcmTransport_destroy t (set_errno e w); Ok (-1, 0, w)
  | NotOpened sk e => Ok (-1, t, put_transport t (tr_with_open true (tr_with_socket sk tr)) (set_errno e w))
  end.

(** [TcpConnector::connect]; transports are not cached. *)
Definition TcpConnector_connect (addr : InetAddr) (transport : Z) w : result (Z * Z * World W) :=
  '(result, svcHandler, w) ← Connector_connect addr w;
  if result =? -1 then Ok (-1, transport, w) else Ok (0, svcHandler, w).

(** [ConnectorRegistry::connect]: the registry has the connector of "TCP". *)
Definition registry_connect (ref : Reference) (transport : Z) w : result (Z * Z * World W) :=
  let e := rf_endpoint ref in
  if negb (bool_decide (ep_protocol e = TCP)) then Ok (-1, transport, w)
  else TcpConnector_connect (InetAddr_host (ep_port e) (ep_host e)) transport w.

(** *** [Invocation] *)

Definition Invocation_new (ref : Reference) (operation : list Z) : Invocation :=
  mkInvocation ref operation 0 (OutputStream_new 0) uninit.

(** [start (transport)]: code, the transport of the proxy, the invocation. *)
Definition Invocation_start (transport : Z) (iv : Invocation) w : result (Z * Z * Invocation * World W) :=
  usable ← (if negb (transport =? 0) && validateTransport transport w then
              tr ← deref transport (w_transports w);
              Ok (match tr_tms tr with Some _ => true | None => false end)
            else Ok false);
  '(ret, transport, iv, w) ←
    (if (usable : bool) then Ok (0, transport, iv_with_transport transport iv, w)
     else
       '(result, t, w) ← registry_connect (iv_reference iv) (iv_transport iv) w;
       let iv := iv_with_transport t iv in
       if result =? -1 then
         Ok (if w_errno w =? ETIME then - ICM_TIMEOUT_CONNECT else result, transport, iv, w)
       else
         tr ← deref t (w_transports w);
         _ ← assert_ (match tr_tms tr with Some _ => true | None => false end);
         Ok (0, t, iv, w));
  if negb (ret =? 0) then Ok (ret, transport, iv, w)
  else
    tr ← deref (iv_transport iv) (w_transports w);
    match tr_tms tr with
    | None => Ok (-1, transport, iv, w)
    | Some x =>
        let '(id, x) := tms_requestId x in
        Ok (0, transport, iv_with_requestId id iv, put_transport (iv_transport iv) (tr_with_tms (Some x) tr) w)
    end.

(** [prepareHeader (responseFlags)]; [writeRequestHeader] returns true. *)
Definition prepareHeader (responseFlags : Z) (iv : Invocation) : result (Z * Invocation) :=
  os ← writeRequestHeader (iv_requestId iv) responseFlags (rf_identity (iv_reference iv)) (iv_opName iv) (iv_outStream iv);
  Ok (0, iv_with_out os iv).

(** [IcmTransport::startRequest]. *)
Definition startRequest (iv : Invocation) w : result Invocation :=
  _ ← deref (iv_transport iv) (w_transports w);
  os ← startMessage Request (iv_outStream iv);
  Ok (iv_with_out os iv).

(** [invoke (isRoundTrip)]. *)
Definition Invocation_invoke (iv : Invocation) w : result (Z * Invocation * World W) :=
  if (iv_transport iv =? 0) || negb (validateTransport (iv_transport iv) w) then Ok (-1, iv, w)
  else
    '(r, os, w) ← transport_send (iv_transport iv) (iv_outStream iv) w;
    let iv := iv_with_out os iv in
    if r =? -1 then
      w ← closeConnection (iv_transport iv) w;
      Ok (-1, iv_with_transport 0 iv, w)
    else Ok (0, iv, w).

(** [Invocation::closeConnection]. *)
Definition Invocation_close (iv : Invocation) w : result (World W) :=
  if negb (iv_transport iv =? 0) && validateTransport (iv_transport iv) w
  then closeConnection (iv_transport iv) w else Ok w.

(** [tms->bindDispatcher (mRequestId, rd)] on the strategy of the transport. *)
Definition bind_reply (iv : Invocation) (rd : Z) w : result (Z * World W) :=
  tr ← deref (iv_transport iv) (w_transports w);
  match tr_tms tr with
  | None => Fault NullDeref
  | Some x =>
      let '(r, x) := bindDispatcher (iv_requestId iv) rd x in
      Ok (r, put_transport (iv_transport iv) (tr_with_tms (Some x) tr) w)
  end.

(** [rd->replyStatus ()]. *)
Definition replyStatus (rd : Z) w : result Z :=
  x ← deref rd (w_rds w);
  match x with SynchReplyDispatcher _ s _ | AsynchReplyDispatcher s _ _ => Ok s end.

(** *** [TwowayInvocation] *)

Definition TwowayInvocation_new (ref : Reference) (operation : list Z) w : TwowayInvocation * World W :=
  let '(rd, w) := SynchReplyDispatcher_new w in
  let '(p, w) := alloc w in
  (mkTwoway (Invocation_new ref operation) rd p, with_invocations (<[p := 0]> (w_invocations w)) w).

Definition twoway_start (transport : Z) (tw : TwowayInvocation) w : result (Z * Z * TwowayInvocation * World W) :=
  '(ret, transport, iv, w) ← Invocation_start transport (tw_base tw) w;
  if negb (ret =? 0) then Ok (ret, transport, mkTwoway iv (tw_rd tw) (tw_this tw), w)
  else
    w ← (if negb (iv_transport iv =? 0) then
           tr ← deref (iv_transport iv) (w_transports w);
           match tr_tms tr with
           | Some (MuxedTms _ _ _ _) =>
               addObserver (tw_this tw) (iv_transport iv)
                 (with_invocations (<[tw_this tw := iv_transport iv]> (w_invocations w)) w)
           | _ => Ok (with_invocations (<[tw_this tw := 0]> (w_invocations w)) w)
           end
         else Ok w);
    iv ← startRequest iv w;
    Ok (0, transport, mkTwoway iv (tw_rd tw) (tw_this tw), w).

Definition twoway_invoke (tw : TwowayInvocation) w : result (Z * TwowayInvocation * World W) :=
  let iv := tw_base tw in
  '(retval, w) ← bind_reply iv (tw_rd tw) w;
  if retval =? -1 then w ← Invocation_close iv w; Ok (-1, tw, w)
  else
    '(retval, iv, w) ← Invocation_invoke iv w;
    let tw := mkTwoway iv (tw_rd tw) (tw_this tw) in
    if negb (retval =? 0) then Ok (retval, tw, w)
    else
      '(replyError, w) ← WaitOnRead_wait (iv_transport iv) (tw_rd tw) w;
      if replyError =? -1 then
        tr ← deref (iv_transport iv) (w_transports w);
        '(iv, w) ← (if negb (tr_connClosed tr) then w ← Invocation_close iv w; Ok (iv, w)
                    else Ok (iv_with_transport 0 iv, w));
        let tw := mkTwoway iv (tw_rd tw) (tw_this tw) in
        if w_errno w =? ETIME then Ok (- ICM_TIMEOUT_SEND, tw, w)
        else Ok (- ICM_INVOCATION_RECV_REQUEST, tw, w)
      else
        status ← replyStatus (tw_rd tw) w;
        Ok (if status =? 0 then 0 else -1, tw, w).

(** [inpStream ()]: the stream of the dispatcher. *)
Definition inpStream (tw : TwowayInvocation) w : result InputStream :=
  x ← deref (tw_rd tw) (w_rds w);
  match x with
  | SynchReplyDispatcher _ _ st => Ok (st_stream st)
  | AsynchReplyDispatcher _ _ _ => Fault UseAfterFree
  end.

(** [~TwowayInvocation]. *)
Definition twoway_destroy (tw : TwowayInvocation) w : result (World W) :=
  t ← deref (tw_this tw) (w_invocations w);
  w ← (if negb (t =? 0) then
         '(_, w) ← unbindDispatcher t (tw_rd tw) true w;
         removeObserver (tw_this tw) t w
       else rd_delete (tw_rd tw) w);
  Ok (with_invocations (delete (tw_this tw) (w_invocations w)) w).

(** *** [OnewayInvocation]: its destructor does nothing *)

Definition OnewayInvocation_new (ref : Reference) (operation : list Z) w : OnewayInvocation * World W :=
  let '(rd, w) := SynchReplyDispatcher_new w in
  (mkOneway (Invocation_new ref operation) rd, w).

(** The transport is passed by value. *)
Definition oneway_start (transport : Z) (ow : OnewayInvocation) w : result (Z * OnewayInvocation * World W) :=
  '(ret, _, iv, w) ← Invocation_start transport (ow_base ow) w;
  if negb (ret =? 0) then Ok (ret, mkOneway iv (ow_rd ow), w)
  else
    iv ← startRequest iv w;
    Ok (0, mkOneway iv (ow_rd ow), w).

Definition oneway_invoke (ow : OnewayInvocation) w : result (Z * OnewayInvocation * World W) :=
  let iv := ow_base ow in
  '(retval, w) ← bind_reply iv (ow_rd ow) w;
  if retval =? -1 then w ← Invocation_close iv w; Ok (-1, ow, w)
  else
    '(retval, iv, w) ← Invocation_invoke iv w;
    let ow := mkOneway iv (ow_rd ow) in
    if negb (retval =? 0) then Ok (retval, ow, w)
    else
      '(replyError, w) ← WaitOnRead_wait (iv_transport iv) (ow_rd ow) w;
      w ← (if replyError =? -1 then Invocation_close iv w else Ok w);
      status ← replyStatus (ow_rd ow) w;
      Ok (if status =? 0 then 0 else -1, ow, w).

(** *** [TwowayAsynchInvocation] *)

Definition TwowayAsynchInvocation_new (ref : Reference) (operation : list Z) (handler : Z) w : TwowayAsynchInvocation * World W :=
  let '(rd, w) := AsynchReplyDispatcher_new handler w in
  (mkAsynch (Invocation_new ref operation) rd false, w).

Definition asynch_start (transport : Z) (a : TwowayAsynchInvocation) w : result (Z * Z * TwowayAsynchInvocation * World W) :=
  '(ret, transport, iv, w) ← Invocation_start transport (as_base a) w;
  if negb (ret =? 0) then Ok (ret, transport, mkAsynch iv (as_rd a) (as_bound a), w)
  else
    iv ← startRequest iv w;
    Ok (0, transport, mkAsynch iv (as_rd a) (as_bound a), w).

Definition asynch_invoke (a : TwowayAsynchInvocation) w : result (Z * TwowayAsynchInvocation * World W) :=
  let iv := as_base a in
  if (iv_transport iv =? 0) || negb (validateTransport (iv_transport iv) w) then Ok (-1, a, w)
  else
    tr ← deref (iv_transport iv) (w_transports w);
    match tr_tms tr with
    | None => Ok (-1, a, w)
    | Some _ =>
        '(retval, w) ← bind_reply iv (as_rd a) w;
        if retval =? -1 then w ← Invocation_close iv w; Ok (-1, a, w)
        else
          '(retval, iv, w) ← Invocation_invoke iv w;
          let a := mkAsynch iv (as_rd a) true in
          if negb (retval =? 0) then Ok (retval, a, w)
          else
            x ← deref (as_rd a) (w_rds w);
            match x with
            | AsynchReplyDispatcher s h _ =>
                Ok (0, a, with_rds (<[as_rd a := AsynchReplyDispatcher s h (iv_transport iv)]> (w_rds w)) w)
            | SynchReplyDispatcher _ _ _ => Fault UseAfterFree
            end
    end.

(** [~TwowayAsynchInvocation]. *)
Definition asynch_destroy (a : TwowayAsynchInvocation) w : result (World W) :=
  if negb (as_bound a) then rd_delete (as_rd a) w else Ok w.

(** *** Stubs and skeletons, as the Slice compiler writes them
      (examples/icmrpc/Hello.cpp)

    An operation is called with the code that writes its arguments, [wr], and
    the code that reads its results, [rd].  For arguments [args] and results of
    the types [kinds] of the streams these write and read one value after the
    other. *)

(** From [start] to [invoke]: the last code, and the error number for the
    caller when it is not 0. *)
Definition stub_try (transport : Z) (wr : OutputStream → result OutputStream) (tw : TwowayInvocation) w
  : result (Z * Z * Z * TwowayInvocation * World W) :=
  '(ok, transport, tw, w) ← twoway_start transport tw w;
  if negb (ok =? 0) then Ok (ok, ICM_INVOCATION_START_FAILED, transport, tw, w)
  else
    '(ok, iv) ← prepareHeader 1 (tw_base tw);
    if negb (ok =? 0) then Ok (ok, ICM_INVOCATION_PREPAREHEADER_FAILED, transport, mkTwoway iv (tw_rd tw) (tw_this tw), w)
    else
      os ← wr (iv_outStream iv);
      '(ok, tw, w) ← twoway_invoke (mkTwoway (iv_with_out os iv) (tw_rd tw) (tw_this tw)) w;
      Ok (ok, ICM_INVOCATION_INVOKE_FAILED, transport, tw, w).

(** The results, or [None] with [errno] set; the transport the proxy keeps.  A
    failed [invoke] on a transport the proxy had already is tried once more on
    a new connection; failures to start are not. *)
Definition stub_results {R} (rd : InputStream → result (R * InputStream)) (tw : TwowayInvocation) w : result (option R * World W) :=
  s ← inpStream tw w;
  '(results, _) ← rd s;
  Ok (Some results, set_errno 0 w).

Definition stub_call_with {R} (ref : Reference) (operation : list Z) (wr : OutputStream → result OutputStream)
  (rd : InputStream → result (R * InputStream)) (transport : Z) w : result (option R * Z * World W) :=
  let usingCachedTransport := negb (transport =? 0) in
  let '(tw, w) := TwowayInvocation_new ref operation w in
  '(ok, e, transport, tw, w) ← stub_try transport wr tw w;
  '(r, transport, w) ←
    (if negb (ok =? 0) && (e =? ICM_INVOCATION_INVOKE_FAILED) && usingCachedTransport then
       let '(tw2, w) := TwowayInvocation_new ref operation w in
       '(ok, e, transport, tw2, w) ← stub_try 0 wr tw2 w;
       '(r, transport, w) ←
         (if negb (ok =? 0)
          then Ok (None, if e =? ICM_INVOCATION_INVOKE_FAILED then 0 else transport, set_errno e w)
          else '(r, w) ← stub_results rd tw2 w; Ok (r, transport, w));
       w ← twoway_destroy tw2 w;
       Ok (r, transport, w)
     else if negb (ok =? 0) then
       Ok (None, if e =? ICM_INVOCATION_INVOKE_FAILED then 0 else transport, set_errno e w)
     else '(r, w) ← stub_results rd tw w; Ok (r, transport, w));
  w ← twoway_destroy tw w;
  Ok (r, transport, w).

Definition stub_call (ref : Reference) (operation : list Z) (args : list item) (kinds : list kind) (transport : Z) w
  : result (option (list item) * Z * World W) :=
  stub_call_with ref operation (write_items args) (read_items kinds) transport w.

(** [operation_async (cb, ...)]: the transport the proxy keeps. *)
Definition stub_async_with (ref : Reference) (operation : list Z) (wr : OutputStream → result OutputStream) (handler transport : Z) w
  : result (Z * World W) :=
  let '(a, w) := TwowayAsynchInvocation_new ref operation handler w in
  '(ok, transport, a, w) ← asynch_start transport a w;
  '(transport, a, w) ←
    (if negb (ok =? 0) then Ok (transport, a, set_errno ICM_INVOCATION_START_FAILED w)
     else
       '(ok, iv) ← prepareHeader 1 (as_base a);
       if negb (ok =? 0) then
         Ok (transport, mkAsynch iv (as_rd a) (as_bound a), set_errno ICM_INVOCATION_PREPAREHEADER_FAILED w)
       else
         os ← wr (iv_outStream iv);
         '(status, a, w) ← asynch_invoke (mkAsynch (iv_with_out os iv) (as_rd a) (as_bound a)) w;
         Ok (if negb (status =? 0) then (0, a, set_errno ICM_INVOCATION_INVOKE_FAILED w) else (transport, a, w)));
  w ← asynch_destroy a w;
  Ok (transport, w).

Definition stub_async (ref : Reference) (operation : list Z) (args : list item) (handler transport : Z) w : result (Z * World W) :=
  stub_async_with ref operation (write_items args) handler transport w.

(** The asynchronous response with its results. *)
Definition amh_response (p : Z) (results : list item) w : result (World W) :=
  ah ← deref p (w_amhs w);
  if ah_connectionError ah then amh_delete p w
  else
    w ← amh_initReply p w;
    ah ← deref p (w_amhs w);
    os ← write_items results (ah_outStream ah);
    w ← amh_sendReply p (put_amh_stream p ah os w);
    amh_delete p w.

End invocation.
