(* ===== verification/Rpc.v ===== *)
(** * Rpc: calls between two processes

    Theorems about [Transport] and [Invocation]: a server answers a request
    with the results of its servant, a client's call returns them, replies find
    their callers in any order, and what happens when a request is malformed,
    the object unknown, the connection closed or the replies mixed. *)
From S2P Require Import Prelude Block OutputStream InputStream Marshalling Socket Framing IcmProtocol CppLib Servants Transport References Invocation.

(** ** The server *)

Section server.

Context {W : Type} `{Application W, Allocator, Host, Uninit}.
Implicit Types w : World W.

Definition request_of (c : call) : ServerRequest :=
  mkRequest (cl_operation c) (negb (cl_responseFlags c =? 0)) (cl_requestId c) (cl_identity c).

Definition request_bytes (c : call) : list Z := frame Request (mjoin (encode <$> call_items c)).

Definition reply_bytes (id : Z) (results : list item) : list Z :=
  frame Reply (be_bytes 4 id ++ be_bytes 4 ICM_NO_EXCEPTION ++ mjoin (encode <$> results)).

(** What a skeleton writes for a request. *)
Definition write_reply (c : call) (results : list item) : result OutputStream :=
  os ← initReply (request_of c) (OutputStream_new DEFAULT_BUFSIZE);
  write_items results os.

(** The servant [p] answers the call in the state [a] of the application: it
    reads the arguments, writes the reply with the results, and changes nothing
    but that state, to [a']. *)
Definition answers (a : W) (p : Z) (c : call) (results : list item) (a' : W) : Prop :=
  ∀ w s more t os, w_app w = a → is_ok_in s → avail s = mjoin (encode <$> cl_arguments c) ++ more →
    write_reply c results = Ok os →
    ∃ s', servant_dispatch p (mkExchange (request_of c) s (OutputStream_new DEFAULT_BUFSIZE) t) w =
      Ok (DispatchOK, mkExchange (request_of c) s' os t, with_app a' w).

(** The servant [p] implements the call: it answers it in every state, with
    results and an effect that may depend on the state. *)
Definition implements (p : Z) (c : call) (results : W → list item) (effect : W → W) : Prop :=
  ∀ a, answers a p c (results a) (effect a).

(** The buffer on the stack has any contents, like a new one. *)
Lemma reply_stream : OutputStream_data (junk DEFAULT_BUFSIZE) DEFAULT_BUFSIZE = Ok (OutputStream_new DEFAULT_BUFSIZE).
Proof.
  unfold OutputStream_data, copied_block, OutputStream_new, new_block. change (DEFAULT_BUFSIZE =? 0) with false. cbv iota.
  pose proof (junk_length DEFAULT_BUFSIZE) as Hl. unfold DEFAULT_BUFSIZE in *.
  rewrite load_slice by lia. rewrite bind_Ok. unfold slice. rewrite Z.sub_0_r, drop_0, take_ge by lia. reflexivity.
Qed.

(** A reply that fits is written and sent. *)
Lemma reply_written id results size :
  in_u 32 id → Forall item_ok results → 13 + len (mjoin (encode <$> results)) ≤ os_limit → 5 ≤ size < 2 ^ 61 ∨ size = 0 →
  ∃ os0 b1 os1 b2 os2 os, startMessage Reply (OutputStream_new size) = Ok os0 ∧ write_uint id os0 = Ok (b1, os1) ∧
    write_uint ICM_NO_EXCEPTION os1 = Ok (b2, os2) ∧ write_items results os2 = Ok os ∧
    ∀ sk, sk_out sk = [] → ∃ os', sendMessage (Some sk) os =
      Ok (1, os', Some (mkSocket (sk_in sk) (sk_waits sk) [] (sk_sent sk ++ reply_bytes id results) (sk_errno sk))).
Proof.
  intros Hid Hres Hlim Hsize. unfold len in *.
  set (l := IUInt id :: IUInt ICM_NO_EXCEPTION :: results).
  assert (Forall item_ok l) as Hl by (constructor; [done|]; constructor; [unfold item_ok, in_u, ICM_NO_EXCEPTION; lia|done]).
  assert (mjoin (encode <$> l) = be_bytes 4 id ++ be_bytes 4 ICM_NO_EXCEPTION ++ mjoin (encode <$> results)) as Henc by done.
  destruct (start_write_ok Reply l size) as (os0 & os & Hst & Hw & Hs & Hh & Hsw & Hll & Hc); try done.
  { unfold len. rewrite Henc, !length_app, !length_be_bytes. lia. }
  unfold l in Hw. cbn [write_items write_item] in Hw.
  apply bind_inv in Hw as ([b1 os1] & H1' & Hw). apply bind_inv in Hw as ([b2 os2] & H2' & Hw).
  exists os0, b1, os1, b2, os2, os. split_and!; try done.
  intros sk Hout. unfold reply_bytes. rewrite <- Henc. by apply sendMessage_sends.
Qed.

Lemma write_reply_ok c results :
  in_u 32 (cl_requestId c) → Forall item_ok results → 13 + len (mjoin (encode <$> results)) ≤ os_limit →
  ∃ os, write_reply c results = Ok os ∧
    ∀ sk, sk_out sk = [] → ∃ os', sendMessage (Some sk) os =
      Ok (1, os', Some (mkSocket (sk_in sk) (sk_waits sk) [] (sk_sent sk ++ reply_bytes (cl_requestId c) results) (sk_errno sk))).
Proof.
  intros Hid Hres Hlim.
  destruct (reply_written (cl_requestId c) results DEFAULT_BUFSIZE) as (os0 & b1 & os1 & b2 & os2 & os & Hst & H1' & H2' & Hw & Hsend); try done.
  { left. unfold DEFAULT_BUFSIZE. lia. }
  exists os. split; [|done]. unfold write_reply, initReply. cbn [request_of rq_requestId].
  by rewrite Hst, bind_Ok, H1', bind_Ok, H2', !bind_Ok.
Qed.

(** The request of a call, parsed from what arrived. *)
Lemma parse_request c s more :
  Forall item_ok (call_items c) → is_ok_in s → avail s = mjoin (encode <$> call_items c) ++ more →
  ∃ s', ServerRequest_new s = Ok (0, request_of c, s') ∧ is_ok_in s' ∧ avail s' = mjoin (encode <$> cl_arguments c) ++ more.
Proof.
  intros Hitems Hok Hav. unfold call_items in Hitems, Hav. rewrite fmap_app, join_app, <- app_assoc in Hav. cbn [app] in Hitems.
  apply Forall_cons_1 in Hitems as [Hid Hitems]. apply Forall_cons_1 in Hitems as [Hfl Hitems].
  apply Forall_cons_1 in Hitems as [Hn Hitems]. apply Forall_cons_1 in Hitems as [Hca Hitems].
  apply Forall_cons_1 in Hitems as [Hop Hargs]. by apply ServerRequest_new_ok.
Qed.

(** Sending on an open connection. *)
Lemma transport_send_open t tr os os' sk' w :
  t ≠ 0 → w_transports w !! t = Some tr → tr_open tr = true →
  sendMessage (Some (stream_of w tr)) os = Ok (1, os', Some sk') →
  transport_send t os w = Ok (1, os', put_transport t (tr_with_socket sk' tr) (set_errno (sk_errno sk') w)).
Proof.
  intros Ht Htr Hopen Hs. unfold transport_send. rewrite (proj2 (Z.eqb_neq t 0)) by done.
  rewrite (deref_some _ _ _ Htr), bind_Ok, Hs, bind_Ok. unfold put_stream. by rewrite Hopen.
Qed.

(** The object of a request in the tables of its adapter. *)
Lemma adapter_find_servant m ident ex w :
  id_category ident = [] → adapter_find m ident ex w = Ok (findServant ident m, ex, w).
Proof. intros Hc. unfold adapter_find. by rewrite bool_decide_true. Qed.

(** A request reaches its servant: what [handleInputI] does with a request for
    an object that is there is what it does with the answer of the servant,
    which gets the arguments. *)
Lemma request_reaches_servant c p t tr w m rest :
  idle t tr w → incoming (tr_socket tr) (request_bytes c ++ rest) →
  Forall item_ok (call_items c) → len (mjoin (encode <$> call_items c)) < 2 ^ 31 →
  id_category (cl_identity c) = [] → tr_adapter tr ≠ 0 → w_adapters w !! tr_adapter tr = Some m →
  findServant (cl_identity c) m = p → p ≠ 0 →
  ∃ s sk more st, is_ok_in s ∧ avail s = mjoin (encode <$> cl_arguments c) ++ more ∧ incoming sk rest ∧
    sk_out sk = [] ∧ sk_sent sk = sk_sent (tr_socket tr) ∧ ready (state_reset st) ∧
    handleInputI t w =
      ('(result, w) ←
         ('(ds, ex, w) ← servant_dispatch p (mkExchange (request_of c) s (OutputStream_new DEFAULT_BUFSIZE) t)
            (put_transport t (tr_with_state st (tr_with_socket sk tr)) (set_errno (sk_errno sk) w));
          if bool_decide (ds = DispatchAsync) then Ok (0, w)
          else if negb (cl_responseFlags c =? 0) then
            '(result, _, w) ← transport_send t (ex_outgoing ex) w; Ok (result, w)
          else Ok (0, w));
       let result := if negb (result =? -1) then 0 else result in
       w ← reset_state t w; Ok (result, w)).
Proof.
  intros Hidle Hin Hitems Hlen Hcat Hoa Hm Hfind Hp.
  destruct (handleInputI_request t tr w (mjoin (encode <$> call_items c)) rest) as
    (s & sk & more & st & Hs & Hav & Hin' & Ho & Hsent & Hready & ->); try done.
  set (w1 := put_transport t _ (set_errno _ w)).
  destruct (parse_request c s more Hitems Hs Hav) as (s1 & Hpr & Hs1 & Hav1).
  exists s1, sk, more, st. split_and!; try done.
  unfold processServerMessage. rewrite reply_stream, bind_Ok. change (Request =? Request) with true. cbv iota.
  unfold processServerRequest. rewrite Hpr, bind_Ok. cbn [Z.eqb negb].
  set (tr1 := tr_with_state st (tr_with_socket sk tr)) in *.
  rewrite (deref_some t (w_transports w1) tr1) by apply lookup_insert_eq. rewrite bind_Ok. cbn [tr1 tr_adapter tr_with_state tr_with_socket].
  rewrite (proj2 (Z.eqb_neq _ 0)) by done.
  rewrite (deref_some _ (w_adapters w1) m) by exact Hm. rewrite bind_Ok, adapter_find_servant by done. rewrite bind_Ok.
  cbn [rq_identity request_of]. rewrite Hfind, (proj2 (Z.eqb_neq p 0)) by done. reflexivity.
Qed.

(** A server answers.  A connection between two messages, on which the
    request of a call of at most 2^31 bytes arrives (in any pieces), whose
    adapter has a servant for the object that answers the call:
    [handleInputI] returns 0, the servant has acted on the application once,
    and the reply with the id of the request and the servant's results has been
    sent, or nothing when no response is expected.  The connection is between
    two messages again and the bytes after the request are untouched. *)
Lemma request_served c p results a' t tr w m rest :
  t ≠ 0 → idle t tr w → incoming (tr_socket tr) (request_bytes c ++ rest) →
  Forall item_ok (call_items c) → len (mjoin (encode <$> call_items c)) < 2 ^ 31 →
  id_category (cl_identity c) = [] → tr_adapter tr ≠ 0 → w_adapters w !! tr_adapter tr = Some m →
  findServant (cl_identity c) m = p → p ≠ 0 → answers (w_app w) p c results a' →
  Forall item_ok results → 13 + len (mjoin (encode <$> results)) ≤ os_limit →
  ∃ st sk, let w' := put_transport t (tr_with_state st (tr_with_socket sk tr))
                       (set_errno (sk_errno sk) (with_app a' w)) in
    handleInputI t w = Ok (0, w') ∧ idle t (tr_with_state st (tr_with_socket sk tr)) w' ∧ incoming sk rest ∧
    sk_sent sk = sk_sent (tr_socket tr) ++
      (if cl_responseFlags c =? 0 then [] else reply_bytes (cl_requestId c) results).
Proof.
  intros Ht0 Hidle Hin Hitems Hlen Hcat Hoa Hm Hfind Hp Himp Hres Hlim. pose proof Hidle as [Ht Hopen _ _].
  destruct (request_reaches_servant c p t tr w m rest) as (s & sk & more & st & Hs & Hav & Hin' & Ho & Hsent & Hready & ->); try done.
  set (tr1 := tr_with_state st (tr_with_socket sk tr)). set (w1 := put_transport t tr1 (set_errno _ w)).
  assert (in_u 32 (cl_requestId c)) as Hid by (unfold call_items in Hitems; by apply Forall_cons_1 in Hitems as [? _]).
  destruct (write_reply_ok c results Hid Hres Hlim) as (os & Hos & Hsend).
  destruct (Himp w1 s more t os eq_refl Hs Hav Hos) as (s2 & Hdisp).
  rewrite Hdisp, bind_Ok, bool_decide_false by done. cbn [ex_outgoing].
  set (w2 := with_app _ w1).
  assert (w_transports w2 !! t = Some tr1) as Ht2 by apply lookup_insert_eq.
  destruct (cl_responseFlags c =? 0) eqn:Efl; cbn [negb].
  - rewrite !bind_Ok. cbn [Z.eqb negb]. unfold w2, w1.
    change (with_app ?a (put_transport ?x ?y ?z)) with (put_transport x y (with_app a z)).
    rewrite reset_state_put, bind_Ok. eexists (state_reset st), sk. cbv zeta. split; [reflexivity|].
    rewrite app_nil_r. split; [|done]. split; [apply lookup_insert_eq|done|exact Hready|done].
  - destruct (Hsend (stream_of w2 tr1)) as (os' & Hsm); [unfold stream_of; cbn [tr1 tr_open tr_with_state tr_with_socket]; by rewrite Hopen|].
    rewrite (transport_send_open t tr1 os os' _ w2 Ht0 Ht2 Hopen Hsm), !bind_Ok. cbn [Z.eqb negb].
    unfold w2, w1. change (set_errno ?e (with_app ?a (put_transport ?x ?y ?z))) with (put_transport x y (set_errno e (with_app a z))).
    rewrite put_put, reset_state_put, bind_Ok. eexists (state_reset st), _. cbv zeta. split; [reflexivity|].
    unfold stream_of. cbn [tr_open tr_with_state tr_with_socket tr1]. rewrite Hopen. cbn [sk_sent]. rewrite <- Hsent.
    split; [|by split_and!]. split; [apply lookup_insert_eq|done|exact Hready|done].
Qed.

End server.

(** ** The client *)

Section client.

Context {W : Type} `{Application W, Allocator, Host, Uninit, !Resolver}.
Implicit Types w : World W.

(** The dispatcher that waits for a reply takes the stream of the transport. *)
Lemma dispatch_synch id status t tr g table ms obs rd r0 s0 st0 w :
  tr_tms tr = Some (MuxedTms g table ms obs) → table !! id = Some rd → w_rds w !! rd = Some (SynchReplyDispatcher r0 s0 st0) →
  tms_dispatchReply id status t (put_transport t tr w) =
    Ok (1, with_rds (<[rd := SynchReplyDispatcher 1 status (with_stream (steal_from (st_stream (tr_state tr)) (st_stream st0)).1 (state_reset st0))]> (w_rds w))
      (put_transport t (tr_with_state (with_stream (reset_contents (st_stream (tr_state tr))) (tr_state tr))
        (tr_with_tms (Some (MuxedTms g (delete id table) ms obs)) tr)) w)).
Proof.
  intros Htms Hid Hrd. unfold tms_dispatchReply. rewrite deref_put, bind_Ok, Htms, Hid, put_put.
  unfold rd_dispatchReply. rewrite (deref_some _ (w_rds (put_transport t _ w)) _ Hrd), bind_Ok, deref_put, bind_Ok.
  cbn [steal_from]. rewrite put_put. reflexivity.
Qed.

Lemma destroyMessageState_put t tr g table ms obs w :
  tr_tms tr = Some (MuxedTms g table ms obs) →
  destroyMessageState t (put_transport t tr w) = Ok (put_transport t (tr_with_tms (Some (MuxedTms g table None obs)) tr) w).
Proof. intros Htms. unfold destroyMessageState. by rewrite deref_put, bind_Ok, Htms, put_put. Qed.

(** A reply to a call that is waited for. *)
Lemma handleInputI_synch t tr w id status results rest g table ms obs rd r0 s0 st0 :
  idle t tr w → in_u 32 id → in_u 32 status → len results < 2 ^ 31 - 8 →
  incoming (tr_socket tr) (frame Reply (be_bytes 4 id ++ be_bytes 4 status ++ results) ++ rest) →
  tr_tms tr = Some (MuxedTms g table ms obs) → table !! id = Some rd →
  w_rds w !! rd = Some (SynchReplyDispatcher r0 s0 st0) → is_good (st_stream st0) = true →
  ∃ sk st s more, ready st ∧ is_ok_in s ∧ avail s = results ++ more ∧ incoming sk rest ∧ sk_out sk = [] ∧
    sk_sent sk = sk_sent (tr_socket tr) ∧
    handleInputI t w = Ok (1,
      with_rds (<[rd := SynchReplyDispatcher 1 status (with_stream s (state_reset st0))]> (w_rds w))
        (put_transport t (tr_with_tms (Some (MuxedTms g (delete id table) None obs)) (tr_with_state st (tr_with_socket sk tr)))
          (set_errno (sk_errno sk) w))).
Proof.
  intros Hidle Hid Hstat Hlen Hin Htms Htab Hrd Hgood.
  destruct (handleInputI_reply t tr w id status results rest) as (sk & st & more & Hin' & Ho & Hs & Hok & Hheap & Hav & Hready & ->); try done.
  set (tr1 := tr_with_state st (tr_with_socket sk tr)). set (w1 := set_errno (sk_errno sk) w).
  exists sk, (state_reset (with_stream (reset_contents (st_stream st)) st)), (steal_from (st_stream st) (st_stream st0)).1, more.
  split_and!; try done.
  { destruct (fresh_heap_block (b_capacity (is_start (st_stream st)))) as [Hf _];
      [destruct Hheap as (_ & _ & ?); unfold b_capacity in *; lia|].
    split_and!; [exact Hf|apply Hok|done|done]. }
  { split; [apply Hok|]. by split. }
  rewrite (dispatch_synch id status t tr1 g table ms obs rd r0 s0 st0 w1 Htms Htab Hrd), bind_Ok. cbn [Z.eqb].
  change (with_rds ?m (put_transport ?x ?y ?z)) with (put_transport x y (with_rds m z)).
  rewrite (destroyMessageState_put _ _ g (delete id table) ms obs), bind_Ok by reflexivity.
  by rewrite reset_state_put, bind_Ok.
Qed.

Lemma wait_reply t tr w id status results rest g table ms obs rd r0 s0 st0 :
  idle t tr w → in_u 32 id → in_u 32 status → len results < 2 ^ 31 - 8 →
  incoming (tr_socket tr) (frame Reply (be_bytes 4 id ++ be_bytes 4 status ++ results) ++ rest) →
  tr_tms tr = Some (MuxedTms g table ms obs) → table !! id = Some rd →
  w_rds w !! rd = Some (SynchReplyDispatcher r0 s0 st0) → is_good (st_stream st0) = true →
  ∃ sk st s more, ready st ∧ is_ok_in s ∧ avail s = results ++ more ∧ incoming sk rest ∧ sk_out sk = [] ∧
    sk_sent sk = sk_sent (tr_socket tr) ∧
    WaitOnRead_wait t rd w = Ok (0,
      with_rds (<[rd := SynchReplyDispatcher 1 status (with_stream s (state_reset st0))]> (w_rds w))
        (put_transport t (tr_with_tms (Some (MuxedTms g (delete id table) None obs)) (tr_with_state st (tr_with_socket sk tr)))
          (set_errno (sk_errno sk) w))).
Proof.
  intros. destruct (handleInputI_synch t tr w id status results rest g table ms obs rd r0 s0 st0) as (sk & st & s & more & ? & ? & ? & ? & ? & ? & Hhi); try done.
  exists sk, st, s, more. split_and!; try done. unfold WaitOnRead_wait. rewrite Hhi, bind_Ok. change (1 =? -1) with false. cbv iota.
  rewrite (deref_some rd _ (SynchReplyDispatcher 1 status (with_stream s (state_reset st0)))) by (cbn; apply lookup_insert_eq).
  rewrite bind_Ok. reflexivity.
Qed.

(** *** A whole call *)

(** All addresses in use were allocated. *)
Record below w : Prop := mkBelow {
  below_rds p : is_Some (w_rds w !! p) → p ≤ w_next w;
  below_invocations p : is_Some (w_invocations w !! p) → p ≤ w_next w;
  below_tables t tr g table ms obs : w_transports w !! t = Some tr → tr_tms tr = Some (MuxedTms g table ms obs) →
    (∀ id rd, table !! id = Some rd → rd ≤ w_next w) ∧ (∀ p, p ∈ obs → p ≤ w_next w);
  below_next : 0 ≤ w_next w }.

(** The state of a transport while a call is under way: the call's request id
    is bound to the dispatcher, or not, and its invocation observes. *)
Definition calling (tr : IcmTransport) (g : Z) (table : gmap Z Z) (ms : option IcmMessageState) (obs : gset Z) : IcmTransport :=
  tr_with_tms (Some (MuxedTms g table ms obs)) tr.

(** [start] on a connection that is there takes the next request id. *)
Lemma twoway_start_usable t tr w tw g table ms obs os :
  t ≠ 0 → w_transports w !! t = Some tr → tr_tms tr = Some (MuxedTms g table ms obs) →
  startMessage Request (iv_outStream (tw_base tw)) = Ok os →
  twoway_start t tw w = Ok (0, t,
    mkTwoway (mkInvocation (iv_reference (tw_base tw)) (iv_opName (tw_base tw)) (u32 g) os t) (tw_rd tw) (tw_this tw),
    put_transport t (calling tr (u64 (g + 1)) table ms ({[tw_this tw]} ∪ obs))
      (with_invocations (<[tw_this tw := t]> (w_invocations w)) w)).
Proof.
  intros Ht Htr Htms Hos. unfold twoway_start, Invocation_start.
  rewrite (proj2 (Z.eqb_neq t 0)), (validate_some t tr w Htr), (deref_some _ _ _ Htr), !bind_Ok, Htms by done.
  cbn [negb andb]. rewrite !bind_Ok. cbn [Z.eqb negb]. cbn [iv_transport iv_with_transport].
  rewrite (deref_some _ _ _ Htr), bind_Ok, Htms. cbn [tms_requestId]. rewrite bind_Ok. cbn [Z.eqb negb iv_transport iv_with_requestId iv_with_transport].
  rewrite (proj2 (Z.eqb_neq t 0)) by done. cbn [negb]. rewrite deref_put, bind_Ok. cbn [tr_tms tr_with_tms].
  unfold addObserver, with_observers.
  change (with_invocations ?m (put_transport ?x ?y ?z)) with (put_transport x y (with_invocations m z)).
  rewrite deref_put, !bind_Ok. cbn [tr_tms tr_with_tms]. rewrite put_put, bind_Ok.
  unfold startRequest. cbn [iv_transport]. rewrite deref_put, !bind_Ok.
  cbn [iv_outStream iv_with_requestId iv_with_transport]. rewrite Hos, !bind_Ok. reflexivity.
Qed.

(** [invoke]: the request goes out, the reply comes in, its status is the
    result. *)
Lemma twoway_invoke_ok t tr w tw id status results rest g table ms obs r0 s0 st0 request :
  t ≠ 0 → idle t tr w → iv_transport (tw_base tw) = t → iv_requestId (tw_base tw) = id →
  tr_tms tr = Some (MuxedTms g table ms obs) → table !! id = None →
  w_rds w !! tw_rd tw = Some (SynchReplyDispatcher r0 s0 st0) → is_good (st_stream st0) = true →
  (∀ sk, sk_out sk = [] → ∃ os', sendMessage (Some sk) (iv_outStream (tw_base tw)) =
      Ok (1, os', Some (mkSocket (sk_in sk) (sk_waits sk) [] (sk_sent sk ++ request) (sk_errno sk)))) →
  in_u 32 id → in_u 32 status → len results < 2 ^ 31 - 8 →
  incoming (tr_socket tr) (frame Reply (be_bytes 4 id ++ be_bytes 4 status ++ results) ++ rest) →
  ∃ sk st s more tw', ready st ∧ is_ok_in s ∧ avail s = results ++ more ∧ incoming sk rest ∧ sk_out sk = [] ∧
    sk_sent sk = sk_sent (tr_socket tr) ++ request ∧ tw_rd tw' = tw_rd tw ∧ tw_this tw' = tw_this tw ∧
    twoway_invoke tw w = Ok (if status =? 0 then 0 else -1, tw',
      with_rds (<[tw_rd tw := SynchReplyDispatcher 1 status (with_stream s (state_reset st0))]> (w_rds w))
        (put_transport t (calling (tr_with_state st (tr_with_socket sk tr)) g table None obs) (set_errno (sk_errno sk) w))).
Proof.
  intros Ht Hidle Hiv Hrid Htms Hnone Hrd Hgood Hsend Hid Hstat Hlen Hin. pose proof Hidle as [Htr Hopen Hready Hout].
  destruct tw as [iv rd this]. cbn [tw_base tw_rd tw_this] in *.
  unfold twoway_invoke. cbn [tw_base tw_rd tw_this]. unfold bind_reply. rewrite Hiv, (deref_some _ _ _ Htr), bind_Ok, Htms. cbn [bindDispatcher].
  rewrite Hrid, Hnone, bind_Ok. change (1 =? -1) with false. cbv iota.
  set (tr1 := tr_with_tms _ tr). unfold Invocation_invoke. rewrite Hiv, (proj2 (Z.eqb_neq t 0)) by done. cbn [orb].
  assert (w_transports (put_transport t tr1 w) !! t = Some tr1) as Htr1 by apply lookup_insert_eq.
  rewrite (validate_some t tr1 _ Htr1). cbn [negb].
  destruct (Hsend (stream_of (put_transport t tr1 w) tr1)) as (os' & Hsm);
    [unfold stream_of; cbn [tr1 tr_open tr_with_tms]; by rewrite Hopen|].
  rewrite (transport_send_open t tr1 _ os' _ _ Ht Htr1 Hopen Hsm), !bind_Ok. change (1 =? -1) with false. cbv iota.
  rewrite bind_Ok. cbn [Z.eqb negb tw_rd iv_transport iv_with_out]. rewrite Hiv.
  change (set_errno ?e (put_transport ?x ?y ?z)) with (put_transport x y (set_errno e z)). rewrite put_put.
  set (sk1 := mkSocket _ _ _ _ _). set (tr2 := tr_with_socket sk1 tr1).
  destruct (wait_reply t tr2 (put_transport t tr2 (set_errno (sk_errno sk1) w)) id status results rest g (<[id := rd]> table) ms obs rd r0 s0 st0)
    as (sk & st & s & more & Hready' & Hok & Hav & Hin' & Ho & Hsent & Hwait); try done.
  { split; [apply lookup_insert_eq|done|done|done]. }
  { unfold tr2, sk1, stream_of. cbn [tr_open tr1 tr_with_tms tr_socket tr_with_socket]. by rewrite Hopen. }
  { apply lookup_insert_eq. }
  rewrite Hwait, bind_Ok. change (0 =? -1) with false. cbv iota. unfold replyStatus.
  rewrite (deref_some rd _ (SynchReplyDispatcher 1 status (with_stream s (state_reset st0)))) by (cbn; apply lookup_insert_eq).
  rewrite !bind_Ok. exists sk, st, s, more. eexists (mkTwoway _ rd this). split_and!; try done.
  - rewrite Hsent. unfold tr2, sk1, stream_of. cbn [tr_open tr1 tr_with_tms tr_socket tr_with_socket]. by rewrite Hopen.
  - rewrite delete_insert_id by done. unfold calling, tr2, tr1.
    change (set_errno ?e (put_transport ?x ?y ?z)) with (put_transport x y (set_errno e z)). rewrite put_put. reflexivity.
Qed.

(** What a stub writes for a call, and how it goes out. *)
Lemma compose_request_ok c :
  Forall item_ok (call_items c) → 5 + len (mjoin (encode <$> call_items c)) ≤ os_limit →
  ∃ os0 os1 os, startMessage Request (OutputStream_new 0) = Ok os0 ∧
    writeRequestHeader (cl_requestId c) (cl_responseFlags c) (cl_identity c) (cl_operation c) os0 = Ok os1 ∧
    write_items (cl_arguments c) os1 = Ok os ∧
    ∀ sk, sk_out sk = [] → ∃ os', sendMessage (Some sk) os =
      Ok (1, os', Some (mkSocket (sk_in sk) (sk_waits sk) [] (sk_sent sk ++ request_bytes c) (sk_errno sk))).
Proof.
  intros Hitems Hlim.
  destruct (start_write_ok Request (call_items c) 0) as (os0 & os & Hst & Hw & Hs & Hh & Hsw & Hl & Hc); try done; [by right|].
  unfold call_items in Hw. rewrite write_items_app in Hw. apply bind_inv in Hw as (os1 & Hw1 & Hw2).
  exists os0, os1, os. split_and!; [done|by rewrite writeRequestHeader_items|done|].
  intros sk Hout. by apply sendMessage_sends.
Qed.

(** Destroying an invocation whose reply was dispatched. *)
Lemma twoway_destroy_ok t tr w tw g table ms obs :
  t ≠ 0 → tw_rd tw ≠ 0 → w_transports w !! t = Some tr → tr_tms tr = Some (MuxedTms g table ms obs) →
  w_invocations w !! tw_this tw = Some t →
  (∃ r s st, w_rds w !! tw_rd tw = Some (SynchReplyDispatcher r s st)) →
  twoway_destroy tw w = Ok (with_invocations (delete (tw_this tw) (w_invocations w))
    (with_rds (delete (tw_rd tw) (w_rds w))
      (put_transport t (calling tr g (filter (λ e : Z * Z, e.2 ≠ tw_rd tw) table) ms (obs ∖ {[tw_this tw]})) w))).
Proof.
  intros Ht Hrd0 Htr Htms Hinv (r & s & st & Hrd). unfold twoway_destroy. rewrite (deref_some _ _ _ Hinv), bind_Ok.
  rewrite (proj2 (Z.eqb_neq t 0)) by done. cbn [negb]. unfold unbindDispatcher, rd_delete.
  rewrite (proj2 (Z.eqb_neq _ 0)), (deref_some _ _ _ Hrd), !bind_Ok by done.
  rewrite (deref_some _ (w_transports (with_rds _ w)) _ Htr), bind_Ok, Htms, bind_Ok.
  unfold removeObserver, with_observers. rewrite deref_put, !bind_Ok. cbn [tr_tms tr_with_tms]. rewrite put_put, bind_Ok. reflexivity.
Qed.

(** The call a stub makes with the next request id of a connection. *)
Definition next_call (ref : Reference) (op : list Z) (args : list item) (g : Z) : call :=
  mkCall (u32 g) 1 (rf_identity ref) op args.

(** The code [wr] writes the arguments [args], and [rd] reads [r] where the
    results are. *)
Definition marshals (wr : OutputStream → result OutputStream) (args : list item) : Prop :=
  ∀ os os', write_items args os = Ok os' → wr os = Ok os'.

Definition unmarshals {R} (rd : InputStream → result (R * InputStream)) (results : list item) (r : R) : Prop :=
  ∀ s more, is_ok_in s → avail s = mjoin (encode <$> results) ++ more → ∃ s', rd s = Ok (r, s').

(** A call returns its results.  A stub whose proxy has a connection
    between two messages, with other calls pending on it or not: the request,
    with the next request id and the arguments, is sent; when the reply to that
    id comes next, in any pieces and with anything behind it, the stub returns
    the results in it with [errno] 0 and keeps the connection.  Afterwards the
    dispatcher and the invocation are gone, the table of pending calls, the
    observers and everything else in the process are as before, the request id
    is used up, and the connection is between two messages again. *)
Lemma call_with_returns {R} t tr w ref op wr args rdr results (r : R) rest g table ms obs :
  let c := next_call ref op args g in
  t ≠ 0 → idle t tr w → below w → tr_tms tr = Some (MuxedTms g table ms obs) → table !! u32 g = None →
  Forall item_ok (call_items c) → 5 + len (mjoin (encode <$> call_items c)) ≤ os_limit →
  marshals wr args → unmarshals rdr results r → len (mjoin (encode <$> results)) < 2 ^ 31 - 8 →
  incoming (tr_socket tr) (reply_bytes (u32 g) results ++ rest) →
  ∃ st sk, let tr' := calling (tr_with_state st (tr_with_socket sk tr)) (u64 (g + 1)) table None obs in
    let w' := put_transport t tr' (set_errno 0 (with_next (w_next w + 2) w)) in
    stub_call_with ref op wr rdr t w = Ok (Some r, t, w') ∧
    idle t tr' w' ∧ incoming sk rest ∧ sk_sent sk = sk_sent (tr_socket tr) ++ request_bytes c.
Proof.
  intros c Ht Hidle Hbelow Htms Hnone Hitems Hlim Hwr Hrdr Hlen Hin. pose proof Hidle as [Htr Hopen Hready Hout].
  destruct (compose_request_ok c Hitems Hlim) as (os0 & os1 & os & Hst & Hhdr & Hargs & Hsend).
  assert (in_u 32 (u32 g)) as Hid by (unfold call_items in Hitems; by apply Forall_cons_1 in Hitems as [? _]).
  pose proof (below_tables w Hbelow t tr g table ms obs Htr Htms) as [Hbt Hbo]. pose proof (below_next w Hbelow) as Hn.
  set (rd := w_next w + 1). set (p := w_next w + 2).
  assert (w_rds w !! rd = None) as Hrd by (apply eq_None_not_Some; intros Hs%(below_rds w Hbelow); unfold rd in Hs; lia).
  assert (w_invocations w !! p = None) as Hp by (apply eq_None_not_Some; intros Hs%(below_invocations w Hbelow); unfold p in Hs; lia).
  set (wi := with_invocations (<[p := 0]> (w_invocations w))
    (with_rds (<[rd := SynchReplyDispatcher 0 uninit IcmMessageState_new]> (w_rds w)) (with_next p w))).
  assert (TwowayInvocation_new ref op w = (mkTwoway (Invocation_new ref op) rd p, wi)) as Hnew.
  { unfold TwowayInvocation_new, SynchReplyDispatcher_new, alloc. cbn [w_next with_rds with_next].
    replace (w_next w + 1 + 1) with p by (unfold p; lia). reflexivity. }
  unfold stub_call_with. rewrite Hnew. unfold stub_try.
  rewrite (twoway_start_usable t tr wi _ g table ms obs os0) by done. rewrite bind_Ok. cbn [Z.eqb negb tw_base tw_rd tw_this].
  unfold prepareHeader. cbn [iv_requestId iv_reference iv_opName iv_outStream Invocation_new].
  change (writeRequestHeader (u32 g) 1 (rf_identity ref) op os0) with
    (writeRequestHeader (cl_requestId c) (cl_responseFlags c) (cl_identity c) (cl_operation c) os0). rewrite Hhdr, !bind_Ok.
  cbn [Z.eqb negb iv_outStream iv_with_out]. rewrite (Hwr os1 os Hargs), bind_Ok.
  set (tr1 := calling tr _ _ _ _). set (w1 := put_transport t tr1 _). set (tw := mkTwoway _ rd p).
  destruct (twoway_invoke_ok t tr1 w1 tw (u32 g) ICM_NO_EXCEPTION (mjoin (encode <$> results)) rest (u64 (g + 1)) table ms ({[p]} ∪ obs)
    0 uninit IcmMessageState_new (request_bytes c)) as (sk & st & s & more & tw' & Hready' & Hok & Hav & Hin' & Ho & Hsent & Hrd' & Hthis & Hinv); try done.
  { split; [apply lookup_insert_eq|done|done|done]. }
  { cbn. apply lookup_insert_eq. }
  change (ICM_NO_EXCEPTION =? 0) with true in Hinv. cbv iota in Hinv. rewrite Hinv, !bind_Ok. cbn [Z.eqb negb andb].
  unfold stub_results, inpStream. rewrite Hrd'.
  rewrite (deref_some (tw_rd tw) _ (SynchReplyDispatcher 1 ICM_NO_EXCEPTION (with_stream s (state_reset IcmMessageState_new)))) by (cbn; apply lookup_insert_eq).
  rewrite !bind_Ok. cbn [st_stream with_stream].
  destruct (Hrdr s more Hok Hav) as (s' & Hread). rewrite Hread, !bind_Ok.
  set (tr2 := calling (tr_with_state st (tr_with_socket sk tr1)) (u64 (g + 1)) table None ({[p]} ∪ obs)).
  rewrite (twoway_destroy_ok t tr2 _ tw' (u64 (g + 1)) table None ({[p]} ∪ obs)); try done.
  2:{ rewrite Hrd'. cbn [tw tw_rd]. unfold rd. lia. }
  2:{ cbn. apply lookup_insert_eq. }
  2:{ rewrite Hthis. cbn. apply lookup_insert_eq. }
  2:{ rewrite Hrd'. do 3 eexists. cbn. apply lookup_insert_eq. }
  rewrite bind_Ok, Hrd', Hthis. exists st, sk. cbn zeta. split_and!; try done; [|split; [apply lookup_insert_eq|done|done|done]].
  cbn [tw tw_rd tw_this].
  rewrite (map_filter_id (λ e : Z * Z, e.2 ≠ rd) table) by (intros i x Hx%Hbt E; cbn in E; unfold rd in E; lia).
  replace (({[p]} ∪ obs) ∖ {[p]}) with obs by (assert (p ∉ obs) by (intros Hx%Hbo; unfold p in Hx; lia); set_solver).
  unfold w1, wi. world_eq.
Qed.

(** The same for results of the types of the streams. *)
Lemma call_returns_results t tr w ref op args results rest g table ms obs :
  let c := next_call ref op args g in
  t ≠ 0 → idle t tr w → below w → tr_tms tr = Some (MuxedTms g table ms obs) → table !! u32 g = None →
  Forall item_ok (call_items c) → 5 + len (mjoin (encode <$> call_items c)) ≤ os_limit →
  Forall item_ok results → len (mjoin (encode <$> results)) < 2 ^ 31 - 8 →
  incoming (tr_socket tr) (reply_bytes (u32 g) results ++ rest) →
  ∃ st sk, let tr' := calling (tr_with_state st (tr_with_socket sk tr)) (u64 (g + 1)) table None obs in
    let w' := put_transport t tr' (set_errno 0 (with_next (w_next w + 2) w)) in
    stub_call ref op args (kind_of <$> results) t w = Ok (Some results, t, w') ∧
    idle t tr' w' ∧ incoming sk rest ∧ sk_sent sk = sk_sent (tr_socket tr) ++ request_bytes c.
Proof.
  intros c Ht Hidle Hbelow Htms Hnone Hitems Hlim Hres. unfold stub_call. apply (call_with_returns t tr w ref op _ args _ results results rest g table ms obs); try done; [by intros ? ?|].
  intros s more Hok Hav. destruct (read_items_ok results s more Hres Hok Hav) as (s' & Hread & _). eauto.
Qed.

End client.

(** ** Replies to several calls *)

Section replies.

Context {W : Type} `{Application W, Allocator, Host, Uninit}.
Implicit Types w : World W.

(** The reply handler [h], called with [status], takes the results from the
    stream it is given, without reading past them, acts on the application and is deleted. *)
Definition takes (h status : Z) (results : list item) (effect : W → W) : Prop :=
  ∃ react forget : W → W, (∀ a, effect a = forget (react a)) ∧
  (∀ w t tr more, w_transports w !! t = Some tr → is_ok_in (st_stream (tr_state tr)) →
     heap_block (is_start (st_stream (tr_state tr))) → avail (st_stream (tr_state tr)) = mjoin (encode <$> results) ++ more →
     ∃ s, heap_block (is_start s) ∧ is_good s = true ∧ handler_response h t status w =
       Ok (put_transport t (tr_with_state (with_stream s (tr_state tr)) tr) (with_app (react (w_app w)) w))) ∧
  (∀ w, handler_delete h w = Ok (with_app (forget (w_app w)) w)).

(** A reply to an asynchronous call: its handler is called and deleted, with the
    dispatcher. *)
Lemma handleInputI_asynch t tr w id status results effect rest g table ms obs rd h s0 x :
  idle t tr w → in_u 32 id → in_u 32 status → len (mjoin (encode <$> results)) < 2 ^ 31 - 8 →
  incoming (tr_socket tr) (frame Reply (be_bytes 4 id ++ be_bytes 4 status ++ mjoin (encode <$> results)) ++ rest) →
  tr_tms tr = Some (MuxedTms g table ms obs) → table !! id = Some rd → rd ≠ 0 → h ≠ 0 →
  w_rds w !! rd = Some (AsynchReplyDispatcher s0 h x) → takes h status results effect →
  ∃ sk st, let tr' := calling (tr_with_state st (tr_with_socket sk tr)) g (delete id table) None obs in
    let w' := with_rds (delete rd (w_rds w)) (put_transport t tr' (set_errno (sk_errno sk) (with_app (effect (w_app w)) w))) in
    handleInputI t w = Ok (1, w') ∧ idle t tr' w' ∧ incoming sk rest ∧ sk_sent sk = sk_sent (tr_socket tr).
Proof.
  intros Hidle Hid Hstat Hlen Hin Htms Htab Hrd0 Hh0 Hrd (react & forget & Heff & Hresp & Hdel). pose proof Hidle as [_ Hopen _ _].
  destruct (handleInputI_reply t tr w id status (mjoin (encode <$> results)) rest)
    as (sk & st & more & Hin' & Ho & Hs & Hok & Hheap & Hav & Hready & ->); try done.
  unfold tms_dispatchReply. rewrite deref_put, bind_Ok. cbn [tr_tms tr_with_state tr_with_socket]. rewrite Htms, Htab, put_put.
  set (tr1 := tr_with_tms _ _). set (w1 := set_errno (sk_errno sk) w). unfold rd_dispatchReply.
  rewrite (deref_some _ (w_rds (put_transport t tr1 w1)) _ Hrd), bind_Ok, (proj2 (Z.eqb_neq h 0)) by done.
  destruct (Hresp (with_rds (<[rd := AsynchReplyDispatcher status h x]> (w_rds (put_transport t tr1 w1))) (put_transport t tr1 w1)) t tr1 more)
    as (s & Hsh & Hsg & ->); try done; [apply lookup_insert_eq|]. rewrite bind_Ok.
  set (w2 := put_transport t _ _). unfold rd_delete. rewrite (proj2 (Z.eqb_neq rd 0)) by done.
  rewrite (deref_some rd (w_rds w2) (AsynchReplyDispatcher status h x)) by apply lookup_insert_eq.
  rewrite bind_Ok, (proj2 (Z.eqb_neq h 0)) by done. cbn [negb]. rewrite Hdel, !bind_Ok. cbn [Z.eqb]. change (1 =? -1) with false. cbv iota.
  set (tr2 := tr_with_state (with_stream s (tr_state tr1)) tr1).
  set (w3 := with_rds (delete rd (w_rds w)) (set_errno (sk_errno sk) (with_app (effect (w_app w)) w))).
  assert (with_rds (delete rd (w_rds (with_app (forget (w_app w2)) w2))) (with_app (forget (w_app w2)) w2) = put_transport t tr2 w3) as ->.
  { unfold w2, w3, w1. world_eq; [|by rewrite Heff]. by rewrite delete_insert_eq. }
  rewrite (destroyMessageState_put t tr2 g (delete id table) ms obs), bind_Ok by reflexivity. rewrite reset_state_put, bind_Ok.
  exists sk, (state_reset (with_stream s st)). cbv zeta. split_and!; try done.
  split; [apply lookup_insert_eq|done|by split_and!|done].
Qed.

(** A pending asynchronous call. *)
Record pending := mkPending {
  pd_id : Z;
  pd_rd : Z;
  pd_handler : Z;
  pd_status : Z;
  pd_results : list item;
  pd_effect : W → W }.

Definition pending_reply (p : pending) : list Z :=
  frame Reply (be_bytes 4 (pd_id p) ++ be_bytes 4 (pd_status p) ++ mjoin (encode <$> pd_results p)).

Definition is_pending (table : gmap Z Z) (rds : gmap Z ReplyDispatcher) (p : pending) : Prop :=
  table !! pd_id p = Some (pd_rd p) ∧ pd_rd p ≠ 0 ∧ pd_handler p ≠ 0 ∧
  (∃ s x, rds !! pd_rd p = Some (AsynchReplyDispatcher s (pd_handler p) x)) ∧
  in_u 32 (pd_id p) ∧ in_u 32 (pd_status p) ∧ len (mjoin (encode <$> pd_results p)) < 2 ^ 31 - 8 ∧
  takes (pd_handler p) (pd_status p) (pd_results p) (pd_effect p).

(** The reactor calls the handler of a connection [n] times. *)
Fixpoint input_upcalls (n : nat) (t : Z) w : result (World W) :=
  match n with
  | O => Ok w
  | S n => '(_, w) ← handler_handleInput t w; input_upcalls n t w
  end.

(** C4: replies find their calls, whatever their order.  On a connection with any
    number of asynchronous calls pending, the replies to some of them arrive
    one after the other, in any order and in any pieces: one upcall takes each
    of them; every handler gets the results of its own call, once, in the
    order of arrival; the calls and their dispatchers are gone, the other
    calls stay pending, and the bytes behind the replies are untouched. *)
Theorem replies_in_any_order ps : ∀ t tr w rest g table ms obs,
  idle t tr w → tr_tms tr = Some (MuxedTms g table ms obs) →
  NoDup (pd_id <$> ps) → NoDup (pd_rd <$> ps) → Forall (is_pending table (w_rds w)) ps →
  incoming (tr_socket tr) (mjoin (pending_reply <$> ps) ++ rest) →
  ∃ tr' w', input_upcalls (length ps) t w = Ok w' ∧ idle t tr' w' ∧ incoming (tr_socket tr') rest ∧
    w_app w' = foldl (λ a p, pd_effect p a) (w_app w) ps ∧
    w_rds w' = foldl (λ m p, delete (pd_rd p) m) (w_rds w) ps ∧
    ∃ ms', tr_tms tr' = Some (MuxedTms g (foldl (λ m p, delete (pd_id p) m) table ps) ms' obs).
Proof.
  induction ps as [|p ps IH]; intros t tr w rest g table ms obs Hidle Htms Hnd1 Hnd2 Hall Hin.
  { exists tr, w. cbn [length input_upcalls foldl]. split_and!; eauto. }
  rewrite fmap_cons in Hnd1, Hnd2. apply NoDup_cons in Hnd1 as [Hni Hnd1]. apply NoDup_cons in Hnd2 as [Hnr Hnd2].
  apply Forall_cons_1 in Hall as [(Htab & Hrd0 & Hh0 & (s & x & Hrd) & Hid & Hstat & Hlen & Htakes) Hall].
  rewrite fmap_cons, mjoin_cons, <- app_assoc in Hin.
  destruct (handleInputI_asynch t tr w (pd_id p) (pd_status p) (pd_results p) (pd_effect p) (mjoin (pending_reply <$> ps) ++ rest)
    g table ms obs (pd_rd p) (pd_handler p) s x) as (sk & st & Hhi & Hidle' & Hin' & _); try done.
  edestruct (IH t _ _ rest g (delete (pd_id p) table) None obs Hidle' eq_refl Hnd1 Hnd2) as (tr' & w' & Hup & Hi & Hin2 & Ha & Hr & Hm);
    [|exact Hin'|].
  - apply Forall_forall. intros q Hq. pose proof (proj1 (Forall_forall _ _) Hall q Hq) as (Ht & ? & ? & (s' & x' & Hq2) & ? & ? & ? & ?).
    split_and!; try done.
    + rewrite lookup_delete_ne; [done|]. intros E. apply Hni. rewrite E. by apply list_elem_of_fmap_2.
    + exists s', x'. cbn. rewrite lookup_delete_ne; [done|]. intros E. apply Hnr. rewrite E. by apply list_elem_of_fmap_2.
  - exists tr', w'. cbn [length input_upcalls foldl]. unfold handler_handleInput. rewrite Hhi, bind_Ok.
    change (1 =? -1) with false. cbv iota. rewrite bind_Ok. by split_and!.
Qed.

(** a reply to another call aborts the caller.  A caller that waits for its
    reply handles exactly one message: when the reply to an asynchronous call
    on the same connection comes first, that call's handler is run, and then
    the assertion that the caller's own reply was received fails. *)
Lemma foreign_reply_aborts t tr w id status results effect rest g table ms obs rd h s0 x mine s1 st1 :
  idle t tr w → in_u 32 id → in_u 32 status → len (mjoin (encode <$> results)) < 2 ^ 31 - 8 →
  incoming (tr_socket tr) (frame Reply (be_bytes 4 id ++ be_bytes 4 status ++ mjoin (encode <$> results)) ++ rest) →
  tr_tms tr = Some (MuxedTms g table ms obs) → table !! id = Some rd → rd ≠ 0 → h ≠ 0 →
  w_rds w !! rd = Some (AsynchReplyDispatcher s0 h x) → takes h status results effect →
  w_rds w !! mine = Some (SynchReplyDispatcher 0 s1 st1) →
  WaitOnRead_wait t mine w = Fault AssertFailed.
Proof.
  intros Hidle Hid Hstat Hlen Hin Htms Htab Hrd0 Hh0 Hrd Htakes Hmine.
  destruct (handleInputI_asynch t tr w id status results effect rest g table ms obs rd h s0 x) as (sk & st & Hhi & _); try done.
  unfold WaitOnRead_wait. rewrite Hhi, bind_Ok. change (1 =? -1) with false. cbv iota.
  assert (rd ≠ mine) as Hne by (intros ->; congruence).
  rewrite (deref_some mine _ (SynchReplyDispatcher 0 s1 st1)) by (cbn; by rewrite lookup_delete_ne). reflexivity.
Qed.

End replies.

(** ** From caller to servant and back *)

(** C3: a remote call.  A client's stub and a server, each in its own process
    with its own application, memory and connection.  The request the stub
    sends is the one the server receives (in any pieces): the server handles
    it in one upcall, its servant acts once on the application, and when the
    bytes it sent arrive at the client (in any pieces), the stub returns the
    results the servant computed from the server's state, and has sent exactly
    that request. *)
Theorem remote_call {WC WS} `{Application WC, Application WS, Allocator, Host, Uninit, !Resolver}
  t tr (w : World WC) ref op args g table ms obs rest1 ts trs (ws : World WS) m p results effect rest2 :
  let c := next_call ref op args g in
  t ≠ 0 → idle t tr w → below w → tr_tms tr = Some (MuxedTms g table ms obs) → table !! u32 g = None →
  Forall item_ok (call_items c) → 5 + len (mjoin (encode <$> call_items c)) ≤ os_limit →
  ts ≠ 0 → idle ts trs ws → sk_sent (tr_socket trs) = [] → incoming (tr_socket trs) (request_bytes c ++ rest2) →
  id_category (rf_identity ref) = [] → tr_adapter trs ≠ 0 → w_adapters ws !! tr_adapter trs = Some m →
  findServant (rf_identity ref) m = p → p ≠ 0 → implements p c results effect →
  Forall item_ok (results (w_app ws)) → 13 + len (mjoin (encode <$> results (w_app ws))) ≤ os_limit →
  ∃ trs' ws', handleInputI ts ws = Ok (0, ws') ∧ w_app ws' = effect (w_app ws) ∧ idle ts trs' ws' ∧
    incoming (tr_socket trs') rest2 ∧ sk_sent (tr_socket trs') = reply_bytes (u32 g) (results (w_app ws)) ∧
    (incoming (tr_socket tr) (sk_sent (tr_socket trs') ++ rest1) →
     ∃ tr' w', stub_call ref op args (kind_of <$> results (w_app ws)) t w = Ok (Some (results (w_app ws)), t, w') ∧
       idle t tr' w' ∧ w_app w' = w_app w ∧ incoming (tr_socket tr') rest1 ∧
       sk_sent (tr_socket tr') = sk_sent (tr_socket tr) ++ request_bytes c).
Proof.
  intros c Ht Hidle Hbelow Htms Hnone Hitems Hlim Hts Hidles Hsents Hins Hcat Hoa Hm Hfind Hp Himp Hres Hlim2.
  destruct (request_served c p (results (w_app ws)) (effect (w_app ws)) ts trs ws m rest2) as (st & sk & Hhi & Hi & Hin & Hsent); try done.
  { unfold os_limit in Hlim. lia. }
  eexists _, _. split; [exact Hhi|]. split; [done|]. split; [exact Hi|]. split; [exact Hin|].
  cbn [tr_socket tr_with_state tr_with_socket]. rewrite Hsent, Hsents. cbn [app cl_responseFlags c next_call Z.eqb]. split; [done|]. intros Hreply.
  destruct (call_returns_results t tr w ref op args (results (w_app ws)) rest1 g table ms obs) as (st' & sk' & Hcall & Hi' & Hin' & Hsent'); try done.
  { unfold os_limit in Hlim2. lia. }
  eexists _, _. split; [exact Hcall|]. by split_and!.
Qed.

(** ** Request ids *)

Section ids.

(** The ids of the next [n] requests. *)
Fixpoint next_ids (n : nat) (x : TransportMuxStrategy) : list Z :=
  match n with
  | O => []
  | S n => let '(id, x) := tms_requestId x in id :: next_ids n x
  end.

Lemma next_ids_muxed n : ∀ g table ms obs, 0 ≤ g →
  next_ids n (MuxedTms g table ms obs) = (λ i, u32 (g + Z.of_nat i)) <$> seq 0 n.
Proof.
  induction n as [|n IH]; intros g table ms obs Hg; [done|]. cbn [next_ids tms_requestId seq].
  rewrite fmap_cons, IH by (unfold wrap; apply Z.mod_pos_bound; lia). f_equal; [by rewrite Z.add_0_r|].
  rewrite <- (fmap_S_seq 0 n), <- list_fmap_compose. apply list_fmap_ext. intros i k _. cbn [compose].
  unfold wrap. rewrite Zplus_mod, Z.mod_mod_divide by (by exists (2 ^ 32)).
  rewrite <- Zplus_mod. f_equal. lia.
Qed.

End ids.

(** request ids.  On a multiplexed connection any 2^32 successive requests
    have different ids; the next one has the id of the first again, and binding
    a dispatcher under an id whose call is still pending reports success and
    leaves the new dispatcher out of the table. *)
Lemma request_ids_distinct g table ms obs (n : nat) id rd rd' :
  0 ≤ g → Z.of_nat n ≤ 2 ^ 32 → table !! id = Some rd' →
  NoDup (next_ids n (MuxedTms g table ms obs)) ∧
  (∀ i, next_ids (S n + i) (MuxedTms g table ms obs) !! n = Some (u32 (g + Z.of_nat n))) ∧
  u32 (g + 2 ^ 32) = u32 g ∧
  bindDispatcher id rd (MuxedTms g table ms obs) = (1, MuxedTms g table ms obs).
Proof.
  intros Hg Hn Hid. split_and!.
  - rewrite next_ids_muxed by done. apply NoDup_fmap_2_strong; [|apply NoDup_seq].
    intros i j [_ Hi]%elem_of_seq [_ Hj]%elem_of_seq E. unfold wrap in E.
    assert ((g + Z.of_nat i) - (g + Z.of_nat j) = 2 ^ 32 * ((g + Z.of_nat i) / 2 ^ 32 - (g + Z.of_nat j) / 2 ^ 32)) as Hd.
    { pose proof (Z_div_mod_eq_full (g + Z.of_nat i) (2 ^ 32)). pose proof (Z_div_mod_eq_full (g + Z.of_nat j) (2 ^ 32)). lia. }
    set (q := _ / _ - _ / _) in Hd. assert (q = 0) by nia. nia.
  - intros i. rewrite next_ids_muxed by done. rewrite list_lookup_fmap, lookup_seq_lt by lia. done.
  - unfold wrap. rewrite <- (Z.mul_1_l (2 ^ 32)) at 1. by rewrite Z.mod_add by lia.
  - cbn [bindDispatcher]. by rewrite Hid.
Qed.

(** ** Objects and adapters *)

Section errors.

Context {W : Type} `{Application W, Allocator, Host, Uninit}.
Implicit Types w : World W.

(** C35: which servant a request finds.  After any history of registrations in an
    adapter without locators, a request with an empty category finds the servant
    of the first [add] under its name since the last [remove]; a request with a
    category finds none, also when a servant was added with that name and that
    category: the tables ignore the category of a servant, and [find] does
    not. *)
Theorem adapter_finds_registered history ident ex w :
  adapter_find (foldl register ServantManager_new history) ident ex w =
    Ok (if bool_decide (id_category ident = []) then default 0 (registered (id_name ident) history None) else 0, ex, w).
Proof.
  unfold adapter_find, findServantLocator, findServant.
  destruct (history_lookup history (id_name ident) ServantManager_new) as [-> ->]. cbn [ServantManager_new mServantMap mLocatorMap].
  rewrite !lookup_empty. case_bool_decide; cbn [negb]; [|done]. by destruct (registered _ _ _).
Qed.

(** C37: a request for an object that is not there costs the connection.  The
    upcall returns -1 and closes the connection; no servant is called, nothing
    is sent to the client, and the application is as before. *)
Theorem unknown_object_closes c t tr w m rest :
  t ≠ 0 → idle t tr w → incoming (tr_socket tr) (request_bytes c ++ rest) →
  Forall item_ok (call_items c) → len (mjoin (encode <$> call_items c)) < 2 ^ 31 →
  id_category (cl_identity c) = [] → tr_adapter tr ≠ 0 → w_adapters w !! tr_adapter tr = Some m →
  findServant (cl_identity c) m = 0 →
  ∃ st sk, handler_handleInput t w =
      Ok (-1, put_transport t (tr_with_open false (tr_with_state st (tr_with_socket sk tr))) (set_errno (sk_errno sk) w)) ∧
    sk_sent sk = sk_sent (tr_socket tr).
Proof.
  intros Ht0 Hidle Hin Hitems Hlen Hcat Hoa Hm Hfind.
  destruct (handleInputI_request t tr w (mjoin (encode <$> call_items c)) rest) as
    (s & sk & more & st & Hs & Hav & Hin' & Ho & Hsent & Hready & Heq); try done.
  set (tr1 := tr_with_state st (tr_with_socket sk tr)) in *. set (w1 := put_transport t tr1 _) in *.
  destruct (parse_request c s more Hitems Hs Hav) as (s1 & Hpr & Hs1 & Hav1).
  unfold handler_handleInput. rewrite Heq. unfold processServerMessage. rewrite reply_stream, bind_Ok.
  change (Request =? Request) with true. cbv iota. unfold processServerRequest. rewrite Hpr, bind_Ok. cbn [Z.eqb negb].
  rewrite (deref_some t (w_transports w1) tr1) by apply lookup_insert_eq. rewrite bind_Ok. cbn [tr1 tr_adapter tr_with_state tr_with_socket].
  rewrite (proj2 (Z.eqb_neq _ 0)) by done. rewrite (deref_some _ (w_adapters w1) m) by exact Hm.
  rewrite bind_Ok, adapter_find_servant by done. rewrite bind_Ok. cbn [rq_identity request_of]. rewrite Hfind. cbn [Z.eqb].
  rewrite bind_Ok. cbv zeta. change (-1 =? -1) with true. cbn [negb]. fold tr1. unfold w1. rewrite reset_state_put, !bind_Ok.
  change (-1 =? -1) with true. cbv iota. unfold closeConnection. rewrite deref_put, !bind_Ok, put_put.
  by exists (state_reset st), sk.
Qed.

End errors.

(** ** Asynchronous responses *)

Section amh.

Context {W : Type} `{Application W, Allocator, Host, Uninit}.
Implicit Types w : World W.

(** C34: an asynchronous response is the reply.  While its connection lives, the
    response handler of a request sends exactly the bytes the skeleton would
    have sent at once: the id of the request and the results; the handler is
    deleted and the transport no longer refers to one.  It does so whether or
    not the request asked for a response. *)
Theorem asynchronous_response p ah t tr w results :
  w_amhs w !! p = Some ah → ah_connectionError ah = false → ah_outStream ah = OutputStream_new 0 → ah_transport ah = t → t ≠ 0 →
  idle t tr w → in_u 32 (ah_requestId ah) → Forall item_ok results → 13 + len (mjoin (encode <$> results)) ≤ os_limit →
  ∃ sk, amh_response p results w = Ok (with_amhs (delete p (w_amhs w))
      (put_transport t (tr_with_responseHandler 0 (tr_with_socket sk tr)) w)) ∧
    sk_sent sk = sk_sent (tr_socket tr) ++ reply_bytes (ah_requestId ah) results ∧
    sk_in sk = sk_in (tr_socket tr) ∧ sk_out sk = [].
Proof.
  intros Hp Herr Hos Hah Ht Hidle Hid Hres Hlim. pose proof Hidle as [Htr Hopen _ Hout]. destruct ah as [id flag T os0 e].
  cbn [ah_connectionError ah_outStream ah_transport ah_requestId] in *. subst.
  destruct (reply_written id results 0) as (os0 & b1 & os1 & b2 & os2 & os & Hst & H1' & H2' & Hw & Hsend); try done; [by right|].
  unfold amh_response. rewrite (deref_some _ _ _ Hp), bind_Ok. cbn [ah_connectionError].
  unfold amh_initReply. rewrite (deref_some _ _ _ Hp), bind_Ok. cbn [ah_outStream ah_requestId]. rewrite Hst, bind_Ok.
  change (write_uint ICM_NO_EXCEPTION os1) with (write_uint 0 os1) in H2'.
  unfold writeReplyHeader. rewrite H1', !bind_Ok, H2', !bind_Ok. unfold put_amh_stream.
  cbn [ah_requestId ah_responseExpected ah_transport ah_connectionError].
  rewrite (deref_some p _ (mkAmh id flag t os2 false)) by apply lookup_insert_eq. rewrite bind_Ok. cbn [ah_outStream]. rewrite Hw, bind_Ok.
  set (ah1 := mkAmh id flag t os false).
  unfold put_amh_stream. cbn [w_amhs with_amhs ah_requestId ah_responseExpected ah_transport ah_connectionError].
  rewrite insert_insert_eq. change (with_amhs ?m (with_amhs ?m' ?z)) with (with_amhs m z). fold ah1.
  set (w1 := with_amhs _ w). unfold amh_sendReply.
  rewrite (deref_some p (w_amhs w1) ah1) by apply lookup_insert_eq. rewrite bind_Ok. cbn [ah1 ah_transport ah_outStream].
  rewrite (proj2 (Z.eqb_neq t 0)), (validate_some t tr w1 Htr) by done. cbn [orb negb].
  destruct (Hsend (stream_of w1 tr)) as (os' & Hsm); [unfold stream_of; by rewrite Hopen|].
  rewrite (transport_send_open t tr os os' _ w1 Ht Htr Hopen Hsm), !bind_Ok.
  set (sk := mkSocket _ _ _ _ _). unfold amh_delete, put_amh_stream.
  rewrite (deref_some p _ (mkAmh id flag t os' false)) by apply lookup_insert_eq. rewrite bind_Ok. cbn [ah_transport].
  rewrite (proj2 (Z.eqb_neq t 0)) by done. cbn [negb]. unfold setResponsHandler.
  rewrite (deref_some t _ (tr_with_socket sk tr)) by apply lookup_insert_eq. rewrite !bind_Ok.
  exists sk. split_and!.
  - f_equal. unfold w1. world_eq; [by rewrite !delete_insert_eq|]. unfold sk, stream_of. by rewrite Hopen.
  - unfold sk, stream_of. by rewrite Hopen.
  - unfold sk, stream_of. by rewrite Hopen.
  - done.
Qed.

(** a response after the connection was closed writes to freed memory.  The
    transport of a request marks its last response handler when it is
    destroyed; the response then deletes the handler, whose destructor clears
    the pointer in the transport, which is gone. *)
Lemma late_response_use_after_free p ah t tr w g ms results :
  w_transports w !! t = Some tr → tr_tms tr = Some (MuxedTms g ∅ ms ∅) → tr_responseHandler tr = p → p ≠ 0 → t ≠ 0 →
  w_amhs w !! p = Some ah → ah_transport ah = t →
  ∃ w', handler_handleClose t w = Ok w' ∧ w_transports w' = delete t (w_transports w) ∧
    amh_response p results w' = Fault UseAfterFree.
Proof.
  intros Htr Htms Hh Hp Ht Hah Hat. unfold handler_handleClose. rewrite (deref_some _ _ _ Htr), bind_Ok.
  set (tr1 := tr_with_connClosed true tr). unfold IcmTransport_destroy, tms_destroy. rewrite deref_put, bind_Ok.
  cbn [tr1 tr_tms tr_with_connClosed]. rewrite Htms.
  replace (set_iter (∅ : gset Z)) with (@nil Z) by (by rewrite set_iter_empty).
  replace (map_iter (∅ : gmap Z Z)) with (@nil (Z * Z)) by (unfold map_iter; by rewrite dom_empty_L, set_iter_empty).
  cbn [notify_observers delete_dispatchers]. rewrite !bind_Ok. fold tr1. rewrite deref_put, !bind_Ok, put_put, deref_put, bind_Ok.
  cbn [tr_responseHandler tr_with_tms tr1 tr_with_connClosed]. rewrite Hh, (proj2 (Z.eqb_neq p 0)) by done. cbn [negb].
  rewrite (deref_some p _ ah) by exact Hah. rewrite !bind_Ok. eexists. split; [done|]. cbn [w_transports with_transports with_amhs put_transport].
  rewrite delete_insert_eq. split; [done|]. unfold amh_response.
  rewrite (deref_some p _ (mkAmh (ah_requestId ah) (ah_responseExpected ah) (ah_transport ah) (ah_outStream ah) true)) by apply lookup_insert_eq.
  rewrite bind_Ok. cbn [ah_connectionError]. unfold amh_delete.
  rewrite (deref_some p _ (mkAmh (ah_requestId ah) (ah_responseExpected ah) (ah_transport ah) (ah_outStream ah) true)) by apply lookup_insert_eq.
  rewrite bind_Ok. cbn [ah_transport]. rewrite Hat, (proj2 (Z.eqb_neq t 0)) by done. cbn [negb]. unfold setResponsHandler, deref.
  cbn [w_transports with_transports with_amhs put_transport]. rewrite lookup_delete_eq, (proj2 (Z.eqb_neq t 0)) by done. reflexivity.
Qed.

End amh.

(** ** Where the layer does less *)

Section limits.

Context {W : Type} `{Application W, Allocator, Host, Uninit}.
Implicit Types w : World W.

(** [Blobject::__dispatch] writes the header of the reply after [icm_invoke] has
    written the results: they come before the header, which [sendMessage] then
    looks for in the first five bytes of the results. *)
Lemma blobject_header_after_results icm_invoke ex ex' w w' results os :
  Forall item_ok results → 13 + len (mjoin (encode <$> results)) ≤ os_limit → in_u 32 (rq_requestId (ex_request ex)) →
  write_items results (OutputStream_new DEFAULT_BUFSIZE) = Ok os →
  icm_invoke ex w = Ok (true, ex', w') → ex_request ex' = ex_request ex → ex_outgoing ex' = os →
  ∃ os', Blobject_dispatch icm_invoke ex w = Ok (DispatchOK, with_outgoing os' ex', w') ∧
    os_content os' = mjoin (encode <$> results) ++ be_bytes 4 0 ++ [Reply] ++
      be_bytes 4 (rq_requestId (ex_request ex)) ++ be_bytes 4 ICM_NO_EXCEPTION.
Proof.
  intros Hres Hlim Hid Hw Hinv Hreq Hout. unfold Blobject_dispatch. rewrite Hinv, bind_Ok, Hreq, Hout.
  destruct (new_stream_ok DEFAULT_BUFSIZE) as (Hs0 & Hc0 & Hw0); [unfold DEFAULT_BUFSIZE; lia|].
  assert (os_len (OutputStream_new DEFAULT_BUFSIZE) = 0) as Hz by (unfold os_len; by rewrite Hc0). unfold len in Hlim.
  destruct (write_items_append results _ Hres Hs0 Hw0) as (os1 & Hw1 & Hs1 & Hc1 & Hsw1 & _); [rewrite Hz; lia|].
  assert (os1 = os) as -> by congruence. set (l := [IUInt 0; IOctet Reply; IUInt (rq_requestId (ex_request ex)); IUInt ICM_NO_EXCEPTION]).
  assert (initReply (ex_request ex) os = write_items l os) as ->.
  { unfold initReply, startMessage, l. cbn [write_items write_item].
    destruct (write_uint 0 os) as [[? s1]|]; [|done]. rewrite !bind_Ok.
    destruct (write_octet Reply s1) as [[? s2]|]; [|done]. rewrite !bind_Ok.
    destruct (write_uint _ s2) as [[? s3]|]; [|done]. rewrite !bind_Ok. by destruct (write_uint _ s3) as [[? s4]|]. }
  destruct (write_items_append l os) as (os' & -> & _ & Hc & _); [..|done|congruence| |].
  { repeat constructor; unfold in_u, Reply, ICM_NO_EXCEPTION in *; lia. }
  { rewrite (os_len_app _ _ _ Hc1), Hz. unfold l. cbn [fmap list_fmap mjoin list_join encode].
    rewrite !length_app, !length_be_bytes. cbn [length]. lia. }
  rewrite bind_Ok. exists os'. split; [done|]. by rewrite Hc, Hc1, Hc0.
Qed.

(** An [ExclusiveTms] that waits for nothing follows a null pointer when a reply
    with the id 0, or 0xdeadbeef after the first one, comes. *)
Lemma exclusive_unexpected_reply t tr w g id st status :
  w_transports w !! t = Some tr → tr_tms tr = Some (ExclusiveTms g id 0 st) → w_rds w !! 0 = None →
  tms_dispatchReply id status t w = Fault NullDeref.
Proof.
  intros Htr Htms Hrd. unfold tms_dispatchReply. rewrite (deref_some _ _ _ Htr), bind_Ok, Htms, Z.eqb_refl. cbn [negb].
  unfold rd_dispatchReply, deref. cbn [w_rds put_transport with_transports]. by rewrite Hrd.
Qed.

End limits.

(** ** An application, for the witnesses

    Its servants add two numbers, its reply handlers note the number they get;
    both append to a log. *)

Section sample.

Context `{Allocator, Host, Uninit}.

Definition adder (ex : Exchange) (w : World (list Z)) : result (DispatchStatus * Exchange * World (list Z)) :=
  '(l, s) ← read_items [KInt; KInt] (ex_incoming ex);
  match l with
  | [IInt x; IInt y] =>
      os ← initReply (ex_request ex) (ex_outgoing ex);
      os ← write_items [IInt (swrap 32 (x + y))] os;
      Ok (DispatchOK, mkExchange (ex_request ex) s os (ex_transport ex), with_app (w_app w ++ [swrap 32 (x + y)]) w)
  | _ => Ok (DispatchOperationNotExist, ex, w)
  end.

Definition noter (h t status : Z) (w : World (list Z)) : result (World (list Z)) :=
  tr ← deref t (w_transports w);
  '(_, x, s) ← read_uint (st_stream (tr_state tr));
  Ok (put_transport t (tr_with_state (with_stream s (tr_state tr)) tr) (with_app (w_app w ++ [h; default 0 x]) w)).

Definition sample_app : Application (list Z) := {|
  servant_dispatch := λ _, adder;
  locator_locate := λ _ ex w, Ok (0, ex, w);
  handler_response := noter;
  handler_delete := λ _ w, Ok (with_app (w_app w) w) |}.

#[local] Existing Instance sample_app.

Definition no_calls : TransportMuxStrategy := MuxedTms 0 ∅ None ∅.
Definition sample_ref : Reference := mkReference (mkIdentity [111; 98; 106] []) (mkEndpoint TCP [108] 80).
Definition sample_args : list item := [IInt 40; IInt 2].
Definition sample_next : call := next_call sample_ref [97; 100; 100] sample_args 0.

Lemma sample_next_ok : Forall item_ok (call_items sample_next).
Proof.
  change (call_items sample_next) with
    [IUInt 0; IOctet 1; IString [111; 98; 106]; IString []; IString [97; 100; 100]; IInt 40; IInt 2].
  repeat (apply Forall_cons; split); [..|constructor]; cbn [item_ok]; unfold string_ok, in_s, in_u; cbn;
    repeat (split || apply Forall_cons || apply Forall_nil); unfold is_byte; lia.
Qed.

Lemma sample_implements : implements 5 sample_next (λ _, [IInt 42]) (λ a, a ++ [42]).
Proof.
  intros a w s more t os <- Hs Hav Hos. change (servant_dispatch 5) with adder. unfold adder. cbn [ex_incoming ex_request ex_outgoing ex_transport].
  destruct (read_items_ok sample_args s more) as (s' & Hr & _); [|done|done|].
  { repeat constructor; vm_compute; congruence. }
  change [KInt; KInt] with (kind_of <$> sample_args). rewrite Hr, bind_Ok. cbn [sample_args]. change (swrap 32 (40 + 2)) with 42.
  unfold write_reply in Hos. apply bind_inv in Hos as (os0 & Hi & Hw). rewrite Hi, bind_Ok, Hw, bind_Ok. by exists s'.
Qed.

Lemma sample_takes h status x : in_u 32 x → takes h status [IUInt x] (λ a, a ++ [h; x]).
Proof.
  intros Hx. exists (λ a, a ++ [h; x]), id. split; [done|]. split; [|done].
  intros w t tr more Htr Hok Hheap Hav. change (handler_response h t status w) with (noter h t status w).
  rewrite fmap_cons, fmap_nil, mjoin_cons, mjoin_nil, app_nil_r in Hav.
  destruct (read_uint_heap _ _ _ Hok Hx Hheap Hav) as (s & Hr & Hs & Hh & _). unfold noter.
  rewrite (deref_some _ _ _ Htr), bind_Ok, Hr, bind_Ok. exists s. split_and!; [done|apply Hs|done].
Qed.

(** A process with one connection, on which the bytes arrive in two pieces. *)
Definition sample_conn (bytes : list Z) (x : TransportMuxStrategy) (handler : Z) : IcmTransport :=
  mkTransport IcmMessageState_new (mkSocket [Data (take 3 bytes); Data (drop 3 bytes)] [] [] [] 0) true 2 (Some x) false handler.

Definition sample_world (tr : IcmTransport) (rds : gmap Z ReplyDispatcher) (amhs : gmap Z AmhResponseHandler) : World (list Z) :=
  mkWorld {[1 := tr]} rds amhs ∅ {[2 := mkManager {[ [111; 98; 106] := 5 ]} ∅]} [] [] 9 0 [].

Lemma sample_idle bytes x h rds amhs : idle 1 (sample_conn bytes x h) (sample_world (sample_conn bytes x h) rds amhs).
Proof. split; [apply lookup_singleton_eq|reflexivity|apply new_ready|reflexivity]. Qed.

Lemma sample_incoming bytes x h : (3 < length bytes)%nat → incoming (tr_socket (sample_conn bytes x h)) (bytes ++ []).
Proof.
  intros Hl. rewrite app_nil_r. split; [|split].
  - apply Forall_cons; split; [|apply Forall_cons; split; [|by apply Forall_nil]]; cbn [arrives]; intros E;
      apply (f_equal length) in E; rewrite ?length_take, ?length_drop in E; cbn [length] in E; lia.
  - unfold data_of. cbn. by rewrite app_nil_r, take_drop.
  - by exists 0%nat, [].
Qed.

Lemma sample_below bytes h : below (sample_world (sample_conn bytes no_calls h) ∅ ∅).
Proof.
  split.
  - intros p [? E]. cbn [sample_world w_rds] in E. by rewrite lookup_empty in E.
  - intros p [? E]. cbn [sample_world w_invocations] in E. by rewrite lookup_empty in E.
  - intros t tr g table ms obs E Etms. cbn [sample_world w_transports] in E. apply lookup_singleton_Some in E as [_ <-]. injection Etms as <- <- <- <-.
    split; [intros ? ? E; by rewrite lookup_empty in E|]. intros p Hp. by apply elem_of_empty in Hp.
  - done.
Qed.

End sample.

Section witnesses.

#[local] Existing Instance zero_memory.
#[local] Existing Instance host_le.
#[local] Existing Instance uninit_7.
#[local] Existing Instance quads_only.
#[local] Existing Instance sample_app.

Lemma request_served_witness :
  ∃ st sk, let tr := sample_conn (request_bytes sample_next) no_calls 0 in
    handleInputI 1 (sample_world tr ∅ ∅) = Ok (0, put_transport 1 (tr_with_state st (tr_with_socket sk tr))
      (set_errno (sk_errno sk) (with_app [42] (sample_world tr ∅ ∅)))) ∧ sk_sent sk = reply_bytes 0 [IInt 42].
Proof.
  destruct (request_served sample_next 5 [IInt 42] [42] 1 (sample_conn (request_bytes sample_next) no_calls 0)
    (sample_world (sample_conn (request_bytes sample_next) no_calls 0) ∅ ∅) (mkManager {[ [111; 98; 106] := 5 ]} ∅) [])
    as (st & sk & Hhi & _ & _ & Hsent).
  - discriminate.
  - apply sample_idle.
  - apply sample_incoming. vm_compute. lia.
  - exact sample_next_ok.
  - vm_compute. reflexivity.
  - reflexivity.
  - discriminate.
  - vm_compute. reflexivity.
  - vm_compute. reflexivity.
  - discriminate.
  - exact (sample_implements []).
  - repeat constructor; vm_compute; congruence.
  - vm_compute. discriminate.
  - exists st, sk. split; [exact Hhi|exact Hsent].
Defined.

Lemma call_returns_results_witness :
  ∃ w', stub_call sample_ref [97; 100; 100] sample_args [KInt] 1
      (sample_world (sample_conn (reply_bytes 0 [IInt 42]) no_calls 0) ∅ ∅) = Ok (Some [IInt 42], 1, w').
Proof.
  destruct (call_returns_results 1 (sample_conn (reply_bytes 0 [IInt 42]) no_calls 0)
    (sample_world (sample_conn (reply_bytes 0 [IInt 42]) no_calls 0) ∅ ∅) sample_ref [97; 100; 100] sample_args [IInt 42] [] 0 ∅ None ∅)
    as (st & sk & Hcall & _).
  - discriminate.
  - apply sample_idle.
  - apply sample_below.
  - reflexivity.
  - reflexivity.
  - exact sample_next_ok.
  - vm_compute. discriminate.
  - repeat constructor; vm_compute; congruence.
  - vm_compute. reflexivity.
  - apply sample_incoming. vm_compute. lia.
  - eexists. exact Hcall.
Defined.

Lemma remote_call_witness :
  ∃ ws' w', handleInputI 1 (sample_world (sample_conn (request_bytes sample_next) no_calls 0) ∅ ∅) = Ok (0, ws') ∧ w_app ws' = [42] ∧
    stub_call sample_ref [97; 100; 100] sample_args [KInt] 1
      (sample_world (sample_conn (reply_bytes 0 [IInt 42]) no_calls 0) ∅ ∅) = Ok (Some [IInt 42], 1, w').
Proof.
  destruct (remote_call 1 (sample_conn (reply_bytes 0 [IInt 42]) no_calls 0)
    (sample_world (sample_conn (reply_bytes 0 [IInt 42]) no_calls 0) ∅ ∅) sample_ref [97; 100; 100] sample_args 0 ∅ None ∅ []
    1 (sample_conn (request_bytes sample_next) no_calls 0) (sample_world (sample_conn (request_bytes sample_next) no_calls 0) ∅ ∅)
    (mkManager {[ [111; 98; 106] := 5 ]} ∅) 5 (λ _, [IInt 42]) (λ a, a ++ [42]) [])
    as (trs' & ws' & Hhi & Happ & _ & _ & Hsent & Hstub).
  - discriminate.
  - apply sample_idle.
  - apply sample_below.
  - reflexivity.
  - reflexivity.
  - exact sample_next_ok.
  - vm_compute. discriminate.
  - discriminate.
  - apply sample_idle.
  - reflexivity.
  - apply sample_incoming. vm_compute. lia.
  - reflexivity.
  - discriminate.
  - vm_compute. reflexivity.
  - vm_compute. reflexivity.
  - discriminate.
  - exact sample_implements.
  - repeat constructor; vm_compute; congruence.
  - vm_compute. discriminate.
  - destruct Hstub as (tr' & w' & Hcall & _); [rewrite Hsent; apply sample_incoming; vm_compute; lia|].
    exists ws', w'. exact (conj Hhi (conj Happ Hcall)).
Defined.

(** Two asynchronous calls, with the ids 3 and 4; the reply to 4 comes first. *)
Definition two_calls : TransportMuxStrategy := MuxedTms 5 (<[3 := 11]> {[4 := 12]}) None ∅.
Definition two_dispatchers : gmap Z ReplyDispatcher := <[11 := AsynchReplyDispatcher 0 21 1]> {[12 := AsynchReplyDispatcher 0 22 1]}.
Definition two_pending : list (@pending (list Z)) :=
  [mkPending 4 12 22 0 [IUInt 400] (λ a, a ++ [22; 400]); mkPending 3 11 21 0 [IUInt 300] (λ a, a ++ [21; 300])].

Lemma two_pending_ok : Forall (is_pending (<[3 := 11]> {[4 := 12]}) two_dispatchers) two_pending.
Proof.
  apply Forall_cons; split; [|apply Forall_cons; split; [|by apply Forall_nil]];
    (split; [vm_compute; reflexivity|]; split; [discriminate|]; split; [discriminate|];
     split; [eexists _, _; vm_compute; reflexivity|]; split; [unfold in_u; cbn; lia|]; split; [unfold in_u; cbn; lia|];
     split; [vm_compute; reflexivity|]; apply sample_takes; unfold in_u; lia).
Qed.

Lemma replies_in_any_order_witness :
  ∃ w', input_upcalls 2 1 (sample_world (sample_conn (mjoin (pending_reply <$> two_pending)) two_calls 0) two_dispatchers ∅) = Ok w' ∧
    w_app w' = [22; 400; 21; 300] ∧ w_rds w' = delete 11 (delete 12 two_dispatchers).
Proof.
  destruct (replies_in_any_order two_pending 1 (sample_conn (mjoin (pending_reply <$> two_pending)) two_calls 0)
    (sample_world (sample_conn (mjoin (pending_reply <$> two_pending)) two_calls 0) two_dispatchers ∅) [] 5 (<[3 := 11]> {[4 := 12]}) None ∅)
    as (tr' & w' & Hup & _ & _ & Happ & Hrds & _).
  - apply sample_idle.
  - reflexivity.
  - repeat constructor; set_solver by lia.
  - repeat constructor; set_solver by lia.
  - exact two_pending_ok.
  - apply sample_incoming. vm_compute. lia.
  - exists w'. exact (conj Hup (conj Happ Hrds)).
Defined.

(** A caller waits with the dispatcher 13 when the reply to the call 4 comes. *)
Definition with_caller : gmap Z ReplyDispatcher := <[13 := SynchReplyDispatcher 0 0 IcmMessageState_new]> two_dispatchers.

Lemma foreign_reply_aborts_witness :
  WaitOnRead_wait 1 13 (sample_world (sample_conn
    (frame Reply (be_bytes 4 4 ++ be_bytes 4 0 ++ mjoin (encode <$> [IUInt 400]))) two_calls 0) with_caller ∅) = Fault AssertFailed.
Proof.
  apply (foreign_reply_aborts 1 _ _ 4 0 [IUInt 400] (λ a, a ++ [22; 400]) [] 5 (<[3 := 11]> {[4 := 12]}) None ∅ 12 22 0 1 13 0 IcmMessageState_new
    (sample_idle _ _ _ _ _)).
  - split; vm_compute; congruence.
  - split; vm_compute; congruence.
  - vm_compute. reflexivity.
  - apply sample_incoming. vm_compute. lia.
  - reflexivity.
  - vm_compute. reflexivity.
  - discriminate.
  - discriminate.
  - vm_compute. reflexivity.
  - apply sample_takes. split; vm_compute; congruence.
  - apply lookup_insert_eq.
Defined.

Lemma request_ids_distinct_witness :
  next_ids 3 two_calls = [5; 6; 7] ∧ NoDup (next_ids 3 two_calls) ∧ bindDispatcher 3 30 two_calls = (1, two_calls).
Proof.
  destruct (request_ids_distinct 5 (<[3 := 11]> {[4 := 12]}) None ∅ 3 3 30 11) as (Hnd & _ & _ & Hb).
  - lia.
  - lia.
  - vm_compute. reflexivity.
  - split; [reflexivity|exact (conj Hnd Hb)].
Defined.

Definition unknown_call : call := mkCall 7 1 (mkIdentity [120] []) [97] [].

Lemma unknown_object_closes_witness :
  ∃ w', handler_handleInput 1 (sample_world (sample_conn (request_bytes unknown_call) no_calls 0) ∅ ∅) = Ok (-1, w').
Proof.
  destruct (unknown_object_closes unknown_call 1 (sample_conn (request_bytes unknown_call) no_calls 0)
    (sample_world (sample_conn (request_bytes unknown_call) no_calls 0) ∅ ∅) (mkManager {[ [111; 98; 106] := 5 ]} ∅) []) as (st & sk & Hhi & _).
  - discriminate.
  - apply sample_idle.
  - apply sample_incoming. vm_compute. lia.
  - change (call_items unknown_call) with [IUInt 7; IOctet 1; IString [120]; IString []; IString [97]].
    repeat (apply Forall_cons; split); [..|constructor]; cbn [item_ok]; unfold string_ok, in_s, in_u; cbn;
      repeat (split || apply Forall_cons || apply Forall_nil); unfold is_byte; lia.
  - vm_compute. reflexivity.
  - reflexivity.
  - discriminate.
  - vm_compute. reflexivity.
  - vm_compute. reflexivity.
  - eexists. exact Hhi.
Defined.

Definition sample_amh : AmhResponseHandler := mkAmh 7 true 1 (OutputStream_new 0) false.

Lemma asynchronous_response_witness :
  ∃ sk, amh_response 6 [IInt 42] (sample_world (sample_conn [] no_calls 6) ∅ {[6 := sample_amh]}) =
      Ok (with_amhs (delete 6 {[6 := sample_amh]})
        (put_transport 1 (tr_with_responseHandler 0 (tr_with_socket sk (sample_conn [] no_calls 6)))
          (sample_world (sample_conn [] no_calls 6) ∅ {[6 := sample_amh]}))) ∧
    sk_sent sk = reply_bytes 7 [IInt 42].
Proof.
  destruct (asynchronous_response 6 sample_amh 1 (sample_conn [] no_calls 6) (sample_world (sample_conn [] no_calls 6) ∅ {[6 := sample_amh]}) [IInt 42])
    as (sk & Hr & Hs & _).
  - apply lookup_singleton_eq.
  - reflexivity.
  - reflexivity.
  - reflexivity.
  - discriminate.
  - apply sample_idle.
  - split; vm_compute; congruence.
  - repeat constructor; vm_compute; congruence.
  - vm_compute. discriminate.
  - exists sk. exact (conj Hr Hs).
Defined.

Lemma late_response_use_after_free_witness :
  ∃ w', handler_handleClose 1 (sample_world (sample_conn [] no_calls 6) ∅ {[6 := sample_amh]}) = Ok w' ∧
    amh_response 6 [IInt 42] w' = Fault UseAfterFree.
Proof.
  destruct (late_response_use_after_free 6 sample_amh 1 (sample_conn [] no_calls 6)
    (sample_world (sample_conn [] no_calls 6) ∅ {[6 := sample_amh]}) 0 None [IInt 42]) as (w' & H1 & _ & H2).
  - apply lookup_singleton_eq.
  - reflexivity.
  - reflexivity.
  - discriminate.
  - discriminate.
  - apply lookup_singleton_eq.
  - reflexivity.
  - exists w'. exact (conj H1 H2).
Defined.

(** A request whose name claims 2^31-1 bytes: [processServerRequest] returns
    -50000, which [handleInputI] takes for success; there is no reply, and the
    connection stays open. *)
Lemma malformed_request_ignored :
  ∃ w', handleInputI 1 (sample_world (sample_conn (frame Request ([0; 0; 0; 7; 1] ++ [127; 255; 255; 255])) no_calls 0) ∅ ∅) = Ok (0, w') ∧
    (sk_sent ∘ tr_socket <$> w_transports w' !! 1) = Some [] ∧ (tr_open <$> w_transports w' !! 1) = Some true.
Proof. eexists. split; [vm_compute; reflexivity|]. split; vm_compute; reflexivity. Qed.

End witnesses.

Definition uninit_0 : Uninit := {| uninit := 0 |}.

Section oneway.

#[local] Existing Instance zero_memory.
#[local] Existing Instance host_le.
#[local] Existing Instance uninit_0.
#[local] Existing Instance quads_only.
#[local] Existing Instance sample_app.

Definition closed_by_peer : IcmTransport :=
  mkTransport IcmMessageState_new (mkSocket [Data []] [] [] [] 0) true 0 (Some no_calls) false 0.

(** A one-way call whose connection the server has closed: [invoke] does not
    return after the failed wait, and reads a status that was never set.  Where
    that memory holds 0 the call reports success; the dispatcher stays
    allocated and bound. *)
Lemma oneway_reports_unset_status :
  let '(ow, w) := OnewayInvocation_new sample_ref [97] (sample_world closed_by_peer ∅ ∅) in
  ∃ ow1 w1 ow2 w2, oneway_start 1 ow w = Ok (0, ow1, w1) ∧ oneway_invoke ow1 w1 = Ok (0, ow2, w2) ∧
    is_Some (w_rds w2 !! ow_rd ow2).
Proof. eexists _, _, _, _. split; [vm_compute; reflexivity|]. split; vm_compute; [reflexivity|]. eexists. reflexivity. Qed.

End oneway.
