(* ===== verification/Server.v ===== *)
(** * Server: the process that serves remote calls (icc/SocketAcceptor.cpp,
      icc/Acceptor.cpp, icc/SvcHandler.cpp, icm/TcpAcceptor.cpp, icm/TcpAcceptorImpl.h,
      icm/TcpFactory.h, icm/ResourceFactory.cpp, icm/Communicator.cpp, the
      constructors of icm/ObjectAdapter.cpp)

    A communicator has a reactor, a registry of acceptors, and object adapters.
    An adapter with an endpoint opens an acceptor, which listens at a port and
    is registered with the reactor; its upcall accepts a connection and
    registers a handler for it, whose upcall takes requests.

    [Server] joins the [World] of transports with the acceptors, the
    descriptors of the connections and the network, which is the class [Net];
    [LawfulNet] says what the manuals say of its calls.  The acceptors and the
    connections are the handlers of the reactor: [server_handlers] is the
    instance of [ReactorHandlers] the loop runs on.  Objects that the code
    forgets without deleting them stay in the tables. *)
From S2P Require Import Prelude TimeValue TimerHeap TimerQueue HandleSet SelectReactor EventLoop Block OutputStream InputStream Marshalling Socket Framing IcmProtocol CppLib Servants Transport References Invocation Rpc.

(** ** The network *)

Class Net (K : Type) := {
  net_socket : K → Z * K;
  net_reuse : Z → K → Z * K;
  net_bind : Z → Z → K → Z * K;
  net_listen : Z → K → Z * K;
  net_accept : Z → K → option (Z * socket) * K;
  net_nonblock : Z → K → Z * K;
  net_names : Z → K → bool;
  net_sockname : Z → K → option Z;
  net_close : Z → K → K }.

(** What a descriptor is. *)
Inductive descriptor := Fresh | BoundTo (port : Z) | ListensAt (port : Z) | Connection.

(** A call that fails changes no descriptor; [bind] to port 0 chooses one. *)
Class LawfulNet (K : Type) {net : Net K} := {
  net_open : K → gmap Z descriptor;
  socket_law k h k' : net_socket k = (h, k') →
    if h =? -1 then net_open k' = net_open k
    else 0 ≤ h ∧ net_open k !! h = None ∧ net_open k' = <[h := Fresh]> (net_open k);
  reuse_law h k r k' : net_reuse h k = (r, k') → net_open k' = net_open k;
  bind_law h p k r k' : net_bind h p k = (r, k') → net_open k !! h = Some Fresh →
    if r =? -1 then net_open k' = net_open k
    else ∃ q, 0 < q < 2 ^ 16 ∧ (p ≠ 0 → q = p) ∧ net_open k' = <[h := BoundTo q]> (net_open k);
  listen_law h q k r k' : net_listen h k = (r, k') → net_open k !! h = Some (BoundTo q) →
    if r =? -1 then net_open k' = net_open k else net_open k' = <[h := ListensAt q]> (net_open k);
  accept_law h k r k' : net_accept h k = (r, k') →
    match r with
    | None => net_open k' = net_open k
    | Some (fd, _) => 0 ≤ fd ∧ net_open k !! fd = None ∧ net_open k' = <[fd := Connection]> (net_open k)
    end;
  nonblock_law h k r k' : net_nonblock h k = (r, k') → net_open k' = net_open k;
  sockname_law h q k : net_open k !! h = Some (ListensAt q) → net_sockname h k = Some q;
  close_law h k : net_open (net_close h k) = delete h (net_open k) }.

(** ** State *)

(** [ac_listenPort] and the members of the [TcpAcceptorImpl] in it; the reactor
    is set when it is open. *)
Record TcpAcceptor := mkAcceptor { ac_adapter : Z; ac_listenPort : Z; ac_handle : Z; ac_reactor : bool }.

(** [sv_fds]: the descriptors in the streams of the connections.
    [sv_registry]: [AcceptorRegistry::mAcceptors]; [sv_factories]: the tags of
    [mProtocolFactories]; [sv_adapter]: [mObjectAdapter], not set by the
    constructor; [sv_endpoints]: [mEndpoint] of each adapter. *)
Record Server (W K : Type) := mkServer {
  sv_world : World W;
  sv_fds : gmap Z Z;
  sv_acceptors : gmap Z TcpAcceptor;
  sv_registry : gmap (list Z) Z;
  sv_factories : gset (list Z);
  sv_adapter : option Z;
  sv_endpoints : gmap Z Endpoint;
  sv_net : K }.
Arguments mkServer {W K} _ _ _ _ _ _ _ _.
Arguments sv_world {W K} _.
Arguments sv_fds {W K} _.
Arguments sv_acceptors {W K} _.
Arguments sv_registry {W K} _.
Arguments sv_factories {W K} _.
Arguments sv_adapter {W K} _.
Arguments sv_endpoints {W K} _.
Arguments sv_net {W K} _.

Section updates.

Context {W K : Type}.
Implicit Types s : Server W K.

Definition sv_with_world w s : Server W K :=
  mkServer w (sv_fds s) (sv_acceptors s) (sv_registry s) (sv_factories s) (sv_adapter s) (sv_endpoints s) (sv_net s).
Definition sv_with_fds m s : Server W K :=
  mkServer (sv_world s) m (sv_acceptors s) (sv_registry s) (sv_factories s) (sv_adapter s) (sv_endpoints s) (sv_net s).
Definition sv_with_acceptors m s : Server W K :=
  mkServer (sv_world s) (sv_fds s) m (sv_registry s) (sv_factories s) (sv_adapter s) (sv_endpoints s) (sv_net s).
Definition sv_with_registry m s : Server W K :=
  mkServer (sv_world s) (sv_fds s) (sv_acceptors s) m (sv_factories s) (sv_adapter s) (sv_endpoints s) (sv_net s).
Definition sv_with_factories x s : Server W K :=
  mkServer (sv_world s) (sv_fds s) (sv_acceptors s) (sv_registry s) x (sv_adapter s) (sv_endpoints s) (sv_net s).
Definition sv_with_adapter oa e s : Server W K :=
  mkServer (sv_world s) (sv_fds s) (sv_acceptors s) (sv_registry s) (sv_factories s) (Some oa) (<[oa := e]> (sv_endpoints s)) (sv_net s).
Definition sv_with_net k s : Server W K :=
  mkServer (sv_world s) (sv_fds s) (sv_acceptors s) (sv_registry s) (sv_factories s) (sv_adapter s) (sv_endpoints s) k.

Definition put_acceptor (a : Z) (ac : TcpAcceptor) s : Server W K := sv_with_acceptors (<[a := ac]> (sv_acceptors s)) s.

End updates.

(** ** SocketAcceptor *)

Section socket_acceptor.

Context {K : Type} {net : Net K}.

(** [sharedOpen]: the result, the descriptor, the network. *)
Definition sharedOpen (h port : Z) (k : K) : Z * Z * K :=
  let '(r, k) := net_bind h port k in
  if r =? -1 then (-1, -1, net_close h k)
  else
    let '(r, k) := net_listen h k in
    if r =? -1 then (-1, -1, net_close h k) else (0, h, k).

(** [Socket::open (SOCK_STREAM, PF_INET, 0, 1)]. *)
Definition Socket_open (k : K) : Z * Z * K :=
  let '(h, k) := net_socket k in
  if h =? -1 then (-1, -1, k)
  else
    let '(r, k) := net_reuse h k in
    if r =? -1 then (-1, -1, net_close h k) else (0, h, k).

(** [SocketAcceptor::open (InetAddr (port), 1)]. *)
Definition SocketAcceptor_open (port : Z) (k : K) : Z * Z * K :=
  let '(r, h, k) := Socket_open k in
  if r =? -1 then (-1, h, k) else sharedOpen h port k.

End socket_acceptor.

(** ** Handlers *)

Section handlers.

Context {pf : Platform} {W K : Type} {net : Net K} `{Application W, Allocator, Host, Uninit}.
Implicit Types (s : Server W K) (sr : SelectReactor).

(** [getHandle] of an acceptor and of a connection. *)
Definition sv_getHandle (p : Z) s : result Z :=
  match sv_acceptors s !! p with
  | Some ac => Ok (ac_handle ac)
  | None =>
      tr ← deref p (w_transports (sv_world s));
      Ok (if tr_open tr then default (-1) (sv_fds s !! p) else -1)
  end.

(** Registration, and removal with [DONT_CALL], ask a handler for no more than
    its descriptor. *)
Definition handles_only : ReactorHandlers (Server W K) := {|
  getHandle := sv_getHandle;
  on_event := λ _ _ _ _ _, Fault NullDeref;
  on_close_event := λ _ _ _ _ _, Fault NullDeref;
  on_timer := λ _ _ _ _ _, Fault NullDeref;
  on_close_timer := λ _ _ _, Fault NullDeref |}.

(** [Acceptor::handleClose], also [close]. *)
Definition acceptor_handleClose (a : Z) s sr : result (Z * Server W K * SelectReactor) :=
  ac ← deref a (sv_acceptors s);
  if ac_reactor ac then
    '(_, s, sr) ← removeHandler (rh := handles_only) a (Z.lor ACCEPT_MASK DONT_CALL) s sr;
    let s := if ac_handle ac =? -1 then s else sv_with_net (net_close (ac_handle ac) (sv_net s)) s in
    Ok (0, put_acceptor a (mkAcceptor (ac_adapter ac) (ac_listenPort ac) (-1) false) s, sr)
  else Ok (0, s, sr).

(** [TcpAcceptorImpl::makeSvcHandler]: a handler of the acceptor's adapter. *)
Definition tcp_makeSvcHandler (a : Z) s : result (Z * Server W K) :=
  ac ← deref a (sv_acceptors s);
  let '(t, w) := IcmTransport_new (mkSocket [] [] [] [] 0) false (ac_adapter ac) (sv_world s) in
  Ok (t, sv_with_world w s).

(** [Acceptor::acceptSvcHandler] with [SocketAcceptor::accept]; the handler is
    not deleted when there is no connection: its [close] does nothing. *)
Definition tcp_acceptSvcHandler (a t : Z) s : result (Z * Server W K) :=
  ac ← deref a (sv_acceptors s);
  let '(accepted, k) := net_accept (ac_handle ac) (sv_net s) in
  let s := sv_with_net k s in
  match accepted with
  | None => Ok (-1, s)
  | Some (fd, sk) =>
      tr ← deref t (w_transports (sv_world s));
      Ok (0, sv_with_fds (<[t := fd]> (sv_fds s)) (sv_with_world (put_transport t (tr_with_open true (tr_with_socket sk tr)) (sv_world s)) s))
  end.

(** [TcpAcceptorImpl::activateSvcHandler]: the connection must be made
    non-blocking, and [TcpConnectionHandler::open] must learn its addresses. *)
Definition tcp_activateSvcHandler (t : Z) s sr : result (Z * Server W K * SelectReactor) :=
  let fd := default (-1) (sv_fds s !! t) in
  let '(r, k) := net_nonblock fd (sv_net s) in
  let s := sv_with_net k s in
  if (r =? -1) || negb (net_names fd k) then Ok (-1, s, sr)
  else '(r, sr) ← registerHandler (rh := handles_only) t READ_MASK s sr; Ok (r, s, sr).

(** [Acceptor::handleInput]. *)
Definition acceptor_upcall (a : Z) s sr : result (Z * Server W K * SelectReactor) :=
  '(t, s) ← tcp_makeSvcHandler a s;
  '(r, s) ← tcp_acceptSvcHandler a t s;
  if r =? -1 then Ok (0, s, sr)
  else '(_, s, sr) ← tcp_activateSvcHandler t s sr; Ok (0, s, sr).

(** [TcpConnectionHandler::handleInput]; when it closes the connection the
    descriptor is closed before the reactor is asked to remove the handler. *)
Definition connection_upcall (t : Z) s sr : result (Z * Server W K * SelectReactor) :=
  tr ← deref t (w_transports (sv_world s));
  '(r, w) ← handler_handleInput t (sv_world s);
  let s := sv_with_world w s in
  if r =? -1 then
    let s := if tr_open tr then sv_with_net (net_close (default (-1) (sv_fds s !! t)) (sv_net s)) s else s in
    '(_, s, sr) ← removeHandler (rh := handles_only) t 1 s sr;
    Ok (r, s, sr)
  else Ok (r, s, sr).

(** [TcpConnectionHandler::handleClose], with the destructors. *)
Definition connection_handleClose (t : Z) s sr : result (Server W K * SelectReactor) :=
  tr ← deref t (w_transports (sv_world s));
  '(_, s, sr) ← removeHandler (rh := handles_only) t (Z.lor ALL_EVENTS_MASK DONT_CALL) s sr;
  let s := if tr_open tr then sv_with_net (net_close (default (-1) (sv_fds s !! t)) (sv_net s)) s else s in
  w ← handler_handleClose t (sv_world s);
  Ok (sv_with_fds (delete t (sv_fds s)) (sv_with_world w s), sr).

(** The handlers of the loop; what [EventHandler] does by default returns -1. *)
Definition sv_on_event (cb : callback) (p h : Z) s sr : result (Z * Server W K * SelectReactor) :=
  match cb with
  | handleInput_ =>
      match sv_acceptors s !! p with
      | Some _ => acceptor_upcall p s sr
      | None => connection_upcall p s sr
      end
  | _ => Ok (-1, s, sr)
  end.

Definition sv_on_close (p h mask : Z) s sr : result (Server W K * SelectReactor) :=
  match sv_acceptors s !! p with
  | Some _ => '(_, s, sr) ← acceptor_handleClose p s sr; Ok (s, sr)
  | None => connection_handleClose p s sr
  end.

#[local] Instance server_handlers : ReactorHandlers (Server W K) := {|
  getHandle := sv_getHandle;
  on_event := sv_on_event;
  on_close_event := sv_on_close;
  on_timer := λ _ _ _ s sr, Ok (-1, s, sr);
  on_close_timer := λ _ s sr, Ok (s, sr) |}.

(** ** Acceptors and their registry *)

(** [Acceptor::open (InetAddr (port), reactor)]. *)
Definition Acceptor_open (a port : Z) s sr : result (Z * Server W K * SelectReactor) :=
  ac ← deref a (sv_acceptors s);
  let '(r, h, k) := SocketAcceptor_open port (sv_net s) in
  let s := put_acceptor a (mkAcceptor (ac_adapter ac) (ac_listenPort ac) h (ac_reactor ac)) (sv_with_net k s) in
  if r =? -1 then Ok (-1, s, sr)
  else
    let s := sv_with_net (net_nonblock h (sv_net s)).2 s in
    '(result, sr) ← registerHandler (rh := handles_only) a ACCEPT_MASK s sr;
    if negb (result =? -1) then
      Ok (result, put_acceptor a (mkAcceptor (ac_adapter ac) (ac_listenPort ac) h true) s, sr)
    else
      let s := sv_with_net (net_close h (sv_net s)) s in
      Ok (result, put_acceptor a (mkAcceptor (ac_adapter ac) (ac_listenPort ac) (-1) (ac_reactor ac)) s, sr).

(** [TcpAcceptor::getListenPort]. *)
Definition getListenPort (a : Z) s : result (Z * Server W K) :=
  ac ← deref a (sv_acceptors s);
  if ac_listenPort ac =? 0 then
    match net_sockname (ac_handle ac) (sv_net s) with
    | Some q => Ok (q, put_acceptor a (mkAcceptor (ac_adapter ac) q (ac_handle ac) (ac_reactor ac)) s)
    | None => Ok (0, s)
    end
  else Ok (ac_listenPort ac, s).

(** [TcpAcceptor::open (comm, oa, port)]. *)
Definition TcpAcceptor_open (a oa port : Z) s sr : result (Z * Server W K * SelectReactor) :=
  ac ← deref a (sv_acceptors s);
  let s := put_acceptor a (mkAcceptor oa port (ac_handle ac) (ac_reactor ac)) s in
  '(ret, s, sr) ← Acceptor_open a port s sr;
  if (ret =? 0) && (port =? 0) then
    '(q, s) ← getListenPort a s;
    ac ← deref a (sv_acceptors s);
    Ok (ret, put_acceptor a (mkAcceptor (ac_adapter ac) q (ac_handle ac) (ac_reactor ac)) s, sr)
  else Ok (ret, s, sr).

(** [TcpProtocolFactory::makeAcceptor]: a new [TcpAcceptor]. *)
Definition makeAcceptor s : Z * Server W K :=
  let '(a, w) := alloc (sv_world s) in
  (a, put_acceptor a (mkAcceptor 0 0 (-1) false) (sv_with_world w s)).

(** [TcpProtocolFactory::matchTag]; every factory is one of TCP. *)
Definition matchTag (tag : list Z) : bool := bool_decide (tag = TCP).

(** [AcceptorRegistry::open (comm, oa, endpoint)], with the factories still to
    come: the result and the endpoint, whose port may be set. *)
Fixpoint registry_open (factories : list (list Z)) (oa : Z) (e : Endpoint) s sr : result (Z * Endpoint * Server W K * SelectReactor) :=
  match factories with
  | [] => Ok (0, e, s, sr)
  | _ :: factories =>
      if negb (matchTag (ep_protocol e)) then registry_open factories oa e s sr
      else
        let '(a, s) := makeAcceptor s in
        '(r, s, sr) ← TcpAcceptor_open a oa (ep_port e) s sr;
        if negb (r =? 0) then Ok (-1, e, sv_with_acceptors (delete a (sv_acceptors s)) s, sr)
        else
          '(e, s) ← (if ep_port e <=? 0 then '(q, s) ← getListenPort a s; Ok (mkEndpoint (ep_protocol e) (ep_host e) q, s) else Ok (e, s));
          let s := match sv_registry s !! TCP with Some _ => s | None => sv_with_registry (<[TCP := a]> (sv_registry s)) s end in
          registry_open factories oa e s sr
  end.

(** [AcceptorRegistry::closeEndpoint (endpoint)], with the entries still to come. *)
Fixpoint closeEndpoint_loop (entries : list (list Z * Z)) (e : Endpoint) s sr : result (Server W K * SelectReactor) :=
  match entries with
  | [] => Ok (s, sr)
  | (tag, a) :: entries =>
      if a =? 0 then closeEndpoint_loop entries e s sr
      else
        '(q, s) ← getListenPort a s;
        if q =? ep_port e then
          '(_, s, sr) ← acceptor_handleClose a s sr;
          Ok (sv_with_registry (delete tag (sv_registry s)) (sv_with_acceptors (delete a (sv_acceptors s)) s), sr)
        else closeEndpoint_loop entries e s sr
  end.

Definition closeEndpoint (e : Endpoint) s sr : result (Server W K * SelectReactor) :=
  closeEndpoint_loop (map_iter (sv_registry s)) e s sr.

(** [AcceptorRegistry::closeAll]: the map keeps its entries. *)
Fixpoint closeAll_loop (entries : list (list Z * Z)) s sr : result (Server W K * SelectReactor) :=
  match entries with
  | [] => Ok (s, sr)
  | (_, a) :: entries =>
      if a =? 0 then closeAll_loop entries s sr
      else
        '(_, s, sr) ← acceptor_handleClose a s sr;
        closeAll_loop entries (sv_with_acceptors (delete a (sv_acceptors s)) s) sr
  end.

Definition closeAll s sr : result (Server W K * SelectReactor) := closeAll_loop (map_iter (sv_registry s)) s sr.

(** ** The communicator *)

(** [Communicator::init], up to the connectors, whose [open] always succeeds. *)
Definition comm_init s : Z * Server W K := (0, sv_with_factories ({[TCP]} ∪ sv_factories s) s).

(** A new [ObjectAdapter], before its acceptor is opened. *)
Definition new_adapter s : Z * Server W K :=
  let '(oa, w) := alloc (sv_world s) in
  (oa, sv_with_world (with_adapters (<[oa := ServantManager_new]> (w_adapters w)) w) s).

(** [createObjectAdapterWithEndpoint (name, endpoint)] and the constructor: the
    adapter copies the endpoint before its port is known; what [open] returns
    is not looked at. *)
Definition createObjectAdapterWithEndpoint (e : Endpoint) s sr : result (Z * Endpoint * Server W K * SelectReactor) :=
  let '(oa, s) := new_adapter s in
  '(_, e', s, sr) ← registry_open (set_iter (sv_factories s)) oa e s sr;
  Ok (oa, e', sv_with_adapter oa e s, sr).

(** The same with the text "<ip> <port>": here the registry is given the
    adapter's own endpoint. *)
Definition createObjectAdapterWithInfo (endpointInfo : list Z) s sr : result (Z * Server W K * SelectReactor) :=
  let '(ip, i) := get_string [] (mkIstream endpointInfo false false) in
  let n := (get_int (if uninit <? 0 then 0 else uninit) i).1 in
  let port := if n <? - (2 ^ 16 - 1) then 2 ^ 16 - 1 else if n <? 0 then n mod 2 ^ 16 else Z.min n (2 ^ 16 - 1) in
  let '(oa, s) := new_adapter s in
  '(_, e, s, sr) ← registry_open (set_iter (sv_factories s)) oa (mkEndpoint TCP ip port) s sr;
  Ok (oa, sv_with_adapter oa e s, sr).

(** [createProxy (id)]: the reference of the proxy. *)
Definition createProxy (oa : Z) (ident : Identity) s : result Reference :=
  match sv_endpoints s !! oa with Some e => Ok (mkReference ident e) | None => Fault UseAfterFree end.

(** [stopEndpoint], [resumeEndpoint]; a member that was not set is not 0. *)
Definition stopEndpoint (e : Endpoint) s sr : result (Z * Server W K * SelectReactor) :=
  '(s, sr) ← closeEndpoint e s sr; Ok (0, s, sr).

Definition resumeEndpoint (e : Endpoint) s sr : result (Z * Endpoint * Server W K * SelectReactor) :=
  registry_open (set_iter (sv_factories s)) (default uninit (sv_adapter s)) e s sr.

End handlers.

(** ** Lemmas: listening *)

Section listening.

Context {pf : Platform} {W K : Type} {net : Net K} {ln : LawfulNet K} `{Application W, Allocator, Host, Uninit}.
Implicit Types (s : Server W K) (t : Tables).

(** The process may have so many descriptors as a handle set has bits. *)
Definition few_descriptors : Prop := ∀ k h k', net_socket k = (h, k') → h < MAXSIZE.

(** Addresses are given out once; what is registered has a descriptor. *)
Record server_ok s t : Prop := {
  so_tables : tables_ok t;
  so_acceptors : ∀ a, is_Some (sv_acceptors s !! a) → 0 < a ≤ w_next (sv_world s);
  so_transports : ∀ p, is_Some (w_transports (sv_world s) !! p) → 0 < p ≤ w_next (sv_world s);
  so_next : 0 ≤ w_next (sv_world s);
  so_open : ∀ h, is_Some (eventHandlers t !! h) → is_Some (net_open (sv_net s) !! h) }.

Lemma SocketAcceptor_open_ok port (k : K) :
  ∃ r h k', SocketAcceptor_open port k = (r, h, k') ∧
    (r = -1 ∧ h = -1 ∧ net_open k' = net_open k ∨
     r = 0 ∧ 0 ≤ h ∧ (few_descriptors → h < MAXSIZE) ∧ net_open k !! h = None ∧
       ∃ q, 0 < q < 2 ^ 16 ∧ (port ≠ 0 → q = port) ∧ net_open k' = <[h := ListensAt q]> (net_open k)).
Proof.
  unfold SocketAcceptor_open, Socket_open. destruct (net_socket k) as [h k1] eqn:E1. pose proof (socket_law _ _ _ E1) as L1.
  destruct (h =? -1) eqn:Eh; b2p; [exists (-1), (-1), k1; tauto|]. destruct L1 as (Hh & Hfree & L1).
  assert (∀ k', net_open k' = <[h := Fresh]> (net_open k) → net_open (net_close h k') = net_open k) as Hclose.
  { intros k' Hk. by rewrite close_law, Hk, delete_insert_id. }
  destruct (net_reuse h k1) as [r2 k2] eqn:E2. pose proof (reuse_law _ _ _ _ E2) as L2.
  destruct (r2 =? -1); [eexists (-1), (-1), _; split; [done|]; left; split_and!; [done..|]; apply Hclose; congruence|]. cbn [Z.eqb].
  unfold sharedOpen. destruct (net_bind h port k2) as [r3 k3] eqn:E3. pose proof (bind_law _ _ _ _ _ E3) as L3.
  rewrite L2, L1, lookup_insert_eq in L3. specialize (L3 eq_refl).
  destruct (r3 =? -1); [eexists (-1), (-1), _; split; [done|]; left; split_and!; [done..|]; by apply Hclose|].
  destruct L3 as (q & Hq & Hqp & L3). rewrite insert_insert_eq in L3.
  destruct (net_listen h k3) as [r4 k4] eqn:E4. pose proof (listen_law h q k3 r4 k4 E4) as L4. rewrite L3, lookup_insert_eq in L4. specialize (L4 eq_refl).
  destruct (r4 =? -1).
  - eexists (-1), (-1), _. split; [done|]. left. split_and!; [done..|]. by rewrite close_law, L4, delete_insert_id.
  - eexists 0, h, k4. split; [done|]. right. split_and!; [done|done|by intros Hf; eapply Hf|done|]. exists q. by rewrite L4, insert_insert_eq.
Qed.

(** An acceptor that listens. *)
Record listens s t (a oa h q : Z) : Prop := {
  li_acceptor : sv_acceptors s !! a = Some (mkAcceptor oa q h true);
  li_descriptor : net_open (sv_net s) !! h = Some (ListensAt q);
  li_handler : eventHandlers t !! h = Some a;
  li_wants : wants t handleInput_ h = true }.

(** [registerHandler] of a handler at a descriptor that is not registered. *)
Lemma registers p h mask s t tq :
  tables_ok t → sv_getHandle p s = Ok h → p ≠ 0 → 0 ≤ h < MAXSIZE → eventHandlers t !! h = None →
  ∃ t', registerHandler (rh := handles_only) p mask s (mkReactor t tq) = Ok (0, mkReactor t' tq) ∧ tables_ok t' ∧
    eventHandlers t' = <[h := p]> (eventHandlers t) ∧ dispatchSet t' = dispatchSet t ∧
    ∀ cb x, wants t' cb x = wants t cb x || (enables mask cb && (x =? h)).
Proof.
  intros Ht Hp Hp0 Hh Hn. unfold registerHandler. cbn [getHandle handles_only]. rewrite Hp, bind_Ok.
  destruct (bind_ok (rh := handles_only) h p mask s t Ht Hp0 Hh) as (t' & Hb & Ht' & He & Hd & _ & Hw).
  unfold registerHandlerInternal. cbn [sr_tables timerQueue]. rewrite Hb, bind_Ok. exists t'.
  split_and!; try done. rewrite He. unfold map_insert. by rewrite Hn.
Qed.

(** Opening an acceptor: all or nothing. *)
Lemma Acceptor_open_ok a oa lp h0 port s t tq :
  few_descriptors → server_ok s t → a ≠ 0 → sv_acceptors s !! a = Some (mkAcceptor oa lp h0 false) →
  ∃ r h k t', Acceptor_open a port s (mkReactor t tq) =
      Ok (r, sv_with_acceptors (<[a := mkAcceptor oa lp h (r =? 0)]> (sv_acceptors s)) (sv_with_net k s), mkReactor t' tq) ∧
    tables_ok t' ∧ dispatchSet t' = dispatchSet t ∧
    (r = -1 ∧ h = -1 ∧ net_open k = net_open (sv_net s) ∧ t' = t ∨
     r = 0 ∧ 0 ≤ h < MAXSIZE ∧ net_open (sv_net s) !! h = None ∧
       (∃ q, 0 < q < 2 ^ 16 ∧ (port ≠ 0 → q = port) ∧ net_open k = <[h := ListensAt q]> (net_open (sv_net s))) ∧
       eventHandlers t' = <[h := a]> (eventHandlers t) ∧
       ∀ cb x, wants t' cb x = wants t cb x || (enables ACCEPT_MASK cb && (x =? h))).
Proof.
  intros Hfew [Ht _ _ _ Hop] Ha Hac. unfold Acceptor_open. unfold deref. rewrite (proj2 (Z.eqb_neq a 0)), Hac, bind_Ok by done.
  destruct (SocketAcceptor_open_ok port (sv_net s)) as (r & h & k & -> & [(-> & -> & Hk)|(-> & Hh & Hm & Hfree & q & Hq & Hqp & Hk)]);
    cbn [ac_adapter ac_listenPort ac_reactor].
  - eexists (-1), (-1), k, t. split; [reflexivity|]. split_and!; [done|done|]. by left.
  - specialize (Hm Hfew). cbn [Z.eqb].
    assert (eventHandlers t !! h = None) as Hnone.
    { destruct (eventHandlers t !! h) eqn:E; [|done]. destruct (Hop h) as [? E']; [by rewrite E|]. by rewrite Hfree in E'. }
    set (s1 := sv_with_net _ (put_acceptor _ _ _)).
    destruct (registers a h ACCEPT_MASK s1 t tq Ht) as (t' & -> & Ht' & He & Hd & Hw); try done.
    { unfold sv_getHandle. cbn. by rewrite lookup_insert_eq. }
    rewrite bind_Ok. cbn [Z.eqb negb]. subst s1. destruct (net_nonblock h k) as [r2 k2] eqn:E2. pose proof (nonblock_law _ _ _ _ E2) as L2.
    eexists 0, h, k2, t'. split.
    { do 3 f_equal. unfold put_acceptor, sv_with_acceptors, sv_with_net. cbn. rewrite E2. cbn. by rewrite insert_insert_eq. }
    split_and!; [done|done|]. right. split_and!; try done. exists q. split; [done|]. split; [done|]. by rewrite L2.
Qed.

(** The port of an acceptor that listens is known. *)
Lemma getListenPort_ok a oa lp h b q s :
  sv_acceptors s !! a = Some (mkAcceptor oa lp h b) → lp = q ∨ lp = 0 → q ≠ 0 → net_open (sv_net s) !! h = Some (ListensAt q) →
  getListenPort a s = Ok (q, sv_with_acceptors (<[a := mkAcceptor oa q h b]> (sv_acceptors s)) s).
Proof.
  intros Ha Hlp Hq Hh. unfold getListenPort. rewrite (deref_some a _ _ Ha), bind_Ok. cbn [ac_listenPort ac_handle ac_adapter ac_reactor].
  destruct Hlp as [->| ->].
  - rewrite (proj2 (Z.eqb_neq q 0)), insert_id by done. by destruct s.
  - cbn [Z.eqb]. by rewrite (sockname_law h q).
Qed.

(** Opening a [TcpAcceptor]: all or nothing, too. *)
Lemma TcpAcceptor_open_ok a oa oa0 lp h0 port s t tq :
  few_descriptors → server_ok s t → a ≠ 0 → sv_acceptors s !! a = Some (mkAcceptor oa0 lp h0 false) →
  ∃ r q h k t', TcpAcceptor_open a oa port s (mkReactor t tq) =
      Ok (r, sv_with_acceptors (<[a := mkAcceptor oa q h (r =? 0)]> (sv_acceptors s)) (sv_with_net k s), mkReactor t' tq) ∧
    tables_ok t' ∧ dispatchSet t' = dispatchSet t ∧
    (r = -1 ∧ net_open k = net_open (sv_net s) ∧ t' = t ∨
     r = 0 ∧ 0 ≤ h < MAXSIZE ∧ net_open (sv_net s) !! h = None ∧ 0 < q < 2 ^ 16 ∧ (port ≠ 0 → q = port) ∧
       net_open k = <[h := ListensAt q]> (net_open (sv_net s)) ∧ eventHandlers t' = <[h := a]> (eventHandlers t) ∧
       ∀ cb x, wants t' cb x = wants t cb x || (enables ACCEPT_MASK cb && (x =? h))).
Proof.
  intros Hfew Hok Ha Hac. unfold TcpAcceptor_open. rewrite (deref_some a _ _ Hac), bind_Ok. cbn [ac_handle ac_reactor].
  set (s1 := put_acceptor a (mkAcceptor oa port h0 false) s).
  assert (server_ok s1 t) as Hok1.
  { destruct Hok as [L1 L2 L3 L4 L5]. split; try done. intros b Hb. change (sv_world s1) with (sv_world s). destruct (decide (b = a)) as [->|]; [apply L2; by rewrite Hac|].
    cbn in Hb. rewrite lookup_insert_ne in Hb by done. by apply L2. }
  destruct (Acceptor_open_ok a oa port h0 port s1 t tq Hfew Hok1 Ha) as (r & h & k & t' & -> & Ht' & Hd & Hcase); [apply lookup_insert_eq|].
  rewrite bind_Ok. change (sv_acceptors s1) with (<[a := mkAcceptor oa port h0 false]> (sv_acceptors s)). rewrite insert_insert_eq.
  set (put := λ p, sv_with_acceptors (<[a := mkAcceptor oa p h (r =? 0)]> (sv_acceptors s)) (sv_with_net k s)).
  change (sv_with_acceptors _ (sv_with_net k s1)) with (put port).
  destruct Hcase as [(-> & -> & Hk & ->)|(-> & Hh & Hfree & (q & Hq & Hqp & Hk) & Heh & Hw)]; cbn [Z.eqb andb].
  - exists (-1), port, (-1), k, t. split_and!; try done. by left.
  - exists 0, q, h, k, t'. split; [|split; [done|split; [done|]]; right; split_and!; (done || lia)].
    change (sv_with_acceptors _ (sv_with_net k s)) with (put q).
    destruct (port =? 0) eqn:Ep; b2p; [|by rewrite (Hqp Ep)].
    rewrite (getListenPort_ok a oa 0 h true q) by
      (subst port; (apply lookup_insert_eq || tauto || lia || (cbn; rewrite Hk; apply lookup_insert_eq))).
    rewrite bind_Ok. rewrite (deref_some a _ (mkAcceptor oa q h true)) by apply lookup_insert_eq. rewrite bind_Ok. do 3 f_equal.
    unfold put. unfold put_acceptor, sv_with_acceptors. cbn. by rewrite !insert_insert_eq.
Qed.

(** What [AcceptorRegistry::open] does not touch, besides the allocation of the
    acceptor's address. *)
Definition same_process s s' : Prop :=
  sv_world s' = with_next (w_next (sv_world s) + 1) (sv_world s) ∧ sv_fds s' = sv_fds s ∧ sv_factories s' = sv_factories s ∧
  sv_adapter s' = sv_adapter s ∧ sv_endpoints s' = sv_endpoints s.

(** [AcceptorRegistry::open] with the factory of TCP: it fails and leaves
    everything as it was, or there is one more acceptor, which listens at the
    port of the endpoint or one the network chose. *)
Lemma registry_open_ok oa e s t tq :
  few_descriptors → server_ok s t → ep_protocol e = TCP → 0 ≤ ep_port e →
  ∃ r e' s' t', registry_open [TCP] oa e s (mkReactor t tq) = Ok (r, e', s', mkReactor t' tq) ∧ tables_ok t' ∧ dispatchSet t' = dispatchSet t ∧
    same_process s s' ∧
    let a := w_next (sv_world s) + 1 in
    (r = -1 ∧ e' = e ∧ t' = t ∧ net_open (sv_net s') = net_open (sv_net s) ∧ sv_acceptors s' = sv_acceptors s ∧ sv_registry s' = sv_registry s ∨
     r = 0 ∧ ∃ h q, 0 ≤ h < MAXSIZE ∧ 0 < q < 2 ^ 16 ∧ (ep_port e ≠ 0 → q = ep_port e) ∧ e' = mkEndpoint TCP (ep_host e) q ∧
       net_open (sv_net s) !! h = None ∧ net_open (sv_net s') = <[h := ListensAt q]> (net_open (sv_net s)) ∧
       sv_acceptors s' = <[a := mkAcceptor oa q h true]> (sv_acceptors s) ∧
       sv_registry s' = (match sv_registry s !! TCP with Some _ => sv_registry s | None => <[TCP := a]> (sv_registry s) end) ∧
       eventHandlers t' = <[h := a]> (eventHandlers t) ∧
       ∀ cb x, wants t' cb x = wants t cb x || (enables ACCEPT_MASK cb && (x =? h))).
Proof.
  intros Hfew Hok He Hp0. pose proof (so_next _ _ Hok) as Hnx. cbn [registry_open]. unfold matchTag. rewrite He, bool_decide_eq_true_2 by done. cbn [negb].
  unfold makeAcceptor, alloc. cbv zeta. set (a := w_next (sv_world s) + 1).
  assert (sv_acceptors s !! a = None) as Hfresh.
  { apply eq_None_not_Some. intros Hs. apply (so_acceptors _ _ Hok) in Hs. unfold a in Hs. lia. }
  set (s1 := put_acceptor a (mkAcceptor 0 0 (-1) false) (sv_with_world (with_next a (sv_world s)) s)).
  assert (server_ok s1 t) as Hok1.
  { destruct Hok as [L1 L2 L3 L4 L5]. split; try done; change (w_next (sv_world s1)) with a.
    - intros b Hb. destruct (decide (b = a)) as [->|]; [unfold a; lia|]. cbn in Hb. rewrite lookup_insert_ne in Hb by done. apply L2 in Hb. unfold a. lia.
    - intros p Hp. apply L3 in Hp. unfold a. lia.
    - unfold a. lia. }
  destruct (TcpAcceptor_open_ok a oa 0 0 (-1) (ep_port e) s1 t tq Hfew Hok1) as (r & q & h & k & t' & -> & Ht' & Hd & Hcase);
    [unfold a; lia|apply lookup_insert_eq|]. rewrite bind_Ok.
  change (sv_acceptors s1) with (<[a := mkAcceptor 0 0 (-1) false]> (sv_acceptors s)). rewrite insert_insert_eq.
  set (s2 := sv_with_acceptors _ (sv_with_net k s1)).
  destruct Hcase as [(-> & Hk & ->)|(-> & Hh & Hfree & Hq & Hqp & Hk & Heh & Hw)]; cbn [Z.eqb negb].
  - eexists (-1), e, _, t. split; [reflexivity|]. split_and!; try done. left.
    split_and!; try done. change (delete a (sv_acceptors s2) = sv_acceptors s). unfold s2. cbn. by rewrite delete_insert_id.
  - assert ((if ep_port e <=? 0 then '(q, s) ← getListenPort a s2; Ok (mkEndpoint TCP (ep_host e) q, s) else Ok (e, s2)) =
      Ok (mkEndpoint TCP (ep_host e) q, s2)) as ->.
    { destruct (ep_port e <=? 0) eqn:Ep; b2p; [|rewrite Hqp by lia; rewrite <- He; by destruct e].
      rewrite (getListenPort_ok a oa q h true q); [|apply lookup_insert_eq|by left|lia|cbn; rewrite Hk; apply lookup_insert_eq].
      rewrite bind_Ok. unfold s2, sv_with_acceptors. cbn. by rewrite insert_insert_eq. }
    rewrite bind_Ok. change (sv_registry s2) with (sv_registry s).
    eexists 0, _, _, t'. split; [reflexivity|]. split; [done|]. split; [done|]. split; [destruct (sv_registry s !! TCP); by split_and!|].
    right. split; [done|]. exists h, q. destruct (sv_registry s !! TCP); split_and!; (done || lia).
Qed.

(** [removeHandler] of a handler that is not told. *)
Lemma unregisters p h mask s t tq :
  tables_ok t → sv_getHandle p s = Ok h → eventHandlers t !! h = Some p → BIT_ENABLED mask DONT_CALL = true →
  ∃ t', removeHandler (rh := handles_only) p mask s (mkReactor t tq) = Ok (0, s, mkReactor t' tq) ∧ tables_ok t' ∧
    (sets_ok (dispatchSet t) → sets_ok (dispatchSet t')) ∧
    (∀ cb x, wants t' cb x = wants t cb x && negb (enables mask cb && (x =? h))) ∧
    eventHandlers t' = if wants t' handleInput_ h || wants t' handleOutput_ h || wants t' handleException_ h
                       then eventHandlers t else delete h (eventHandlers t).
Proof.
  intros Ht Hp Heh Hm. unfold removeHandler. cbn [getHandle handles_only]. rewrite Hp, bind_Ok.
  destruct (unbind_tables_ok h p mask t Ht Heh) as (t' & Hu & Ht' & Hs & _ & Hw & _ & He).
  unfold removeHandlerInternal, unbind. cbn [sr_tables timerQueue]. rewrite Hu, bind_Ok.
  rewrite (proj2 (Z.eqb_neq p 0)) by (by apply (to_handlers t Ht) in Heh as [_ ?]). rewrite Hm. cbn [negb].
  by exists t'.
Qed.

(** Closing an acceptor that listens. *)
Lemma acceptor_closes a oa h q s t tq :
  tables_ok t → listens s t a oa h q → wants t handleOutput_ h = false → wants t handleException_ h = false →
  ∃ s' t', acceptor_handleClose a s (mkReactor t tq) = Ok (0, s', mkReactor t' tq) ∧ tables_ok t' ∧
    s' = put_acceptor a (mkAcceptor oa q (-1) false) (sv_with_net (net_close h (sv_net s)) s) ∧
    eventHandlers t' = delete h (eventHandlers t) ∧
    ∀ cb x, wants t' cb x = wants t cb x && negb (x =? h).
Proof.
  intros Ht [Ha Hd Heh Hin] Hout Hex. pose proof (proj1 (to_handlers t Ht h a Heh)) as [Hh _].
  unfold acceptor_handleClose. rewrite (deref_some a _ _ Ha), bind_Ok. cbn [ac_reactor ac_adapter ac_listenPort ac_handle].
  destruct (unregisters a h (Z.lor ACCEPT_MASK DONT_CALL) s t tq Ht) as (t' & -> & Ht' & _ & Hw & He); try done.
  { unfold sv_getHandle. by rewrite Ha. }
  rewrite bind_Ok, (proj2 (Z.eqb_neq h (-1))) by lia.
  assert (∀ cb, wants t' cb h = false) as Hnone.
  { intros cb. rewrite Hw, Z.eqb_refl. destruct cb; [by rewrite Hout|by rewrite Hex|apply andb_false_r]. }
  eexists _, t'. split; [reflexivity|]. split_and!; [done|done|by rewrite He, !Hnone|].
  intros cb x. destruct (Z.eqb_spec x h) as [->|]; [by rewrite Hnone, andb_false_r|]. rewrite Hw, (proj2 (Z.eqb_neq x h)) by done. by rewrite andb_false_r.
Qed.

(** The registry's only acceptor listens at the port: it is closed and deleted,
    and its address taken off the registry. *)
Lemma closeEndpoint_ok a oa h q s t tq host :
  tables_ok t → listens s t a oa h q → wants t handleOutput_ h = false → wants t handleException_ h = false →
  a ≠ 0 → q ≠ 0 → sv_registry s = {[TCP := a]} →
  ∃ s' t', closeEndpoint (mkEndpoint TCP host q) s (mkReactor t tq) = Ok (s', mkReactor t' tq) ∧ tables_ok t' ∧
    net_open (sv_net s') = delete h (net_open (sv_net s)) ∧ sv_acceptors s' = delete a (sv_acceptors s) ∧ sv_registry s' = ∅ ∧
    sv_world s' = sv_world s ∧ sv_fds s' = sv_fds s ∧
    eventHandlers t' = delete h (eventHandlers t) ∧ ∀ cb x, wants t' cb x = wants t cb x && negb (x =? h).
Proof.
  intros Ht Hl Hout Hex Ha0 Hq Hr. unfold closeEndpoint. rewrite Hr, map_iter_singleton. cbn [closeEndpoint_loop].
  rewrite (proj2 (Z.eqb_neq a 0)), (getListenPort_ok a oa q h true q s) by (done || (by left) || apply Hl). rewrite bind_Ok. cbn [ep_port].
  rewrite Z.eqb_refl. set (s1 := sv_with_acceptors _ s).
  assert (listens s1 t a oa h q) as Hl1 by (destruct Hl; split; [apply lookup_insert_eq|done..]).
  destruct (acceptor_closes a oa h q s1 t tq Ht Hl1 Hout Hex) as (s2 & t2 & -> & Ht2 & -> & He & Hw). rewrite bind_Ok.
  eexists _, t2. split; [reflexivity|]. split; [done|].
  split; [apply close_law|]. split; [cbn; by rewrite !delete_insert_eq|]. split; [cbn; by rewrite Hr, delete_singleton_eq|]. by split_and!.
Qed.

(** A descriptor that has no handler is not waited for. *)
Lemma unbound_unwanted t h : tables_ok t → eventHandlers t !! h = None → ∀ cb, wants t cb h = false.
Proof. intros Ht Hn cb. apply not_true_iff_false. intros Hw. apply (to_bound t Ht) in Hw as [? Hw]. by rewrite Hn in Hw. Qed.

(** The server with one acceptor more. *)
Lemma server_ok_listening a oa h q s s' t t' :
  server_ok s t → tables_ok t' → a = w_next (sv_world s) + 1 → w_next (sv_world s') = a →
  w_transports (sv_world s') = w_transports (sv_world s) → sv_acceptors s' = <[a := mkAcceptor oa q h true]> (sv_acceptors s) →
  net_open (sv_net s') = <[h := ListensAt q]> (net_open (sv_net s)) → eventHandlers t' = <[h := a]> (eventHandlers t) → server_ok s' t'.
Proof.
  intros [L1 L2 L3 L4 L5] Ht' -> Hnx Htr Ha Hn He. split; [done|..]; rewrite ?Hnx.
  - intros b Hb. rewrite Ha in Hb. destruct (decide (b = w_next (sv_world s) + 1)) as [->|]; [lia|].
    rewrite lookup_insert_ne in Hb by done. apply L2 in Hb. lia.
  - intros p Hb. rewrite Htr in Hb. apply L3 in Hb. lia.
  - lia.
  - intros x Hx. rewrite Hn. rewrite He in Hx. destruct (decide (x = h)) as [->|]; [by rewrite lookup_insert_eq|].
    rewrite lookup_insert_ne in Hx by done. rewrite lookup_insert_ne by done. by apply L5.
Qed.

(** [createObjectAdapterWithEndpoint]: an adapter, and an acceptor for it or
    nothing but the addresses that were given out. *)
Lemma adapter_opened e s t tq :
  few_descriptors → server_ok s t → ep_protocol e = TCP → 0 ≤ ep_port e → sv_factories s = {[TCP]} →
  ∃ oa e' s' t', createObjectAdapterWithEndpoint e s (mkReactor t tq) = Ok (oa, e', s', mkReactor t' tq) ∧
    sv_adapter s' = Some oa ∧ w_adapters (sv_world s') !! oa = Some ServantManager_new ∧ sv_endpoints s' !! oa = Some e ∧
    (e' = e ∧ t' = t ∧ net_open (sv_net s') = net_open (sv_net s) ∧ sv_acceptors s' = sv_acceptors s ∧ sv_registry s' = sv_registry s ∨
     ∃ a h q, e' = mkEndpoint TCP (ep_host e) q ∧ (ep_port e ≠ 0 → q = ep_port e) ∧ 0 < q < 2 ^ 16 ∧ 0 < a ∧
       listens s' t' a oa h q ∧ server_ok s' t' ∧
       net_open (sv_net s) !! h = None ∧ net_open (sv_net s') = <[h := ListensAt q]> (net_open (sv_net s)) ∧
       sv_acceptors s !! a = None ∧ sv_acceptors s' = <[a := mkAcceptor oa q h true]> (sv_acceptors s) ∧
       sv_registry s' = (match sv_registry s !! TCP with Some _ => sv_registry s | None => <[TCP := a]> (sv_registry s) end) ∧
       eventHandlers t !! h = None ∧ eventHandlers t' = <[h := a]> (eventHandlers t) ∧
       ∀ cb x, wants t' cb x = wants t cb x || (enables ACCEPT_MASK cb && (x =? h))).
Proof.
  intros Hfew Hok He Hp Hf. unfold createObjectAdapterWithEndpoint, new_adapter, alloc. cbv zeta.
  pose proof (so_next _ _ Hok) as Hnx. set (oa := w_next (sv_world s) + 1). set (s1 := sv_with_world _ s).
  assert (server_ok s1 t) as Hok1.
  { destruct Hok as [L1 L2 L3 L4 L5]. split; try done; change (w_next (sv_world s1)) with oa; unfold oa.
    - intros b Hb. apply L2 in Hb. lia.
    - intros p Hb. apply L3 in Hb. lia.
    - lia. }
  change (sv_factories s1) with (sv_factories s). rewrite Hf, set_iter_singleton.
  destruct (registry_open_ok oa e s1 t tq Hfew Hok1 He Hp) as (r & e' & s2 & t' & -> & Ht' & Hd & (Hw2 & Hfds & Hfc & Had & Hend) & Hcase).
  rewrite bind_Ok. eexists oa, e', _, t'. split; [reflexivity|]. split; [done|].
  split; [cbn; rewrite Hw2; apply lookup_insert_eq|]. split; [apply lookup_insert_eq|].
  destruct Hcase as [(_ & -> & -> & Hn & Ha & Hr2)|(_ & h & q & Hh & Hq & Hqp & -> & Hfree & Hn & Ha & Hr2 & Heh & Hw)]; [by left|right].
  set (a := w_next (sv_world s1) + 1) in *. assert (a = oa + 1) as Hao by done. set (s3 := sv_with_adapter oa e s2).
  exists a, h, q. split_and!; try (done || lia).
  - split; [cbn; rewrite Ha; apply lookup_insert_eq|cbn; rewrite Hn; apply lookup_insert_eq|rewrite Heh; apply lookup_insert_eq|].
    rewrite Hw, Z.eqb_refl. apply orb_true_r.
  - eapply (server_ok_listening a oa h q s1 s3); try done; cbn; by rewrite Hw2.
  - apply eq_None_not_Some. intros Hs. apply (so_acceptors _ _ Hok1) in Hs. unfold a in Hs. lia.
  - apply eq_None_not_Some. intros Hs. apply (so_open _ _ Hok1) in Hs as [? Hs]. by rewrite Hfree in Hs.
Qed.


(** The registry keeps one acceptor for a protocol: a second adapter's acceptor
    listens but is not in it, and [stopEndpoint] of its endpoint, which returns
    0, leaves it listening. *)
Lemma second_endpoint_not_stopped a oa h q e s t tq :
  few_descriptors → server_ok s t → listens s t a oa h q → sv_registry s = {[TCP := a]} → a ≠ 0 → q ≠ 0 →
  sv_factories s = {[TCP]} → ep_protocol e = TCP → 0 < ep_port e → ep_port e ≠ q →
  ∃ oa' s' t', createObjectAdapterWithEndpoint e s (mkReactor t tq) = Ok (oa', e, s', mkReactor t' tq) ∧
    (net_open (sv_net s') = net_open (sv_net s) ∨ ∃ a' h', listens s' t' a' oa' h' (ep_port e)) ∧
    stopEndpoint e s' (mkReactor t' tq) = Ok (0, s', mkReactor t' tq).
Proof.
  intros Hfew Hok Hl Hr Ha0 Hq0 Hf He Hp Hne.
  assert (∀ s' sr, sv_registry s' = {[TCP := a]} → sv_acceptors s' !! a = sv_acceptors s !! a → net_open (sv_net s') !! h = net_open (sv_net s) !! h →
    stopEndpoint e s' sr = Ok (0, s', sr)) as Hstop.
  { intros s' sr Hr' Ha' Hn'. unfold stopEndpoint, closeEndpoint. rewrite Hr', map_iter_singleton. cbn [closeEndpoint_loop].
    rewrite (li_acceptor _ _ _ _ _ _ Hl) in Ha'. rewrite (li_descriptor _ _ _ _ _ _ Hl) in Hn'.
    rewrite (proj2 (Z.eqb_neq a 0)), (getListenPort_ok a oa q h true q s') by (done || (by left)). rewrite bind_Ok.
    rewrite (proj2 (Z.eqb_neq q _)) by done. rewrite bind_Ok, insert_id by done. by destruct s'. }
  destruct (adapter_opened e s t tq Hfew Hok He ltac:(lia) Hf) as (oa' & e' & s' & t' & Hc & _ & _ & _ &
    [(-> & -> & Hn & Ha & Hr')|(a' & h' & q' & -> & Hqp & _ & _ & Hl' & _ & Hfree & Hn & Hna & Ha & Hr' & _)]).
  - exists oa', s', t. split; [done|]. split; [by left|]. apply Hstop; [by rewrite Hr'|by rewrite Ha|by rewrite Hn].
  - rewrite Hqp in Hc, Hl' by lia. exists oa', s', t'. split; [rewrite Hc, <- He; by destruct e|]. split; [right; by exists a', h'|].
    apply Hstop; [by rewrite Hr', Hr, lookup_singleton_eq| |].
    + rewrite Ha, lookup_insert_ne; [done|]. intros ->. by rewrite (li_acceptor _ _ _ _ _ _ Hl) in Hna.
    + rewrite Hn, lookup_insert_ne; [done|]. intros ->. by rewrite (li_descriptor _ _ _ _ _ _ Hl) in Hfree.
Qed.

(** The adapter has its own copy of the endpoint: its proxies name port 0 when
    the network was to choose. *)
Lemma proxy_of_chosen_port ident e s t tq :
  few_descriptors → server_ok s t → ep_protocol e = TCP → ep_port e = 0 → sv_factories s = {[TCP]} →
  ∃ oa e' s' sr', createObjectAdapterWithEndpoint e s (mkReactor t tq) = Ok (oa, e', s', sr') ∧
    createProxy oa ident s' = Ok (mkReference ident e) ∧ (e' = e ∨ 0 < ep_port e').
Proof.
  intros Hfew Hok He Hp Hf.
  destruct (adapter_opened e s t tq Hfew Hok He ltac:(lia) Hf) as (oa & e' & s' & t' & Hc & _ & _ & Hend & Hcase).
  exists oa, e', s', (mkReactor t' tq). split; [done|]. unfold createProxy. rewrite Hend. split; [done|].
  destruct Hcase as [(-> & _)|(a & h & q & -> & _ & Hq & _)]; [by left|right; apply Hq].
Qed.

(** A protocol no factory makes: success, and nothing listens. *)
Lemma unknown_protocol_silent oa e s sr :
  ep_protocol e ≠ TCP → ∀ factories, registry_open factories oa e s sr = Ok (0, e, s, sr).
Proof. intros He. induction factories as [|f l IH]; [done|]. cbn [registry_open]. unfold matchTag. by rewrite bool_decide_eq_false_2. Qed.

End listening.

(** ** Lemmas: a connection is accepted and served *)

Section serving.

Context {pf : Platform} {W K : Type} {net : Net K} {ln : LawfulNet K} `{Application W, Allocator, Host, Uninit}.
Context {kn : Kernel (Server W K)} {ls : LawfulSelect (Server W K)}.
#[local] Existing Instance server_handlers.
Implicit Types (s : Server W K) (t : Tables).

(** [select] says that descriptor [h] can be read and nothing else; meanwhile
    only the network has moved on. *)
Definition reports maxWait (tq : TimerHeap) s t h s1 : Prop :=
  ∃ n rd wr ex k,
    (∀ tmo, calculateTimeout2 maxWait true zero tq = Ok tmo →
       select (m_maxHandleP1 t) (fdset (rdMask (waitSet t))) (fdset (wrMask (waitSet t))) (fdset (exMask (waitSet t))) tmo s
         = (SelectReactor.Ready n rd wr ex, s1)) ∧
    reported t rd wr ex = [(handleInput_, h)] ∧ s1 = sv_with_net k s ∧ net_open k = net_open (sv_net s).

Lemma server_ok_tables s t td :
  server_ok s t → tables_ok td → eventHandlers td = eventHandlers t → server_ok s td.
Proof. intros [L1 L2 L3 L4 L5] Ht He. split; try done. intros h. rewrite He. apply L5. Qed.

Lemma listens_kept s s' t t' a oa h q :
  listens s t a oa h q → sv_acceptors s' = sv_acceptors s → net_open (sv_net s') !! h = net_open (sv_net s) !! h →
  eventHandlers t' !! h = eventHandlers t !! h → wants t' handleInput_ h = true → listens s' t' a oa h q.
Proof. intros [L1 L2 L3 L4] Ha Hn He Hw. split; congruence. Qed.

(** What a connection that was accepted is. *)
Definition accepted (oa : Z) (sk : socket) : IcmTransport :=
  mkTransport IcmMessageState_new sk true oa (Some (MuxedTms 0 ∅ None ∅)) false 0.

(** The server with one connection more. *)
Definition with_connection (c oa fd : Z) (sk : socket) (k : K) s : Server W K :=
  sv_with_net k (sv_with_fds (<[c := fd]> (sv_fds s))
    (sv_with_world (put_transport c (accepted oa sk) (with_next c (sv_world s))) s)).

(** The first two hooks: a connection has come. *)
Lemma accepts a oa h q fd sk k1 s t :
  listens s t a oa h q → net_accept h (sv_net s) = (Some (fd, sk), k1) →
  let c := w_next (sv_world s) + 1 in
  ('(t, s) ← tcp_makeSvcHandler a s; tcp_acceptSvcHandler a t s) = Ok (0, with_connection c oa fd sk k1 s) ∧
  tcp_makeSvcHandler a s = Ok (c, sv_with_world (put_transport c
    (mkTransport IcmMessageState_new (mkSocket [] [] [] [] 0) false oa (Some (MuxedTms 0 ∅ None ∅)) false 0) (with_next c (sv_world s))) s).
Proof.
  intros Hl Hacc c.
  unfold tcp_makeSvcHandler. rewrite (deref_some a _ _ (li_acceptor _ _ _ _ _ _ Hl)), bind_Ok. cbn [ac_adapter].
  unfold IcmTransport_new, alloc. cbv zeta. fold c. split; [|done]. rewrite bind_Ok.
  unfold tcp_acceptSvcHandler. rewrite (deref_some a _ (mkAcceptor oa q h true)) by exact (li_acceptor _ _ _ _ _ _ Hl). rewrite bind_Ok.
  cbn [ac_handle sv_net sv_with_world]. rewrite Hacc.
  rewrite (deref_some c _ (mkTransport IcmMessageState_new (mkSocket [] [] [] [] 0) false oa (Some (MuxedTms 0 ∅ None ∅)) false 0))
    by (cbn; apply lookup_insert_eq). rewrite bind_Ok. do 2 f_equal.
  unfold with_connection, sv_with_net, sv_with_fds, sv_with_world, put_transport, with_transports, accepted. cbn. by rewrite insert_insert_eq.
Qed.

(** The upcall of an acceptor. *)
Lemma acceptor_upcall_ok a oa h q fd sk k1 s t tq :
  server_ok s t → listens s t a oa h q →
  net_accept h (sv_net s) = (Some (fd, sk), k1) → fd < MAXSIZE →
  (net_nonblock fd k1).1 ≠ -1 → net_names fd (net_nonblock fd k1).2 = true →
  let c := w_next (sv_world s) + 1 in
  ∃ t', acceptor_upcall a s (mkReactor t tq) = Ok (0, with_connection c oa fd sk (net_nonblock fd k1).2 s, mkReactor t' tq) ∧
    tables_ok t' ∧ dispatchSet t' = dispatchSet t ∧ eventHandlers t' = <[fd := c]> (eventHandlers t) ∧
    ∀ cb x, wants t' cb x = wants t cb x || (enables READ_MASK cb && (x =? fd)).
Proof.
  intros Hok Hl Hacc Hmax Hnb Hnm c. pose proof (so_next _ _ Hok) as Hnx.
  pose proof (accept_law _ _ _ _ Hacc) as (Hfd & Hfree & Hopen).
  destruct (accepts a oa h q fd sk k1 s t Hl Hacc) as [Hacs Hmk]. fold c in Hacs, Hmk.
  unfold acceptor_upcall. rewrite Hmk, bind_Ok in Hacs. rewrite Hmk, bind_Ok, Hacs, bind_Ok. cbn [Z.eqb].
  unfold tcp_activateSvcHandler. change (sv_net (with_connection c oa fd sk k1 s)) with k1.
  change (sv_fds (with_connection c oa fd sk k1 s)) with (<[c := fd]> (sv_fds s)). rewrite lookup_insert_eq. cbn [default id].
  destruct (net_nonblock fd k1) as [r k2] eqn:Enb. cbn [fst snd] in *.
  rewrite (proj2 (Z.eqb_neq r (-1))), Hnm by done. cbn [negb orb].
  change (sv_with_net k2 (with_connection c oa fd sk k1 s)) with (with_connection c oa fd sk k2 s).
  assert (eventHandlers t !! fd = None) as Hnone.
  { apply eq_None_not_Some. intros Hs. apply (so_open _ _ Hok) in Hs as [? Hs]. by rewrite Hfree in Hs. }
  destruct (registers c fd READ_MASK (with_connection c oa fd sk k2 s) t tq (so_tables _ _ Hok)) as (t' & Hreg & Ht' & He & Hd & Hw);
    [|unfold c; lia|done|done|].
  { unfold sv_getHandle. change (sv_acceptors (with_connection c oa fd sk k2 s)) with (sv_acceptors s).
    assert (sv_acceptors s !! c = None) as ->.
    { apply eq_None_not_Some. intros Hs. apply (so_acceptors _ _ Hok) in Hs. unfold c in Hs. lia. }
    rewrite (deref_some c _ (accepted oa sk)) by (cbn; apply lookup_insert_eq). rewrite bind_Ok. cbn. by rewrite lookup_insert_eq. }
  rewrite Hreg, !bind_Ok. by exists t'.
Qed.

(** A connection that cannot be prepared: its handler is not registered, its
    descriptor stays open, and both are forgotten. *)
Lemma unprepared_connection_leaks a oa h q fd sk k1 s t sr :
  listens s t a oa h q → net_accept h (sv_net s) = (Some (fd, sk), k1) → (net_nonblock fd k1).1 = -1 →
  let c := w_next (sv_world s) + 1 in
  ∃ s', acceptor_upcall a s sr = Ok (0, s', sr) ∧ w_transports (sv_world s') !! c = Some (accepted oa sk) ∧
    sv_fds s' !! c = Some fd ∧ net_open (sv_net s') !! fd = Some Connection.
Proof.
  intros Hl Hacc Hnb c. pose proof (accept_law _ _ _ _ Hacc) as (_ & _ & Hopen).
  destruct (accepts a oa h q fd sk k1 s t Hl Hacc) as [Hacs Hmk]. fold c in Hacs, Hmk.
  unfold acceptor_upcall. rewrite Hmk, bind_Ok in Hacs. rewrite Hmk, bind_Ok, Hacs, bind_Ok. cbn [Z.eqb].
  unfold tcp_activateSvcHandler. change (sv_net (with_connection c oa fd sk k1 s)) with k1.
  change (sv_fds (with_connection c oa fd sk k1 s)) with (<[c := fd]> (sv_fds s)). rewrite lookup_insert_eq. cbn [default id].
  destruct (net_nonblock fd k1) as [r k2] eqn:Enb. cbn [fst] in Hnb. subst r.
  cbn [Z.eqb Pos.eqb orb]. rewrite bind_Ok. eexists. split; [reflexivity|]. split; [apply lookup_insert_eq|]. split; [apply lookup_insert_eq|].
  cbn. by rewrite (nonblock_law _ _ _ _ Enb), Hopen, lookup_insert_eq.
Qed.

(** The server with a connection more is in order. *)
Lemma with_connection_ok c oa fd sk k s t t' :
  server_ok s t → tables_ok t' → c = w_next (sv_world s) + 1 → eventHandlers t' = <[fd := c]> (eventHandlers t) →
  net_open k = <[fd := Connection]> (net_open (sv_net s)) → server_ok (with_connection c oa fd sk k s) t'.
Proof.
  intros [L1 L2 L3 L4 L5] Ht -> He Hk. split; [done|..]; unfold with_connection; cbn.
  - intros b Hb. apply L2 in Hb. lia.
  - intros p Hp. destruct (decide (p = w_next (sv_world s) + 1)) as [->|]; [lia|]. rewrite lookup_insert_ne in Hp by done. apply L3 in Hp. lia.
  - lia.
  - intros x Hx. rewrite Hk. rewrite He in Hx. destruct (decide (x = fd)) as [->|]; [by rewrite lookup_insert_eq|].
    rewrite lookup_insert_ne in Hx by done. rewrite lookup_insert_ne by done. by apply L5.
Qed.

(** A turn of the loop in which a connection is accepted. *)
Lemma turn_accepts sfuel fuel tfuel maxWait a oa h q fd sk k1 s s1 t tq :
  server_ok s t → low_handles t → inv tq → isEmpty tq = true → listens s t a oa h q →
  reports maxWait tq s t h s1 → net_accept h (sv_net s1) = (Some (fd, sk), k1) → fd < MAXSIZE →
  (net_nonblock fd k1).1 ≠ -1 → net_names fd (net_nonblock fd k1).2 = true →
  let c := w_next (sv_world s) + 1 in let s2 := with_connection c oa fd sk (net_nonblock fd k1).2 s in
  ∃ t2, handleEvents sfuel fuel tfuel maxWait s (mkReactor t tq) = Ok (1, s2, mkReactor t2 tq) ∧
    server_ok s2 t2 ∧ listens s2 t2 a oa h q ∧ eventHandlers t2 = <[fd := c]> (eventHandlers t) ∧
    ∀ cb x, wants t2 cb x = wants t cb x || (enables READ_MASK cb && (x =? fd)).
Proof.
  intros Hok Hlow Hinv Hemp Hl (n & rd & wr & ex & k & Hsel & Hrep & -> & Hk) Hacc Hmax Hnb Hnm c s2.
  pose proof (accept_law _ _ _ _ Hacc) as (Hfd & Hfree & Hopen). cbn [sv_net sv_with_net] in Hacc, Hfree, Hopen.
  destruct (handleEvents_reads_one
    (λ t2, eventHandlers t2 = <[fd := c]> (eventHandlers t) ∧ ∀ cb x, wants t2 cb x = wants t cb x || (enables READ_MASK cb && (x =? fd)))
    sfuel fuel tfuel maxWait s (sv_with_net k s) s2 t tq n rd wr ex h a) as (t2 & Hev & Ht2 & He2 & Hw2);
    [apply Hok|done|done|done|exact Hsel|done|apply Hl| | |].
  - intros x y Hxy [E1 E2]. split; [injection Hxy; congruence|]. intros cb z. by rewrite <- E2, (registrations_wants _ _ _ _ Hxy).
  - intros td Htd _ Hreg. exists 0.
    assert (eventHandlers td = eventHandlers t) as Heq by (by injection Hreg).
    assert (server_ok (sv_with_net k s) td) as Hok1.
    { destruct Hok as [L1 L2 L3 L4 L5]. split; try done. intros x. rewrite Heq. cbn. rewrite Hk. apply L5. }
    assert (listens (sv_with_net k s) td a oa h q) as Hl1.
    { eapply listens_kept; [exact Hl|done|cbn; by rewrite Hk|by rewrite Heq|]. rewrite (registrations_wants _ _ _ _ Hreg). apply Hl. }
    destruct (acceptor_upcall_ok a oa h q fd sk k1 (sv_with_net k s) td tq Hok1 Hl1 Hacc Hmax Hnb Hnm) as (t2 & Hup & Ht2 & Hd2 & He2 & Hw2).
    exists t2. split_and!; [|done|done|done|by rewrite He2, Heq|intros cb x; by rewrite Hw2, (registrations_wants _ _ _ _ Hreg)].
    cbn [on_event server_handlers]. unfold sv_on_event. rewrite (li_acceptor _ _ _ _ _ _ Hl1). exact Hup.
  - exists t2. split; [exact Hev|].
    assert (net_open (sv_net s2) = <[fd := Connection]> (net_open (sv_net s))) as Hn2.
    { unfold s2, with_connection. cbn. destruct (net_nonblock fd k1) as [r k2] eqn:E. cbn [snd]. by rewrite (nonblock_law _ _ _ _ E), Hopen, Hk. }
    assert (h ≠ fd) as Hne by (intros ->; rewrite Hk, (li_descriptor _ _ _ _ _ _ Hl) in Hfree; done).
    split; [by eapply with_connection_ok|]. split; [|done].
    eapply listens_kept; [exact Hl|done|by rewrite Hn2, lookup_insert_ne by done|by rewrite He2, lookup_insert_ne by done|].
    rewrite Hw2. by rewrite (li_wants _ _ _ _ _ _ Hl).
Qed.

(** A turn of the loop in which a connection has a request. *)
Lemma turn_serves sfuel fuel tfuel maxWait c fd tr m ca p results a' rest s s1 t tq :
  server_ok s t → low_handles t → inv tq → isEmpty tq = true →
  eventHandlers t !! fd = Some c → sv_acceptors s !! c = None → idle c tr (sv_world s) → reports maxWait tq s t fd s1 →
  incoming (tr_socket tr) (request_bytes ca ++ rest) →
  Forall item_ok (call_items ca) → len (mjoin (encode <$> call_items ca)) < 2 ^ 31 →
  id_category (cl_identity ca) = [] → tr_adapter tr ≠ 0 → w_adapters (sv_world s) !! tr_adapter tr = Some m →
  findServant (cl_identity ca) m = p → p ≠ 0 → answers (w_app (sv_world s)) p ca results a' →
  Forall item_ok results → 13 + len (mjoin (encode <$> results)) ≤ os_limit →
  ∃ tr' w t2, let s2 := sv_with_world w s1 in
    handleEvents sfuel fuel tfuel maxWait s (mkReactor t tq) = Ok (1, s2, mkReactor t2 tq) ∧
    server_ok s2 t2 ∧ registrations t2 = registrations t ∧ idle c tr' w ∧ incoming (tr_socket tr') rest ∧
    sk_sent (tr_socket tr') = sk_sent (tr_socket tr) ++ (if cl_responseFlags ca =? 0 then [] else reply_bytes (cl_requestId ca) results) ∧
    w_app w = a' ∧ w_adapters w = w_adapters (sv_world s).
Proof.
  intros Hok Hlow Hinv Hemp Heh Hna Hid (n & rd & wr & ex & k & Hsel & Hrep & -> & Hk) Hin Hi1 Hi2 Hcat Hoa Hm Hfind Hp Hans Hr1 Hr2.
  assert (c ≠ 0) as Hc by (by apply (to_handlers t (so_tables _ _ Hok)) in Heh as [_ ?]).
  destruct (request_served ca p results a' c tr (sv_world s) m rest) as (st & sk & Hhi & Hidle & Hin' & Hsent); try done.
  set (w := put_transport _ _ _) in *.
  destruct (handleEvents_reads_one (λ t2, registrations t2 = registrations t)
    sfuel fuel tfuel maxWait s (sv_with_net k s) (sv_with_world w (sv_with_net k s)) t tq n rd wr ex fd c) as (t2 & Hev & Ht2 & Hreg);
    [apply Hok|done|done|done|exact Hsel|done|done|congruence| |].
  - intros td Htd _ Hreg. exists 0, td. split_and!; try done.
    cbn [on_event server_handlers]. unfold sv_on_event. change (sv_acceptors (sv_with_net k s)) with (sv_acceptors s). rewrite Hna.
    unfold connection_upcall. change (sv_world (sv_with_net k s)) with (sv_world s).
    rewrite (deref_some c _ tr) by apply Hid. rewrite bind_Ok. unfold handler_handleInput. by rewrite Hhi, !bind_Ok.
  - eexists (tr_with_state st (tr_with_socket sk tr)), w, t2. split; [exact Hev|]. split; [|by split_and!].
    destruct Hok as [L1 L2 L3 L4 L5]. split; [done|exact L2| |exact L4|].
    + intros x Hx. change (w_next (sv_world _)) with (w_next (sv_world s)). cbn in Hx. destruct (decide (x = c)) as [->|];
        [apply L3; by rewrite (idle_at _ _ _ Hid)|]. rewrite lookup_insert_ne in Hx by done. by apply L3.
    + intros x. injection Hreg as _ -> _. change (sv_net (sv_with_world w (sv_with_net k s))) with k. rewrite Hk. apply L5.
Qed.


End serving.

(** ** Examples *)

Module Loopback.

#[local] Existing Instance lp64.
#[local] Existing Instance zero_memory.
#[local] Existing Instance host_le.
#[local] Existing Instance uninit_7.
#[local] Existing Instance sample_app.

(** A network that has one connection for who accepts, on which the bytes
    arrive; [lo_ready]: the descriptor [select] will report. *)
Record Loop := mkLoop { lo_open : gmap Z descriptor; lo_ready : Z; lo_bytes : list Z }.

Definition set_open (m : gmap Z descriptor) (k : Loop) : Loop := mkLoop m (lo_ready k) (lo_bytes k).

Definition fresh (k : Loop) : Z := default (-1) (head (filter (λ h, lo_open k !! h = None) (seqZ 3 20))).

Lemma fresh_ok k h : fresh k = h → h ≠ -1 → 0 ≤ h < MAXSIZE ∧ lo_open k !! h = None.
Proof.
  unfold fresh. intros E Hne. destruct (filter _ _) as [|x l] eqn:Ef; [by subst h|]. cbn in E. subst x.
  assert (h ∈ h :: l) as Hin by (by left). rewrite <- Ef in Hin. apply list_elem_of_filter in Hin as [Hn Hin].
  apply elem_of_seqZ in Hin. unfold MAXSIZE. split; [lia|done].
Qed.

Definition change_if (ok : bool) (h : Z) (d : descriptor) (k : Loop) : Z * Loop :=
  if ok then (0, set_open (<[h := d]> (lo_open k)) k) else (-1, k).

Definition bind_port (h p : Z) (k : Loop) : Z * Loop :=
  match lo_open k !! h with
  | Some Fresh => let q := if p =? 0 then 40000 else p in change_if ((0 <? q) && (q <? 2 ^ 16)) h (BoundTo q) k
  | _ => (-1, k)
  end.

Definition listen_port (h : Z) (k : Loop) : Z * Loop :=
  match lo_open k !! h with Some (BoundTo q) => change_if true h (ListensAt q) k | _ => (-1, k) end.

#[local] Instance loop_net : Net Loop := {|
  net_socket k := let h := fresh k in (h, if h =? -1 then k else set_open (<[h := Fresh]> (lo_open k)) k);
  net_reuse _ k := (0, k);
  net_bind := bind_port;
  net_listen := listen_port;
  net_accept h k := let fd := fresh k in
    if fd =? -1 then (None, k)
    else (Some (fd, mkSocket [Data (lo_bytes k)] [] [] [] 0), mkLoop (<[fd := Connection]> (lo_open k)) fd (lo_bytes k));
  net_nonblock _ k := (0, k);
  net_names _ _ := true;
  net_sockname h k := match lo_open k !! h with Some (ListensAt q) => Some q | _ => None end;
  net_close h k := set_open (delete h (lo_open k)) k |}.

#[local] Instance loop_lawful : LawfulNet Loop.
Proof.
  refine {| net_open := lo_open |}.
  - intros k h k' [= E <-]. rewrite E. destruct (h =? -1) eqn:Eh; [done|]. b2p. by destruct (fresh_ok k h E Eh) as [[] ?].
  - by intros h k r k' [= <- <-].
  - intros h p k r k' E Hh. cbn in E. unfold bind_port in E. rewrite Hh in E. unfold change_if in E.
    destruct (_ && _) eqn:Eq; simplify_eq; [|done]. apply andb_true_iff in Eq as [E1 E2]. b2p.
    eexists. split; [split; [exact E1|exact E2]|]. split; [|done]. intros Hp. by rewrite (proj2 (Z.eqb_neq p 0)).
  - intros h q k r k' E Hh. cbn in E. unfold listen_port in E. rewrite Hh in E. unfold change_if in E. by simplify_eq.
  - intros h k r k' E. cbn in E. destruct (fresh k =? -1) eqn:Ef; simplify_eq; [done|]. b2p. by destruct (fresh_ok k _ eq_refl Ef) as [[] ?].
  - by intros h k r k' [= <- <-].
  - intros h q k Hh. cbn. by rewrite Hh.
  - done.
Defined.

Abbreviation State := (Server (list Z) Loop).

(** [select] reports [lo_ready], if it is asked for it. *)
#[local] Instance loop_kernel : Kernel State := {|
  gettimeofday s := (mkTV 10 0, s);
  select width rd wr ex tmo s :=
    let res := Sample.set_of_list [lo_ready (sv_net s)] in
    if Sample.subset_b width rd res && Sample.subset_b width wr FD_ZERO && Sample.subset_b width ex FD_ZERO
    then (SelectReactor.Ready (select_count rd res + select_count wr FD_ZERO + select_count ex FD_ZERO) res FD_ZERO FD_ZERO, s)
    else (SelectError EINTR, s) |}.

#[local] Instance loop_select : LawfulSelect State.
Proof.
  split. cbn. intros width rd wr ex tmo w n rd' wr' ex' w' E. destruct (_ && _) eqn:Eb in E; [|done]. simplify_eq.
  apply andb_true_iff in Eb as [Eb He]. apply andb_true_iff in Eb as [Hr Hw]. split_and!; [by apply Sample.subset_b_ok..|done].
Qed.

Lemma few : few_descriptors (K := Loop).
Proof.
  intros k h k' [= E _]. destruct (decide (h = -1)) as [->|Hne]; [unfold MAXSIZE; lia|]. by destruct (fresh_ok k h E Hne) as [[] ?].
Qed.

(** A process that has done [Communicator::init], to which a request will come. *)
Definition cold : State :=
  mkServer (mkWorld ∅ ∅ ∅ ∅ ∅ [] [] 0 0 []) ∅ ∅ ∅ {[TCP]} None ∅ (mkLoop ∅ 3 (request_bytes sample_next)).

Definition reactor : SelectReactor := SelectReactor_new 4.

Lemma cold_ok : server_ok cold (sr_tables reactor).
Proof.
  split; [apply new_tables_ok|..]; try (intros x [? E]; cbn in E; by rewrite lookup_empty in E); [cbn; lia].
Qed.

Definition started := createObjectAdapterWithEndpoint (mkEndpoint TCP [] 0) cold reactor.
Definition started_state : State := match started with Ok (_, _, s, _) => s | Fault _ => cold end.
Definition started_reactor : SelectReactor := match started with Ok (_, _, _, sr) => sr | Fault _ => reactor end.

(** The adapter is the object 1, its acceptor 2; the network chose the port 40000. *)
Example started_port : match started with Ok (oa, e, _, _) => (oa, e) = (1, mkEndpoint TCP [] 40000) | Fault _ => False end.
Proof. vm_compute. reflexivity. Qed.

Lemma started_ok :
  listens started_state (sr_tables started_reactor) 2 1 3 40000 ∧ server_ok started_state (sr_tables started_reactor) ∧
  low_handles (sr_tables started_reactor) ∧ timerQueue started_reactor = TimerHeap_new 4.
Proof.
  assert (sv_acceptors started_state !! 2 = Some (mkAcceptor 1 40000 3 true)) as E by (vm_compute; reflexivity).
  destruct (adapter_opened (mkEndpoint TCP [] 0) cold (sr_tables reactor) (timerQueue reactor) few cold_ok eq_refl ltac:(cbn; lia) eq_refl)
    as (oa & e' & s' & t' & Hc & _ & _ & _ & Hcase).
  change (mkReactor (sr_tables reactor) (timerQueue reactor)) with reactor in Hc. fold started in Hc.
  unfold started_state, started_reactor in *. rewrite Hc in *. cbn [sr_tables timerQueue].
  destruct Hcase as [(_ & _ & _ & Ha & _)|(a & h & q & -> & _ & _ & _ & Hl & Hok & _ & _ & _ & Ha & _ & _ & _ & Hw)].
  { rewrite Ha in E. discriminate E. }
  assert (a = 2 ∧ oa = 1 ∧ q = 40000 ∧ h = 3) as (-> & -> & -> & ->).
  { rewrite Ha in E. apply lookup_insert_Some in E as [[-> E]|[_ E]]; [injection E as -> -> ->; split_and!; reflexivity|discriminate E]. }
  split; [exact Hl|]. split; [exact Hok|]. split; [|reflexivity]. intros cb x. rewrite Hw, (unbound_unwanted (sr_tables reactor) x (new_tables_ok 4)) by reflexivity.
  cbn [orb]. intros [_ ?]%andb_true_iff. b2p. subst x. vm_compute. reflexivity.
Qed.

(** With a servant for the object of the request. *)
Definition serving : State :=
  sv_with_world (with_adapters {[1 := mkManager {[ [111; 98; 106] := 5 ]} ∅]} (sv_world started_state)) started_state.

Lemma serving_ok : listens serving (sr_tables started_reactor) 2 1 3 40000 ∧ server_ok serving (sr_tables started_reactor).
Proof. destruct started_ok as ([L1 L2 L3 L4] & [M1 M2 M3 M4 M5] & _). split; by split. Qed.


(** The first turn of the loop, computed. *)
Definition turn : result (Z * State * SelectReactor) := handleEvents (rh := server_handlers) 0 0 0 None serving started_reactor.

Definition turned_state : State := match turn with Ok (_, s, _) => s | Fault _ => serving end.
Definition turned_tables : Tables := match turn with Ok (_, _, sr) => sr_tables sr | Fault _ => sr_tables reactor end.

Lemma reports_computed maxWait tq (s : State) (t : Tables) h :
  lo_ready (sv_net s) = h →
  (let res := Sample.set_of_list [h] in
   Sample.subset_b (m_maxHandleP1 t) (fdset (rdMask (waitSet t))) res && Sample.subset_b (m_maxHandleP1 t) (fdset (wrMask (waitSet t))) FD_ZERO &&
     Sample.subset_b (m_maxHandleP1 t) (fdset (exMask (waitSet t))) FD_ZERO = true ∧ reported t res FD_ZERO FD_ZERO = [(handleInput_, h)]) →
  reports maxWait tq s t h s.
Proof.
  intros Hr [Hs Hrep]. eexists _, (Sample.set_of_list [h]), FD_ZERO, FD_ZERO, (sv_net s).
  split; [intros tmo _; cbn; rewrite Hr, Hs; reflexivity|]. split; [exact Hrep|]. split; [by destruct s|done].
Qed.

Lemma serving_app : w_app (sv_world serving) = [].
Proof. vm_compute. reflexivity. Qed.

Lemma sample_arrives : incoming (mkSocket [Data (request_bytes sample_next)] [] [] [] 0) (request_bytes sample_next ++ []).
Proof.
  split; [|split].
  - apply Forall_cons. split; [vm_compute; discriminate|by apply Forall_nil].
  - vm_compute. reflexivity.
  - by exists 0%nat, [].
Qed.

Lemma first_report : reports None (TimerHeap_new 4) serving (sr_tables started_reactor) 3 serving.
Proof. apply reports_computed; [vm_compute; reflexivity|]. vm_compute. split; reflexivity. Qed.

Lemma second_report : reports None (TimerHeap_new 4) turned_state turned_tables 4 turned_state.
Proof. apply reports_computed; [vm_compute; reflexivity|]. vm_compute. split; reflexivity. Qed.


End Loopback.
