(* ===== verification/TopicManager.v ===== *)
(** * TopicManager: subscriptions and queued messages of the broker (msg/TopicManager.h, .cpp)

    The manager keeps who subscribed to what and which message still has to go
    to whom.  It has two sets of tables: with buffering, subscribers are named
    by an id that survives the connection (functions whose names end in an
    underscore); without, they are the connection handlers themselves.  In
    both, two maps hold the queued messages: from the subscriber and from the
    message.  [Broker] is everything these functions can reach: the manager,
    the messages and the handlers that are allocated, the clock and the file
    SubscriptionInfo. *)
From S2P Require Import Prelude CppLib Block OutputStream InputStream Socket MsgProtocol.

Abbreviation str := (list Z).

Definition MaxBufferSize : Z := 100 * 1000.

(** The static settings of SubscriberHandler. *)
Class Settings := {
  enableBuffering : bool;
  keepAliveTryTimes : Z;
  keepAliveTimeSpan : Z }.

(** A [Msg] with the field [creatTime] its constructor sets. *)
Record Message := mkMessage { msg_of : Msg; creatTime : Z }.

(** A [SubscriberHandler]: its own fields, its stream and whether it is
    registered with the reactor for WRITE_MASK. *)
Record SubscriberHandler := mkSub {
  sh_id : str;
  sh_tmpMsg : Z;
  sh_topic : str;
  sh_recentActiveTime : Z;
  sh_stream : socket;
  sh_writing : bool }.

Definition with_active (t : Z) (s : SubscriberHandler) : SubscriberHandler :=
  mkSub (sh_id s) (sh_tmpMsg s) (sh_topic s) t (sh_stream s) (sh_writing s).
Definition with_writing (w : bool) (s : SubscriberHandler) : SubscriberHandler :=
  mkSub (sh_id s) (sh_tmpMsg s) (sh_topic s) (sh_recentActiveTime s) (sh_stream s) w.

(** ** Messages queued for subscribers: [PubMap1] with [PubMap2], [PubMap4] with [PubMap3] *)

Section pending.

Context {C : Type} `{Countable C}.

Record Pending := mkPending {
  msgs_of : gmap C (gset Z);
  clients_of : gmap Z (gset C) }.

Definition no_pending : Pending := mkPending ∅ ∅.

(** [PubMap1[c].insert (p); PubMap2[p].insert (c)]. *)
Definition enqueue (c : C) (p : Z) (q : Pending) : Pending :=
  mkPending (insert_at c p (msgs_of q)) (insert_at p c (clients_of q)).

(** The body of [onMessageSent]; the flag says that [p] has no client left. *)
Definition dequeue (p : Z) (c : C) (q : Pending) : bool * Pending :=
  let m1 := erase_at c p (msgs_of q) in
  let m2 := erase_at p c (clients_of q) in
  if decide (at_ p m2 = ∅) then (true, mkPending m1 (delete p m2))
  else (false, mkPending m1 m2).

(** The two maps hold the same pairs, and no message is kept without a client. *)
Record linked (q : Pending) : Prop := mkLinked {
  lk_pairs : ∀ c p, p ∈ at_ c (msgs_of q) ↔ c ∈ at_ p (clients_of q);
  lk_served : ∀ p, p ∈ dom (clients_of q) → at_ p (clients_of q) ≠ ∅ }.

Lemma no_pending_linked : linked no_pending.
Proof. split; [intros; unfold no_pending, at_; cbn; rewrite !lookup_empty; set_solver|set_solver]. Qed.

Lemma enqueue_pairs c p q c' p' :
  p' ∈ at_ c' (msgs_of (enqueue c p q)) ↔ p' ∈ at_ c' (msgs_of q) ∨ (c' = c ∧ p' = p).
Proof. cbn. rewrite at_insert_at. destruct (decide (c' = c)) as [->|]; set_solver. Qed.

Lemma enqueue_linked c p q : linked q → linked (enqueue c p q).
Proof.
  intros [Hp Hs]. split.
  - intros c' p'. rewrite enqueue_pairs. cbn. rewrite at_insert_at, Hp.
    destruct (decide (p' = p)) as [->|]; set_solver.
  - intros p'. cbn. unfold insert_at at 1. rewrite dom_insert_L, at_insert_at.
    destruct (decide (p' = p)) as [->|]; [set_solver|]. intros. apply Hs. set_solver.
Qed.

Lemma enqueue_dom c p q : dom (clients_of (enqueue c p q)) = {[p]} ∪ dom (clients_of q).
Proof. apply dom_insert_L. Qed.

Lemma dequeue_pairs p c q c' p' :
  linked q → (p' ∈ at_ c' (msgs_of (dequeue p c q).2) ↔ p' ∈ at_ c' (msgs_of q) ∧ ¬ (c' = c ∧ p' = p)).
Proof.
  intros _. unfold dequeue. destruct (decide _); cbn; rewrite at_erase_at; destruct (decide (c' = c)) as [->|]; set_solver.
Qed.

(** What [dequeue] answers: whether [c] was the last client of [p]. *)
Lemma dequeue_last p c q : (dequeue p c q).1 = bool_decide (at_ p (clients_of q) ⊆ {[c]}).
Proof.
  unfold dequeue. destruct (decide _) as [He|He]; rewrite at_erase_at, decide_True in He by done; cbn; symmetry.
  - apply bool_decide_eq_true. intros x Hx. destruct (decide (x = c)); set_solver.
  - apply bool_decide_eq_false. set_solver.
Qed.

Lemma dequeue_linked p c q : linked q → linked (dequeue p c q).2.
Proof.
  intros Hq. split.
  - intros c' p'. rewrite dequeue_pairs by done. rewrite (lk_pairs q) by done. unfold dequeue.
    destruct (decide _) as [He|Hn]; cbn.
    + rewrite at_erase_at, decide_True in He by done. rewrite at_delete, at_erase_at.
      destruct (decide (p' = p)) as [->|]; set_solver.
    + rewrite at_erase_at. destruct (decide (p' = p)) as [->|]; set_solver.
  - intros p'. unfold dequeue. destruct (decide _) as [He|Hn]; cbn.
    + rewrite at_delete, at_erase_at. unfold erase_at. rewrite dom_delete_L, dom_insert_L.
      destruct (decide (p' = p)) as [->|]; [set_solver|]. intros. apply (lk_served q Hq). set_solver.
    + destruct (decide (p' = p)) as [->|Hne]; [done|].
      rewrite at_erase_at, decide_False by done. unfold erase_at. rewrite dom_insert_L.
      intros. apply (lk_served q Hq). set_solver.
Qed.

Lemma dequeue_dom p c q :
  p ∈ dom (clients_of q) →
  dom (clients_of (dequeue p c q).2) =
    if (dequeue p c q).1 then dom (clients_of q) ∖ {[p]} else dom (clients_of q).
Proof.
  intros Hp. unfold dequeue. destruct (decide _); cbn; unfold erase_at.
  - rewrite dom_delete_L, dom_insert_L. set_solver.
  - rewrite dom_insert_L. set_solver.
Qed.

Lemma pending_dom q p : linked q → (p ∈ dom (clients_of q) ↔ ∃ c, p ∈ at_ c (msgs_of q)).
Proof.
  intros Hq. split.
  - intros Hp%(lk_served q Hq). apply set_choose_L in Hp as [c Hc]. exists c. by apply (lk_pairs q Hq).
  - intros [c Hc%(lk_pairs q Hq)]. by eapply elem_of_at_dom.
Qed.

End pending.
Arguments Pending C {_ _}.

Create HintDb broker.
#[export] Hint Resolve no_pending_linked enqueue_linked dequeue_linked : broker.

(** ** State *)

Record TopicManager := mkTopicManager {
  subscribers : gmap str Z;
  subscriptionMap : gmap str (gset str);
  nextAllocateClientId : Z;
  buffered : Pending str;
  subscriptionMap1 : gmap str (gset Z);
  subscriptionMap2 : gmap Z (gset str);
  direct : Pending Z }.

Definition PubMap1 (t : TopicManager) : gmap str (gset Z) := msgs_of (buffered t).
Definition PubMap2 (t : TopicManager) : gmap Z (gset str) := clients_of (buffered t).
Definition PubMap3 (t : TopicManager) : gmap Z (gset Z) := clients_of (direct t).
Definition PubMap4 (t : TopicManager) : gmap Z (gset Z) := msgs_of (direct t).

Definition with_subscribers x t := mkTopicManager x (subscriptionMap t) (nextAllocateClientId t) (buffered t) (subscriptionMap1 t) (subscriptionMap2 t) (direct t).
Definition with_subscriptionMap x t := mkTopicManager (subscribers t) x (nextAllocateClientId t) (buffered t) (subscriptionMap1 t) (subscriptionMap2 t) (direct t).
Definition with_next x t := mkTopicManager (subscribers t) (subscriptionMap t) x (buffered t) (subscriptionMap1 t) (subscriptionMap2 t) (direct t).
Definition with_buffered x t := mkTopicManager (subscribers t) (subscriptionMap t) (nextAllocateClientId t) x (subscriptionMap1 t) (subscriptionMap2 t) (direct t).
Definition with_subscriptionMap1 x t := mkTopicManager (subscribers t) (subscriptionMap t) (nextAllocateClientId t) (buffered t) x (subscriptionMap2 t) (direct t).
Definition with_subscriptionMap2 x t := mkTopicManager (subscribers t) (subscriptionMap t) (nextAllocateClientId t) (buffered t) (subscriptionMap1 t) x (direct t).
Definition with_direct x t := mkTopicManager (subscribers t) (subscriptionMap t) (nextAllocateClientId t) (buffered t) (subscriptionMap1 t) (subscriptionMap2 t) x.

(** Everything the functions reach.  [br_disk] is the file SubscriptionInfo, if it exists. *)
Record Broker := mkBroker {
  br_mgr : TopicManager;
  br_msgs : gmap Z Message;
  br_subs : gmap Z SubscriberHandler;
  br_now : Z;
  br_disk : option (list Z) }.

Definition with_mgr x b := mkBroker x (br_msgs b) (br_subs b) (br_now b) (br_disk b).
Definition with_msgs x b := mkBroker (br_mgr b) x (br_subs b) (br_now b) (br_disk b).
Definition with_subs x b := mkBroker (br_mgr b) (br_msgs b) x (br_now b) (br_disk b).
Definition with_disk x b := mkBroker (br_mgr b) (br_msgs b) (br_subs b) (br_now b) x.

(** Access through a pointer. *)
Definition deref {V} (p : Z) (m : gmap Z V) : result V :=
  if p =? 0 then Fault NullDeref
  else match m !! p with Some v => Ok v | None => Fault UseAfterFree end.

(** [delete p] for a message. *)
Definition delete_msg (p : Z) (b : Broker) : result Broker :=
  if p =? 0 then Ok b
  else _ ← deref p (br_msgs b); Ok (with_msgs (delete p (br_msgs b)) b).

(** ** Operations *)

Section operations.

Context {cfg : Settings} {un : Uninit}.

(** [isActive ()]. *)
Definition isActive (s : SubscriberHandler) (b : Broker) : bool :=
  br_now b - sh_recentActiveTime s <=? keepAliveTryTimes * keepAliveTimeSpan.

(** [handler->registerWriteMask ()]. *)
Definition registerWriteMask (h : Z) (b : Broker) : result Broker :=
  s ← deref h (br_subs b);
  Ok (with_subs (<[h := with_writing true s]> (br_subs b)) b).

(** [addSubscription_ (topic, subscriberId, handler)]; [getHandle ()] only reads. *)
Definition addSubscription_ (topic subscriberId : str) (handler : Z) (b : Broker) : result Broker :=
  _ ← assert_ (negb (bool_decide (topic = [])));
  _ ← assert_ (negb (bool_decide (subscriberId = [])));
  let t := with_subscribers (<[subscriberId := handler]> (subscribers (br_mgr b))) (br_mgr b) in
  let t := with_subscriptionMap (insert_at topic subscriberId (subscriptionMap t)) t in
  if negb (handler =? 0) then
    _ ← assert_ (bool_decide (subscribers t !! subscriberId = Some handler));
    _ ← deref handler (br_subs b);
    Ok (with_mgr t b)
  else Ok (with_mgr t b).

(** [addSubscription (topic, handler)]. *)
Definition addSubscription (topic : str) (handler : Z) (b : Broker) : result Broker :=
  _ ← assert_ (negb (bool_decide (topic = [])));
  _ ← assert_ (negb (handler =? 0));
  let t := br_mgr b in
  let t := with_subscriptionMap1 (insert_at topic handler (subscriptionMap1 t)) t in
  let t := with_subscriptionMap2 (insert_at handler topic (subscriptionMap2 t)) t in
  Ok (with_mgr t b).

(** [removeSubscription_ (topic, subscriberId)]. *)
Definition removeSubscription_ (topic subscriberId : str) (b : Broker) : Broker :=
  let t := br_mgr b in
  with_mgr (with_subscriptionMap (erase_at topic subscriberId (subscriptionMap t)) t) b.

(** [removeSubscription (topic, handler)]. *)
Definition removeSubscription (topic : str) (handler : Z) (b : Broker) : Broker :=
  let t := br_mgr b in
  with_mgr (with_subscriptionMap1 (erase_at topic handler (subscriptionMap1 t)) t) b.

(** [onHandlerDestroyed_ (subscriberId)]. *)
Definition onHandlerDestroyed_ (subscriberId : str) (b : Broker) : Broker :=
  let t := br_mgr b in
  with_mgr (with_subscribers (<[subscriberId := 0]> (subscribers t)) t) b.

(** [onHandlerDestroyed (handler)]. *)
Definition onHandlerDestroyed (handler : Z) (b : Broker) : Broker :=
  let t := br_mgr b in
  let topics := at_ handler (subscriptionMap2 t) in
  let b := with_mgr (with_subscriptionMap2 (touch handler (subscriptionMap2 t)) t) b in
  let b := foldl (λ b topic, removeSubscription topic handler b) b (set_iter topics) in
  let t := br_mgr b in
  with_mgr (with_subscriptionMap2 (delete handler (subscriptionMap2 t)) t) b.

(** [~SubscriberHandler ()], for the object at [h]. *)
Definition SubscriberHandler_delete (h : Z) (b : Broker) : result Broker :=
  s ← deref h (br_subs b);
  let b := if enableBuffering
           then (if bool_decide (sh_id s = []) then b else onHandlerDestroyed_ (sh_id s) b)
           else onHandlerDestroyed h b in
  _ ← assert_ (sh_tmpMsg s =? 0);
  Ok (with_subs (delete h (br_subs b)) b).

(** [getSubscribersOfTopic_ (topic)]. *)
Definition getSubscribersOfTopic_ (topic : str) (b : Broker) : gset str * Broker :=
  let t := br_mgr b in
  (at_ topic (subscriptionMap t), with_mgr (with_subscriptionMap (touch topic (subscriptionMap t)) t) b).

(** [allocateClientId_ ()]. *)
Definition allocateClientId_ (b : Broker) : Z * Broker :=
  let t := br_mgr b in
  (nextAllocateClientId t, with_mgr (with_next (s32 (nextAllocateClientId t + 1)) t) b).

(** [getHandlerOfClient_ (clientId)]: [operator[]] puts a null pointer where there is none. *)
Definition getHandlerOfClient_ (clientId : str) (b : Broker) : result (Z * Broker) :=
  _ ← assert_ (negb (bool_decide (clientId = [])));
  let t := br_mgr b in
  let h := default 0 (subscribers t !! clientId) in
  Ok (h, with_mgr (with_subscribers (<[clientId := h]> (subscribers t)) t) b).

(** [getClientMessages_ (clientId)] and [getClientMessages (handler)]. *)
Definition getClientMessages_ (clientId : str) (b : Broker) : result (gset Z * Broker) :=
  _ ← assert_ (negb (bool_decide (clientId = [])));
  let t := br_mgr b in
  Ok (at_ clientId (PubMap1 t),
      with_mgr (with_buffered (mkPending (touch clientId (PubMap1 t)) (PubMap2 t)) t) b).

Definition getClientMessages (handler : Z) (b : Broker) : result (gset Z * Broker) :=
  _ ← assert_ (negb (handler =? 0));
  let t := br_mgr b in
  Ok (at_ handler (PubMap4 t),
      with_mgr (with_direct (mkPending (touch handler (PubMap4 t)) (PubMap3 t)) t) b).

(** [onMessageSent_ (msg, clientId)] and [onMessageSent (msg, handler)]. *)
Definition onMessageSent_ (msg : Z) (clientId : str) (b : Broker) : result Broker :=
  let '(last, q) := dequeue msg clientId (buffered (br_mgr b)) in
  let b := with_mgr (with_buffered q (br_mgr b)) b in
  if (last : bool) then delete_msg msg b else Ok b.

Definition onMessageSent (msg handler : Z) (b : Broker) : result Broker :=
  let '(last, q) := dequeue msg handler (direct (br_mgr b)) in
  let b := with_mgr (with_direct q (br_mgr b)) b in
  if (last : bool) then delete_msg msg b else Ok b.

(** [checkBufferSize_ ()] and [checkBufferSize (enableBuffering)]. *)
Definition checkBufferSize_ (b : Broker) : result Broker :=
  if Z.of_nat (size (PubMap2 (br_mgr b))) >=? MaxBufferSize then
    b ← foreach delete_msg (set_iter (dom (PubMap2 (br_mgr b)))) b;
    Ok (with_mgr (with_buffered no_pending (br_mgr b)) b)
  else Ok b.

Definition checkBufferSize (b : Broker) : result Broker :=
  if Z.of_nat (size (PubMap3 (br_mgr b))) >=? MaxBufferSize then
    b ← foreach delete_msg (set_iter (dom (PubMap3 (br_mgr b)))) b;
    Ok (with_mgr (with_direct no_pending (br_mgr b)) b)
  else Ok b.

(** The body of the loop of [addMessage_]. *)
Definition queue_for_ (msg : Z) (subscriberId : str) (b : Broker) : result Broker :=
  _ ← assert_ (negb (bool_decide (subscriberId = [])));
  let t := br_mgr b in
  let subscriberHandler := default 0 (subscribers t !! subscriberId) in
  let b := with_mgr (with_subscribers (<[subscriberId := subscriberHandler]> (subscribers t)) t) b in
  b ← (if negb (subscriberHandler =? 0) then registerWriteMask subscriberHandler b else Ok b);
  let t := br_mgr b in
  Ok (with_mgr (with_buffered (enqueue subscriberId msg (buffered t)) t) b).

(** [addMessage_ (msg)]. *)
Definition addMessage_ (msg : Z) (b : Broker) : result Broker :=
  _ ← assert_ (negb (msg =? 0));
  b ← checkBufferSize_ b;
  m ← deref msg (br_msgs b);
  let '(clients, b) := getSubscribersOfTopic_ (m_topic (msg_of m)) b in
  foreach (queue_for_ msg) (set_iter clients) b.

(** The body of the loop of [addMessage]. *)
Definition queue_for (msg h : Z) (b : Broker) : result Broker :=
  if negb (h =? 0) then
    s ← deref h (br_subs b);
    if isActive s b then
      b ← registerWriteMask h b;
      let t := br_mgr b in
      Ok (with_mgr (with_direct (enqueue h msg (direct t)) t) b)
    else Ok b
  else Ok b.

(** [addMessage (msg, enableBuffering)]. *)
Definition addMessage (msg : Z) (b : Broker) : result Broker :=
  _ ← assert_ (negb (msg =? 0));
  b ← checkBufferSize b;
  m ← deref msg (br_msgs b);
  let topic := m_topic (msg_of m) in
  let handlers := at_ topic (subscriptionMap1 (br_mgr b)) in
  let b := with_mgr (with_subscriptionMap1 (touch topic (subscriptionMap1 (br_mgr b))) (br_mgr b)) b in
  foreach (queue_for msg) (set_iter handlers) b.

(** [isClientOnline_ (topic)] and [isClientOnline (topic, enableBuffering)]: the loops return early. *)
Fixpoint any_online_ (ids : list str) (b : Broker) : result (bool * Broker) :=
  match ids with
  | [] => Ok (false, b)
  | id :: ids =>
      '(h, b) ← getHandlerOfClient_ id b;
      if negb (h =? 0) then
        s ← deref h (br_subs b);
        if isActive s b then Ok (true, b) else any_online_ ids b
      else any_online_ ids b
  end.

Definition isClientOnline_ (topic : str) (b : Broker) : result (bool * Broker) :=
  let '(ids, b) := getSubscribersOfTopic_ topic b in
  if decide (ids = ∅) then Ok (false, b) else any_online_ (set_iter ids) b.

Fixpoint any_online (handlers : list Z) (b : Broker) : result bool :=
  match handlers with
  | [] => Ok false
  | h :: handlers =>
      if negb (h =? 0) then
        s ← deref h (br_subs b);
        if isActive s b then Ok true else any_online handlers b
      else any_online handlers b
  end.

Definition isClientOnline (topic : str) (b : Broker) : result (bool * Broker) :=
  let t := br_mgr b in
  let handlers := at_ topic (subscriptionMap1 t) in
  let b := with_mgr (with_subscriptionMap1 (touch topic (subscriptionMap1 t)) t) b in
  if decide (handlers = ∅) then Ok (false, b)
  else r ← any_online (set_iter handlers) b; Ok (r, b).

(** [queryState (topics)]: a [State] is a topic and a flag. *)
Fixpoint queryState (topics : list str) (b : Broker) : result (list (str * bool) * Broker) :=
  match topics with
  | [] => Ok ([], b)
  | topic :: topics =>
      '(s, b) ← (if enableBuffering then isClientOnline_ topic b else isClientOnline topic b);
      '(rest, b) ← queryState topics b;
      Ok ((topic, s) :: rest, b)
  end.

(** *** The file *)

(** "nextAllocateClientId: " *)
Definition next_label : list Z :=
  [110; 101; 120; 116; 65; 108; 108; 111; 99; 97; 116; 101; 67; 108; 105; 101; 110; 116; 73; 100; 58].

(** What the loop of [saveSubscriptionInfoToDisk_] writes for one topic. *)
Definition show_entry (e : str * gset str) : list Z :=
  e.1 ++ [32] ++ show_int (Z.of_nat (size e.2)) ++ [32] ++ mjoin ((λ id, id ++ [32]) <$> set_iter e.2).

(** [saveSubscriptionInfoToDisk_ ()]. *)
Definition saveSubscriptionInfoToDisk_ (b : Broker) : Broker :=
  let t := br_mgr b in
  let m := (λ X, X ∖ {[ [] ]}) <$> delete [] (subscriptionMap t) in
  let ss := next_label ++ [32] ++ show_int (nextAllocateClientId t) ++ [32] ++ mjoin (show_entry <$> map_iter m) in
  with_disk (Some ss) (with_mgr (with_subscriptionMap m t) b).

(** The inner loop of the constructor: [n] subscribers of [topic]. *)
Fixpoint load_ids (n : nat) (topic : str) (i : istream) (b : Broker) : result (istream * Broker) :=
  match n with
  | O => Ok (i, b)
  | S n =>
      let '(currentSubscriber, i) := get_string [] i in
      _ ← assert_ (negb (i_eof i));
      b ← addSubscription_ topic currentSubscriber 0 b;
      load_ids n topic i b
  end.

(** The loop of the constructor over topics. *)
Fixpoint load_topics (fuel : nat) (topic : str) (subscriberCount : Z) (i : istream) (b : Broker) : result Broker :=
  match fuel with
  | O => Fault OutOfFuel
  | S fuel =>
      if i_eof i then Ok b
      else
        let '(subscriberCount, i) := get_int subscriberCount i in
        _ ← assert_ (negb (i_eof i));
        '(i, b) ← load_ids (Z.to_nat subscriberCount) topic i b;
        let '(topic, i) := get_string topic i in
        load_topics fuel topic subscriberCount i b
  end.

Definition empty_manager (next : Z) : TopicManager :=
  mkTopicManager ∅ ∅ next no_pending ∅ ∅ no_pending.

(** The constructor [TopicManager ()].  Without buffering the file is emptied
    and [nextAllocateClientId] is left as it is in memory. *)
Definition TopicManager_new (fuel : nat) (b : Broker) : result Broker :=
  if negb enableBuffering then
    let b := with_mgr (empty_manager uninit) b in
    Ok (match br_disk b with Some _ => with_disk (Some []) b | None => b end)
  else
    match br_disk b with
    | None => Ok (with_mgr (empty_manager 1) b)
    | Some text =>
        let i := mkIstream text false false in
        let '(_, i) := get_string [] i in
        let '(next, i) := get_int 0 i in
        if next =? 0 then Ok (with_mgr (empty_manager 1) b)
        else
          let '(topic, i) := get_string [] i in
          load_topics fuel topic 0 i (with_mgr (empty_manager next) b)
    end.

End operations.

(** ** Invariant *)

Section invariant.

Context {cfg : Settings}.

Definition handler_of (id : str) (b : Broker) : Z := default 0 (subscribers (br_mgr b) !! id).

Record inv (b : Broker) : Prop := mkInv {
  inv_buffered : linked (buffered (br_mgr b));
  inv_direct : linked (direct (br_mgr b));
  inv_live_ : dom (PubMap2 (br_mgr b)) ⊆ dom (br_msgs b);
  inv_live : dom (PubMap3 (br_mgr b)) ⊆ dom (br_msgs b);
  inv_apart : dom (PubMap2 (br_mgr b)) ## dom (PubMap3 (br_mgr b));
  inv_room_ : Z.of_nat (size (PubMap2 (br_mgr b))) ≤ MaxBufferSize;
  inv_room : Z.of_nat (size (PubMap3 (br_mgr b))) ≤ MaxBufferSize;
  inv_null : br_msgs b !! 0 = None;
  inv_ids : ∀ t, [] ∉ at_ t (subscriptionMap (br_mgr b));
  inv_unnamed : at_ [] (subscriptionMap (br_mgr b)) = ∅;
  inv_handlers_ : ∀ id, handler_of id b ≠ 0 → ∃ s, br_subs b !! handler_of id b = Some s ∧ sh_id s = id;
  inv_handlers : ∀ t h, h ∈ at_ t (subscriptionMap1 (br_mgr b)) → h ≠ 0 ∧ h ∈ dom (br_subs b);
  inv_topics : ∀ t h, h ∈ at_ t (subscriptionMap1 (br_mgr b)) → t ∈ at_ h (subscriptionMap2 (br_mgr b));
  inv_mode : if enableBuffering then ∀ t, at_ t (subscriptionMap1 (br_mgr b)) = ∅ else ∀ id, handler_of id b = 0 }.

(** What queueing messages leaves as it is: everything but the queues, the
    messages and the write masks it sets. *)
Record calm (b b' : Broker) : Prop := mkCalm {
  cm_map : same_sets (subscriptionMap (br_mgr b')) (subscriptionMap (br_mgr b));
  cm_map1 : same_sets (subscriptionMap1 (br_mgr b')) (subscriptionMap1 (br_mgr b));
  cm_map2 : subscriptionMap2 (br_mgr b') = subscriptionMap2 (br_mgr b);
  cm_next : nextAllocateClientId (br_mgr b') = nextAllocateClientId (br_mgr b);
  cm_now : br_now b' = br_now b;
  cm_disk : br_disk b' = br_disk b;
  cm_handler : ∀ id, handler_of id b' = handler_of id b;
  cm_subs : ∀ h, br_subs b' !! h = br_subs b !! h ∨
                 ∃ s, br_subs b !! h = Some s ∧ br_subs b' !! h = Some (with_writing true s) }.

#[global] Instance calm_preorder : PreOrder calm.
Proof.
  split.
  - intros b. split; try done. intros h. by left.
  - intros a b c [M M1 M2 N T D Hh Hs] [M' M1' M2' N' T' D' Hh' Hs'].
    split; try congruence.
    intros h. destruct (Hs' h) as [->|(s & Hb & ->)]; [apply Hs|]. right.
    destruct (Hs h) as [E|(s' & E & E')]; [exists s; by rewrite <- E|].
    exists s'. split; [done|]. rewrite E' in Hb. by simplify_eq.
Qed.

Lemma calm_dom b b' : calm b b' → dom (br_subs b') = dom (br_subs b).
Proof.
  intros Hc. apply set_eq. intros h. rewrite !elem_of_dom.
  destruct (cm_subs b b' Hc h) as [->|(s & -> & ->)]; [done|]. by split; eauto.
Qed.

(** A handler that is there stays, with its id. *)
Lemma calm_sub b b' h s :
  calm b b' → br_subs b !! h = Some s → ∃ s', br_subs b' !! h = Some s' ∧ sh_id s' = sh_id s ∧
    sh_recentActiveTime s' = sh_recentActiveTime s ∧ sh_stream s' = sh_stream s ∧ (sh_writing s = true → sh_writing s' = true).
Proof.
  intros Hc Hs. destruct (cm_subs b b' Hc h) as [E|(s' & E & E')].
  - exists s. by rewrite E.
  - exists (with_writing true s'). rewrite E'. simplify_eq. done.
Qed.

(** Less than that: what the part of the invariant that does not speak of queues needs. *)
Record quiet (b b' : Broker) : Prop := mkQuiet {
  qt_map : same_sets (subscriptionMap (br_mgr b')) (subscriptionMap (br_mgr b));
  qt_map1 : same_sets (subscriptionMap1 (br_mgr b')) (subscriptionMap1 (br_mgr b));
  qt_map2 : subscriptionMap2 (br_mgr b') = subscriptionMap2 (br_mgr b);
  qt_now : br_now b' = br_now b;
  qt_handler : ∀ id, handler_of id b' = handler_of id b;
  qt_subs : ∀ h s, br_subs b !! h = Some s → ∃ s', br_subs b' !! h = Some s' ∧ sh_id s' = sh_id s }.

#[global] Instance quiet_preorder : PreOrder quiet.
Proof.
  split.
  - intros b. split; try done. intros h s Hs. by exists s.
  - intros a b c [M M1 M2 T Hh Hs] [M' M1' M2' T' Hh' Hs']. split; try congruence.
    intros h s Ha. destruct (Hs h s Ha) as (s1 & H1 & E1). destruct (Hs' h s1 H1) as (s2 & H2 & E2).
    exists s2. split; [done|congruence].
Qed.

Lemma calm_quiet b b' : calm b b' → quiet b b'.
Proof.
  intros Hc. split; try apply Hc. intros h s Hs. destruct (calm_sub _ _ _ _ Hc Hs) as (s' & ? & ? & _). by exists s'.
Qed.

Lemma quiet_inv b b' :
  quiet b b' → inv b → linked (buffered (br_mgr b')) → linked (direct (br_mgr b')) →
  dom (PubMap2 (br_mgr b')) ⊆ dom (br_msgs b') → dom (PubMap3 (br_mgr b')) ⊆ dom (br_msgs b') →
  dom (PubMap2 (br_mgr b')) ## dom (PubMap3 (br_mgr b')) →
  Z.of_nat (size (PubMap2 (br_mgr b'))) ≤ MaxBufferSize → Z.of_nat (size (PubMap3 (br_mgr b'))) ≤ MaxBufferSize →
  br_msgs b' !! 0 = None → inv b'.
Proof.
  intros Hc Hi. intros. split; try done.
  - intros t. rewrite (qt_map _ _ Hc). apply Hi.
  - rewrite (qt_map _ _ Hc). apply Hi.
  - intros id. rewrite (qt_handler _ _ Hc). intros Hn. destruct (inv_handlers_ b Hi id Hn) as (s & Hs & Hid).
    destruct (qt_subs _ _ Hc _ _ Hs) as (s' & ? & Hid'). exists s'. split; [done|congruence].
  - intros t h. rewrite (qt_map1 _ _ Hc). intros [Hn [s Hs]%elem_of_dom]%(inv_handlers b Hi). split; [done|].
    destruct (qt_subs _ _ Hc _ _ Hs) as (s' & ? & _). by apply elem_of_dom.
  - intros t h. rewrite (qt_map1 _ _ Hc), (qt_map2 _ _ Hc). apply Hi.
  - pose proof (inv_mode b Hi) as Hm. destruct enableBuffering.
    + intros t. by rewrite (qt_map1 _ _ Hc).
    + intros id. by rewrite (qt_handler _ _ Hc).
Qed.

(** Steps that change no queue. *)
Lemma quiet_inv_same b b' :
  quiet b b' → inv b → buffered (br_mgr b') = buffered (br_mgr b) → direct (br_mgr b') = direct (br_mgr b) →
  dom (br_msgs b') = dom (br_msgs b) → inv b'.
Proof.
  intros Hc Hi Hb Hd Hm. apply (quiet_inv b); try done; unfold PubMap2, PubMap3; rewrite ?Hb, ?Hd, ?Hm; try apply Hi.
  apply not_elem_of_dom. rewrite Hm. apply not_elem_of_dom, Hi.
Qed.

(** Queueing messages is calm. *)
Lemma calm_inv b b' :
  calm b b' → inv b → linked (buffered (br_mgr b')) → linked (direct (br_mgr b')) →
  dom (PubMap2 (br_mgr b')) ⊆ dom (br_msgs b') → dom (PubMap3 (br_mgr b')) ⊆ dom (br_msgs b') →
  dom (PubMap2 (br_mgr b')) ## dom (PubMap3 (br_mgr b')) →
  Z.of_nat (size (PubMap2 (br_mgr b'))) ≤ MaxBufferSize → Z.of_nat (size (PubMap3 (br_mgr b'))) ≤ MaxBufferSize →
  br_msgs b' !! 0 = None → inv b'.
Proof. intros Hc. by apply quiet_inv, calm_quiet. Qed.

End invariant.

(** A message is queued for [c]. *)
Abbreviation queued_ b c p := (p ∈ at_ c (PubMap1 (br_mgr b))).
Abbreviation queued b h p := (p ∈ at_ h (PubMap4 (br_mgr b))).

(** *** Deleting messages *)

Lemma delete_msg_ok p b :
  p ≠ 0 → p ∈ dom (br_msgs b) → delete_msg p b = Ok (with_msgs (delete p (br_msgs b)) b).
Proof.
  intros Hp [m Hm]%elem_of_dom. unfold delete_msg, deref. rewrite (proj2 (Z.eqb_neq _ _)), Hm by done. done.
Qed.

Lemma delete_msgs_ok l b :
  NoDup l → 0 ∉ l → (∀ p, p ∈ l → p ∈ dom (br_msgs b)) →
  ∃ ms, foreach delete_msg l b = Ok (with_msgs ms b) ∧
        ∀ p, ms !! p = if decide (p ∈ l) then None else br_msgs b !! p.
Proof.
  intros Hnd. revert b. induction Hnd as [|x l Hx _ IH]; intros b H0 Hl.
  - exists (br_msgs b). split; [by destruct b|]. intros p. by rewrite decide_False by set_solver.
  - cbn [foreach]. rewrite delete_msg_ok by set_solver. rewrite bind_Ok.
    destruct (IH (with_msgs (delete x (br_msgs b)) b)) as (ms & Hms & Hlk); [set_solver| |].
    { intros p Hp. cbn. rewrite dom_delete_L. assert (p ≠ x) by (by intros ->). set_solver. }
    exists ms. split; [exact Hms|]. intros p. rewrite Hlk. cbn [br_msgs with_msgs].
    destruct (decide (p ∈ l)); [by rewrite decide_True by set_solver|].
    destruct (decide (p = x)) as [->|]; [by rewrite lookup_delete_eq, decide_True by set_solver|].
    by rewrite lookup_delete_ne, decide_False by set_solver.
Qed.

(** *** The size limit *)

Section theorems.

Context {cfg : Settings} {un : Uninit}.

(** [checkBufferSize_]: below the limit nothing happens; at the limit all
    queued messages are deleted, each once. *)
Lemma checkBufferSize_ok_ b :
  inv b → ∃ b', checkBufferSize_ b = Ok b' ∧ inv b' ∧ calm b b' ∧ br_subs b' = br_subs b ∧
    subscriptionMap (br_mgr b') = subscriptionMap (br_mgr b) ∧ direct (br_mgr b') = direct (br_mgr b) ∧
    Z.of_nat (size (PubMap2 (br_mgr b'))) < MaxBufferSize ∧
    buffered (br_mgr b') = (if Z.of_nat (size (PubMap2 (br_mgr b))) >=? MaxBufferSize then no_pending else buffered (br_mgr b)) ∧
    (∀ p, p ∉ dom (PubMap2 (br_mgr b)) → br_msgs b' !! p = br_msgs b !! p) ∧
    (∀ p, p ∈ dom (PubMap2 (br_mgr b)) →
       br_msgs b' !! p = if Z.of_nat (size (PubMap2 (br_mgr b))) >=? MaxBufferSize then None else br_msgs b !! p).
Proof.
  intros Hi. unfold checkBufferSize_. destruct (_ >=? _) eqn:E.
  - destruct (delete_msgs_ok (set_iter (dom (PubMap2 (br_mgr b)))) b) as (ms & -> & Hms).
    { apply NoDup_set_iter. }
    { rewrite elem_of_set_iter. intros H0%(inv_live_ b Hi). apply elem_of_dom in H0 as [m Hm]. by rewrite (inv_null b Hi) in Hm. }
    { intros p Hp%elem_of_set_iter. by apply (inv_live_ b Hi). }
    rewrite bind_Ok. set (b' := with_mgr _ _). exists b'.
    assert (calm b b') as Hc by (split; try done; intros; by left).
    assert (∀ p, p ∉ dom (PubMap2 (br_mgr b)) → br_msgs b' !! p = br_msgs b !! p) as Hkeep.
    { intros p Hp. cbn. rewrite Hms, decide_False; [done|]. by rewrite elem_of_set_iter. }
    split; [done|]. split; [|split_and!; try done; intros p Hp; cbn; rewrite Hms, decide_True; [done|by rewrite elem_of_set_iter]].
    apply (calm_inv b); try done; try apply Hi; try apply no_pending_linked.
    + cbn. intros p Hp. pose proof (inv_live b Hi p Hp) as Hl. rewrite elem_of_dom in Hl |- *.
      rewrite Hms, decide_False; [done|]. rewrite elem_of_set_iter. pose proof (inv_apart b Hi). set_solver.
    + cbn. rewrite Hms. destruct (decide _); [done|apply Hi].
  - exists b. split_and!; try done. rewrite Z.geb_leb in E. b2p. done.
Qed.

(** Queueing for one client. *)
Lemma queue_for_ok_ p id b :
  inv b → id ≠ [] → ∃ b', queue_for_ p id b = Ok b' ∧ calm b b' ∧ br_msgs b' = br_msgs b ∧
    direct (br_mgr b') = direct (br_mgr b) ∧ buffered (br_mgr b') = enqueue id p (buffered (br_mgr b)) ∧
    subscriptionMap (br_mgr b') = subscriptionMap (br_mgr b) ∧
    (handler_of id b ≠ 0 → ∃ s, br_subs b' !! handler_of id b = Some s ∧ sh_writing s = true).
Proof.
  intros Hi Hid. unfold queue_for_. rewrite bool_decide_eq_false_2 by done. cbn [negb assert_]. rewrite bind_Ok.
  fold (handler_of id b). destruct (Z.eqb_spec (handler_of id b) 0) as [H0|H0].
  - cbn [negb]. rewrite bind_Ok. eexists. split; [done|]. split; [|done].
    split; try done; [|intros; by left]. intros id'. unfold handler_of at 1. cbn.
    destruct (decide (id' = id)) as [->|]; [by rewrite lookup_insert_eq|]. by rewrite lookup_insert_ne.
  - destruct (inv_handlers_ b Hi id H0) as (s & Hs & _). cbn [negb]. unfold registerWriteMask, deref.
    cbn [br_subs with_mgr]. rewrite (proj2 (Z.eqb_neq _ _)), Hs, !bind_Ok by done.
    eexists. split; [done|]. split; [|split_and!; try done; cbn; rewrite lookup_insert_eq; eauto].
    split; try done.
    + intros id'. unfold handler_of at 1. cbn.
      destruct (decide (id' = id)) as [->|]; [by rewrite lookup_insert_eq|]. by rewrite lookup_insert_ne.
    + intros h. cbn. destruct (decide (h = handler_of id b)) as [->|]; [|left; by rewrite lookup_insert_ne].
      right. exists s. by rewrite lookup_insert_eq.
Qed.

(** While [addMessage_] queues [p], begun in [b0], for the clients in [l]. *)
Record queueing_ (p : Z) (b0 : Broker) (l : list str) (b : Broker) : Prop := mkQueueing_ {
  qg_inv_ : inv b;
  qg_calm_ : calm b0 b;
  qg_msgs_ : br_msgs b = br_msgs b0;
  qg_direct_ : direct (br_mgr b) = direct (br_mgr b0);
  qg_dom_ : dom (PubMap2 (br_mgr b)) ⊆ {[p]} ∪ dom (PubMap2 (br_mgr b0));
  qg_queued_ : ∀ c q, queued_ b c q ↔ queued_ b0 c q ∨ (c ∈ l ∧ q = p);
  qg_told_ : ∀ c, c ∈ l → handler_of c b0 ≠ 0 →
               ∃ s, br_subs b !! handler_of c b0 = Some s ∧ sh_writing s = true }.

Lemma queue_step_ p b0 l c b :
  queueing_ p b0 l b → inv b0 → Z.of_nat (size (PubMap2 (br_mgr b0))) < MaxBufferSize →
  p ∈ dom (br_msgs b0) → p ∉ dom (PubMap3 (br_mgr b0)) → c ≠ [] →
  ∃ b', queue_for_ p c b = Ok b' ∧ queueing_ p b0 (l ++ [c]) b'.
Proof.
  intros [His Hcs Hms Hds Hdom Hqs Hws] Hi0 Hsz Hlive Hn3 Hne.
  destruct (queue_for_ok_ p c b His Hne) as (b' & -> & Hcs' & Hms' & Hds' & Hbs' & _ & Hws').
  exists b'. split; [done|].
  assert (dom (PubMap2 (br_mgr b')) ⊆ {[p]} ∪ dom (PubMap2 (br_mgr b0))) as Hdom'.
  { unfold PubMap2 at 1. rewrite Hbs', enqueue_dom. fold (PubMap2 (br_mgr b)). set_solver. }
  assert (PubMap3 (br_mgr b') = PubMap3 (br_mgr b0)) as H3 by (unfold PubMap3; congruence).
  split; try done; try congruence.
  - apply (calm_inv b); try done; rewrite ?H3, ?Hms', ?Hms, ?Hds', ?Hds; try apply Hi0.
    + rewrite Hbs'. apply enqueue_linked, His.
    + pose proof (inv_live_ b0 Hi0). set_solver.
    + pose proof (inv_apart b0 Hi0). set_solver.
    + apply subseteq_size in Hdom'. rewrite size_dom, size_union_alt, size_singleton in Hdom'.
      assert (size (dom (PubMap2 (br_mgr b0)) ∖ {[p]}) ≤ size (PubMap2 (br_mgr b0)))%nat; [|lia].
      rewrite <- size_dom. apply subseteq_size. set_solver.
  - by etrans.
  - intros c' q. unfold PubMap1 at 1. rewrite Hbs', enqueue_pairs. fold (PubMap1 (br_mgr b)). rewrite Hqs. set_solver.
  - intros c' Hc' Hh. apply elem_of_app in Hc' as [Hc'| ->%list_elem_of_singleton].
    + destruct (Hws c' Hc' Hh) as (x & Hx & Hxw). destruct (calm_sub _ _ _ _ Hcs' Hx) as (x' & ? & _ & _ & _ & ?). eauto.
    + rewrite <- (cm_handler _ _ Hcs) in Hh |- *. auto.
Qed.

(** [addMessage_]: after the size check, [p] is queued for exactly the
    subscribers of its topic, and those that are connected are told. *)
Lemma addMessage_ok_ p m b :
  inv b → p ≠ 0 → br_msgs b !! p = Some m → p ∉ dom (PubMap2 (br_mgr b)) → p ∉ dom (PubMap3 (br_mgr b)) →
  ∃ b1 b', checkBufferSize_ b = Ok b1 ∧ addMessage_ p b = Ok b' ∧ inv b' ∧ calm b b' ∧ br_msgs b' = br_msgs b1 ∧
    direct (br_mgr b') = direct (br_mgr b) ∧
    (∀ c q, queued_ b' c q ↔ queued_ b1 c q ∨ (c ∈ at_ (m_topic (msg_of m)) (subscriptionMap (br_mgr b)) ∧ q = p)) ∧
    (∀ c, c ∈ at_ (m_topic (msg_of m)) (subscriptionMap (br_mgr b)) → handler_of c b ≠ 0 →
          ∃ s, br_subs b' !! handler_of c b = Some s ∧ sh_writing s = true).
Proof.
  intros Hi Hp Hm Hn2 Hn3.
  destruct (checkBufferSize_ok_ b Hi) as (b1 & Hb1 & Hi1 & Hc1 & Hsubs1 & Hmap1 & Hd1 & Hsz & Hq1 & Hkeep & _).
  exists b1. unfold addMessage_. rewrite (proj2 (Z.eqb_neq _ _)) by done. cbn [negb assert_]. rewrite bind_Ok, Hb1, bind_Ok.
  unfold deref. rewrite (proj2 (Z.eqb_neq _ _)), Hkeep, Hm, bind_Ok by done. unfold getSubscribersOfTopic_.
  set (topic := m_topic _). rewrite Hmap1. set (X := at_ topic (subscriptionMap (br_mgr b))).
  set (b2 := with_mgr _ b1).
  assert (calm b1 b2) as Hc2 by (split; try done; [cbn; by rewrite touch_same, Hmap1|intros; by left]).
  assert (inv b2) as Hi2 by (apply (calm_inv b1); try done; apply Hi1).
  destruct (foreach_ok (queue_for_ p) (queueing_ p b2) (set_iter X) b2) as (b' & Hrun & [Hi' Hc' Hmsgs Hdir _ Hqd Hwr]).
  - split; try done; set_solver.
  - intros l1 c l2 s Hl Hq. apply queue_step_; try done.
    + apply elem_of_dom. cbn. rewrite Hkeep; eauto.
    + cbn. unfold PubMap3. cbn. by rewrite Hd1.
    + assert (c ∈ X) as Hcx by (rewrite <- elem_of_set_iter, Hl; set_solver).
      intros ->. by apply (inv_ids b Hi topic).
  - exists b'. split_and!; try done.
    + by do 2 (etrans; [eassumption|]).
    + rewrite Hdir. exact Hd1.
    + intros c q. rewrite Hqd. by rewrite elem_of_set_iter.
    + intros c Hcx. rewrite <- (cm_handler _ _ Hc1), <- (cm_handler _ _ Hc2). apply Hwr. by rewrite elem_of_set_iter.
Qed.

(** *** The same without buffering *)

Lemma checkBufferSize_ok b :
  inv b → ∃ b', checkBufferSize b = Ok b' ∧ inv b' ∧ calm b b' ∧ br_subs b' = br_subs b ∧
    subscriptionMap1 (br_mgr b') = subscriptionMap1 (br_mgr b) ∧ buffered (br_mgr b') = buffered (br_mgr b) ∧
    Z.of_nat (size (PubMap3 (br_mgr b'))) < MaxBufferSize ∧
    direct (br_mgr b') = (if Z.of_nat (size (PubMap3 (br_mgr b))) >=? MaxBufferSize then no_pending else direct (br_mgr b)) ∧
    (∀ p, p ∉ dom (PubMap3 (br_mgr b)) → br_msgs b' !! p = br_msgs b !! p) ∧
    (∀ p, p ∈ dom (PubMap3 (br_mgr b)) →
       br_msgs b' !! p = if Z.of_nat (size (PubMap3 (br_mgr b))) >=? MaxBufferSize then None else br_msgs b !! p).
Proof.
  intros Hi. unfold checkBufferSize. destruct (_ >=? _) eqn:E.
  - destruct (delete_msgs_ok (set_iter (dom (PubMap3 (br_mgr b)))) b) as (ms & -> & Hms).
    { apply NoDup_set_iter. }
    { rewrite elem_of_set_iter. intros H0%(inv_live b Hi). apply elem_of_dom in H0 as [m Hm]. by rewrite (inv_null b Hi) in Hm. }
    { intros p Hp%elem_of_set_iter. by apply (inv_live b Hi). }
    rewrite bind_Ok. set (b' := with_mgr _ _). exists b'.
    assert (calm b b') as Hc by (split; try done; intros; by left).
    assert (∀ p, p ∉ dom (PubMap3 (br_mgr b)) → br_msgs b' !! p = br_msgs b !! p) as Hkeep.
    { intros p Hp. cbn. rewrite Hms, decide_False; [done|]. by rewrite elem_of_set_iter. }
    split; [done|]. split; [|split_and!; try done; intros p Hp; cbn; rewrite Hms, decide_True; [done|by rewrite elem_of_set_iter]].
    apply (calm_inv b); try done; try apply Hi; try apply no_pending_linked.
    + cbn. intros p Hp. pose proof (inv_live_ b Hi p Hp) as Hl. rewrite elem_of_dom in Hl |- *.
      rewrite Hms, decide_False; [done|]. rewrite elem_of_set_iter. pose proof (inv_apart b Hi). set_solver.
    + cbn. rewrite Hms. destruct (decide _); [done|apply Hi].
  - exists b. split_and!; try done. rewrite Z.geb_leb in E. b2p. done.
Qed.

(** The handlers [addMessage] queues for: those that have been heard of lately. *)
Definition active (b : Broker) (h : Z) : bool :=
  match br_subs b !! h with Some s => isActive s b | None => false end.

Lemma calm_active b b' h : calm b b' → active b' h = active b h.
Proof.
  intros Hc. unfold active, isActive. rewrite (cm_now _ _ Hc).
  by destruct (cm_subs _ _ Hc h) as [->|(s & -> & ->)].
Qed.

Record queueing (p : Z) (b0 : Broker) (l : list Z) (b : Broker) : Prop := mkQueueing {
  qg_inv : inv b;
  qg_calm : calm b0 b;
  qg_msgs : br_msgs b = br_msgs b0;
  qg_buffered : buffered (br_mgr b) = buffered (br_mgr b0);
  qg_dom : dom (PubMap3 (br_mgr b)) ⊆ {[p]} ∪ dom (PubMap3 (br_mgr b0));
  qg_queued : ∀ h q, queued b h q ↔ queued b0 h q ∨ (h ∈ l ∧ active b0 h = true ∧ q = p);
  qg_told : ∀ h, h ∈ l → active b0 h = true → ∃ s, br_subs b !! h = Some s ∧ sh_writing s = true }.

Lemma queue_step p b0 l h b :
  queueing p b0 l b → inv b0 → Z.of_nat (size (PubMap3 (br_mgr b0))) < MaxBufferSize →
  p ∈ dom (br_msgs b0) → p ∉ dom (PubMap2 (br_mgr b0)) → h ≠ 0 → h ∈ dom (br_subs b0) →
  ∃ b', queue_for p h b = Ok b' ∧ queueing p b0 (l ++ [h]) b'.
Proof.
  intros [His Hcs Hms Hds Hdom Hqs Hws] Hi0 Hsz Hlive Hn2 Hne Hh.
  rewrite <- (calm_dom _ _ Hcs) in Hh. apply elem_of_dom in Hh as [s Hs].
  unfold queue_for, registerWriteMask, deref. rewrite !(proj2 (Z.eqb_neq _ _)), !Hs by done. cbn [negb]. rewrite bind_Ok.
  assert (isActive s b = active b0 h) as -> by (rewrite <- (calm_active _ _ h Hcs); unfold active; by rewrite Hs).
  destruct (active b0 h) eqn:Ea.
  - rewrite !bind_Ok. eexists. split; [done|]. set (b' := with_mgr _ _).
    assert (calm b b') as Hc'.
    { split; try done. intros j. cbn. destruct (decide (j = h)) as [->|]; [|left; by rewrite lookup_insert_ne].
      right. exists s. by rewrite lookup_insert_eq. }
    assert (dom (PubMap3 (br_mgr b')) ⊆ {[p]} ∪ dom (PubMap3 (br_mgr b0))) as Hdom'.
    { unfold PubMap3 at 1, b'. cbn -[enqueue]. rewrite enqueue_dom. fold (PubMap3 (br_mgr b)). set_solver. }
    split; try done; [|by etrans|..].
    + apply (calm_inv b); try done; try apply His.
      * apply enqueue_linked, His.
      * change (br_msgs b') with (br_msgs b). rewrite Hms. pose proof (inv_live b0 Hi0). set_solver.
      * pose proof (inv_apart b0 Hi0). unfold PubMap2. change (buffered (br_mgr b')) with (buffered (br_mgr b)). rewrite Hds.
        fold (PubMap2 (br_mgr b0)). set_solver.
      * apply subseteq_size in Hdom'. rewrite size_dom, size_union_alt, size_singleton in Hdom'.
        assert (size (dom (PubMap3 (br_mgr b0)) ∖ {[p]}) ≤ size (PubMap3 (br_mgr b0)))%nat; [|lia].
        rewrite <- size_dom. apply subseteq_size. set_solver.
    + intros h' q. unfold PubMap4, b'. cbn -[enqueue]. rewrite enqueue_pairs. fold (PubMap4 (br_mgr b)). rewrite Hqs.
      clear -Ea. set_solver.
    + intros h' Hl Ha. apply elem_of_app in Hl as [Hl| ->%list_elem_of_singleton].
      * destruct (Hws h' Hl Ha) as (x & Hx & Hxw). destruct (calm_sub _ _ _ _ Hc' Hx) as (x' & ? & _ & _ & _ & ?). eauto.
      * cbn. rewrite lookup_insert_eq. eauto.
  - exists b. split; [done|]. split; try done.
    + intros h' q. rewrite Hqs, elem_of_app, list_elem_of_singleton. split; [tauto|].
      intros [?|([?| ->] & ? & ?)]; [tauto..|congruence].
    + intros h' Hl Ha. apply elem_of_app in Hl as [Hl| ->%list_elem_of_singleton]; [eauto|congruence].
Qed.

(** [addMessage]: [p] is queued for exactly the active handlers that subscribed to its topic. *)
Lemma addMessage_ok p m b :
  inv b → p ≠ 0 → br_msgs b !! p = Some m → p ∉ dom (PubMap2 (br_mgr b)) → p ∉ dom (PubMap3 (br_mgr b)) →
  ∃ b1 b', checkBufferSize b = Ok b1 ∧ addMessage p b = Ok b' ∧ inv b' ∧ calm b b' ∧ br_msgs b' = br_msgs b1 ∧
    buffered (br_mgr b') = buffered (br_mgr b) ∧
    (∀ h q, queued b' h q ↔ queued b1 h q ∨
       (h ∈ at_ (m_topic (msg_of m)) (subscriptionMap1 (br_mgr b)) ∧ active b h = true ∧ q = p)) ∧
    (∀ h, h ∈ at_ (m_topic (msg_of m)) (subscriptionMap1 (br_mgr b)) → active b h = true →
          ∃ s, br_subs b' !! h = Some s ∧ sh_writing s = true).
Proof.
  intros Hi Hp Hm Hn2 Hn3.
  destruct (checkBufferSize_ok b Hi) as (b1 & Hb1 & Hi1 & Hc1 & Hsubs1 & Hmap1 & Hd1 & Hsz & Hq1 & Hkeep & _).
  exists b1. unfold addMessage. rewrite (proj2 (Z.eqb_neq _ _)) by done. cbn [negb assert_]. rewrite bind_Ok, Hb1, bind_Ok.
  unfold deref. rewrite (proj2 (Z.eqb_neq _ _)), Hkeep, Hm, bind_Ok by done.
  set (topic := m_topic _). rewrite Hmap1. set (X := at_ topic (subscriptionMap1 (br_mgr b))).
  set (b2 := with_mgr _ b1).
  assert (calm b1 b2) as Hc2 by (split; try done; [cbn; by rewrite touch_same, Hmap1|intros; by left]).
  assert (calm b b2) as Hc by (by etrans).
  assert (inv b2) as Hi2 by (apply (calm_inv b1); try done; apply Hi1).
  destruct (foreach_ok (queue_for p) (queueing p b2) (set_iter X) b2) as (b' & Hrun & [Hi' Hc' Hmsgs Hdir _ Hqd Hwr]).
  - split; try done; set_solver.
  - intros l1 h l2 s Hl Hq. assert (h ∈ X) as Hcx by (rewrite <- elem_of_set_iter, Hl; set_solver).
    apply queue_step; try done.
    + apply elem_of_dom. cbn. rewrite Hkeep; eauto.
    + cbn. unfold PubMap2. cbn. by rewrite Hd1.
    + by apply (inv_handlers b Hi topic).
    + rewrite (calm_dom _ _ Hc). by apply (inv_handlers b Hi topic).
  - exists b'. split_and!; try done.
    + by etrans.
    + rewrite Hdir. exact Hd1.
    + intros h q. rewrite Hqd, elem_of_set_iter. by rewrite (calm_active _ _ _ Hc).
    + intros h Hx Ha. apply Hwr; [by rewrite elem_of_set_iter|]. by rewrite (calm_active _ _ _ Hc).
Qed.

(** *** Subscriptions *)

Lemma addSubscription_ok_ topic id h b :
  inv b → enableBuffering = true → topic ≠ [] → id ≠ [] →
  (h ≠ 0 → ∃ s, br_subs b !! h = Some s ∧ sh_id s = id) →
  ∃ b', addSubscription_ topic id h b = Ok b' ∧ inv b' ∧ handler_of id b' = h ∧
    br_msgs b' = br_msgs b ∧ br_subs b' = br_subs b ∧ br_disk b' = br_disk b ∧
    buffered (br_mgr b') = buffered (br_mgr b) ∧ nextAllocateClientId (br_mgr b') = nextAllocateClientId (br_mgr b) ∧
    (∀ t c, c ∈ at_ t (subscriptionMap (br_mgr b')) ↔ c ∈ at_ t (subscriptionMap (br_mgr b)) ∨ (t = topic ∧ c = id)) ∧
    (∀ c, c ≠ id → handler_of c b' = handler_of c b) ∧ direct (br_mgr b') = direct (br_mgr b).
Proof.
  intros Hi Hb Ht Hid Hh. unfold addSubscription_.
  rewrite (bool_decide_eq_false_2 (topic = [])), (bool_decide_eq_false_2 (id = [])) by done. cbn [negb assert_]. rewrite !bind_Ok.
  cbn [subscribers with_subscriptionMap with_subscribers subscriptionMap]. rewrite lookup_insert_eq, bool_decide_eq_true_2 by done.
  set (b' := with_mgr _ b). cbn [assert_]. rewrite bind_Ok.
  assert (∀ c, handler_of c b' = if decide (c = id) then h else handler_of c b) as Hho.
  { intros c. unfold handler_of, b'. cbn. destruct (decide (c = id)) as [->|]; [by rewrite lookup_insert_eq|by rewrite lookup_insert_ne]. }
  assert (∀ t c, c ∈ at_ t (subscriptionMap (br_mgr b')) ↔ c ∈ at_ t (subscriptionMap (br_mgr b)) ∨ (t = topic ∧ c = id)) as Hmap.
  { intros t c. unfold b'. cbn. rewrite at_insert_at. destruct (decide (t = topic)) as [->|]; set_solver. }
  exists b'. split; [|split; [|split_and!; try done]].
  - destruct (Z.eqb_spec h 0) as [->|Hn]; [done|]. cbn [negb]. destruct (Hh Hn) as (s & Hs & _).
    unfold deref. by rewrite (proj2 (Z.eqb_neq _ _)), Hs by done.
  - split; try apply Hi.
    + intros t. rewrite Hmap. intros [?%(inv_ids b Hi)|[_ ?]]; done.
    + apply set_eq. intros c. rewrite Hmap, (inv_unnamed b Hi). set_solver.
    + intros c. rewrite Hho. destruct (decide (c = id)) as [->|]; [exact Hh|apply Hi].
    + pose proof (inv_mode b Hi) as Hm. by rewrite Hb in Hm |- *.
  - by rewrite Hho, decide_True.
  - intros c Hc. by rewrite Hho, decide_False.
Qed.

Lemma removeSubscription_ok_ topic id b :
  inv b → inv (removeSubscription_ topic id b) ∧
  ∀ t c, c ∈ at_ t (subscriptionMap (br_mgr (removeSubscription_ topic id b))) ↔
         c ∈ at_ t (subscriptionMap (br_mgr b)) ∧ ¬ (t = topic ∧ c = id).
Proof.
  intros Hi. assert (∀ t c, c ∈ at_ t (subscriptionMap (br_mgr (removeSubscription_ topic id b))) ↔
         c ∈ at_ t (subscriptionMap (br_mgr b)) ∧ ¬ (t = topic ∧ c = id)) as Hmap.
  { intros t c. cbn. rewrite at_erase_at. destruct (decide (t = topic)) as [->|]; set_solver. }
  split; [|done]. split; try apply Hi.
  - intros t. rewrite Hmap. intros [?%(inv_ids b Hi) _]; done.
  - apply set_eq. intros c. rewrite Hmap, (inv_unnamed b Hi). set_solver.
Qed.

(** Saving leaves the subscriptions as they are. *)
Lemma save_ok b :
  inv b → let b' := saveSubscriptionInfoToDisk_ b in inv b' ∧ quiet b b'.
Proof.
  intros Hi b'. assert (quiet b b') as Hq; [|split; [by apply (quiet_inv_same b)|done]].
  split; try done; [|intros h s Hs; by exists s].
  intros t. pose proof (inv_ids b Hi t) as Hid. pose proof (inv_unnamed b Hi) as Hun. unfold b', at_ in *. cbn. rewrite lookup_fmap.
  destruct (decide (t = [])) as [->|]; [rewrite lookup_delete_eq; cbn; by rewrite Hun|rewrite lookup_delete_ne by done].
  destruct (subscriptionMap (br_mgr b) !! t); cbn in *; [set_solver|done].
Qed.

(** A handler is destroyed: its id stays known, with no handler. *)
Lemma handler_delete_ok_ h s b :
  inv b → enableBuffering = true → h ≠ 0 → br_subs b !! h = Some s → sh_tmpMsg s = 0 → sh_id s ≠ [] →
  ∃ b', SubscriberHandler_delete h b = Ok b' ∧ inv b' ∧ subscriptionMap (br_mgr b') = subscriptionMap (br_mgr b) ∧
    br_msgs b' = br_msgs b ∧ buffered (br_mgr b') = buffered (br_mgr b) ∧ handler_of (sh_id s) b' = 0 ∧
    br_subs b' = delete h (br_subs b).
Proof.
  intros Hi Hb Hh Hs Ht Hid. unfold SubscriberHandler_delete, deref. rewrite (proj2 (Z.eqb_neq _ _)), Hs, bind_Ok, Hb by done.
  rewrite bool_decide_eq_false_2, Ht by done. cbn [Z.eqb assert_]. rewrite bind_Ok. eexists. split; [done|].
  set (b' := with_subs _ _).
  assert (∀ c, handler_of c b' = if decide (c = sh_id s) then 0 else handler_of c b) as Hho.
  { intros c. unfold handler_of, b'. cbn. destruct (decide _) as [->|]; [by rewrite lookup_insert_eq|by rewrite lookup_insert_ne]. }
  split; [|split_and!; try done; by rewrite Hho, decide_True].
  pose proof (inv_mode b Hi) as Hm. rewrite Hb in Hm. split; try apply Hi.
  - intros c. rewrite Hho. destruct (decide _) as [|Hne]; [done|]. intros Hn.
    destruct (inv_handlers_ b Hi c Hn) as (s' & Hs' & Hc). exists s'. split; [|done].
    unfold b'. cbn. rewrite lookup_delete_ne; [done|]. intros ->. simplify_eq.
  - intros t x. unfold b'. cbn. rewrite Hm. set_solver.
  - rewrite Hb. exact Hm.
Qed.

(** *** A message has been sent *)

Lemma queued_live_ b c p : inv b → queued_ b c p → p ≠ 0 ∧ p ∈ dom (PubMap2 (br_mgr b)) ∧ p ∈ dom (br_msgs b).
Proof.
  intros Hi Hq. assert (p ∈ dom (PubMap2 (br_mgr b))) as Hd by (apply pending_dom; [apply Hi|by exists c]).
  pose proof (inv_live_ b Hi p Hd) as Hl. split_and!; try done. intros ->.
  apply elem_of_dom in Hl as [m Hm]. by rewrite (inv_null b Hi) in Hm.
Qed.

Lemma queued_live b h p : inv b → queued b h p → p ≠ 0 ∧ p ∈ dom (PubMap3 (br_mgr b)) ∧ p ∈ dom (br_msgs b).
Proof.
  intros Hi Hq. assert (p ∈ dom (PubMap3 (br_mgr b))) as Hd by (apply pending_dom; [apply Hi|by exists h]).
  pose proof (inv_live b Hi p Hd) as Hl. split_and!; try done. intros ->.
  apply elem_of_dom in Hl as [m Hm]. by rewrite (inv_null b Hi) in Hm.
Qed.

(** Queues that shrink, and at most a message that is in none of them deleted. *)
Lemma shrink_inv b b' p :
  calm b b' → inv b → linked (buffered (br_mgr b')) → linked (direct (br_mgr b')) →
  dom (PubMap2 (br_mgr b')) ⊆ dom (PubMap2 (br_mgr b)) → dom (PubMap3 (br_mgr b')) ⊆ dom (PubMap3 (br_mgr b)) →
  (br_msgs b' = br_msgs b ∨
    (br_msgs b' = delete p (br_msgs b) ∧ (p ∉ dom (PubMap2 (br_mgr b'))) ∧ (p ∉ dom (PubMap3 (br_mgr b'))))) →
  inv b'.
Proof.
  intros Hc Hi Hb Hd H2 H3 Hm. pose proof (inv_live_ b Hi) as L2. pose proof (inv_live b Hi) as L3.
  pose proof (inv_apart b Hi) as Ha. pose proof (subseteq_size _ _ H2) as S2. pose proof (subseteq_size _ _ H3) as S3.
  rewrite !size_dom in S2. rewrite !size_dom in S3. pose proof (inv_room_ b Hi). pose proof (inv_room b Hi). pose proof (inv_null b Hi) as Hn.
  apply (calm_inv b); try done; try lia; try (clear -Ha H2 H3; set_solver); destruct Hm as [->|(-> & N2 & N3)]; try done.
  - clear -L2 H2. set_solver.
  - rewrite dom_delete_L. clear -L2 H2 N2. set_solver.
  - clear -L3 H3. set_solver.
  - rewrite dom_delete_L. clear -L3 H3 N3. set_solver.
  - destruct (decide (p = 0)) as [->|]; [by rewrite lookup_delete_eq|]. by rewrite lookup_delete_ne.
Qed.

Lemma onMessageSent_ok_ p c b :
  inv b → queued_ b c p →
  ∃ b', onMessageSent_ p c b = Ok b' ∧ inv b' ∧ calm b b' ∧ br_subs b' = br_subs b ∧ direct (br_mgr b') = direct (br_mgr b) ∧
    (∀ c' q, queued_ b' c' q ↔ queued_ b c' q ∧ ¬ (c' = c ∧ q = p)) ∧
    br_msgs b' = (if bool_decide (at_ p (PubMap2 (br_mgr b)) ⊆ {[c]}) then delete p (br_msgs b) else br_msgs b) ∧
    dom (PubMap2 (br_mgr b')) = (if bool_decide (at_ p (PubMap2 (br_mgr b)) ⊆ {[c]})
                                 then dom (PubMap2 (br_mgr b)) ∖ {[p]} else dom (PubMap2 (br_mgr b))).
Proof.
  intros Hi Hq. destruct (queued_live_ b c p Hi Hq) as (Hp & Hd & Hl). unfold onMessageSent_.
  pose proof (dequeue_linked p c _ (inv_buffered b Hi)) as Hlk. pose proof (dequeue_last p c (buffered (br_mgr b))) as Hlast.
  pose proof (dequeue_dom p c (buffered (br_mgr b)) Hd) as Hdom.
  pose proof (λ c' q, dequeue_pairs p c _ c' q (inv_buffered b Hi)) as Hpairs.
  destruct (dequeue p c _) as [last q]. cbn [fst snd] in *. fold (PubMap2 (br_mgr b)) in Hlast, Hdom. rewrite <- Hlast. clear Hlast.
  pose proof (inv_apart b Hi) as Ha. pose proof (inv_direct b Hi) as Hdl.
  set (bq := with_mgr _ b). set (b' := if last then with_msgs (delete p (br_msgs b)) bq else bq).
  exists b'. assert (calm b b') as Hc by (unfold b'; destruct last; split; try done; intros; by left).
  split; [unfold b'; destruct last; [exact (delete_msg_ok p bq Hp Hl)|done]|]. split; [|by unfold b'; destruct last].
  apply (shrink_inv b b' p Hc Hi); unfold b'; destruct last; try done; unfold PubMap2; cbn -[PubMap2 PubMap3]; try (rewrite Hdom; set_solver); try (by left).
Qed.

Lemma onMessageSent_ok p h b :
  inv b → queued b h p →
  ∃ b', onMessageSent p h b = Ok b' ∧ inv b' ∧ calm b b' ∧ br_subs b' = br_subs b ∧ buffered (br_mgr b') = buffered (br_mgr b) ∧
    (∀ c' q, queued b' c' q ↔ queued b c' q ∧ ¬ (c' = h ∧ q = p)) ∧
    br_msgs b' = (if bool_decide (at_ p (PubMap3 (br_mgr b)) ⊆ {[h]}) then delete p (br_msgs b) else br_msgs b) ∧
    dom (PubMap3 (br_mgr b')) = (if bool_decide (at_ p (PubMap3 (br_mgr b)) ⊆ {[h]})
                                 then dom (PubMap3 (br_mgr b)) ∖ {[p]} else dom (PubMap3 (br_mgr b))).
Proof.
  intros Hi Hq. destruct (queued_live b h p Hi Hq) as (Hp & Hd & Hl). unfold onMessageSent.
  pose proof (dequeue_linked p h _ (inv_direct b Hi)) as Hlk. pose proof (dequeue_last p h (direct (br_mgr b))) as Hlast.
  pose proof (dequeue_dom p h (direct (br_mgr b)) Hd) as Hdom.
  pose proof (λ c' q, dequeue_pairs p h _ c' q (inv_direct b Hi)) as Hpairs.
  destruct (dequeue p h _) as [last q]. cbn [fst snd] in *. fold (PubMap3 (br_mgr b)) in Hlast, Hdom. rewrite <- Hlast. clear Hlast.
  pose proof (inv_apart b Hi) as Ha. pose proof (inv_buffered b Hi) as Hbl.
  set (bq := with_mgr _ b). set (b' := if last then with_msgs (delete p (br_msgs b)) bq else bq).
  exists b'. assert (calm b b') as Hc by (unfold b'; destruct last; split; try done; intros; by left).
  split; [unfold b'; destruct last; [exact (delete_msg_ok p bq Hp Hl)|done]|]. split; [|by unfold b'; destruct last].
  apply (shrink_inv b b' p Hc Hi); unfold b'; destruct last; try done; unfold PubMap3; cbn -[PubMap2 PubMap3]; try (rewrite Hdom; set_solver); try (by left).
Qed.

(** *** Subscriptions without buffering *)

Lemma addSubscription_ok topic h b :
  inv b → enableBuffering = false → topic ≠ [] → h ≠ 0 → h ∈ dom (br_subs b) →
  ∃ b', addSubscription topic h b = Ok b' ∧ inv b' ∧ br_msgs b' = br_msgs b ∧ br_subs b' = br_subs b ∧
    direct (br_mgr b') = direct (br_mgr b) ∧ br_now b' = br_now b ∧
    (∀ t x, x ∈ at_ t (subscriptionMap1 (br_mgr b')) ↔ x ∈ at_ t (subscriptionMap1 (br_mgr b)) ∨ (t = topic ∧ x = h)) ∧
    buffered (br_mgr b') = buffered (br_mgr b).
Proof.
  intros Hi Hb Ht Hh Hd. unfold addSubscription. rewrite bool_decide_eq_false_2, (proj2 (Z.eqb_neq _ _)) by done.
  cbn [negb assert_]. rewrite !bind_Ok. eexists. split; [done|]. set (b' := with_mgr _ b).
  assert (∀ t x, x ∈ at_ t (subscriptionMap1 (br_mgr b')) ↔ x ∈ at_ t (subscriptionMap1 (br_mgr b)) ∨ (t = topic ∧ x = h)) as Hmap.
  { intros t x. unfold b'. cbn. rewrite at_insert_at. destruct (decide (t = topic)) as [->|]; set_solver. }
  split; [|done]. pose proof (inv_mode b Hi) as Hm. rewrite Hb in Hm. split; try apply Hi.
  - intros t x. rewrite Hmap. intros [?%(inv_handlers b Hi)|[_ ->]]; done.
  - intros t x. rewrite Hmap. unfold b'. cbn. rewrite at_insert_at.
    intros [?%(inv_topics b Hi)|[-> ->]]; [destruct (decide _) as [->|]; set_solver|rewrite decide_True by done; set_solver].
  - by rewrite Hb.
Qed.

Lemma removeSubscription_at topic h b t x :
  x ∈ at_ t (subscriptionMap1 (br_mgr (removeSubscription topic h b))) ↔
  x ∈ at_ t (subscriptionMap1 (br_mgr b)) ∧ ¬ (t = topic ∧ x = h).
Proof. cbn. rewrite at_erase_at. destruct (decide (t = topic)) as [->|]; set_solver. Qed.

Lemma removeSubscription_ok topic h b :
  inv b → enableBuffering = false → inv (removeSubscription topic h b).
Proof.
  intros Hi Hb. pose proof (inv_mode b Hi) as Hm. rewrite Hb in Hm. split; try apply Hi.
  - intros t x. rewrite removeSubscription_at. intros [? _]. by apply (inv_handlers b Hi t).
  - intros t x. rewrite removeSubscription_at. intros [? _]. by apply (inv_topics b Hi t).
  - by rewrite Hb.
Qed.

(** The loop of [onHandlerDestroyed]. *)
Lemma remove_topics_ok h l b :
  inv b → enableBuffering = false →
  let b' := foldl (λ b topic, removeSubscription topic h b) b l in
  inv b' ∧ (∀ t x, x ∈ at_ t (subscriptionMap1 (br_mgr b')) ↔ x ∈ at_ t (subscriptionMap1 (br_mgr b)) ∧ ¬ (t ∈ l ∧ x = h)) ∧
  subscriptionMap2 (br_mgr b') = subscriptionMap2 (br_mgr b) ∧ direct (br_mgr b') = direct (br_mgr b) ∧
  br_subs b' = br_subs b ∧ br_msgs b' = br_msgs b.
Proof.
  intros Hi Hb. revert b Hi. induction l as [|t l IH]; intros b Hi; cbn -[removeSubscription].
  - split_and!; try done. intros. set_solver.
  - destruct (IH (removeSubscription t h b) (removeSubscription_ok t h b Hi Hb)) as (Hi' & Hmap & ? & ? & ? & ?).
    split_and!; try done. intros t' x. rewrite Hmap, removeSubscription_at. set_solver.
Qed.

(** A handler is destroyed: it is in no table of subscriptions any more. *)
Lemma handler_delete_ok h s b :
  inv b → enableBuffering = false → h ≠ 0 → br_subs b !! h = Some s → sh_tmpMsg s = 0 →
  ∃ b', SubscriberHandler_delete h b = Ok b' ∧ inv b' ∧ br_msgs b' = br_msgs b ∧ direct (br_mgr b') = direct (br_mgr b) ∧
    br_subs b' = delete h (br_subs b) ∧
    (∀ t x, x ∈ at_ t (subscriptionMap1 (br_mgr b')) ↔ x ∈ at_ t (subscriptionMap1 (br_mgr b)) ∧ x ≠ h).
Proof.
  intros Hi Hb Hh Hs Ht. unfold SubscriberHandler_delete, deref. rewrite (proj2 (Z.eqb_neq _ _)), Hs, bind_Ok, Hb by done.
  rewrite Ht. cbn [Z.eqb assert_]. rewrite bind_Ok. eexists. split; [done|]. unfold onHandlerDestroyed.
  set (b0 := with_mgr (with_subscriptionMap2 (touch h _) _) b).
  assert (inv b0) as Hi0.
  { split; try apply Hi. intros t x Hx. unfold b0. cbn. rewrite at_touch. by apply (inv_topics b Hi). }
  destruct (remove_topics_ok h (set_iter (at_ h (subscriptionMap2 (br_mgr b)))) b0 Hi0 Hb) as (Hi1 & Hmap & H2 & Hd & Hsb & Hms).
  set (b1 := foldl _ _ _) in *. set (b' := with_subs _ _).
  assert (∀ t x, x ∈ at_ t (subscriptionMap1 (br_mgr b')) ↔ x ∈ at_ t (subscriptionMap1 (br_mgr b)) ∧ x ≠ h) as Hmap'.
  { intros t x. unfold b'. cbn. rewrite Hmap, elem_of_set_iter. change (subscriptionMap1 (br_mgr b0)) with (subscriptionMap1 (br_mgr b)).
    split; [|naive_solver]. intros [Hx Hn]. split; [done|]. intros ->. apply Hn. split; [|done]. by apply (inv_topics b Hi). }
  split; [|split_and!; try done; unfold b'; cbn; by rewrite Hsb].
  pose proof (inv_mode b1 Hi1) as Hm. rewrite Hb in Hm. split; try apply Hi1.
  - intros id Hn. by destruct (Hn (Hm id)).
  - intros t x [Hx Hne]%Hmap'. destruct (inv_handlers b Hi t x Hx). split; [done|]. unfold b'. cbn. rewrite Hsb.
    rewrite dom_delete_L. cbn. set_solver.
  - intros t x [Hx Hne]%Hmap'. unfold b'. cbn. rewrite at_delete, decide_False by done. rewrite H2. unfold b0. cbn.
    rewrite at_touch. by apply (inv_topics b Hi).
Qed.
End theorems.
