(* ===== verification/Configuration.v ===== *)
(** * Configuration: the configuration file (icc/Configuration.cpp, icc/Configuration.h)
      and what the broker takes from it (msg/MsgBrokerI.cpp)

    [open] reads lines into a buffer of 4096 characters and takes them apart in
    place: [squish] cuts the white space off both ends, the name ends at the
    equal sign, and so on.  The buffer is a list of characters with bounds; a
    pointer into it is an index, and the pointers of the code that leave the
    buffer are faults here.

    A [SectionMap] is made for each section line.  [cf_sections] are those that
    were made; [cf_map] has the ones that can be found by name. *)
From S2P Require Import Prelude CppLib Block OutputStream InputStream Marshalling TopicManager.

(** ** The buffer *)

Definition peek (p : Z) (buf : list Z) : result Z :=
  if p <? 0 then Fault OutOfBounds else
  match buf !! Z.to_nat p with Some c => Ok c | None => Fault OutOfBounds end.

Definition poke (p c : Z) (buf : list Z) : result (list Z) :=
  _ ← peek p buf; Ok (<[Z.to_nat p := c]> buf).

(** The string at a pointer: the characters before the next zero. *)
Fixpoint c_string (l : list Z) : result (list Z) :=
  match l with
  | [] => Fault OutOfBounds
  | c :: l => if c =? 0 then Ok [] else s ← c_string l; Ok (c :: s)
  end.

Definition string_at (p : Z) (buf : list Z) : result (list Z) :=
  if p <? 0 then Fault OutOfBounds else c_string (drop (Z.to_nat p) buf).

(** [strlen]. *)
Definition strlen (p : Z) (buf : list Z) : result Z := s ← string_at p buf; Ok (#s).

(** [strchr]: where the character is first, and whether it is at all. *)
Definition strchr (p c : Z) (buf : list Z) : result (option Z) :=
  s ← string_at p buf;
  Ok (match index_of c s with Some i => Some (p + Z.of_nat i) | None => None end).

(** [memmove (dst, src, n)]. *)
Definition memmove (dst src n : Z) (buf : list Z) : result (list Z) := bs ← load src n buf; store dst bs buf.

(** ** squish *)

(** The loop from the end of the string back to a character that is no space. *)
Fixpoint trim_back (fuel : nat) (cp src : Z) (buf : list Z) : result Z :=
  match fuel with
  | O => Fault OutOfFuel
  | S fuel =>
      if cp =? src then Ok cp else
      c ← peek cp buf;
      if negb (is_space c) then Ok cp else trim_back fuel (cp - 1) src buf
  end.

(** The loop from the start over white space: how far it goes. *)
Fixpoint skip_front (l : list Z) : result Z :=
  match l with
  | [] => Fault OutOfBounds
  | c :: l => if is_space c then n ← skip_front l; Ok (n + 1) else Ok 0
  end.

Definition squish (src : Z) (buf : list Z) : result (Z * list Z) :=
  n ← strlen src buf;
  cp ← trim_back (S (length buf)) (src + n - 1) src buf;
  buf ← poke (cp + 1) 0 buf;
  k ← (if src <? 0 then Fault OutOfBounds else skip_front (drop (Z.to_nat src) buf));
  Ok (src + k, buf).

(** ** open *)

Record Configuration := mkConf {
  cf_sections : list (gmap str str);
  cf_map : gmap str nat }.

Definition BUFSIZE : Z := 4096.

(** [fgets (buffer, n, in)]: up to [n - 1] characters and the end of the line. *)
Fixpoint take_line (n : nat) (t : list Z) : list Z * list Z :=
  match n, t with
  | S n, c :: t => if c =? 10 then ([c], t) else let '(l, r) := take_line n t in (c :: l, r)
  | _, _ => ([], t)
  end.

Definition fgets (buf : list Z) (t : list Z) : option (list Z * list Z) :=
  match t with
  | [] => None
  | _ =>
      let '(line, r) := take_line (pred (length buf)) t in
      Some (line ++ [0] ++ drop (S (length line)) buf, r)
  end.

(** A new section, and its place in the map unless the name is taken. *)
Definition new_section (name : str) (cf : Configuration) : nat * Configuration :=
  let i := length (cf_sections cf) in
  (i, mkConf (cf_sections cf ++ [∅])
        (match cf_map cf !! name with Some _ => cf_map cf | None => <[name := i]> (cf_map cf) end)).

(** [section->insert (pair (name, value))]. *)
Definition section_insert (section : option nat) (name value : str) (cf : Configuration) : result Configuration :=
  match section with
  | None => Fault NullDeref
  | Some i =>
      match cf_sections cf !! i with
      | None => Fault UseAfterFree
      | Some m =>
          let m := match m !! name with Some _ => m | None => <[name := value]> m end in
          Ok (mkConf (<[i := m]> (cf_sections cf)) (cf_map cf))
      end
  end.

(** The body of the loop: [None] is [return -3]. *)
Definition do_line (buf : list Z) (section : option nat) (cf : Configuration) : result (option (option nat * Configuration) * list Z) :=
  '(line, buf) ← squish 0 buf;
  c ← peek line buf;
  if (c =? 59) || (c =? 35) || (c =? 0) then Ok (Some (section, cf), buf) else
  if c =? 91 then
    has_end ← strchr line 93 buf;
    match has_end with
    | None => Ok (None, buf)
    | Some _ =>
        n ← strlen line buf;
        buf ← memmove line (line + 1) (u64 (n - 2)) buf;
        n ← strlen line buf;
        buf ← poke (line + (n - 2)) 0 buf;
        name ← string_at line buf;
        let '(i, cf) := new_section name cf in
        Ok (Some (Some i, cf), buf)
    end
  else
    end_ ← strchr line 61 buf;
    match end_ with
    | None => Ok (None, buf)
    | Some e =>
        buf ← poke e 0 buf;
        '(name, buf) ← squish line buf;
        '(value, buf) ← squish (e + 1) buf;
        name ← string_at name buf;
        value ← string_at value buf;
        cf ← section_insert section name value cf;
        Ok (Some (section, cf), buf)
    end.

Fixpoint open_loop (fuel : nat) (t : list Z) (buf : list Z) (section : option nat) (cf : Configuration) : result (bool * Configuration) :=
  match fuel with
  | O => Fault OutOfFuel
  | S fuel =>
      match fgets buf t with
      | None => Ok (true, cf)
      | Some (buf, t) =>
          '(r, buf) ← do_line buf section cf;
          match r with
          | None => Ok (false, cf)
          | Some (section, cf) => open_loop fuel t buf section cf
          end
      end
  end.

Section conf.

Context {un : Uninit}.

(** [open (fileName)]: the file, if there is one, and whether reading it ends
    in an error. *)
Definition conf_open (file : option (list Z)) (error : bool) (cf : Configuration) : result (Z * Configuration) :=
  match file with
  | None => Ok (-1, cf)
  | Some t =>
      '(ok, cf) ← open_loop (S (length t)) t (replicate (Z.to_nat BUFSIZE) uninit) None cf;
      if negb ok then Ok (-3, cf) else if error then Ok (-1, cf) else Ok (0, cf)
  end.

Definition conf_new : Configuration := mkConf [] ∅.

(** ** Queries *)

Definition getConfigStr (sectionKey name : str) (cf : Configuration) : str :=
  match cf_map cf !! sectionKey with
  | None => []
  | Some i => default [] (cf_sections cf !! i ≫= λ m, m !! name)
  end.

(** [istringstream iss (str); iss >> tmp], for a type with these bounds. *)
Definition get_bounded (lo hi : Z) (text : str) : Z :=
  Z.max lo (Z.min hi (get_int uninit (mkIstream text false false)).1).

Definition getConfigShort (sectionKey name : str) (cf : Configuration) : Z :=
  match getConfigStr sectionKey name cf with [] => -1 | text => get_bounded (- 2 ^ 15) (2 ^ 15 - 1) text end.

Definition getConfigInt (sectionKey name : str) (cf : Configuration) : Z :=
  match getConfigStr sectionKey name cf with [] => -1 | text => get_bounded (- 2 ^ 31) (2 ^ 31 - 1) text end.

(** [return -1] is [true]. *)
Definition getConfigBool (sectionKey name : str) (cf : Configuration) : bool :=
  match getConfigStr sectionKey name cf with [] => true | text => negb (get_bounded (- 2 ^ 31) (2 ^ 31 - 1) text =? 0) end.

(** ** The broker *)

Definition str_General : str := [71; 101; 110; 101; 114; 97; 108].
Definition str_publishPort : str := [112; 117; 98; 108; 105; 115; 104; 80; 111; 114; 116].
Definition str_subscribePort : str := [115; 117; 98; 115; 99; 114; 105; 98; 101; 80; 111; 114; 116].
Definition str_queryPort : str := [113; 117; 101; 114; 121; 80; 111; 114; 116].
Definition str_keepAliveTryTimes : str := [107; 101; 101; 112; 65; 108; 105; 118; 101; 84; 114; 121; 84; 105; 109; 101; 115].
Definition str_keepAliveTimeSpan : str := [107; 101; 101; 112; 65; 108; 105; 118; 101; 84; 105; 109; 101; 83; 112; 97; 110].
Definition str_enableBuffering : str := [101; 110; 97; 98; 108; 101; 66; 117; 102; 102; 101; 114; 105; 110; 103].

(** What [MessageBroker::svc] sets before it opens its ports. *)
Record BrokerConfig := mkBC {
  bc_publishPort : Z;
  bc_subscribePort : Z;
  bc_queryPort : Z;
  bc_settings : Settings }.

Definition broker_config (cf : Configuration) : BrokerConfig :=
  mkBC (getConfigShort str_General str_publishPort cf) (getConfigShort str_General str_subscribePort cf)
    (getConfigShort str_General str_queryPort cf)
    {| enableBuffering := getConfigBool str_General str_enableBuffering cf;
       keepAliveTryTimes := getConfigInt str_General str_keepAliveTryTimes cf;
       keepAliveTimeSpan := getConfigInt str_General str_keepAliveTimeSpan cf |}.

(** [if (config.open (...) == -1) return -1;] *)
Definition broker_svc_config (file : option (list Z)) (error : bool) : result (option BrokerConfig) :=
  '(r, cf) ← conf_open file error conf_new;
  if r =? -1 then Ok None else Ok (Some (broker_config cf)).

End conf.

(** ** Lemmas: the buffer *)

Lemma peek_at l1 c l2 : peek (#l1) (l1 ++ c :: l2) = Ok c.
Proof. unfold peek. rewrite (proj2 (Z.ltb_ge _ _)) by lia. by rewrite Nat2Z.id, list_lookup_middle. Qed.

Lemma poke_at l1 c d l2 : poke (#l1) d (l1 ++ c :: l2) = Ok (l1 ++ d :: l2).
Proof.
  unfold poke. rewrite peek_at, bind_Ok, Nat2Z.id. f_equal. rewrite insert_app_r_alt by lia. by rewrite Nat.sub_diag.
Qed.

Lemma c_string_ok s l : Forall (λ c, c ≠ 0) s → c_string (s ++ 0 :: l) = Ok s.
Proof.
  induction 1 as [|c s Hc _ IH]; [done|]. cbn [app c_string]. by rewrite (proj2 (Z.eqb_neq _ _) Hc), IH, bind_Ok.
Qed.

Lemma string_at_ok l1 s l2 : Forall (λ c, c ≠ 0) s → string_at (#l1) (l1 ++ s ++ 0 :: l2) = Ok s.
Proof.
  intros Hs. unfold string_at. rewrite (proj2 (Z.ltb_ge _ _)) by lia. rewrite Nat2Z.id, drop_app_length. by apply c_string_ok.
Qed.

Definition spaces (ws : list Z) : Prop := Forall (λ c, is_space c = true) ws.

Lemma space_nonzero c : is_space c = true → c ≠ 0.
Proof. intros H ->. done. Qed.

Lemma spaces_nonzero ws : spaces ws → Forall (λ c, c ≠ 0) ws.
Proof. intros H. eapply Forall_impl; [exact H|]. intros c. apply space_nonzero. Qed.

Lemma skip_front_ok ws c l : spaces ws → is_space c = false → skip_front (ws ++ c :: l) = Ok (#ws).
Proof.
  intros Hw Hc. induction Hw as [|x ws Hx _ IH]; cbn [app skip_front]; [by rewrite Hc|]. rewrite Hx, IH, bind_Ok. cbn [length]. f_equal. lia.
Qed.

Lemma trim_back_ok A l src ws : ∀ post fuel,
  (length ws < fuel)%nat → spaces ws → src ≤ #A → is_space l = false ∨ src = #A →
  trim_back fuel (#A + #ws) src (A ++ l :: ws ++ post) = Ok (#A).
Proof.
  induction ws as [|c ws IH] using rev_ind; intros post fuel Hf Hw Hs Hl; (destruct fuel as [|fuel]; [lia|]); cbn [trim_back].
  - cbn [length app]. rewrite Z.add_0_r. destruct (#A =? src) eqn:E; b2p; [done|]. rewrite peek_at, bind_Ok.
    destruct Hl as [->|?]; [done|lia].
  - apply Forall_app in Hw as [Hw Hc]. apply Forall_cons in Hc as [Hc _]. rewrite length_app in *. cbn [length] in *.
    rewrite (proj2 (Z.eqb_neq _ _)) by lia.
    replace (A ++ l :: (ws ++ [c]) ++ post) with ((A ++ l :: ws) ++ c :: post) by (by rewrite <- !app_assoc).
    replace (#A + Z.of_nat (length ws + 1)) with (#(A ++ l :: ws)) by (rewrite length_app; cbn [length]; lia).
    rewrite peek_at, bind_Ok, Hc. cbn [negb].
    replace (#(A ++ l :: ws) - 1) with (#A + #ws) by (rewrite length_app; cbn [length]; lia).
    rewrite <- app_assoc. apply (IH (c :: post)); try done. lia.
Qed.

(** A text with no space at either end, and not empty. *)
Definition trimmed (x : list Z) : Prop :=
  ∃ c d, head x = Some c ∧ last x = Some d ∧ is_space c = false ∧ is_space d = false.

Definition trimmedb (x : list Z) : bool :=
  match head x, last x with Some c, Some d => negb (is_space c) && negb (is_space d) | _, _ => false end.

Lemma trimmedb_ok x : trimmed x ↔ trimmedb x = true.
Proof.
  unfold trimmed, trimmedb. destruct (head x) as [c|], (last x) as [d|]; try naive_solver.
  rewrite andb_true_iff, !negb_true_iff. naive_solver.
Qed.

#[global] Instance trimmed_dec x : Decision (trimmed x).
Proof. destruct (trimmedb x) eqn:E; [left|right]; rewrite trimmedb_ok; congruence. Defined.

(** The place of the zero that ends a text of which [ws] was cut off. *)
Lemma after_body A d ws post : ∃ e, A ++ d :: ws ++ 0 :: post = (A ++ [d]) ++ e :: tail (ws ++ [0]) ++ post.
Proof. destruct ws as [|e ws]; [exists 0|exists e]; cbn [app tail]; by rewrite <- !app_assoc. Qed.

Lemma squish_ok pre ws body ws2 post :
  spaces ws → spaces ws2 → trimmed body → Forall (λ c, c ≠ 0) body →
  squish (#pre) (pre ++ ws ++ body ++ ws2 ++ 0 :: post) =
    Ok (#pre + #ws, pre ++ ws ++ body ++ 0 :: tail (ws2 ++ [0]) ++ post).
Proof.
  intros Hw Hw2 (c & d & Hhd & Hlast & Hc & Hd) Hb. unfold squish, strlen.
  replace (pre ++ ws ++ body ++ ws2 ++ 0 :: post) with (pre ++ (ws ++ body ++ ws2) ++ 0 :: post) by (by rewrite <- !app_assoc).
  rewrite string_at_ok by (rewrite !Forall_app; split_and!; try done; by apply spaces_nonzero). rewrite !bind_Ok.
  apply last_Some in Hlast as [body' ->]. set (A := pre ++ ws ++ body').
  replace (pre ++ (ws ++ (body' ++ [d]) ++ ws2) ++ 0 :: post) with (A ++ d :: ws2 ++ 0 :: post) by (unfold A; by rewrite <- !app_assoc).
  replace (#pre + #(ws ++ (body' ++ [d]) ++ ws2) - 1) with (#A + #ws2) by (unfold A; rewrite !length_app; cbn [length]; lia).
  rewrite trim_back_ok; [|rewrite length_app; cbn [length]; rewrite length_app; lia|done|unfold A; rewrite !length_app; lia|by left].
  rewrite bind_Ok. replace (#A + 1) with (#(A ++ [d])) by (rewrite length_app; cbn [length]; lia).
  destruct (after_body A d ws2 post) as (e & ->).
  rewrite poke_at, bind_Ok, (proj2 (Z.ltb_ge _ _)) by lia. unfold A. rewrite Nat2Z.id, <- !app_assoc, drop_app_length.
  destruct body' as [|x body'].
  - cbn in Hhd. injection Hhd as <-. cbn [app]. by rewrite skip_front_ok, bind_Ok.
  - cbn in Hhd. injection Hhd as ->. cbn [app]. by rewrite skip_front_ok, bind_Ok.
Qed.

(** Only spaces: the first is stepped over. *)
Lemma squish_blank pre c ws post :
  is_space c = true → spaces ws →
  squish (#pre) (pre ++ c :: ws ++ 0 :: post) = Ok (#pre + 1, pre ++ c :: 0 :: tail (ws ++ [0]) ++ post).
Proof.
  intros Hc Hw. unfold squish, strlen.
  replace (pre ++ c :: ws ++ 0 :: post) with (pre ++ (c :: ws) ++ 0 :: post) by done.
  rewrite string_at_ok by (constructor; [by apply space_nonzero|by apply spaces_nonzero]). rewrite !bind_Ok.
  replace (#pre + #(c :: ws) - 1) with (#pre + #ws) by (cbn [length]; lia).
  cbn [app]. rewrite trim_back_ok; [|rewrite length_app; cbn [length]; rewrite length_app; lia|done|lia|by right]. rewrite bind_Ok.
  replace (#pre + 1) with (#(pre ++ [c])) by (rewrite length_app; cbn [length]; lia).
  destruct (after_body pre c ws post) as (e & ->).
  rewrite poke_at, bind_Ok, (proj2 (Z.ltb_ge _ _)) by lia. rewrite Nat2Z.id, <- !app_assoc, drop_app_length.
  cbn [app skip_front]. rewrite Hc, length_app. cbn [is_space]. cbn. f_equal. f_equal. lia.
Qed.

(** An empty string behind a character that is no space. *)
Lemma squish_empty pre c post :
  is_space c = false → squish (#(pre ++ [c])) ((pre ++ [c]) ++ 0 :: post) = Ok (#(pre ++ [c]), (pre ++ [c]) ++ 0 :: post).
Proof.
  intros Hc. unfold squish, strlen. pose proof (string_at_ok (pre ++ [c]) [] post ltac:(done)) as E. cbn [app] in E. rewrite E, !bind_Ok. clear E. cbn [length Z.of_nat]. rewrite Z.add_0_r.
  cbn [trim_back]. rewrite (proj2 (Z.eqb_neq _ _)) by lia.
  replace (#(pre ++ [c]) - 1) with (#pre) by (rewrite length_app; cbn [length]; lia).
  replace ((pre ++ [c]) ++ 0 :: post) with (pre ++ c :: 0 :: post) at 1 by (by rewrite <- app_assoc).
  rewrite peek_at, bind_Ok, Hc. cbn [negb]. rewrite bind_Ok.
  replace (#pre + 1) with (#(pre ++ [c])) by (rewrite length_app; cbn [length]; lia).
  rewrite poke_at, bind_Ok, (proj2 (Z.ltb_ge _ _)) by lia. rewrite Nat2Z.id, drop_app_length. cbn. by rewrite Z.add_0_r.
Qed.

(** ** Lemmas: the lines *)

(** A line of a configuration file, with the blanks in it. *)
Inductive cline :=
  | LBlank (ws : list Z)
  | LComment (ws text ws2 : list Z)
  | LSection (ws : list Z) (name : str) (ws2 : list Z)
  | LEntry (ws : list Z) (key : str) (ws1 ws2 : list Z) (value : str) (ws3 : list Z).

Definition show_line (l : cline) : list Z :=
  match l with
  | LBlank ws => ws ++ [10]
  | LComment ws text ws2 => ws ++ text ++ ws2 ++ [10]
  | LSection ws name ws2 => ws ++ ([91] ++ name ++ [93]) ++ ws2 ++ [10]
  | LEntry ws key ws1 ws2 value ws3 => ws ++ key ++ ws1 ++ [61] ++ ws2 ++ value ++ ws3 ++ [10]
  end.

(** What it does to the configuration. *)
Definition abs_line (l : cline) (p : option nat * Configuration) : result (option nat * Configuration) :=
  match l with
  | LBlank _ | LComment _ _ _ => Ok p
  | LSection _ name _ => let '(i, cf) := new_section name p.2 in Ok (Some i, cf)
  | LEntry _ key _ _ value _ => cf ← section_insert p.1 key value p.2; Ok (p.1, cf)
  end.

Definition plain (x : list Z) : Prop := Forall (λ c, c ≠ 0 ∧ c ≠ 10) x.
Definition blanks (ws : list Z) : Prop := Forall (λ c, is_space c = true ∧ c ≠ 10) ws.

(** Names, values and comments have no zero, no new line and no white space at
    their ends; a name has no equal sign and does not look like another line. *)
Definition line_fine (l : cline) : Prop :=
  match l with
  | LBlank ws => blanks ws
  | LComment ws text ws2 => blanks ws ∧ blanks ws2 ∧ plain text ∧ trimmed text ∧ (head text = Some 59 ∨ head text = Some 35)
  | LSection ws name ws2 => blanks ws ∧ blanks ws2 ∧ plain name
  | LEntry ws key ws1 ws2 value ws3 =>
      blanks ws ∧ blanks ws1 ∧ blanks ws2 ∧ blanks ws3 ∧ plain key ∧ trimmed key ∧ plain value ∧ (value = [] ∨ trimmed value) ∧
      Forall (λ c, c ≠ 61) key ∧ head key ≠ Some 59 ∧ head key ≠ Some 35 ∧ head key ≠ Some 91
  end ∧ #(show_line l) < BUFSIZE.

#[global] Instance line_fine_dec l : Decision (line_fine l).
Proof. unfold line_fine, blanks, plain. destruct l; apply _. Defined.

Lemma blanks_spaces ws : blanks ws → spaces ws.
Proof. intros H. eapply Forall_impl; [exact H|]. by intros c []. Qed.
Lemma blanks_line ws : blanks ws → spaces (ws ++ [10]).
Proof. intros H. apply Forall_app. split; [by apply blanks_spaces|]. by apply Forall_singleton. Qed.
Lemma plain_nonzero x : plain x → Forall (λ c, c ≠ 0) x.
Proof. intros H. eapply Forall_impl; [exact H|]. by intros c []. Qed.

Lemma do_blank ws post sec cf :
  blanks ws → ∃ buf', do_line (show_line (LBlank ws) ++ 0 :: post) sec cf = Ok (Some (sec, cf), buf') ∧
    length buf' = length (show_line (LBlank ws) ++ 0 :: post).
Proof.
  intros Hw. unfold do_line. cbn [show_line]. pose proof (blanks_line ws Hw) as Hs.
  destruct (ws ++ [10]) as [|c ws'] eqn:E; [by destruct ws|]. apply Forall_cons in Hs as [Hc Hs].
  pose proof (squish_blank [] c ws' post Hc Hs) as Hq. change (Z.of_nat (length [])) with 0 in Hq. cbn [app] in Hq. rewrite Z.add_0_l in Hq. cbn [app]. rewrite Hq, bind_Ok.
  pose proof (peek_at [c] 0 (tail (ws' ++ [0]) ++ post)) as Hp. change (Z.of_nat (length [c])) with 1 in Hp. cbn [app] in Hp. rewrite Hp, bind_Ok. cbn.
  eexists. split; [done|]. destruct ws'; cbn; rewrite ?length_app; cbn [length]; rewrite ?length_app; cbn; lia.
Qed.

(** The start of a line that is not blank. *)
Lemma line_squished ws body ws2 post :
  blanks ws → blanks ws2 → plain body → trimmed body →
  squish 0 (ws ++ body ++ ws2 ++ 10 :: 0 :: post) = Ok (#ws, ws ++ body ++ 0 :: tail (ws2 ++ [10; 0]) ++ post).
Proof.
  intros Hw Hw2 Hb Ht. pose proof (squish_ok [] ws body (ws2 ++ [10]) post) as Hq. change (Z.of_nat (length [])) with 0 in Hq. cbn [app] in Hq. rewrite Z.add_0_l in Hq.
  rewrite <- app_assoc in Hq. cbn [app] in Hq. rewrite Hq; [|by apply blanks_spaces|by apply blanks_line|done|by apply plain_nonzero].
  by rewrite <- app_assoc.
Qed.

Lemma head_cons (x : list Z) c : head x = Some c → ∃ x', x = c :: x'.
Proof. destruct x; [done|]. intros [= ->]. by eexists. Qed.

Lemma tail_length (ws : list Z) x y : length (tail (ws ++ [x; y])) = S (length ws).
Proof. destruct ws; cbn; [done|]. rewrite length_app. cbn. lia. Qed.

(** Lengths of buffers. *)
Ltac line_len := repeat (rewrite ?length_app, ?tail_length; cbn [length]); lia.

Lemma do_comment ws text ws2 post sec cf :
  line_fine (LComment ws text ws2) → ∃ buf', do_line (show_line (LComment ws text ws2) ++ 0 :: post) sec cf = Ok (Some (sec, cf), buf') ∧
    length buf' = length (show_line (LComment ws text ws2) ++ 0 :: post).
Proof.
  intros [(Hw & Hw2 & Hp & Ht & Hh) _]. unfold do_line. cbn [show_line]. rewrite <- !app_assoc. cbn [app].
  rewrite line_squished, bind_Ok by done. assert (∃ c x, text = c :: x ∧ (c = 59 ∨ c = 35)) as (c & x & -> & Hc).
  { destruct Hh as [Hh|Hh]; apply head_cons in Hh as [x ->]; eauto. }
  cbn [app]. rewrite peek_at, bind_Ok. assert ((c =? 59) || (c =? 35) || (c =? 0) = true) as -> by (by destruct Hc as [-> | ->]).
  eexists. split; [done|]. line_len.
Qed.

Lemma strchr_first pre c s t post :
  Forall (λ x, x ≠ c) s → Forall (λ x, x ≠ 0) (s ++ c :: t) →
  strchr (#pre) c (pre ++ (s ++ c :: t) ++ 0 :: post) = Ok (Some (#pre + #s)).
Proof. intros Hs Hn. unfold strchr. by rewrite string_at_ok, bind_Ok, index_of_first. Qed.

Lemma load_mid l1 s l2 : load (#l1) (#s) (l1 ++ s ++ l2) = Ok s.
Proof.
  unfold load. rewrite !(proj2 (Z.leb_le 0 _)), (proj2 (Z.leb_le _ _)) by (try lia; rewrite !length_app; lia). cbn [andb].
  by rewrite !Nat2Z.id, drop_app_length, take_app_length.
Qed.

Lemma store_mid l1 s s' l2 : length s' = length s → store (#l1) s' (l1 ++ s ++ l2) = Ok (l1 ++ s' ++ l2).
Proof.
  intros Hl. unfold store. rewrite (proj2 (Z.leb_le 0 _)), (proj2 (Z.leb_le _ _)) by (try lia; rewrite !length_app; lia). cbn [andb].
  rewrite Nat2Z.id, take_app_length, drop_app_add, Hl, drop_app_length. done.
Qed.

(** Taking the brackets off a section line. *)
Lemma unbracket ws name post :
  plain name → #name < 2 ^ 60 →
  ∃ buf', (n ← strlen (#ws) (ws ++ ([91] ++ name ++ [93]) ++ 0 :: post);
    buf ← memmove (#ws) (#ws + 1) (u64 (n - 2)) (ws ++ ([91] ++ name ++ [93]) ++ 0 :: post);
    n ← strlen (#ws) buf;
    buf ← poke (#ws + (n - 2)) 0 buf;
    nm ← string_at (#ws) buf; Ok (nm, buf)) = Ok (name, buf') ∧
    length buf' = length (ws ++ ([91] ++ name ++ [93]) ++ 0 :: post).
Proof.
  intros Hn Hl. assert (∃ y x, [91] ++ name = y ++ [x] ∧ x ≠ 0) as (y & x & E & Hx).
  { destruct (exists_last (l := [91] ++ name)) as (y & x & E); [done|]. exists y, x. split; [done|].
    assert (Forall (λ c, c ≠ 0) ([91] ++ name)) as Hf by (constructor; [done|by apply plain_nonzero]).
    rewrite E in Hf. apply Forall_app in Hf as [_ Hf]. by apply Forall_cons in Hf as [? _]. }
  assert (length y = length name) as Hy.
  { apply (f_equal length) in E. rewrite !length_app in E. cbn [length] in E. lia. }
  unfold strlen. rewrite string_at_ok by (constructor; [done|apply Forall_app; split; [by apply plain_nonzero|by apply Forall_singleton]]).
  rewrite !bind_Ok. replace (#([91] ++ name ++ [93]) - 2) with (#name) by (rewrite !length_app; cbn [length]; lia).
  rewrite (wrap_small 64) by (unfold in_u; lia).
  assert (memmove (#ws) (#ws + 1) (#name) (ws ++ ([91] ++ name ++ [93]) ++ 0 :: post) = Ok (ws ++ (name ++ [x; 93]) ++ 0 :: post)) as ->.
  { unfold memmove. replace (#ws + 1) with (#(ws ++ [91])) by (rewrite length_app; cbn [length]; lia).
    replace (ws ++ ([91] ++ name ++ [93]) ++ 0 :: post) with ((ws ++ [91]) ++ name ++ [93] ++ 0 :: post) at 1 by (by rewrite <- !app_assoc).
    rewrite load_mid, bind_Ok.
    replace (ws ++ ([91] ++ name ++ [93]) ++ 0 :: post) with (ws ++ y ++ x :: 93 :: 0 :: post).
    - rewrite store_mid by done. by rewrite <- app_assoc.
    - rewrite (app_assoc [91]), E, <- !app_assoc. done. }
  rewrite bind_Ok, string_at_ok by (apply Forall_app; split; [by apply plain_nonzero|by repeat (constructor; [done|])]).
  rewrite !bind_Ok. replace (#ws + (#(name ++ [x; 93]) - 2)) with (#(ws ++ name)) by (rewrite !length_app; cbn [length]; lia).
  replace (ws ++ (name ++ [x; 93]) ++ 0 :: post) with ((ws ++ name) ++ x :: 93 :: 0 :: post) by (by rewrite <- !app_assoc).
  rewrite poke_at, bind_Ok, <- app_assoc. rewrite string_at_ok, bind_Ok by (by apply plain_nonzero).
  eexists. split; [done|]. len_lia.
Qed.

Lemma do_section ws name ws2 post sec cf :
  line_fine (LSection ws name ws2) →
  ∃ buf', do_line (show_line (LSection ws name ws2) ++ 0 :: post) sec cf =
      (let '(i, cf) := new_section name cf in Ok (Some (Some i, cf), buf')) ∧
    length buf' = length (show_line (LSection ws name ws2) ++ 0 :: post).
Proof.
  intros [(Hw & Hw2 & Hp) Hlen]. unfold do_line. cbn [show_line] in *.
  replace ((ws ++ ([91] ++ name ++ [93]) ++ ws2 ++ [10]) ++ 0 :: post) with (ws ++ ([91] ++ name ++ [93]) ++ ws2 ++ 10 :: 0 :: post)
    by (by rewrite <- !app_assoc).
  assert (plain ([91] ++ name ++ [93])) as Hpl by (apply Forall_app; split; [by apply Forall_singleton|apply Forall_app; split; [done|by apply Forall_singleton]]).
  rewrite line_squished; [|done|done|done|exists 91, 93; split_and!; try done; by rewrite app_assoc, last_snoc]. rewrite bind_Ok.
  set (T := tail (ws2 ++ [10; 0]) ++ post).
  assert (peek (#ws) (ws ++ ([91] ++ name ++ [93]) ++ 0 :: T) = Ok 91) as -> by apply peek_at. rewrite bind_Ok. cbn [Z.eqb Pos.eqb orb].
  unfold strchr. rewrite string_at_ok by (by apply plain_nonzero). rewrite bind_Ok.
  destruct (index_of_some 93 ([91] ++ name) []) as (i & Hi). rewrite <- app_assoc in Hi. rewrite Hi, bind_Ok.
  destruct (unbracket ws name T) as (buf' & E & Hl); [done|unfold BUFSIZE in Hlen; rewrite !length_app in Hlen; cbn [length] in Hlen; rewrite ?length_app in Hlen; lia|].
  exists buf'. split.
  - apply bind_inv in E as (n & E1 & E). apply bind_inv in E as (b1 & E2 & E). apply bind_inv in E as (n1 & E3 & E).
    apply bind_inv in E as (b2 & E4 & E). apply bind_inv in E as (nm & E5 & E). inv_ok.
    by rewrite E1, bind_Ok, E2, bind_Ok, E3, bind_Ok, E4, bind_Ok, E5, bind_Ok.
  - rewrite Hl. unfold T. line_len.
Qed.

Lemma trimmed_app (x m y : list Z) : trimmed x → trimmed y → trimmed (x ++ m ++ y).
Proof.
  intros (c & d & Hh & _ & Hc & _) (c' & d' & _ & Hl & _ & Hd). exists c, d'. split_and!; try done.
  - destruct x; [done|]. done.
  - rewrite !last_app, Hl. done.
Qed.

Lemma trimmed_snoc (x m : list Z) c : trimmed x → is_space c = false → trimmed (x ++ m ++ [c]).
Proof. intros Hx Hc. apply trimmed_app; [done|]. by exists c, c. Qed.

(** The entry line without the blanks at its ends. *)
Lemma entry_squished ws key ws1 ws2 value ws3 post :
  line_fine (LEntry ws key ws1 ws2 value ws3) →
  ∃ ws2' T, squish 0 (show_line (LEntry ws key ws1 ws2 value ws3) ++ 0 :: post) =
      Ok (#ws, ws ++ (key ++ ws1 ++ 61 :: ws2' ++ value) ++ 0 :: T) ∧
    spaces ws2' ∧ (value = [] → ws2' = []) ∧
    length (ws ++ (key ++ ws1 ++ 61 :: ws2' ++ value) ++ 0 :: T) = length (show_line (LEntry ws key ws1 ws2 value ws3) ++ 0 :: post).
Proof.
  intros [(Hw & Hw1 & Hw2 & Hw3 & Hk & Htk & Hv & Htv & _) _]. cbn [show_line].
  assert (∀ b, blanks b → plain b) as Hbp.
  { intros b Hb. eapply Forall_impl; [exact Hb|]. intros c [Hc Hc']. split; [by apply space_nonzero|done]. }
  destruct (decide (value = [])) as [->|Hne].
  - exists [], (tail ((ws2 ++ ws3) ++ [10; 0]) ++ post).
    assert (plain (key ++ ws1 ++ [61])) as Hpl by (apply Forall_app; split; [done|apply Forall_app; split; [by apply Hbp|by apply Forall_singleton]]).
    pose proof (line_squished ws (key ++ ws1 ++ [61]) (ws2 ++ ws3) post Hw ltac:(by apply Forall_app) Hpl ltac:(by apply trimmed_snoc)) as E.
    replace ((ws ++ key ++ ws1 ++ [61] ++ ws2 ++ [] ++ ws3 ++ [10]) ++ 0 :: post)
      with (ws ++ (key ++ ws1 ++ [61]) ++ (ws2 ++ ws3) ++ 10 :: 0 :: post) by (by rewrite <- !app_assoc).
    split_and!; try done; [by apply Forall_nil|]. line_len.
  - destruct Htv as [|Htv]; [done|]. exists ws2, (tail (ws3 ++ [10; 0]) ++ post).
    assert (plain (key ++ (ws1 ++ 61 :: ws2) ++ value)) as Hpl.
    { apply Forall_app; split; [done|]. apply Forall_app; split; [|done]. apply Forall_app; split; [by apply Hbp|]. constructor; [done|by apply Hbp]. }
    pose proof (line_squished ws (key ++ (ws1 ++ 61 :: ws2) ++ value) ws3 post Hw Hw3 Hpl ltac:(by apply trimmed_app)) as E.
    replace ((ws ++ key ++ ws1 ++ [61] ++ ws2 ++ value ++ ws3 ++ [10]) ++ 0 :: post)
      with (ws ++ (key ++ (ws1 ++ 61 :: ws2) ++ value) ++ ws3 ++ 10 :: 0 :: post) by (by repeat (rewrite <- !app_assoc; cbn [app])).
    split_and!; try done; [rewrite E; by repeat (rewrite <- !app_assoc; cbn [app])|by apply blanks_spaces|].
    line_len.
Qed.

Lemma do_entry ws key ws1 ws2 value ws3 post sec cf :
  line_fine (LEntry ws key ws1 ws2 value ws3) →
  ∃ buf', do_line (show_line (LEntry ws key ws1 ws2 value ws3) ++ 0 :: post) sec cf =
      (cf ← section_insert sec key value cf; Ok (Some (sec, cf), buf')) ∧
    length buf' = length (show_line (LEntry ws key ws1 ws2 value ws3) ++ 0 :: post).
Proof.
  intros Hf. destruct (entry_squished ws key ws1 ws2 value ws3 post Hf) as (ws2' & T & Hq & Hw2' & Hv0 & Hlen).
  destruct Hf as [(Hw & Hw1 & _ & _ & Hk & Htk & Hv & Htv & Heq & H59 & H35 & H91) _].
  unfold do_line. rewrite Hq, bind_Ok. clear Hq. apply blanks_spaces in Hw1 as Hs1.
  assert (∃ k, head key = Some k ∧ k ≠ 0) as (k & Hhd & Hk0).
  { destruct Htk as (k & d0 & Hhd & _). exists k. split; [done|]. apply head_cons in Hhd as [key1 ->]. by apply Forall_cons in Hk as [[? _] _]. }
  assert (peek (#ws) (ws ++ (key ++ ws1 ++ 61 :: ws2' ++ value) ++ 0 :: T) = Ok k) as ->.
  { apply head_cons in Hhd as [x ->]. cbn [app]. apply peek_at. }
  rewrite bind_Ok. rewrite Hhd in H59, H35, H91. rewrite !(proj2 (Z.eqb_neq k _)) by congruence. cbn [orb].
  assert (strchr (#ws) 61 (ws ++ (key ++ ws1 ++ 61 :: ws2' ++ value) ++ 0 :: T) = Ok (Some (#ws + #(key ++ ws1)))) as ->.
  { rewrite (app_assoc key). apply strchr_first.
    - apply Forall_app. split; [done|]. eapply Forall_impl; [exact Hs1|]. by intros c Hc ->.
    - apply Forall_app. split; [apply Forall_app; split; [by apply plain_nonzero|by apply spaces_nonzero]|].
      constructor; [done|]. apply Forall_app. split; [by apply spaces_nonzero|by apply plain_nonzero]. }
  rewrite bind_Ok. set (V := ws2' ++ value ++ 0 :: T).
  replace (ws ++ (key ++ ws1 ++ 61 :: ws2' ++ value) ++ 0 :: T) with ((ws ++ key ++ ws1) ++ 61 :: V) by (unfold V; by repeat (rewrite <- !app_assoc; cbn [app])).
  replace (#ws + #(key ++ ws1)) with (#(ws ++ key ++ ws1)) by (rewrite !length_app; lia).
  rewrite poke_at, bind_Ok. replace ((ws ++ key ++ ws1) ++ 0 :: V) with (ws ++ [] ++ key ++ ws1 ++ 0 :: V) by (by rewrite <- !app_assoc).
  rewrite squish_ok by (done || (by apply Forall_nil) || by apply plain_nonzero). rewrite bind_Ok. cbn [length]. rewrite Z.add_0_r. cbn [app].
  assert (∃ Q, 0 :: tail (ws1 ++ [0]) = Q ++ [0] ∧ length Q = length ws1) as (Q & EQ & HQ).
  { destruct ws1 as [|c w]; [by exists []|]. by exists (0 :: w). }
  set (P := (ws ++ key ++ Q) ++ [0]).
  assert (ws ++ key ++ 0 :: tail (ws1 ++ [0]) ++ V = P ++ V) as ->.
  { change (0 :: tail (ws1 ++ [0]) ++ V) with ((0 :: tail (ws1 ++ [0])) ++ V). rewrite EQ. unfold P. by rewrite <- !app_assoc. }
  replace (#(ws ++ key ++ ws1) + 1) with (#P) by (unfold P; rewrite !length_app; cbn [length]; lia).
  assert (squish (#P) (P ++ V) = Ok (#P + #ws2', P ++ V)) as ->.
  { unfold V. destruct (decide (value = [])) as [Hv'|Hv'].
    - rewrite (Hv0 Hv'), Hv'. cbn [app length]. rewrite Z.add_0_r. by apply squish_empty.
    - destruct Htv as [|Htv]; [done|]. pose proof (squish_ok P ws2' value [] T) as E. cbn [app tail] in E.
      apply E; try done; [by apply Forall_nil|by apply plain_nonzero]. }
  rewrite bind_Ok. assert (string_at (#ws) (P ++ V) = Ok key) as ->.
  { replace (P ++ V) with (ws ++ key ++ 0 :: tail (ws1 ++ [0]) ++ V).
    - apply string_at_ok. by apply plain_nonzero.
    - change (0 :: tail (ws1 ++ [0]) ++ V) with ((0 :: tail (ws1 ++ [0])) ++ V). rewrite EQ. unfold P. by rewrite <- !app_assoc. }
  rewrite bind_Ok. assert (string_at (#P + #ws2') (P ++ V) = Ok value) as ->.
  { unfold V. rewrite app_assoc. replace (#P + #ws2') with (#(P ++ ws2')) by (rewrite length_app; lia). apply string_at_ok. by apply plain_nonzero. }
  rewrite bind_Ok. exists (P ++ V). split; [done|]. rewrite <- Hlen. unfold P, V. line_len.
Qed.

Lemma do_line_ok l post sec cf :
  line_fine l → ∃ buf', length buf' = length (show_line l ++ 0 :: post) ∧
    do_line (show_line l ++ 0 :: post) sec cf = p ← abs_line l (sec, cf); Ok (Some p, buf').
Proof.
  intros Hl. destruct l as [ws|ws text ws2|ws name ws2|ws key ws1 ws2 value ws3]; cbn [abs_line fst snd].
  - destruct (do_blank ws post sec cf (proj1 Hl)) as (b & -> & Hb). by exists b.
  - destruct (do_comment ws text ws2 post sec cf Hl) as (b & -> & Hb). by exists b.
  - destruct (do_section ws name ws2 post sec cf Hl) as (b & -> & Hb). exists b. split; [done|]. by destruct (new_section name cf).
  - destruct (do_entry ws key ws1 ws2 value ws3 post sec cf Hl) as (b & -> & Hb). exists b. split; [done|].
    by destruct (section_insert sec key value cf).
Qed.

(** ** Lemmas: the file *)

Lemma show_line_ends l : line_fine l → ∃ x, show_line l = x ++ [10] ∧ Forall (λ c, c ≠ 10) x.
Proof.
  assert (∀ ws, blanks ws → Forall (λ c, c ≠ 10) ws) as Hb by (intros ws H; eapply Forall_impl; [exact H|]; by intros c []).
  assert (∀ x, plain x → Forall (λ c, c ≠ 10) x) as Hp by (intros x H; eapply Forall_impl; [exact H|]; by intros c []).
  intros [Hl _]. destruct l as [ws|ws text ws2|ws name ws2|ws key ws1 ws2 value ws3]; cbn [show_line].
  - exists ws. auto.
  - destruct Hl as (? & ? & ? & _). exists (ws ++ text ++ ws2). split; [by rewrite <- !app_assoc|]. rewrite !Forall_app. auto.
  - destruct Hl as (? & ? & ?). exists (ws ++ ([91] ++ name ++ [93]) ++ ws2). split; [by rewrite <- !app_assoc|]. rewrite !Forall_app, !Forall_singleton. split_and!; auto; done.
  - destruct Hl as (? & ? & ? & ? & ? & _ & ? & _). exists (ws ++ key ++ ws1 ++ [61] ++ ws2 ++ value ++ ws3).
    split; [by rewrite <- !app_assoc|]. rewrite !Forall_app, !Forall_singleton. split_and!; auto.
Qed.

Lemma take_line_ok x t : ∀ n, (length x < n)%nat → Forall (λ c, c ≠ 10) x → take_line n (x ++ 10 :: t) = (x ++ [10], t).
Proof.
  induction x as [|c x IH]; intros [|n] Hn Hx; try (cbn in Hn; lia); [done|]. apply Forall_cons in Hx as [Hc Hx].
  cbn [app take_line]. rewrite (proj2 (Z.eqb_neq _ _) Hc), IH by (done || (cbn in Hn; lia)). done.
Qed.

Lemma fgets_ok l t buf :
  line_fine l → length buf = Z.to_nat BUFSIZE →
  ∃ post, fgets buf (show_line l ++ t) = Some (show_line l ++ 0 :: post, t) ∧ length (show_line l ++ 0 :: post) = Z.to_nat BUFSIZE.
Proof.
  intros Hl Hb. destruct (show_line_ends l Hl) as (x & E & Hx). destruct Hl as [_ Hlen]. rewrite E in *.
  rewrite length_app in Hlen. cbn [length] in Hlen. unfold fgets. rewrite <- app_assoc. cbn [app].
  destruct (x ++ 10 :: t) as [|c r] eqn:Er; [by destruct x|]. rewrite <- Er, take_line_ok by (done || (rewrite Hb; unfold BUFSIZE in *; lia)).
  eexists. split; [done|]. repeat (rewrite ?length_app, ?length_drop; cbn [length]). rewrite Hb. unfold BUFSIZE in *. lia.
Qed.

(** The file is read as what its lines do. *)
Lemma open_loop_ok ls : ∀ fuel buf sec cf,
  Forall line_fine ls → length buf = Z.to_nat BUFSIZE → (length ls < fuel)%nat →
  open_loop fuel (mjoin (show_line <$> ls)) buf sec cf = p ← foreach abs_line ls (sec, cf); Ok (true, p.2).
Proof.
  induction ls as [|l ls IH]; intros [|fuel] buf sec cf Hf Hb Hn; try (cbn in Hn; lia); [done|].
  apply Forall_cons in Hf as [Hl Hf]. rewrite fmap_cons, mjoin_cons. cbn [open_loop foreach].
  destruct (fgets_ok l (mjoin (show_line <$> ls)) buf Hl Hb) as (post & -> & Hlen).
  destruct (do_line_ok l post sec cf Hl) as (buf' & Hb' & ->).
  destruct (abs_line l (sec, cf)) as [[sec' cf']|]; [|done]. rewrite !bind_Ok. apply IH; [done|congruence|cbn in Hn; lia].
Qed.

(** ** Lemmas: what can be asked *)

(** The entries up to the next section line; the sections with their entries. *)
Fixpoint entries_of (ls : list cline) : list (str * str) :=
  match ls with
  | [] | LSection _ _ _ :: _ => []
  | LEntry _ key _ _ value _ :: ls => (key, value) :: entries_of ls
  | _ :: ls => entries_of ls
  end.

Fixpoint sections_of (ls : list cline) : list (str * list (str * str)) :=
  match ls with
  | [] => []
  | LSection _ name _ :: ls => (name, entries_of ls) :: sections_of ls
  | _ :: ls => sections_of ls
  end.

(** The first that has the key. *)
Fixpoint first_of {V} (k : str) (l : list (str * V)) : option V :=
  match l with
  | [] => None
  | (x, v) :: l => if decide (x = k) then Some v else first_of k l
  end.

Definition add_entry (m : gmap str str) (e : str * str) : gmap str str :=
  match m !! e.1 with Some _ => m | None => <[e.1 := e.2]> m end.

Lemma add_entries_lookup es : ∀ m k, foldl add_entry m es !! k = match m !! k with Some v => Some v | None => first_of k es end.
Proof.
  induction es as [|[x v] es IH]; intros m k; cbn [foldl first_of]; [by destruct (m !! k)|]. rewrite IH. unfold add_entry. cbn [fst snd].
  destruct (m !! x) as [w|] eqn:Ex.
  - destruct (m !! k) eqn:Ek; [done|]. destruct (decide (x = k)) as [->|]; [by rewrite Ex in Ek|done].
  - destruct (decide (x = k)) as [->|Hne]; [by rewrite lookup_insert_eq, Ex|by rewrite lookup_insert_ne].
Qed.

(** Where it is. *)
Fixpoint first_index (k : str) (l : list str) : option nat :=
  match l with
  | [] => None
  | x :: l => if decide (x = k) then Some 0%nat else S <$> first_index k l
  end.

Lemma first_of_index {V} k (l : list (str * V)) : first_of k l = first_index k (fst <$> l) ≫= λ i, (snd <$> l) !! i.
Proof.
  induction l as [|[x v] l IH]; [done|]. cbn [first_of fmap list_fmap first_index fst]. destruct (decide (x = k)); [done|].
  rewrite IH. by destruct (first_index k _).
Qed.

Lemma first_index_snoc k l x :
  first_index k (l ++ [x]) = match first_index k l with Some i => Some i | None => if decide (x = k) then Some (length l) else None end.
Proof.
  induction l as [|y l IH]; cbn [app first_index length]; [done|]. destruct (decide (y = k)); [done|]. rewrite IH.
  destruct (first_index k l); [done|]. by destruct (decide (x = k)).
Qed.

(** The state of the loop: the sections made so far, of which the last one is
    the current one. *)
Record reading (secs : list (str * gmap str str)) (sec : option nat) (cf : Configuration) : Prop := mkReading {
  rd_sections : cf_sections cf = snd <$> secs;
  rd_map : ∀ name, cf_map cf !! name = first_index name (fst <$> secs);
  rd_current : sec = match secs with [] => None | _ => Some (pred (length secs)) end }.

Lemma reading_section ws name ws2 secs sec cf :
  reading secs sec cf →
  ∃ sec' cf', abs_line (LSection ws name ws2) (sec, cf) = Ok (sec', cf') ∧ reading (secs ++ [(name, ∅)]) sec' cf'.
Proof.
  intros [Hs Hm Hc]. cbn [abs_line snd]. unfold new_section. rewrite Hs, length_fmap. eexists _, _. split; [done|].
  split; cbn [cf_sections cf_map].
  - by rewrite fmap_app.
  - intros n. rewrite fmap_app. cbn [fmap list_fmap fst]. rewrite first_index_snoc, <- Hm, length_fmap.
    destruct (decide (name = n)) as [->|Hne].
    + destruct (cf_map cf !! n) eqn:En; [done|]. by rewrite lookup_insert_eq.
    + destruct (cf_map cf !! name); rewrite ?lookup_insert_ne by done; by destruct (cf_map cf !! n).
  - rewrite length_app. cbn [length]. destruct secs; cbn; f_equal; lia.
Qed.

Lemma reading_entry ws key ws1 ws2 value ws3 secs n m sec cf :
  reading (secs ++ [(n, m)]) sec cf →
  ∃ cf', abs_line (LEntry ws key ws1 ws2 value ws3) (sec, cf) = Ok (sec, cf') ∧ reading (secs ++ [(n, add_entry m (key, value))]) sec cf'.
Proof.
  intros [Hs Hm Hc]. cbn [abs_line snd fst].
  assert (sec = Some (length secs)) as ->.
  { rewrite Hc, length_app. cbn [length]. destruct secs; cbn; [done|]. f_equal. lia. }
  unfold section_insert. rewrite Hs, fmap_app. cbn [fmap list_fmap snd].
  rewrite lookup_app_r, length_fmap, Nat.sub_diag by (rewrite length_fmap; lia). cbn [lookup list_lookup]. rewrite bind_Ok.
  eexists. split; [done|]. split; cbn [cf_sections cf_map].
  - rewrite insert_app_r_alt, length_fmap, Nat.sub_diag by (rewrite length_fmap; lia). by rewrite fmap_app.
  - intros x. rewrite Hm, !fmap_app. done.
  - rewrite length_app. cbn [length]. destruct secs; cbn; f_equal; lia.
Qed.

(** From the first section on. *)
Lemma reading_lines ls : ∀ secs n m sec cf,
  reading (secs ++ [(n, m)]) sec cf →
  ∃ sec' cf', foreach abs_line ls (sec, cf) = Ok (sec', cf') ∧
    reading (secs ++ [(n, foldl add_entry m (entries_of ls))] ++ ((λ s, (s.1, foldl add_entry ∅ s.2)) <$> sections_of ls)) sec' cf'.
Proof.
  induction ls as [|l ls IH]; intros secs n m sec cf Hr; [by exists sec, cf|]. cbn [foreach].
  destruct l as [ws|ws text ws2|ws name ws2|ws key ws1 ws2 value ws3]; try (by apply IH).
  - destruct (reading_section ws name ws2 _ _ _ Hr) as (sec1 & cf1 & E & Hr1). rewrite E, bind_Ok.
    destruct (IH _ _ _ _ _ Hr1) as (sec' & cf' & E' & Hr'). exists sec', cf'. split; [done|].
    cbn [entries_of sections_of foldl fmap list_fmap fst snd]. by rewrite <- app_assoc in Hr'.
  - destruct (reading_entry ws key ws1 ws2 value ws3 _ _ _ _ _ Hr) as (cf1 & E & Hr1). rewrite E, bind_Ok.
    destruct (IH _ _ _ _ _ Hr1) as (sec' & cf' & E' & Hr'). by exists sec', cf'.
Qed.

Lemma reading_file ls : entries_of ls = [] →
  ∃ sec' cf', foreach abs_line ls (None, conf_new) = Ok (sec', cf') ∧ reading ((λ s, (s.1, foldl add_entry ∅ s.2)) <$> sections_of ls) sec' cf'.
Proof.
  assert (reading [] None conf_new) as H0 by (by split).
  induction ls as [|l ls IH]; intros He; [by exists None, conf_new|]. cbn [foreach].
  destruct l as [ws|ws text ws2|ws name ws2|ws key ws1 ws2 value ws3]; try (by apply IH); [|done].
  destruct (reading_section ws name ws2 _ _ _ H0) as (sec1 & cf1 & E & Hr1). rewrite E, bind_Ok.
  destruct (reading_lines ls [] name ∅ _ _ Hr1) as (sec' & cf' & E' & Hr'). by exists sec', cf'.
Qed.

Lemma first_of_fmap {V W} (f : V → W) k (l : list (str * V)) : first_of k ((λ s, (s.1, f s.2)) <$> l) = f <$> first_of k l.
Proof. induction l as [|[x v] l IH]; [done|]. cbn [fmap list_fmap first_of fst snd]. by destruct (decide (x = k)). Qed.

Lemma configuration_lines {un : Uninit} ls :
  Forall line_fine ls → entries_of ls = [] →
  ∃ cf, conf_open (Some (mjoin (show_line <$> ls))) false conf_new = Ok (0, cf) ∧
    ∀ section name, getConfigStr section name cf = default [] (first_of section (sections_of ls) ≫= first_of name).
Proof.
  intros Hls He. destruct (reading_file ls He) as (sec & cf & E & [Hs Hm _]). exists cf. unfold conf_open.
  assert (length ls ≤ length (mjoin (show_line <$> ls)))%nat as Hlen.
  { clear -Hls. induction Hls as [|l ls Hl _ IH]; [done|]. rewrite fmap_cons, mjoin_cons, length_app. cbn [length].
    destruct (show_line_ends l Hl) as (x & -> & _). rewrite length_app. cbn [length]. lia. }
  rewrite open_loop_ok, E by (done || (rewrite length_replicate; done) || lia). rewrite !bind_Ok. cbn [negb]. split; [done|].
  intros section name. unfold getConfigStr. rewrite Hm, Hs.
  transitivity (default [] (first_of section ((λ s, (s.1, foldl add_entry ∅ s.2)) <$> sections_of ls) ≫= λ m : gmap str str, m !! name)).
  - rewrite first_of_index. destruct (first_index _ _) as [i|]; [|done]. cbn. by destruct (_ !! i).
  - rewrite (first_of_fmap (foldl add_entry ∅)). destruct (first_of section _) as [es|]; [|done]. cbn. by rewrite add_entries_lookup, lookup_empty.
Qed.

(** ** Properties *)

(** C21: A configuration file is read as it was meant.  A file is any sequence
    of section lines, entries, comments and blank lines, with any white space
    around names and values, each line shorter than the buffer, and with no
    entry before the first section.  Reading it returns 0 without a fault (no
    access leaves the buffer), and then every query is answered by the first
    entry of that name in the first section of that name, and by the empty
    string if there is none. *)
Theorem configuration_read {un : Uninit} ls :
  Forall line_fine ls → entries_of ls = [] →
  ∃ cf, conf_open (Some (mjoin (show_line <$> ls))) false conf_new = Ok (0, cf) ∧
    ∀ section name, getConfigStr section name cf = default [] (first_of section (sections_of ls) ≫= first_of name).
Proof. apply configuration_lines. Qed.

(** The values of an entry of the first section [General]. *)
Definition general (ls : list cline) (name : str) : option str := first_of str_General (sections_of ls) ≫= first_of name.

Lemma get_bounded_show {un : Uninit} lo hi n : in_s 32 n → lo ≤ n ≤ hi → get_bounded lo hi (show_int n) = n.
Proof.
  intros Hn Hb. unfold get_bounded. pose proof (get_int_printed n uninit [] Hn I) as E. rewrite app_nil_r in E. rewrite E. cbn [fst]. lia.
Qed.

Lemma get_short_show {un : Uninit} n : in_s 16 n → get_bounded (- 2 ^ 15) (2 ^ 15 - 1) (show_int n) = n.
Proof.
  unfold in_s. change (16 - 1) with 15. intros Hn. apply get_bounded_show; [|lia]. unfold in_s. change (32 - 1) with 31. lia.
Qed.

Lemma get_int32_show {un : Uninit} n : in_s 32 n → get_bounded (- 2 ^ 31) (2 ^ 31 - 1) (show_int n) = n.
Proof. intros Hn. apply get_bounded_show; [done|]. unfold in_s in Hn. change (32 - 1) with 31 in Hn. lia. Qed.

(** Queries for a printed number. *)
Lemma getConfigShort_show {un : Uninit} s n cf v : getConfigStr s n cf = show_int v → in_s 16 v → getConfigShort s n cf = v.
Proof.
  intros E Hv. unfold getConfigShort. rewrite E. destruct (show_int_word v) as [Hne _]. pose proof (get_short_show v Hv) as G.
  by destruct (show_int v).
Qed.

Lemma getConfigInt_show {un : Uninit} s n cf v : getConfigStr s n cf = show_int v → in_s 32 v → getConfigInt s n cf = v.
Proof.
  intros E Hv. unfold getConfigInt. rewrite E. destruct (show_int_word v) as [Hne _]. pose proof (get_int32_show v Hv) as G.
  by destruct (show_int v).
Qed.

Lemma getConfigBool_show {un : Uninit} s n cf v : getConfigStr s n cf = show_int v → in_s 32 v → getConfigBool s n cf = negb (v =? 0).
Proof.
  intros E Hv. unfold getConfigBool. rewrite E. destruct (show_int_word v) as [Hne _]. pose proof (get_int32_show v Hv) as G.
  destruct (show_int v); [done|]. by rewrite G.
Qed.

(** The broker starts with the numbers of its file.  When the section
    [General] has the ports, the keep-alive settings and the buffering flag as
    printed numbers, in any order and among any other lines, [svc] goes on with
    exactly these; an entry that is missing gives -1, and a missing
    [enableBuffering] turns buffering on. *)
Lemma broker_configured {un : Uninit} ls pub sub query tries span buf :
  Forall line_fine ls → entries_of ls = [] →
  in_s 16 pub → in_s 16 sub → in_s 16 query → in_s 32 tries → in_s 32 span → match buf with Some b => in_s 32 b | None => True end →
  general ls str_publishPort = Some (show_int pub) → general ls str_subscribePort = Some (show_int sub) →
  general ls str_queryPort = Some (show_int query) → general ls str_keepAliveTryTimes = Some (show_int tries) →
  general ls str_keepAliveTimeSpan = Some (show_int span) → general ls str_enableBuffering = show_int <$> buf →
  ∃ bc, broker_svc_config (Some (mjoin (show_line <$> ls))) false = Ok (Some bc) ∧
    bc_publishPort bc = pub ∧ bc_subscribePort bc = sub ∧ bc_queryPort bc = query ∧
    @keepAliveTryTimes (bc_settings bc) = tries ∧ @keepAliveTimeSpan (bc_settings bc) = span ∧
    @enableBuffering (bc_settings bc) = match buf with Some b => negb (b =? 0) | None => true end.
Proof.
  intros Hls He H1 H2 H3 H4 H5 H6 G1 G2 G3 G4 G5 G6. destruct (configuration_lines ls Hls He) as (cf & E & Hq).
  exists (broker_config cf). unfold broker_svc_config. rewrite E, bind_Ok. cbn [Z.eqb]. split; [done|].
  unfold general in *. cbn [broker_config bc_publishPort bc_subscribePort bc_queryPort bc_settings keepAliveTryTimes keepAliveTimeSpan enableBuffering].
  split_and!; try (apply getConfigShort_show; [by rewrite Hq, ?G1, ?G2, ?G3|done]); try (apply getConfigInt_show; [by rewrite Hq, ?G4, ?G5|done]).
  destruct buf as [b|]; [apply getConfigBool_show; [by rewrite Hq, G6|done]|]. unfold getConfigBool. by rewrite Hq, G6.
Qed.

(** conf/icmmsg.ini. *)
Definition icmmsg_ini : list cline :=
  [LSection [] [71; 101; 110; 101; 114; 97; 108] [];
   LEntry [] str_publishPort [32] [32] (show_int 10001) [];
   LEntry [] str_subscribePort [32] [32; 32] (show_int 10002) [];
   LEntry [] str_queryPort [32] [32] (show_int 10003) [];
   LBlank [];
   LEntry [] str_keepAliveTryTimes [32] [32] (show_int 3) [];
   LEntry [] str_keepAliveTimeSpan [32] [32] (show_int 10) [];
   LBlank [];
   LComment [] [35; 119; 104; 101; 110; 32; 99; 108; 105; 101; 110; 116; 32; 111; 102; 102; 108; 105; 110; 101; 44; 32; 98; 117; 102; 102; 101; 114; 32; 116; 104; 101; 32; 109; 101; 115; 115; 97; 103; 101; 44; 32; 119; 104; 101; 110; 32; 105; 116; 32; 98; 101; 99; 111; 109; 101; 32; 111; 110; 108; 105; 110; 101; 44; 32; 115; 101; 110; 100; 32; 116; 104; 101; 32; 98; 117; 102; 102; 101; 114; 101; 100; 32; 109; 101; 115; 115; 97; 103; 101] [];
   LEntry [] str_enableBuffering [32] [32] (show_int 0) [];
   LBlank [];
   LSection [] [76; 111; 103] [];
   LComment [] [35; 108; 111; 103; 32; 111; 117; 116; 112; 117; 116; 32; 108; 111; 99; 97; 116; 105; 111; 110; 58; 32; 99; 111; 110; 115; 111; 108; 101; 44; 102; 105; 108; 101] [];
   LEntry [] [108; 111; 103; 79; 117; 116; 112; 117; 116] [32] [32] [102; 105; 108; 101] [32]].

Lemma icmmsg_ini_fine : Forall line_fine icmmsg_ini.
Proof. apply (bool_decide_unpack _). vm_compute. exact I. Qed.

Lemma configuration_read_witness :
  ∃ cf, @conf_open uninit_7 (Some (mjoin (show_line <$> icmmsg_ini))) false conf_new = Ok (0, cf) ∧
    getConfigStr str_General str_subscribePort cf = show_int 10002 ∧ getConfigStr [76; 111; 103] [108; 111; 103; 79; 117; 116; 112; 117; 116] cf = [102; 105; 108; 101].
Proof.
  destruct (@configuration_read uninit_7 icmmsg_ini icmmsg_ini_fine eq_refl) as (cf & E & Hq). exists cf. split; [exact E|].
  rewrite !Hq. split; vm_compute; reflexivity.
Defined.

Lemma broker_configured_witness :
  ∃ bc, @broker_svc_config uninit_7 (Some (mjoin (show_line <$> icmmsg_ini))) false = Ok (Some bc) ∧
    bc_publishPort bc = 10001 ∧ bc_subscribePort bc = 10002 ∧ bc_queryPort bc = 10003 ∧
    @keepAliveTryTimes (bc_settings bc) = 3 ∧ @keepAliveTimeSpan (bc_settings bc) = 10 ∧ @enableBuffering (bc_settings bc) = false.
Proof.
  apply (@broker_configured uninit_7 icmmsg_ini 10001 10002 10003 3 10 (Some 0) icmmsg_ini_fine eq_refl);
    solve [vm_compute; reflexivity | vm_compute; split; congruence].
Defined.

(** *** Where the code does less *)

(** A line without a name: [squish] of the empty string at the start of the
    buffer looks for its end before the buffer. *)
Example empty_name_out_of_bounds :
  @conf_open uninit_7 (Some [91; 97; 93; 10; 61; 118; 10]) false conf_new = Fault OutOfBounds.
Proof. vm_compute. reflexivity. Qed.

(** An entry before the first section follows a null pointer. *)
Example entry_without_section : @conf_open uninit_7 (Some [97; 61; 118; 10]) false conf_new = Fault NullDeref.
Proof. vm_compute. reflexivity. Qed.

(** What follows the closing bracket becomes a part of the name. *)
Example text_after_bracket :
  ∃ cf, @conf_open uninit_7 (Some [91; 97; 93; 32; 98; 10; 107; 61; 118; 10]) false conf_new = Ok (0, cf) ∧
    getConfigStr [97] [107] cf = [] ∧ getConfigStr [97; 93; 32] [107] cf = [118].
Proof. eexists. split; [vm_compute; reflexivity|]. split; vm_compute; reflexivity. Qed.

(** A file with an error in it is rejected with -3, which [svc] takes for a
    success: the broker starts with what comes before the error, and with the
    port -1. *)
Example broken_file_accepted :
  ∃ bc, @broker_svc_config uninit_7 (Some [91; 71; 101; 110; 101; 114; 97; 108; 93; 10; 110; 111; 116; 104; 105; 110; 103; 10; 112; 117; 98; 108; 105; 115; 104; 80; 111; 114; 116; 61; 49; 10]) false = Ok (Some bc) ∧ bc_publishPort bc = -1.
Proof. eexists. split; [vm_compute; reflexivity|]. reflexivity. Qed.
