(* ===== verification/Log.v ===== *)
(** * Log: the log of a process and its files (icc/Log.cpp, icc/Log.h,
      icc/DateTime.cpp) and how the broker opens it (msg/MsgBrokerI.cpp)

    Every thread has a [Log] object of its own, in which it puts a message
    together; [endl] takes the mutex and writes the message, with the time and
    the thread, to the one stream all threads share.  A file that is full is
    followed by the next of a ring of files.

    [LogState] has the static members, the unfinished message of each thread,
    and what the process has written: the files by name, the console, and the
    commands given to the shell.  A step of a thread is a call; the only part of
    a call that touches what threads share is under the mutex.  Creating a file
    may fail, as [creates] says.  The formatting of [vsprintf] is the C
    library's: its result is an argument. *)
From Stdlib Require Import String Ascii DecimalPos.
From S2P Require Import Prelude CppLib Block OutputStream InputStream Marshalling TopicManager Configuration.

(** The bytes of a literal. *)
Fixpoint literal (s : String.string) : str :=
  match s with
  | EmptyString => []
  | String c s => Z.of_nat (nat_of_ascii c) :: literal s
  end.
Arguments literal s%_string : simpl never.

(** ** State *)

Definition LM_DEBUG : Z := 1.
Definition LM_INFO : Z := 2.
Definition LM_WARNING : Z := 3.
Definition LM_ERROR : Z := 4.

(** An [ofstream]: the file, and whether it could be opened. *)
Record ofstream := mkOf { of_name : str; of_good : bool }.

Record LogState := mkLog {
  lg_os : option ofstream;
  lg_currentFileIndex : Z;
  lg_logFileNamePref : str;
  lg_priority : Z;
  lg_LogFileSize : Z;
  lg_MaxLogFiles : Z;
  lg_messages : gmap Z str;
  lg_files : gmap str (list Z);
  lg_console : list Z;
  lg_commands : list str }.

(** The values the statics start with. *)
Definition Log_initial : LogState := mkLog None 1 [] LM_DEBUG (1024 * 1024) 10 ∅ ∅ [] [].

Definition lg_with_os os files s := mkLog os (lg_currentFileIndex s) (lg_logFileNamePref s) (lg_priority s) (lg_LogFileSize s)
  (lg_MaxLogFiles s) (lg_messages s) files (lg_console s) (lg_commands s).
Definition lg_with_index i s := mkLog (lg_os s) i (lg_logFileNamePref s) (lg_priority s) (lg_LogFileSize s)
  (lg_MaxLogFiles s) (lg_messages s) (lg_files s) (lg_console s) (lg_commands s).
Definition lg_with_name n cs s := mkLog (lg_os s) (lg_currentFileIndex s) n (lg_priority s) (lg_LogFileSize s)
  (lg_MaxLogFiles s) (lg_messages s) (lg_files s) (lg_console s) (lg_commands s ++ cs).
Definition lg_with_settings p sz n s := mkLog (lg_os s) (lg_currentFileIndex s) (lg_logFileNamePref s) p sz n
  (lg_messages s) (lg_files s) (lg_console s) (lg_commands s).
Definition lg_with_message t x s := mkLog (lg_os s) (lg_currentFileIndex s) (lg_logFileNamePref s) (lg_priority s) (lg_LogFileSize s)
  (lg_MaxLogFiles s) (<[t := x]> (lg_messages s)) (lg_files s) (lg_console s) (lg_commands s).
Definition lg_with_console x s := mkLog (lg_os s) (lg_currentFileIndex s) (lg_logFileNamePref s) (lg_priority s) (lg_LogFileSize s)
  (lg_MaxLogFiles s) (lg_messages s) (lg_files s) x (lg_commands s).

(** ** Time *)

Record DateTime := mkDT { dt_month : Z; dt_day : Z; dt_hour : Z; dt_minute : Z; dt_second : Z; dt_microsec : Z }.

(** "%0<n>ld". *)
Definition pad (n : nat) (x : Z) : str :=
  let t := show_int x in
  match t with
  | 45 :: d => 45 :: replicate (n - length t) 48 ++ d
  | _ => replicate (n - length t) 48 ++ t
  end.

(** "%02ld/%02ld %02ld:%02ld:%02ld.%06ld@" into [char buf[128]]. *)
Definition stamp (dt : DateTime) : str :=
  pad 2 (dt_month dt) ++ [47] ++ pad 2 (dt_day dt) ++ [32] ++ pad 2 (dt_hour dt) ++ [58] ++ pad 2 (dt_minute dt) ++ [58]
    ++ pad 2 (dt_second dt) ++ [46] ++ pad 6 (dt_microsec dt) ++ [64].

(** [sprintf] into an array: the text and a zero. *)
Definition sprintf (size : Z) (text : str) : result str :=
  if #text <? size then Ok text else Fault OutOfBounds.

(** ** Files *)

(** What the constructor of [ofstream] does: the file is made empty. *)
Definition open_file (creates : str → bool) (name : str) (s : LogState) : LogState :=
  if creates name then lg_with_os (Some (mkOf name true)) (<[name := []]> (lg_files s)) s
  else lg_with_os (Some (mkOf name false)) (lg_files s) s.

Definition file_name (pref : str) (i : Z) : str := pref ++ show_int i ++ literal ".txt".

(** [os->tellp ()]. *)
Definition tellp (o : ofstream) (s : LogState) : Z :=
  if of_good o then #(default [] (lg_files s !! of_name o)) else -1.

Definition write_log (o : ofstream) (text : str) (s : LogState) : LogState :=
  if of_good o then lg_with_os (Some o) (<[of_name o := default [] (lg_files s !! of_name o) ++ text]> (lg_files s)) s else s.

(** The rotation in [endl]; the old stream is deleted, which closes its file. *)
Definition rotate (creates : str → bool) (s : LogState) : LogState :=
  let i := s32 (lg_currentFileIndex s + 1) in
  let i := if i >? lg_MaxLogFiles s then 1 else i in
  let s := lg_with_index i s in
  open_file creates (file_name (lg_logFileNamePref s) i) s.

(** ** Calls of a thread [t] *)

Section log.

Context (creates : str → bool).

Definition message (t : Z) (s : LogState) : str := default [] (lg_messages s !! t).

(** [operator <<] with the text it appends; for an integer this is [show_int]. *)
Definition log_put (t : Z) (text : str) (s : LogState) : LogState := lg_with_message t (message t s ++ text) s.

(** [endl (l, filename, line)]: the file and the line are never written. *)
Definition log_endl (t : Z) (dt : DateTime) (s : LogState) : result LogState :=
  buf ← sprintf 128 (stamp dt);
  let str := message t s ++ [10] in
  let text := buf ++ [40] ++ show_int t ++ [41] ++ str in
  let s :=
    match lg_os s with
    | Some o =>
        let s := if lg_LogFileSize s <? tellp o s then rotate creates s else s in
        match lg_os s with Some o => write_log o text s | None => s end
    | None => lg_with_console (lg_console s ++ text) s
    end in
  Ok (lg_with_message t [] s).

Definition ACE_MAXLOGMSGLEN : Z := 4 * 1024.

(** [log (format, ...)]: [text] is what [vsprintf] writes into the buffer. *)
Definition log_format (t : Z) (text : str) (s : LogState) : result LogState :=
  buf ← sprintf (ACE_MAXLOGMSGLEN + 1) text;
  Ok (log_put t buf s).

(** [log (lp, format, ...)]. *)
Definition log_level (t lp : Z) (text : str) (dt : DateTime) (s : LogState) : result LogState :=
  if lp <? lg_priority s then Ok s else
  s ← log_format t text s;
  log_endl t dt s.

(** [ICC_DEBUG] and its likes. *)
Definition icc_log (t level : Z) (text : str) (dt : DateTime) (s : LogState) : result LogState :=
  if lg_priority s >? level then Ok s else
  s ← log_format t text s;
  log_endl t dt s.

(** [LogDebug << ... << endl] and its likes, with the texts that are put. *)
Definition log_chain (t level : Z) (texts : list str) (dt : DateTime) (s : LogState) : result LogState :=
  if lg_priority s <=? level then log_endl t dt (foldl (λ s x, log_put t x s) s texts) else Ok s.

(** [setOutStream (os)]. *)
Definition setOutStream (os : option ofstream) (s : LogState) : LogState := lg_with_os os (lg_files s) s.

(** [logFileName.substr (0, logFileName.rfind ('/'))]: all of it without a slash. *)
Definition before_slash (name : str) : str :=
  match index_of 47 (rev name) with Some i => take (length name - S i) name | None => name end.

(** The commands of [open]; [now] is what [strftime] makes of the time. *)
Definition backup_command (name now : str) : str :=
  literal "if [ -e " ++ [34] ++ name ++ literal "1.txt" ++ [34] ++ literal " ]; then tar cvf " ++
  (before_slash name ++ [47] ++ literal "log." ++ now ++ literal ".tar.gz") ++ [32] ++ name ++ literal "*.txt 2>/dev/null; fi".
Definition clean_command (name : str) : str := literal "rm " ++ name ++ literal "*.txt 2>/dev/null".
Definition prune_command (name : str) (rotationBackups : Z) : str :=
  literal "rm `ls -t " ++ (before_slash name ++ [47]) ++ literal "log.*.tar.gz |tail -n +" ++ show_int (rotationBackups + 1) ++ literal "` 2>/dev/null".

(** [open (rotationBackups, logFileName, priority, maxFileSize, rotationFiles)]. *)
Definition log_open (rotationBackups : Z) (name : str) (priority maxFileSize rotationFiles : Z) (now : str) (s : LogState) : result LogState :=
  s ← (if bool_decide (name = []) then Ok s else
    _ ← assert_ (bool_decide (lg_os s = None));
    prune ← (if 0 <? rotationBackups then c ← sprintf 1024 (prune_command name rotationBackups); Ok [c] else Ok []);
    let s := lg_with_name name ([backup_command name now; clean_command name] ++ prune) s in
    Ok (open_file creates (name ++ literal "1.txt") s));
  Ok (lg_with_settings priority maxFileSize rotationFiles s).

(** A call of some thread. *)
Inductive log_call :=
  | CPut (t : Z) (text : str)
  | CEndl (t : Z) (dt : DateTime)
  | CFormat (t : Z) (text : str)
  | CLevel (t lp : Z) (text : str) (dt : DateTime)
  | CIcc (t level : Z) (text : str) (dt : DateTime)
  | CChain (t level : Z) (texts : list str) (dt : DateTime).

Definition log_step (c : log_call) (s : LogState) : result LogState :=
  match c with
  | CPut t text => Ok (log_put t text s)
  | CEndl t dt => log_endl t dt s
  | CFormat t text => log_format t text s
  | CLevel t lp text dt => log_level t lp text dt s
  | CIcc t level text dt => icc_log t level text dt s
  | CChain t level texts dt => log_chain t level texts dt s
  end.

End log.

(** ** The broker *)

Section broker.

Context {un : Uninit}.

Definition str_Log : str := literal "Log".

(** The names of the levels; what is none of them counts as "debug". *)
Definition level_of (logLevel : str) : Z :=
  if bool_decide (logLevel = literal "info") then LM_INFO
  else if bool_decide (logLevel = literal "debug") then LM_DEBUG
  else if bool_decide (logLevel = literal "warning") then LM_WARNING
  else if bool_decide (logLevel = literal "error") then LM_ERROR
  else LM_DEBUG.

(** The part of [MessageBroker::svc] that opens the log. *)
Definition broker_log_open (creates : str → bool) (cf : Configuration) (now : str) (s : LogState) : result LogState :=
  let logOutput := getConfigStr str_Log (literal "logOutput") cf in
  let logFileName := if bool_decide (logOutput = literal "file") then literal "../log/log" else [] in
  let maxLogFileSize := getConfigInt str_Log (literal "maxLogFileSize") cf in
  let maxLogFiles := getConfigInt str_Log (literal "maxLogFiles") cf in
  log_open creates 0 logFileName (level_of (getConfigStr str_Log (literal "logLevel") cf))
    (s32 (maxLogFileSize * 1024 * 1024)) maxLogFiles now s.

End broker.

(** ** What a log is *)

(** The line of a thread [t] at [dt]. *)
Definition record_text (t : Z) (dt : DateTime) (msg : str) : str := stamp dt ++ [40] ++ show_int t ++ [41] ++ msg ++ [10].

(** What a call contributes: texts to the message of a thread, and its end. *)
Inductive part :=
  | Text (t : Z) (x : str)
  | End (t : Z) (dt : DateTime).

Definition parts (priority : Z) (c : log_call) : list part :=
  match c with
  | CPut t x | CFormat t x => [Text t x]
  | CEndl t dt => [End t dt]
  | CLevel t lp x dt | CIcc t lp x dt => if decide (priority ≤ lp) then [Text t x; End t dt] else []
  | CChain t lp xs dt => if decide (priority ≤ lp) then (Text t <$> xs) ++ [End t dt] else []
  end.

(** The lines: each has what its thread put since its last line, whatever the
    other threads did in between. *)
Fixpoint lines_of (pending : Z → str) (ps : list part) : list str :=
  match ps with
  | [] => []
  | Text t x :: ps => lines_of (λ u, if decide (u = t) then pending t ++ x else pending u) ps
  | End t dt :: ps => record_text t dt (pending t) :: lines_of (λ u, if decide (u = t) then [] else pending u) ps
  end.

Definition log_lines (priority : Z) (cs : list log_call) : list str := lines_of (λ _, []) (mjoin (parts priority <$> cs)).

(** The volumes the lines are divided into: the finished ones and the last. *)
Definition add_line (size : Z) (v : list (list Z) * list Z) (r : str) : list (list Z) * list Z :=
  if size <? #(v.2) then (v.1 ++ [v.2], r) else (v.1, v.2 ++ r).
Definition volumes (size : Z) (lines : list str) : list (list Z) :=
  let v := foldl (add_line size) ([], []) lines in v.1 ++ [v.2].

(** What a call must respect: the buffer of [vsprintf], and a time of [long]s. *)
Definition time_ok (dt : DateTime) : Prop :=
  in_s 64 (dt_month dt) ∧ in_s 64 (dt_day dt) ∧ in_s 64 (dt_hour dt) ∧ in_s 64 (dt_minute dt) ∧ in_s 64 (dt_second dt) ∧ in_s 64 (dt_microsec dt).
Definition call_ok (c : log_call) : Prop :=
  match c with
  | CPut _ _ => True
  | CEndl _ dt | CChain _ _ _ dt => time_ok dt
  | CFormat _ x => #x ≤ ACE_MAXLOGMSGLEN
  | CLevel _ _ x dt | CIcc _ _ x dt => #x ≤ ACE_MAXLOGMSGLEN ∧ time_ok dt
  end.

(** ** Lemmas: the time stamp fits *)

Lemma of_uint_acc_lower d : ∀ acc, Z.pos acc * 10 ^ #(show_uint d) ≤ Z.pos (Pos.of_uint_acc d acc).
Proof.
  induction d as [|d IH|d IH|d IH|d IH|d IH|d IH|d IH|d IH|d IH|d IH]; intros acc;
    [cbn; lia|..]; cbn [Pos.of_uint_acc show_uint length]; rewrite Nat2Z.inj_succ, Z.pow_succ_r by lia;
    (etransitivity; [|apply IH]); pose proof (Z.pow_nonneg 10 (#(show_uint d)) ltac:(lia)); nia.
Qed.

(** A number of [k] digits is at least [10^(k - 1)]. *)
Lemma show_pos_length p : 10 ^ (#(show_uint (Pos.to_uint p)) - 1) ≤ Z.pos p.
Proof.
  pose proof (Unsigned.of_to p) as Hof. pose proof (Unsigned.to_of (Pos.to_uint p)) as Hto. rewrite Hof in Hto. cbn in Hto.
  destruct (Pos.to_uint p) as [|d|d|d|d|d|d|d|d|d|d] eqn:E; [by apply Unsigned.to_uint_nonnil in E|..].
  { exfalso. cbn [Decimal.unorm] in Hto. unfold Decimal.unorm in Hto. cbn [Decimal.nzhead] in Hto.
    destruct (Decimal.nzhead d) eqn:En; try discriminate; injection Hto as ->; [cbn in Hof; discriminate|by eapply DecimalFacts.nzhead_nonzero]. }
  all: cbn [Pos.of_uint] in Hof; injection Hof as Hof; cbn [show_uint length];
    match goal with H : Pos.of_uint_acc ?d ?a = _ |- _ => pose proof (of_uint_acc_lower d a) as Hl; rewrite H in Hl; pose proof (Z.pow_nonneg 10 (#(show_uint d)) ltac:(lia)) end;
    rewrite Nat2Z.inj_succ, Z.sub_1_r, Z.pred_succ; nia.
Qed.

Lemma show_int_length k n : 0 < k → Z.abs n < 10 ^ k → #(show_int n) ≤ k + 1.
Proof.
  intros Hk Hn. assert (∀ p, Z.pos p < 10 ^ k → #(show_uint (Pos.to_uint p)) ≤ k) as Hp.
  { intros p Hp. pose proof (show_pos_length p). destruct (decide (#(show_uint (Pos.to_uint p)) ≤ k)) as [|Hgt]; [done|].
    pose proof (Z.pow_le_mono_r 10 k (#(show_uint (Pos.to_uint p)) - 1)). lia. }
  unfold show_int. destruct n as [|p|p]; cbn [Z.to_int]; [cbn; lia| |].
  - specialize (Hp p Hn). lia.
  - specialize (Hp p ltac:(lia)). cbn [length]. lia.
Qed.

Lemma pad_length n x k : 0 < k → Z.abs x < 10 ^ k → Z.of_nat n ≤ k + 1 → #(pad n x) ≤ k + 1.
Proof.
  intros Hk Hx Hn. pose proof (show_int_length k x Hk Hx) as Hs. unfold pad.
  assert (∀ t : str, #t ≤ k + 1 → #(replicate (n - length t) 48 ++ t) ≤ k + 1) as Hp.
  { intros t Ht. rewrite length_app, length_replicate. lia. }
  repeat case_match; subst; try (by apply Hp).
  cbn [length] in *. rewrite length_app, length_replicate. lia.
Qed.

(** The buffer of 128 characters holds the time whatever the numbers are. *)
Lemma stamp_fits dt : time_ok dt → sprintf 128 (stamp dt) = Ok (stamp dt).
Proof.
  intros (H1 & H2 & H3 & H4 & H5 & H6). unfold in_s in *. change (2 ^ (64 - 1)) with (2 ^ 63) in *.
  assert (∀ n x, - 2 ^ 63 ≤ x < 2 ^ 63 → (n ≤ 6)%nat → #(pad n x) ≤ 20) as Hp.
  { intros n x Hx Hn. apply (pad_length n x 19); lia. }
  unfold sprintf. rewrite (proj2 (Z.ltb_lt _ _)); [done|]. unfold stamp. rewrite !length_app. cbn [length].
  pose proof (Hp 2%nat _ H1 ltac:(lia)). pose proof (Hp 2%nat _ H2 ltac:(lia)). pose proof (Hp 2%nat _ H3 ltac:(lia)).
  pose proof (Hp 2%nat _ H4 ltac:(lia)). pose proof (Hp 2%nat _ H5 ltac:(lia)). pose proof (Hp 6%nat _ H6 ltac:(lia)). lia.
Qed.

(** ** Lemmas: the ring of files *)

Lemma file_name_inj pref i j : in_s 32 i → in_s 32 j → file_name pref i = file_name pref j → i = j.
Proof.
  unfold file_name. intros Hi Hj E. apply app_inv_head, app_inv_tail in E.
  pose proof (get_int_printed i 0 [] Hi I) as Gi. pose proof (get_int_printed j 0 [] Hj I) as Gj.
  rewrite E, Gj in Gi. by injection Gi.
Qed.

(** The number of the file of a volume. *)
Definition ring (max : Z) (k : nat) : Z := Z.of_nat k mod max + 1.

Lemma ring_range max k : 1 ≤ max → 1 ≤ ring max k ≤ max.
Proof. intros Hm. unfold ring. pose proof (Z.mod_pos_bound (Z.of_nat k) max ltac:(lia)). lia. Qed.

Lemma ring_next max k : 1 ≤ max < 2 ^ 31 - 1 →
  (if s32 (ring max k + 1) >? max then 1 else s32 (ring max k + 1)) = ring max (S k).
Proof.
  intros Hm. pose proof (ring_range max k ltac:(lia)). rewrite swrap_small by (unfold in_s; lia).
  unfold ring in *. rewrite Nat2Z.inj_succ, <- Z.add_1_r. pose proof (Z.mod_pos_bound (Z.of_nat k) max ltac:(lia)) as Hr.
  pose proof (Z.div_mod (Z.of_nat k) max ltac:(lia)) as Hd. set (q := Z.of_nat k / max) in *. set (r := Z.of_nat k mod max) in *.
  destruct (r + 1 + 1 >? max) eqn:E; rewrite Z.gtb_ltb in E; b2p.
  - replace (Z.of_nat k + 1) with (0 + (q + 1) * max) by nia. rewrite Z.mod_add, Z.mod_0_l by lia. done.
  - replace (Z.of_nat k + 1) with ((r + 1) + q * max) by nia. rewrite Z.mod_add, Z.mod_small by lia. lia.
Qed.

Lemma ring_distinct max k j : 1 ≤ max → (k < j)%nat → Z.of_nat j < Z.of_nat k + max → ring max k ≠ ring max j.
Proof.
  intros Hm Hkj Hj E. unfold ring in E.
  pose proof (Z.div_mod (Z.of_nat k) max ltac:(lia)). pose proof (Z.div_mod (Z.of_nat j) max ltac:(lia)).
  set (a := Z.of_nat k / max) in *. set (b := Z.of_nat j / max) in *. assert (Z.of_nat k mod max = Z.of_nat j mod max) as Er by lia.
  rewrite Er in *. destruct (decide (b ≤ a)); nia.
Qed.

Section rotation.

Context (creates : str → bool) (name : str) (priority size max : Z).
Hypothesis Hmax : 1 ≤ max < 2 ^ 31 - 1.
Hypothesis Hcreates : ∀ i, 1 ≤ i ≤ max → creates (file_name name i) = true.

Definition part_step (p : part) (s : LogState) : result LogState :=
  match p with Text t x => Ok (log_put t x s) | End t dt => log_endl creates t dt s end.

(** The state of a log with the volumes [v] and the unfinished messages
    [pending]. *)
Record logging (s : LogState) (v : list (list Z) * list Z) (pending : Z → str) : Prop := {
  lo_os : lg_os s = Some (mkOf (file_name name (ring max (length v.1))) true);
  lo_index : lg_currentFileIndex s = ring max (length v.1);
  lo_pref : lg_logFileNamePref s = name;
  lo_priority : lg_priority s = priority;
  lo_size : lg_LogFileSize s = size;
  lo_max : lg_MaxLogFiles s = max;
  lo_pending : ∀ t, message t s = pending t;
  lo_last : lg_files s !! file_name name (ring max (length v.1)) = Some v.2;
  lo_files : ∀ k w, v.1 !! k = Some w → #(v.1) < Z.of_nat k + max → lg_files s !! file_name name (ring max k) = Some w;
  lo_others : ∀ f, (∀ i, 1 ≤ i ≤ max → f ≠ file_name name i) → lg_files s !! f = None;
  lo_console : lg_console s = [] }.

Lemma name_differs (v : list (list Z)) k : (k < length v)%nat → #v < Z.of_nat k + max →
  file_name name (ring max (length v)) ≠ file_name name (ring max k).
Proof.
  intros Hk Hl E. pose proof (ring_range max k ltac:(lia)). pose proof (ring_range max (length v) ltac:(lia)).
  apply file_name_inj in E; [|unfold in_s; lia..]. symmetry in E. exact (ring_distinct max k (length v) ltac:(lia) Hk Hl E).
Qed.

Lemma logging_put s v pending t x :
  logging s v pending → logging (log_put t x s) v (λ u, if decide (u = t) then pending t ++ x else pending u).
Proof.
  intros []. split; try done. intros u. unfold message, log_put. cbn [lg_with_message lg_messages].
  rewrite <- (lo_pending0 t), <- (lo_pending0 u). unfold message. destruct (decide (u = t)) as [->|].
  - by rewrite lookup_insert_eq.
  - by rewrite lookup_insert_ne.
Qed.

(** A line into the current file. *)
Lemma logging_write s v pending text o :
  logging s v pending → lg_os s = Some o → logging (write_log o text s) (v.1, v.2 ++ text) pending.
Proof.
  intros [] Ho. rewrite lo_os0 in Ho. injection Ho as <-. unfold write_log. cbn [of_good of_name]. rewrite lo_last0. change (default [] (Some v.2)) with v.2.
  split; try done; cbn [lg_with_os lg_files fst snd].
  - apply lookup_insert_eq.
  - intros k w Hk Hl. rewrite lookup_insert_ne; [by apply lo_files0|].
    apply name_differs; [|done]. by eapply lookup_lt_Some.
  - intros f Hf. rewrite lookup_insert_ne; [by apply lo_others0|]. apply not_eq_sym, Hf. apply ring_range. lia.
Qed.

(** The next file. *)
Lemma logging_rotate s v pending : logging s v pending → logging (rotate creates s) (v.1 ++ [v.2], []) pending.
Proof.
  intros []. unfold rotate. cbv zeta. rewrite lo_index0, lo_max0. cbn [lg_with_index lg_logFileNamePref]. rewrite lo_pref0, ring_next by done.
  assert (length (v.1 ++ [v.2]) = S (length v.1)) as Hlen by (rewrite length_app; cbn; lia).
  pose proof (ring_range max (S (length v.1)) ltac:(lia)) as Hr.
  unfold open_file. rewrite Hcreates by done.
  split; cbn [lg_with_os lg_with_index lg_os lg_currentFileIndex lg_logFileNamePref lg_priority lg_LogFileSize lg_MaxLogFiles lg_files lg_console fst snd];
    rewrite ?Hlen; try done.
  - apply lookup_insert_eq.
  - intros k w Hk Hl. rewrite <- Hlen.
    rewrite lookup_insert_ne by (apply name_differs; [by eapply lookup_lt_Some|rewrite Hlen; lia]).
    apply lookup_app_Some in Hk as [Hk|[Hk Hw]]; [apply lo_files0; [done|lia]|].
    assert (k = length v.1) as ->. { apply list_lookup_singleton_Some in Hw as [? _]. lia. }
    rewrite Nat.sub_diag in Hw. by injection Hw as <-.
  - intros f Hf. rewrite lookup_insert_ne; [by apply lo_others0|]. by apply not_eq_sym, Hf.
Qed.

Lemma logging_end s v pending t dt :
  logging s v pending → time_ok dt →
  ∃ s', log_endl creates t dt s = Ok s' ∧
    logging s' (add_line size v (record_text t dt (pending t))) (λ u, if decide (u = t) then [] else pending u).
Proof.
  intros Hl Hdt. unfold log_endl. rewrite stamp_fits, bind_Ok by done. eexists. split; [reflexivity|].
  assert (∀ s' v', logging s' v' pending → logging (lg_with_message t [] s') v' (λ u, if decide (u = t) then [] else pending u)) as Hclear.
  { intros s' v' []. split; try done. intros u. unfold message. cbn [lg_with_message lg_messages]. destruct (decide (u = t)) as [->|].
    - by rewrite lookup_insert_eq.
    - rewrite lookup_insert_ne by done. apply lo_pending0. }
  apply Hclear. pose proof Hl as []. rewrite lo_os0. unfold tellp. cbn [of_good of_name]. rewrite lo_last0, lo_size0. change (default [] (Some v.2)) with v.2.
  unfold add_line, record_text. rewrite (lo_pending0 t). split_if.
  - pose proof (logging_rotate s v pending Hl) as Hr. pose proof (lo_os _ _ _ Hr) as Ho. rewrite Ho.
    apply (logging_write _ _ _ _ _ Hr Ho).
  - rewrite lo_os0. by apply (logging_write _ _ _ _ _ Hl).
Qed.

Lemma logging_parts ps : ∀ s v pending,
  logging s v pending → Forall (λ p, match p with End _ dt => time_ok dt | _ => True end) ps →
  ∃ s' pending', foreach part_step ps s = Ok s' ∧ logging s' (foldl (add_line size) v (lines_of pending ps)) pending'.
Proof.
  induction ps as [|[t x|t dt] ps IH]; intros s v pending Hl Hps; [by exists s, pending|..];
    apply Forall_cons in Hps as [Hp Hps]; cbn [foreach part_step lines_of foldl].
  - apply IH; [by apply logging_put|done].
  - destruct (logging_end s v pending t dt Hl Hp) as (s' & E & Hl'). rewrite E, bind_Ok. by apply IH.
Qed.

(** A call is its parts. *)
Lemma log_step_parts c s :
  call_ok c → log_step creates c s = foreach part_step (parts (lg_priority s) c) s.
Proof.
  assert (∀ t x (s : LogState), #x ≤ ACE_MAXLOGMSGLEN → log_format t x s = Ok (log_put t x s)) as Hf.
  { intros t x s' Hx. unfold log_format, sprintf. by rewrite (proj2 (Z.ltb_lt _ _)) by lia. }
  destruct c as [t x|t dt|t x|t lp x dt|t lp x dt|t lp xs dt]; cbn [call_ok log_step parts foreach part_step].
  - done.
  - intros _. by destruct (log_endl _ _ _ _).
  - intros Hx. by rewrite Hf.
  - intros [Hx _]. unfold log_level. rewrite Hf by done. destruct (decide (lg_priority s ≤ lp)).
    + rewrite (proj2 (Z.ltb_ge _ _)) by lia. rewrite bind_Ok. cbn [foreach part_step]. rewrite bind_Ok. by destruct (log_endl _ _ _ _).
    + by rewrite (proj2 (Z.ltb_lt _ _)) by lia.
  - intros [Hx _]. unfold icc_log. rewrite Hf, Z.gtb_ltb by done. destruct (decide (lg_priority s ≤ lp)).
    + rewrite (proj2 (Z.ltb_ge _ _)) by lia. rewrite bind_Ok. cbn [foreach part_step]. rewrite bind_Ok. by destruct (log_endl _ _ _ _).
    + by rewrite (proj2 (Z.ltb_lt _ _)) by lia.
  - intros _. unfold log_chain. destruct (decide (lg_priority s ≤ lp)).
    + rewrite (proj2 (Z.leb_le _ _)) by done. clear Hf l. revert s. induction xs as [|x xs IH]; intros s; cbn [foldl fmap list_fmap app foreach part_step].
      * by destruct (log_endl _ _ _ _).
      * rewrite bind_Ok. apply IH.
    + by rewrite (proj2 (Z.leb_gt _ _)) by lia.
Qed.

Lemma logging_calls cs : ∀ s v pending,
  logging s v pending → Forall call_ok cs →
  ∃ s' pending', foreach (log_step creates) cs s = Ok s' ∧
    logging s' (foldl (add_line size) v (lines_of pending (mjoin (parts priority <$> cs)))) pending'.
Proof.
  intros s v pending Hl Hcs.
  assert (foreach (log_step creates) cs s = foreach part_step (mjoin (parts priority <$> cs)) s) as ->.
  { assert (lg_priority s = priority) as Hp by apply Hl. clear Hl. revert s Hp. induction Hcs as [|c cs Hc Hcs IH]; intros s Hp; [done|].
    change (mjoin (parts priority <$> c :: cs)) with (parts priority c ++ mjoin (parts priority <$> cs)). rewrite foreach_app. cbn [foreach]. rewrite log_step_parts, Hp by done.
    destruct (foreach part_step (parts priority c) s) as [s'|] eqn:E; [|done]. rewrite !bind_Ok. apply IH.
    eapply (foreach_inv part_step (λ s, lg_priority s = priority)); [|exact Hp|exact E].
    intros [t x|t dt] s1 s2 H1 Hs; cbn in Hs; inv_ok; [done|].
    unfold log_endl in Hs. inv_ok. destruct (lg_os s1) as [o|]; [|done]. cbn.
    repeat match goal with |- context [if ?b then _ else _] => destruct b end; unfold rotate, open_file, write_log; cbn;
      repeat (case_match; cbn); done. }
  apply logging_parts; [done|]. apply Forall_join, Forall_fmap. eapply Forall_impl; [exact Hcs|].
  intros [t x|t dt|t x|t lp x dt|t lp x dt|t lp xs dt] Hc; cbn [call_ok] in Hc; unfold compose, parts; cbv beta iota;
    repeat case_decide; repeat (apply List.Forall_cons; [tauto|]); try apply List.Forall_nil.
  apply Forall_app. split; [apply Forall_fmap; by apply Forall_true|by apply List.Forall_cons].
Qed.

End rotation.

(** ** Lemmas: volumes *)

Lemma volumes_fold size lines : ∀ v,
  let w := foldl (add_line size) v lines in mjoin (w.1 ++ [w.2]) = mjoin (v.1 ++ [v.2]) ++ mjoin lines.
Proof.
  induction lines as [|r lines IH]; intros v; cbn [foldl]; [by rewrite app_nil_r|].
  cbv zeta in IH |- *. rewrite IH, mjoin_cons, app_assoc. f_equal. unfold add_line.
  split_if; cbn [fst snd]; rewrite !join_app; cbn; by rewrite ?app_nil_r, <- ?app_assoc.
Qed.

(** The volumes are the lines, and none exceeds the size by more than a line. *)
Lemma volumes_join size lines : mjoin (volumes size lines) = mjoin lines.
Proof. apply (volumes_fold size lines ([], [])). Qed.

Lemma volumes_bounded size len lines :
  0 ≤ len → Forall (λ r, #r ≤ len) lines → Forall (λ v, #v ≤ Z.max 0 size + len) (volumes size lines).
Proof.
  intros Hlen Hl. unfold volumes.
  assert (∀ v, Forall (λ v, #v ≤ Z.max 0 size + len) (v.1 ++ [v.2]) →
    let w := foldl (add_line size) v lines in Forall (λ v, #v ≤ Z.max 0 size + len) (w.1 ++ [w.2])) as Hf.
  { induction Hl as [|r lines Hr _ IH]; intros v Hv; cbn [foldl]; [done|]. apply IH. unfold add_line.
    apply Forall_app in Hv as [H1 H2]. apply Forall_cons in H2 as [H2 _]. split_if; cbn [fst snd].
    - apply Forall_app. split; [apply Forall_app; by repeat constructor|]. repeat constructor. lia.
    - apply Forall_app. split; [done|]. constructor; [|done]. rewrite length_app. lia. }
  apply Hf. cbn. repeat constructor. cbn. lia.
Qed.

(** With a negative size every line has a volume of its own. *)
Lemma negative_size_volumes size lines : size < 0 → volumes size lines = [] :: lines.
Proof.
  intros Hs. unfold volumes.
  assert (∀ v, let w := foldl (add_line size) v lines in w.1 ++ [w.2] = v.1 ++ [v.2] ++ lines) as Hf.
  { induction lines as [|r lines IH]; intros v; cbn [foldl]; [by rewrite app_nil_r|]. cbv zeta in IH |- *. rewrite IH.
    unfold add_line. rewrite (proj2 (Z.ltb_lt _ _)) by lia. cbn [fst snd]. by rewrite <- app_assoc. }
  apply (Hf ([], [])).
Qed.

Lemma log_opened creates backups name priority size max now s0 :
  name ≠ [] → 1 ≤ max → creates (file_name name 1) = true →
  log_open creates backups name priority size max now Log_initial = Ok s0 →
  logging name priority size max s0 ([], []) (λ _, []).
Proof.
  intros Hn Hm Hc Ho. unfold log_open in Ho. rewrite bool_decide_eq_false_2 in Ho by done.
  cbn [Log_initial lg_os] in Ho. rewrite bool_decide_eq_true_2 in Ho by done. cbn [assert_] in Ho. rewrite bind_Ok in Ho.
  destruct (if 0 <? backups then _ else _) as [prune|]; [|done]. rewrite !bind_Ok in Ho. injection Ho as <-.
  assert (ring max 0 = 1) as Hr by (unfold ring; rewrite Z.mod_0_l by lia; done).
  unfold open_file. change (name ++ literal "1.txt") with (file_name name 1). rewrite Hc.
  split; cbn [lg_with_settings lg_with_os lg_with_name lg_os lg_currentFileIndex lg_logFileNamePref lg_priority lg_LogFileSize lg_MaxLogFiles lg_files
    lg_console Log_initial fst snd length]; rewrite ?Hr; try done.
  - apply lookup_insert_eq.
  - intros f Hf. rewrite lookup_insert_ne; [apply lookup_empty|]. apply not_eq_sym, Hf. lia.
Qed.

(** ** The theorem *)

(** C22: the log keeps the last lines, whole and in order.  A process opens its
    log with a ring of files, all of which can be created; then its threads
    make any calls in any order, with texts that fit the buffer.  No call
    faults, and the files hold the lines divided into volumes: each line
    consists of what its thread put since its last line, whatever the other
    threads did in between; a line below the priority is not there; a new
    volume begins where the last one had exceeded the size, so that none is
    longer than the size and one line; file [k mod max + 1] has volume [k], for
    the last [max] volumes; and the process has written no other file. *)
Theorem log_rotates creates backups name priority size max now cs s0 len :
  name ≠ [] → 1 ≤ max < 2 ^ 31 - 1 → (∀ i, 1 ≤ i ≤ max → creates (file_name name i) = true) →
  log_open creates backups name priority size max now Log_initial = Ok s0 → Forall call_ok cs →
  0 ≤ len → Forall (λ r, #r ≤ len) (log_lines priority cs) →
  ∃ s, foreach (log_step creates) cs s0 = Ok s ∧
    let vols := volumes size (log_lines priority cs) in
    mjoin vols = mjoin (log_lines priority cs) ∧ Forall (λ v, #v ≤ Z.max 0 size + len) vols ∧
    (∀ k v, vols !! k = Some v → #vols ≤ Z.of_nat k + max → lg_files s !! file_name name (Z.of_nat k mod max + 1) = Some v) ∧
    (∀ f, (∀ i, 1 ≤ i ≤ max → f ≠ file_name name i) → lg_files s !! f = None) ∧ lg_console s = [].
Proof.
  intros Hn Hm Hc Ho Hcs Hlen Hl.
  pose proof (log_opened creates backups name priority size max now s0 Hn ltac:(lia) (Hc 1 ltac:(lia)) Ho) as H0.
  destruct (logging_calls creates name priority size max Hm Hc cs s0 _ _ H0 Hcs) as (s & pending & E & Hs).
  exists s. split; [done|]. cbv zeta. split; [apply volumes_join|]. split; [by apply volumes_bounded|].
  unfold volumes. change (lines_of (λ _, []) (mjoin (parts priority <$> cs))) with (log_lines priority cs) in Hs.
  set (v := foldl _ _ _) in *. split; [|split; [apply Hs|apply Hs]].
  intros k w Hk Hv. rewrite length_app in Hv. cbn [length] in Hv. apply lookup_app_Some in Hk as [Hk|[Hk Hw]].
  - apply (lo_files _ _ _ _ _ _ _ Hs); [done|lia].
  - assert (k = length v.1) as ->. { apply list_lookup_singleton_Some in Hw as [? _]. lia. }
    rewrite Nat.sub_diag in Hw. injection Hw as <-. apply (lo_last _ _ _ _ _ _ _ Hs).
Qed.

(** ** What goes wrong *)

Section faults.

Context (creates : str → bool) {un : Uninit}.

(** A file that cannot be created: the lines go nowhere, not even to the
    console, and no call says so. *)
Lemma uncreated_file_silent name t dt s :
  lg_os s = Some (mkOf name false) → -1 ≤ lg_LogFileSize s → time_ok dt →
  log_endl creates t dt s = Ok (lg_with_message t [] s).
Proof.
  intros Ho Hs Hdt. unfold log_endl. rewrite stamp_fits, bind_Ok, Ho by done. unfold tellp. cbn [of_good].
  rewrite (proj2 (Z.ltb_ge _ _)) by lia. rewrite Ho. done.
Qed.

(** A process that opens its log again with a file is aborted. *)
Lemma opened_twice_aborts backups name priority size max now s :
  lg_os s ≠ None → name ≠ [] → log_open creates backups name priority size max now s = Fault AssertFailed.
Proof.
  intros Ho Hn. unfold log_open. rewrite bool_decide_eq_false_2 by done. by rewrite bool_decide_eq_false_2.
Qed.

(** A message of more than 4096 characters is written past the end of the
    buffer. *)
Lemma long_message_overflows t level text dt s :
  lg_priority s ≤ level → ACE_MAXLOGMSGLEN < #text → icc_log creates t level text dt s = Fault OutOfBounds.
Proof.
  intros Hp Ht. unfold icc_log, log_format, sprintf. rewrite Z.gtb_ltb, (proj2 (Z.ltb_ge _ _)) by lia.
  by rewrite (proj2 (Z.ltb_ge _ _)) by lia.
Qed.

(** Without a slash in the name the archive of the old files is put into a
    directory of that name. *)
Example archive_without_slash :
  backup_command (literal "log") (literal "T") =
  literal "if [ -e " ++ [34] ++ literal "log1.txt" ++ [34] ++ literal " ]; then tar cvf log/log.T.tar.gz log*.txt 2>/dev/null; fi".
Proof. reflexivity. Qed.

(** A size of 2048 MB in the broker's file is a negative number of bytes, and
    each line begins a new file. *)
Example broker_size_overflows : s32 (2048 * 1024 * 1024) = - 2 ^ 31.
Proof. reflexivity. Qed.

(** A broker whose file has no sizes for the log: each line replaces all that
    were there before. *)
Lemma unset_sizes_keep_last_line t dt s o name :
  lg_os s = Some o → lg_logFileNamePref s = name → lg_LogFileSize s < -1 → lg_MaxLogFiles s < 1 → 0 ≤ lg_currentFileIndex s < 2 ^ 31 - 1 →
  creates (file_name name 1) = true → time_ok dt →
  ∃ s', log_endl creates t dt s = Ok s' ∧ lg_files s' !! file_name name 1 = Some (record_text t dt (message t s)) ∧
    lg_currentFileIndex s' = 1.
Proof.
  intros Ho Hn Hs Hm Hi Hc Hdt. unfold log_endl. rewrite stamp_fits, bind_Ok, Ho by done. eexists. split; [reflexivity|].
  rewrite (proj2 (Z.ltb_lt _ _)) by (unfold tellp; destruct (of_good o); lia).
  unfold rotate. cbv zeta. rewrite swrap_small by (unfold in_s; lia). rewrite Z.gtb_ltb, (proj2 (Z.ltb_lt _ _)) by lia.
  unfold open_file. cbn [lg_with_index lg_logFileNamePref]. rewrite Hn, Hc. cbn [lg_with_os lg_os]. unfold write_log. cbn [of_good of_name].
  cbn [lg_with_message lg_with_os lg_files lg_currentFileIndex lg_with_index]. rewrite !lookup_insert_eq. split; [|done].
  unfold record_text. done.
Qed.

Lemma unset_sizes_broker cf now s s' :
  getConfigStr str_Log (literal "maxLogFileSize") cf = [] → getConfigStr str_Log (literal "maxLogFiles") cf = [] →
  broker_log_open creates cf now s = Ok s' → lg_LogFileSize s' < -1 ∧ lg_MaxLogFiles s' < 1.
Proof.
  intros H1 H2. unfold broker_log_open, getConfigInt. rewrite H1, H2. unfold log_open. intros E. cbv zeta in E.
  apply bind_inv in E as (s1 & _ & E). injection E as <-. by cbn.
Qed.

End faults.

(** ** Witness *)

(** Two threads; the second line of thread 7 is put together in three calls,
    between which thread 8 writes one; a debug message is suppressed. *)
Definition demo_time : DateTime := mkDT 11 18 9 14 45 123.
Definition demo_calls : list log_call :=
  [CIcc 7 LM_INFO (literal "started") demo_time; CPut 7 (literal "port "); CIcc 8 LM_DEBUG (literal "x") demo_time;
   CChain 8 LM_ERROR [literal "lost "; show_int 12] demo_time; CPut 7 (show_int 10001); CEndl 7 demo_time].

Lemma log_rotates_witness :
  ∃ s0 s, log_open (λ _, true) 0 (literal "log/x") LM_INFO 40 2 [] Log_initial = Ok s0 ∧
    foreach (log_step (λ _, true)) demo_calls s0 = Ok s ∧
    lg_files s !! file_name (literal "log/x") 1 =
      Some (literal "11/18 09:14:45.000123@(7)started" ++ [10] ++ literal "11/18 09:14:45.000123@(8)lost 12" ++ [10]) ∧
    lg_files s !! file_name (literal "log/x") 2 = Some (literal "11/18 09:14:45.000123@(7)port 10001" ++ [10]).
Proof.
  destruct (log_rotates (λ _, true) 0 (literal "log/x") LM_INFO 40 2 [] demo_calls) with (s0 := match log_open (λ _, true) 0 (literal "log/x") LM_INFO 40 2 [] Log_initial with Ok s => s | _ => Log_initial end) (len := 100)
    as (s & E & _ & _ & Hf & _).
  - done.
  - lia.
  - done.
  - reflexivity.
  - unfold demo_calls. repeat (apply List.Forall_cons; [|]); [..|apply List.Forall_nil]; try done; unfold call_ok, time_ok, demo_time, in_s; cbn; lia.
  - lia.
  - vm_compute. repeat constructor; discriminate.
  - eexists _, s. split; [reflexivity|]. split; [exact E|].
    split; [apply (Hf 0%nat)|apply (Hf 1%nat)]; vm_compute; done.
Defined.
