(* ===== verification/Threads.v ===== *)
(** * Threads: the threads of a process and their manager (icc/ThreadManager.cpp,
      icc/ThreadManager.h, icc/Thread.cpp)

    [Thread::activate] has the manager create a thread and enter a descriptor of
    it in a list; the thread takes itself off the list when [svc] has returned,
    and one that is to be joined goes to a second list; [wait] blocks until the
    first list is empty and then joins and deletes what is in the second.

    [Manager] has the lists, the descriptors on a heap, and what the operating
    system knows: threads that were created and have not been entered yet, those
    that run, and those that were joined.  [turn] is a step of some thread: the
    sections under [m_lock], and the two parts of [spawn], which does not take
    it.  One thread may be in [wait]. *)
From S2P Require Import Prelude.

(** ** State *)

Definition THR_DETACHED : Z := 64.
Definition THR_DAEMON : Z := 256.
Definition THR_JOINABLE : Z := 65536.

Record ThreadDescriptor := mkTD { td_thrId : Z; td_thrHandle : Z; td_tm : bool; td_flags : Z; td_terminated : bool }.

(** Where the caller of [wait] is: waiting for the condition, woken, with the
    descriptors it has still to join, or back with 0. *)
Inductive waiter := NotWaiting | Blocked | Woken | Joining (rest : list Z) | Returned.

(** [os_created]: threads whose creator has not entered them, with their flags;
    [os_running]: threads that have not called [exit]; [os_joined]: the calls of
    [thr_join] that have returned. *)
Record Manager := mkManager {
  tm_heap : gmap Z ThreadDescriptor;
  tm_next : Z;
  m_thrList : list Z;
  m_terminatedThrList : list Z;
  tm_waiter : waiter;
  os_created : list (Z * Z);
  os_running : gset Z;
  os_joined : list Z }.

Definition ThreadManager_new : Manager := mkManager ∅ 1 [] [] NotWaiting [] ∅ [].

Definition tm_with_heap h s := mkManager h (tm_next s) (m_thrList s) (m_terminatedThrList s) (tm_waiter s) (os_created s) (os_running s) (os_joined s).
Definition tm_with_lists l t s := mkManager (tm_heap s) (tm_next s) l t (tm_waiter s) (os_created s) (os_running s) (os_joined s).
Definition tm_with_waiter w s := mkManager (tm_heap s) (tm_next s) (m_thrList s) (m_terminatedThrList s) w (os_created s) (os_running s) (os_joined s).
Definition tm_with_os c r j s := mkManager (tm_heap s) (tm_next s) (m_thrList s) (m_terminatedThrList s) (tm_waiter s) c r j.

Definition td_at (p : Z) (s : Manager) : result ThreadDescriptor :=
  match tm_heap s !! p with Some td => Ok td | None => Fault UseAfterFree end.

(** ** The manager *)

(** The test of [terminate] and of [wait]. *)
Definition joinable (flags : Z) : bool :=
  (Z.land flags (Z.lor THR_DETACHED THR_DAEMON) =? 0) || negb (Z.land flags THR_JOINABLE =? 0).

(** [m_zeroCond.broadcast ()]. *)
Definition broadcast (w : waiter) : waiter := match w with Blocked => Woken | _ => w end.

Definition registerAsTerminated (td : Z) (s : Manager) : Manager :=
  tm_with_lists (m_thrList s) (m_terminatedThrList s ++ [td]) s.

(** [std::list::remove]: every entry. *)
Definition removeThr (td : Z) (s : Manager) : result Manager :=
  d ← td_at td s;
  let s := tm_with_heap (<[td := mkTD (td_thrId d) (td_thrHandle d) false (td_flags d) (td_terminated d)]> (tm_heap s)) s in
  let s := tm_with_lists (filter (λ x, x ≠ td) (m_thrList s)) (m_terminatedThrList s) s in
  Ok (if (length (m_thrList s) =? 0)%nat then tm_with_waiter (broadcast (tm_waiter s)) s else s).

(** [ThreadDescriptor::terminate]. *)
Definition terminate (td : Z) (s : Manager) : result Manager :=
  d ← td_at td s;
  if td_terminated d then Ok s
  else
    let s := tm_with_heap (<[td := mkTD (td_thrId d) (td_thrHandle d) (td_tm d) (td_flags d) true]> (tm_heap s)) s in
    if td_tm d then
      let s := if joinable (td_flags d) then registerAsTerminated td s else s in
      removeThr td s
    else Ok s.

(** [findThread]: the first descriptor with the id. *)
Fixpoint find_thread (l : list Z) (tid : Z) (s : Manager) : result (option Z) :=
  match l with
  | [] => Ok None
  | td :: l =>
      d ← td_at td s;
      if td_thrId d =? tid then Ok (Some td) else find_thread l tid s
  end.

Definition findThread (tid : Z) (s : Manager) : result (option Z) := find_thread (m_thrList s) tid s.

(** [exit], which is under [m_lock]; [tid]: the thread that calls it. *)
Definition tm_exit (tid : Z) (s : Manager) : result Manager :=
  td ← findThread tid s;
  match td with Some td => terminate td s | None => Ok s end.

Definition appendThr (tid thandle flags : Z) (s : Manager) : Manager :=
  let p := tm_next s in
  mkManager (<[p := mkTD tid thandle true flags false]> (tm_heap s)) (p + 1) (m_thrList s ++ [p]) (m_terminatedThrList s)
    (tm_waiter s) (os_created s) (os_running s) (os_joined s).

Section manager.

(** [spawn] reads the id through pointers that [thr_create] has set to variables
    of its own, after it has returned: [stale id] is what is there. *)
Context (stale : Z → Z).

(** [spawn] up to the return of [thr_create]: what it gave is the argument. *)
Definition spawn_create (created : option Z) (flags : Z) (s : Manager) : Z * Manager :=
  match created with
  | Some tid => (0, tm_with_os (os_created s ++ [(tid, flags)]) ({[tid]} ∪ os_running s) (os_joined s) s)
  | None => (-1, s)
  end.

(** Its rest, for the [i]-th of the threads that were created. *)
Definition spawn_append (i : nat) (s : Manager) : Manager :=
  match os_created s !! i with
  | Some (tid, flags) => appendThr (stale tid) (stale tid) flags (tm_with_os (delete i (os_created s)) (os_running s) (os_joined s) s)
  | None => s
  end.

(** What [svcRun] does with the manager when [svc] has returned. *)
Definition svcRun_exit (tid : Z) (s : Manager) : result Manager :=
  tm_exit tid (tm_with_os (os_created s) (os_running s ∖ {[tid]}) (os_joined s) s).

(** The loop of [wait] at the test of its condition; when the list is empty the
    second list is copied, and left as it is. *)
Definition wait_test (s : Manager) : Manager :=
  if (0 <? length (m_thrList s))%nat then tm_with_waiter Blocked s
  else tm_with_waiter (Joining (m_terminatedThrList s)) s.

(** A turn of its last loop, without the lock. *)
Definition wait_join (s : Manager) : result Manager :=
  match tm_waiter s with
  | Joining (td :: rest) =>
      d ← td_at td s;
      let s := if joinable (td_flags d) then tm_with_os (os_created s) (os_running s) (os_joined s ++ [td_thrHandle d]) s else s in
      Ok (tm_with_waiter (Joining rest) (tm_with_heap (delete td (tm_heap s)) s))
  | Joining [] => Ok (tm_with_waiter Returned s)
  | _ => Ok s
  end.

(** A step of some thread. *)
Inductive turn :=
  | TCreate (created : option Z) (flags : Z)
  | TAppend (i : nat)
  | TExit (tid : Z)
  | TWait
  | TWake
  | TTimeout
  | TJoin.

Definition tm_step (e : turn) (s : Manager) : result Manager :=
  match e with
  | TCreate created flags => Ok (spawn_create created flags s).2
  | TAppend i => Ok (spawn_append i s)
  | TExit tid => svcRun_exit tid s
  | TWait | TWake => Ok (wait_test s)
  | TTimeout => Ok (tm_with_waiter NotWaiting s)
  | TJoin => wait_join s
  end.

Fixpoint tm_run (es : list turn) (s : Manager) : result Manager :=
  match es with
  | [] => Ok s
  | e :: es => s ← tm_step e s; tm_run es s
  end.

End manager.

(** ** What the manager does *)

(** The threads that were created and not entered, those that were entered and
    have not ended, the ids of those to be joined that have ended, in order, and
    what these were when a [wait] found that no thread was left. *)
Record Spec := mkSpec { sp_created : list (Z * Z); sp_live : list (Z * Z); sp_done : list Z; sp_waited : option (list Z) }.

Definition spec_step (e : turn) (sp : Spec) : Spec :=
  match e with
  | TCreate (Some tid) flags => mkSpec (sp_created sp ++ [(tid, flags)]) (sp_live sp) (sp_done sp) (sp_waited sp)
  | TAppend i =>
      match sp_created sp !! i with
      | Some x => mkSpec (delete i (sp_created sp)) (sp_live sp ++ [x]) (sp_done sp) (sp_waited sp)
      | None => sp
      end
  | TExit tid =>
      mkSpec (sp_created sp) (filter (λ x, x.1 ≠ tid) (sp_live sp))
        (sp_done sp ++ (filter (λ x, x.1 = tid ∧ joinable x.2 = true) (sp_live sp)).*1) (sp_waited sp)
  | TWait | TWake => mkSpec (sp_created sp) (sp_live sp) (sp_done sp) (if decide (sp_live sp = []) then Some (sp_done sp) else sp_waited sp)
  | _ => sp
  end.

Definition spec_run (es : list turn) (sp : Spec) : Spec := foldl (λ sp e, spec_step e sp) sp es.

(** The turns the system and the application may take.  The id of a new thread
    is none of a thread that runs; a thread ends after it was entered; [wait] is
    called again only if it timed out. *)
Definition allowed (e : turn) (s : Manager) : Prop :=
  match e with
  | TCreate (Some tid) _ => tid ∉ os_running s
  | TCreate None _ => True
  | TAppend i => is_Some (os_created s !! i)
  | TExit tid => tid ∈ os_running s ∧ tid ∉ (os_created s).*1
  | TWait => tm_waiter s = NotWaiting
  | TWake => tm_waiter s = Woken ∨ tm_waiter s = Blocked
  | TTimeout => tm_waiter s = Woken ∨ tm_waiter s = Blocked
  | TJoin => ∃ rest, tm_waiter s = Joining rest
  end.

Fixpoint legal (stale : Z → Z) (es : list turn) (s : Manager) : Prop :=
  match es with
  | [] => True
  | e :: es => allowed e s ∧ ∀ s', tm_step stale e s = Ok s' → legal stale es s'
  end.

(** ** Lemmas *)

(** A descriptor of a thread that runs, and of one that waits to be joined. *)
Definition runs (s : Manager) (p : Z) (x : Z * Z) : Prop := tm_heap s !! p = Some (mkTD x.1 x.1 true x.2 false).
Definition ended (s : Manager) (p tid : Z) : Prop :=
  ∃ td, tm_heap s !! p = Some td ∧ td_thrHandle td = tid ∧ joinable (td_flags td) = true.

(** The waiter, when [k] of the threads that are done were joined. *)
Definition waits_for (k : nat) (s : Manager) (sp : Spec) : Prop :=
  match tm_waiter s with
  | Joining rest => ∃ m, (k + m ≤ length (sp_done sp))%nat ∧ rest = take m (drop k (m_terminatedThrList s)) ∧ sp_waited sp = Some (take (k + m) (sp_done sp))
  | Returned => sp_waited sp = Some (take k (sp_done sp))
  | _ => k = 0%nat ∧ sp_waited sp = None
  end.

Record tm_ok (s : Manager) (sp : Spec) : Prop := {
  ok_created : os_created s = sp_created sp;
  ok_live : Forall2 (runs s) (m_thrList s) (sp_live sp);
  ok_ids : NoDup ((sp_created sp).*1 ++ (sp_live sp).*1);
  ok_running : ∀ tid, tid ∈ os_running s ↔ tid ∈ (sp_created sp).*1 ++ (sp_live sp).*1;
  ok_lists : NoDup (m_thrList s ++ m_terminatedThrList s);
  ok_below : Forall (λ p, p < tm_next s) (m_thrList s ++ m_terminatedThrList s);
  ok_blocked : tm_waiter s = Blocked → m_thrList s ≠ [];
  ok_done : ∃ k, (k ≤ length (sp_done sp))%nat ∧ os_joined s = take k (sp_done sp) ∧ length (m_terminatedThrList s) = length (sp_done sp) ∧
    Forall2 (ended s) (drop k (m_terminatedThrList s)) (drop k (sp_done sp)) ∧ waits_for k s sp }.

Lemma new_ok : tm_ok ThreadManager_new (mkSpec [] [] [] None).
Proof.
  split; try done; try apply NoDup_nil_2; try constructor.
  - intros H. by apply elem_of_empty in H.
  - intros H. by apply not_elem_of_nil in H.
  - exists 0%nat. split_and!; done.
Qed.

(** What holds of the descriptors of a list is kept when they are. *)
Lemma Forall2_kept {A} (R R' : Z → A → Prop) l l' :
  (∀ p x, p ∈ l → R p x → R' p x) → Forall2 R l l' → Forall2 R' l l'.
Proof.
  intros H HF. induction HF as [|p x l l' Hx HF IH]; constructor; [apply H; [by left|done]|]. apply IH. intros q y Hq. apply H. by right.
Qed.

Lemma runs_kept s s' l live :
  (∀ p, p ∈ l → tm_heap s' !! p = tm_heap s !! p) → Forall2 (runs s) l live → Forall2 (runs s') l live.
Proof. intros H. apply Forall2_kept. intros p x Hp Hr. unfold runs. by rewrite H. Qed.

Lemma ended_kept s s' l ids :
  (∀ p, p ∈ l → tm_heap s' !! p = tm_heap s !! p) → Forall2 (ended s) l ids → Forall2 (ended s') l ids.
Proof. intros H. apply Forall2_kept. intros p x Hp (td & Htd & He). exists td. by rewrite H. Qed.

(** The thread that ends is found. *)
Lemma find_thread_ok tid f l live s :
  Forall2 (runs s) l live → NoDup live.*1 → (tid, f) ∈ live →
  ∃ l1 p l2 live1 live2, l = l1 ++ p :: l2 ∧ live = live1 ++ (tid, f) :: live2 ∧
    Forall2 (runs s) l1 live1 ∧ Forall2 (runs s) l2 live2 ∧ runs s p (tid, f) ∧ find_thread l tid s = Ok (Some p).
Proof.
  intros HF. induction HF as [|p x l live Hx HF IH]; intros Hnd Hin; [by apply elem_of_nil in Hin|].
  rewrite fmap_cons in Hnd. apply NoDup_cons in Hnd as [Hn Hnd]. cbn [find_thread]. unfold td_at. pose proof Hx as Hx'. unfold runs in Hx'. rewrite Hx', bind_Ok. cbn [td_thrId].
  apply elem_of_cons in Hin as [<-|Hin].
  - change ((tid, f).1) with tid. rewrite Z.eqb_refl. by exists [], p, l, [], live.
  - destruct (Z.eqb_spec x.1 tid) as [<-|_].
    + exfalso. apply Hn. apply list_elem_of_fmap. by exists (x.1, f).
    + destruct (IH Hnd Hin) as (l1 & q & l2 & v1 & v2 & -> & -> & H1 & H2 & H3 & H4). exists (p :: l1), q, l2, (x :: v1), v2. split_and!; try done. by constructor.
Qed.

Lemma filter_id {A} (P : A → Prop) `{∀ x, Decision (P x)} l : Forall P l → filter P l = l.
Proof. induction 1 as [|x l Hx HF IH]; [done|]. by rewrite filter_cons_True, IH. Qed.

(** [std::list::remove] of an entry that is there once. *)
Lemma filter_ne_app (l1 l2 : list Z) p : p ∉ l1 ++ l2 → filter (λ x, x ≠ p) (l1 ++ p :: l2) = l1 ++ l2.
Proof.
  rewrite not_elem_of_app. intros [H1 H2]. rewrite filter_app, filter_cons_False by auto.
  f_equal; apply filter_id, Forall_forall; intros x Hx ->; done.
Qed.

(** The same of the threads. *)
Lemma live_ends tid f (v1 v2 : list (Z * Z)) :
  NoDup (v1 ++ (tid, f) :: v2).*1 →
  filter (λ x, x.1 ≠ tid) (v1 ++ (tid, f) :: v2) = v1 ++ v2 ∧
  (filter (λ x, x.1 = tid ∧ joinable x.2 = true) (v1 ++ (tid, f) :: v2)).*1 = if joinable f then [tid] else [].
Proof.
  intros Hnd. assert (Forall (λ x : Z * Z, x.1 ≠ tid) (v1 ++ v2)) as HF.
  { rewrite fmap_app, fmap_cons, NoDup_app, NoDup_cons in Hnd. destruct Hnd as (_ & Hd & Hn & _).
    apply Forall_forall. intros x Hx <-. apply elem_of_app in Hx as [Hx|Hx]; apply (list_elem_of_fmap_2 fst) in Hx; [|done].
    apply (Hd _ Hx). by left. }
  apply Forall_app in HF as [H1 H2]. rewrite !filter_app. split.
  - rewrite filter_cons_False by (intros Hx; by apply Hx). by rewrite !filter_id.
  - assert (∀ v, Forall (λ x : Z * Z, x.1 ≠ tid) v → filter (λ x : Z * Z, x.1 = tid ∧ joinable x.2 = true) v = []) as Hv.
    { intros v Hv. apply filter_none. rewrite <- Forall_forall. eapply Forall_impl; [exact Hv|]. intros x Hx [? _]. done. }
    rewrite (Hv v1) by done. destruct (joinable f) eqn:E.
    + rewrite filter_cons_True by done. by rewrite Hv.
    + rewrite filter_cons_False by (cbn; rewrite E; intros [_ ?]; done). by rewrite Hv.
Qed.

(** [terminate] of a thread that runs. *)
Lemma terminate_ok p tid f s :
  runs s p (tid, f) →
  ∃ s', terminate p s = Ok s' ∧ tm_heap s' = <[p := mkTD tid tid false f true]> (tm_heap s) ∧
    m_thrList s' = filter (λ x, x ≠ p) (m_thrList s) ∧
    m_terminatedThrList s' = m_terminatedThrList s ++ (if joinable f then [p] else []) ∧
    tm_next s' = tm_next s ∧ os_created s' = os_created s ∧ os_running s' = os_running s ∧ os_joined s' = os_joined s ∧
    tm_waiter s' = if decide (m_thrList s' = []) then broadcast (tm_waiter s) else tm_waiter s.
Proof.
  intros Hr. unfold terminate, td_at. rewrite Hr, bind_Ok. cbn [td_terminated td_thrId td_thrHandle td_tm td_flags fst snd].
  set (s1 := if joinable f then _ else _).
  assert (tm_heap s1 = <[p := mkTD tid tid true f true]> (tm_heap s) ∧ m_thrList s1 = m_thrList s ∧
    m_terminatedThrList s1 = m_terminatedThrList s ++ (if joinable f then [p] else []) ∧ tm_next s1 = tm_next s ∧
    os_created s1 = os_created s ∧ os_running s1 = os_running s ∧ os_joined s1 = os_joined s ∧ tm_waiter s1 = tm_waiter s)
    as (E1 & E2 & E3 & E4 & E5 & E6 & E7 & E8).
  { unfold s1. destruct (joinable f); split_and!; try done. cbn. by rewrite app_nil_r. }
  unfold removeThr, td_at. rewrite E1, lookup_insert_eq, bind_Ok. cbn [td_thrId td_thrHandle td_flags td_terminated].
  set (l := filter _ _).
  eexists. split; [reflexivity|]. unfold l. cbn. rewrite E2.
  destruct (filter (λ x, x ≠ p) (m_thrList s)) as [|y l'] eqn:El; cbn [length Nat.eqb]; split_and!; cbn; rewrite ?E1, ?E2, ?El, ?insert_insert_eq, ?E8; done.
Qed.

(** A descriptor that goes to the second list, or to none. *)
Lemma NoDup_moved (l1 l2 t x : list Z) p : NoDup ((l1 ++ p :: l2) ++ t) → x = [p] ∨ x = [] → NoDup ((l1 ++ l2) ++ t ++ x).
Proof.
  intros Hnd Hx. rewrite <- Permutation_middle in Hnd. cbn in Hnd. destruct Hx as [->| ->].
  - by rewrite app_assoc, <- Permutation_cons_append.
  - rewrite app_nil_r. by apply NoDup_cons in Hnd as [_ ?].
Qed.

(** What the waiter has copied stays when more threads end. *)
Lemma waits_for_grows k s s' sp sp' d q :
  waits_for k s sp → (k ≤ length (sp_done sp))%nat → length (m_terminatedThrList s) = length (sp_done sp) →
  m_terminatedThrList s' = m_terminatedThrList s ++ d → sp_done sp' = sp_done sp ++ q → sp_waited sp' = sp_waited sp →
  tm_waiter s' = tm_waiter s ∨ tm_waiter s' = broadcast (tm_waiter s) → waits_for k s' sp'.
Proof.
  unfold waits_for. intros Hw Hk Hlen Ht Hd Hs Hcase. rewrite Ht, Hd, Hs.
  assert (tm_waiter s' = tm_waiter s ∨ tm_waiter s = Blocked ∧ tm_waiter s' = Woken) as [-> |[E ->]].
  { destruct Hcase as [?|E]; [by left|]. rewrite E. destruct (tm_waiter s); cbn; tauto. }
  - destruct (tm_waiter s); try done.
    + destruct Hw as (m & M1 & -> & M2). exists m. rewrite drop_app_le by lia. rewrite !take_app_le by (rewrite ?length_drop; lia).
      rewrite length_app. split_and!; [lia|done|done].
    + by rewrite take_app_le.
  - by rewrite E in Hw.
Qed.

Section steps.

Context (stale : Z → Z) (Hstale : ∀ x, stale x = x).

Lemma create_ok created flags s sp :
  tm_ok s sp → allowed (TCreate created flags) s → tm_ok (spawn_create created flags s).2 (spec_step (TCreate created flags) sp).
Proof.
  intros [L1 L2 L3 L4 L5 L6 L7 L8] Ha. destruct created as [tid|]; [|by split]. cbn [allowed] in Ha.
  assert ((sp_created sp ++ [(tid, flags)]).*1 ++ (sp_live sp).*1 ≡ₚ tid :: ((sp_created sp).*1 ++ (sp_live sp).*1)) as Hp.
  { rewrite fmap_app, <- app_assoc. symmetry. apply Permutation_middle. }
  split; cbn [spawn_create snd spec_step sp_created sp_live sp_done sp_waited os_created tm_with_os]; try done.
  - by rewrite L1.
  - rewrite Hp. apply NoDup_cons. split; [by rewrite <- L4|done].
  - intros x. cbn. rewrite Hp, elem_of_cons, <- L4. set_solver.
Qed.

Lemma append_ok i s sp : tm_ok s sp → allowed (TAppend i) s → tm_ok (spawn_append stale i s) (spec_step (TAppend i) sp).
Proof using Hstale.
  intros [L1 L2 L3 L4 L5 L6 L7 (k & K1 & K2 & K3 & K4 & K5)] [[tid f] Ha]. cbn [spec_step]. rewrite <- L1 in *. rewrite Ha. unfold spawn_append. rewrite Ha, !Hstale.
  set (s' := appendThr _ _ _ _).
  assert (∀ p, p ∈ m_thrList s ++ m_terminatedThrList s → tm_heap s' !! p = tm_heap s !! p) as Hheap.
  { intros p Hp. rewrite Forall_forall in L6. apply L6 in Hp. cbn. rewrite lookup_insert_ne; [done|lia]. }
  assert (tm_next s ∉ m_thrList s ++ m_terminatedThrList s) as Hfresh.
  { intros Hp. rewrite Forall_forall in L6. apply L6 in Hp. lia. }
  assert ((delete i (os_created s)).*1 ++ (sp_live sp ++ [(tid, f)]).*1 ≡ₚ (os_created s).*1 ++ (sp_live sp).*1) as Hp.
  { pose proof (fmap_Permutation fst _ _ (delete_Permutation (os_created s) i (tid, f) Ha)) as Hd. rewrite fmap_cons in Hd. cbn [fst] in Hd.
    rewrite Hd, fmap_app, app_assoc. cbn. symmetry. apply Permutation_cons_append. }
  split; cbn [sp_created sp_live sp_done sp_waited].
  - done.
  - cbn [m_thrList s' appendThr]. apply Forall2_app; [|constructor; [|constructor]; unfold runs; cbn; by rewrite lookup_insert_eq].
    eapply runs_kept; [|exact L2]. intros p Hin. apply Hheap, elem_of_app. by left.
  - by rewrite Hp.
  - intros x. cbn. by rewrite Hp.
  - cbn. rewrite <- app_assoc. cbn. apply NoDup_app in L5 as (N1 & N2 & N3). apply not_elem_of_app in Hfresh as [F1 F2].
    apply NoDup_app. split_and!; [done| |by apply NoDup_cons]. intros x Hx [->|Hx2]%elem_of_cons; [done|]. by apply (N2 x).
  - cbn. rewrite <- app_assoc. cbn. apply Forall_app in L6 as [F1 F2]. apply Forall_app. split; [|constructor; [lia|]]; (eapply Forall_impl; [eassumption|]); intros x Hx; cbn in *; lia.
  - cbn. intros _ E. apply (f_equal length) in E. rewrite length_app in E. cbn in E. lia.
  - exists k. split_and!; try done. eapply ended_kept; [|exact K4]. intros p Hin. apply Hheap, elem_of_app. right.
    cbn in Hin. rewrite <- (take_drop k (m_terminatedThrList s)), elem_of_app. by right.
Qed.

Lemma exit_ok tid s sp :
  tm_ok s sp → allowed (TExit tid) s → ∃ s', svcRun_exit tid s = Ok s' ∧ tm_ok s' (spec_step (TExit tid) sp).
Proof.
  intros [L1 L2 L3 L4 L5 L6 L7 (k & K1 & K2 & K3 & K4 & K5)] [Ha Hn]. rewrite L1 in Hn.
  apply L4, elem_of_app in Ha as [Ha|Ha]; [done|]. apply list_elem_of_fmap in Ha as ([tid' f] & -> & Ha). cbn [fst] in *.
  pose proof L3 as Hnd. apply NoDup_app in Hnd as (_ & _ & Hnd).
  set (s1 := tm_with_os (os_created s) (os_running s ∖ {[tid']}) (os_joined s) s).
  destruct (find_thread_ok tid' f (m_thrList s) (sp_live sp) s1) as (l1 & p & l2 & v1 & v2 & El & Ev & H1 & H2 & Hp & Hf); try done.
  rewrite El, Ev in *. destruct (live_ends tid' f v1 v2 Hnd) as [Hlive Hdone].
  unfold svcRun_exit, tm_exit, findThread. fold s1. change (m_thrList s1) with (m_thrList s). rewrite El, Hf, bind_Ok.
  destruct (terminate_ok p tid' f s1 Hp) as (s' & -> & Eh & Et & Em & Ex & Ec & Er & Ej & Ew). exists s'. split; [done|].
  pose proof L5 as Hnd5. rewrite <- app_assoc in Hnd5. cbn in Hnd5. apply NoDup_app in Hnd5 as (N1 & N2 & [N3 N4]%NoDup_cons).
  apply not_elem_of_app in N3 as [N5 N6].
  assert (p ∉ l1) as N7 by (intros Hin; apply (N2 p Hin); by left).
  change (m_thrList s1) with (m_thrList s) in Et. rewrite El, filter_ne_app in Et by (by apply not_elem_of_app).
  change (m_terminatedThrList s1) with (m_terminatedThrList s) in Em. change (tm_next s1) with (tm_next s) in Ex.
  assert (∀ x, x ≠ p → tm_heap s' !! x = tm_heap s !! x) as Hheap by (intros x Hx; rewrite Eh; by rewrite lookup_insert_ne).
  assert ((sp_created sp).*1 ++ (v1 ++ (tid', f) :: v2).*1 ≡ₚ tid' :: ((sp_created sp).*1 ++ (v1 ++ v2).*1)) as Hperm.
  { rewrite !fmap_app, fmap_cons, app_assoc, <- Permutation_middle. by rewrite app_assoc. }
  rewrite Hperm in L3. apply NoDup_cons in L3 as [Hntid L3].
  cbn [spec_step]. rewrite Ev, Hlive, Hdone. split; cbn [sp_created sp_live sp_done sp_waited].
  - by rewrite Ec.
  - rewrite Et. apply Forall2_app; [eapply runs_kept; [|exact H1]|eapply runs_kept; [|exact H2]];
      intros x Hx; apply Hheap; by intros ->.
  - done.
  - intros x. rewrite Er. cbn. rewrite elem_of_difference, L4, Hperm, elem_of_cons, elem_of_singleton. split; [tauto|]. intros Hx. split; [by right|]. by intros ->.
  - rewrite Et, Em. eapply NoDup_moved; [exact L5|]. destruct (joinable f); tauto.
  - rewrite Et, Em, Ex. rewrite <- app_assoc in L6. cbn in L6. rewrite Forall_app, Forall_cons, Forall_app in L6. destruct L6 as (F1 & F2 & F3 & F4).
    rewrite !Forall_app. split_and!; try done. destruct (joinable f); [by apply Forall_singleton|done].
  - rewrite Ew. destruct (decide (m_thrList s' = [])) as [E|E]; [|done]. intros Hb. by destruct (tm_waiter s1).
  - exists k. rewrite Ej. assert (k ≤ length (m_terminatedThrList s))%nat as Hk by lia.
    assert (length (m_terminatedThrList s') = length (sp_done sp ++ if joinable f then [tid'] else [])) as Elen.
    { rewrite Em, !length_app, K3. by destruct (joinable f). }
    split_and!; [rewrite length_app; lia|rewrite take_app_le by done; done|done| |].
    + rewrite Em, !drop_app_le by lia. apply Forall2_app.
      * eapply ended_kept; [|exact K4]. intros x Hx. apply Hheap. intros ->. apply N6. rewrite <- (take_drop k (m_terminatedThrList s)), elem_of_app. by right.
      * destruct (joinable f) eqn:Ef; [|done]. apply Forall2_cons. split; [|done]. exists (mkTD tid' tid' false f true). rewrite Eh. by rewrite lookup_insert_eq.
    + eapply waits_for_grows; [exact K5|done|done|exact Em|done|done|]. rewrite Ew. change (tm_waiter s1) with (tm_waiter s).
      destruct (decide _); tauto.
Qed.

(** The test of [wait]. *)
Lemma wait_test_ok e s sp :
  e = TWait ∨ e = TWake → tm_ok s sp → allowed e s → tm_ok (wait_test s) (spec_step e sp).
Proof.
  intros He [L1 L2 L3 L4 L5 L6 L7 (k & K1 & K2 & K3 & K4 & K5)] Ha.
  assert (k = 0%nat ∧ sp_waited sp = None) as [-> Hw].
  { unfold waits_for in K5. destruct He as [->| ->]; [rewrite Ha in K5; done|]. destruct Ha as [E|E]; by rewrite E in K5. }
  assert (spec_step e sp = mkSpec (sp_created sp) (sp_live sp) (sp_done sp) (if decide (sp_live sp = []) then Some (sp_done sp) else sp_waited sp)) as ->
    by (destruct He as [->| ->]; done).
  unfold wait_test. pose proof (Forall2_length _ _ _ L2) as Hlen.
  destruct (m_thrList s) as [|p l] eqn:El.
  - cbn [length Nat.ltb Nat.leb]. rewrite decide_True by (destruct (sp_live sp); [done|done]).
    split; rewrite ?El; try done; cbn [m_thrList tm_with_waiter]; rewrite ?El; try done.
    exists 0%nat. split_and!; try done. exists (length (sp_done sp)). cbn [sp_done sp_waited tm_with_waiter m_terminatedThrList]. rewrite drop_0, !take_ge by lia. split_and!; [lia|done|done].
  - cbn [length Nat.ltb Nat.leb]. rewrite decide_False by (intros E; by rewrite E in Hlen).
    split; cbn [m_thrList tm_with_waiter]; rewrite ?El; try done. exists 0%nat. by split_and!.
Qed.

(** The wait times out. *)
Lemma wait_timeout_ok s sp : tm_ok s sp → allowed TTimeout s → tm_ok (tm_with_waiter NotWaiting s) sp.
Proof.
  intros [L1 L2 L3 L4 L5 L6 L7 (k & K1 & K2 & K3 & K4 & K5)] Ha. split; try done.
  exists k. split_and!; try done. unfold waits_for in *. destruct Ha as [E|E]; by rewrite E in K5.
Qed.

(** A thread is joined. *)
Lemma join_ok s sp : tm_ok s sp → allowed TJoin s → ∃ s', wait_join s = Ok s' ∧ tm_ok s' sp.
Proof.
  intros [L1 L2 L3 L4 L5 L6 L7 (k & K1 & K2 & K3 & K4 & K5)] [rest Hr]. unfold wait_join. unfold waits_for in K5. rewrite Hr in K5 |- *.
  destruct K5 as (m & M1 & Hrest & M2). destruct rest as [|td rest].
  - eexists. split; [done|]. split; try done. exists k. split_and!; try done. unfold waits_for. cbn [tm_waiter tm_with_waiter].
    assert (m = 0%nat) as ->; [|by rewrite Nat.add_0_r in M2]. apply (f_equal length) in Hrest. rewrite length_take, length_drop in Hrest. cbn in Hrest. lia.
  - destruct m as [|m]; [done|]. destruct (drop k (m_terminatedThrList s)) as [|p ps] eqn:Ed; [done|]. cbn in Hrest. injection Hrest as <- ->.
    destruct (drop k (sp_done sp)) as [|tid tids] eqn:Ed2; [by inversion K4|]. apply Forall2_cons in K4 as [(d & Hd & <- & Hj) K4].
    unfold td_at. rewrite Hd, bind_Ok, Hj. eexists. split; [reflexivity|].
    assert (drop (S k) (m_terminatedThrList s) = ps) as Ed' by (rewrite <- Nat.add_1_r, <- drop_drop, Ed; done).
    assert (drop (S k) (sp_done sp) = tids) as Ed2' by (rewrite <- Nat.add_1_r, <- drop_drop, Ed2; done).
    assert (sp_done sp !! k = Some (td_thrHandle d)) as Hk by (rewrite <- (Nat.add_0_r k), <- lookup_drop, Ed2; done).
    assert ((td ∉ m_thrList s) ∧ (td ∉ ps)) as [N1 N2].
    { rewrite <- (take_drop k (m_terminatedThrList s)), Ed in L5. apply NoDup_app in L5 as (_ & Hd1 & Hd2). apply NoDup_app in Hd2 as (_ & _ & [? _]%NoDup_cons).
      split; [|done]. intros Hin. apply (Hd1 _ Hin). apply elem_of_app. right. by left. }
    split; try done.
    + eapply runs_kept; [|exact L2]. intros x Hx. cbn. rewrite lookup_delete_ne; [done|]. by intros ->.
    + exists (S k). cbn [os_joined m_terminatedThrList tm_with_waiter tm_with_heap tm_with_os].
      split_and!; [by apply lookup_lt_Some in Hk|by rewrite K2, (take_S_r _ _ _ Hk)|done| |].
      * rewrite Ed', Ed2'. eapply ended_kept; [|exact K4]. intros x Hx. cbn. rewrite lookup_delete_ne; [done|]. by intros ->.
      * exists m. cbn [tm_waiter tm_with_waiter tm_with_heap m_terminatedThrList]. cbn. rewrite Ed'. split_and!; [lia|done|]. by rewrite M2, Nat.add_succ_r.
Qed.

Lemma tm_step_ok e s sp : tm_ok s sp → allowed e s → ∃ s', tm_step stale e s = Ok s' ∧ tm_ok s' (spec_step e sp).
Proof using Hstale.
  intros Hok Ha. destruct e; cbn [tm_step].
  - eexists. split; [done|]. by apply create_ok.
  - eexists. split; [done|]. by apply append_ok.
  - by apply exit_ok.
  - eexists. split; [done|]. apply wait_test_ok; tauto.
  - eexists. split; [done|]. apply wait_test_ok; tauto.
  - eexists. split; [done|]. by apply wait_timeout_ok.
  - by apply join_ok.
Qed.

Lemma tm_run_ok es : ∀ s sp, tm_ok s sp → legal stale es s → ∃ s', tm_run stale es s = Ok s' ∧ tm_ok s' (spec_run es sp).
Proof using Hstale.
  induction es as [|e es IH]; intros s sp Hok Hl; [by exists s|]. destruct Hl as [Ha Hl].
  destruct (tm_step_ok e s sp Hok Ha) as (s1 & Hs & Hok1). cbn [tm_run]. rewrite Hs, bind_Ok. apply IH; [exact Hok1|by apply Hl].
Qed.

End steps.

(** The last loop of [wait] ends. *)
Lemma joins_all stale rest : ∀ s, tm_waiter s = Joining rest →
  (∀ p, p ∈ rest → ∃ td, tm_heap s !! p = Some td ∧ joinable (td_flags td) = true) → NoDup rest →
  ∃ s', tm_run stale (replicate (S (length rest)) TJoin) s = Ok s' ∧ tm_waiter s' = Returned.
Proof.
  induction rest as [|p rest IH]; intros s Hw Hin Hnd; cbn [length replicate tm_run tm_step]; unfold wait_join; rewrite Hw.
  - eexists. split; [by rewrite bind_Ok|]. done.
  - apply NoDup_cons in Hnd as [Hp Hnd]. destruct (Hin p) as (td & Htd & Hj); [by left|]. unfold td_at. rewrite Htd, !bind_Ok, Hj.
    set (s1 := tm_with_waiter _ _). destruct (IH s1) as (s' & Hr & Hw'); [done| |done|by exists s'].
    intros q Hq. destruct (Hin q) as (d & Hd & Hjd); [by right|]. exists d. split; [|done]. cbn. rewrite lookup_delete_ne; [done|]. by intros ->.
Qed.

(** ** Properties *)

(** C24: [wait] waits for every thread.  Whatever threads are created and end,
    each after its creator has entered it, and however their steps and those of
    one call of [wait] are interleaved, and if what [spawn] reads in the ended
    frame of [thr_create] is still the id that was there ([stale]), no step uses
    a descriptor after it was deleted; the manager's list has exactly the threads
    that were entered and have not ended; [wait] is blocked only while there is
    one; and when it returns 0 there was a moment with none left, and the threads
    joined are exactly those that were to be joined and had ended by then, once
    each and in that order.  A [wait] that was woken with no thread left returns
    after one step for each of them.  (Without the two provisions [wait] can
    block for ever: [early_end_blocks_wait], [stale_id_blocks_wait].) *)
Theorem wait_joins_threads stale es :
  (∀ x, stale x = x) → legal stale es ThreadManager_new →
  let sp := spec_run es (mkSpec [] [] [] None) in
  ∃ s, tm_run stale es ThreadManager_new = Ok s ∧
    Forall2 (λ p x, ∃ td, tm_heap s !! p = Some td ∧ td_thrId td = x.1 ∧ td_flags td = x.2) (m_thrList s) (sp_live sp) ∧
    (tm_waiter s = Blocked → sp_live sp ≠ []) ∧
    (tm_waiter s = Returned → sp_waited sp = Some (os_joined s)) ∧
    (sp_waited sp = None → os_joined s = []) ∧
    (tm_waiter s = Woken → sp_live sp = [] → ∃ s', tm_run stale (TWake :: replicate (S (length (sp_done sp))) TJoin) s = Ok s' ∧ tm_waiter s' = Returned).
Proof.
  intros Hst Hl sp. destruct (tm_run_ok stale Hst es _ _ new_ok Hl) as (s & Hr & Hok). fold sp in Hok. exists s.
  pose proof Hok as [L1 L2 L3 L4 L5 L6 L7 (k & K1 & K2 & K3 & K4 & K5)]. pose proof (Forall2_length _ _ _ L2) as Hlen.
  split; [done|]. split; [|split_and!].
  - eapply Forall2_impl; [exact L2|]. intros p x Hp. by exists (mkTD x.1 x.1 true x.2 false).
  - intros Hb E. apply (L7 Hb). rewrite E in Hlen. by destruct (m_thrList s).
  - intros E. unfold waits_for in K5. rewrite E in K5. by rewrite K2.
  - intros E. rewrite K2. unfold waits_for in K5. destruct (tm_waiter s); [by destruct K5 as [-> _]|by destruct K5 as [-> _]|by destruct K5 as [-> _]|destruct K5 as (m & _ & _ & E2)|]; congruence.
  - intros Hw E. unfold waits_for in K5. rewrite Hw in K5. destruct K5 as [-> _].
    assert (m_thrList s = []) as El by (rewrite E in Hlen; by destruct (m_thrList s)).
    cbn [tm_run tm_step]. rewrite bind_Ok. unfold wait_test. rewrite El. cbn [length Nat.ltb Nat.leb]. rewrite <- K3.
    set (s1 := tm_with_waiter _ s). destruct (joins_all stale (m_terminatedThrList s) s1) as (s' & Hrun & Hret); [done| | |].
    + intros p Hp. apply list_elem_of_lookup in Hp as [i Hi]. rewrite !drop_0 in K4.
      destruct (Forall2_lookup_l _ _ _ _ _ K4 Hi) as (tid & _ & td & Htd & _ & Hj). by exists td.
    + rewrite El in L5. done.
    + by exists s'.
Qed.

(** ** Faults *)

(** A thread that ends before its creator has entered it is not found; it is
    entered afterwards and never taken off, and [wait] blocks for ever. *)
Lemma early_end_blocks_wait tid flags :
  ∃ s, tm_run id [TCreate (Some tid) flags; TExit tid; TAppend 0; TWait] ThreadManager_new = Ok s ∧
    os_running s = ∅ ∧ os_created s = [] ∧ ∀ n, tm_run id (replicate n TWake) s = Ok s.
Proof.
  cbn. eexists. split; [reflexivity|]. cbn [os_running os_created]. split; [set_solver|]. split; [done|].
  induction n as [|n IH]; [done|]. cbn [replicate tm_run tm_step wait_test m_thrList tm_with_waiter length Nat.ltb Nat.leb]. rewrite bind_Ok. exact IH.
Qed.

(** [wait] leaves the second list as it is: the next one reads descriptors the
    first has deleted. *)
Example second_wait_use_after_free :
  tm_run id [TCreate (Some 7) THR_JOINABLE; TAppend 0; TExit 7; TWait; TJoin; TJoin; TWait; TJoin] ThreadManager_new = Fault UseAfterFree.
Proof. vm_compute. reflexivity. Qed.

(** The descriptor of a detached thread is taken off the list and not deleted. *)
Example detached_descriptor_leaks :
  (λ s, (m_thrList s, m_terminatedThrList s, dom (tm_heap s))) <$>
    match tm_run id [TCreate (Some 7) THR_DETACHED; TAppend 0; TExit 7; TWait; TJoin] ThreadManager_new with Ok s => Some s | Fault _ => None end
  = Some ([], [], {[1]}).
Proof. vm_compute. reflexivity. Qed.

(** When the frame of [thr_create] is not as it left it, the thread does not find
    its descriptor: [wait] blocks for ever. *)
Lemma stale_id_blocks_wait stale tid flags :
  stale tid ≠ tid → ∃ s, tm_run stale [TCreate (Some tid) flags; TAppend 0; TExit tid; TWait] ThreadManager_new = Ok s ∧
    tm_waiter s = Blocked ∧ os_created s = [] ∧ ∀ n, tm_run stale (replicate n TWake) s = Ok s.
Proof.
  intros Hne. cbn. unfold td_at at 1. cbn [tm_heap tm_with_os appendThr tm_next ThreadManager_new]. rewrite lookup_insert_eq, bind_Ok.
  cbn [td_thrId]. rewrite (proj2 (Z.eqb_neq _ _)), !bind_Ok by done. eexists. split; [reflexivity|]. split; [done|]. split; [done|].
  induction n as [|n IH]; [done|]. cbn [replicate tm_run tm_step wait_test m_thrList tm_with_waiter length Nat.ltb Nat.leb]. rewrite bind_Ok. exact IH.
Qed.

(** ** Example: two threads, one of them detached *)

Definition demo_threads : list turn :=
  [TCreate (Some 7) THR_JOINABLE; TCreate (Some 8) THR_DETACHED; TAppend 1; TAppend 0; TWait; TExit 8; TWake; TExit 7; TWake; TJoin; TJoin].

(** Checking a turn by evaluation. *)
Ltac legal_turn :=
  split; [first [exact I | reflexivity | left; reflexivity | right; reflexivity | eexists; reflexivity
    | apply (bool_decide_unpack _); vm_compute; exact I ]
  | intros ? E; vm_compute in E; injection E as <-].

Lemma demo_threads_legal : legal id demo_threads ThreadManager_new.
Proof. unfold demo_threads. repeat legal_turn. exact I. Qed.

Lemma wait_joins_threads_witness :
  ∃ s, tm_run id demo_threads ThreadManager_new = Ok s ∧ tm_waiter s = Returned ∧ os_joined s = [7].
Proof.
  destruct (wait_joins_threads id demo_threads) as (s & Hr & _ & _ & Hret & _).
  - reflexivity.
  - exact demo_threads_legal.
  - exists s. split; [exact Hr|]. vm_compute in Hr. injection Hr as <-. split; reflexivity.
Defined.
