(* ===== verification/PubSub.v ===== *)
(** * PubSub: what the topic manager promises, and that it keeps it

    The abstract broker has two sets: who subscribed to which topic, and which
    message is still owed to whom.  Publishing owes the message to the present
    subscribers; sending pays it.  The tables of msg/TopicManager.cpp implement
    this, with buffering (clients are ids) and without (clients are handlers);
    every message object is deleted once, when its last client has it.  The
    file SubscriptionInfo gives the subscriptions back after a restart. *)
From S2P Require Import Prelude CppLib Block OutputStream InputStream Socket MsgProtocol TopicManager.

(** ** The abstract broker *)

Section spec.

Context {C : Type} `{Countable C}.

(** [sp_lost]: what was published when nobody had subscribed to its topic. *)
Record Spec := mkSpec {
  sp_subs : gset (str * C);
  sp_owed : gset (C * Z);
  sp_lost : gset Z }.

Definition sp_messages (sp : Spec) : gset Z := set_map snd (sp_owed sp).

(** The clients that get a message of [topic], those that [ok] accepts. *)
Definition receivers (topic : str) (ok : C → bool) (sp : Spec) : gset C :=
  set_map snd (filter (λ x, x.1 = topic ∧ ok x.2 = true) (sp_subs sp)).

(** At the limit of [MaxBufferSize] messages everything owed is forgotten. *)
Definition spec_publish (topic : str) (p : Z) (ok : C → bool) (sp : Spec) : Spec :=
  let kept := if Z.of_nat (size (sp_messages sp)) >=? MaxBufferSize then ∅ else sp_owed sp in
  let to := receivers topic ok sp in
  mkSpec (sp_subs sp) (kept ∪ set_map (λ c, (c, p)) to)
    (if decide (to = ∅) then {[p]} ∪ sp_lost sp else sp_lost sp).

Definition spec_subscribe (topic : str) (c : C) (sp : Spec) : Spec :=
  mkSpec ({[(topic, c)]} ∪ sp_subs sp) (sp_owed sp) (sp_lost sp).
Definition spec_unsubscribe (topic : str) (c : C) (sp : Spec) : Spec :=
  mkSpec (sp_subs sp ∖ {[(topic, c)]}) (sp_owed sp) (sp_lost sp).
Definition spec_sent (p : Z) (c : C) (sp : Spec) : Spec :=
  mkSpec (sp_subs sp) (sp_owed sp ∖ {[(c, p)]}) (sp_lost sp).

(** What can happen to the broker. *)
Inductive event :=
  | Connect (h : Z) (sk : socket)
  | Subscribe (topic : str) (c : C) (h : Z)
  | Unsubscribe (topic : str) (c : C)
  | Publish (p : Z) (m : Message)
  | Sent (p : Z) (c : C)
  | Gone (h : Z)
  | Tick (t : Z).

Lemma elem_of_receivers topic ok sp c :
  c ∈ receivers topic ok sp ↔ (topic, c) ∈ sp_subs sp ∧ ok c = true.
Proof.
  unfold receivers. rewrite elem_of_map. split.
  - intros ([t x] & -> & [[Ht Hok] Hin]%elem_of_filter). cbn in *. by subst.
  - intros [Hin Hok]. exists (topic, c). rewrite elem_of_filter. done.
Qed.

Lemma elem_of_publish topic p ok sp c q :
  (c, q) ∈ sp_owed (spec_publish topic p ok sp) ↔
    ((c, q) ∈ sp_owed sp ∧ Z.of_nat (size (sp_messages sp)) < MaxBufferSize) ∨
    ((topic, c) ∈ sp_subs sp ∧ ok c = true ∧ q = p).
Proof.
  unfold spec_publish. cbn. rewrite elem_of_union, elem_of_map. setoid_rewrite elem_of_receivers.
  rewrite Z.geb_leb. split_if; set_solver by lia.
Qed.

End spec.
Arguments Spec C {_ _}.
Arguments event C : clear implicits.

(** ** With buffering *)

Section buffered.

Context {cfg : Settings}.

(** A new connection: [SubscriberHandler ()] on an open stream. *)
Definition SubscriberHandler_new (sk : socket) (now : Z) : SubscriberHandler := mkSub [48] 0 [] now sk false.

(** [this->id = id], as [handleInput] does before it subscribes. *)
Definition with_id (id : str) (s : SubscriberHandler) : SubscriberHandler :=
  mkSub id (sh_tmpMsg s) (sh_topic s) (sh_recentActiveTime s) (sh_stream s) (sh_writing s).

Definition connect (h : Z) (sk : socket) (b : Broker) : Broker :=
  with_subs (<[h := SubscriberHandler_new sk (br_now b)]> (br_subs b)) b.
Definition tick (t : Z) (b : Broker) : Broker :=
  mkBroker (br_mgr b) (br_msgs b) (br_subs b) (br_now b + t) (br_disk b).

(** The manager's part of each event. *)
Definition step_ (ev : event str) (b : Broker) : result Broker :=
  match ev with
  | Connect h sk => Ok (connect h sk b)
  | Subscribe topic id h =>
      s ← deref h (br_subs b);
      addSubscription_ topic id h (with_subs (<[h := with_id id s]> (br_subs b)) b)
  | Unsubscribe topic id => Ok (removeSubscription_ topic id b)
  | Publish p m => addMessage_ p (with_msgs (<[p := m]> (br_msgs b)) b)
  | Sent p id => onMessageSent_ p id b
  | Gone h => SubscriberHandler_delete h b
  | Tick t => Ok (tick t b)
  end.

Definition spec_step_ (sp : Spec str) (ev : event str) : Spec str :=
  match ev with
  | Subscribe topic id _ => spec_subscribe topic id sp
  | Unsubscribe topic id => spec_unsubscribe topic id sp
  | Publish p m => spec_publish (m_topic (msg_of m)) p (λ _, true) sp
  | Sent p id => spec_sent p id sp
  | Connect _ _ | Gone _ | Tick _ => sp
  end.

(** When an event can happen: objects are allocated at free addresses; a
    connection subscribes under one id; what is sent was queued; a handler
    goes away between two messages. *)
Definition enabled_ (ev : event str) (b : Broker) : Prop :=
  match ev with
  | Connect h _ => h ≠ 0 ∧ br_subs b !! h = None
  | Subscribe topic id h =>
      topic ≠ [] ∧ id ≠ [] ∧ h ≠ 0 ∧ is_Some (br_subs b !! h) ∧
      ∀ s, br_subs b !! h = Some s → sh_id s = id ∨ handler_of (sh_id s) b ≠ h
  | Publish p _ => p ≠ 0 ∧ br_msgs b !! p = None
  | Sent p id => queued_ b id p
  | Gone h => h ≠ 0 ∧ ∃ s, br_subs b !! h = Some s ∧ sh_tmpMsg s = 0 ∧ sh_id s ≠ []
  | Unsubscribe _ _ | Tick _ => True
  end.

Record refines_ (b : Broker) (sp : Spec str) : Prop := mkRefines_ {
  rf_subs_ : ∀ t c, (t, c) ∈ sp_subs sp ↔ c ∈ at_ t (subscriptionMap (br_mgr b));
  rf_owed_ : ∀ c p, (c, p) ∈ sp_owed sp ↔ queued_ b c p;
  rf_heap_ : dom (br_msgs b) = dom (PubMap2 (br_mgr b)) ∪ sp_lost sp;
  rf_lost_ : sp_lost sp ## dom (PubMap2 (br_mgr b)) }.

Lemma messages_dom_ b sp : inv b → refines_ b sp → sp_messages sp = dom (PubMap2 (br_mgr b)).
Proof.
  intros Hi Hr. apply set_eq. intros p. unfold sp_messages. rewrite elem_of_map.
  unfold PubMap2. rewrite pending_dom by apply Hi. split.
  - intros ([c q] & -> & Hq%(rf_owed_ _ _ Hr)). by exists c.
  - intros [c Hc]. exists (c, p). split; [done|]. by apply (rf_owed_ _ _ Hr).
Qed.

Lemma connect_inv h sk b : inv b → br_subs b !! h = None → inv (connect h sk b).
Proof.
  intros Hi Hh. split; try apply Hi.
  - intros id Hn. destruct (inv_handlers_ b Hi id Hn) as (s & Hs & Hid). exists s. split; [|done].
    cbn. rewrite lookup_insert_ne; [done|]. intros Heq. change (h = handler_of id b) in Heq. congruence.
  - intros t x Hx. destruct (inv_handlers b Hi t x Hx). split; [done|]. cbn. rewrite dom_insert_L. set_solver.
Qed.

(** A handler takes another id; it must not be registered under its old one. *)
Lemma with_id_inv h s id b :
  inv b → br_subs b !! h = Some s → sh_id s = id ∨ handler_of (sh_id s) b ≠ h →
  inv (with_subs (<[h := with_id id s]> (br_subs b)) b).
Proof.
  intros Hi Hs Hreg. split; try apply Hi.
  - intros c Hn. destruct (inv_handlers_ b Hi c Hn) as (s' & Hs' & Hc). cbn.
    change (handler_of c (with_subs _ b)) with (handler_of c b).
    destruct (decide (handler_of c b = h)) as [Hh|]; [|rewrite lookup_insert_ne by done; by exists s'].
    rewrite Hh, lookup_insert_eq. exists (with_id id s). split; [done|]. rewrite Hh in Hs'. simplify_eq.
    by destruct Hreg as [->|].
  - intros t x Hx. destruct (inv_handlers b Hi t x Hx). split; [done|]. cbn. rewrite dom_insert_L. set_solver.
Qed.

(** [new Msg] at a free address. *)
Lemma new_msg_inv p m b : inv b → p ≠ 0 → inv (with_msgs (<[p := m]> (br_msgs b)) b).
Proof.
  intros Hi Hp. split; try apply Hi; cbn.
  - rewrite dom_insert_L. pose proof (inv_live_ b Hi). set_solver.
  - rewrite dom_insert_L. pose proof (inv_live b Hi). set_solver.
  - rewrite lookup_insert_ne by done. apply Hi.
Qed.

(** [addMessage_] for a new message, by what is queued and allocated after it. *)
Lemma publish_ok_ p m b :
  inv b → p ≠ 0 → br_msgs b !! p = None →
  let X := at_ (m_topic (msg_of m)) (subscriptionMap (br_mgr b)) in
  let full := Z.of_nat (size (PubMap2 (br_mgr b))) >=? MaxBufferSize in
  ∃ b', addMessage_ p (with_msgs (<[p := m]> (br_msgs b)) b) = Ok b' ∧ inv b' ∧ calm b b' ∧
    direct (br_mgr b') = direct (br_mgr b) ∧
    (∀ c q, queued_ b' c q ↔ (queued_ b c q ∧ full = false) ∨ (c ∈ X ∧ q = p)) ∧
    (∀ q, br_msgs b' !! q = if decide (q = p) then Some m
                            else if decide (q ∈ dom (PubMap2 (br_mgr b)) ∧ full = true) then None else br_msgs b !! q) ∧
    (∀ c, c ∈ X → handler_of c b ≠ 0 → ∃ s, br_subs b' !! handler_of c b = Some s ∧ sh_writing s = true).
Proof.
  intros Hi Hp Hfree X full. set (b0 := with_msgs _ b).
  assert (p ∉ dom (PubMap2 (br_mgr b))) as N2 by (intros [x Hx]%(inv_live_ b Hi)%elem_of_dom; congruence).
  assert (p ∉ dom (PubMap3 (br_mgr b))) as N3 by (intros [x Hx]%(inv_live b Hi)%elem_of_dom; congruence).
  assert (inv b0) as Hi0 by (by apply new_msg_inv).
  assert (calm b b0) as Hc0 by (split; try done; intros; by left).
  destruct (addMessage_ok_ p m b0) as (b1 & b' & Hb1 & -> & Hi' & Hc & Hms & Hdir & Hq & Ht); try done.
  { cbn. by rewrite lookup_insert_eq. }
  destruct (checkBufferSize_ok_ b0 Hi0) as (b1' & Hb1' & _ & _ & _ & _ & _ & _ & Hb & Hkeep & Hdrop).
  rewrite Hb1' in Hb1. inv_ok. exists b'. split_and!; try done.
  - by etrans.
  - intros c q. rewrite Hq. unfold PubMap1 at 1. rewrite Hb. cbn [br_mgr b0 with_msgs]. fold full X.
    destruct full; cbn; [rewrite at_empty|]; clear; set_solver.
  - intros q. rewrite Hms. cbn [b0 br_mgr with_msgs br_msgs] in Hkeep, Hdrop. fold full in Hdrop.
    destruct (decide (q = p)) as [->|]; [by rewrite Hkeep, lookup_insert_eq|].
    destruct (decide (q ∈ dom (PubMap2 (br_mgr b)))) as [Hin|Hin].
    + rewrite Hdrop by done. destruct full; [by rewrite decide_True|]. rewrite decide_False by naive_solver. by rewrite lookup_insert_ne.
    + rewrite Hkeep, decide_False by naive_solver. by rewrite lookup_insert_ne.
Qed.

Lemma publish_refines_ p m b sp :
  inv b → refines_ b sp → p ≠ 0 → br_msgs b !! p = None →
  ∃ b', addMessage_ p (with_msgs (<[p := m]> (br_msgs b)) b) = Ok b' ∧ inv b' ∧
        refines_ b' (spec_publish (m_topic (msg_of m)) p (λ _, true) sp).
Proof.
  intros Hi Hr Hp Hfree. destruct (publish_ok_ p m b Hi Hp Hfree) as (b' & -> & Hi' & Hc & _ & Hq & Hms & _).
  exists b'. split; [done|]. split; [done|].
  set (X := at_ _ _) in *. set (full := _ >=? _) in *.
  assert (receivers (m_topic (msg_of m)) (λ _, true) sp = X) as Hto.
  { apply set_eq. intros c. rewrite elem_of_receivers, (rf_subs_ _ _ Hr). tauto. }
  assert (∀ q, q ∈ dom (PubMap2 (br_mgr b')) ↔ (q ∈ dom (PubMap2 (br_mgr b)) ∧ full = false) ∨ (q = p ∧ X ≠ ∅)) as HD.
  { intros q. unfold PubMap2. rewrite !pending_dom by (apply Hi || apply Hi'). setoid_rewrite Hq. split.
    - intros (c & [[? ?]|[? ->]]); [left|right; set_solver]. eauto.
    - intros [[[c ?] ?]|[-> [c Hc']%set_choose_L]]; eauto. }
  assert (∀ q, q ∈ dom (br_msgs b') ↔ q = p ∨ (q ∈ dom (br_msgs b) ∧ ¬ (q ∈ dom (PubMap2 (br_mgr b)) ∧ full = true))) as HM.
  { intros q. rewrite (elem_of_dom (br_msgs b')), (elem_of_dom (br_msgs b)), Hms.
    destruct (decide (q = p)); [split; eauto|]. destruct (decide _); [|tauto].
    split; [by intros [? [=]]|tauto]. }
  assert ((p ∉ sp_lost sp) ∧ (p ∉ dom (PubMap2 (br_mgr b)))) as [HL HP].
  { assert (p ∉ dom (br_msgs b)) as Hnd by (by apply not_elem_of_dom). rewrite (rf_heap_ _ _ Hr) in Hnd. set_solver. }
  pose proof (rf_heap_ _ _ Hr) as Hh. pose proof (rf_lost_ _ _ Hr) as Hl. split.
  - intros t c. cbn. rewrite (rf_subs_ _ _ Hr). by rewrite (cm_map _ _ Hc).
  - intros c q. rewrite elem_of_publish, Hq, (rf_owed_ _ _ Hr), (rf_subs_ _ _ Hr), (messages_dom_ b sp Hi Hr), size_dom.
    fold X. unfold full. rewrite Z.geb_leb, Z.leb_gt. tauto.
  - apply set_eq. intros q. rewrite HM, elem_of_union, HD, Hh. cbn. rewrite Hto. clear -Hl HL HP.
    destruct full, (decide (X = ∅)); set_solver.
  - intros q. rewrite HD. cbn. rewrite Hto. clear -Hl HL HP. destruct (decide (X = ∅)); set_solver.
Qed.

(** One event: the concrete step does not fault and does what the abstract step says. *)
Lemma step_refines_ ev b sp :
  enableBuffering = true → inv b → refines_ b sp → enabled_ ev b →
  ∃ b', step_ ev b = Ok b' ∧ inv b' ∧ refines_ b' (spec_step_ sp ev).
Proof.
  intros Hcfg Hi Hr He. destruct ev as [h sk|topic id h|topic id|p m|p id|h|t]; cbn [step_ spec_step_ enabled_] in *.
  - destruct He as [Hh Hn]. eexists. split; [done|]. split; [by apply connect_inv|]. split; apply Hr.
  - destruct He as (Ht & Hid & Hh & [s Hs] & Hreg). unfold deref. rewrite (proj2 (Z.eqb_neq _ _)), Hs, bind_Ok by done.
    destruct (addSubscription_ok_ topic id h (with_subs (<[h := with_id id s]> (br_subs b)) b))
      as (b' & -> & Hi' & _ & Hms & _ & _ & Hb & _ & Hmap & _); try done.
    { apply with_id_inv; auto. }
    { intros _. exists (with_id id s). split; [|done]. cbn. by rewrite lookup_insert_eq. }
    exists b'. split; [done|]. split; [done|]. split.
    + intros t c. cbn. rewrite Hmap, elem_of_union, (rf_subs_ _ _ Hr), elem_of_singleton. naive_solver.
    + intros c p. cbn. rewrite (rf_owed_ _ _ Hr). unfold PubMap1. by rewrite Hb.
    + unfold PubMap2. rewrite Hms, Hb. apply Hr.
    + unfold PubMap2. rewrite Hb. apply Hr.
  - destruct (removeSubscription_ok_ topic id b Hi) as [Hi' Hmap]. eexists. split; [done|]. split; [done|]. split.
    + intros t c. cbn [spec_unsubscribe sp_subs]. rewrite Hmap, elem_of_difference, (rf_subs_ _ _ Hr), elem_of_singleton. naive_solver.
    + apply Hr.
    + apply Hr.
    + apply Hr.
  - destruct He. by apply publish_refines_.
  - destruct (onMessageSent_ok_ p id b Hi He) as (b' & -> & Hi' & Hc & _ & _ & Hq & Hms & Hd).
    pose proof (queued_live_ b id p Hi He) as (_ & Hpd & _). pose proof (rf_lost_ _ _ Hr). pose proof (rf_heap_ _ _ Hr) as Hh.
    exists b'. split; [done|]. split; [done|]. split.
    + intros t c. cbn. rewrite (rf_subs_ _ _ Hr). by rewrite (cm_map _ _ Hc).
    + intros c q. cbn [spec_sent sp_owed]. rewrite Hq, elem_of_difference, (rf_owed_ _ _ Hr), elem_of_singleton. naive_solver.
    + rewrite Hd, Hms. destruct (bool_decide _); [|apply Hr]. rewrite dom_delete_L, Hh. cbn. set_solver.
    + rewrite Hd. cbn. destruct (bool_decide _); set_solver.
  - destruct He as (Hh & s & Hs & Ht & Hid).
    destruct (handler_delete_ok_ h s b) as (b' & -> & Hi' & Hm & Hms & Hb & _); try done.
    exists b'. split; [done|]. split; [done|]. split.
    + intros t c. rewrite Hm. apply Hr.
    + intros c p. unfold PubMap1. rewrite Hb. apply Hr.
    + unfold PubMap2. rewrite Hms, Hb. apply Hr.
    + unfold PubMap2. rewrite Hb. apply Hr.
  - eexists. split; [done|]. split; [split; apply Hi|split; apply Hr].
Qed.

(** A history in which every event can happen when its turn comes. *)
Fixpoint legal_ (evs : list (event str)) (b : Broker) : Prop :=
  match evs with
  | [] => True
  | ev :: evs => enabled_ ev b ∧ ∀ b', step_ ev b = Ok b' → legal_ evs b'
  end.
End buffered.

(** The manager when the broker starts for the first time. *)
Definition fresh_broker (now : Z) : Broker := mkBroker (empty_manager 1) ∅ ∅ now None.

Lemma fresh_inv `{Settings} now : inv (fresh_broker now).
Proof.
  split; try apply no_pending_linked; try done.
  by destruct enableBuffering.
Qed.

Lemma fresh_refines_ now : refines_ (fresh_broker now) (mkSpec ∅ ∅ ∅).
Proof. split; intros; cbn; rewrite ?at_empty; set_solver. Qed.

(** A whole history. *)
Lemma run_refines_ `{Settings} evs b sp :
  enableBuffering = true → inv b → refines_ b sp → legal_ evs b →
  ∃ b', foreach step_ evs b = Ok b' ∧ inv b' ∧ refines_ b' (foldl spec_step_ sp evs).
Proof.
  intros Hcfg. revert b sp. induction evs as [|ev evs IH]; intros b sp Hi Hr Hl; [by exists b|].
  destruct Hl as [He Hl]. destruct (step_refines_ ev b sp Hcfg Hi Hr He) as (b1 & Hs & Hi1 & Hr1).
  cbn. rewrite Hs, bind_Ok. by apply IH; auto.
Qed.

(** C7: with buffering, over any history of connections, subscriptions,
    publications, deliveries and disconnections that the code around the manager
    can make ([enabled_]: a connection subscribes under one id as long as it is
    registered, what is sent was queued, a handler goes away between two
    messages), the tables of the manager are the abstract broker: no call faults
    (no assertion, no use of a deleted object, no second delete), a message is
    owed to exactly those that had subscribed to its topic and have not received
    it, a publication that finds 100000 messages waiting ([MaxBufferSize]) drops
    them all first, the messages allocated are those that are owed and those
    that were published to nobody, and the tables stay consistent.  Where a
    connection takes a second id, see [second_subscription_dangles]. *)
Theorem manager_refines_pubsub `{Settings} evs now :
  enableBuffering = true → legal_ evs (fresh_broker now) →
  ∃ b', foreach step_ evs (fresh_broker now) = Ok b' ∧ inv b' ∧ refines_ b' (foldl spec_step_ (mkSpec ∅ ∅ ∅) evs).
Proof. intros Hcfg Hl. apply run_refines_; auto using fresh_inv, fresh_refines_. Qed.

(** A message published when nobody subscribes to its topic is in no queue,
    so that no later event deletes it. *)
Theorem unclaimed_message_leaks `{Settings} evs b sp p :
  enableBuffering = true → inv b → refines_ b sp → legal_ evs b → p ∈ sp_lost sp →
  ∃ b', foreach step_ evs b = Ok b' ∧ p ∈ dom (br_msgs b') ∧ ∀ c, ¬ queued_ b' c p.
Proof.
  intros Hcfg Hi Hr Hl Hp. destruct (run_refines_ evs b sp Hcfg Hi Hr Hl) as (b' & -> & Hi' & Hr').
  exists b'. split; [done|].
  assert (p ∈ sp_lost (foldl spec_step_ sp evs)) as Hp'.
  { clear -Hp. revert sp Hp. induction evs as [|ev evs IH]; intros sp Hp; [done|]. apply IH.
    destruct ev; cbn; try done. destruct (decide _); set_solver. }
  split; [rewrite (rf_heap_ _ _ Hr'); set_solver|]. intros c Hq%(queued_live_ _ _ _ Hi').
  pose proof (rf_lost_ _ _ Hr'). set_solver.
Qed.

(** ** Without buffering *)

Section direct.

Context {cfg : Settings}.

Definition step (ev : event Z) (b : Broker) : result Broker :=
  match ev with
  | Connect h sk => Ok (connect h sk b)
  | Subscribe topic h _ => addSubscription topic h b
  | Unsubscribe topic h => Ok (removeSubscription topic h b)
  | Publish p m => addMessage p (with_msgs (<[p := m]> (br_msgs b)) b)
  | Sent p h => onMessageSent p h b
  | Gone h => SubscriberHandler_delete h b
  | Tick t => Ok (tick t b)
  end.

(** A message goes to the subscribers that are active when it is published;
    a handler that goes away loses its subscriptions, not what it is owed. *)
Definition spec_step (ok : Z → bool) (sp : Spec Z) (ev : event Z) : Spec Z :=
  match ev with
  | Subscribe topic h _ => spec_subscribe topic h sp
  | Unsubscribe topic h => spec_unsubscribe topic h sp
  | Publish p m => spec_publish (m_topic (msg_of m)) p ok sp
  | Sent p h => spec_sent p h sp
  | Gone h => mkSpec (filter (λ x, x.2 ≠ h) (sp_subs sp)) (sp_owed sp) (sp_lost sp)
  | Connect _ _ | Tick _ => sp
  end.

Definition enabled (ev : event Z) (b : Broker) : Prop :=
  match ev with
  | Connect h _ => h ≠ 0 ∧ br_subs b !! h = None
  | Subscribe topic h _ => topic ≠ [] ∧ h ≠ 0 ∧ h ∈ dom (br_subs b)
  | Publish p _ => p ≠ 0 ∧ br_msgs b !! p = None
  | Sent p h => queued b h p
  | Gone h => h ≠ 0 ∧ ∃ s, br_subs b !! h = Some s ∧ sh_tmpMsg s = 0
  | Unsubscribe _ _ | Tick _ => True
  end.

Record refines (b : Broker) (sp : Spec Z) : Prop := mkRefines {
  rf_subs : ∀ t h, (t, h) ∈ sp_subs sp ↔ h ∈ at_ t (subscriptionMap1 (br_mgr b));
  rf_owed : ∀ h p, (h, p) ∈ sp_owed sp ↔ queued b h p;
  rf_heap : dom (br_msgs b) = dom (PubMap3 (br_mgr b)) ∪ sp_lost sp;
  rf_lost : sp_lost sp ## dom (PubMap3 (br_mgr b)) }.

Lemma messages_dom b sp : inv b → refines b sp → sp_messages sp = dom (PubMap3 (br_mgr b)).
Proof.
  intros Hi Hr. apply set_eq. intros p. unfold sp_messages. rewrite elem_of_map.
  unfold PubMap3. rewrite pending_dom by apply Hi. split.
  - intros ([c q] & -> & Hq%(rf_owed _ _ Hr)). by exists c.
  - intros [c Hc]. exists (c, p). split; [done|]. by apply (rf_owed _ _ Hr).
Qed.

(** [addMessage] for a new message, by what is queued and allocated after it. *)
Lemma publish_ok p m b :
  inv b → p ≠ 0 → br_msgs b !! p = None →
  let X := at_ (m_topic (msg_of m)) (subscriptionMap1 (br_mgr b)) in
  let full := Z.of_nat (size (PubMap3 (br_mgr b))) >=? MaxBufferSize in
  ∃ b', addMessage p (with_msgs (<[p := m]> (br_msgs b)) b) = Ok b' ∧ inv b' ∧ calm b b' ∧
    (∀ h q, queued b' h q ↔ (queued b h q ∧ full = false) ∨ (h ∈ X ∧ active b h = true ∧ q = p)) ∧
    (∀ q, br_msgs b' !! q = if decide (q = p) then Some m
                            else if decide (q ∈ dom (PubMap3 (br_mgr b)) ∧ full = true) then None else br_msgs b !! q) ∧
    (∀ h, h ∈ X → active b h = true → ∃ s, br_subs b' !! h = Some s ∧ sh_writing s = true).
Proof.
  intros Hi Hp Hfree X full. set (b0 := with_msgs _ b).
  assert (p ∉ dom (PubMap2 (br_mgr b))) as N2 by (intros [x Hx]%(inv_live_ b Hi)%elem_of_dom; congruence).
  assert (p ∉ dom (PubMap3 (br_mgr b))) as N3 by (intros [x Hx]%(inv_live b Hi)%elem_of_dom; congruence).
  assert (inv b0) as Hi0 by (apply new_msg_inv; done).
  assert (calm b b0) as Hc0 by (split; try done; intros; by left).
  destruct (addMessage_ok p m b0) as (b1 & b' & Hb1 & -> & Hi' & Hc & Hms & Hdir & Hq & Ht); try done.
  { cbn. by rewrite lookup_insert_eq. }
  destruct (checkBufferSize_ok b0 Hi0) as (b1' & Hb1' & _ & _ & _ & _ & _ & _ & Hb & Hkeep & Hdrop).
  rewrite Hb1' in Hb1. inv_ok. exists b'. split_and!; try done.
  - by etrans.
  - intros c q. rewrite Hq. unfold PubMap4 at 1. rewrite Hb. cbn [br_mgr b0 with_msgs]. fold full X.
    change (active b0 c) with (active b c). destruct full; cbn; [rewrite at_empty|]; clear; set_solver.
  - intros q. rewrite Hms. cbn [b0 br_mgr with_msgs br_msgs] in Hkeep, Hdrop. fold full in Hdrop.
    destruct (decide (q = p)) as [->|]; [by rewrite Hkeep, lookup_insert_eq|].
    destruct (decide (q ∈ dom (PubMap3 (br_mgr b)))) as [Hin|Hin].
    + rewrite Hdrop by done. destruct full; [by rewrite decide_True|]. rewrite decide_False by naive_solver. by rewrite lookup_insert_ne.
    + rewrite Hkeep, decide_False by naive_solver. by rewrite lookup_insert_ne.
Qed.

Lemma publish_refines p m b sp :
  inv b → refines b sp → p ≠ 0 → br_msgs b !! p = None →
  ∃ b', addMessage p (with_msgs (<[p := m]> (br_msgs b)) b) = Ok b' ∧ inv b' ∧
        refines b' (spec_publish (m_topic (msg_of m)) p (active b) sp).
Proof.
  intros Hi Hr Hp Hfree. destruct (publish_ok p m b Hi Hp Hfree) as (b' & -> & Hi' & Hc & Hq & Hms & _).
  exists b'. split; [done|]. split; [done|].
  set (Y := at_ _ _) in *. set (full := _ >=? _) in *.
  remember (receivers (m_topic (msg_of m)) (active b) sp) as X eqn:Hto.
  assert (∀ h, h ∈ X ↔ h ∈ Y ∧ active b h = true) as HX.
  { intros h. subst X. by rewrite elem_of_receivers, (rf_subs _ _ Hr). }
  assert (∀ q, q ∈ dom (PubMap3 (br_mgr b')) ↔ (q ∈ dom (PubMap3 (br_mgr b)) ∧ full = false) ∨ (q = p ∧ X ≠ ∅)) as HD.
  { intros q. unfold PubMap3. rewrite !pending_dom by (apply Hi || apply Hi'). setoid_rewrite Hq. split.
    - intros (c & [[? ?]|(? & ? & ->)]); [left; eauto|right; split; [done|]]. apply (non_empty_inhabited_L c). by apply HX.
    - intros [[[c ?] ?]|[-> [c [? ?]%HX]%set_choose_L]]; eauto 6. }
  assert (∀ q, q ∈ dom (br_msgs b') ↔ q = p ∨ (q ∈ dom (br_msgs b) ∧ ¬ (q ∈ dom (PubMap3 (br_mgr b)) ∧ full = true))) as HM.
  { intros q. rewrite (elem_of_dom (br_msgs b')), (elem_of_dom (br_msgs b)), Hms.
    destruct (decide (q = p)); [split; eauto|]. destruct (decide _); [|tauto].
    split; [by intros [? [=]]|tauto]. }
  assert ((p ∉ sp_lost sp) ∧ (p ∉ dom (PubMap3 (br_mgr b)))) as [HL HP].
  { assert (p ∉ dom (br_msgs b)) as Hnd by (by apply not_elem_of_dom). rewrite (rf_heap _ _ Hr) in Hnd. set_solver. }
  pose proof (rf_heap _ _ Hr) as Hh. pose proof (rf_lost _ _ Hr) as Hl. split.
  - intros t c. cbn. rewrite (rf_subs _ _ Hr). by rewrite (cm_map1 _ _ Hc).
  - intros c q. rewrite elem_of_publish, Hq, (rf_owed _ _ Hr), (rf_subs _ _ Hr), (messages_dom b sp Hi Hr), size_dom.
    fold Y. unfold full. rewrite Z.geb_leb, Z.leb_gt. tauto.
  - apply set_eq. intros q. rewrite HM, elem_of_union, HD, Hh. cbn. rewrite <- Hto. clear -Hl HL HP.
    destruct full, (decide (X = ∅)); set_solver.
  - intros q. rewrite HD. cbn. rewrite <- Hto. clear -Hl HL HP. destruct (decide (X = ∅)); set_solver.
Qed.
End direct.


(** ** Queries *)

Section queries.

Context {cfg : Settings}.

(** Somebody who has been heard of lately subscribes to [topic]. *)
Definition online (b : Broker) (topic : str) : Prop :=
  if enableBuffering
  then ∃ id, id ∈ at_ topic (subscriptionMap (br_mgr b)) ∧ handler_of id b ≠ 0 ∧ active b (handler_of id b) = true
  else ∃ h, h ∈ at_ topic (subscriptionMap1 (br_mgr b)) ∧ active b h = true.

Lemma calm_online b b' topic : calm b b' → online b' topic ↔ online b topic.
Proof.
  intros Hc. unfold online. destruct enableBuffering.
  - setoid_rewrite (cm_map _ _ Hc topic). setoid_rewrite (cm_handler _ _ Hc). by setoid_rewrite (calm_active _ _ _ Hc).
  - setoid_rewrite (cm_map1 _ _ Hc topic). by setoid_rewrite (calm_active _ _ _ Hc).
Qed.

Lemma calm_inv_same b b' :
  calm b b' → inv b → buffered (br_mgr b') = buffered (br_mgr b) → direct (br_mgr b') = direct (br_mgr b) →
  br_msgs b' = br_msgs b → inv b'.
Proof. intros Hc Hi Hb Hd Hm. apply (quiet_inv_same b); auto using calm_quiet. by rewrite Hm. Qed.

Lemma any_online_ok_ ids b :
  inv b → (∀ id, id ∈ ids → id ≠ []) →
  ∃ r b', any_online_ ids b = Ok (r, b') ∧ inv b' ∧ calm b b' ∧
    (r = true ↔ ∃ id, id ∈ ids ∧ handler_of id b ≠ 0 ∧ active b (handler_of id b) = true).
Proof.
  revert b. induction ids as [|id ids IH]; intros b Hi Hids.
  - exists false, b. split_and!; try done. split; [done|]. intros (? & ? & _). set_solver.
  - cbn [any_online_]. unfold getHandlerOfClient_. rewrite bool_decide_eq_false_2 by (apply Hids; set_solver).
    cbn [negb assert_]. rewrite !bind_Ok. fold (handler_of id b). set (b1 := with_mgr _ b).
    assert (calm b b1) as Hc1.
    { split; try done; [|intros; by left]. intros id'. unfold handler_of at 1. cbn.
      destruct (decide (id' = id)) as [->|]; [by rewrite lookup_insert_eq|by rewrite lookup_insert_ne]. }
    assert (inv b1) as Hi1 by (by apply (calm_inv_same b)).
    destruct (IH b1 Hi1) as (r & b2 & Hrun & Hi2 & Hc2 & Hr); [set_solver|].
    setoid_rewrite (cm_handler _ _ Hc1) in Hr. setoid_rewrite (calm_active _ _ _ Hc1) in Hr.
    assert (handler_of id b = 0 ∨ active b (handler_of id b) = false →
            (r = true ↔ ∃ x, x ∈ id :: ids ∧ handler_of x b ≠ 0 ∧ active b (handler_of x b) = true)) as Hskip.
    { intros Hn. rewrite Hr. setoid_rewrite elem_of_cons. clear -Hn. split; [naive_solver|].
      intros (x & [->|?] & ? & Ha); [|eauto]. destruct Hn; congruence. }
    assert (calm b b2) as Hc by (by etrans).
    destruct (Z.eqb_spec (handler_of id b) 0) as [H0|H0]; cbn [negb]; [exists r, b2; split_and!; auto|].
    destruct (inv_handlers_ b Hi id H0) as (s & Hs & _). unfold deref. cbn [br_subs b1 with_mgr].
    rewrite (proj2 (Z.eqb_neq _ _)), Hs, bind_Ok by done. change (isActive s b1) with (isActive s b).
    assert (active b (handler_of id b) = isActive s b) as Ha by (unfold active; by rewrite Hs).
    rewrite <- Ha. destruct (active b (handler_of id b)) eqn:E; [|exists r, b2; split_and!; auto].
    exists true, b1. split_and!; try done. split; [|done]. intros _. exists id. set_solver.
Qed.

Lemma any_online_ok hs b :
  inv b → (∀ h, h ∈ hs → h ≠ 0 ∧ h ∈ dom (br_subs b)) →
  ∃ r, any_online hs b = Ok r ∧ (r = true ↔ ∃ h, h ∈ hs ∧ active b h = true).
Proof.
  intros Hi. induction hs as [|h hs IH]; intros Hhs.
  - exists false. split; [done|]. split; [done|]. intros (? & ? & _). set_solver.
  - cbn [any_online]. destruct (Hhs h) as [H0 [s Hs]%elem_of_dom]; [set_solver|]. unfold deref.
    rewrite !(proj2 (Z.eqb_neq _ _)), Hs by done. cbn [negb]. rewrite bind_Ok.
    destruct IH as (r & -> & Hr); [set_solver|]. setoid_rewrite elem_of_cons.
    assert (active b h = isActive s b) as Ha by (unfold active; by rewrite Hs). rewrite <- Ha.
    destruct (active b h) eqn:E; [exists true; split; [done|]; split; eauto|]. exists r. split; [done|].
    rewrite Hr. split; [naive_solver|]. intros (x & [->|?] & ?); [congruence|eauto].
Qed.

Lemma is_online_ok topic b :
  inv b → ∃ r b', (if enableBuffering then isClientOnline_ topic b else isClientOnline topic b) = Ok (r, b') ∧
    inv b' ∧ calm b b' ∧ (r = true ↔ online b topic).
Proof.
  intros Hi. unfold online. destruct enableBuffering.
  - unfold isClientOnline_, getSubscribersOfTopic_. set (X := at_ _ _). set (b1 := with_mgr _ b).
    assert (calm b b1) as Hc1 by (split; try done; [apply touch_same|intros; by left]).
    assert (inv b1) as Hi1 by (by apply (calm_inv_same b)).
    destruct (decide (X = ∅)) as [He|Hn].
    + exists false, b1. split_and!; try done. rewrite He. split; [done|]. intros (? & ? & _). set_solver.
    + destruct (any_online_ok_ (set_iter X) b1 Hi1) as (r & b2 & -> & Hi2 & Hc2 & Hr).
      { intros id Hid%elem_of_set_iter ->. by apply (inv_ids b Hi topic). }
      exists r, b2. split_and!; try done; [by etrans|]. rewrite Hr. setoid_rewrite elem_of_set_iter. done.
  - unfold isClientOnline. set (X := at_ _ _). set (b1 := with_mgr _ b).
    assert (calm b b1) as Hc1 by (split; try done; [apply touch_same|intros; by left]).
    assert (inv b1) as Hi1 by (by apply (calm_inv_same b)).
    destruct (decide (X = ∅)) as [He|Hn].
    + exists false, b1. split_and!; try done. rewrite He. split; [done|]. intros (? & ? & _). set_solver.
    + destruct (any_online_ok (set_iter X) b1 Hi1) as (r & -> & Hr).
      { intros h Hh%elem_of_set_iter. by apply (inv_handlers b Hi topic). }
      rewrite bind_Ok. exists r, b1. split_and!; try done. rewrite Hr. by setoid_rewrite elem_of_set_iter.
Qed.
End queries.

(** [queryState] answers for each topic asked, in order, whether a
    subscriber of it is connected and was heard of within the keep-alive time;
    it never faults and leaves the tables as they were, up to empty entries. *)
Lemma query_state_correct `{Settings} topics b :
  inv b → ∃ l b', queryState topics b = Ok (l, b') ∧ inv b' ∧ calm b b' ∧
    Forall2 (λ t r, r.1 = t ∧ (r.2 = true ↔ online b t)) topics l.
Proof.
  revert b. induction topics as [|t topics IH]; intros b Hi.
  - exists [], b. by split_and!.
  - cbn [queryState]. destruct (is_online_ok t b Hi) as (r & b1 & -> & Hi1 & Hc1 & Hr). rewrite bind_Ok.
    destruct (IH b1 Hi1) as (l & b2 & -> & Hi2 & Hc2 & Hl). rewrite bind_Ok.
    exists ((t, r) :: l), b2. split_and!; try done; [by etrans|]. constructor; [done|].
    eapply Forall2_impl; [exact Hl|]. intros t' x [-> Hx]. split; [done|]. by rewrite Hx, (calm_online _ _ _ Hc1).
Qed.

(** ** The file SubscriptionInfo *)

Section persistence.

Context {cfg : Settings}.

(** Where the reader stands: at a space, nothing having failed. *)
Abbreviation at_space t := (mkIstream (32 :: t) false false).

Lemma read_word str w t : word w → get_string str (at_space (w ++ 32 :: t)) = (w, at_space t).
Proof. intros Hw. rewrite get_string_space by done. by apply get_string_word. Qed.

Lemma read_int n0 n t : in_s 32 n → get_int n0 (at_space (show_int n ++ 32 :: t)) = (n, at_space t).
Proof. intros Hn. rewrite get_int_space by done. by apply get_int_show. Qed.

Definition show_ids (ids : list str) : list Z := mjoin ((λ id, id ++ [32]) <$> ids).

Lemma show_ids_cons id ids rest : show_ids (id :: ids) ++ rest = id ++ 32 :: show_ids ids ++ rest.
Proof. unfold show_ids. rewrite fmap_cons, mjoin_cons. by rewrite <- !app_assoc. Qed.

(** One turn of the loop over topics adds the subscribers of that topic. *)
Lemma load_ids_ok topic ids rest b :
  inv b → enableBuffering = true → topic ≠ [] → Forall word ids →
  ∃ b', load_ids (length ids) topic (at_space (show_ids ids ++ rest)) b = Ok (at_space rest, b') ∧ inv b' ∧
    (∀ t c, c ∈ at_ t (subscriptionMap (br_mgr b')) ↔ c ∈ at_ t (subscriptionMap (br_mgr b)) ∨ (t = topic ∧ c ∈ ids)) ∧
    buffered (br_mgr b') = buffered (br_mgr b) ∧ nextAllocateClientId (br_mgr b') = nextAllocateClientId (br_mgr b) ∧
    (∀ c, handler_of c b = 0 → handler_of c b' = 0).
Proof.
  intros Hi Hb Ht Hids. revert b Hi. induction Hids as [|id ids Hid _ IH]; intros b Hi.
  - exists b. split_and!; try done. set_solver.
  - cbn [length load_ids]. rewrite show_ids_cons, read_word by done. cbn [i_eof negb assert_]. rewrite bind_Ok.
    destruct (addSubscription_ok_ topic id 0 b) as (b1 & -> & Hi1 & Hh1 & _ & _ & _ & Hb1 & Hn1 & Hm1 & Ho1 & _); try done; [apply Hid|].
    rewrite bind_Ok. destruct (IH b1 Hi1) as (b2 & -> & Hi2 & Hm2 & Hb2 & Hn2 & Hh2).
    exists b2. split_and!; try done; [|congruence|congruence|].
    + intros t c. rewrite Hm2, Hm1. set_solver.
    + intros c Hc. apply Hh2. destruct (decide (c = id)) as [->|]; [done|]. by rewrite Ho1.
Qed.

(** The entries a file can hold: the topic and the ids are words, and the number of ids an [int]. *)
Definition entry_ok (e : str * gset str) : Prop :=
  word e.1 ∧ (∀ id, id ∈ e.2 → word id) ∧ in_s 32 (Z.of_nat (size e.2)).

Lemma show_entry_app e rest :
  show_entry e ++ rest = e.1 ++ 32 :: show_int (Z.of_nat (size e.2)) ++ 32 :: show_ids (set_iter e.2) ++ rest.
Proof. unfold show_entry. by rewrite <- !app_assoc. Qed.

(** One turn of the loop over topics; [rest] is the file from the next topic on. *)
Lemma load_topics_turn topic X rest n0 fuel b :
  inv b → enableBuffering = true → entry_ok (topic, X) →
  ∃ b1, load_topics (S fuel) topic n0 (at_space (show_int (Z.of_nat (size X)) ++ 32 :: show_ids (set_iter X) ++ rest)) b =
          (let '(topic', i) := get_string topic (at_space rest) in load_topics fuel topic' (Z.of_nat (size X)) i b1) ∧ inv b1 ∧
    (∀ t c, c ∈ at_ t (subscriptionMap (br_mgr b1)) ↔ c ∈ at_ t (subscriptionMap (br_mgr b)) ∨ (t = topic ∧ c ∈ X)) ∧
    buffered (br_mgr b1) = buffered (br_mgr b) ∧ nextAllocateClientId (br_mgr b1) = nextAllocateClientId (br_mgr b) ∧
    (∀ c, handler_of c b = 0 → handler_of c b1 = 0).
Proof.
  intros Hi Hb (Hw & Hids & Hsz). cbn [fst snd] in *. cbn [load_topics i_eof]. rewrite read_int by done.
  cbn [i_eof negb assert_]. rewrite bind_Ok, Nat2Z.id, <- (length_set_iter X).
  destruct (load_ids_ok topic (set_iter X) rest b) as (b1 & -> & Hi1 & Hm1 & Hb1 & Hn1 & Hh1); try done.
  { apply Hw. }
  { apply Forall_forall. intros id Hid. by apply Hids, elem_of_set_iter. }
  exists b1. rewrite bind_Ok. setoid_rewrite elem_of_set_iter in Hm1. done.
Qed.

Lemma load_topics_ok es topic X n0 fuel b :
  inv b → enableBuffering = true → Forall entry_ok ((topic, X) :: es) → (S (length es) < fuel)%nat →
  ∃ b', load_topics fuel topic n0
          (at_space (show_int (Z.of_nat (size X)) ++ 32 :: show_ids (set_iter X) ++ mjoin (show_entry <$> es))) b = Ok b' ∧ inv b' ∧
    (∀ t c, c ∈ at_ t (subscriptionMap (br_mgr b')) ↔
            c ∈ at_ t (subscriptionMap (br_mgr b)) ∨ ∃ Y, (t, Y) ∈ (topic, X) :: es ∧ c ∈ Y) ∧
    buffered (br_mgr b') = buffered (br_mgr b) ∧ nextAllocateClientId (br_mgr b') = nextAllocateClientId (br_mgr b) ∧
    (∀ c, handler_of c b = 0 → handler_of c b' = 0).
Proof.
  intros Hi Hb. revert topic X n0 fuel b Hi. induction es as [|[t' X'] es IH]; intros topic X n0 fuel b Hi [He Hes]%Forall_cons Hf;
    (destruct fuel as [|fuel]; [cbn in Hf; lia|]).
  - destruct (load_topics_turn topic X (mjoin (show_entry <$> [])) n0 fuel b Hi Hb He) as (b1 & -> & Hi1 & Hm1 & Hb1 & Hn1 & Hh1).
    change (mjoin (show_entry <$> [])) with (@nil Z). rewrite get_string_end by done.
    exists b1. split; [destruct fuel; [cbn in Hf; lia|done]|]. split_and!; try done.
    intros t c. rewrite Hm1. set_solver.
  - destruct (load_topics_turn topic X (mjoin (show_entry <$> (t', X') :: es)) n0 fuel b Hi Hb He) as (b1 & -> & Hi1 & Hm1 & Hb1 & Hn1 & Hh1).
    rewrite fmap_cons, mjoin_cons, show_entry_app. cbn [fst snd].
    pose proof Hes as [(Hw' & _ & _) _]%Forall_cons. rewrite read_word by done.
    destruct (IH t' X' (Z.of_nat (size X)) fuel b1) as (b2 & -> & Hi2 & Hm2 & Hb2 & Hn2 & Hh2); try done; [cbn in Hf; lia|].
    exists b2. split_and!; try done; [|congruence|congruence|auto].
    intros t c. rewrite Hm2, Hm1. set_solver.
Qed.
End persistence.

(** The broker as a process that starts with the file [disk]. *)
Definition starting (now : Z) (disk : option (list Z)) : Broker := mkBroker (empty_manager 0) ∅ ∅ now disk.

Lemma save_keeps_map b :
  [] ∉ dom (subscriptionMap (br_mgr b)) → (∀ t, [] ∉ at_ t (subscriptionMap (br_mgr b))) →
  subscriptionMap (br_mgr (saveSubscriptionInfoToDisk_ b)) = subscriptionMap (br_mgr b).
Proof.
  intros Ht Hid. cbn. rewrite delete_id by (by apply not_elem_of_dom). apply map_eq. intros t.
  rewrite lookup_fmap. specialize (Hid t). unfold at_ in Hid. destruct (subscriptionMap (br_mgr b) !! t) as [X|]; [|done].
  cbn in *. f_equal. set_solver.
Qed.

(** C33: what [saveSubscriptionInfoToDisk_] writes, the constructor reads back
    when the broker starts again: every topic has the subscribers it had, none
    of them connected, and new ids go on from where they were; provided that
    topics and ids contain no white space. *)
Theorem restart_restores_subscriptions `{Settings, Uninit} b now fuel :
  enableBuffering = true →
  (∀ t, t ∈ dom (subscriptionMap (br_mgr b)) → word t) →
  (∀ t id, id ∈ at_ t (subscriptionMap (br_mgr b)) → word id) →
  (∀ t, in_s 32 (Z.of_nat (size (at_ t (subscriptionMap (br_mgr b)))))) →
  0 < nextAllocateClientId (br_mgr b) < 2 ^ 31 →
  (size (subscriptionMap (br_mgr b)) < fuel)%nat →
  ∃ b', TopicManager_new fuel (starting now (br_disk (saveSubscriptionInfoToDisk_ b))) = Ok b' ∧ inv b' ∧
    nextAllocateClientId (br_mgr b') = nextAllocateClientId (br_mgr b) ∧
    same_sets (subscriptionMap (br_mgr b')) (subscriptionMap (br_mgr b)) ∧
    (∀ id, handler_of id b' = 0) ∧ buffered (br_mgr b') = no_pending.
Proof.
  intros Hcfg Hts Hids Hsz Hn Hf. unfold TopicManager_new. rewrite Hcfg. cbn [negb].
  pose proof (save_keeps_map b) as Hm. cbn [saveSubscriptionInfoToDisk_ br_disk with_disk with_mgr subscriptionMap with_subscriptionMap br_mgr starting] in Hm |- *.
  rewrite Hm; [| |]; [|intros [Hne _]%Hts; done|intros t [Hne _]%Hids; done]. clear Hm.
  set (m := subscriptionMap (br_mgr b)) in *. cbn [app].
  rewrite get_string_word by (by apply (bool_decide_unpack _)). rewrite read_int by (unfold in_s; lia).
  rewrite (proj2 (Z.eqb_neq _ _)) by lia. set (b0 := with_mgr _ _).
  assert (inv b0) as Hi0 by (destruct (fresh_inv now); split; done).
  assert (Forall entry_ok (map_iter m)) as Hok.
  { apply Forall_forall. intros [t X] HX%elem_of_map_iter. specialize (Hids t). specialize (Hsz t).
    unfold at_ in Hids, Hsz. rewrite HX in Hids, Hsz. split_and!; try done. apply Hts. by apply elem_of_dom. }
  pose proof (length_map_iter m) as Hlen.
  assert (∀ t c, c ∈ at_ t m ↔ ∃ Y, (t, Y) ∈ map_iter m ∧ c ∈ Y) as Hin.
  { intros t c. setoid_rewrite elem_of_map_iter. unfold at_. destruct (m !! t) eqn:E; cbn; [naive_solver|]. set_solver. }
  destruct (map_iter m) as [|[t X] es].
  - change (mjoin (show_entry <$> [])) with (@nil Z). rewrite get_string_end by done. destruct fuel; [lia|].
    exists b0. split_and!; try done. intros t. apply set_eq. intros c. rewrite Hin. cbn. rewrite at_empty. set_solver.
  - rewrite fmap_cons, mjoin_cons, show_entry_app. cbn [fst snd].
    pose proof Hok as [(Hw & _ & _) _]%Forall_cons. rewrite read_word by done.
    destruct (load_topics_ok es t X 0 fuel b0) as (b' & -> & Hi' & Hm' & Hb' & Hn' & Hh'); try done; [cbn in Hlen; lia|].
    exists b'. split_and!; try done; [|auto]. intros t'. apply set_eq. intros c. rewrite Hm', Hin. cbn. rewrite at_empty. set_solver.
Qed.

(** A reader that failed before the end of the file stays where it is. *)
Lemma load_topics_stuck `{Settings} fuel topic i b :
  i_eof i = false → i_fail i = true → load_topics fuel topic 0 i b = Fault OutOfFuel.
Proof.
  intros He Hf. induction fuel as [|fuel IH]; [done|]. cbn [load_topics]. rewrite He.
  destruct (get_failed topic 0 i Hf) as [Hs ->]. rewrite He. cbn [negb assert_]. rewrite bind_Ok.
  change (load_ids (Z.to_nat 0) topic i b) with (Ok (i, b)). by rewrite bind_Ok, Hs.
Qed.

(** a subscription to a topic with a space in it, followed by something
    that is not a number, cannot be read back: the constructor looks for the
    number of subscribers, fails, and its loop, which tests for the end of the
    file only, never ends, however many turns it is given. *)
Lemma space_in_topic_hangs `{Settings, Uninit} a c t id b now fuel :
  enableBuffering = true → word a →
  is_space c = false → is_digit c = false → c ≠ 45 → c ≠ 43 → id ≠ [] →
  subscriptionMap (br_mgr b) = {[a ++ 32 :: c :: t := {[id]}]} → 0 < nextAllocateClientId (br_mgr b) < 2 ^ 31 →
  TopicManager_new fuel (starting now (br_disk (saveSubscriptionInfoToDisk_ b))) = Fault OutOfFuel.
Proof.
  intros Hcfg Ha Hc Hd H45 H43 Hid Hmap Hn. unfold TopicManager_new. rewrite Hcfg. cbn [negb].
  pose proof (save_keeps_map b) as Hm. cbn [saveSubscriptionInfoToDisk_ br_disk with_disk with_mgr subscriptionMap with_subscriptionMap br_mgr starting] in Hm |- *.
  rewrite Hm; rewrite Hmap; [|rewrite dom_singleton_L, elem_of_singleton; by destruct a|]; cycle 1.
  { intros t'. unfold at_. rewrite lookup_singleton. destruct (decide _); set_solver. }
  rewrite map_iter_singleton. cbn [app].
  rewrite get_string_word by (by apply (bool_decide_unpack _)). rewrite read_int by (unfold in_s; lia).
  rewrite (proj2 (Z.eqb_neq _ _)) by lia. rewrite fmap_cons, mjoin_cons, show_entry_app. cbn [fst snd].
  rewrite <- app_assoc. cbn [app]. rewrite read_word by done. destruct fuel as [|fuel]; [done|]. cbn [load_topics i_eof].
  rewrite get_int_space by done. unfold get_int. cbn [i_eof i_fail orb i_text skip_space app]. rewrite Hc.
  rewrite (proj2 (Z.eqb_neq _ _) H45), (proj2 (Z.eqb_neq _ _) H43). cbn [orb take_digits].
  set (rest := t ++ _). destruct (take_digits rest).
  unfold is_digit in Hd.
  repeat match goal with |- context [c =? ?k] => destruct (Z.eqb_spec c k) as [->|]; [done|] end.
  rewrite decide_True by done. cbn [i_eof negb assert_]. rewrite bool_decide_eq_false_2 by done. cbn [negb assert_]. rewrite bind_Ok.
  set (i := mkIstream _ _ _). change (load_ids (Z.to_nat 0) a i ?b) with (Ok (i, b)). rewrite bind_Ok.
  rewrite (proj1 (get_failed a 0 i eq_refl)). by apply load_topics_stuck.
Qed.

(** ** Where the tables keep too much *)

(** without buffering, what is queued for a handler stays queued when the
    handler is destroyed, and belongs to the next connection whose handler is
    allocated at the same address, although that one subscribed to nothing. *)
Lemma reused_address_gets_old_messages `{Settings} h s p b sk :
  enableBuffering = false → inv b → h ≠ 0 → br_subs b !! h = Some s → sh_tmpMsg s = 0 → queued b h p →
  ∃ b', foreach step [Gone h; Connect h sk] b = Ok b' ∧ inv b' ∧
    queued b' h p ∧ ∀ t, h ∉ at_ t (subscriptionMap1 (br_mgr b')).
Proof.
  intros Hcfg Hi Hh Hs Ht Hq. cbn [foreach step].
  destruct (handler_delete_ok h s b) as (b1 & -> & Hi1 & Hms & Hb & Hsub & Hmap); try done. rewrite !bind_Ok.
  eexists. split; [done|]. split; [apply connect_inv; [done|by rewrite Hsub, lookup_delete_eq]|].
  split; [unfold PubMap4; cbn; by rewrite Hb|]. intros t. cbn. rewrite Hmap. tauto.
Qed.

(** ** Examples *)

Definition demo_settings (buffering : bool) : Settings :=
  {| enableBuffering := buffering; keepAliveTryTimes := 3; keepAliveTimeSpan := 10 |}.
Definition demo_socket : socket := mkSocket [] [] [] [] 0.
Definition demo_message (topic : str) : Message :=
  mkMessage (mkMsg Msg_Event 0 0 (mkIS (mkBlock [] 0 0 0 0) false true) topic [] 0 0 0) 0.

Lemma legal_cons_ `{Settings} ev evs b b1 :
  enabled_ ev b → step_ ev b = Ok b1 → legal_ evs b1 → legal_ (ev :: evs) b.
Proof. intros He Hs Hl. split; [done|]. intros b' Hb'. rewrite Hs in Hb'. by inv_ok. Qed.

(** A client connects, subscribes to "a", is sent what is published there, and leaves. *)
Definition demo_history : list (event str) :=
  [Connect 8 demo_socket; Subscribe [97] [49] 8; Publish 16 (demo_message [97]); Sent 16 [49]; Gone 8].

Lemma demo_legal : @legal_ (demo_settings true) demo_history (fresh_broker 0).
Proof.
  unfold demo_history.
  eapply legal_cons_; [by split|vm_compute; reflexivity|].
  eapply legal_cons_; [|vm_compute; reflexivity|].
  { split_and!; try done. intros s Hs. right. by vm_compute. }
  eapply legal_cons_; [by split|vm_compute; reflexivity|].
  eapply legal_cons_; [cbn [enabled_]; apply (bool_decide_unpack _); by vm_compute|vm_compute; reflexivity|].
  eapply legal_cons_; [|vm_compute; reflexivity|done].
  split; [done|]. eexists. by split_and!.
Qed.

Lemma manager_refines_pubsub_witness :
  ∃ b', foreach (@step_ (demo_settings true)) demo_history (fresh_broker 0) = Ok b' ∧ @inv (demo_settings true) b' ∧
        refines_ b' (foldl spec_step_ (mkSpec ∅ ∅ ∅) demo_history).
Proof. apply (@manager_refines_pubsub (demo_settings true) demo_history 0 eq_refl demo_legal). Defined.

(** The broker without buffering after a connection has subscribed to "a". *)
Definition demo_direct : Broker :=
  match foreach (@step (demo_settings false)) [Connect 8 demo_socket; Subscribe [97] 8 8] (fresh_broker 0) with
  | Ok b => b
  | Fault _ => fresh_broker 0
  end.

Lemma demo_direct_ok :
  @inv (demo_settings false) demo_direct ∧ refines demo_direct (mkSpec {[([97], 8)]} ∅ ∅).
Proof.
  assert (inv (cfg := demo_settings false) (connect 8 demo_socket (fresh_broker 0))) as Hi
    by (apply connect_inv; [apply fresh_inv|done]).
  destruct (addSubscription_ok (cfg := demo_settings false) [97] 8 _ Hi) as (b' & Hb' & Hi' & _); try done.
  assert (b' = demo_direct) as -> by (vm_compute in Hb'; inv_ok; reflexivity).
  split; [done|]. split; try done.
  intros t h. change (subscriptionMap1 (br_mgr demo_direct)) with ({[ [97] := {[8]} ]} : gmap str (gset Z)).
  unfold at_. cbn [sp_subs]. rewrite lookup_singleton. destruct (decide _); set_solver.
Qed.


Lemma query_state_correct_witness :
  ∃ l b', @queryState (demo_settings false) [[97]; [98]] demo_direct = Ok (l, b') ∧ @inv (demo_settings false) b' ∧ calm demo_direct b' ∧
    Forall2 (λ t r, r.1 = t ∧ (r.2 = true ↔ @online (demo_settings false) demo_direct t)) [[97]; [98]] l.
Proof. apply (@query_state_correct (demo_settings false) [[97]; [98]] demo_direct), demo_direct_ok. Defined.

(** Client 1 subscribes to "a" and "b". *)
Definition demo_saved : Broker :=
  with_mgr (with_subscriptionMap {[ [97] := {[ [49] ]}; [98] := {[ [49] ]} ]} (empty_manager 2)) (fresh_broker 0).

Lemma restart_restores_subscriptions_witness :
  ∃ b', @TopicManager_new (demo_settings true) {| uninit := 0 |} 5
          (starting 7 (br_disk (saveSubscriptionInfoToDisk_ demo_saved))) = Ok b' ∧ @inv (demo_settings true) b' ∧
    nextAllocateClientId (br_mgr b') = 2 ∧ same_sets (subscriptionMap (br_mgr b')) (subscriptionMap (br_mgr demo_saved)) ∧
    (∀ id, handler_of id b' = 0) ∧ buffered (br_mgr b') = no_pending.
Proof.
  assert (∀ t, at_ t (subscriptionMap (br_mgr demo_saved)) ⊆ {[ [49] ]}) as Hat.
  { intros t. unfold at_, demo_saved. cbn. rewrite lookup_insert, lookup_singleton. repeat destruct (decide _); set_solver. }
  apply (@restart_restores_subscriptions (demo_settings true) {| uninit := 0 |} demo_saved 7 5 eq_refl).
  - intros t. unfold demo_saved. cbn. rewrite dom_insert_L, dom_singleton_L. intros Ht. assert (t = [97] ∨ t = [98]) as [->| ->] by set_solver; by apply (bool_decide_unpack _).
  - intros t id ->%Hat%elem_of_singleton. by apply (bool_decide_unpack _).
  - intros t. pose proof (subseteq_size _ _ (Hat t)) as Hs. rewrite size_singleton in Hs. unfold in_s. lia.
  - cbn. lia.
  - vm_compute. lia.
Defined.

Lemma space_in_topic_hangs_witness :
  let b := with_mgr (with_subscriptionMap {[ [97; 32; 98] := {[ [49] ]} ]} (empty_manager 2)) (fresh_broker 0) in
  @TopicManager_new (demo_settings true) {| uninit := 0 |} 100
    (starting 7 (br_disk (saveSubscriptionInfoToDisk_ b))) = Fault OutOfFuel.
Proof.
  intros b. apply (@space_in_topic_hangs (demo_settings true) {| uninit := 0 |} [97] 98 [] [49] b 7 100); try done.
  by apply (bool_decide_unpack _).
Defined.

Lemma reused_address_gets_old_messages_witness :
  ∃ b, @step (demo_settings false) (Publish 16 (demo_message [97])) demo_direct = Ok b ∧
  ∃ b', foreach (@step (demo_settings false)) [Gone 8; Connect 8 demo_socket] b = Ok b' ∧ @inv (demo_settings false) b' ∧
    queued b' 8 16 ∧ ∀ t, 8 ∉ at_ t (subscriptionMap1 (br_mgr b')).
Proof.
  destruct (@publish_ok (demo_settings false) 16 (demo_message [97]) demo_direct) as (b & Hb & Hi & Hc & Hq & _);
    [apply demo_direct_ok|done|done|].
  exists b. split; [exact Hb|].
  assert (∃ s, br_subs b !! 8 = Some s ∧ sh_tmpMsg s = 0) as (s & Hs & Ht) by (vm_compute in Hb; inv_ok; by eexists).
  apply (@reused_address_gets_old_messages (demo_settings false) 8 s 16 b demo_socket); try done.
  apply Hq. right. split_and!; try done.
Defined.
