(* ===== verification/QueryState.v ===== *)
(** * QueryState: the remote interface of the broker (msg/MsgBroker.h, .cpp,
      the servant in msg/MsgBrokerI.cpp)

    The broker answers one remote operation, [queryStates]: for a sequence of
    topics, whether somebody listens to each of them.  The Slice compiler wrote
    its structures, the code that marshals them, the skeleton, the proxy and
    the reply handler; the servant asks the topic manager. *)
From S2P Require Import Prelude Block OutputStream InputStream Marshalling Socket Framing IcmProtocol CppLib Servants Transport References Invocation Rpc MsgProtocol TopicManager PubSub.

(** "queryStates", "QueryState". *)
Definition op_queryStates : list Z := [113; 117; 101; 114; 121; 83; 116; 97; 116; 101; 115].
Definition name_QueryState : list Z := [81; 117; 101; 114; 121; 83; 116; 97; 116; 101].

(** ** Structures *)

Record QueryStateReq := mkReq { ts : list str }.

(** [State]: [topic] and [s], the pair [TopicManager::queryState] fills in. *)
Definition State : Type := str * bool.
Definition State_new : State := ([], false).

Record QueryStateRes := mkRes { ss : list State }.

Definition QueryStateReq_new : QueryStateReq := mkReq [].
Definition QueryStateRes_new : QueryStateRes := mkRes [].

(** [operator!=] and [operator==]. *)
Definition QueryStateReq_ne (a b : QueryStateReq) : bool := if bool_decide (ts a = ts b) then false else true.
Definition QueryStateReq_eq (a b : QueryStateReq) : bool := negb (QueryStateReq_ne a b).

Definition State_ne (a b : State) : bool :=
  if bool_decide (a.1 = b.1) then (if Bool.eqb a.2 b.2 then false else true) else true.
Definition State_eq (a b : State) : bool := negb (State_ne a b).

(** [!=] of vectors: the lengths, then the elements with their [==]. *)
Fixpoint States_eq (v w : list State) : bool :=
  match v, w with
  | [], [] => true
  | a :: v, b :: w => if State_eq a b then States_eq v w else false
  | _, _ => false
  end.
Definition QueryStateRes_ne (a b : QueryStateRes) : bool := negb (States_eq (ss a) (ss b)).
Definition QueryStateRes_eq (a b : QueryStateRes) : bool := negb (QueryStateRes_ne a b).

(** *** Text *)

(** [trimEnd]: the characters in front of the last one that is not white space.
    On a text of nothing but white space the loop reads before the text. *)
Fixpoint trim_rev (t : list Z) : result (list Z) :=
  match t with
  | [] => Fault OutOfBounds
  | c :: t' => if is_space c then trim_rev t' else Ok t
  end.
Definition trimEnd (str : list Z) : result (list Z) := t ← trim_rev (rev str); Ok (rev t).

(** [__toString] of a vector, with the texts of its elements. *)
Definition toString_seq (texts : list (list Z)) : result (list Z) :=
  result ← trimEnd ([123] ++ mjoin ((λ t, t ++ [32]) <$> texts));
  Ok (result ++ [125]).

(** "MsgBroker::QueryStateReq-> ", "ts:" *)
Definition QueryStateReq_toString (a : QueryStateReq) : result (list Z) :=
  v ← toString_seq (ts a);
  trimEnd ([77; 115; 103; 66; 114; 111; 107; 101; 114; 58; 58; 81; 117; 101; 114; 121; 83; 116; 97; 116; 101; 82; 101; 113; 45; 62; 32]
    ++ [116; 115; 58] ++ v ++ [32]).

(** "MsgBroker::State-> ", "topic:", "s:" *)
Definition State_toString (a : State) : result (list Z) :=
  trimEnd ([77; 115; 103; 66; 114; 111; 107; 101; 114; 58; 58; 83; 116; 97; 116; 101; 45; 62; 32]
    ++ ([116; 111; 112; 105; 99; 58] ++ a.1 ++ [32]) ++ ([115; 58] ++ show_int (Z.b2z a.2) ++ [32])).

Definition bracketed (t : result (list Z)) : result (list Z) := x ← t; Ok ([91] ++ x ++ [93]).

Fixpoint States_texts (v : list State) : result (list (list Z)) :=
  match v with
  | [] => Ok []
  | a :: v => t ← bracketed (State_toString a); r ← States_texts v; Ok (t :: r)
  end.

(** "MsgBroker::QueryStateRes-> ", "ss:" *)
Definition QueryStateRes_toString (a : QueryStateRes) : result (list Z) :=
  texts ← States_texts (ss a);
  v ← toString_seq texts;
  trimEnd ([77; 115; 103; 66; 114; 111; 107; 101; 114; 58; 58; 81; 117; 101; 114; 121; 83; 116; 97; 116; 101; 82; 101; 115; 45; 62; 32]
    ++ [115; 115; 58] ++ v ++ [32]).

(** *** Marshalling: [__write], [__read] *)

Section marshal.

Context `{Allocator, Host, Uninit}.

Definition QueryStateReq_write (a : QueryStateReq) (os : OutputStream) : result OutputStream :=
  '(_, os) ← write_string_seq (ts a) os; Ok os.

Definition QueryStateReq_read (a : QueryStateReq) (s : InputStream) : result (QueryStateReq * InputStream) :=
  '(_, v, s) ← read_string_seq (ts a) s; Ok (mkReq v, s).

Definition State_write (a : State) (os : OutputStream) : result OutputStream :=
  '(_, os) ← write_string a.1 os;
  '(_, os) ← write_boolean (Z.b2z a.2) os;
  Ok os.

Definition State_read (a : State) (s : InputStream) : result (State * InputStream) :=
  '(_, topic, s) ← read_string s;
  '(_, b, s) ← read_boolean s;
  Ok ((topic, negb (default (Z.b2z a.2) b =? 0)), s).

(** [size] is a [UInt]. *)
Definition States_write (v : list State) (os : OutputStream) : result OutputStream :=
  let size := u32 (#v) in
  '(_, os) ← write_uint size os;
  foreach State_write (take (Z.to_nat size) v) os.

Fixpoint read_states (v : list State) (s : InputStream) : result (list State * InputStream) :=
  match v with
  | [] => Ok ([], s)
  | a :: v => '(a, s) ← State_read a s; '(v, s) ← read_states v s; Ok (a :: v, s)
  end.

(** [v.resize (sz)]. *)
Definition States_resize (sz : Z) (v : list State) : list State :=
  take (Z.to_nat sz) (v ++ replicate (Z.to_nat sz - length v) State_new).

Definition States_read (v : list State) (s : InputStream) : result (list State * InputStream) :=
  '(_, sz, s) ← read_uint s;
  read_states (States_resize (default uninit sz) v) s.

Definition QueryStateRes_write (a : QueryStateRes) (os : OutputStream) : result OutputStream :=
  if bool_decide (ss a = []) then '(_, os) ← write_uint 0 os; Ok os else States_write (ss a) os.

Definition QueryStateRes_read (a : QueryStateRes) (s : InputStream) : result (QueryStateRes * InputStream) :=
  '(v, s) ← States_read (ss a) s; Ok (mkRes v, s).

(** [__write (os, QueryState)], [__read (is, QueryState)]: a proxy as a value;
    [copyFrom] takes the reference. *)
Definition QueryState_write (v : option Reference) (os : OutputStream) : result OutputStream :=
  '(_, os) ← write_obj v os; Ok os.

Definition QueryState_read (s : InputStream) : result (option Reference * InputStream) :=
  '(_, proxy, s) ← read_obj s; Ok (proxy, s).

End marshal.

(** ** The servant and its skeleton *)

Section broker.

Context `{Allocator, Host, Uninit, Settings}.

(** [QueryStateI::queryStates (req, res)]. *)
Definition QueryStateI_queryStates (req : QueryStateReq) (b : Broker) : result (Z * QueryStateRes * Broker) :=
  '(v, b) ← queryState (ts req) b;
  Ok (0, mkRes v, b).

(** [___queryStates], on the topic manager of the process. *)
Definition queryStates_skeleton (ex : Exchange) (w : World Broker) : result (DispatchStatus * Exchange * World Broker) :=
  '(req, is_) ← QueryStateReq_read QueryStateReq_new (ex_incoming ex);
  '(ret, res, b) ← QueryStateI_queryStates req (w_app w);
  os ← initReply (ex_request ex) (ex_outgoing ex);
  os ← QueryStateRes_write res os;
  '(_, os) ← write_int ret os;
  Ok (DispatchOK, mkExchange (ex_request ex) is_ os (ex_transport ex), with_app b w).

(** [__dispatch]: [equal_range] in the sorted table of the one operation. *)
Definition QueryState_dispatch (ex : Exchange) (w : World Broker) : result (DispatchStatus * Exchange * World Broker) :=
  if bool_decide (rq_operation (ex_request ex) = op_queryStates) then queryStates_skeleton ex w
  else Ok (DispatchOperationNotExist, ex, w).

(** The broker as an application: its only servant is at [query]; it has no
    locators and makes no calls. *)
Definition broker_app (query : Z) : Application Broker := {|
  servant_dispatch := λ p ex w, if p =? query then QueryState_dispatch ex w else Fault UseAfterFree;
  locator_locate := λ _ _ _, Fault UseAfterFree;
  handler_response := λ _ _ _ _, Fault UseAfterFree;
  handler_delete := λ _ _, Fault UseAfterFree |}.

(** [oa->add (object, "QueryState")] on the new adapter. *)
Definition broker_adapter (query : Z) : ServantManager := (adapter_add query name_QueryState [] ServantManager_new).2.

End broker.

(** ** The proxy *)

Section proxy.

Context {W : Type} `{Application W, Allocator, Host, Uninit, !Resolver}.
Implicit Types w : World W.

(** The end of [queryStates], also of [__response]. *)
Definition read_answer (res : QueryStateRes) (s : InputStream) : result (QueryStateRes * Z * InputStream) :=
  '(res, s) ← QueryStateRes_read res s;
  '(_, ret, s) ← InputStream.read_int s;
  Ok (res, default uninit ret, s).

(** [queryStates (req, res)]: the result, [res], the transport of the proxy. *)
Definition queryStates (ref : Reference) (req : QueryStateReq) (res : QueryStateRes) (transport : Z) w
  : result (Z * QueryStateRes * Z * World W) :=
  '(r, transport, w) ← stub_call_with ref op_queryStates (QueryStateReq_write req) (read_answer res) transport w;
  match r with
  | Some (res, ret) => Ok (ret, res, transport, w)
  | None => Ok (-1, res, transport, w)
  end.

(** [queryStates_async (cb, req)]: the transport of the proxy. *)
Definition queryStates_async (ref : Reference) (cb : Z) (req : QueryStateReq) (transport : Z) w : result (Z * World W) :=
  stub_async_with ref op_queryStates (QueryStateReq_write req) cb transport w.

(** [AMI_QueryState_queryStates::__response (in, replyStatus)], with the stream
    of the transport [t] and the application's [response (ret, res)]. *)
Definition AMI_response (response : Z → QueryStateRes → World W → result (World W)) (t replyStatus : Z) w : result (World W) :=
  if replyStatus =? 0 then
    tr ← Transport.deref t (w_transports w);
    '(res, ret, s) ← read_answer QueryStateRes_new (st_stream (tr_state tr));
    response ret res (put_transport t (tr_with_state (with_stream s (tr_state tr)) tr) w)
  else Ok w.

End proxy.

(** ** Lemmas *)

(** *** Equality and text *)

Lemma State_eq_spec a b : State_eq a b = true ↔ a = b.
Proof.
  unfold State_eq, State_ne. destruct a as [t x], b as [t' x']. cbn [fst snd].
  case_bool_decide; [|split; [done|congruence]]. destruct x, x'; cbn; naive_solver.
Qed.

Lemma States_eq_spec v : ∀ w, States_eq v w = true ↔ v = w.
Proof.
  induction v as [|a v IH]; intros [|b w]; cbn [States_eq]; try done.
  destruct (State_eq a b) eqn:E.
  - apply State_eq_spec in E as ->. rewrite IH. naive_solver.
  - split; [done|]. intros [= -> ->]. enough (State_eq b b = true) by congruence. by apply State_eq_spec.
Qed.

Lemma Res_eq_spec a b : QueryStateRes_eq a b = true ↔ a = b.
Proof.
  unfold QueryStateRes_eq, QueryStateRes_ne. rewrite negb_involutive, States_eq_spec. destruct a, b. cbn. naive_solver.
Qed.

(** A text with a visible character in front is trimmed without a fault, and
    what is cut off is white space. *)
Lemma trim_rev_ok t c : is_space c = false →
  ∃ r sp, trim_rev (t ++ [c]) = Ok r ∧ t ++ [c] = sp ++ r ∧ Forall (λ x, is_space x = true) sp.
Proof.
  intros Hc. induction t as [|x t (r & sp & IH & Happ & Hsp)]; cbn [app trim_rev].
  - rewrite Hc. exists [c], []. by split_and!.
  - destruct (is_space x) eqn:E; [|exists (x :: t ++ [c]), []; by split_and!].
    rewrite IH. exists r, (x :: sp). cbn. rewrite Happ. split_and!; try done. by constructor.
Qed.

Lemma trimEnd_ok c t : is_space c = false →
  ∃ r sp, trimEnd (c :: t) = Ok r ∧ c :: t = r ++ sp ∧ Forall (λ x, is_space x = true) sp.
Proof.
  intros Hc. destruct (trim_rev_ok (rev t) c Hc) as (r & sp & Hr & Happ & Hsp).
  exists (rev r), (rev sp). unfold trimEnd. cbn [rev]. rewrite Hr, bind_Ok. split; [done|]. split.
  - rewrite <- rev_app_distr, <- Happ, rev_app_distr, rev_involutive. done.
  - by apply Forall_rev in Hsp.
Qed.

(** Every text the structures are printed with starts with a visible character:
    printing never fails.  It is not injective: white space at the end of a last
    topic is cut off with the separator. *)
Lemma toString_seq_total texts : ∃ t, toString_seq texts = Ok t.
Proof. unfold toString_seq. destruct (trimEnd_ok 123 (mjoin ((λ t, t ++ [32]) <$> texts)) eq_refl) as (r & _ & Hr & _). cbn [app]. rewrite Hr. eauto. Qed.

Lemma State_toString_total a : ∃ t, State_toString a = Ok t.
Proof. unfold State_toString. cbn [app]. edestruct trimEnd_ok as (r & _ & Hr & _); [|rewrite Hr; eauto]. done. Qed.

Lemma QueryStateReq_toString_total a : ∃ t, QueryStateReq_toString a = Ok t.
Proof.
  unfold QueryStateReq_toString. destruct (toString_seq_total (ts a)) as [v Hv]. rewrite Hv, bind_Ok. cbn [app].
  edestruct trimEnd_ok as (r & _ & Hr & _); [|rewrite Hr; eauto]. done.
Qed.

Lemma QueryStateRes_toString_total a : ∃ t, QueryStateRes_toString a = Ok t.
Proof.
  unfold QueryStateRes_toString. assert (∃ texts, States_texts (ss a) = Ok texts) as [texts Ht].
  { induction (ss a) as [|x v [texts IH]]; [by exists []|]. cbn [States_texts]. unfold bracketed.
    destruct (State_toString_total x) as [t Hx]. rewrite Hx, !bind_Ok, IH, bind_Ok. eauto. }
  rewrite Ht, bind_Ok. destruct (toString_seq_total texts) as [v Hv]. rewrite Hv, bind_Ok. cbn [app].
  edestruct trimEnd_ok as (r & _ & Hr & _); [|rewrite Hr; eauto]. done.
Qed.

Example toString_cuts_topic : QueryStateReq_toString (mkReq [[97; 32]]) = QueryStateReq_toString (mkReq [[97]]).
Proof. vm_compute. reflexivity. Qed.

(** *** The values on the wire *)

Definition state_items (a : State) : list item := [IString a.1; IBoolean (Z.b2z a.2)].
Definition res_items (v : list State) : list item := IUInt (#v) :: mjoin (state_items <$> v).
Definition answer_items (v : list State) (ret : Z) : list item := res_items v ++ [IInt ret].

Definition states_ok (v : list State) : Prop := Forall (λ a, string_ok a.1) v ∧ #v < 2 ^ 32.

(** The length of a message with the answers to a query: 5 bytes of header, 8
    of reply header, the count, the answers and the result. *)
Definition answer_size (topics : list str) : Z := foldr (λ t n, #t + 6 + n) 21 topics.

Lemma items_cons a v : mjoin (state_items <$> (a :: v)) = state_items a ++ mjoin (state_items <$> v).
Proof. reflexivity. Qed.

Section wire.

Context `{Allocator, Host, Uninit}.

Lemma State_write_items a os : State_write a os = write_items (state_items a) os.
Proof. reflexivity. Qed.

Lemma states_write_items v : ∀ os, foreach State_write v os = write_items (mjoin (state_items <$> v)) os.
Proof.
  induction v as [|a v IH]; intros os; [done|]. cbn [foreach]. rewrite items_cons, write_items_app, State_write_items.
  destruct (write_items (state_items a) os); [|done]. by rewrite !bind_Ok.
Qed.

Lemma Res_write_items v os : #v < 2 ^ 32 → QueryStateRes_write (mkRes v) os = write_items (res_items v) os.
Proof.
  intros Hv. unfold QueryStateRes_write. cbn [ss]. case_bool_decide as E; [by rewrite E|].
  unfold States_write. rewrite wrap_small, Nat2Z.id, take_ge by (unfold in_u; lia).
  unfold res_items. cbn [write_items write_item]. destruct (write_uint _ os) as [[? s]|]; [|done].
  by rewrite !bind_Ok, states_write_items.
Qed.

Lemma State_read_ok x a s rest :
  string_ok a.1 → is_ok_in s → avail s = mjoin (encode <$> state_items a) ++ rest →
  ∃ s', State_read x s = Ok (a, s') ∧ is_ok_in s' ∧ avail s' = rest.
Proof.
  intros Ha Hs Hav. unfold state_items in Hav. rewrite !fmap_cons, fmap_nil, !mjoin_cons, mjoin_nil, app_nil_r, <- app_assoc in Hav. cbn [encode] in Hav.
  destruct (read_string_consumes a.1 Ha s _ Hs Hav) as (s1 & Hr1 & Hs1 & Hav1).
  destruct (read_boolean_consumes (Z.b2z a.2)) with (s := s1) (rest := rest) as (s2 & Hr2 & Hs2 & Hav2); [|done|done|].
  { destruct a.2; [by right|by left]. }
  exists s2. unfold State_read. rewrite Hr1, bind_Ok, Hr2, bind_Ok. split; [|done]. destruct a as [t []]; done.
Qed.

Lemma read_states_ok v : ∀ old s rest, length old = length v →
  Forall (λ a, string_ok a.1) v → is_ok_in s → avail s = mjoin (encode <$> mjoin (state_items <$> v)) ++ rest →
  ∃ s', read_states old s = Ok (v, s') ∧ is_ok_in s' ∧ avail s' = rest.
Proof.
  induction v as [|a v IH]; intros [|x old] s rest Hl Hv Hs Hav; try done; [by exists s|].
  apply Forall_cons_1 in Hv as [Ha Hv]. rewrite items_cons, fmap_app, join_app, <- app_assoc in Hav.
  cbn [read_states]. destruct (State_read_ok x a s _ Ha Hs Hav) as (s1 & -> & Hs1 & Hav1). rewrite bind_Ok.
  destruct (IH old s1 rest) as (s2 & -> & ? & ?); try done; [by injection Hl|]. rewrite bind_Ok. by exists s2.
Qed.

Lemma States_resize_length n v : 0 ≤ n → length (States_resize n v) = Z.to_nat n.
Proof. intros Hn. unfold States_resize. rewrite length_take, length_app, length_replicate. lia. Qed.

Lemma Res_read_ok v old s rest :
  states_ok v → is_ok_in s → avail s = mjoin (encode <$> res_items v) ++ rest →
  ∃ s', QueryStateRes_read old s = Ok (mkRes v, s') ∧ is_ok_in s' ∧ avail s' = rest.
Proof.
  intros [Hv Hn] Hs Hav. unfold res_items in Hav. rewrite fmap_cons, mjoin_cons, <- app_assoc in Hav. cbn [encode] in Hav.
  destruct (read_uint_consumes (#v)) with (s := s) (rest := mjoin (encode <$> mjoin (state_items <$> v)) ++ rest)
    as (s1 & Hr & Hs1 & Hav1); [unfold in_u; lia|done|done|].
  unfold QueryStateRes_read, States_read. rewrite Hr, bind_Ok. cbn [default from_option id].
  destruct (read_states_ok v (States_resize (#v) (ss old)) s1 rest) as (s2 & Hr2 & ? & ?); try done.
  { rewrite States_resize_length by lia. apply Nat2Z.id. }
  change (default uninit (Some (#v))) with (#v). rewrite Hr2, bind_Ok. by exists s2.
Qed.

Lemma answer_ok v ret : states_ok v → in_s 32 ret → Forall item_ok (answer_items v ret).
Proof.
  intros [Hv Hn] Hret. unfold answer_items, res_items. apply Forall_app. split; [|by constructor].
  constructor; [cbn; unfold in_u; lia|]. clear Hn. induction Hv as [|a v Ha _ IH]; [constructor|].
  rewrite items_cons. apply Forall_app. split; [|done]. constructor; [done|]. constructor; [|done].
  cbn. destruct a.2; [by right|by left].
Qed.

Lemma read_answer_ok v ret old s rest :
  states_ok v → in_s 32 ret → is_ok_in s → avail s = mjoin (encode <$> answer_items v ret) ++ rest →
  ∃ s', read_answer old s = Ok (mkRes v, ret, s') ∧ is_ok_in s' ∧ avail s' = rest.
Proof.
  intros Hv Hret Hs Hav. unfold answer_items in Hav. rewrite fmap_app, join_app, <- app_assoc in Hav.
  destruct (Res_read_ok v old s _ Hv Hs Hav) as (s1 & Hr1 & Hs1 & Hav1).
  rewrite fmap_cons, fmap_nil, mjoin_cons, mjoin_nil, app_nil_r in Hav1.
  destruct (read_signed_consumes 4 4 32 ret) with (s := s1) (rest := rest) as (s2 & Hr2 & Hs2 & Hav2); try done; [lia|].
  unfold read_answer. rewrite Hr1, bind_Ok. unfold InputStream.read_int, read_4. change INT_SIZE with 4. rewrite Hr2, bind_Ok. by exists s2.
Qed.

Lemma answer_length v ret : 13 + len (mjoin (encode <$> answer_items v ret)) = answer_size v.*1.
Proof.
  unfold answer_items, res_items, len, answer_size. rewrite fmap_app, join_app, fmap_cons, mjoin_cons, !length_app.
  rewrite fmap_cons, fmap_nil, mjoin_cons, mjoin_nil, app_nil_r. cbn [encode]. rewrite !length_be_bytes.
  induction v as [|a v IH]; [done|].
  rewrite items_cons, fmap_app, join_app, !length_app, fmap_cons. cbn [foldr].
  assert (length (mjoin (encode <$> state_items a)) = (length a.1 + 6)%nat) as ->.
  { unfold state_items. rewrite !fmap_cons, fmap_nil, !mjoin_cons, mjoin_nil, app_nil_r, length_app. cbn [encode]. unfold enc_string.
    rewrite !length_app, !length_be_bytes. cbn. lia. }
  lia.
Qed.

End wire.

(** *** The broker answers *)

Section answering.

Context `{Allocator, Host, Uninit, Settings}.

(** The call a proxy makes. *)
Definition query_call (ref : Reference) (topics : list str) (g : Z) : call :=
  next_call ref op_queryStates [IStringSeq topics] g.

Lemma size_bounds topics : 6 * #topics + 21 ≤ answer_size topics.
Proof. unfold answer_size. induction topics as [|x l IH]; cbn [foldr length]; lia. Qed.

Lemma enc_strings_length topics : Z.of_nat (length (mjoin (enc_string <$> topics))) + 21 ≤ answer_size topics.
Proof.
  unfold answer_size. induction topics as [|x l IH]; [done|]. rewrite fmap_cons, mjoin_cons, length_app. cbn [foldr].
  unfold enc_string at 1. rewrite !length_app, length_be_bytes. cbn [length]. lia.
Qed.

Lemma query_ok ref topics g :
  rf_identity ref = mkIdentity name_QueryState [] → Forall string_ok topics → #topics < 2 ^ 32 →
  Forall item_ok (call_items (query_call ref topics g)).
Proof.
  intros Href Ht Hn. unfold call_items, query_call, next_call. cbn [cl_requestId cl_responseFlags cl_identity cl_operation cl_arguments]. rewrite Href.
  cbn [app id_name id_category].
  repeat (apply Forall_cons; split); [..|constructor]; cbn [item_ok]; try done;
    try (split; [by apply (bool_decide_unpack _)|cbn; lia]); unfold in_u, wrap; try lia.
Qed.

Lemma query_length ref topics g :
  rf_identity ref = mkIdentity name_QueryState [] →
  5 + len (mjoin (encode <$> call_items (query_call ref topics g))) ≤ answer_size topics + 29.
Proof.
  intros Href. unfold call_items, query_call, next_call. cbn [cl_requestId cl_responseFlags cl_identity cl_operation cl_arguments]. rewrite Href.
  cbn [app id_name id_category]. rewrite !fmap_cons, fmap_nil, !mjoin_cons, mjoin_nil, app_nil_r. cbn [encode]. unfold len.
  rewrite !length_app, !length_be_bytes. unfold enc_string at 1 2 3. rewrite !length_app, !length_be_bytes.
  pose proof (enc_strings_length topics). cbn [length name_QueryState op_queryStates]. lia.
Qed.

(** The servant answers with what the topic manager says. *)
Lemma query_answers query ref topics g b l b' :
  Forall string_ok topics → #topics < 2 ^ 32 → queryState topics b = Ok (l, b') → #l < 2 ^ 32 →
  @answers Broker (broker_app query) _ _ b query (query_call ref topics g) (answer_items l 0) b'.
Proof.
  intros Ht Hn Hq Hl w s more t os <- Hs Hav Hos. cbn [servant_dispatch broker_app]. rewrite Z.eqb_refl.
  unfold QueryState_dispatch. rewrite bool_decide_true by done. unfold queryStates_skeleton, QueryStateReq_read. cbn [ex_incoming].
  cbn [query_call next_call cl_arguments] in Hav. rewrite fmap_cons, fmap_nil, mjoin_cons, mjoin_nil, app_nil_r in Hav.
  destruct (read_item_consumes (IStringSeq topics) (conj Ht Hn) s more Hs Hav) as (s1 & Hr & _).
  cbn [kind_of read_item] in Hr. unfold vector in Hr. apply bind_inv in Hr as ([[r v] s2] & Hr & E). inv_ok.
  cbn [ts QueryStateReq_new]. rewrite Hr, !bind_Ok. unfold QueryStateI_queryStates. cbn [ts]. rewrite Hq, !bind_Ok. cbn [ex_request ex_outgoing ex_transport].
  unfold write_reply, answer_items in Hos. apply bind_inv in Hos as (os0 & Hi & Hw). rewrite write_items_app in Hw.
  rewrite Hi, bind_Ok, Res_write_items by done. apply bind_inv in Hw as (os1 & -> & Hw). rewrite bind_Ok.
  cbn [write_items write_item] in Hw. apply bind_inv in Hw as ([r1 os2] & Hw & E). inv_ok. rewrite Hw, bind_Ok. eauto.
Qed.

End answering.

(** ** Asking the broker *)

(** C5: a remote query.  A client in its own process, with a proxy connected to
    the broker's object "QueryState", asks about topics; the question and the
    answer are at most 65000 bytes long.  The broker handles the request, which
    arrives in any pieces, in one upcall: its invariant holds before and after,
    its tables are the same up to empty entries, and when what it sends arrives
    at the client, in any pieces, the proxy's [queryStates] returns 0 with one
    answer per topic, in the order asked: whether a subscriber of it is
    connected and was heard of within the keep-alive time. *)
Theorem remote_query {WC} `{Application WC, Allocator, Host, Uninit, !Resolver, Settings} query
  t tr (w : World WC) ref topics old g table ms obs rest1 tb trb (wb : World Broker) rest2 :
  let c := query_call ref topics g in
  t ≠ 0 → idle t tr w → below w → tr_tms tr = Some (MuxedTms g table ms obs) → table !! u32 g = None →
  rf_identity ref = mkIdentity name_QueryState [] → Forall string_ok topics → answer_size topics + 29 ≤ os_limit →
  tb ≠ 0 → idle tb trb wb → sk_sent (tr_socket trb) = [] → incoming (tr_socket trb) (request_bytes c ++ rest2) →
  tr_adapter trb ≠ 0 → w_adapters wb !! tr_adapter trb = Some (broker_adapter query) → query ≠ 0 → inv (w_app wb) →
  ∃ l trb' wb', @handleInputI Broker (broker_app query) _ _ _ tb wb = Ok (0, wb') ∧
    inv (w_app wb') ∧ calm (w_app wb) (w_app wb') ∧ idle tb trb' wb' ∧ incoming (tr_socket trb') rest2 ∧
    queryState topics (w_app wb) = Ok (l, w_app wb') ∧
    Forall2 (λ t r, r.1 = t ∧ (r.2 = true ↔ online (w_app wb) t)) topics l ∧
    sk_sent (tr_socket trb') = reply_bytes (u32 g) (answer_items l 0) ∧
    (incoming (tr_socket tr) (sk_sent (tr_socket trb') ++ rest1) →
     ∃ tr' w', queryStates ref (mkReq topics) old t w = Ok (0, mkRes l, t, w') ∧
       idle t tr' w' ∧ w_app w' = w_app w ∧ incoming (tr_socket tr') rest1 ∧
       sk_sent (tr_socket tr') = sk_sent (tr_socket tr) ++ request_bytes c).
Proof.
  intros c Ht Hidle Hbelow Htms Hnone Href Htop Hlim Htb Hidleb Hsentb Hinb Hoa Hm Hquery Hinv.
  pose proof (size_bounds topics) as Hsz. unfold os_limit in Hlim.
  pose proof (query_ok ref topics g Href Htop ltac:(lia)) as Hitems. pose proof (query_length ref topics g Href) as Hqlen.
  destruct (query_state_correct topics (w_app wb) Hinv) as (l & b' & Hq & Hinv' & Hcalm & Hl).
  assert (l.*1 = topics) as Hfst by (clear -Hl; induction Hl as [|? ? ? ? [E _] _ IH]; [done|]; by rewrite fmap_cons, IH, E).
  assert (states_ok l) as Hok.
  { pose proof (f_equal length Hfst) as Hlen. rewrite length_fmap in Hlen.
    split; [|unfold State; lia]. rewrite <- Hfst in Htop. rewrite Forall_fmap in Htop. exact Htop. }
  pose proof (answer_length l 0) as Halen. rewrite Hfst in Halen. pose proof Hok as [_ Hn].
  destruct (@request_served Broker (broker_app query) _ _ _ c query (answer_items l 0) b' tb trb wb (broker_adapter query) rest2)
    as (st & sk & Hhi & Hi & Hin & Hsent); try done.
  - change (len (mjoin (encode <$> call_items (query_call ref topics g))) < 2 ^ 31). lia.
  - cbn. by rewrite Href.
  - cbn. by rewrite Href.
  - eapply query_answers; try done. lia.
  - by apply answer_ok.
  - unfold os_limit. lia.
  - eexists l, _, _. split; [exact Hhi|]. split; [exact Hinv'|]. split; [exact Hcalm|]. split; [exact Hi|]. split; [exact Hin|].
    split; [exact Hq|]. split; [exact Hl|]. cbn [tr_socket tr_with_state tr_with_socket]. rewrite Hsent, Hsentb. cbn [app c query_call cl_responseFlags next_call Z.eqb].
    split; [done|]. intros Hreply.
    destruct (call_with_returns t tr w ref op_queryStates (QueryStateReq_write (mkReq topics)) [IStringSeq topics] (read_answer old)
      (answer_items l 0) (mkRes l, 0) rest1 g table ms obs) as (st' & sk' & Hcall & Hi' & Hin' & Hsent'); try done.
    + unfold os_limit. unfold query_call in Hqlen. lia.
    + intros os os1 Hw. exact Hw.
    + intros s more Hs Hav. destruct (read_answer_ok l 0 old s more) as (s' & Hr & _); try done. eauto.
    + lia.
    + eexists _, _. unfold queryStates. rewrite Hcall, bind_Ok. by split_and!.
Qed.

(** An operation the interface does not have gets no answer: [__dispatch]
    returns [DispatchOperationNotExist] without having written a reply, the
    status is not looked at, and sending the empty stream sends nothing and
    succeeds.  The connection stays open and the caller goes on waiting. *)
Lemma empty_reply_sends_nothing `{Allocator, Host} sk :
  ∃ os', sendMessage (Some sk) (OutputStream_new DEFAULT_BUFSIZE) = Ok (1, os', Some sk).
Proof.
  unfold sendMessage, patch_length. change (os_first (OutputStream_new DEFAULT_BUFSIZE)) with (mb_align (new_block DEFAULT_BUFSIZE)).
  set (bs := if os_swap _ then _ else _).
  assert (#bs = 4) as Hbs by (subst bs; destruct (os_swap _); rewrite ?length_reverse, length_native; done).
  destruct (store_ok (b_rd (mb_align (new_block DEFAULT_BUFSIZE)) + ICM_MESSAGE_SIZE_OFFSET) bs (b_data (mb_align (new_block DEFAULT_BUFSIZE))))
    as (d & -> & _); [done|cbn; rewrite junk_length; unfold DEFAULT_BUFSIZE, ICM_MESSAGE_SIZE_OFFSET; lia|].
  rewrite !bind_Ok. eexists. reflexivity.
Qed.

Lemma unknown_operation_unanswered `{Allocator, Host, Uninit, Settings} query c t tr (w : World Broker) rest :
  t ≠ 0 → idle t tr w → incoming (tr_socket tr) (request_bytes c ++ rest) →
  Forall item_ok (call_items c) → len (mjoin (encode <$> call_items c)) < 2 ^ 31 →
  cl_identity c = mkIdentity name_QueryState [] → cl_operation c ≠ op_queryStates →
  tr_adapter tr ≠ 0 → w_adapters w !! tr_adapter tr = Some (broker_adapter query) → query ≠ 0 →
  ∃ st sk, let w' := put_transport t (tr_with_state st (tr_with_socket sk tr)) (set_errno (sk_errno sk) w) in
    @handleInputI Broker (broker_app query) _ _ _ t w = Ok (0, w') ∧ idle t (tr_with_state st (tr_with_socket sk tr)) w' ∧
    incoming sk rest ∧ sk_sent sk = sk_sent (tr_socket tr).
Proof.
  intros Ht Hidle Hin Hitems Hlen Hid Hop Hoa Hm Hq. pose proof Hidle as [_ Hopen _ _].
  destruct (@request_reaches_servant Broker (broker_app query) _ _ _ c query t tr w (broker_adapter query) rest)
    as (s & sk & more & st & Hs & Hav & Hin' & Ho & Hsent & Hready & ->); try done; [by rewrite Hid..|].
  cbn [servant_dispatch broker_app]. rewrite Z.eqb_refl. unfold QueryState_dispatch. rewrite bool_decide_false, bind_Ok by done.
  rewrite bool_decide_false by done. cbn [ex_outgoing]. set (tr1 := tr_with_state st (tr_with_socket sk tr)).
  set (w1 := put_transport t tr1 _). destruct (empty_reply_sends_nothing (stream_of w1 tr1)) as (os' & Hsm).
  assert (w_transports w1 !! t = Some tr1) as Htr1 by apply lookup_insert_eq.
  assert (stream_of w1 tr1 = sk) as Hsk by (unfold stream_of; cbn [tr1 tr_open tr_with_state tr_with_socket]; rewrite Hopen; by destruct sk).
  exists (state_reset st), sk. cbv zeta. split_and!; try done; [|split; [apply lookup_insert_eq|done|done|done]].
  destruct (cl_responseFlags c =? 0); cbn [negb].
  - rewrite bind_Ok. unfold w1. rewrite reset_state_put, bind_Ok. done.
  - rewrite (transport_send_open t tr1 _ os' _ w1 Ht Htr1 Hopen Hsm), !bind_Ok, Hsk. cbn [Z.eqb negb]. unfold w1.
    change (set_errno ?e (put_transport ?x ?y ?z)) with (put_transport x y (set_errno e z)). rewrite put_put, reset_state_put, bind_Ok. done.
Qed.

(** The count of answers is not checked against the message: when it cannot be
    read the vector gets as many elements as the uninitialised variable says. *)
Lemma unread_count_resizes `{Host, Uninit} s :
  rd_ok s → #(avail s) < 4 → States_read [] s = read_states (replicate (Z.to_nat uninit) State_new) (is_with_good false s).
Proof.
  intros Hr Hlt. unfold States_read, read_uint, read_value, read_4. change INT_SIZE with 4.
  assert (read_n 4 4 s = Ok (false, None, is_with_good false s)) as ->.
  { rewrite avail_length in Hlt by done. unfold read_n, is_adjust. by rewrite (proj2 (Z.leb_gt _ _)) by lia. }
  rewrite !bind_Ok. unfold States_resize. cbn [default from_option option_map app length]. rewrite Nat.sub_0_r, take_ge; [done|].
  by rewrite length_replicate.
Qed.

(** *** The asynchronous call *)

(** Reading only moves the read pointer of the block. *)
Lemma moves_heap s s' : moves s s' → heap_block (is_start s) → heap_block (is_start s').
Proof. intros [rd ->]. done. Qed.

Section readers.

Context `{Host, Uninit}.

Lemma read_states_moves v : ∀ s v' s', read_states v s = Ok (v', s') → moves s s'.
Proof.
  induction v as [|a v IH]; intros s v' s' E; cbn [read_states] in E; [by inv_ok|].
  apply bind_inv in E as ([a' s1] & Ea & E). apply bind_inv in E as ([v1 s2] & Ev & E). inv_ok.
  unfold State_read in Ea. apply bind_inv in Ea as ([[? ?] s3] & E1%read_string_moves & Ea).
  apply bind_inv in Ea as ([[? ?] s4] & E2%read_boolean_moves & Ea). inv_ok. etrans; [exact E1|]. etrans; [exact E2|]. by eapply IH.
Qed.

Lemma read_answer_moves old s res ret s' : read_answer old s = Ok (res, ret, s') → moves s s'.
Proof.
  intros E. unfold read_answer, QueryStateRes_read, States_read in E.
  apply bind_inv in E as ([r1 s1] & E1 & E). apply bind_inv in E1 as ([v1 s2] & E1 & E1').
  apply bind_inv in E1 as ([[? ?] s3] & Eu%read_value_moves & Es%read_states_moves).
  apply bind_inv in E as ([[? ?] s4] & Ei & E). inv_ok. apply read_value_moves in Ei.
  etrans; [exact Eu|]. etrans; [exact Es|exact Ei].
Qed.

End readers.

(** A reply handler generated for the operation, whose [response] acts on the
    application alone, takes the answers from the reply to its query and is
    called once with them: any number of queries can be pending on a proxy and
    be answered in any order. *)
Lemma reply_handler_takes {W} `{Application W, Allocator, Host, Uninit} h v ret respond forget :
  states_ok v → in_s 32 ret →
  (∀ t status w, handler_response h t status w =
    AMI_response (λ ret res w, Ok (with_app (respond ret res (w_app w)) w)) t status w) →
  (∀ w, handler_delete h w = Ok (with_app (forget (w_app w)) w)) →
  takes h 0 (answer_items v ret) (λ a, forget (respond ret (mkRes v) a)).
Proof.
  intros Hv Hret Hresp Hdel. exists (respond ret (mkRes v)), forget. split; [done|]. split; [|done].
  intros w t tr more Htr Hok Hheap Hav. rewrite Hresp. unfold AMI_response. cbn [Z.eqb].
  rewrite (deref_some _ _ _ Htr), bind_Ok.
  destruct (read_answer_ok v ret QueryStateRes_new _ more Hv Hret Hok Hav) as (s & Hr & Hs & _). rewrite Hr, bind_Ok.
  exists s. split_and!; [|apply Hs|done]. eapply moves_heap; [|exact Hheap]. by eapply read_answer_moves.
Qed.

Section witnesses.

#[local] Existing Instance zero_memory.
#[local] Existing Instance host_le.
#[local] Existing Instance uninit_7.
#[local] Existing Instance quads_only.
#[local] Existing Instance sample_app.

Definition demo_ref : Reference := mkReference (mkIdentity name_QueryState []) (mkEndpoint TCP [108] 80).

(** The broker with one subscriber, of the topic "a", and a query connection. *)
Definition demo_broker (bytes : list Z) : World Broker :=
  mkWorld {[1 := sample_conn bytes no_calls 0]} ∅ ∅ ∅ {[2 := broker_adapter 5]} [] [] 9 0 demo_direct.

Lemma remote_query_witness :
  ∃ w', @queryStates (list Z) _ _ _ _ _ demo_ref (mkReq [[97]; [98]]) QueryStateRes_new 1
    (sample_world (sample_conn (reply_bytes 0 (answer_items [([97], true); ([98], false)] 0)) no_calls 0) ∅ ∅)
    = Ok (0, mkRes [([97], true); ([98], false)], 1, w').
Proof.
  destruct (@remote_query (list Z) _ _ _ _ _ (demo_settings false) 5 1
    (sample_conn (reply_bytes 0 (answer_items [([97], true); ([98], false)] 0)) no_calls 0)
    (sample_world (sample_conn (reply_bytes 0 (answer_items [([97], true); ([98], false)] 0)) no_calls 0) ∅ ∅)
    demo_ref [[97]; [98]] QueryStateRes_new 0 ∅ None ∅ [] 1
    (sample_conn (request_bytes (query_call demo_ref [[97]; [98]] 0)) no_calls 0)
    (demo_broker (request_bytes (query_call demo_ref [[97]; [98]] 0))) [])
    as (l & trb' & wb' & Hhi & _ & _ & _ & _ & Hq & _ & Hsent & Hstub).
  - discriminate.
  - apply sample_idle.
  - apply sample_below.
  - reflexivity.
  - reflexivity.
  - reflexivity.
  - by apply (bool_decide_unpack _).
  - vm_compute. discriminate.
  - discriminate.
  - split; [apply lookup_singleton_eq|reflexivity|apply new_ready|reflexivity].
  - reflexivity.
  - apply sample_incoming. vm_compute. lia.
  - discriminate.
  - vm_compute. reflexivity.
  - discriminate.
  - apply demo_direct_ok.
  - assert (match @queryState (demo_settings false) [[97]; [98]] demo_direct with Ok (l, _) => l | Fault _ => [] end =
      [([97], true); ([98], false)]) as E by (vm_compute; reflexivity).
    change (w_app (demo_broker _)) with demo_direct in Hq. rewrite Hq in E. subst l.
    destruct Hstub as (tr' & w' & Hcall & _); [rewrite Hsent; apply sample_incoming; vm_compute; lia|].
    exists w'. exact Hcall.
Defined.

End witnesses.
