(* ===== verification/Broker.v ===== *)
(** * Broker: the handlers of publishers and subscribers (msg/PublisherProxy.cpp, msg/SubscriberProxy.cpp)

    The reactor calls [handleInput] of a handler when its stream has bytes and
    [handleOutput] of a subscriber's handler that is registered for writing.
    They run [MsgProtocol::parse] on the stream, call the topic manager and
    answer; a published event becomes a message of the manager, and the buffer
    it was received into is sent to the subscribers as it is.  The clock is
    read once per upcall.  Where the allocator places a new [Msg] is the class
    [Heap]: any free address. *)
From S2P Require Import Prelude CppLib Block OutputStream InputStream Marshalling Socket Framing MsgProtocol TopicManager PubSub.

(** [new Msg]: a free address, given those in use. *)
Class Heap := {
  new_addr : gset Z → Z;
  new_addr_free X : new_addr X ≠ 0 ∧ new_addr X ∉ X }.

Definition MaxBufferMessageLifeTime : Z := 2 * 60.

(** "0" and the texts of the acknowledgements. *)
Definition str_0 : str := [48].
Definition str_keepAlive : str := [107; 101; 101; 112; 65; 108; 105; 118; 101].
Definition str_publishOK : str := [112; 117; 98; 108; 105; 115; 104; 79; 75].

Definition with_tmpMsg (p : Z) (s : SubscriberHandler) : SubscriberHandler :=
  mkSub (sh_id s) p (sh_topic s) (sh_recentActiveTime s) (sh_stream s) (sh_writing s).
Definition with_stream (sk : socket) (s : SubscriberHandler) : SubscriberHandler :=
  mkSub (sh_id s) (sh_tmpMsg s) (sh_topic s) (sh_recentActiveTime s) sk (sh_writing s).
Definition with_sh_topic (t : str) (s : SubscriberHandler) : SubscriberHandler :=
  mkSub (sh_id s) (sh_tmpMsg s) t (sh_recentActiveTime s) (sh_stream s) (sh_writing s).

(** A [PublisherHandler]: the message it is receiving, and its stream. *)
Record PublisherHandler := mkPub { ph_msg : Z; ph_stream : socket }.

Section handlers.

Context {al : Allocator} {ho : Host} {un : Uninit} {cfg : Settings} {hp : Heap}.

(** Change the object at [h]. *)
Definition update_sub (h : Z) (f : SubscriberHandler → SubscriberHandler) (b : Broker) : result Broker :=
  s ← deref h (br_subs b);
  Ok (with_subs (<[h := f s]> (br_subs b)) b).

Definition new_msg (b : Broker) : Z * Broker :=
  let p := new_addr (dom (br_msgs b)) in
  (p, with_msgs (<[p := mkMessage Msg_new (br_now b)]> (br_msgs b)) b).

(** [OutputStream os; MsgProtocol::start (type, &os)], the fields, [MsgProtocol::send (stream, &os)]. *)
Definition answer_with (type : Z) (fields : list item) (sk : socket) : result (Z * socket) :=
  os ← start type (OutputStream_new 0);
  os ← write_items fields os;
  '(r, _, sk) ← send_msg os sk;
  Ok (r, sk).

(** The same on the stream of the handler at [h]. *)
Definition answer_sub (h type : Z) (fields : list item) (b : Broker) : result (Z * Broker) :=
  s ← deref h (br_subs b);
  '(r, sk) ← answer_with type fields (sh_stream s);
  b ← update_sub h (with_stream sk) b;
  Ok (r, b).

(** *** Subscribers *)

(** The id under which a subscription is entered: "0" asks for a new one. *)
Definition subscriber_id (m : Msg) (b : Broker) : result (str * Broker) :=
  let id := m_subscriberId m in
  _ ← assert_ (negb (bool_decide (id = [])));
  if bool_decide (id = str_0) then
    let '(allocatedClientId, b) := allocateClientId_ b in
    let id := show_int allocatedClientId in
    _ ← assert_ (#id =? 1);
    Ok (id, b)
  else Ok (id, b).

(** [handleInput], [Msg_Subscribe]. *)
Definition onSubscribe (h : Z) (m : Msg) (b : Broker) : result (Z * Broker) :=
  b ← update_sub h (with_sh_topic (m_topic m)) b;
  b ← (if enableBuffering then
         '(id, b) ← subscriber_id m b;
         b ← update_sub h (with_id id) b;
         b ← addSubscription_ (m_topic m) id h b;
         Ok (saveSubscriptionInfoToDisk_ b)
       else addSubscription (m_topic m) h b);
  s ← deref h (br_subs b);
  '(r, b) ← answer_sub h Msg_Subscribe_OK
    [IString (m_topic m); IString (sh_id s); IInt keepAliveTryTimes; IInt keepAliveTimeSpan] b;
  if r =? -1 then Ok (-1, b)
  else
    b ← registerWriteMask h b;
    Ok (0, b).

(** [handleInput], [Msg_KeepAlive_Probe]. *)
Definition onProbe (h : Z) (b : Broker) : result (Z * Broker) :=
  '(r, b) ← answer_sub h Msg_KeepAlive_ACK [IString str_keepAlive] b;
  if r =? -1 then Ok (-1, b) else Ok (0, b).

(** [handleInput], [Msg_UnSubscribe]. *)
Definition onUnSubscribe (h : Z) (m : Msg) (b : Broker) : result (Z * Broker) :=
  s ← deref h (br_subs b);
  _ ← assert_ (bool_decide (sh_id s = m_subscriberId m));
  let b := if enableBuffering
           then saveSubscriptionInfoToDisk_ (removeSubscription_ (m_topic m) (sh_id s) b)
           else removeSubscription (m_topic m) h b in
  '(r, b) ← answer_sub h Msg_UnSubscribe_OK [IString (m_topic m)] b;
  if r =? -1 then Ok (-1, b) else Ok (0, b).

(** What [handleInput] does with a complete message. *)
Definition onSubscriberMessage (h : Z) (m : Msg) (b : Broker) : result (Z * Broker) :=
  if m_type m =? Msg_Subscribe then onSubscribe h m b
  else if m_type m =? Msg_KeepAlive_Probe then onProbe h b
  else if m_type m =? Msg_UnSubscribe then onUnSubscribe h m b
  else Fault AssertFailed.

(** [SubscriberHandler::handleInput]; the [auto_ptr] deletes the message on return. *)
Definition sub_handleInput (h : Z) (b : Broker) : result (Z * Broker) :=
  b ← update_sub h (with_active (br_now b)) b;
  s ← deref h (br_subs b);
  b ← (if sh_tmpMsg s =? 0 then let '(p, b) := new_msg b in update_sub h (with_tmpMsg p) b else Ok b);
  s ← deref h (br_subs b);
  let tmpMsg := sh_tmpMsg s in
  m ← deref tmpMsg (br_msgs b);
  '(result, msg, sk) ← parse (msg_of m) (sh_stream s);
  b ← update_sub h (with_stream sk) (with_msgs (<[tmpMsg := mkMessage msg (creatTime m)]> (br_msgs b)) b);
  if result =? -1 then
    b ← delete_msg tmpMsg b;
    b ← update_sub h (with_tmpMsg 0) b;
    Ok (-1, b)
  else if result =? 1 then Ok (0, b)
  else
    _ ← assert_ (result =? 0);
    b ← update_sub h (with_tmpMsg 0) b;
    '(r, b) ← onSubscriberMessage h msg b;
    b ← delete_msg tmpMsg b;
    Ok (r, b).

(** [SubscriberHandler::sendMessage (mb)]: the blocks of a chain,
    until one is not sent whole; 0 when all are.  [bytesSent] is a [size_t]. *)
Fixpoint send_blocks (curmb : Block) (cont : list Block) (sk : socket) : result (Z * socket) :=
  bs ← load (b_rd curmb) (b_length curmb) (b_data curmb);
  let '(bytesSent, sk) := send bs sk in
  if u64 bytesSent =? b_length curmb then
    match cont with
    | [] => Ok (0, sk)
    | m :: cont => send_blocks (with_rd 0 m) cont sk
    end
  else Ok (-1, sk).

Definition sendMessage_mb (h : Z) (mb : Block) (b : Broker) : result (Z * Broker) :=
  s ← deref h (br_subs b);
  _ ← assert_ (negb (bool_decide (sh_id s = [])));
  b ← (if enableBuffering then
         '(x, b) ← getHandlerOfClient_ (sh_id s) b;
         _ ← assert_ (x =? h);
         Ok b
       else Ok b);
  '(r, sk) ← send_blocks mb [] (sh_stream s);
  b ← update_sub h (with_stream sk) b;
  Ok (r, b).

(** [SubscriberHandler::sendMessage (msg)]: a message that is too old counts as sent. *)
Definition sendMessage_msg (h p : Z) (b : Broker) : result (Z * Broker) :=
  m ← deref p (br_msgs b);
  let mb := with_rd 0 (is_start (m_is (msg_of m))) in
  let msg := with_is (with_start mb (m_is (msg_of m))) (msg_of m) in
  let b := with_msgs (<[p := mkMessage msg (creatTime m)]> (br_msgs b)) b in
  let life := s32 (br_now b - creatTime m) in
  if life <=? MaxBufferMessageLifeTime then sendMessage_mb h mb b else Ok (0, b).

(** The loop of [handleOutput] over a copy of the set of messages; the flag tells that it returned. *)
Fixpoint send_messages (h : Z) (messages : list Z) (b : Broker) : result (bool * Broker) :=
  match messages with
  | [] => Ok (false, b)
  | p :: messages =>
      _ ← assert_ (negb (p =? 0));
      _ ← deref p (br_msgs b);
      '(r, b) ← sendMessage_msg h p b;
      if r =? -1 then Ok (true, b)
      else
        b ← update_sub h (with_active (br_now b)) b;
        s ← deref h (br_subs b);
        b ← (if enableBuffering then onMessageSent_ p (sh_id s) b else onMessageSent p h b);
        send_messages h messages b
  end.

(** [SubscriberHandler::handleOutput]. *)
Definition sub_handleOutput (h : Z) (b : Broker) : result (Z * Broker) :=
  s ← deref h (br_subs b);
  '(messages, b) ← (if enableBuffering then getClientMessages_ (sh_id s) b else getClientMessages h b);
  '(failed, b) ← send_messages h (set_iter messages) b;
  if (failed : bool) then Ok (-1, b)
  else
    b ← update_sub h (with_writing false) b;
    Ok (0, b).

(** *** Publishers *)

(** [PublisherHandler ()] and [open (0)], on the stream of a connection. *)
Definition PublisherHandler_new (sk : socket) : PublisherHandler := mkPub 0 sk.

(** [~PublisherHandler ()]. *)
Definition PublisherHandler_delete (ph : PublisherHandler) : result unit := assert_ (ph_msg ph =? 0).

(** [PublisherHandler::handleInput] once [parse] returned 0: [m] is the message at [p]. *)
Definition onPublisherMessage (p : Z) (m : Msg) (sk : socket) (b : Broker) : result (Z * PublisherHandler * Broker) :=
  if m_type m =? Msg_KeepAlive_Probe then
    '(r, sk) ← answer_with Msg_KeepAlive_ACK [IString str_keepAlive] sk;
    b ← delete_msg p b;
    Ok (r, mkPub 0 sk, b)
  else if m_type m =? Msg_Publish then
    '(r, sk) ← answer_with Msg_Publish_OK
      [IString str_publishOK; IInt keepAliveTryTimes; IInt keepAliveTimeSpan; IBoolean (Z.b2z enableBuffering)] sk;
    b ← delete_msg p b;
    Ok (r, mkPub 0 sk, b)
  else
    _ ← assert_ (m_type m =? Msg_Event);
    _ ← assert_ (negb (bool_decide (m_topic m = [])));
    '(_, _, _) ← read_string (InputStream_copy (m_is m));
    b ← (if enableBuffering then addMessage_ p b else addMessage p b);
    Ok (0, mkPub 0 sk, b).

(** [PublisherHandler::handleInput]. *)
Definition pub_handleInput (ph : PublisherHandler) (b : Broker) : result (Z * PublisherHandler * Broker) :=
  let '(p, b) := if ph_msg ph =? 0 then new_msg b else (ph_msg ph, b) in
  m ← deref p (br_msgs b);
  '(result, msg, sk) ← parse (msg_of m) (ph_stream ph);
  let b := with_msgs (<[p := mkMessage msg (creatTime m)]> (br_msgs b)) b in
  if result =? -1 then
    b ← delete_msg p b;
    Ok (-1, mkPub 0 sk, b)
  else if result =? 1 then Ok (0, mkPub p sk, b)
  else
    _ ← assert_ (result =? 0);
    onPublisherMessage p msg sk b.

(** The upcalls of a publisher while its message is incomplete, each when [select]
    has reported its socket. *)
Fixpoint pub_upcalls (n : nat) (ph : PublisherHandler) (b : Broker) : result (Z * PublisherHandler * Broker) :=
  match n with
  | O => Fault OutOfFuel
  | S n =>
      '(r, ph, b) ← pub_handleInput (mkPub (ph_msg ph) (wait_input (ph_stream ph))) b;
      if ph_msg ph =? 0 then Ok (r, ph, b) else pub_upcalls n ph b
  end.

End handlers.

(** ** Lemmas: one message to one subscriber *)

Section output.

Context {al : Allocator} {ho : Host} {un : Uninit} {cfg : Settings} {hp : Heap}.

(** The bytes of the message at [p] that go on the wire: its whole buffer, or
    nothing when it is too old. *)
Definition wire (b : Broker) (p : Z) : list Z :=
  match br_msgs b !! p with
  | Some m =>
      if s32 (br_now b - creatTime m) <=? MaxBufferMessageLifeTime
      then slice 0 (b_wr (is_start (m_is (msg_of m)))) (b_data (is_start (m_is (msg_of m)))) else []
  | None => []
  end.

(** There is something in the buffer, and the write pointer is inside it. *)
Definition sane_block (mb : Block) : Prop := 0 < b_wr mb ≤ b_capacity mb ∧ b_capacity mb < 2 ^ 60.
Definition sane_msg (b : Broker) (p : Z) : Prop :=
  ∃ m, br_msgs b !! p = Some m ∧ sane_block (is_start (m_is (msg_of m))).

(** One block: all of it is sent, or a part and the caller is told. *)
Lemma send_block_ok mb sk :
  sane_block mb → b_rd mb = 0 → let f := slice 0 (b_wr mb) (b_data mb) in
  ∃ r sk', send_blocks mb [] sk = Ok (r, sk') ∧
    ((r = 0 ∧ sk_sent sk' = sk_sent sk ++ f) ∨
     (r = -1 ∧ ∃ part rest, f = part ++ rest ∧ rest ≠ [] ∧ sk_sent sk' = sk_sent sk ++ part)) ∧
    (sk_out sk = [] → r = 0 ∧ sk_out sk' = []).
Proof.
  intros [[Hw0 Hw] Hc] Hrd f. cbn [send_blocks]. unfold b_length. rewrite Hrd, Z.sub_0_r, wrap_small by (unfold in_u; lia).
  rewrite load_slice by (unfold b_capacity in *; lia). rewrite bind_Ok, Z.add_0_l. fold f.
  assert (#f = b_wr mb) as Hf by (unfold f; rewrite length_slice; unfold b_capacity in *; lia).
  unfold send. destruct (sk_out sk) as [|[n|e] out]; cbn [fst snd].
  - rewrite wrap_small, Hf, Z.eqb_refl by (unfold in_u; lia). eexists _, _. split; [done|].
    split; [left; split; [done|]; cbn; by rewrite take_ge by lia|done].
  - set (k := Z.min _ _). rewrite wrap_small by (unfold in_u, k; lia). destruct (Z.eqb_spec k (b_wr mb)) as [E|E].
    + eexists _, _. split; [done|]. split; [|done]. left. split; [done|]. cbn. by rewrite take_ge by lia.
    + eexists _, _. split; [done|]. split; [|done]. right. split; [done|].
      exists (take (Z.to_nat k) f), (drop (Z.to_nat k) f). rewrite take_drop. split_and!; try done.
      intros Hd. apply (f_equal length) in Hd. rewrite length_drop in Hd. cbn in Hd. unfold k in *. lia.
  - rewrite (proj2 (Z.eqb_neq _ _)) by (vm_compute (u64 (-1)); lia). eexists _, _. split; [done|]. split; [|done].
    right. split; [done|]. exists [], f. rewrite app_nil_r. split_and!; try done. intros Hd. rewrite Hd in Hf. cbn in Hf. lia.
Qed.

Lemma deref_ok {V} p (m : gmap Z V) v : p ≠ 0 → m !! p = Some v → deref p m = Ok v.
Proof. intros Hp Hv. unfold deref. by rewrite (proj2 (Z.eqb_neq _ _)), Hv by done. Qed.

(** The assertion of [sendMessage] on the handler registered for the id. *)
Lemma check_handler_ok h s b :
  inv b → sh_id s ≠ [] → (enableBuffering = true → handler_of (sh_id s) b = h) →
  ∃ b', (if enableBuffering then '(x, b) ← getHandlerOfClient_ (sh_id s) b; _ ← assert_ (x =? h); Ok b else Ok b) = Ok b' ∧
    inv b' ∧ calm b b' ∧ br_msgs b' = br_msgs b ∧ br_subs b' = br_subs b ∧
    buffered (br_mgr b') = buffered (br_mgr b) ∧ direct (br_mgr b') = direct (br_mgr b).
Proof.
  intros Hi Hid Hh. destruct enableBuffering; [|by exists b]. unfold getHandlerOfClient_.
  rewrite bool_decide_eq_false_2 by done. cbn [negb assert_]. rewrite !bind_Ok. fold (handler_of (sh_id s) b).
  rewrite Hh, Z.eqb_refl by done. cbn [assert_]. rewrite bind_Ok. eexists. split; [done|]. set (b' := with_mgr _ b).
  assert (calm b b') as Hc.
  { split; try done; [|intros; by left]. intros id'. unfold handler_of at 1. cbn.
    destruct (decide (id' = sh_id s)) as [->|]; [rewrite lookup_insert_eq; cbn; by rewrite Hh|by rewrite lookup_insert_ne]. }
  split_and!; try done. by apply (calm_inv_same b).
Qed.

(** Changing a handler, but not its id. *)
Lemma set_sub_quiet h s s' b :
  br_subs b !! h = Some s → sh_id s' = sh_id s → quiet b (with_subs (<[h := s']> (br_subs b)) b).
Proof.
  intros Hs Hid. split; try done. intros x y Hy. cbn. destruct (decide (x = h)) as [->|].
  - exists s'. rewrite lookup_insert_eq. split; [done|congruence].
  - exists y. by rewrite lookup_insert_ne.
Qed.

(** [sendMessage (msg)]. *)
Lemma broker_sendMessage_ok h s p b :
  inv b → h ≠ 0 → p ≠ 0 → br_subs b !! h = Some s → sh_id s ≠ [] → (enableBuffering = true → handler_of (sh_id s) b = h) →
  sane_msg b p →
  ∃ r sk' b', sendMessage_msg h p b = Ok (r, b') ∧ inv b' ∧ quiet b b' ∧
    buffered (br_mgr b') = buffered (br_mgr b) ∧ direct (br_mgr b') = direct (br_mgr b) ∧
    br_subs b' = <[h := with_stream sk' s]> (br_subs b) ∧
    (∀ q, q ≠ p → br_msgs b' !! q = br_msgs b !! q) ∧
    ((r = 0 ∧ sk_sent sk' = sk_sent (sh_stream s) ++ wire b p) ∨
     (r = -1 ∧ ∃ part rest, wire b p = part ++ rest ∧ rest ≠ [] ∧ sk_sent sk' = sk_sent (sh_stream s) ++ part)) ∧
    (sk_out (sh_stream s) = [] → r = 0 ∧ sk_out sk' = []).
Proof.
  intros Hi Hh Hp Hs Hid Hreg (m & Hm & Hsane). unfold sendMessage_msg. rewrite (deref_ok p _ m), bind_Ok by done.
  set (mb := with_rd 0 _). set (b1 := with_msgs _ b). change (br_now b1) with (br_now b).
  assert (quiet b b1) as Hq1 by (split; try done; intros x y Hy; by exists y).
  assert (inv b1) as Hi1.
  { apply (quiet_inv_same b); try done. unfold b1. cbn. rewrite dom_insert_lookup_L by done. done. }
  assert (∀ q, q ≠ p → br_msgs b1 !! q = br_msgs b !! q) as Hoth by (intros q ?; unfold b1; cbn; by rewrite lookup_insert_ne).
  unfold wire. rewrite Hm. destruct (_ <=? _).
  - unfold sendMessage_mb. change (br_subs b1) with (br_subs b). rewrite (deref_ok h _ s), bind_Ok by done.
    rewrite bool_decide_eq_false_2 by done. cbn [negb assert_]. rewrite bind_Ok.
    destruct (check_handler_ok h s b1) as (b2 & -> & Hi2 & Hc2 & Hms2 & Hsb2 & Hb2 & Hd2); try done. rewrite bind_Ok.
    destruct (send_block_ok mb (sh_stream s)) as (r & sk' & -> & Hr & Hall); [done|done|]. rewrite bind_Ok.
    unfold update_sub. rewrite Hsb2. change (br_subs b1) with (br_subs b). rewrite (deref_ok h _ s), !bind_Ok by done.
    assert (quiet b2 (with_subs (<[h := with_stream sk' s]> (br_subs b2)) b2)) as Hq3 by (apply (set_sub_quiet h s); [by rewrite Hsb2|done]).
    rewrite Hsb2 in Hq3. change (br_subs b1) with (br_subs b) in Hq3.
    eexists r, sk', _. split; [done|]. split; [by apply (quiet_inv_same b2)|]. split_and!; try done.
    + etrans; [exact Hq1|]. etrans; [apply calm_quiet, Hc2|]. exact Hq3.
    + intros q Hq. cbn. rewrite Hms2. auto.
  - exists 0, (sh_stream s), b1. split; [done|]. split_and!; try done.
    + unfold b1. cbn. rewrite insert_id; [done|]. by destruct s.
    + left. by rewrite app_nil_r.
Qed.

(** ** Lemmas: the loop of [handleOutput] *)

(** What the manager has queued for the client of the handler at [h], whose id is [id]. *)
Definition owed (b : Broker) (h : Z) (id : str) : gset Z :=
  if enableBuffering then at_ id (PubMap1 (br_mgr b)) else at_ h (PubMap4 (br_mgr b)).

(** Two handlers are clients of the manager that differ. *)
Definition other_client (h : Z) (id : str) (h' : Z) (id' : str) : Prop :=
  if enableBuffering then id' ≠ id else h' ≠ h.

Lemma owed_live b h id p : inv b → p ∈ owed b h id → p ≠ 0 ∧ p ∈ dom (br_msgs b).
Proof.
  intros Hi. unfold owed. destruct enableBuffering; intros Hq.
  - by destruct (queued_live_ b id p Hi Hq) as (? & _ & ?).
  - by destruct (queued_live b h p Hi Hq) as (? & _ & ?).
Qed.

Lemma owed_same b b' h id :
  buffered (br_mgr b') = buffered (br_mgr b) → direct (br_mgr b') = direct (br_mgr b) → owed b' h id = owed b h id.
Proof. intros Hb Hd. unfold owed, PubMap1, PubMap4. by rewrite Hb, Hd. Qed.

(** A message is struck off the queue of this client. *)
Lemma strike_ok h id p b :
  inv b → p ∈ owed b h id →
  ∃ b', (if enableBuffering then onMessageSent_ p id b else onMessageSent p h b) = Ok b' ∧ inv b' ∧ calm b b' ∧
    br_subs b' = br_subs b ∧ (∀ q, q ∈ owed b' h id ↔ q ∈ owed b h id ∧ q ≠ p) ∧
    (∀ h' id' q, other_client h id h' id' → q ∈ owed b' h' id' ↔ q ∈ owed b h' id') ∧
    (∀ q, q ≠ p → br_msgs b' !! q = br_msgs b !! q).
Proof.
  intros Hi. unfold owed, other_client. destruct enableBuffering; intros Hq.
  - destruct (onMessageSent_ok_ p id b Hi Hq) as (b' & -> & Hi' & Hc & Hs & _ & Hqd & Hms & _).
    exists b'. split_and!; try done.
    + intros q. rewrite Hqd. naive_solver.
    + intros h' id' q Hne. rewrite Hqd. naive_solver.
    + intros q Hne. rewrite Hms. destruct (bool_decide _); [by rewrite lookup_delete_ne|done].
  - destruct (onMessageSent_ok p h b Hi Hq) as (b' & -> & Hi' & Hc & Hs & _ & Hqd & Hms & _).
    exists b'. split_and!; try done.
    + intros q. rewrite Hqd. naive_solver.
    + intros h' id' q Hne. rewrite Hqd. naive_solver.
    + intros q Hne. rewrite Hms. destruct (bool_decide _); [by rewrite lookup_delete_ne|done].
Qed.

Lemma wire_same b b' p : br_now b' = br_now b → br_msgs b' !! p = br_msgs b !! p → wire b' p = wire b p.
Proof. intros Hn Hm. unfold wire. by rewrite Hn, Hm. Qed.

(** After some turns of the loop: [gone] went out whole and left the queue. *)
Record served (h : Z) (s : SubscriberHandler) (b b' : Broker) (gone : list Z) (tail : list Z) : Prop := mkServed {
  se_inv : inv b';
  se_quiet : quiet b b';
  se_owed : ∀ q, q ∈ owed b' h (sh_id s) ↔ q ∈ owed b h (sh_id s) ∧ q ∉ gone;
  se_others : ∀ h' id' q, other_client h (sh_id s) h' id' → q ∈ owed b' h' id' ↔ q ∈ owed b h' id';
  se_subs : ∀ h', h' ≠ h → br_subs b' !! h' = br_subs b !! h';
  se_self : ∃ s', br_subs b' !! h = Some s' ∧ sh_id s' = sh_id s ∧ sh_writing s' = sh_writing s ∧
              sh_tmpMsg s' = sh_tmpMsg s ∧
              sk_sent (sh_stream s') = sk_sent (sh_stream s) ++ mjoin (wire b <$> gone) ++ tail ∧
              (sk_out (sh_stream s) = [] → sk_out (sh_stream s') = []) }.

(** One turn: the message is sent whole and struck off, or the loop ends there. *)
Lemma send_turn h s p b :
  inv b → h ≠ 0 → br_subs b !! h = Some s → sh_id s ≠ [] → (enableBuffering = true → handler_of (sh_id s) b = h) →
  p ∈ owed b h (sh_id s) → sane_msg b p →
  (∃ b' s', (∀ l, send_messages h (p :: l) b = send_messages h l b') ∧ served h s b b' [p] [] ∧
     br_subs b' !! h = Some s' ∧ (∀ q, q ≠ p → br_msgs b' !! q = br_msgs b !! q)) ∨
  (∃ b' part rest, (∀ l, send_messages h (p :: l) b = Ok (true, b')) ∧ served h s b b' [] part ∧
     wire b p = part ++ rest ∧ rest ≠ [] ∧ sk_out (sh_stream s) ≠ []).
Proof.
  intros Hi Hh Hs Hid Hreg Hq Hsane. destruct (owed_live b h _ p Hi Hq) as [Hp _]. pose proof Hsane as (m & Hm & _).
  destruct (broker_sendMessage_ok h s p b) as (r & sk' & b1 & Hsend & Hi1 & Hq1 & Hb1 & Hd1 & Hs1 & Hms1 & Hcase & Hall); try done.
  assert (br_subs b1 !! h = Some (with_stream sk' s)) as Hs1' by (by rewrite Hs1, lookup_insert_eq).
  assert (∀ h' id', owed b1 h' id' = owed b h' id') as Ho1 by (intros; by apply owed_same).
  assert (∀ l, send_messages h (p :: l) b =
    if r =? -1 then Ok (true, b1) else
      b ← update_sub h (with_active (br_now b1)) b1; s ← deref h (br_subs b);
      b ← (if enableBuffering then onMessageSent_ p (sh_id s) b else onMessageSent p h b); send_messages h l b) as Hrun.
  { intros l. cbn [send_messages]. rewrite (proj2 (Z.eqb_neq _ _)), (deref_ok p _ m), Hsend by done. done. }
  destruct Hcase as [[-> Hsent]|[-> (part & rest & Hw & Hne & Hsent)]]; [left|right].
  - set (s2 := with_active (br_now b1) (with_stream sk' s)). set (b2 := with_subs (<[h := s2]> (br_subs b1)) b1).
    assert (update_sub h (with_active (br_now b1)) b1 = Ok b2) as Hup by (unfold update_sub; by rewrite (deref_ok h _ _ Hh Hs1')).
    assert (deref h (br_subs b2) = Ok s2) as Hde by (apply deref_ok; [done|cbn; by rewrite lookup_insert_eq]).
    assert (quiet b1 b2) as Hq2 by (by apply (set_sub_quiet h (with_stream sk' s))).
    assert (inv b2) as Hi2 by (by apply (quiet_inv_same b1)).
    destruct (strike_ok h (sh_id s) p b2) as (b3 & Hb3 & Hi3 & Hc3 & Hs3 & Ho3 & Hx3 & Hms3); [done|unfold owed in *; cbn; by rewrite <- Ho1 in Hq|].
    exists b3, s2. split; [intros l; rewrite Hrun; cbn [Z.eqb]; rewrite Hup, bind_Ok, Hde, bind_Ok; change (sh_id s2) with (sh_id s); by rewrite Hb3|].
    assert (br_subs b3 !! h = Some s2) as Hs3' by (rewrite Hs3; cbn; by rewrite lookup_insert_eq).
    split_and!; [|done|intros q Hne; rewrite Hms3 by done; by apply Hms1].
    split; try done.
    + etrans; [exact Hq1|]. etrans; [exact Hq2|]. by apply calm_quiet.
    + intros q. rewrite Ho3. change (owed b2) with (owed b1). rewrite Ho1, list_elem_of_singleton. done.
    + intros h' id' q Hne. rewrite Hx3 by done. change (owed b2) with (owed b1). by rewrite Ho1.
    + intros h' Hne. rewrite Hs3. cbn. rewrite lookup_insert_ne, Hs1, lookup_insert_ne by done. done.
    + eexists. split; [exact Hs3'|]. cbn. split_and!; try done; [|intros Ho; by apply Hall].
      rewrite Hsent. by rewrite !app_nil_r.
  - exists b1, part, rest. split; [intros l; by rewrite Hrun|]. split; [|split_and!; try done; intros Ho; by destruct (Hall Ho)].
    split; try done.
    + intros q. rewrite Ho1. set_solver.
    + intros h' id' q Hne'. by rewrite Ho1.
    + intros h' Hne'. by rewrite Hs1, lookup_insert_ne.
    + eexists. split; [exact Hs1'|]. cbn. split_and!; try done. intros Ho. by apply Hall.
Qed.

Lemma served_cons h s s1 b b1 b2 p gone tail :
  served h s b b1 [p] [] → br_subs b1 !! h = Some s1 → served h s1 b1 b2 gone tail →
  (∀ q, q ∈ gone → wire b1 q = wire b q) → served h s b b2 (p :: gone) tail.
Proof.
  intros [Hi1 Hq1 Ho1 Hx1 Hs1 (s1' & Hs1' & Hid1 & Hw1 & Ht1 & Hsent1 & Hout1)] Hs [Hi2 Hq2 Ho2 Hx2 Hs2 (s2 & Hs2' & Hid2 & Hw2 & Ht2 & Hsent2 & Hout2)] Hwire.
  rewrite Hs in Hs1'. injection Hs1' as <-. rewrite Hid1 in Ho2, Hx2. split; try done.
  - by etrans.
  - intros q. rewrite Ho2, Ho1, list_elem_of_singleton, elem_of_cons. tauto.
  - intros h' id' q Hne. by rewrite Hx2, Hx1.
  - intros h' Hne. by rewrite Hs2, Hs1.
  - exists s2. split_and!; try congruence; [|auto]. rewrite Hsent2, Hsent1, !fmap_cons, !mjoin_cons, fmap_nil, mjoin_nil, !app_nil_r.
    replace (wire b1 <$> gone) with (wire b <$> gone); [by rewrite <- !app_assoc|].
    apply list_fmap_ext. intros i q Hq. symmetry. apply Hwire. by eapply list_elem_of_lookup_2.
Qed.

Lemma send_messages_ok h l : ∀ s b,
  inv b → h ≠ 0 → br_subs b !! h = Some s → sh_id s ≠ [] → (enableBuffering = true → handler_of (sh_id s) b = h) →
  NoDup l → (∀ p, p ∈ l → p ∈ owed b h (sh_id s) ∧ sane_msg b p) →
  ∃ failed b' gone rest tail, send_messages h l b = Ok (failed, b') ∧ l = gone ++ rest ∧ served h s b b' gone tail ∧
    (failed = false → rest = [] ∧ tail = []) ∧
    (failed = true → ∃ p rest' left, rest = p :: rest' ∧ wire b p = tail ++ left ∧ left ≠ []) ∧
    (sk_out (sh_stream s) = [] → failed = false).
Proof.
  induction l as [|p l IH]; intros s b Hi Hh Hs Hid Hreg Hnd Hl.
  - exists false, b, [], [], []. split_and!; try done. split; try done.
    + intros q. set_solver.
    + exists s. split_and!; try done. rewrite fmap_nil, mjoin_nil. by rewrite app_nil_r.
  - apply NoDup_cons in Hnd as [Hpl Hnd]. destruct (Hl p) as [Hpo Hps]; [set_solver|].
    destruct (send_turn h s p b) as [(b1 & s1 & Hrun & Hse & Hs1 & Hms)|(b1 & part & rest & Hrun & Hse & Hw & Hne & Hout)]; try done.
    + pose proof Hse as [Hi1 Hq1 Ho1 Hx1 _ (s1' & Hs1' & Hid1 & _ & _ & _ & Hout1)]. rewrite Hs1 in Hs1'. injection Hs1' as <-.
      assert (∀ q, q ∈ l → br_msgs b1 !! q = br_msgs b !! q) as Hm1 by (intros q Hql; apply Hms; by intros ->).
      destruct (IH s1 b1) as (failed & b' & gone & rest & tail & Hr & -> & Hse' & Hok & Hko & Hall); try done.
      { by rewrite Hid1. }
      { intros Hb. rewrite Hid1, (qt_handler _ _ Hq1). auto. }
      { intros q Hql. rewrite Hid1, Ho1, list_elem_of_singleton. destruct (Hl q) as [? (m & Hm & Hsm)]; [set_solver|].
        split; [split; [done|by intros ->]|]. exists m. rewrite Hm1 by done. done. }
      assert (∀ q, q ∈ gone ++ rest → wire b1 q = wire b q) as Hw1.
      { intros q Hql. apply wire_same; [apply Hq1|auto]. }
      exists failed, b', (p :: gone), rest, tail. split_and!; try done.
      * by rewrite Hrun.
      * eapply served_cons; try done. intros q Hq. apply Hw1. set_solver.
      * intros Hf. destruct (Hko Hf) as (q & rest' & left & -> & Hwq & ?). exists q, rest', left.
        rewrite <- (Hw1 q) by set_solver. done.
      * auto.
    + exists true, b1, [], (p :: l), part. split_and!; try done. intros _. by exists p, l, rest.
Qed.

(** [getClientMessages] and [getClientMessages_]. *)
Lemma get_messages_ok h id b :
  inv b → h ≠ 0 → id ≠ [] →
  ∃ b0, (if enableBuffering then getClientMessages_ id b else getClientMessages h b) = Ok (owed b h id, b0) ∧
    inv b0 ∧ calm b b0 ∧ br_subs b0 = br_subs b ∧ br_msgs b0 = br_msgs b ∧ ∀ h' id', owed b0 h' id' = owed b h' id'.
Proof.
  intros Hi Hh Hid. unfold owed. destruct enableBuffering.
  - unfold getClientMessages_. rewrite bool_decide_eq_false_2 by done. cbn [negb assert_]. rewrite bind_Ok.
    eexists. split; [done|]. set (b0 := with_mgr _ b). assert (calm b b0) as Hc by (split; try done; intros; by left).
    split_and!; try done; [|intros; unfold b0, PubMap1; cbn; by rewrite at_touch].
    apply (calm_inv b); try done; try apply Hi. split; cbn.
    + intros c p. rewrite at_touch. apply (lk_pairs _ (inv_buffered b Hi)).
    + apply (lk_served _ (inv_buffered b Hi)).
  - unfold getClientMessages. rewrite (proj2 (Z.eqb_neq _ _)) by done. cbn [negb assert_]. rewrite bind_Ok.
    eexists. split; [done|]. set (b0 := with_mgr _ b). assert (calm b b0) as Hc by (split; try done; intros; by left).
    split_and!; try done; [|intros; unfold b0, PubMap4; cbn; by rewrite at_touch].
    apply (calm_inv b); try done; try apply Hi. split; cbn.
    + intros c p. rewrite at_touch. apply (lk_pairs _ (inv_direct b Hi)).
    + apply (lk_served _ (inv_direct b Hi)).
Qed.
End output.

(** [handleOutput], by what was sent and what stayed. *)
Lemma handleOutput_ok {al : Allocator} {ho : Host} {un : Uninit} {cfg : Settings} h s b :
  inv b → h ≠ 0 → br_subs b !! h = Some s → sh_id s ≠ [] → (enableBuffering = true → handler_of (sh_id s) b = h) →
  (∀ p, p ∈ owed b h (sh_id s) → sane_msg b p) →
  ∃ r b' s' gone rest tail, sub_handleOutput h b = Ok (r, b') ∧ inv b' ∧
    set_iter (owed b h (sh_id s)) = gone ++ rest ∧ (∀ q, q ∈ owed b' h (sh_id s) ↔ q ∈ rest) ∧
    (∀ h' id' q, other_client h (sh_id s) h' id' → q ∈ owed b' h' id' ↔ q ∈ owed b h' id') ∧
    br_subs b' !! h = Some s' ∧ sk_sent (sh_stream s') = sk_sent (sh_stream s) ++ mjoin (wire b <$> gone) ++ tail ∧
    ((r = 0 ∧ rest = [] ∧ tail = [] ∧ sh_writing s' = false) ∨
     (r = -1 ∧ sk_out (sh_stream s) ≠ [] ∧ ∃ p rest' left, rest = p :: rest' ∧ wire b p = tail ++ left ∧ left ≠ [])).
Proof.
  intros Hi Hh Hs Hid Hreg Hsane. unfold sub_handleOutput. rewrite (deref_ok h _ s), bind_Ok by done.
  set (get := if enableBuffering then getClientMessages_ (sh_id s) b else getClientMessages h b).
  assert (∃ b0, get = Ok (owed b h (sh_id s), b0) ∧ inv b0 ∧ calm b b0 ∧ br_subs b0 = br_subs b ∧ br_msgs b0 = br_msgs b ∧
    ∀ h' id', owed b0 h' id' = owed b h' id') as (b0 & -> & Hi0 & Hc0 & Hs0 & Hm0 & Ho0).
  { subst get. by apply get_messages_ok. }
  rewrite bind_Ok.
  destruct (send_messages_ok h (set_iter (owed b h (sh_id s))) s b0) as (failed & b' & gone & rest & tail & -> & Hl & Hse & Hok & Hko & Hall);
    try done; [by rewrite Hs0|intros Hb; rewrite (cm_handler _ _ Hc0); auto|apply NoDup_set_iter| |].
  { intros p Hp%elem_of_set_iter. rewrite Ho0. split; [done|]. unfold sane_msg. rewrite Hm0. by apply Hsane. }
  rewrite bind_Ok. pose proof Hse as [Hi' Hq' Ho' Hx' _ (s' & Hs' & Hid' & Hw' & _ & Hsent & _)].
  assert (∀ q, wire b0 q = wire b q) as Hwire by (intros q; apply wire_same; [apply Hc0|by rewrite Hm0]).
  rewrite (list_fmap_ext (wire b0) (wire b) gone) in Hsent by auto.
  assert (∀ q, q ∈ owed b' h (sh_id s) ↔ q ∈ rest) as Howed.
  { intros q. rewrite Ho', Ho0, <- (elem_of_set_iter (owed b h (sh_id s))), Hl, elem_of_app.
    pose proof (NoDup_set_iter (owed b h (sh_id s))) as Hnd. rewrite Hl in Hnd. apply NoDup_app in Hnd as (_ & Hdis & _).
    split; [tauto|]. intros Hq. split; [by right|]. intros Hg. by destruct (Hdis q Hg). }
  assert (∀ h' id' q, other_client h (sh_id s) h' id' → q ∈ owed b' h' id' ↔ q ∈ owed b h' id') as Hoth.
  { intros h' id' q Hne. by rewrite Hx', Ho0. }
  destruct failed.
  - exists (-1), b', s', gone, rest, tail. split_and!; try done. right. split_and!; try done; [intros He; by specialize (Hall He)|].
    destruct (Hko eq_refl) as (p & rest' & left & -> & Hwp & Hne). rewrite Hwire in Hwp. by exists p, rest', left.
  - destruct (Hok eq_refl) as [-> ->]. unfold update_sub. rewrite (deref_ok h _ s'), !bind_Ok by done.
    eexists 0, _, (with_writing false s'), gone, [], []. split; [done|].
    split; [apply (quiet_inv_same b'); try done; by apply (set_sub_quiet h s')|].
    split_and!; try done; [cbn; by rewrite lookup_insert_eq|by left].
Qed.

(** C31: [handleOutput] delivers at least once.  Whatever the kernel accepts,
    the messages queued for this subscriber are sent in the order of their
    addresses, each as the bytes it was received as ([wire]; one older than the
    life time of two minutes is struck off without being sent), until one is not taken whole; those
    sent are struck off the queue, that one and the ones after it stay; the
    call returns 0 and gives up the write mask when none is left, -1 otherwise;
    nobody else's queue changes, and no message is freed while it is queued. *)
Theorem output_delivers_or_keeps {al : Allocator} {ho : Host} {un : Uninit} {cfg : Settings} h s b :
  inv b → h ≠ 0 → br_subs b !! h = Some s → sh_id s ≠ [] → (enableBuffering = true → handler_of (sh_id s) b = h) →
  (∀ p, p ∈ owed b h (sh_id s) → sane_msg b p) →
  ∃ r b' s' gone rest tail, sub_handleOutput h b = Ok (r, b') ∧ inv b' ∧
    set_iter (owed b h (sh_id s)) = gone ++ rest ∧ (∀ q, q ∈ owed b' h (sh_id s) ↔ q ∈ rest) ∧
    (∀ h' id' q, other_client h (sh_id s) h' id' → q ∈ owed b' h' id' ↔ q ∈ owed b h' id') ∧
    br_subs b' !! h = Some s' ∧ sk_sent (sh_stream s') = sk_sent (sh_stream s) ++ mjoin (wire b <$> gone) ++ tail ∧
    ((r = 0 ∧ rest = [] ∧ tail = [] ∧ sh_writing s' = false) ∨
     (r = -1 ∧ sk_out (sh_stream s) ≠ [] ∧ ∃ p rest' left, rest = p :: rest' ∧ wire b p = tail ++ left ∧ left ≠ [])).
Proof. apply handleOutput_ok. Qed.

(** ** Lemmas: an event from a publisher *)

Section input.

Context {al : Allocator} {ho : Host} {un : Uninit} {cfg : Settings} {hp : Heap}.

(** The broker with the message [m], created at [t], at [p]. *)
Definition put_msg (p : Z) (m : Msg) (t : Z) (b : Broker) : Broker :=
  with_msgs (<[p := mkMessage m t]> (br_msgs b)) b.

Lemma put_msg_put p m m' t b : put_msg p m' t (put_msg p m t b) = put_msg p m' t b.
Proof. unfold put_msg. cbn. by rewrite insert_insert_eq. Qed.

(** One upcall: more of the message, or all of it. *)
Lemma pub_step c rest off p m t sk b :
  content_ok c → p ≠ 0 → receiving (may := not_behind_header) (c_type c) (body_of c) rest off m sk → moving sk → (off < 5 + length (body_of c))%nat →
  (∃ off' m' sk', (off < off' < 5 + length (body_of c))%nat ∧ receiving (may := not_behind_header) (c_type c) (body_of c) rest off' m' sk' ∧
     pub_handleInput (mkPub p sk) (put_msg p m t b) = Ok (0, mkPub p sk', put_msg p m' t b)) ∨
  (∃ m2 sk', received c m2 ∧ holds (frame_of c) m2 ∧ data_of (sk_in sk') = rest ∧
     pub_handleInput (mkPub p sk) (put_msg p m t b) = onPublisherMessage p m2 sk' (put_msg p m2 t b)).
Proof.
  intros Hc Hp Hr Hmv Hlt. pose proof Hc as (_ & _ & _ & Hlen). pose proof (body_nonempty c) as Hne.
  unfold pub_handleInput. cbn [ph_msg ph_stream]. rewrite (proj2 (Z.eqb_neq _ _)) by done.
  rewrite (deref_ok p _ (mkMessage m t)), bind_Ok by (done || cbn; by rewrite lookup_insert_eq). cbn [msg_of creatTime].
  destruct (parse_step _ _ _ _ _ _ behind_header Hr Hmv Hlt Hne Hlen) as (off' & m' & sk' & Ho & Hr' & [[Hlt' ->]|[-> ->]]).
  - left. exists off', m', sk'. split_and!; try done. rewrite bind_Ok. cbn [Z.eqb Pos.eqb]. fold (put_msg p m' t (put_msg p m t b)). by rewrite put_msg_put.
  - right. destruct (received_avail _ _ _ _ _ Hr') as (Hs & Hty & more & Hav).
    destruct (parse_fields_ok c m' more Hc Hs Hty Hav) as (m2 & Hpf & Hrec). exists m2, sk'.
    split_and!; [done|by eapply received_holds| |].
    + rewrite (rc_data _ _ _ _ _ _ Hr'), drop_ge by (rewrite length_frame; lia). done.
    + rewrite Hpf, !bind_Ok. cbn [Z.eqb assert_]. rewrite bind_Ok. fold (put_msg p m2 t (put_msg p m t b)). by rewrite put_msg_put.
Qed.

(** Upcalls until the message is complete, if what is done with it then leaves no message with the handler. *)
Lemma pub_upcalls_ok c rest p t b fuel : ∀ off m sk,
  content_ok c → p ≠ 0 → receiving (may := not_behind_header) (c_type c) (body_of c) rest off m sk → (off < 5 + length (body_of c))%nat →
  (5 + length (body_of c) ≤ off + fuel)%nat →
  ∃ m2 sk', received c m2 ∧ holds (frame_of c) m2 ∧ data_of (sk_in sk') = rest ∧
    ∀ r sk2 b2, onPublisherMessage p m2 sk' (put_msg p m2 t b) = Ok (r, mkPub 0 sk2, b2) →
      pub_upcalls fuel (mkPub p sk) (put_msg p m t b) = Ok (r, mkPub 0 sk2, b2).
Proof.
  induction fuel as [|fuel IH]; intros off m sk Hc Hp Hr Hlt Hf; [lia|]. cbn [pub_upcalls ph_msg ph_stream].
  destruct (receiving_wait _ _ _ _ _ _ Hr) as [Hrw Hmv].
  destruct (pub_step c rest off p m t (wait_input sk) b Hc Hp Hrw Hmv Hlt) as [(off' & m' & sk' & Ho & Hr' & ->)|(m2 & sk' & Hrec & Hho & Hd & ->)].
  - destruct (IH off' m' sk' Hc Hp Hr') as (m2 & sk2 & ? & ? & ? & Hrun); [lia|lia|]. exists m2, sk2. split_and!; try done.
    intros r sk3 b3 Hm. rewrite bind_Ok. cbn [ph_msg]. rewrite (proj2 (Z.eqb_neq _ _)) by done. auto.
  - exists m2, sk'. split_and!; try done. intros r sk3 b3 ->. by rewrite bind_Ok.
Qed.

(** A client that a message of [topic] goes to, and a full manager. *)
Definition receives (b : Broker) (topic : str) (h : Z) (id : str) : Prop :=
  if enableBuffering then id ∈ at_ topic (subscriptionMap (br_mgr b)) ∧ handler_of id b = h
  else h ∈ at_ topic (subscriptionMap1 (br_mgr b)) ∧ active b h = true.
Definition full (b : Broker) : bool :=
  if enableBuffering then Z.of_nat (size (PubMap2 (br_mgr b))) >=? MaxBufferSize
  else Z.of_nat (size (PubMap3 (br_mgr b))) >=? MaxBufferSize.

Lemma accept_ok p m t b h id :
  inv b → p ≠ 0 → br_msgs b !! p = None → h ≠ 0 → receives b (m_topic m) h id →
  ∃ b', (if enableBuffering then addMessage_ p (put_msg p m t b) else addMessage p (put_msg p m t b)) = Ok b' ∧
    inv b' ∧ calm b b' ∧ br_msgs b' !! p = Some (mkMessage m t) ∧
    (∀ q, q ∈ owed b' h id ↔ (q ∈ owed b h id ∧ full b = false) ∨ q = p) ∧
    (∃ s, br_subs b' !! h = Some s ∧ sh_writing s = true).
Proof.
  intros Hi Hp Hfree Hh. unfold receives, owed, full, put_msg. destruct enableBuffering; intros [Hsub Hact].
  - destruct (publish_ok_ p (mkMessage m t) b Hi Hp Hfree) as (b' & -> & Hi' & Hc & _ & Hq & Hms & Hw).
    exists b'. split_and!; try done; [by rewrite Hms, decide_True| |].
    + intros q. rewrite Hq. cbn [msg_of]. naive_solver.
    + destruct (Hw id) as (s & Hs & ?); [done|by rewrite Hact|]. rewrite Hact in Hs. by exists s.
  - destruct (publish_ok p (mkMessage m t) b Hi Hp Hfree) as (b' & -> & Hi' & Hc & Hq & Hms & Hw).
    exists b'. split_and!; try done; [by rewrite Hms, decide_True| |].
    + intros q. rewrite Hq. cbn [msg_of]. naive_solver.
    + by apply Hw.
Qed.

(** An event whose payload starts with a string is handed to the manager. *)
Lemma onEvent_ok c kind more p m sk b b' :
  c_type c = Msg_Event → c_topic c ≠ [] → c_payload c = enc_string kind ++ more → string_ok kind → received c m →
  (if enableBuffering then addMessage_ p b else addMessage p b) = Ok b' →
  onPublisherMessage p m sk b = Ok (0, mkPub 0 sk, b').
Proof.
  intros Hty Htop Hpay Hk (Hmt & Hmtop & _ & _ & _ & [Hrd [_ _]] & rest & Hav) Hadd. unfold onPublisherMessage. rewrite Hmt, Hty, Hmtop.
  cbn [Z.eqb Pos.eqb Msg_Event Msg_KeepAlive_Probe Msg_Publish assert_]. rewrite bind_Ok, bool_decide_eq_false_2 by done.
  cbn [negb assert_]. rewrite bind_Ok. rewrite Hpay, <- app_assoc in Hav.
  destruct (read_string_consumes kind Hk (InputStream_copy (m_is m)) (more ++ rest)) as (s' & -> & _ & _); [split; [exact Hrd|done]|exact Hav|].
  by rewrite bind_Ok, Hadd, bind_Ok.
Qed.

(** The first upcall of a message allocates it. *)
Lemma first_upcall n sk b :
  let p := new_addr (dom (br_msgs b)) in
  pub_upcalls n (PublisherHandler_new sk) b = pub_upcalls n (mkPub p sk) (put_msg p Msg_new (br_now b) b).
Proof.
  intros p. destruct (new_addr_free (dom (br_msgs b))) as [Hp _]. fold p in Hp. destruct n as [|n]; [done|].
  cbn [pub_upcalls]. unfold pub_handleInput. cbn [ph_msg ph_stream PublisherHandler_new Z.eqb].
  rewrite (proj2 (Z.eqb_neq _ _)) by done. done.
Qed.

Lemma holds_sane f m : f ≠ [] → holds f m → sane_block (is_start (m_is m)) ∧
  slice 0 (b_wr (is_start (m_is m))) (b_data (is_start (m_is m))) = f.
Proof.
  intros Hf (Hw & Ht & Hc). assert (0 < length f)%nat by (destruct f; [done|cbn; lia]).
  pose proof (f_equal length Ht) as Hl. rewrite length_take in Hl. split.
  - split; [|done]. rewrite Hw. unfold b_capacity. lia.
  - unfold slice. rewrite Hw, Z.sub_0_r, Nat2Z.id. by rewrite drop_0.
Qed.

(** What a subscriber is owed after time has passed. *)
Lemma tick_inv t b : inv b → inv (tick t b).
Proof. intros Hi. split; apply Hi. Qed.

End input.

(** ** The broker end to end *)

Section end_to_end.

Context {al : Allocator} {ho : Host} {un : Uninit} {cfg : Settings} {hp : Heap}.

(** The event [c] arrives at the broker, in whatever pieces. *)
Record arriving (c : content) (kind more rest : list Z) (sk : socket) : Prop := mkArriving {
  ar_content : content_ok c;
  ar_event : c_type c = Msg_Event;
  ar_payload : c_payload c = enc_string kind ++ more;
  ar_kind : string_ok kind;
  ar_paced : paced not_behind_header 0 (sk_in sk);
  ar_data : data_of (sk_in sk) = frame_of c ++ rest }.

(** A publisher's upcalls take in an event: it is a message of the manager. *)
Lemma event_taken c kind more rest sk b h id :
  inv b → arriving c kind more rest sk → h ≠ 0 → receives b (c_topic c) h id →
  ∃ p m sk' b', pub_upcalls (length (data_of (sk_in sk))) (PublisherHandler_new sk) b = Ok (0, mkPub 0 sk', b') ∧
    data_of (sk_in sk') = rest ∧ inv b' ∧ calm b b' ∧ (p ∉ dom (br_msgs b)) ∧
    br_msgs b' !! p = Some (mkMessage m (br_now b)) ∧ holds (frame_of c) m ∧
    (∀ q, q ∈ owed b' h id ↔ (q ∈ owed b h id ∧ full b = false) ∨ q = p) ∧
    (∃ s, br_subs b' !! h = Some s ∧ sh_writing s = true).
Proof.
  intros Hi [Hc Hev Hpay Hk Hfl Hdata] Hh Hrecv. rewrite first_upcall. set (p := new_addr (dom (br_msgs b))).
  destruct (new_addr_free (dom (br_msgs b))) as [Hp Hfree]. fold p in Hp, Hfree. apply not_elem_of_dom in Hfree as Hnone.
  pose proof (length_frame (c_type c) (body_of c)) as Hlf. fold (frame_of c) in Hlf.
  destruct (pub_upcalls_ok c rest p (br_now b) b (length (data_of (sk_in sk))) 0 Msg_new sk)
    as (m & sk' & Hrec & Hho & Hd & Hrun); [done|done|by apply new_receiving|lia|rewrite Hdata, length_app; lia|].
  destruct (accept_ok p m (br_now b) b h id) as (b' & Hadd & Hi' & Hcalm & Hms & Hq & Hw); try done.
  { destruct Hrec as (_ & -> & _). done. }
  exists p, m, sk', b'. split_and!; try done. apply Hrun.
  eapply onEvent_ok; try done. destruct Hc as (_ & _ & Ht & _). auto.
Qed.

End end_to_end.

(** C8: a published event reaches its subscribers.  An event comes in on a
    publisher's connection in any pieces, and with any stalls of its socket,
    which does not block, except right behind the header (there [parse] gives an
    empty message for complete: [parse_would_block_completes]); a client that subscribes to its topic
    (with buffering: is registered under its id; without: was heard of lately)
    and is owed nothing else, and whose socket takes all it is given, is then registered for writing, and the next
    [handleOutput] of its handler, up to two minutes later, puts on its
    connection exactly the bytes of the event as they came, leaves nothing
    queued for it and gives up the write mask. *)
Theorem event_reaches_subscriber {al : Allocator} {ho : Host} {un : Uninit} {cfg : Settings} {hp : Heap}
    c kind more rest sk b h s delay :
  inv b → arriving c kind more rest sk → h ≠ 0 → br_subs b !! h = Some s → sh_id s ≠ [] →
  receives b (c_topic c) h (sh_id s) → owed b h (sh_id s) = ∅ → sk_out (sh_stream s) = [] →
  0 ≤ delay ≤ MaxBufferMessageLifeTime →
  ∃ ph b1 s1 b2 s2,
    pub_upcalls (length (data_of (sk_in sk))) (PublisherHandler_new sk) b = Ok (0, ph, b1) ∧
    data_of (sk_in (ph_stream ph)) = rest ∧ br_subs b1 !! h = Some s1 ∧ sh_writing s1 = true ∧
    sub_handleOutput h (tick delay b1) = Ok (0, b2) ∧ inv b2 ∧ br_subs b2 !! h = Some s2 ∧
    sk_sent (sh_stream s2) = sk_sent (sh_stream s) ++ frame_of c ∧
    owed b2 h (sh_id s) = ∅ ∧ sh_writing s2 = false.
Proof.
  intros Hi Har Hh Hs Hid Hrecv Hnone Hout Hdelay.
  destruct (event_taken c kind more rest sk b h (sh_id s)) as (p & m & sk' & b1 & Hrun & Hd & Hi1 & Hc1 & Hp & Hm & Hho & Hq & s1 & Hs1 & Hw1); try done.
  destruct (calm_sub _ _ _ _ Hc1 Hs) as (s1' & Hs1' & Hid1 & _ & Hst1 & _). rewrite Hs1 in Hs1'. injection Hs1' as <-.
  assert (owed (tick delay b1) h (sh_id s1) = {[p]}) as Howed.
  { change (owed (tick delay b1)) with (owed b1). rewrite Hid1. apply set_eq. intros q. rewrite Hq, Hnone. set_solver. }
  assert (frame_of c ≠ []) as Hfne by (unfold frame_of; intros E; apply (f_equal length) in E; by rewrite length_frame in E).
  destruct (holds_sane (frame_of c) m Hfne Hho) as [Hsane Hslice].
  assert (wire (tick delay b1) p = frame_of c) as Hwire.
  { unfold wire. change (br_msgs (tick delay b1)) with (br_msgs b1). rewrite Hm. cbn [creatTime br_now tick msg_of].
    rewrite (cm_now _ _ Hc1). replace (br_now b + delay - br_now b) with delay by lia. unfold MaxBufferMessageLifeTime in *.
    rewrite swrap_small, (proj2 (Z.leb_le _ _)) by (unfold in_s; lia). done. }
  destruct (handleOutput_ok h s1 (tick delay b1)) as (r & b2 & s2 & gone & rest' & tail & Hho2 & Hi2 & Hl & Ho2 & _ & Hs2 & Hsent & Hcase);
    try done; [by apply tick_inv|by rewrite Hid1| | |].
  { intros Hb. unfold receives in Hrecv. rewrite Hb in Hrecv. rewrite Hid1. change (handler_of (sh_id s) b1 = h). rewrite (cm_handler _ _ Hc1). apply Hrecv. }
  { rewrite Howed. intros q ->%elem_of_singleton. by exists (mkMessage m (br_now b)). }
  destruct Hcase as [(-> & -> & -> & Hw2)|(_ & Hne & _)]; [|by rewrite Hst1 in Hne].
  rewrite app_nil_r, Howed, set_iter_singleton in Hl. subst gone.
  exists (mkPub 0 sk'), b1, s1, b2, s2. split_and!; try done.
  - rewrite Hsent, Hst1, fmap_cons, fmap_nil, mjoin_cons, mjoin_nil, !app_nil_r. by rewrite Hwire.
  - rewrite <- Hid1. apply set_eq. intros q. rewrite Ho2. set_solver.
Qed.

(** ** Requests of subscribers *)

Section requests.

Context {al : Allocator} {ho : Host} {un : Uninit} {cfg : Settings} {hp : Heap}.

(** An answer goes out as a frame of its fields. *)
Lemma answer_with_ok ty fields sk :
  in_u 8 ty → ty ≠ Msg_Event → Forall item_ok fields → 5 + len (mjoin (encode <$> fields)) ≤ os_limit → sk_out sk = [] →
  ∃ sk', answer_with ty fields sk = Ok (0, sk') ∧ sk_sent sk' = sk_sent sk ++ frame ty (mjoin (encode <$> fields)).
Proof.
  intros Hty Hne Hf Hlim Hout. unfold answer_with, len in *.
  destruct (start_header_ok ty 0) as (os0 & Hst & Hs0 & Hh0 & Hsw0 & Hc0); [by right|].
  change (start ty) with (start_header ty). rewrite Hst, bind_Ok.
  assert (os_len os0 = 5) as Hl0 by (unfold os_len; rewrite Hc0; reflexivity).
  destruct (write_items_append fields os0 Hf Hs0 Hsw0) as (os1 & -> & Hs1 & Hc1 & Hsw1 & Hk1); [lia|].
  rewrite bind_Ok.
  destruct (send_msg_ok os1 (be_bytes 4 0) ty (mjoin (encode <$> fields)) sk) as (os' & sk' & -> & Hsent); try done.
  - by apply Hk1.
  - congruence.
  - unfold os_len in *. rewrite Hc1, length_app. lia.
  - rewrite Hc1, Hc0, <- app_assoc. do 2 f_equal. cbn. rewrite Z.mod_small; [done|]. change 256 with (2 ^ 8). exact Hty.
  - rewrite bind_Ok. by exists sk'.
Qed.

Lemma answer_with_keeps ty fields sk r sk' :
  answer_with ty fields sk = Ok (r, sk') → sk_in sk' = sk_in sk ∧ (sk_out sk = [] → sk_out sk' = []).
Proof.
  unfold answer_with, send_msg. intros Hs.
  repeat (inv_ok; match goal with p : (_ * _)%type |- _ => destruct p end). inv_ok. by eapply send_loop_keeps.
Qed.

(** The object at [h] replaced. *)
Definition put_sub (h : Z) (s : SubscriberHandler) (b : Broker) : Broker := with_subs (<[h := s]> (br_subs b)) b.

Lemma put_sub_lookup h s b : br_subs (put_sub h s b) !! h = Some s.
Proof. cbn. by rewrite lookup_insert_eq. Qed.

Lemma update_sub_ok h f s b : h ≠ 0 → br_subs b !! h = Some s → update_sub h f b = Ok (put_sub h (f s) b).
Proof. intros Hh Hs. unfold update_sub. by rewrite (deref_ok h _ s). Qed.

Lemma answer_sub_ok h ty fields s b :
  h ≠ 0 → br_subs b !! h = Some s → in_u 8 ty → ty ≠ Msg_Event → Forall item_ok fields →
  5 + len (mjoin (encode <$> fields)) ≤ os_limit → sk_out (sh_stream s) = [] →
  ∃ sk', answer_sub h ty fields b = Ok (0, put_sub h (with_stream sk' s) b) ∧
    sk_sent sk' = sk_sent (sh_stream s) ++ frame ty (mjoin (encode <$> fields)).
Proof.
  intros Hh Hs Hty Hne Hf Hlim Hout. unfold answer_sub. rewrite (deref_ok h _ s), bind_Ok by done.
  destruct (answer_with_ok ty fields (sh_stream s)) as (sk' & -> & Hsent); try done. rewrite bind_Ok.
  rewrite (update_sub_ok h _ s), bind_Ok by done. by exists sk'.
Qed.

(** The id a subscription is entered under, and when it can be. *)
Definition granted (sid : str) (b : Broker) : str :=
  if bool_decide (sid = str_0) then show_int (nextAllocateClientId (br_mgr b)) else sid.

Lemma one_digit n : 1 ≤ n ≤ 9 → #(show_int n) = 1.
Proof. intros Hn. assert (n ∈ [1; 2; 3; 4; 5; 6; 7; 8; 9]) as Hin by set_solver by lia. repeat (apply elem_of_cons in Hin as [->|Hin]; [done|]). by apply not_elem_of_nil in Hin. Qed.

Lemma subscriber_id_ok m b :
  m_subscriberId m ≠ [] → (m_subscriberId m = str_0 → 1 ≤ nextAllocateClientId (br_mgr b) ≤ 9) →
  ∃ n, subscriber_id m b = Ok (granted (m_subscriberId m) b, with_mgr (with_next n (br_mgr b)) b) ∧ granted (m_subscriberId m) b ≠ [].
Proof.
  intros Hne Hnew. unfold subscriber_id, granted. rewrite (bool_decide_eq_false_2 (_ = [])) by done. cbn [negb assert_]. rewrite bind_Ok.
  destruct (decide (m_subscriberId m = str_0)) as [E|E].
  - rewrite bool_decide_eq_true_2 by done. unfold allocateClientId_. rewrite one_digit by auto. cbn [Z.eqb Pos.eqb assert_].
    rewrite bind_Ok. eexists. split; [done|]. apply show_int_word.
  - rewrite bool_decide_eq_false_2 by done. exists (nextAllocateClientId (br_mgr b)). split; [|done]. by destruct b as [[] ? ? ? ?].
Qed.

(** The id in the acknowledgement, and its fields. *)
Definition acknowledged (sid : str) (s : SubscriberHandler) (b : Broker) : str :=
  if enableBuffering then granted sid b else sh_id s.
Definition subscribe_ok_fields (topic sid : str) (s : SubscriberHandler) (b : Broker) : list item :=
  [IString topic; IString (acknowledged sid s b); IInt keepAliveTryTimes; IInt keepAliveTimeSpan].

(** When a subscription can be entered: there is an id to give, and the
    connection has not subscribed under another one. *)
Definition subscribable (h : Z) (topic sid : str) (s : SubscriberHandler) (b : Broker) : Prop :=
  topic ≠ [] ∧
  (enableBuffering = true → sid ≠ [] ∧ (sid = str_0 → 1 ≤ nextAllocateClientId (br_mgr b) ≤ 9) ∧
     (sh_id s = granted sid b ∨ handler_of (sh_id s) b ≠ h)).

(** [handler] is entered as a subscriber of [topic]. *)
Definition entered (topic : str) (h : Z) (id : str) (b : Broker) : Prop :=
  if enableBuffering then id ∈ at_ topic (subscriptionMap (br_mgr b)) ∧ handler_of id b = h
  else h ∈ at_ topic (subscriptionMap1 (br_mgr b)).

Lemma set_sub_inv h s s' b : inv b → br_subs b !! h = Some s → sh_id s' = sh_id s → inv (put_sub h s' b).
Proof. intros Hi Hs Hid. apply (quiet_inv_same b); try done. by apply (set_sub_quiet h s). Qed.

(** The part of [onSubscribe] before the answer. *)
Lemma enter_ok h m s b :
  inv b → h ≠ 0 → br_subs b !! h = Some s → subscribable h (m_topic m) (m_subscriberId m) s b →
  ∃ b' s', (if enableBuffering then
         '(id, b) ← subscriber_id m b;
         b ← update_sub h (with_id id) b;
         b ← addSubscription_ (m_topic m) id h b;
         Ok (saveSubscriptionInfoToDisk_ b)
       else addSubscription (m_topic m) h b) = Ok b' ∧ inv b' ∧ br_subs b' = <[h := s']> (br_subs b) ∧
    sh_id s' = acknowledged (m_subscriberId m) s b ∧ sh_stream s' = sh_stream s ∧ sh_tmpMsg s' = sh_tmpMsg s ∧
    br_msgs b' = br_msgs b ∧ buffered (br_mgr b') = buffered (br_mgr b) ∧ direct (br_mgr b') = direct (br_mgr b) ∧ entered (m_topic m) h (sh_id s') b'.
Proof.
  intros Hi Hh Hs (Ht & Hb). unfold acknowledged, entered. destruct enableBuffering eqn:E.
  - destruct (Hb eq_refl) as (Hid & Hnew & Hreg). destruct (subscriber_id_ok m b Hid Hnew) as (n & -> & Hg). rewrite bind_Ok.
    set (b0 := with_mgr (with_next n (br_mgr b)) b).
    assert (inv b0) as Hi0 by (apply (quiet_inv_same b); try done; split; try done; intros x y Hy; by exists y).
    rewrite (update_sub_ok h _ s), bind_Ok by done.
    destruct (addSubscription_ok_ (m_topic m) (granted (m_subscriberId m) b) h (put_sub h (with_id (granted (m_subscriberId m) b) s) b0))
      as (b1 & -> & Hi1 & Hh1 & Hms & Hsb & _ & Hbf & _ & Hmap & _ & Hdf); try done.
    { by apply with_id_inv. }
    { intros _. eexists. split; [apply put_sub_lookup|done]. }
    rewrite bind_Ok. destruct (save_ok b1 Hi1) as [Hi2 Hq2]. eexists _, (with_id (granted (m_subscriberId m) b) s).
    split; [done|]. split_and!; try done.
    + rewrite (qt_map _ _ Hq2), Hmap. by right.
  - destruct (addSubscription_ok (m_topic m) h b) as (b' & -> & Hi' & Hms & Hsb & Hd & _ & Hmap & Hbf); try done.
    { by apply elem_of_dom. }
    exists b', s. split_and!; try done.
    + by rewrite Hsb, insert_id.
    + rewrite Hmap. by right.
Qed.

Lemma onSubscribe_ok h m s b :
  inv b → h ≠ 0 → br_subs b !! h = Some s → subscribable h (m_topic m) (m_subscriberId m) s b → sk_out (sh_stream s) = [] →
  Forall item_ok (subscribe_ok_fields (m_topic m) (m_subscriberId m) s b) → 5 + len (mjoin (encode <$> subscribe_ok_fields (m_topic m) (m_subscriberId m) s b)) ≤ os_limit →
  ∃ b' s', onSubscribe h m b = Ok (0, b') ∧ inv b' ∧ br_subs b' !! h = Some s' ∧ sh_writing s' = true ∧
    sh_id s' = acknowledged (m_subscriberId m) s b ∧ sh_tmpMsg s' = sh_tmpMsg s ∧
    sk_sent (sh_stream s') = sk_sent (sh_stream s) ++ frame Msg_Subscribe_OK (mjoin (encode <$> subscribe_ok_fields (m_topic m) (m_subscriberId m) s b)) ∧
    br_msgs b' = br_msgs b ∧ buffered (br_mgr b') = buffered (br_mgr b) ∧ direct (br_mgr b') = direct (br_mgr b) ∧ entered (m_topic m) h (sh_id s') b'.
Proof.
  intros Hi Hh Hs Hsub Hout Hf Hlim. unfold onSubscribe. rewrite (update_sub_ok h _ s), bind_Ok by done.
  set (s0 := with_sh_topic (m_topic m) s). set (b0 := put_sub h s0 b).
  assert (inv b0) as Hi0 by (by apply (set_sub_inv h s)).
  destruct (enter_ok h m s0 b0) as (b1 & s1 & -> & Hi1 & Hsb1 & Hid1 & Hst1 & Htm1 & Hms1 & Hbf1 & Hdf1 & He1); [done|done|apply put_sub_lookup|exact Hsub|].
  rewrite bind_Ok. assert (br_subs b1 !! h = Some s1) as Hs1 by (by rewrite Hsb1, lookup_insert_eq).
  rewrite (deref_ok h _ s1), bind_Ok by done.
  change (acknowledged (m_subscriberId m) s0 b0) with (acknowledged (m_subscriberId m) s b) in Hid1.
  replace [IString (m_topic m); IString (sh_id s1); IInt keepAliveTryTimes; IInt keepAliveTimeSpan] with (subscribe_ok_fields (m_topic m) (m_subscriberId m) s b)
    by (unfold subscribe_ok_fields; by rewrite <- Hid1).
  destruct (answer_sub_ok h Msg_Subscribe_OK (subscribe_ok_fields (m_topic m) (m_subscriberId m) s b) s1 b1) as (sk' & -> & Hsent); try done; [by rewrite Hst1|].
  rewrite bind_Ok. cbn [Z.eqb]. unfold registerWriteMask. rewrite (deref_ok h _ (with_stream sk' s1)), !bind_Ok by (done || apply put_sub_lookup).
  eexists _, (with_writing true (with_stream sk' s1)). split; [done|]. split.
  { apply (set_sub_inv h (with_stream sk' s1)); [|apply put_sub_lookup|done]. by apply (set_sub_inv h s1). }
  split_and!; try done; [cbn; by rewrite lookup_insert_eq|]. cbn. by rewrite Hsent, Hst1.
Qed.

(** One upcall of a subscriber's handler: more of its message, or all of it. *)
Lemma sub_step c rest off h s p m t b :
  content_ok c → h ≠ 0 → p ≠ 0 → sh_tmpMsg s = p →
  receiving (may := not_behind_header) (c_type c) (body_of c) rest off m (sh_stream s) → moving (sh_stream s) → (off < 5 + length (body_of c))%nat →
  let go sk := with_stream sk (with_active (br_now b) s) in
  (∃ off' m' sk', (off < off' < 5 + length (body_of c))%nat ∧ receiving (may := not_behind_header) (c_type c) (body_of c) rest off' m' sk' ∧
     same_output (sh_stream s) sk' ∧ sub_handleInput h (put_msg p m t (put_sub h s b)) = Ok (0, put_msg p m' t (put_sub h (go sk') b))) ∨
  (∃ m2 sk', received c m2 ∧ data_of (sk_in sk') = rest ∧ same_output (sh_stream s) sk' ∧
     sub_handleInput h (put_msg p m t (put_sub h s b)) =
       '(r, b) ← onSubscriberMessage h m2 (put_msg p m2 t (put_sub h (with_tmpMsg 0 (go sk')) b));
       b ← delete_msg p b; Ok (r, b)).
Proof.
  intros Hc Hh Hp Htm Hr Hmv Hlt go. pose proof Hc as (_ & _ & _ & Hlen). pose proof (body_nonempty c) as Hne.
  unfold sub_handleInput. rewrite (update_sub_ok h _ s), bind_Ok by (done || cbn; by rewrite lookup_insert_eq).
  set (s1 := with_active _ s). set (b1 := put_sub h s1 _).
  assert (b1 = put_msg p m t (put_sub h s1 b)) as -> by (unfold b1, put_sub, put_msg; cbn; by rewrite insert_insert_eq).
  assert (∀ m s, br_subs (put_msg p m t (put_sub h s b)) !! h = Some s) as Hlk by (intros; cbn; by rewrite lookup_insert_eq).
  rewrite (deref_ok h _ s1), bind_Ok by auto. change (sh_tmpMsg s1) with (sh_tmpMsg s). rewrite Htm, (proj2 (Z.eqb_neq _ _)) by done.
  rewrite bind_Ok, (deref_ok h _ s1), bind_Ok by auto. change (sh_tmpMsg s1) with (sh_tmpMsg s). rewrite Htm.
  rewrite (deref_ok p _ (mkMessage m t)), bind_Ok by (done || cbn; by rewrite lookup_insert_eq). cbn [msg_of creatTime].
  change (sh_stream s1) with (sh_stream s).
  assert (∀ m' sk', update_sub h (with_stream sk') (with_msgs (<[p := mkMessage m' t]> (br_msgs (put_msg p m t (put_sub h s1 b)))) (put_msg p m t (put_sub h s1 b)))
    = Ok (put_msg p m' t (put_sub h (go sk') b))) as Hup.
  { intros m' sk'. rewrite (update_sub_ok h _ s1) by (done || cbn; by rewrite lookup_insert_eq). f_equal.
    unfold put_sub, put_msg. cbn. by rewrite !insert_insert_eq. }
  destruct (parse_step _ _ _ _ _ _ behind_header Hr Hmv Hlt Hne Hlen) as (off' & m' & sk' & Ho & Hr' & [[Hlt' Hpar]|[-> Hpar]]).
  - left. exists off', m', sk'. split_and!; try done; [by eapply parse_same_output|]. by rewrite Hpar, bind_Ok, Hup, bind_Ok.
  - right. destruct (received_avail _ _ _ _ _ Hr') as (Hs & Hty & more & Hav).
    destruct (parse_fields_ok c m' more Hc Hs Hty Hav) as (m2 & Hpf & Hrec). rewrite Hpf, bind_Ok in Hpar.
    exists m2, sk'. split_and!; [done| |by eapply parse_same_output|].
    + rewrite (rc_data _ _ _ _ _ _ Hr'), drop_ge by (rewrite length_frame; lia). done.
    + rewrite Hpar, !bind_Ok, Hup, bind_Ok. cbn [Z.eqb assert_]. rewrite bind_Ok, (update_sub_ok h _ (go sk')), bind_Ok by auto.
      do 2 f_equal. unfold put_sub, put_msg. cbn. by rewrite insert_insert_eq.
Qed.

(** Upcalls of the handler at [h] until its message is complete, each when
    [select] has reported its socket. *)
Fixpoint sub_upcalls (n : nat) (h : Z) (b : Broker) : result (Z * Broker) :=
  match n with
  | O => Fault OutOfFuel
  | S n =>
      b ← update_sub h (λ s, with_stream (wait_input (sh_stream s)) s) b;
      '(r, b) ← sub_handleInput h b;
      s ← deref h (br_subs b);
      if sh_tmpMsg s =? 0 then Ok (r, b) else sub_upcalls n h b
  end.

Lemma sub_upcalls_ok c rest h p t b fuel : ∀ off s m,
  content_ok c → h ≠ 0 → p ≠ 0 → sh_tmpMsg s = p →
  receiving (may := not_behind_header) (c_type c) (body_of c) rest off m (sh_stream s) → (off < 5 + length (body_of c))%nat →
  (5 + length (body_of c) ≤ off + fuel)%nat →
  ∃ m2 sk', received c m2 ∧ data_of (sk_in sk') = rest ∧ same_output (sh_stream s) sk' ∧
    ∀ r b2 b3 s3,
      onSubscriberMessage h m2 (put_msg p m2 t (put_sub h (with_tmpMsg 0 (with_stream sk' (with_active (br_now b) s))) b)) = Ok (r, b2) →
      delete_msg p b2 = Ok b3 → br_subs b3 !! h = Some s3 → sh_tmpMsg s3 = 0 →
      sub_upcalls fuel h (put_msg p m t (put_sub h s b)) = Ok (r, b3).
Proof.
  induction fuel as [|fuel IH]; intros off s m Hc Hh Hp Htm Hr Hlt Hf; [lia|]. cbn [sub_upcalls].
  destruct (receiving_wait _ _ _ _ _ _ Hr) as [Hrw Hmv]. set (s0 := with_stream (wait_input (sh_stream s)) s).
  assert (update_sub h (λ s, with_stream (wait_input (sh_stream s)) s) (put_msg p m t (put_sub h s b)) = Ok (put_msg p m t (put_sub h s0 b))) as ->.
  { rewrite (update_sub_ok h _ s) by (done || cbn; by rewrite lookup_insert_eq). f_equal. unfold put_sub, put_msg. cbn. by rewrite insert_insert_eq. }
  rewrite bind_Ok. destruct (sub_step c rest off h s0 p m t b Hc Hh Hp Htm Hrw Hmv Hlt) as [(off' & m' & sk' & Ho & Hr' & Hso & ->)|(m2 & sk' & Hrec & Hd & Hso & ->)].
  - set (s1 := with_stream sk' _). destruct (IH off' s1 m' Hc Hh Hp) as (m2 & sk2 & ? & ? & Hso2 & Hrun); [exact Htm|exact Hr'|lia|lia|].
    exists m2, sk2. split_and!; try done; [by etrans|]. intros r b2 b3 s3 H2 H3 H4 H5. rewrite bind_Ok.
    rewrite (deref_ok h _ s1), bind_Ok by (done || cbn; by rewrite lookup_insert_eq). change (sh_tmpMsg s1) with (sh_tmpMsg s).
    rewrite Htm, (proj2 (Z.eqb_neq _ _)) by done. by eapply Hrun.
  - exists m2, sk'. split_and!; try done. intros r b2 b3 s3 H2 H3 H4 H5.
    change (with_stream sk' (with_active (br_now b) s0)) with (with_stream sk' (with_active (br_now b) s)). rewrite H2, !bind_Ok, H3, !bind_Ok.
    rewrite (deref_ok h _ s3), bind_Ok by done. by rewrite H5.
Qed.

(** A message that is in no queue is deleted. *)
Lemma drop_msg_ok p b :
  inv b → p ≠ 0 → p ∈ dom (br_msgs b) → p ∉ dom (PubMap2 (br_mgr b)) → p ∉ dom (PubMap3 (br_mgr b)) →
  delete_msg p b = Ok (with_msgs (delete p (br_msgs b)) b) ∧ inv (with_msgs (delete p (br_msgs b)) b).
Proof.
  intros Hi Hp Hd N2 N3. split; [by apply delete_msg_ok|].
  apply (shrink_inv b _ p); try done; try apply Hi; [split; try done; intros; by left|by right].
Qed.

(** The first upcall of a message allocates it. *)
Lemma first_sub_upcall n h s b :
  h ≠ 0 → br_subs b !! h = Some s → sh_tmpMsg s = 0 → let p := new_addr (dom (br_msgs b)) in
  sub_upcalls n h b = sub_upcalls n h (put_msg p Msg_new (br_now b) (put_sub h (with_tmpMsg p s) b)).
Proof.
  intros Hh Hs Ht p. destruct (new_addr_free (dom (br_msgs b))) as [Hp _]. fold p in Hp. destruct n as [|n]; [done|].
  cbn [sub_upcalls]. set (s0 := with_stream (wait_input (sh_stream s)) s).
  rewrite (update_sub_ok h _ s), (update_sub_ok h _ (with_tmpMsg p s)), !bind_Ok by (done || cbn; by rewrite lookup_insert_eq).
  f_equal. unfold sub_handleInput. change (with_stream _ (with_tmpMsg p s)) with (with_tmpMsg p s0). fold s0.
  rewrite (update_sub_ok h _ s0), (update_sub_ok h _ (with_tmpMsg p s0)), !bind_Ok by (done || cbn; by rewrite lookup_insert_eq).
  rewrite (deref_ok h _ (with_active (br_now b) s0)), (deref_ok h _ (with_active (br_now b) (with_tmpMsg p s0))), !bind_Ok
    by (done || cbn; by rewrite lookup_insert_eq).
  cbn [sh_tmpMsg with_active with_tmpMsg with_stream s0]. rewrite Ht. cbn [Z.eqb]. rewrite (proj2 (Z.eqb_neq _ _)) by done.
  unfold new_msg. cbn [br_msgs with_subs br_now]. fold p. fold s0.
  rewrite (update_sub_ok h _ (with_active (br_now b) s0)), !bind_Ok by (done || cbn; by rewrite lookup_insert_eq).
  unfold put_sub, put_msg. cbn. by rewrite !insert_insert_eq.
Qed.

End requests.

(** a subscription is served.  A subscriber's request arrives on its
    connection in any pieces; once it is complete the subscription is in the
    tables (and, with buffering, on disk), the client gets a well-formed
    acknowledgement with the topic, the id it is known by (a new one if it
    asked with "0") and the keep-alive settings, the handler is registered for
    writing so that what was queued for that id is sent next, the request is
    freed, and nothing queued has changed. *)
Lemma subscription_served {al : Allocator} {ho : Host} {un : Uninit} {cfg : Settings} {hp : Heap} c rest h s b :
  inv b → content_ok c → c_type c = Msg_Subscribe → paced not_behind_header 0 (sk_in (sh_stream s)) →
  data_of (sk_in (sh_stream s)) = frame_of c ++ rest → h ≠ 0 → br_subs b !! h = Some s → sh_tmpMsg s = 0 →
  subscribable h (c_topic c) (c_subscriberId c) s b → sk_out (sh_stream s) = [] →
  let fields := subscribe_ok_fields (c_topic c) (c_subscriberId c) s b in
  Forall item_ok fields → 5 + len (mjoin (encode <$> fields)) ≤ os_limit →
  ∃ b' s', sub_upcalls (length (data_of (sk_in (sh_stream s)))) h b = Ok (0, b') ∧ inv b' ∧ br_subs b' !! h = Some s' ∧
    entered (c_topic c) h (acknowledged (c_subscriberId c) s b) b' ∧ sh_writing s' = true ∧ sh_tmpMsg s' = 0 ∧
    sk_sent (sh_stream s') = sk_sent (sh_stream s) ++ frame Msg_Subscribe_OK (mjoin (encode <$> fields)) ∧
    br_msgs b' = br_msgs b ∧ ∀ h' id', owed b' h' id' = owed b h' id'.
Proof.
  intros Hi Hc Hty Hfl Hdata Hh Hs Ht Hsub Hout fields Hf Hlim. rewrite (first_sub_upcall _ h s) by done.
  set (p := new_addr (dom (br_msgs b))). destruct (new_addr_free (dom (br_msgs b))) as [Hp Hfree]. fold p in Hp, Hfree.
  pose proof (length_frame (c_type c) (body_of c)) as Hlf. fold (frame_of c) in Hlf.
  destruct (sub_upcalls_ok c rest h p (br_now b) b (length (data_of (sk_in (sh_stream s)))) 0 (with_tmpMsg p s) Msg_new)
    as (m & sk' & (Hmt & Hmtop & Hmid & _) & Hd & [Ho1 Ho2] & Hrun); try done; [by apply new_receiving|lia|rewrite Hdata, length_app; lia|].
  rewrite Hty in Hmt, Hmid. specialize (Hmid eq_refl). cbn [sh_stream with_tmpMsg] in Ho1, Ho2.
  set (s2 := with_tmpMsg 0 _) in Hrun. set (b1 := put_msg p m (br_now b) (put_sub h s2 b)) in Hrun.
  assert (inv b1) as Hi1 by (apply new_msg_inv; [by apply (set_sub_inv h s)|done]).
  destruct (onSubscribe_ok h m s2 b1) as (b2 & s3 & Hon & Hi2 & Hs3 & Hw3 & Hid3 & Ht3 & Hsent & Hms2 & Hbf & Hdf & He);
    rewrite ?Hmtop, ?Hmid; try done; [cbn; by rewrite lookup_insert_eq|cbn; by rewrite Ho1|].
  assert (p ∈ dom (br_msgs b2)) as Hpd by (rewrite Hms2; cbn; rewrite dom_insert_L; set_solver).
  assert (PubMap2 (br_mgr b2) = PubMap2 (br_mgr b)) as E2 by exact (f_equal clients_of Hbf).
  assert (PubMap3 (br_mgr b2) = PubMap3 (br_mgr b)) as E3 by exact (f_equal clients_of Hdf).
  destruct (drop_msg_ok p b2) as [Hdel Hi3]; rewrite ?E2, ?E3; try done;
    [intros ?%(inv_live_ b Hi); done|intros ?%(inv_live b Hi); done|].
  eexists _, s3. split; [eapply Hrun; [|exact Hdel|exact Hs3|by rewrite Ht3]|].
  { unfold onSubscriberMessage. rewrite Hmt. exact Hon. }
  rewrite Hmtop in *. rewrite Hmid in *. rewrite Hid3 in He.
  split_and!; try done; [by rewrite Hsent; cbn; rewrite Ho2| |].
  - cbn. rewrite Hms2. cbn. rewrite delete_insert_id; [done|by apply not_elem_of_dom].
  - intros h' id'. by apply owed_same.
Qed.

(** ** Where the handlers fail *)

Lemma two_digits n : 10 ≤ n → #(show_int n) ≠ 1.
Proof.
  intros Hn Hl. pose proof (DecimalZ.of_to n) as Hof. unfold show_int in Hl.
  destruct n as [|p|p]; try lia. cbn [Z.to_int] in *. rewrite <- Hof in Hn. clear Hof.
  destruct (Pos.to_uint p) as [|d|d|d|d|d|d|d|d|d|d]; cbn [show_uint length] in Hl; try lia;
    (destruct d; cbn [show_uint length] in Hl; try lia; vm_compute in Hn; by destruct Hn).
Qed.

(** with buffering, the tenth client that asks for an id aborts the broker:
    [handleInput] asserts that the id it allocates has one character. *)
Lemma tenth_client_aborts {al : Allocator} {ho : Host} {un : Uninit} {cfg : Settings} h s m b :
  enableBuffering = true → h ≠ 0 → br_subs b !! h = Some s → m_type m = Msg_Subscribe → m_subscriberId m = str_0 →
  10 ≤ nextAllocateClientId (br_mgr b) → onSubscriberMessage h m b = Fault AssertFailed.
Proof.
  intros Hb Hh Hs Hty Hid Hn. unfold onSubscriberMessage, onSubscribe. rewrite Hty, (update_sub_ok h _ s), Hb by done.
  change (Msg_Subscribe =? Msg_Subscribe) with true. cbv iota. rewrite bind_Ok. unfold subscriber_id. rewrite Hid. change (bool_decide (str_0 = [])) with false. change (bool_decide (str_0 = str_0)) with true.
  cbn [negb assert_]. rewrite bind_Ok. cbn [allocateClientId_]. rewrite (proj2 (Z.eqb_neq _ _)) by (by apply two_digits). done.
Qed.

(** ** Examples *)

(** An allocator that goes upwards. *)
Lemma upwards_free X : let p := 1 + foldr Z.max 0 (elements (X : gset Z)) in p ≠ 0 ∧ p ∉ X.
Proof.
  intros p. assert (∀ l : list Z, 0 ≤ foldr Z.max 0 l ∧ ∀ x, x ∈ l → x ≤ foldr Z.max 0 l) as Hmax.
  { induction l as [|y l [IH0 IH]]; cbn; [split; [lia|set_solver]|]. split; [lia|].
    intros x [->|Hx%IH]%elem_of_cons; lia. }
  destruct (Hmax (elements X)) as [H0 Hx]. split; [lia|]. intros Hin%elem_of_elements%Hx. lia.
Qed.
Definition upwards : Heap := {| new_addr X := 1 + foldr Z.max 0 (elements X); new_addr_free := upwards_free |}.

(** An event on topic "a", whose payload is the string "k", arriving in two pieces with a
    stall between them. *)
Definition demo_event : content := mkContent Msg_Event [97] [] 0 0 0 [0; 0; 0; 2; 107; 0].
Definition demo_wire : list Z := @frame_of host_le demo_event.
Definition demo_publisher : socket := mkSocket [Data (take 3 demo_wire); Fails EWOULDBLOCK; Data (drop 3 demo_wire)] [] [] [] 0.

Lemma demo_arriving : @arriving host_le demo_event [107] [] [] demo_publisher.
Proof.
  split; try done; [|by repeat constructor].
  split; [vm_compute; split; congruence|]. split; [|split; [done|vm_compute; done]].
  repeat (apply Forall_cons; split); [..|constructor]; cbn [item_ok]; by repeat constructor.
Qed.

Lemma event_reaches_subscriber_witness :
  ∃ ph b1 s1 b2 s2,
    @pub_upcalls zero_memory host_le uninit_7 (demo_settings false) upwards (length (data_of (sk_in demo_publisher))) (PublisherHandler_new demo_publisher) demo_direct = Ok (0, ph, b1) ∧
    br_subs b1 !! 8 = Some s1 ∧ sh_writing s1 = true ∧
    @sub_handleOutput (demo_settings false) 8 (tick 60 b1) = Ok (0, b2) ∧
    br_subs b2 !! 8 = Some s2 ∧ sk_sent (sh_stream s2) = demo_wire ∧ sh_writing s2 = false.
Proof.
  assert (@receives (demo_settings false) demo_direct [97] 8 [48]) as Hrecv
    by (split; [apply (bool_decide_unpack _); by vm_compute|by vm_compute]).
  assert (0 ≤ 60 ≤ MaxBufferMessageLifeTime) as Hdelay by (unfold MaxBufferMessageLifeTime; lia).
  destruct (@event_reaches_subscriber zero_memory host_le uninit_7 (demo_settings false) upwards demo_event [107] [] [] demo_publisher
    demo_direct 8 (SubscriberHandler_new demo_socket 0) 60 (proj1 demo_direct_ok) demo_arriving ltac:(done) ltac:(by vm_compute) ltac:(done)
    Hrecv ltac:(by vm_compute) eq_refl Hdelay)
    as (ph & b1 & s1 & b2 & s2 & H1 & _ & H2 & H3 & H4 & _ & H5 & H6 & _ & H7).
  exists ph, b1, s1, b2, s2. exact (conj H1 (conj H2 (conj H3 (conj H4 (conj H5 (conj H6 H7)))))).
Defined.

Definition demo_stored : Message :=
  mkMessage (mkMsg Msg_Event 0 0 (mkIS (mkBlock [1; 2; 3] 3 0 0 3) false true) [97] [] 0 0 0) 0.

Lemma output_delivers_or_keeps_witness :
  ∃ b, @step (demo_settings false) (Publish 16 demo_stored) demo_direct = Ok b ∧
  ∃ r b' s' gone rest tail, @sub_handleOutput (demo_settings false) 8 b = Ok (r, b') ∧
    set_iter (@owed (demo_settings false) b 8 [48]) = gone ++ rest ∧ br_subs b' !! 8 = Some s' ∧
    sk_sent (sh_stream s') = mjoin (@wire b <$> gone) ++ tail.
Proof.
  destruct (@publish_ok (demo_settings false) 16 demo_stored demo_direct) as (b & Hb & Hi & Hc & Hq & Hms & _);
    [apply demo_direct_ok|done|done|]. exists b. split; [exact Hb|].
  assert (br_subs b !! 8 = Some (with_writing true (SubscriberHandler_new demo_socket 0))) as Hs by (vm_compute in Hb; inv_ok; reflexivity).
  assert (∀ p, p ∈ @owed (demo_settings false) b 8 [48] → sane_msg b p) as Hsane.
  { intros p [[Hin _]|(_ & _ & ->)]%Hq; [by apply not_elem_of_empty in Hin|]. exists demo_stored.
    split; [by rewrite Hms, decide_True|]. by vm_compute. }
  destruct (@output_delivers_or_keeps zero_memory host_le uninit_7 (demo_settings false) 8 _ b Hi ltac:(done) Hs ltac:(done) ltac:(done) Hsane)
    as (r & b' & s' & gone & rest & tail & H1 & _ & H2 & _ & _ & H3 & H4 & _).
  exists r, b', s', gone, rest, tail. exact (conj H1 (conj H2 (conj H3 H4))).
Defined.

(** A client on a new connection subscribes to "a" and asks for an id. *)
Definition demo_request : content := mkContent Msg_Subscribe [97] [48] 0 0 0 [].
Definition demo_client : SubscriberHandler :=
  SubscriberHandler_new (mkSocket [Data (@frame_of host_le demo_request)] [] [] [] 0) 0.
Definition demo_connected : Broker := connect 8 (sh_stream demo_client) (fresh_broker 0).

Lemma subscription_served_witness :
  ∃ b' s', @sub_upcalls zero_memory host_le uninit_7 (demo_settings true) upwards
      (length (data_of (sk_in (sh_stream demo_client)))) 8 demo_connected = Ok (0, b') ∧
    br_subs b' !! 8 = Some s' ∧ @entered (demo_settings true) [97] 8 [49] b' ∧ sh_writing s' = true.
Proof.
  assert (@inv (demo_settings true) demo_connected) as Hi by (apply connect_inv; [apply fresh_inv|done]).
  assert (@content_ok host_le demo_request) as Hc.
  { split; [vm_compute; split; congruence|]. split; [|split; [done|vm_compute; done]].
    repeat (apply Forall_cons; split); [..|constructor]; cbn [item_ok]; by repeat constructor. }
  assert (@subscribable (demo_settings true) 8 [97] [48] demo_client demo_connected) as Hsub.
  { split; [done|]. intros _. split_and!; [done|intros _; vm_compute; split; congruence|by right]. }
  assert (Forall item_ok (@subscribe_ok_fields (demo_settings true) [97] [48] demo_client demo_connected)) as Hf.
  { repeat (apply Forall_cons; split); [..|constructor]; cbn [item_ok]; try (unfold in_s; cbn; lia); by repeat constructor. }
  destruct (@subscription_served zero_memory host_le uninit_7 (demo_settings true) upwards demo_request [] 8 demo_client demo_connected Hi Hc eq_refl
    ltac:(by repeat constructor) ltac:(by rewrite app_nil_r) ltac:(done) ltac:(by vm_compute) eq_refl Hsub eq_refl Hf ltac:(by vm_compute))
    as (b' & s' & H1 & _ & H2 & H3 & H4 & _).
  exists b', s'. exact (conj H1 (conj H2 (conj H3 H4))).
Defined.

Lemma tenth_client_aborts_witness :
  let b := with_mgr (with_next 10 (br_mgr demo_connected)) demo_connected in
  let m := mkMsg Msg_Subscribe 0 0 (mkIS (mkBlock [] 0 0 0 0) false true) [97] str_0 0 0 0 in
  @onSubscriberMessage zero_memory host_le uninit_7 (demo_settings true) 8 m b = Fault AssertFailed.
Proof. intros b m. apply (@tenth_client_aborts zero_memory host_le uninit_7 (demo_settings true) 8 demo_client); done. Defined.

(** with buffering, a connection that subscribes twice and gets two ids
    leaves its first entry behind when it closes: [subscribers] keeps the
    pointer to the destroyed handler, and the next message for that topic
    follows it. *)
Lemma second_subscription_dangles sk :
  foreach (@step_ (demo_settings true))
    [Connect 8 sk; Subscribe [97] [49] 8; Subscribe [97] [50] 8; Gone 8; Publish 16 (demo_message [97])] (fresh_broker 0)
  = Fault UseAfterFree.
Proof. vm_compute. reflexivity. Qed.
