(* ===== verification/SubscribeClient.v ===== *)
(** * SubscribeClient: the subscriber's side of the broker (msg/SubscribeClient.cpp, msg/SubscribeClient.h)

    A client keeps three sets of topics: those the broker has confirmed, those
    to subscribe to and those to give up.  [run] sends the requests, lets the
    reactor run the upcalls of the connection and of the keep-alive timer, and
    connects again when the connection is lost.

    [SubscribeClient] is the object, with the handler of the connection it has
    at most one of, the timer it keeps in the reactor, and what it shares with
    the world: the clock, the file with its id, the results of the next
    attempts to connect, and the events handed to the application.  What the
    reactor does in one call of [handleEvents] is a list of upcalls: the due
    timer, then the input of the connection, as [SelectReactor] shows. *)
From S2P Require Import Prelude CppLib Block OutputStream InputStream Marshalling Socket Framing MsgProtocol Receiver TopicManager PubSub Broker.

(** A [SubscribeClientHandler]: the message it is receiving, and its stream. *)
Record ClientHandler := mkCH { ch_tmpMsg : option Msg; ch_stream : socket }.

Record SubscribeClient := mkSC {
  sc_handler : option ClientHandler;
  sc_subscribed : gset str;
  sc_toSub : gset str;
  sc_toUnSub : gset str;
  sc_id : str;
  sc_errorPending : bool;
  sc_keepAliveEnabled : bool;
  sc_unacked : Z;
  sc_lastActive : Z;
  sc_tryTimes : Z;
  sc_timeSpan : Z;
  sc_timer : option Z;
  sc_now : Z;
  sc_file : option str;
  sc_connects : list (option socket);
  sc_events : list InputStream }.

Definition with_handler x c := mkSC x (sc_subscribed c) (sc_toSub c) (sc_toUnSub c) (sc_id c) (sc_errorPending c) (sc_keepAliveEnabled c)
  (sc_unacked c) (sc_lastActive c) (sc_tryTimes c) (sc_timeSpan c) (sc_timer c) (sc_now c) (sc_file c) (sc_connects c) (sc_events c).
Definition with_topics a b d c := mkSC (sc_handler c) a b d (sc_id c) (sc_errorPending c) (sc_keepAliveEnabled c)
  (sc_unacked c) (sc_lastActive c) (sc_tryTimes c) (sc_timeSpan c) (sc_timer c) (sc_now c) (sc_file c) (sc_connects c) (sc_events c).
Definition with_client_id x f c := mkSC (sc_handler c) (sc_subscribed c) (sc_toSub c) (sc_toUnSub c) x (sc_errorPending c) (sc_keepAliveEnabled c)
  (sc_unacked c) (sc_lastActive c) (sc_tryTimes c) (sc_timeSpan c) (sc_timer c) (sc_now c) f (sc_connects c) (sc_events c).
Definition with_error x c := mkSC (sc_handler c) (sc_subscribed c) (sc_toSub c) (sc_toUnSub c) (sc_id c) x (sc_keepAliveEnabled c)
  (sc_unacked c) (sc_lastActive c) (sc_tryTimes c) (sc_timeSpan c) (sc_timer c) (sc_now c) (sc_file c) (sc_connects c) (sc_events c).
Definition with_keepAlive_timer on t c := mkSC (sc_handler c) (sc_subscribed c) (sc_toSub c) (sc_toUnSub c) (sc_id c) (sc_errorPending c) on
  (sc_unacked c) (sc_lastActive c) (sc_tryTimes c) (sc_timeSpan c) t (sc_now c) (sc_file c) (sc_connects c) (sc_events c).
Definition with_probes n t c := mkSC (sc_handler c) (sc_subscribed c) (sc_toSub c) (sc_toUnSub c) (sc_id c) (sc_errorPending c) (sc_keepAliveEnabled c)
  n t (sc_tryTimes c) (sc_timeSpan c) (sc_timer c) (sc_now c) (sc_file c) (sc_connects c) (sc_events c).
Definition with_limits a b c := mkSC (sc_handler c) (sc_subscribed c) (sc_toSub c) (sc_toUnSub c) (sc_id c) (sc_errorPending c) (sc_keepAliveEnabled c)
  (sc_unacked c) (sc_lastActive c) a b (sc_timer c) (sc_now c) (sc_file c) (sc_connects c) (sc_events c).
Definition at_time t c := mkSC (sc_handler c) (sc_subscribed c) (sc_toSub c) (sc_toUnSub c) (sc_id c) (sc_errorPending c) (sc_keepAliveEnabled c)
  (sc_unacked c) (sc_lastActive c) (sc_tryTimes c) (sc_timeSpan c) (sc_timer c) t (sc_file c) (sc_connects c) (sc_events c).
Definition with_connects x t c := mkSC (sc_handler c) (sc_subscribed c) (sc_toSub c) (sc_toUnSub c) (sc_id c) (sc_errorPending c) (sc_keepAliveEnabled c)
  (sc_unacked c) (sc_lastActive c) (sc_tryTimes c) (sc_timeSpan c) (sc_timer c) t (sc_file c) x (sc_events c).
Definition with_event x c := mkSC (sc_handler c) (sc_subscribed c) (sc_toSub c) (sc_toUnSub c) (sc_id c) (sc_errorPending c) (sc_keepAliveEnabled c)
  (sc_unacked c) (sc_lastActive c) (sc_tryTimes c) (sc_timeSpan c) (sc_timer c) (sc_now c) (sc_file c) (sc_connects c) (sc_events c ++ [x]).

Section client.

Context {al : Allocator} {ho : Host} {un : Uninit}.

(** *** The handler of the connection *)

Definition the_handler (c : SubscribeClient) : result ClientHandler :=
  match sc_handler c with Some h => Ok h | None => Fault NullDeref end.

(** [~SubscribeClientHandler]: the client forgets the handler. *)
Definition delete_handler (c : SubscribeClient) : result SubscribeClient :=
  h ← the_handler c;
  _ ← assert_ (bool_decide (ch_tmpMsg h = None));
  Ok (with_handler None c).

(** [onSubScribeTopicOk]. *)
Definition onSubScribeTopicOk (topic clientId : str) (c : SubscribeClient) : result SubscribeClient :=
  _ ← assert_ (negb (bool_decide (topic = [])));
  _ ← assert_ (bool_decide (topic ∈ sc_toSub c));
  let c := with_topics (sc_subscribed c) (sc_toSub c ∖ {[topic]}) (sc_toUnSub c) c in
  _ ← assert_ (negb (bool_decide (topic ∈ sc_subscribed c)));
  let c := with_topics ({[topic]} ∪ sc_subscribed c) (sc_toSub c) (sc_toUnSub c) c in
  if bool_decide (clientId = str_0) then
    Ok (match sc_file c with Some _ => with_client_id (sc_id c) (Some []) c | None => c end)
  else if bool_decide (sc_id c = str_0) then Ok (with_client_id clientId (Some clientId) c)
  else Ok c.

(** [onUnSubScribeTopicOk]. *)
Definition onUnSubScribeTopicOk (topic : str) (c : SubscribeClient) : result SubscribeClient :=
  _ ← assert_ (negb (bool_decide (topic = [])));
  _ ← assert_ (bool_decide (topic ∈ sc_subscribed c));
  Ok (with_topics (sc_subscribed c ∖ {[topic]}) (sc_toSub c) (sc_toUnSub c) c).

(** What [handleInput] does with a complete message. *)
Definition onClientMessage (m : Msg) (c : SubscribeClient) : result SubscribeClient :=
  if m_type m =? Msg_Subscribe_OK then
    let c := with_limits (m_keepAliveTryTimes m) (m_keepAliveTimeSpan m) c in
    onSubScribeTopicOk (m_topic m) (m_subscriberId m) c
  else if m_type m =? Msg_UnSubscribe_OK then onUnSubScribeTopicOk (m_topic m) c
  else if m_type m =? Msg_KeepAlive_ACK then Ok c
  else if m_type m =? Msg_Event then Ok (with_event (m_is m) c)
  else Ok c.

(** [SubscribeClientHandler::handleInput]. *)
Definition client_handleInput (c : SubscribeClient) : result (Z * SubscribeClient) :=
  let c := with_probes 0 (sc_now c) c in
  h ← the_handler c;
  let tmpMsg := match ch_tmpMsg h with None => Msg_new | Some m => m end in
  '(result, m, sk) ← parse tmpMsg (ch_stream h);
  if result =? -1 then
    Ok (-1, with_handler (Some (mkCH None sk)) (with_error true c))
  else if result =? 1 then Ok (0, with_handler (Some (mkCH (Some m) sk)) c)
  else
    _ ← assert_ (result =? 0);
    c ← onClientMessage m (with_handler (Some (mkCH None sk)) c);
    Ok (0, c).

(** *** Requests of the application *)

Definition subscribeTopic (topic : str) (c : SubscribeClient) : bool * SubscribeClient :=
  if bool_decide (topic ∈ sc_subscribed c) then (true, c)
  else (true, with_topics (sc_subscribed c) ({[topic]} ∪ sc_toSub c) (sc_toUnSub c ∖ {[topic]}) c).

Definition unSubscribeTopic (topic : str) (c : SubscribeClient) : bool * SubscribeClient :=
  if bool_decide (topic ∈ sc_toSub c) then
    (true, with_topics (sc_subscribed c) (sc_toSub c ∖ {[topic]}) (sc_toUnSub c) c)
  else if negb (bool_decide (topic ∈ sc_subscribed c)) then (true, c)
  else (true, with_topics (sc_subscribed c) (sc_toSub c) ({[topic]} ∪ sc_toUnSub c) c).

(** A request of a type with its fields on the connection. *)
Definition request (type : Z) (fields : list item) (c : SubscribeClient) : result (Z * SubscribeClient) :=
  h ← the_handler c;
  '(r, sk) ← answer_with type fields (ch_stream h);
  Ok (r, with_handler (Some (mkCH (ch_tmpMsg h) sk)) c).

Definition has_handler (c : SubscribeClient) : bool := match sc_handler c with Some _ => true | None => false end.

Definition realSubTopic (topic : str) (c : SubscribeClient) : result (bool * SubscribeClient) :=
  if sc_errorPending c then Ok (false, c) else
  _ ← assert_ (has_handler c);
  '(result, c) ← request Msg_Subscribe [IString topic; IString (sc_id c)] c;
  if result =? -1 then Ok (false, with_error true c) else Ok (true, c).

Definition realUnSubTopic (topic : str) (c : SubscribeClient) : result (bool * SubscribeClient) :=
  if sc_errorPending c then Ok (false, c) else
  _ ← assert_ (has_handler c);
  '(result, c) ← request Msg_UnSubscribe [IString topic; IString (sc_id c)] c;
  if result =? -1 then Ok (false, c) else Ok (true, c).

(** The two loops of [processAllSubAndUnSub]; the flag tells whether they went
    through. *)
Fixpoint real_all (real : str → SubscribeClient → result (bool * SubscribeClient)) (topics : list str) (c : SubscribeClient)
    : result (bool * SubscribeClient) :=
  match topics with
  | [] => Ok (true, c)
  | t :: topics =>
      '(ok, c) ← real t c;
      if negb ok then Ok (false, with_error true c) else real_all real topics c
  end.

Definition processAllSubAndUnSub (c : SubscribeClient) : result (bool * SubscribeClient) :=
  '(ok, c) ← real_all realSubTopic (set_iter (sc_toSub c)) c;
  if negb ok then Ok (false, c) else real_all realUnSubTopic (set_iter (sc_toUnSub c)) c.

(** *** Keep-alive *)

Definition enableKeepAlive (c : SubscribeClient) : bool * SubscribeClient :=
  if sc_keepAliveEnabled c then (true, c)
  else (true, with_keepAlive_timer true (Some (sc_timeSpan c)) c).

Definition disableKeepAlive (c : SubscribeClient) : bool * SubscribeClient :=
  (true, with_keepAlive_timer false None c).

Definition sendKeepAliveProbe (c : SubscribeClient) : result (bool * SubscribeClient) :=
  if negb (has_handler c) then Ok (false, c) else
  if sc_now c - sc_lastActive c <? sc_timeSpan c then Ok (true, c) else
  let c := with_probes (s32 (sc_unacked c + 1)) (sc_lastActive c) c in
  if sc_unacked c >? sc_tryTimes c then Ok (false, c) else
  '(result, c) ← request Msg_KeepAlive_Probe [IString str_keepAlive] c;
  if result =? -1 then Ok (false, c) else Ok (true, c).

(** [KeepAlive_Timeout_Handler::handleTimeout]; the timer queue drops a timer
    whose upcall returns -1. *)
Definition handleTimeout (c : SubscribeClient) : result (Z * SubscribeClient) :=
  '(ok, c) ← sendKeepAliveProbe c;
  if negb ok then Ok (-1, with_error true c) else Ok (0, c).

(** *** Connecting *)

(** [connector->connect (handler, connAddr)]: a new handler on the stream, or
    none when the attempt fails. *)
Definition client_connect (c : SubscribeClient) : result (Z * SubscribeClient) :=
  match sc_connects c with
  | [] => Fault OutOfFuel
  | Some sk :: rest => Ok (0, with_handler (Some (mkCH None sk)) (with_connects rest (sc_now c) c))
  | None :: rest => Ok (-1, with_handler None (with_connects rest (sc_now c) c))
  end.

(** [SubscribeClient (reactor)]: the id is the first word of the file. *)
Definition SubscribeClient_new (file : option str) (tries span now : Z) (connects : list (option socket)) : SubscribeClient :=
  let id := match file with None => str_0 | Some text => (get_string str_0 (mkIstream text false false)).1 end in
  mkSC None ∅ ∅ ∅ id false false 0 0 tries span None now file connects [].

(** [init (brokerIp, port)]. *)
Definition client_init (c : SubscribeClient) : result (bool * SubscribeClient) :=
  let c := with_error false (with_keepAlive_timer false (sc_timer c) (with_probes 0 (sc_lastActive c) c)) in
  '(r, c) ← client_connect c;
  if r =? -1 then Ok (false, c) else Ok (true, c).

(** The loop of [reestablishConnection], with five seconds between attempts. *)
Fixpoint try_connect (attempts : list (option socket)) (c : SubscribeClient) : result SubscribeClient :=
  match attempts with
  | [] => Fault OutOfFuel
  | _ :: attempts =>
      '(r, c) ← client_connect c;
      if r =? 0 then _ ← assert_ (has_handler c); Ok c
      else try_connect attempts (at_time (sc_now c + 5) c)
  end.

Definition reestablishConnection (c : SubscribeClient) : result (bool * SubscribeClient) :=
  let c := with_probes 0 (sc_lastActive c) (with_error false c) in
  c ← (if has_handler c then delete_handler c else Ok c);
  c ← try_connect (sc_connects c) c;
  Ok (true, c).

Definition onConnOk (c : SubscribeClient) : result SubscribeClient :=
  _ ← assert_ (negb (sc_errorPending c));
  Ok (enableKeepAlive c).2.

Definition onConnError (c : SubscribeClient) : result SubscribeClient :=
  _ ← assert_ (sc_errorPending c);
  let c := (disableKeepAlive c).2 in
  Ok (with_topics ∅ (sc_toSub c ∪ (sc_subscribed c ∖ sc_toUnSub c)) (sc_toUnSub c) c).

(** *** The loop *)

(** What the reactor can call, with the time it is. *)
Inductive upcall :=
  | UTimer (now : Z)
  | UInput (now : Z).

(** One upcall; a handler that fails is closed and deleted by the reactor. *)
Definition do_upcall (u : upcall) (c : SubscribeClient) : result SubscribeClient :=
  match u with
  | UTimer t =>
      let c := at_time t c in
      match sc_timer c with
      | None => Ok c
      | Some _ =>
          '(r, c) ← handleTimeout c;
          Ok (if r =? -1 then with_keepAlive_timer (sc_keepAliveEnabled c) None c else c)
      end
  | UInput t =>
      let c := at_time t c in
      if negb (has_handler c) then Ok c else
      '(r, c) ← client_handleInput c;
      if r <? 0 then delete_handler c else Ok c
  end.

Definition handleEvents (us : list upcall) (c : SubscribeClient) : result SubscribeClient := foreach do_upcall us c.

(** One turn of [run]: after an error connect again, else the requests and the
    upcalls. *)
Definition run_turn (us : list upcall) (c : SubscribeClient) : result SubscribeClient :=
  if sc_errorPending c then
    c ← onConnError c;
    '(_, c) ← reestablishConnection c;
    onConnOk c
  else
    '(ok, c) ← processAllSubAndUnSub c;
    if (ok : bool) then handleEvents us c else Ok c.

(** [run]: the turns the reactor makes of it. *)
Definition run (turns : list (list upcall)) (c : SubscribeClient) : result SubscribeClient :=
  c ← onConnOk c; foreach run_turn turns c.

End client.

(** ** Lemmas *)

Section lemmas.

Context {al : Allocator} {ho : Host} {un : Uninit}.

Lemma handleEvents_app us us' c : handleEvents (us ++ us') c = c ← handleEvents us c; handleEvents us' c.
Proof. apply foreach_app. Qed.

(** The handler of the connection is a [Receiver], at any time. *)
Program Definition client_receiver (t : Z) : Receiver SubscribeClient := {|
  rv_upcall := do_upcall (UInput t);
  rv_has tm sk c := sc_handler c = Some (mkCH tm sk);
  rv_put tm sk c := with_handler (Some (mkCH tm sk)) (with_probes 0 t (at_time t c));
  rv_finish m sk c := onClientMessage m (with_handler (Some (mkCH None sk)) (with_probes 0 t (at_time t c))) |}.
Next Obligation. done. Qed.
Next Obligation. done. Qed.
Next Obligation.
  intros t tm sk c m sk' Hh Hp. cbn [do_upcall]. unfold has_handler, client_handleInput, the_handler.
  cbn [at_time with_probes sc_handler sc_now]. rewrite Hh. cbn [negb]. rewrite bind_Ok. cbn [ch_tmpMsg ch_stream].
  change (match tm with None => Msg_new | Some m => m end) with (default Msg_new tm). by rewrite Hp.
Qed.
Next Obligation.
  intros t tm sk c m sk' Hh Hp. cbn [do_upcall]. unfold has_handler, client_handleInput, the_handler.
  cbn [at_time with_probes sc_handler sc_now]. rewrite Hh. cbn [negb]. rewrite bind_Ok. cbn [ch_tmpMsg ch_stream].
  change (match tm with None => Msg_new | Some m => m end) with (default Msg_new tm). rewrite Hp, bind_Ok. cbn [Z.eqb assert_]. rewrite bind_Ok.
  destruct (onClientMessage m _); [by rewrite !bind_Ok|done].
Qed.

(** An event is handed to the application with its payload next to be read. *)
Definition takes_event (ct : content) (c c' : SubscribeClient) : Prop :=
  ∃ m, received ct m ∧ sc_events c' = sc_events c ++ [m_is m].

(** Events that arrive, in any pieces, are handed to the application in their
    order, each with its payload; nothing is sent and no topic changes. *)
Lemma subscriber_takes_events t cs rest sk c :
  Forall content_ok cs → Forall (λ ct, c_type ct = Msg_Event) cs → hears sk (mjoin (frame_of <$> cs) ++ rest) →
  sc_handler c = Some (mkCH None sk) →
  ∃ n c' sk', upcalls (H2 := client_receiver t) n c = Ok c' ∧ each takes_event cs c c' ∧
    sc_handler c' = Some (mkCH None sk') ∧ hears sk' rest ∧ sk_sent sk' = sk_sent sk.
Proof.
  intros Hcs Hev Hh Hc.
  destruct (receive_all (H2 := client_receiver t) takes_event (λ sk', sk_sent sk' = sk_sent sk) cs) with (sk := sk) (rest := rest) (s := c)
    as (n & c' & sk' & ? & ? & ? & ? & ?); try done.
  - intros ct m sk0 sk1 c1 Hct Hm _ [_ Hso] Hsk. exists (with_event (m_is m) (with_handler (Some (mkCH None sk1)) (with_probes 0 t (at_time t c1)))), sk1.
    rewrite Forall_forall in Hev. pose proof Hm as (Hty & _). rewrite (Hev ct Hct) in Hty.
    split_and!; try done; [cbn [rv_finish client_receiver]; unfold onClientMessage; by rewrite Hty|by exists m|by rewrite Hso].
  - by exists n, c', sk'.
Qed.

(** *** Requests *)

(** The bytes of a request for a topic under an id. *)
Definition request_for (ty : Z) (id topic : str) : list Z := frame ty (mjoin (encode <$> [IString topic; IString id])).

(** A string that fits in a request. *)
Definition fits (x : str) : Prop := string_ok x ∧ #x < 30000.

Lemma length_enc_string x : length (enc_string x) = (5 + length x)%nat.
Proof. unfold enc_string. rewrite !length_app, length_be_bytes. cbn. lia. Qed.

(** The connection, when nothing is refused. *)
Definition talks (c : SubscribeClient) (tm : option Msg) (sk : socket) : Prop :=
  sc_handler c = Some (mkCH tm sk) ∧ sk_out sk = [].

Lemma request_ok ty topic tm sk c :
  in_u 8 ty → ty ≠ Msg_Event → fits topic → fits (sc_id c) → talks c tm sk →
  ∃ sk', request ty [IString topic; IString (sc_id c)] c = Ok (0, with_handler (Some (mkCH tm sk')) c) ∧
    sk_out sk' = [] ∧ sk_in sk' = sk_in sk ∧ sk_sent sk' = sk_sent sk ++ request_for ty (sc_id c) topic.
Proof.
  intros Hty Hne [Ht Htl] [Hi Hil] [Hh Hout]. unfold request, the_handler. rewrite Hh, bind_Ok. cbn [ch_stream ch_tmpMsg].
  destruct (answer_with_ok ty [IString topic; IString (sc_id c)] sk) as (sk' & E & Hs); try done.
  - constructor; [done|]. constructor; [done|]. constructor.
  - unfold len, os_limit. cbn [fmap list_fmap mjoin list_join encode]. rewrite app_nil_r, length_app, !length_enc_string. lia.
  - rewrite E, bind_Ok. destruct (answer_with_keeps _ _ _ _ _ E) as [H1 H2]. exists sk'. split_and!; auto.
Qed.
(** All the requests of a turn, in the order of the sets. *)
Definition requests (c : SubscribeClient) : list Z :=
  mjoin (request_for Msg_Subscribe (sc_id c) <$> set_iter (sc_toSub c)) ++
  mjoin (request_for Msg_UnSubscribe (sc_id c) <$> set_iter (sc_toUnSub c)).

Lemma real_all_ok ty real topics :
  in_u 8 ty → ty ≠ Msg_Event →
  (∀ t c, sc_errorPending c = false → has_handler c = true →
     real t c = '(result, c) ← request ty [IString t; IString (sc_id c)] c;
       if result =? -1 then Ok (false, if ty =? Msg_Subscribe then with_error true c else c) else Ok (true, c)) →
  Forall fits topics → ∀ c tm sk, sc_errorPending c = false → fits (sc_id c) → talks c tm sk →
  ∃ sk', real_all real topics c = Ok (true, with_handler (Some (mkCH tm sk')) c) ∧
    sk_out sk' = [] ∧ sk_in sk' = sk_in sk ∧ sk_sent sk' = sk_sent sk ++ mjoin (request_for ty (sc_id c) <$> topics).
Proof.
  intros Hty Hne Hreal. induction 1 as [|t topics Ht _ IH]; intros c tm sk He Hid Htk; cbn [real_all].
  - exists sk. destruct Htk as [Hh Ho]. cbn. rewrite app_nil_r, <- Hh. split_and!; try done. by destruct c.
  - rewrite Hreal by (try done; unfold has_handler; by rewrite (proj1 Htk)).
    destruct (request_ok ty t tm sk c) as (sk1 & -> & Ho1 & Hi1 & Hs1); try done. rewrite !bind_Ok. cbn [Z.eqb]. rewrite bind_Ok. cbn [negb].
    destruct (IH (with_handler (Some (mkCH tm sk1)) c) tm sk1) as (sk2 & -> & Ho2 & Hi2 & Hs2); try done.
    exists sk2. split_and!; [done|done|congruence|]. rewrite Hs2, Hs1, <- app_assoc. done.
Qed.

Lemma process_ok c tm sk :
  sc_errorPending c = false → fits (sc_id c) → Forall fits (set_iter (sc_toSub c)) → Forall fits (set_iter (sc_toUnSub c)) → talks c tm sk →
  ∃ sk', processAllSubAndUnSub c = Ok (true, with_handler (Some (mkCH tm sk')) c) ∧
    sk_out sk' = [] ∧ sk_in sk' = sk_in sk ∧ sk_sent sk' = sk_sent sk ++ requests c.
Proof.
  intros He Hid Hs Hu Htk. unfold processAllSubAndUnSub.
  destruct (real_all_ok Msg_Subscribe realSubTopic (set_iter (sc_toSub c))) with (c := c) (tm := tm) (sk := sk)
    as (sk1 & -> & Ho1 & Hi1 & Hs1); try done.
  { intros t c' He' Hh'. unfold realSubTopic. rewrite He', Hh'. done. }
  rewrite bind_Ok. cbn [negb].
  destruct (real_all_ok Msg_UnSubscribe realUnSubTopic (set_iter (sc_toUnSub c))) with (c := with_handler (Some (mkCH tm sk1)) c) (tm := tm) (sk := sk1)
    as (sk2 & E2 & Ho2 & Hi2 & Hs2); try done.
  { intros t c' He' Hh'. unfold realUnSubTopic. rewrite He', Hh'. done. }
  change (sc_toUnSub (with_handler _ c)) with (sc_toUnSub c). rewrite E2. exists sk2. split_and!; [done|done|congruence|].
  rewrite Hs2, Hs1, <- app_assoc. done.
Qed.

(** *** A message that arrives in one piece takes one upcall *)

Lemma recv_msg_socket off n m sk r m' sk' :
  recv_msg off n m sk = Ok (r, m', sk') → r = s32 (recv (u64 n) sk).1.1 ∧ sk' = (recv (u64 n) sk).2.
Proof.
  unfold recv_msg, recv_at. intros Hr. destruct (recv (u64 n) sk) as [[x bs] sk1]. destruct bs as [|y bs]; rewrite ?bind_Ok in Hr.
  - inv_ok. done.
  - destruct (store _ _ _) as [d|e]; [|done]. cbn in Hr. inv_ok. done.
Qed.

Lemma recv_data n bs ds sk :
  sk_in sk = Data bs :: ds → 0 < n ≤ #bs →
  ∃ sk', recv n sk = (n, take (Z.to_nat n) bs, sk') ∧ sk_in sk' = if #bs =? n then ds else Data (drop (Z.to_nat n) bs) :: ds.
Proof.
  intros Hin Hn. unfold recv. rewrite (proj2 (Z.eqb_neq n 0)) by lia. rewrite Hin. destruct bs as [|x bs]; [cbn in Hn; lia|].
  destruct (_ <=? n) eqn:E; b2p.
  - rewrite (proj2 (Z.eqb_eq _ _)) by lia. exists (with_in ds sk). split; [|done]. rewrite take_ge by lia. do 2 f_equal. lia.
  - rewrite (proj2 (Z.eqb_neq _ _)) by lia. by eexists.
Qed.

Lemma parse_whole {may} ty body rest m sk ds r m' sk' :
  receiving (may := may) ty body rest 0 m sk → sk_in sk = Data (frame ty body) :: ds → body ≠ [] → 5 + len body < 2 ^ 31 →
  parse m sk = Ok (r, m', sk') → r ≠ 1 ∧ sk_in sk' = ds.
Proof.
  intros Hr Hin Hne Hlen Hpar. pose proof (length_frame ty body) as Hlf. unfold len in *.
  assert (0 < length body)%nat as Hlb by (destruct body; [done|cbn; lia]).
  unfold parse in Hpar. destruct (parse_grow_ok ty body rest 0 m sk Hr ltac:(lia)) as (m1 & E0 & Hr1 & Hrd1).
  rewrite E0, bind_Ok in Hpar.
  rewrite (rc_off _ _ _ _ _ _ Hr1) in Hpar. change (Z.of_nat 0 <? MSG_HEADER_LEN) with true in Hpar.
  destruct (parse_header_ok (may := may) ty body rest 0 m1 sk) as (off2 & m2 & sk2 & ret & Eh & Hr2 & Hcase); [done|unfold moving; by rewrite Hin|lia|done|done|].
  assert (sk2 = (recv 5 sk).2 ∧ (∀ r, ret = Some r → False)) as [Hsk2 Hret].
  { unfold parse_header in Eh. rewrite (rc_off _ _ _ _ _ _ Hr1) in Eh. change (s32 (u32 (MSG_HEADER_LEN - Z.of_nat 0))) with 5 in Eh.
    apply bind_inv in Eh as ([[r3 m3] sk3] & Er & Eh). apply recv_msg_socket in Er as Hr3. destruct Hr3 as [-> ->].
    change (u64 5) with 5 in *. destruct (recv_data 5 _ ds sk Hin) as (sk4 & E4 & _); [lia|]. rewrite E4 in *. cbn [fst snd] in *.
    change (s32 5) with 5 in *. cbn [Z.eqb Pos.eqb] in Eh.
    assert (m_off m3 = 0) as Ho3.
    { unfold recv_msg in Er. apply bind_inv in Er as ([[? ?] ?] & _ & Er). inv_ok. exact (rc_off _ _ _ _ _ _ Hr1). }
    cbn [with_off m_off] in Eh. rewrite Ho3 in Eh. change (u32 (0 + 5)) with 5 in Eh. change (5 <? MSG_HEADER_LEN) with false in Eh.
    cbv iota zeta in Eh. repeat (inv_ok; match goal with p : (_ * _)%type |- _ => destruct p end).
    inv_ok. split; [done|]. by intros ? [=]. }
  destruct (recv_data 5 _ ds sk Hin) as (sk4 & E4 & Hin4); [lia|]. rewrite E4 in Hsk2. cbn [snd] in Hsk2. subst sk4.
  rewrite (proj2 (Z.eqb_neq _ _)) in Hin4 by lia.
  rewrite Eh, bind_Ok in Hpar. destruct Hcase as [[-> _]|[-> ->]]; [exfalso; by eapply Hret|].
  unfold parse_body, MSG_HEADER_LEN in Hpar. destruct (rc_body _ _ _ _ _ _ Hr2 ltac:(lia)) as (_ & _ & Hsz & _). unfold len in Hsz.
  rewrite (rc_off _ _ _ _ _ _ Hr2), Hsz in Hpar. change (u32 (Z.of_nat 5 - 5)) with 0 in Hpar.
  rewrite Z.sub_0_r, (wrap_small 32), (swrap_small 32) in Hpar by (unfold in_u, in_s; lia).
  apply bind_inv in Hpar as ([[r3 m3] sk3] & Er & Hpar). apply recv_msg_socket in Er as [-> ->].
  rewrite (wrap_small 64) in Hpar by (unfold in_u; lia).
  destruct (recv_data (#body) (drop 5 (frame ty body)) ds sk2 Hin4) as (sk5 & E5 & Hin5); [rewrite length_drop; lia|].
  rewrite length_drop, (proj2 (Z.eqb_eq _ _)) in Hin5 by lia.
  rewrite E5 in Hpar. cbn [fst snd] in Hpar. rewrite swrap_small in Hpar by (unfold in_s; lia).
  rewrite !(proj2 (Z.eqb_neq _ _)) in Hpar by lia. rewrite Z.ltb_irrefl in Hpar.
  apply bind_inv in Hpar as (? & _ & Hpar). apply bind_inv in Hpar as (? & _ & Hpar). by inv_ok.
Qed.

Lemma frame_flows ct : flows (Data (frame_of ct)).
Proof. unfold flows, frame_of. intros E. pose proof (length_frame (c_type ct) (body_of ct)) as Hl. rewrite E in Hl. cbn in Hl. lia. Qed.

(** The first message of a connection that has nothing half read. *)
Lemma receive_now ct ds t sk c :
  content_ok ct → sk_in sk = Data (frame_of ct) :: ds → Forall arrives ds → sc_handler c = Some (mkCH None sk) →
  ∃ m2 sk', received ct m2 ∧ sk_in sk' = ds ∧ same_output sk sk' ∧
    handleEvents [UInput t] c = onClientMessage m2 (with_handler (Some (mkCH None sk')) (with_probes 0 t (at_time t c))).
Proof.
  intros Hc Hin Hfl Hh. pose proof Hc as (_ & _ & _ & Hlen). pose proof (body_nonempty ct) as Hne.
  assert (receiving (may := λ i, (length (frame_of ct) ≤ i)%nat) (c_type ct) (body_of ct) (data_of ds) 0 Msg_new sk) as Hr.
  { apply new_receiving; rewrite Hin; [|done]. split; [apply frame_flows|by apply arrives_paced]. }
  pose proof (length_frame (c_type ct) (body_of ct)) as Hlf. fold (frame_of ct) in Hlf.
  assert (0 < length (body_of ct))%nat by (destruct (body_of ct); [done|cbn; lia]).
  assert (¬ (length (frame_of ct) ≤ 5)%nat) as Hmay by lia. assert (moving sk) as Hmv by (unfold moving; by rewrite Hin).
  destruct (parse_step _ _ _ _ _ _ Hmay Hr Hmv ltac:(lia) Hne Hlen) as (off' & m' & sk1 & Ho & Hr' & [[Hlt' Hpar]|[-> Hpar]]).
  { by destruct (parse_whole _ _ _ _ _ _ _ _ _ Hr Hin Hne Hlen Hpar) as [? _]. }
  destruct (received_avail _ _ _ _ _ Hr') as (Hs & Hty & more & Hav).
  destruct (parse_fields_ok ct m' more Hc Hs Hty Hav) as (m2 & Hpf & Hrec). rewrite Hpf, bind_Ok in Hpar.
  destruct (parse_whole _ _ _ _ _ _ _ _ _ Hr Hin Hne Hlen Hpar) as [_ Hin'].
  exists m2, sk1. split_and!; [done|done|by eapply parse_same_output|].
  unfold handleEvents. cbn [foreach do_upcall]. unfold has_handler, client_handleInput, the_handler.
  cbn [at_time with_probes sc_handler sc_now]. rewrite Hh. cbn [negb]. rewrite bind_Ok. cbn [ch_tmpMsg ch_stream].
  rewrite Hpar, !bind_Ok. cbn [Z.eqb assert_]. rewrite bind_Ok. destruct (onClientMessage _ _); [by rewrite !bind_Ok|done].
Qed.

End lemmas.

(** ** Properties *)

Section properties.

Context {al : Allocator} {ho : Host} {un : Uninit}.

(** The broker's answer to a subscription. *)
Definition ok_content (topic id : str) (tries span : Z) : content := mkContent Msg_Subscribe_OK topic id tries span 0 [].

Lemma ok_content_ok topic id tries span :
  fits topic → fits id → in_s 32 tries → in_s 32 span → content_ok (ok_content topic id tries span).
Proof.
  intros [Ht Htl] [Hi Hil] H1 H2. unfold content_ok, ok_content. cbn [c_type c_topic].
  split_and!; [unfold in_u, Msg_Subscribe_OK; lia| |done|].
  - unfold content_items. cbn. repeat (constructor; [done|]). constructor.
  - unfold body_of, content_items, len. cbn -[be_bytes]. rewrite !length_app, !length_enc_string, !length_be_bytes. cbn. lia.
Qed.

(** A connected client with one topic to ask for. *)
Definition asking (topic : str) (c : SubscribeClient) (sk : socket) : Prop :=
  sc_errorPending c = false ∧ talks c None sk ∧ sc_toSub c = {[topic]} ∧ sc_toUnSub c = ∅ ∧ (topic ∉ sc_subscribed c) ∧
  topic ≠ [] ∧ fits topic ∧ fits (sc_id c).

Lemma asking_requests topic c sk : asking topic c sk → requests c = request_for Msg_Subscribe (sc_id c) topic.
Proof.
  intros (_ & _ & Hs & Hu & _). unfold requests. rewrite Hs, Hu, set_iter_singleton, set_iter_empty. cbn. by rewrite !app_nil_r.
Qed.

(** What a confirmation changes. *)
Definition confirmed (topic id' : str) (c : SubscribeClient) : SubscribeClient :=
  let c := with_topics ({[topic]} ∪ sc_subscribed c) (sc_toSub c ∖ {[topic]}) (sc_toUnSub c) c in
  with_client_id (if bool_decide (sc_id c = str_0 ∧ id' ≠ str_0) then id' else sc_id c) (sc_file c) c.

Lemma onSubScribeTopicOk_ok topic id' c :
  topic ≠ [] → topic ∈ sc_toSub c → topic ∉ sc_subscribed c →
  ∃ f, onSubScribeTopicOk topic id' c = Ok (with_client_id (sc_id (confirmed topic id' c)) f (confirmed topic id' c)) ∧
    (id' ≠ str_0 → sc_id c = str_0 → f = Some id').
Proof.
  intros Ht Hs Hn. unfold onSubScribeTopicOk. rewrite (bool_decide_eq_false_2 (topic = [])) by done. cbn [negb assert_]. rewrite bind_Ok.
  rewrite (bool_decide_eq_true_2 (topic ∈ sc_toSub c)) by done. cbn [assert_]. rewrite bind_Ok. cbv zeta.
  change (sc_subscribed (with_topics _ _ _ c)) with (sc_subscribed c).
  rewrite (bool_decide_eq_false_2 (topic ∈ sc_subscribed c)) by done. cbn [negb assert_]. rewrite bind_Ok.
  unfold confirmed. cbn [sc_id sc_file with_topics].
  destruct (decide (id' = str_0)) as [->|Hne0].
  - rewrite (bool_decide_eq_true_2 (str_0 = str_0)) by done.
    rewrite (bool_decide_eq_false_2 (_ ∧ str_0 ≠ str_0)) by naive_solver. destruct c as [? ? ? ? ? ? ? ? ? ? ? ? ? [f|] ? ?]; cbn.
    + by exists (Some []).
    + by exists None.
  - rewrite (bool_decide_eq_false_2 (id' = str_0)) by done. destruct (decide (sc_id c = str_0)) as [Hz|Hz].
    + rewrite !bool_decide_eq_true_2 by done. by exists (Some id').
    + rewrite !bool_decide_eq_false_2 by naive_solver. by exists (sc_file c).
Qed.

(** A turn in which the answer to the request comes. *)
Lemma turn_answered topic id' tries span t c sk ds :
  asking topic c sk → fits id' → in_s 32 tries → in_s 32 span →
  sk_in sk = Data (frame_of (ok_content topic id' tries span)) :: ds → Forall arrives ds →
  ∃ c' sk', run_turn [UInput t] c = Ok c' ∧ talks c' None sk' ∧ sk_in sk' = ds ∧ sc_errorPending c' = false ∧
    sk_sent sk' = sk_sent sk ++ request_for Msg_Subscribe (sc_id c) topic ∧
    sc_subscribed c' = {[topic]} ∪ sc_subscribed c ∧ sc_toSub c' = ∅ ∧ sc_toUnSub c' = ∅ ∧
    sc_tryTimes c' = tries ∧ sc_timeSpan c' = span ∧ sc_unacked c' = 0 ∧ sc_lastActive c' = t ∧
    sc_id c' = (if bool_decide (sc_id c = str_0 ∧ id' ≠ str_0) then id' else sc_id c) ∧
    (id' ≠ str_0 → sc_id c = str_0 → sc_file c' = Some id').
Proof.
  intros Hask Hid' H1 H2 Hin Hfl. pose proof Hask as (He & Htk & Hs & Hu & Hns & Hne & Hft & Hfi).
  unfold run_turn. rewrite He.
  destruct (process_ok c None sk He Hfi) as (sk1 & -> & Ho1 & Hi1 & Hs1); [by rewrite Hs, set_iter_singleton; constructor|by rewrite Hu, set_iter_empty|done|].
  rewrite bind_Ok, (asking_requests topic c sk Hask) in *.
  destruct (receive_now (ok_content topic id' tries span) ds t sk1 (with_handler (Some (mkCH None sk1)) c))
    as (m2 & sk2 & (Hty & Htop & Hmid & Hka & _) & Hi2 & [Hso1 Hso2] & ->); [by apply ok_content_ok|by rewrite Hi1|done|done|].
  cbn [c_type c_topic c_subscriberId ok_content c_keepAliveTryTimes c_keepAliveTimeSpan] in *.
  specialize (Hmid eq_refl). destruct (Hka (or_introl eq_refl)) as [Hk1 Hk2].
  unfold onClientMessage. rewrite Hty, Z.eqb_refl, Htop, Hmid, Hk1, Hk2.
  set (c1 := with_limits _ _ _).
  destruct (onSubScribeTopicOk_ok topic id' c1) as (f & -> & Hf); [done|unfold c1; cbn; rewrite Hs; by apply elem_of_singleton|done|].
  eexists _, sk2. split; [reflexivity|]. unfold confirmed, talks, c1. cbn -[request_for]. rewrite Hs, Hu. split_and!; try done; try congruence.
  apply difference_diag_L.
Qed.

(** The broker's fields are those of the answer the client reads. *)
Lemma ok_frame {cfg : Settings} topic sid s b :
  frame Msg_Subscribe_OK (mjoin (encode <$> subscribe_ok_fields topic sid s b)) =
  frame_of (ok_content topic (acknowledged sid s b) keepAliveTryTimes keepAliveTimeSpan).
Proof. unfold frame_of, body_of, ok_content. cbn [c_payload c_type]. rewrite app_nil_r. done. Qed.

(** A subscription as the content of a message. *)
Definition ask_content (topic id : str) : content := mkContent Msg_Subscribe topic id 0 0 0 [].

Lemma ask_frame topic id : request_for Msg_Subscribe id topic = frame_of (ask_content topic id).
Proof. unfold request_for, frame_of, body_of, ask_content. cbn [c_payload c_type]. by rewrite app_nil_r. Qed.

Lemma ask_content_ok topic id : fits topic → fits id → content_ok (ask_content topic id).
Proof.
  intros [Ht Htl] [Hi Hil]. unfold content_ok, ask_content. cbn [c_type c_topic].
  split_and!; [unfold in_u, Msg_Subscribe; lia| |done|].
  - unfold content_items. cbn. repeat (constructor; [done|]). constructor.
  - unfold body_of, content_items, len. cbn -[be_bytes]. rewrite !length_app, !length_enc_string. cbn. lia.
Qed.

End properties.

(** C9: A subscription, from the client through the broker and back.  A
    connected client has one topic to subscribe to.  In its turn it sends the
    request; the broker's handler of the connection, whatever pieces the request
    comes in, with any stalls except right behind the header, takes it without a fault, enters the subscription and sends one
    acknowledgement; and when this arrives in one piece in the same turn, the
    client moves the topic to the subscribed ones, takes over the keep-alive
    settings of the broker and the id it was given (stored in its file if it
    had none), and has nothing left to ask for.  The connection is under no
    other id, and a new id has one digit ([subscribable]: the tenth client makes
    the broker abort, [tenth_client_aborts]); an acknowledgement that is late
    makes the client abort ([slow_answer_aborts]). *)
Theorem subscription_established {al : Allocator} {ho : Host} {un : Uninit} {cfg : Settings} {hp : Heap}
    topic c sk h s b rest t ds :
  asking topic c sk → inv b → h ≠ 0 → br_subs b !! h = Some s → sh_tmpMsg s = 0 →
  sk_out (sh_stream s) = [] → sk_sent (sh_stream s) = [] → subscribable h topic (sc_id c) s b →
  paced not_behind_header 0 (sk_in (sh_stream s)) →
  data_of (sk_in (sh_stream s)) = request_for Msg_Subscribe (sc_id c) topic ++ rest →
  fits (acknowledged (sc_id c) s b) → in_s 32 keepAliveTryTimes → in_s 32 keepAliveTimeSpan → Forall arrives ds →
  ∃ b' s', sub_upcalls (length (data_of (sk_in (sh_stream s)))) h b = Ok (0, b') ∧ inv b' ∧ br_subs b' !! h = Some s' ∧
    entered topic h (acknowledged (sc_id c) s b) b' ∧
    sk_sent (sh_stream s') = frame_of (ok_content topic (acknowledged (sc_id c) s b) keepAliveTryTimes keepAliveTimeSpan) ∧
    (sk_in sk = Data (sk_sent (sh_stream s')) :: ds →
     ∃ c' sk', run_turn [UInput t] c = Ok c' ∧ talks c' None sk' ∧
       sk_sent sk' = sk_sent sk ++ request_for Msg_Subscribe (sc_id c) topic ∧
       sc_subscribed c' = {[topic]} ∪ sc_subscribed c ∧ sc_toSub c' = ∅ ∧ requests c' = [] ∧
       sc_tryTimes c' = keepAliveTryTimes ∧ sc_timeSpan c' = keepAliveTimeSpan ∧
       sc_id c' = (if bool_decide (sc_id c = str_0 ∧ acknowledged (sc_id c) s b ≠ str_0) then acknowledged (sc_id c) s b else sc_id c) ∧
       (acknowledged (sc_id c) s b ≠ str_0 → sc_id c = str_0 → sc_file c' = Some (acknowledged (sc_id c) s b))).
Proof.
  intros Hask Hi Hh Hs Ht Hout Hsent Hsub Hfl Hd Hfa H1 H2 Hds. pose proof Hask as (_ & _ & _ & _ & _ & _ & Hft & Hfi).
  rewrite ask_frame in Hd.
  destruct (subscription_served (ask_content topic (sc_id c)) rest h s b) as (b' & s' & Hrun & Hi' & Hs' & He & _ & _ & Hsn & _); try done.
  - by apply ask_content_ok.
  - destruct Hft, Hfa. unfold subscribe_ok_fields. repeat (constructor; [done|]). constructor.
  - destruct Hft as [_ Hl1], Hfa as [_ Hl2]. unfold len, os_limit, subscribe_ok_fields. cbn -[be_bytes acknowledged].
    rewrite !length_app, !length_enc_string, !length_be_bytes. cbn. lia.
  - rewrite Hsent, app_nil_l, ok_frame in Hsn. cbn [c_topic c_subscriberId ask_content] in Hsn.
    exists b', s'. split_and!; try done. intros Hin. rewrite Hsn in Hin.
    destruct (turn_answered topic _ _ _ t c sk ds Hask Hfa H1 H2 Hin Hds)
      as (c' & sk' & E & Htk & _ & _ & Hst & Hsb & Hts & Hus & Hk1 & Hk2 & _ & _ & Hid & Hfile).
    exists c', sk'. split_and!; try done. unfold requests. by rewrite Hts, Hus, set_iter_empty.
Qed.

Section turns.

Context {al : Allocator} {ho : Host} {un : Uninit}.

(** A turn without upcalls only sends the requests. *)
Lemma turn_quiet c tm sk :
  sc_errorPending c = false → fits (sc_id c) → Forall fits (set_iter (sc_toSub c)) → Forall fits (set_iter (sc_toUnSub c)) → talks c tm sk →
  ∃ sk', run_turn [] c = Ok (with_handler (Some (mkCH tm sk')) c) ∧
    sk_out sk' = [] ∧ sk_in sk' = sk_in sk ∧ sk_sent sk' = sk_sent sk ++ requests c.
Proof.
  intros He Hid Hs Hu Htk. destruct (process_ok c tm sk He Hid Hs Hu Htk) as (sk' & E & ?). exists sk'.
  unfold run_turn. rewrite He, E, bind_Ok. done.
Qed.

(** A confirmation of a topic that is not asked for. *)
Lemma turn_unasked topic id' tries span t c sk ds :
  sc_errorPending c = false → talks c None sk → fits (sc_id c) → sc_toSub c = ∅ → sc_toUnSub c = ∅ →
  fits topic → topic ≠ [] → fits id' → in_s 32 tries → in_s 32 span →
  sk_in sk = Data (frame_of (ok_content topic id' tries span)) :: ds → Forall arrives ds →
  run_turn [UInput t] c = Fault AssertFailed.
Proof.
  intros He Htk Hfi Hs Hu Hft Hne Hid' H1 H2 Hin Hfl. unfold run_turn. rewrite He.
  destruct (process_ok c None sk He Hfi) as (sk1 & -> & Ho1 & Hi1 & Hs1); [by rewrite Hs, set_iter_empty|by rewrite Hu, set_iter_empty|done|].
  rewrite bind_Ok.
  destruct (receive_now (ok_content topic id' tries span) ds t sk1 (with_handler (Some (mkCH None sk1)) c))
    as (m2 & sk2 & (Hty & Htop & _) & _ & _ & ->); [by apply ok_content_ok|by rewrite Hi1|done|done|].
  cbn [c_type c_topic ok_content] in *.
  unfold onClientMessage. rewrite Hty, Z.eqb_refl, Htop. set (c1 := with_limits _ _ _).
  assert (sc_toSub c1 = ∅) as Hs1' by exact Hs. clearbody c1. unfold onSubScribeTopicOk.
  rewrite (bool_decide_eq_false_2 (topic = [])) by done. cbn [negb assert_]. rewrite bind_Ok.
  rewrite (bool_decide_eq_false_2 (topic ∈ sc_toSub c1)) by (rewrite Hs1'; apply not_elem_of_empty). done.
Qed.

End turns.

(** A client does not wait for the answer to a request: it sends the
    request again in every turn until the answer is there, and aborts when a
    topic is confirmed twice.  With one topic to subscribe to, a turn in which
    the reactor has nothing for the connection (the broker takes longer than
    the second [handleEvents] waits), and two answers to the two requests, the
    third turn fails the assertion of [onSubScribeTopicOk]. *)
Lemma slow_answer_aborts {al : Allocator} {ho : Host} {un : Uninit} topic id1 id2 tries span t1 t2 c sk ds :
  asking topic c sk → fits id1 → fits id2 → in_s 32 tries → in_s 32 span → Forall arrives ds →
  sk_in sk = Data (frame_of (ok_content topic id1 tries span)) :: Data (frame_of (ok_content topic id2 tries span)) :: ds →
  ∃ c1 c2 sk1 sk2, run_turn [] c = Ok c1 ∧ talks c1 None sk1 ∧ sk_sent sk1 = sk_sent sk ++ request_for Msg_Subscribe (sc_id c) topic ∧
    run_turn [UInput t1] c1 = Ok c2 ∧ talks c2 None sk2 ∧
    sk_sent sk2 = sk_sent sk ++ request_for Msg_Subscribe (sc_id c) topic ++ request_for Msg_Subscribe (sc_id c) topic ∧
    sc_subscribed c2 = {[topic]} ∪ sc_subscribed c ∧ run_turn [UInput t2] c2 = Fault AssertFailed.
Proof.
  intros Hask Hf1 Hf2 H1 H2 Hds Hin. pose proof Hask as (He & Htk & Hs & Hu & Hns & Hne & Hft & Hfi).
  assert (Forall arrives (Data (frame_of (ok_content topic id2 tries span)) :: ds)) as Hds2.
  { constructor; [apply frame_flows|done]. }
  destruct (turn_quiet c None sk) as (sk1 & E1 & Ho1 & Hi1 & Hs1); [done|done|by rewrite Hs, set_iter_singleton; constructor|by rewrite Hu, set_iter_empty|done|].
  rewrite (asking_requests topic c sk Hask) in Hs1. set (c1 := with_handler _ c) in *.
  destruct (turn_answered topic id1 tries span t1 c1 sk1 (Data (frame_of (ok_content topic id2 tries span)) :: ds))
    as (c2 & sk2 & E2 & Htk2 & Hi2 & He2 & Hs2 & Hsb & Hts & Hus & _ & _ & _ & _ & Hid2 & _); try done.
  { by rewrite Hi1. }
  exists c1, c2, sk1, sk2. split_and!; try done; [by rewrite Hs2, Hs1, <- app_assoc|].
  eapply (turn_unasked topic id2 tries span t2 c2 sk2 ds); try done.
  rewrite Hid2. by case_bool_decide.
Qed.

(** *** Connecting again *)

Section reconnecting.

Context {al : Allocator} {ho : Host} {un : Uninit}.

Lemma try_connect_ok k : ∀ c sk rest, sc_connects c = replicate k None ++ Some sk :: rest →
  try_connect (sc_connects c) c = Ok (with_handler (Some (mkCH None sk)) (with_connects rest (sc_now c + 5 * Z.of_nat k) c)).
Proof.
  induction k as [|k IH]; intros c sk rest Hc; rewrite Hc; cbn [replicate app try_connect]; unfold client_connect; rewrite Hc; cbn [replicate app]; rewrite bind_Ok; cbn [Z.eqb].
  - rewrite Z.mul_0_r, Z.add_0_r. done.
  - set (c1 := at_time _ _). change (replicate k None ++ Some sk :: rest) with (sc_connects c1). rewrite (IH c1 sk rest) by done.
    replace (sc_now c + 5 * Z.of_nat (S k)) with (sc_now c1 + 5 * Z.of_nat k) by (unfold c1; cbn [at_time sc_now with_connects with_handler]; lia). done.
Qed.

End reconnecting.

(** C14: After the connection was lost, nothing subscribed is forgotten.  With no
    message half read on it (else the destructor of the handler aborts the
    client, [half_message_aborts]), the
    turn that finds the error connects again, however many attempts fail (five
    seconds apart), and restarts the keep-alive timer; every topic that was
    confirmed, unless it was to be given up, and every topic still to be
    confirmed is then to be subscribed to, and the next turn sends one request
    for each of them, in order, under the client's id, on a socket that takes all
    it is given. *)
Theorem resubscribes_after_error {al : Allocator} {ho : Host} {un : Uninit} us c k sk rest :
  sc_errorPending c = true → (∀ h, sc_handler c = Some h → ch_tmpMsg h = None) →
  sc_connects c = replicate k None ++ Some sk :: rest → sk_out sk = [] → fits (sc_id c) →
  let topics := sc_toSub c ∪ (sc_subscribed c ∖ sc_toUnSub c) in
  Forall fits (set_iter topics) → Forall fits (set_iter (sc_toUnSub c)) →
  ∃ c1 c2 sk', run_turn us c = Ok c1 ∧ sc_errorPending c1 = false ∧ sc_toSub c1 = topics ∧ sc_subscribed c1 = ∅ ∧
    sc_timer c1 = Some (sc_timeSpan c) ∧ sc_unacked c1 = 0 ∧ sc_now c1 = sc_now c + 5 * Z.of_nat k ∧
    run_turn [] c1 = Ok c2 ∧ talks c2 None sk' ∧
    sk_sent sk' = sk_sent sk ++ mjoin (request_for Msg_Subscribe (sc_id c) <$> set_iter topics) ++
                    mjoin (request_for Msg_UnSubscribe (sc_id c) <$> set_iter (sc_toUnSub c)).
Proof.
  intros He Hh Hc Ho Hid topics Ht Hu. unfold run_turn at 1. rewrite He. unfold onConnError. rewrite He. cbn [assert_]. rewrite !bind_Ok.
  unfold reestablishConnection. cbn [disableKeepAlive snd with_keepAlive_timer sc_toSub sc_subscribed sc_toUnSub]. fold topics.
  set (c0 := with_probes 0 _ _).
  assert (∃ c', (if has_handler c0 then delete_handler c0 else Ok c0) = Ok c' ∧ c' = with_handler None c0) as (c' & -> & ->).
  { unfold has_handler, delete_handler, the_handler. change (sc_handler c0) with (sc_handler c). destruct (sc_handler c) as [h|] eqn:E.
    - rewrite bind_Ok, bool_decide_eq_true_2 by auto. cbn [assert_]. rewrite bind_Ok. by eexists.
    - exists c0. split; [done|]. assert (sc_handler c0 = None) as E0 by exact E. clearbody c0. destruct c0. cbn in *. by subst. }
  rewrite bind_Ok, (try_connect_ok k _ sk rest) by done. rewrite !bind_Ok. unfold onConnOk. cbn [negb assert_ sc_errorPending]. 
  cbn [with_handler with_connects c0 with_probes with_error sc_errorPending negb assert_]. rewrite bind_Ok.
  set (c1 := (enableKeepAlive _).2).
  destruct (turn_quiet c1 None sk) as (sk' & E2 & Ho2 & _ & Hs2); try done.
  exists c1, (with_handler (Some (mkCH None sk')) c1), sk'. split_and!; try done.
Qed.

(** A connection that is given up in the middle of a message aborts the client:
    the handler's destructor finds the message. *)
Lemma half_message_aborts {al : Allocator} {ho : Host} {un : Uninit} us c m sk :
  sc_errorPending c = true → sc_handler c = Some (mkCH (Some m) sk) → run_turn us c = Fault AssertFailed.
Proof.
  intros He Hh. unfold run_turn. rewrite He. unfold onConnError. rewrite He. cbn [assert_]. rewrite !bind_Ok.
  unfold reestablishConnection, has_handler, delete_handler, the_handler. cbn. by rewrite Hh.
Qed.

(** *** Keep-alive *)

Section keep_alive.

Context {al : Allocator} {ho : Host} {un : Uninit}.

(** The bytes of a probe. *)
Definition probe : list Z := frame Msg_KeepAlive_Probe (mjoin (encode <$> [IString str_keepAlive])).

(** One time-out of a peer that is silent for longer than the time span. *)
Lemma timeout_ok t c tm sk iv :
  talks c tm sk → sc_timer c = Some iv → sc_timeSpan c ≤ t - sc_lastActive c →
  0 ≤ sc_unacked c < 2 ^ 31 - 1 →
  ∃ c' sk', do_upcall (UTimer t) c = Ok c' ∧ talks c' tm sk' ∧ sc_lastActive c' = sc_lastActive c ∧
    sc_tryTimes c' = sc_tryTimes c ∧ sc_timeSpan c' = sc_timeSpan c ∧ sc_unacked c' = sc_unacked c + 1 ∧
    if sc_unacked c <? sc_tryTimes c
    then sc_errorPending c' = sc_errorPending c ∧ sc_timer c' = Some iv ∧ sk_sent sk' = sk_sent sk ++ probe
    else sc_errorPending c' = true ∧ sc_timer c' = None ∧ sk' = sk.
Proof.
  intros Htk Hiv Ht Hu. pose proof Htk as [Hh Ho]. cbn [do_upcall]. cbv zeta. change (sc_timer (at_time t c)) with (sc_timer c). rewrite Hiv.
  unfold handleTimeout, sendKeepAliveProbe, has_handler. change (sc_handler (at_time t c)) with (sc_handler c). rewrite Hh. cbn [negb].
  change (sc_now (at_time t c)) with t. change (sc_lastActive (at_time t c)) with (sc_lastActive c).
  change (sc_timeSpan (at_time t c)) with (sc_timeSpan c). rewrite (proj2 (Z.ltb_ge _ _)) by lia. cbv zeta.
  change (sc_unacked (at_time t c)) with (sc_unacked c). rewrite swrap_small by (unfold in_s; lia).
  set (c1 := with_probes _ _ _). change (sc_unacked c1) with (sc_unacked c + 1). change (sc_tryTimes c1) with (sc_tryTimes c).
  destruct (sc_unacked c <? sc_tryTimes c) eqn:E; b2p.
  - replace (sc_unacked c + 1 >? sc_tryTimes c) with false by (symmetry; rewrite Z.gtb_ltb; apply Z.ltb_ge; lia).
    unfold request, the_handler. change (sc_handler c1) with (sc_handler c). rewrite Hh, bind_Ok. cbn [ch_stream ch_tmpMsg].
    destruct (answer_with_ok Msg_KeepAlive_Probe [IString str_keepAlive] sk) as (sk' & E1 & Hs1); try done.
    { constructor; [|done]. split; [repeat constructor; unfold is_byte; lia|]. cbn. lia. }
    destruct (answer_with_keeps _ _ _ _ _ E1) as [_ Hk]. rewrite E1, !bind_Ok. cbn [Z.eqb]. rewrite !bind_Ok. cbn [negb]. rewrite bind_Ok. cbn [Z.eqb].
    eexists _, sk'. split; [reflexivity|]. split_and!; try done. split; [done|auto].
  - replace (sc_unacked c + 1 >? sc_tryTimes c) with true by (symmetry; rewrite Z.gtb_ltb; apply Z.ltb_lt; lia).
    rewrite !bind_Ok. cbn [negb]. rewrite bind_Ok. change (-1 =? -1) with true. eexists _, sk. split; [reflexivity|]. done.
Qed.

Lemma timeouts_ok iv span last tries ts : ∀ c tm sk,
  talks c tm sk → sc_timer c = Some iv → sc_timeSpan c = span → sc_lastActive c = last → sc_tryTimes c = tries → sc_errorPending c = false →
  Forall (λ t, span ≤ t - last) ts → 0 ≤ sc_unacked c → sc_unacked c + #ts ≤ tries < 2 ^ 31 - 1 →
  ∃ c' sk', handleEvents (UTimer <$> ts) c = Ok c' ∧ talks c' tm sk' ∧ sc_timer c' = Some iv ∧ sc_errorPending c' = false ∧
    sc_timeSpan c' = span ∧ sc_lastActive c' = last ∧ sc_tryTimes c' = tries ∧ sc_unacked c' = sc_unacked c + #ts ∧
    sk_sent sk' = sk_sent sk ++ mjoin (replicate (length ts) probe).
Proof.
  induction ts as [|t ts IH]; intros c tm sk Htk Hiv Hsp Hl Htr He Hts Hu Hn.
  - exists c, sk. cbn. rewrite app_nil_r. split_and!; try done. lia.
  - apply Forall_cons in Hts as [Ht Hts]. cbn [length] in Hn.
    destruct (timeout_ok t c tm sk iv) as (c1 & sk1 & E1 & Htk1 & Hl1 & Htr1 & Hsp1 & Hu1 & Hcase); try done; [by rewrite Hsp, Hl|lia|].
    rewrite (proj2 (Z.ltb_lt _ _)) in Hcase by lia. destruct Hcase as (He1 & Hiv1 & Hs1).
    destruct (IH c1 tm sk1) as (c' & sk' & E & Htk' & Hiv' & He' & Hsp' & Hl' & Htr' & Hu' & Hs'); try done; try congruence; [lia|lia|].
    exists c', sk'. unfold handleEvents in *. cbn [fmap list_fmap foreach]. rewrite E1, bind_Ok. split_and!; try done.
    + cbn [length]. lia.
    + rewrite Hs', Hs1, <- app_assoc. done.
Qed.

End keep_alive.

(** C15: A dead peer is found.  While the broker sends nothing, each time-out
    later than the time span sends one probe and gives no error, up to the
    number of tries; the next one sends nothing, stops the timer and marks the
    connection as broken, so that [run] connects again. *)
Theorem silent_peer_detected {al : Allocator} {ho : Host} {un : Uninit} ts t c tm sk iv :
  talks c tm sk → sc_timer c = Some iv → sc_errorPending c = false → sc_unacked c = 0 →
  Forall (λ t, sc_timeSpan c ≤ t - sc_lastActive c) (ts ++ [t]) → #ts = sc_tryTimes c → sc_tryTimes c < 2 ^ 31 - 1 →
  ∃ c1 c2 sk1, handleEvents (UTimer <$> ts) c = Ok c1 ∧ sc_errorPending c1 = false ∧ talks c1 tm sk1 ∧
    sk_sent sk1 = sk_sent sk ++ mjoin (replicate (length ts) probe) ∧
    handleEvents (UTimer <$> ts ++ [t]) c = Ok c2 ∧ sc_errorPending c2 = true ∧ sc_timer c2 = None ∧ talks c2 tm sk1.
Proof.
  intros Htk Hiv He Hu Hts Hn Htr. apply Forall_app in Hts as [Hts Ht]. apply Forall_cons in Ht as [Ht _].
  destruct (timeouts_ok iv (sc_timeSpan c) (sc_lastActive c) (sc_tryTimes c) ts c tm sk)
    as (c1 & sk1 & E1 & Htk1 & Hiv1 & He1 & Hsp1 & Hl1 & Htr1 & Hu1 & Hs1); try done; [lia|lia|].
  destruct (timeout_ok t c1 tm sk1 iv) as (c2 & sk2 & E2 & Htk2 & _ & _ & _ & _ & Hcase); try done; [rewrite Hsp1, Hl1; exact Ht|lia|].
  rewrite (proj2 (Z.ltb_ge _ _)) in Hcase by lia. destruct Hcase as (He2 & Hiv2 & ->).
  exists c1, c2, sk1. rewrite fmap_app, handleEvents_app, E1, bind_Ok. unfold handleEvents. cbn [fmap list_fmap foreach].
  rewrite E2, bind_Ok. done.
Qed.

(** *** Giving up a topic *)

(** The broker's answer to a request to unsubscribe. *)
Definition gone_content (topic : str) : content := mkContent Msg_UnSubscribe_OK topic [] 0 0 0 [].

(** A topic that was given up stays in the set of those to give up: the request
    is sent again in the next turn, and its answer fails the assertion of
    [onUnSubScribeTopicOk]. *)
Lemma unsubscribing_aborts {al : Allocator} {ho : Host} {un : Uninit} topic t1 t2 c sk ds :
  sc_errorPending c = false → talks c None sk → fits (sc_id c) → sc_toSub c = ∅ → sc_toUnSub c = ∅ → fits topic → topic ≠ [] →
  topic ∈ sc_subscribed c → Forall arrives ds →
  sk_in sk = Data (frame_of (gone_content topic)) :: Data (frame_of (gone_content topic)) :: ds →
  ∃ c1, run_turn [UInput t1] (unSubscribeTopic topic c).2 = Ok c1 ∧ (topic ∉ sc_subscribed c1) ∧
    run_turn [UInput t2] c1 = Fault AssertFailed.
Proof.
  intros He Htk Hfi Hs Hu Hft Hne Hsub Hds Hin.
  assert (content_ok (gone_content topic)) as Hgc.
  { destruct Hft as [Ht Htl]. split_and!; [by split| |done|].
    - constructor; [done|]. constructor.
    - unfold body_of, content_items, len. cbn -[be_bytes]. rewrite !length_app, length_enc_string. cbn. lia. }
  unfold unSubscribeTopic. rewrite (bool_decide_eq_false_2 (topic ∈ sc_toSub c)) by (rewrite Hs; apply not_elem_of_empty).
  rewrite (bool_decide_eq_true_2 (topic ∈ sc_subscribed c)) by done. cbn [negb snd]. rewrite Hu, union_empty_r_L.
  set (c0 := with_topics _ _ _ c).
  assert (∀ t c sk ds, sc_errorPending c = false → talks c None sk → fits (sc_id c) → sc_toSub c = ∅ → sc_toUnSub c = {[topic]} →
    sk_in sk = Data (frame_of (gone_content topic)) :: ds → Forall arrives ds →
    ∃ m2 sk2, m_topic m2 = topic ∧ sk_in sk2 = ds ∧ sk_out sk2 = [] ∧
      run_turn [UInput t] c = onUnSubScribeTopicOk topic (with_handler (Some (mkCH None sk2)) (with_probes 0 t (at_time t c)))) as Hturn.
  { clear -Hgc Hft. intros t c sk ds He Htk Hfi Hs Hu Hin Hds. unfold run_turn. rewrite He.
    destruct (process_ok c None sk He Hfi) as (sk1 & -> & Ho1 & Hi1 & Hs1);
      [by rewrite Hs, set_iter_empty|by rewrite Hu, set_iter_singleton; constructor|done|]. rewrite bind_Ok.
    destruct (receive_now (gone_content topic) ds t sk1 (with_handler (Some (mkCH None sk1)) c))
      as (m2 & sk2 & (Hty & Htop & _) & Hi2 & [Ho2 _] & ->); [done|by rewrite Hi1|done|done|].
    exists m2, sk2. split_and!; [done|done|by rewrite Ho2|]. unfold onClientMessage. rewrite Hty, Htop. done. }
  destruct (Hturn t1 c0 sk (Data (frame_of (gone_content topic)) :: ds)) as (m2 & sk2 & _ & Hi2 & Ho2 & ->); try done.
  { constructor; [apply frame_flows|done]. }
  set (c1 := with_handler _ _). unfold onUnSubScribeTopicOk.
  rewrite (bool_decide_eq_false_2 (topic = [])), (bool_decide_eq_true_2 (topic ∈ sc_subscribed c1)) by done. cbn [negb assert_]. rewrite !bind_Ok.
  set (c2 := with_topics _ _ _ c1). exists c2. assert (topic ∉ sc_subscribed c2) as Hn by (change (topic ∉ sc_subscribed c ∖ {[topic]}); set_solver +).
  split_and!; [done|done|]. destruct (Hturn t2 c2 sk2 ds) as (m3 & sk3 & _ & _ & _ & ->); try done.
  unfold onUnSubScribeTopicOk. rewrite (bool_decide_eq_false_2 (topic = [])) by done. cbn [negb assert_]. rewrite bind_Ok.
  by rewrite (bool_decide_eq_false_2 (topic ∈ _)).
Qed.

(** ** Witnesses *)

(** A client without an id that asks for the topic "a". *)
Definition demo_subscriber (sk : socket) : SubscribeClient :=
  mkSC (Some (mkCH None sk)) ∅ {[ [97] ]} ∅ str_0 false true 0 0 3 10 (Some 10) 0 None [] [].

Lemma fits_a : fits [97].
Proof. split; [split; [repeat constructor; unfold is_byte; lia|cbn; lia]|cbn; lia]. Qed.
Lemma fits_0 : fits str_0.
Proof. split; [split; [repeat constructor; unfold is_byte; lia|cbn; lia]|cbn; lia]. Qed.
Lemma fits_1 : fits [49].
Proof. split; [split; [repeat constructor; unfold is_byte; lia|cbn; lia]|cbn; lia]. Qed.

Lemma demo_asking sk : sk_out sk = [] → asking [97] (demo_subscriber sk) sk.
Proof. intros Ho. split_and!; try done; [apply fits_a|apply fits_0]. Qed.

Definition demo_answer : list Z := @frame_of host_le (ok_content [97] [49] 3 10).

Definition answered_once : socket := mkSocket [Data demo_answer] [] [] [] 0.
Definition answered_twice : socket := mkSocket [Data demo_answer; Data demo_answer] [] [] [] 0.

Lemma subscription_established_witness :
  ∃ b' c', @sub_upcalls zero_memory host_le uninit_7 (demo_settings true) upwards
      (length (data_of (sk_in (sh_stream demo_client)))) 8 demo_connected = Ok (0, b') ∧
    @run_turn zero_memory host_le uninit_7 [UInput 5] (demo_subscriber answered_once) = Ok c' ∧
    sc_subscribed c' = {[ [97] ]} ∪ ∅ ∧ sc_file c' = Some [49].
Proof.
  assert (@inv (demo_settings true) demo_connected) as Hi by (apply connect_inv; [apply fresh_inv|done]).
  assert (@subscribable (demo_settings true) 8 [97] [48] demo_client demo_connected) as Hsub.
  { split; [done|]. intros _. split_and!; [done|intros _; vm_compute; split; congruence|by right]. }
  assert (data_of (sk_in (sh_stream demo_client)) = @request_for host_le Msg_Subscribe [48] [97] ++ []) as Hh by (vm_compute; reflexivity).
  assert (paced not_behind_header 0 (sk_in (sh_stream demo_client))) as Hp by (by repeat split).
  destruct (@subscription_established zero_memory host_le uninit_7 (demo_settings true) upwards [97]
    (demo_subscriber answered_once) answered_once 8 demo_client demo_connected [] 5 []
    (demo_asking answered_once eq_refl) Hi ltac:(done) ltac:(by vm_compute) eq_refl eq_refl eq_refl Hsub Hp Hh fits_1
    ltac:(split; cbn; lia) ltac:(split; cbn; lia) ltac:(constructor)) as (b' & s' & H1 & _ & _ & _ & H2 & H3).
  destruct H3 as (c' & sk' & H4 & _ & _ & H5 & _ & _ & _ & _ & _ & H6).
  - rewrite H2. reflexivity.
  - exists b', c'. split; [exact H1|]. split; [exact H4|]. split; [exact H5|]. apply H6; [discriminate|reflexivity].
Defined.

Lemma slow_answer_aborts_witness :
  ∃ c1 c2, @run_turn zero_memory host_le uninit_7 [] (demo_subscriber answered_twice) = Ok c1 ∧
    @run_turn zero_memory host_le uninit_7 [UInput 5] c1 = Ok c2 ∧ @run_turn zero_memory host_le uninit_7 [UInput 6] c2 = Fault AssertFailed.
Proof.
  destruct (@slow_answer_aborts zero_memory host_le uninit_7 [97] [49] [49] 3 10 5 6
    (demo_subscriber answered_twice) answered_twice []
    (demo_asking answered_twice eq_refl) fits_1 fits_1 ltac:(split; cbn; lia) ltac:(split; cbn; lia) ltac:(constructor) eq_refl)
    as (c1 & c2 & _ & _ & H1 & _ & _ & H2 & _ & _ & _ & H3).
  exists c1, c2. exact (conj H1 (conj H2 H3)).
Defined.

(** A client that has lost its connection; the second attempt succeeds. *)
Definition demo_lost : SubscribeClient :=
  mkSC None {[ [97] ]} ∅ ∅ [49] true true 4 0 3 10 None 100 (Some [49]) [None; Some (mkSocket [] [] [] [] 0)] [].

Lemma resubscribes_after_error_witness :
  ∃ c1 c2 sk', @run_turn zero_memory host_le uninit_7 [] demo_lost = Ok c1 ∧ sc_now c1 = 105 ∧
    @run_turn zero_memory host_le uninit_7 [] c1 = Ok c2 ∧ talks c2 None sk' ∧ sk_sent sk' = @request_for host_le Msg_Subscribe [49] [97].
Proof.
  assert (set_iter (sc_toSub demo_lost ∪ sc_subscribed demo_lost ∖ sc_toUnSub demo_lost) = [[97]]) as E by (vm_compute; reflexivity).
  assert (Forall fits (set_iter (sc_toSub demo_lost ∪ sc_subscribed demo_lost ∖ sc_toUnSub demo_lost))) as Hf
    by (rewrite E; constructor; [exact fits_a|constructor]).
  assert (set_iter (sc_toUnSub demo_lost) = []) as E' by (vm_compute; reflexivity).
  assert (Forall fits (set_iter (sc_toUnSub demo_lost))) as Hu by (rewrite E'; constructor).
  destruct (@resubscribes_after_error zero_memory host_le uninit_7 [] demo_lost 1 (mkSocket [] [] [] [] 0) []
    eq_refl (λ h (H : None = Some h), match H with end) eq_refl eq_refl fits_1 Hf Hu)
    as (c1 & c2 & sk' & H1 & _ & _ & _ & _ & _ & H2 & H3 & H4 & H5).
  exists c1, c2, sk'. split; [exact H1|]. split; [exact H2|]. split; [exact H3|]. split; [exact H4|].
  rewrite H5, E, E'. vm_compute. reflexivity.
Defined.

Lemma silent_peer_detected_witness :
  ∃ c2, @handleEvents zero_memory host_le uninit_7 (UTimer <$> [10; 20; 30; 40]) (demo_subscriber (mkSocket [] [] [] [] 0)) = Ok c2 ∧
    sc_errorPending c2 = true.
Proof.
  destruct (@silent_peer_detected zero_memory host_le uninit_7 [10; 20; 30] 40 (demo_subscriber (mkSocket [] [] [] [] 0)) None (mkSocket [] [] [] [] 0) 10
    ltac:(done) eq_refl eq_refl eq_refl ltac:(repeat constructor; cbn; lia) eq_refl ltac:(cbn; lia))
    as (c1 & c2 & sk1 & _ & _ & _ & _ & H1 & H2 & _).
  exists c2. exact (conj H1 H2).
Defined.
