(* ===== verification/PointToPoint.v ===== *)
(** * PointToPoint: events between two processes without a broker
      (msg/MsgClient.cpp, .h, msg/MsgServer.cpp, .h, msg/MsgAcceptorImpl.h,
      msg/MsgConnectorImpl.h, icc/Acceptor.cpp, icc/Connector.cpp)

    A client keeps one connection to a server and watches it with keep-alive
    probes; both sides publish events over it, and each hands the events of the
    other to its application.

    [MsgClient] is the object with the handler of its connection, the timer it
    keeps in the reactor, and what it shares with the world: the clock, the
    results of the next attempts to connect, the events and the notices handed
    to the application.  [MsgServer] has a handler for every connection it
    accepted, by address; [ms_handler] is the one it publishes to.  Memory that
    is not given back is not modelled. *)
From S2P Require Import Prelude CppLib Block OutputStream InputStream Marshalling Socket Framing MsgProtocol Receiver TopicManager PubSub Broker SubscribeClient.

Definition ERR_BADF : Z := 9.

(** ** The client *)

(** What the application is told. *)
Inductive notice :=
  | Established
  | ConnectionError.

Record MsgClient := mkMC {
  mc_handler : option ClientHandler;
  mc_errorPending : bool;
  mc_keepAliveEnabled : bool;
  mc_unacked : Z;
  mc_lastActive : Z;
  mc_tryTimes : Z;
  mc_timeSpan : Z;
  mc_interval : Z;
  mc_timer : option Z;
  mc_now : Z;
  mc_connects : list (option socket);
  mc_events : list InputStream;
  mc_notices : list notice }.

Definition mc_with_handler x c := mkMC x (mc_errorPending c) (mc_keepAliveEnabled c) (mc_unacked c) (mc_lastActive c) (mc_tryTimes c)
  (mc_timeSpan c) (mc_interval c) (mc_timer c) (mc_now c) (mc_connects c) (mc_events c) (mc_notices c).
Definition mc_with_error x c := mkMC (mc_handler c) x (mc_keepAliveEnabled c) (mc_unacked c) (mc_lastActive c) (mc_tryTimes c)
  (mc_timeSpan c) (mc_interval c) (mc_timer c) (mc_now c) (mc_connects c) (mc_events c) (mc_notices c).
Definition mc_with_timer on t c := mkMC (mc_handler c) (mc_errorPending c) on (mc_unacked c) (mc_lastActive c) (mc_tryTimes c)
  (mc_timeSpan c) (mc_interval c) t (mc_now c) (mc_connects c) (mc_events c) (mc_notices c).
Definition mc_with_probes n t c := mkMC (mc_handler c) (mc_errorPending c) (mc_keepAliveEnabled c) n t (mc_tryTimes c)
  (mc_timeSpan c) (mc_interval c) (mc_timer c) (mc_now c) (mc_connects c) (mc_events c) (mc_notices c).
Definition mc_with_interval n c := mkMC (mc_handler c) (mc_errorPending c) (mc_keepAliveEnabled c) (mc_unacked c) (mc_lastActive c) (mc_tryTimes c)
  (mc_timeSpan c) n (mc_timer c) (mc_now c) (mc_connects c) (mc_events c) (mc_notices c).
Definition mc_at_time t c := mkMC (mc_handler c) (mc_errorPending c) (mc_keepAliveEnabled c) (mc_unacked c) (mc_lastActive c) (mc_tryTimes c)
  (mc_timeSpan c) (mc_interval c) (mc_timer c) t (mc_connects c) (mc_events c) (mc_notices c).
Definition mc_with_connects x c := mkMC (mc_handler c) (mc_errorPending c) (mc_keepAliveEnabled c) (mc_unacked c) (mc_lastActive c) (mc_tryTimes c)
  (mc_timeSpan c) (mc_interval c) (mc_timer c) (mc_now c) x (mc_events c) (mc_notices c).
Definition mc_with_event x c := mkMC (mc_handler c) (mc_errorPending c) (mc_keepAliveEnabled c) (mc_unacked c) (mc_lastActive c) (mc_tryTimes c)
  (mc_timeSpan c) (mc_interval c) (mc_timer c) (mc_now c) (mc_connects c) (mc_events c ++ [x]) (mc_notices c).
Definition mc_with_notice x c := mkMC (mc_handler c) (mc_errorPending c) (mc_keepAliveEnabled c) (mc_unacked c) (mc_lastActive c) (mc_tryTimes c)
  (mc_timeSpan c) (mc_interval c) (mc_timer c) (mc_now c) (mc_connects c) (mc_events c) (mc_notices c ++ [x]).

(** The defaults of the static settings. *)
Definition keepAliveTryTimes_default : Z := 3.
Definition keepAliveTimeSpan_default : Z := 10.

Section client.

Context {al : Allocator} {ho : Host} {un : Uninit}.

Definition mc_the_handler (c : MsgClient) : result ClientHandler :=
  match mc_handler c with Some h => Ok h | None => Fault NullDeref end.

(** [~MsgClientHandler]. *)
Definition mc_delete_handler (c : MsgClient) : result MsgClient :=
  h ← mc_the_handler c;
  _ ← assert_ (bool_decide (ch_tmpMsg h = None));
  Ok (mc_with_handler None c).

(** What [handleInput] does with a complete message. *)
Definition onPeerMessage (m : Msg) (c : MsgClient) : MsgClient :=
  if m_type m =? Msg_KeepAlive_ACK then c
  else if m_type m =? Msg_Event then mc_with_event (m_is m) c
  else c.

(** [MsgClientHandler::handleInput]. *)
Definition mc_handleInput (c : MsgClient) : result (Z * MsgClient) :=
  let c := mc_with_probes 0 (mc_now c) c in
  h ← mc_the_handler c;
  let tmpMsg := match ch_tmpMsg h with None => Msg_new | Some m => m end in
  '(result, m, sk) ← parse tmpMsg (ch_stream h);
  if result =? -1 then Ok (-1, mc_with_handler (Some (mkCH None sk)) (mc_with_error true c))
  else if result =? 1 then Ok (0, mc_with_handler (Some (mkCH (Some m) sk)) c)
  else
    _ ← assert_ (result =? 0);
    Ok (0, onPeerMessage m (mc_with_handler (Some (mkCH None sk)) c)).

(** [publish (os)]: the result and the stream. *)
Definition mc_publish (os : OutputStream) (c : MsgClient) : result (Z * OutputStream * MsgClient) :=
  match mc_handler c with
  | None => Ok (-1, os, c)
  | Some h =>
      str ← toString os;
      _ ← check str;
      '(r, os, sk) ← send_msg os (ch_stream h);
      let c := mc_with_handler (Some (mkCH (ch_tmpMsg h) sk)) c in
      if r =? -1 then Ok (-1, os, c) else Ok (0, os, c)
  end.

(** [Connector::connect] with the hooks of [MsgConnectorImpl]: a handler on the
    new stream, which is registered for input and in blocking mode; a handler
    whose connection is refused is deleted. *)
Definition mc_connect (c : MsgClient) : result (Z * MsgClient) :=
  match mc_connects c with
  | [] => Fault OutOfFuel
  | Some sk :: rest => Ok (0, mc_with_handler (Some (mkCH None sk)) (mc_with_connects rest c))
  | None :: rest => Ok (-1, mc_with_handler None (mc_with_connects rest c))
  end.

(** [MsgClient (reactor)], with the memory of the other members. *)
Definition MsgClient_new (tries span now : Z) (connects : list (option socket)) : MsgClient :=
  mkMC None (negb (uninit =? 0)) (negb (uninit =? 0)) uninit 0 tries span uninit None now connects [] [].

(** [init (serverIp, port, reconnectInterval)]. *)
Definition mc_init (reconnectInterval : Z) (c : MsgClient) : result (bool * MsgClient) :=
  let c := mc_with_interval reconnectInterval c in
  let c := mc_with_error false (mc_with_timer false (mc_timer c) (mc_with_probes 0 (mc_lastActive c) c)) in
  '(r, c) ← mc_connect c;
  if r =? -1 then Ok (false, c) else Ok (true, c).

Definition mc_enableKeepAlive (c : MsgClient) : bool * MsgClient :=
  if mc_keepAliveEnabled c then (true, c) else (true, mc_with_timer true (Some (mc_timeSpan c)) c).

Definition mc_disableKeepAlive (c : MsgClient) : bool * MsgClient := (true, mc_with_timer false None c).

Definition mc_sendKeepAliveProbe (c : MsgClient) : result (bool * MsgClient) :=
  match mc_handler c with
  | None => Ok (false, c)
  | Some h =>
      if mc_now c - mc_lastActive c <? mc_timeSpan c then Ok (true, c) else
      let c := mc_with_probes (s32 (mc_unacked c + 1)) (mc_lastActive c) c in
      if mc_unacked c >? mc_tryTimes c then Ok (false, c) else
      '(r, sk) ← answer_with Msg_KeepAlive_Probe [IString str_keepAlive] (ch_stream h);
      let c := mc_with_handler (Some (mkCH (ch_tmpMsg h) sk)) c in
      if r =? -1 then Ok (false, c) else Ok (true, c)
  end.

(** [KeepAlive_Timeout_Handler::handleTimeout]. *)
Definition mc_handleTimeout (c : MsgClient) : result (Z * MsgClient) :=
  '(ok, c) ← mc_sendKeepAliveProbe c;
  if negb ok then Ok (-1, mc_with_error true c) else Ok (0, c).

Definition mc_onConnOk (c : MsgClient) : result MsgClient :=
  _ ← assert_ (negb (mc_errorPending c));
  Ok (mc_with_notice Established (mc_enableKeepAlive c).2).

Definition mc_onConnError (c : MsgClient) : result MsgClient :=
  _ ← assert_ (mc_errorPending c);
  Ok (mc_with_notice ConnectionError (mc_disableKeepAlive c).2).

(** The loop of [reestablishConnection]: [reconnectInterval] seconds between
    two attempts. *)
Fixpoint mc_try_connect (attempts : list (option socket)) (c : MsgClient) : result MsgClient :=
  match attempts with
  | [] => Fault OutOfFuel
  | _ :: attempts =>
      '(r, c) ← mc_connect c;
      if r =? 0 then _ ← assert_ (bool_decide (is_Some (mc_handler c))); Ok c
      else mc_try_connect attempts (mc_at_time (mc_now c + mc_interval c) c)
  end.

(** [removeHandler] closes a registered handler, which deletes it. *)
Definition mc_reestablishConnection (c : MsgClient) : result (bool * MsgClient) :=
  let c := mc_with_probes 0 (mc_lastActive c) (mc_with_error false c) in
  c ← (match mc_handler c with Some _ => mc_delete_handler c | None => Ok c end);
  c ← mc_try_connect (mc_connects c) c;
  Ok (true, c).

(** One upcall of the reactor; a handler that fails is closed and deleted. *)
Definition mc_upcall (u : upcall) (c : MsgClient) : result MsgClient :=
  match u with
  | UTimer t =>
      let c := mc_at_time t c in
      match mc_timer c with
      | None => Ok c
      | Some _ =>
          '(r, c) ← mc_handleTimeout c;
          Ok (if r =? -1 then mc_with_timer (mc_keepAliveEnabled c) None c else c)
      end
  | UInput t =>
      let c := mc_at_time t c in
      match mc_handler c with
      | None => Ok c
      | Some _ => '(r, c) ← mc_handleInput c; if r <? 0 then mc_delete_handler c else Ok c
      end
  end.

(** A turn of [svc]: the upcalls of one call of [handleEvents], or, after an
    error, a new connection. *)
Definition mc_turn (us : list upcall) (c : MsgClient) : result MsgClient :=
  if mc_errorPending c then
    c ← mc_onConnError c;
    '(_, c) ← mc_reestablishConnection c;
    mc_onConnOk c
  else foreach mc_upcall us c.

Definition mc_svc (turns : list (list upcall)) (c : MsgClient) : result MsgClient :=
  c ← mc_onConnOk c; foreach mc_turn turns c.

End client.

(** ** The server *)

(** A [MsgServerHandler]; [sv_open] says that its stream has a connection and
    that it is registered with the reactor. *)
Record ServerHandler := mkSH { sv_msg : option Msg; sv_stream : socket; sv_open : bool }.

Record MsgServer := mkMS {
  ms_handlers : gmap Z ServerHandler;
  ms_handler : Z;
  ms_events : list InputStream;
  ms_lost : nat }.

Definition put_handler (p : Z) (h : ServerHandler) (s : MsgServer) : MsgServer :=
  mkMS (<[p := h]> (ms_handlers s)) (ms_handler s) (ms_events s) (ms_lost s).
Definition setHandler (p : Z) (s : MsgServer) : MsgServer := mkMS (ms_handlers s) p (ms_events s) (ms_lost s).
Definition ms_with_event (x : InputStream) (s : MsgServer) : MsgServer :=
  mkMS (ms_handlers s) (ms_handler s) (ms_events s ++ [x]) (ms_lost s).

(** What an upcall of the acceptor meets. *)
Inductive arrival :=
  | Arrives (sk : socket)
  | AcceptFails.

Section server.

Context {al : Allocator} {ho : Host} {un : Uninit} {hp : Heap}.

(** [MsgServer (reactor)]. *)
Definition MsgServer_new : MsgServer := mkMS ∅ 0 [] 0.

(** The stream of a handler; without a connection it has the descriptor -1. *)
Definition sv_socket (h : ServerHandler) : socket :=
  if sv_open h then sv_stream h else mkSocket [Fails ERR_BADF] [] [Rejects ERR_BADF] (sk_sent (sv_stream h)) 0.

(** [MsgAcceptorImpl::makeSvcHandler]: the new handler is the one the server
    publishes to from now on. *)
Definition makeSvcHandler (s : MsgServer) : Z * MsgServer :=
  let p := new_addr (dom (ms_handlers s)) in
  (p, setHandler p (put_handler p (mkSH None (mkSocket [] [] [] [] 0) false) s)).

(** [Acceptor::handleInput]: [close (0)] of a handler without a connection does
    nothing.  Switching the stream of a new connection to non-blocking mode and
    registering its handler succeed; [open] switches back to blocking mode. *)
Definition acceptor_handleInput (a : arrival) (s : MsgServer) : result (Z * MsgServer) :=
  let '(p, s) := makeSvcHandler s in
  match a with
  | AcceptFails => Ok (0, s)
  | Arrives sk => Ok (0, put_handler p (mkSH None sk true) s)
  end.

(** What [handleInput] does with a complete message of the handler at [p]: a
    probe is answered, an event is handed to the application, any other message
    stays where it is. *)
Definition onServerMessage (p : Z) (m : Msg) (sk : socket) (s : MsgServer) : result MsgServer :=
  if m_type m =? Msg_KeepAlive_Probe then
    '(_, sk) ← answer_with Msg_KeepAlive_ACK [IString str_keepAlive] sk;
    Ok (put_handler p (mkSH None sk true) s)
  else if m_type m =? Msg_Event then
    '(_, _, _) ← read_string (InputStream_copy (m_is m));
    Ok (put_handler p (mkSH None sk true) (ms_with_event (m_is m) s))
  else Ok (put_handler p (mkSH (Some m) sk true) s).

(** [MsgServerHandler::handleInput]. *)
Definition ms_handleInput (p : Z) (s : MsgServer) : result (Z * MsgServer) :=
  h ← deref p (ms_handlers s);
  let m0 := match sv_msg h with None => Msg_new | Some m => m end in
  '(result, m, sk) ← parse m0 (sv_socket h);
  if result =? -1 then Ok (-1, put_handler p (mkSH None sk true) s)
  else if result =? 1 then Ok (0, put_handler p (mkSH (Some m) sk true) s)
  else
    _ ← assert_ (result =? 0);
    s ← onServerMessage p m sk s;
    Ok (result, s).

(** [handleClose] and [~MsgServerHandler]. *)
Definition ms_handleClose (p : Z) (s : MsgServer) : result MsgServer :=
  let s := setHandler 0 s in
  h ← deref p (ms_handlers s);
  _ ← assert_ (bool_decide (sv_msg h = None));
  Ok (mkMS (delete p (ms_handlers s)) (ms_handler s) (ms_events s) (S (ms_lost s))).

(** [publish (os)]: the error of [send] is not returned. *)
Definition ms_publish (os : OutputStream) (s : MsgServer) : result (Z * OutputStream * MsgServer) :=
  str ← toString os;
  _ ← check str;
  h ← deref (ms_handler s) (ms_handlers s);
  '(r, os, sk) ← send_msg os (sv_socket h);
  Ok (0, os, if sv_open h then put_handler (ms_handler s) (mkSH (sv_msg h) sk true) s else s).

(** One upcall for the acceptor or for a registered handler. *)
Inductive server_upcall :=
  | SAccept (a : arrival)
  | SInput (p : Z).

Definition ms_upcall (u : server_upcall) (s : MsgServer) : result MsgServer :=
  match u with
  | SAccept a => '(_, s) ← acceptor_handleInput a s; Ok s
  | SInput p =>
      match ms_handlers s !! p with
      | Some (mkSH _ _ true) => '(r, s) ← ms_handleInput p s; if r <? 0 then ms_handleClose p s else Ok s
      | _ => Ok s
      end
  end.

(** [svc]. *)
Definition ms_svc (us : list server_upcall) (s : MsgServer) : result MsgServer := foreach ms_upcall us s.

End server.

(** ** Lemmas *)

Section lemmas.

Context {al : Allocator} {ho : Host} {un : Uninit} {hp : Heap}.

(** The handlers of both sides are [Receiver]s. *)
Program Definition mc_receiver (t : Z) : Receiver MsgClient := {|
  rv_upcall := mc_upcall (UInput t);
  rv_has tm sk c := mc_handler c = Some (mkCH tm sk);
  rv_put tm sk c := mc_with_handler (Some (mkCH tm sk)) (mc_with_probes 0 t (mc_at_time t c));
  rv_finish m sk c := Ok (onPeerMessage m (mc_with_handler (Some (mkCH None sk)) (mc_with_probes 0 t (mc_at_time t c)))) |}.
Next Obligation. done. Qed.
Next Obligation. done. Qed.
Next Obligation.
  intros t tm sk c m sk' Hh Hp. cbn [mc_upcall]. unfold mc_handleInput, mc_the_handler.
  cbn [mc_at_time mc_with_probes mc_handler mc_now]. rewrite Hh, bind_Ok. cbn [ch_tmpMsg ch_stream].
  change (match tm with None => Msg_new | Some m => m end) with (default Msg_new tm). by rewrite Hp.
Qed.
Next Obligation.
  intros t tm sk c m sk' Hh Hp. cbn [mc_upcall]. unfold mc_handleInput, mc_the_handler.
  cbn [mc_at_time mc_with_probes mc_handler mc_now]. rewrite Hh, bind_Ok. cbn [ch_tmpMsg ch_stream].
  change (match tm with None => Msg_new | Some m => m end) with (default Msg_new tm). by rewrite Hp.
Qed.

Lemma put_handler_put p h h' s : put_handler p h (put_handler p h' s) = put_handler p h s.
Proof. unfold put_handler. cbn. by rewrite insert_insert_eq. Qed.

Program Definition ms_receiver (p : Z) : Receiver MsgServer := {|
  rv_upcall := ms_upcall (SInput p);
  rv_has tm sk s := p ≠ 0 ∧ ms_handlers s !! p = Some (mkSH tm sk true);
  rv_put tm sk s := put_handler p (mkSH tm sk true) s;
  rv_finish m sk s := onServerMessage p m sk s |}.
Next Obligation. intros p tm sk s tm' sk' [Hp _]. split; [done|]. apply lookup_insert_eq. Qed.
Next Obligation.
  intros p m sk s tm' sk'. unfold onServerMessage. destruct (m_type m =? Msg_KeepAlive_Probe).
  - destruct (answer_with _ _ _) as [[? ?]|]; [|done]. by rewrite !bind_Ok, put_handler_put.
  - destruct (m_type m =? Msg_Event); [|by rewrite put_handler_put].
    destruct (read_string _) as [[[? ?] ?]|]; [|done]. rewrite !bind_Ok.
    change (ms_with_event ?x (put_handler p ?h s)) with (put_handler p h (ms_with_event x s)). by rewrite put_handler_put.
Qed.
Next Obligation.
  intros p tm sk s m sk' [Hp Hh] Hpar. cbn [ms_upcall]. rewrite Hh. unfold ms_handleInput, deref.
  rewrite (proj2 (Z.eqb_neq p 0)), Hh, bind_Ok by done. cbn [sv_msg sv_socket sv_open sv_stream].
  change (match tm with None => Msg_new | Some m => m end) with (default Msg_new tm). by rewrite Hpar.
Qed.
Next Obligation.
  intros p tm sk s m sk' [Hp Hh] Hpar. cbn [ms_upcall]. rewrite Hh. unfold ms_handleInput, deref.
  rewrite (proj2 (Z.eqb_neq p 0)), Hh, bind_Ok by done. cbn [sv_msg sv_socket sv_open sv_stream].
  change (match tm with None => Msg_new | Some m => m end) with (default Msg_new tm). rewrite Hpar, bind_Ok.
  cbn [Z.eqb assert_]. rewrite bind_Ok. destruct (onServerMessage p m sk' s); [by rewrite !bind_Ok|done].
Qed.

(** *** What the messages do *)

(** An event as the applications write it: a topic, the name of its type and
    the fields. *)
Definition is_event (ct : content) : Prop :=
  c_type ct = Msg_Event ∧ ∃ ty fields, string_ok ty ∧ c_payload ct = enc_string ty ++ fields.

Definition keep_alive (ty : Z) : content := mkContent ty str_keepAlive [] 0 0 0 [].

Lemma keep_alive_frame ty : has_subscriber ty = false → (ty =? Msg_Subscribe_OK) = false → (ty =? Msg_Publish_OK) = false →
  frame_of (keep_alive ty) = frame ty (mjoin (encode <$> [IString str_keepAlive])).
Proof. intros H1 H2 H3. unfold frame_of, body_of, content_items, keep_alive. cbn [c_type c_topic c_payload]. rewrite H1, H2, H3. cbn [app orb]. by rewrite !app_nil_r. Qed.

Lemma frames_one ct : mjoin (frame_of <$> [ct]) = frame_of ct.
Proof. apply app_nil_r. Qed.

Lemma keep_alive_ok ty : ty = Msg_KeepAlive_Probe ∨ ty = Msg_KeepAlive_ACK → content_ok (keep_alive ty).
Proof. intros [-> | ->]; (split_and!; [split; by compute| |done|by vm_compute]; constructor; [|constructor]; split; [|by vm_compute]); repeat constructor; vm_compute; congruence. Qed.

Definition ack : list Z := frame Msg_KeepAlive_ACK (mjoin (encode <$> [IString str_keepAlive])).
Definition alive_probe : list Z := frame Msg_KeepAlive_Probe (mjoin (encode <$> [IString str_keepAlive])).

Lemma keep_alive_answered ty sk :
  in_u 8 ty → ty ≠ Msg_Event → sk_out sk = [] →
  ∃ sk', answer_with ty [IString str_keepAlive] sk = Ok (0, sk') ∧
    sk_sent sk' = sk_sent sk ++ frame ty (mjoin (encode <$> [IString str_keepAlive])) ∧ sk_in sk' = sk_in sk ∧ sk_out sk' = [].
Proof.
  intros Hty Hne Ho. destruct (answer_with_ok ty [IString str_keepAlive] sk) as (sk' & E & Hs); try done.
  { constructor; [|done]. split; [repeat constructor; unfold is_byte; lia|]. cbn. lia. }
  destruct (answer_with_keeps _ _ _ _ _ E) as [Hi Hk]. exists sk'. auto.
Qed.

(** What the handler at [p] has sent. *)
Definition sent_by (p : Z) (s : MsgServer) : list Z :=
  match ms_handlers s !! p with Some h => sk_sent (sv_stream h) | None => [] end.

(** The server has taken one message of the connection at [p]: an event is
    handed to the application, its fields next to be read, a probe is
    answered; nothing else changes. *)
Definition served (p : Z) (ct : content) (s s' : MsgServer) : Prop :=
  ms_handler s' = ms_handler s ∧ ms_lost s' = ms_lost s ∧ (∀ q, q ≠ p → ms_handlers s' !! q = ms_handlers s !! q) ∧
  (if c_type ct =? Msg_Event
   then ∃ m, received ct m ∧ ms_events s' = ms_events s ++ [m_is m] ∧ sent_by p s' = sent_by p s
   else ms_events s' = ms_events s ∧ sent_by p s' = sent_by p s ++ ack).

Lemma event_finishes p ct m sk0 sk s :
  is_event ct → received ct m → rv_has (Receiver := ms_receiver p) None sk0 s → same_output sk0 sk → sk_out sk0 = [] →
  ∃ s', onServerMessage p m sk s = Ok s' ∧ served p ct s s' ∧ rv_has (Receiver := ms_receiver p) None sk s'.
Proof.
  intros (Hty & ty & fields & Hsok & Hpay) Hm [Hp Hh] [_ Hso] Ho. pose proof Hm as (Hmt & _ & _ & _ & _ & Hok & more & Hav).
  rewrite Hpay, <- app_assoc in Hav.
  assert (is_ok_in (InputStream_copy (m_is m)) ∧ avail (InputStream_copy (m_is m)) = enc_string ty ++ fields ++ more) as [Hok' Hav'].
  { split; [|exact Hav]. destruct Hok as (Hr & _ & _). by split. }
  destruct (read_string_consumes ty Hsok _ _ Hok' Hav') as (s2 & Hr & _).
  unfold onServerMessage. rewrite Hmt, Hty. change (Msg_Event =? Msg_KeepAlive_Probe) with false. change (Msg_Event =? Msg_Event) with true.
  cbv iota. rewrite Hr, bind_Ok. eexists. split; [reflexivity|]. split; [|split; [done|apply lookup_insert_eq]].
  split_and!; try done.
  - intros q Hq. cbn. by rewrite lookup_insert_ne.
  - rewrite Hty. change (Msg_Event =? Msg_Event) with true. cbv iota. exists m. split_and!; try done.
    unfold sent_by. cbn. by rewrite lookup_insert_eq, Hh.
Qed.

Lemma probe_finishes p m sk0 sk s :
  received (keep_alive Msg_KeepAlive_Probe) m → rv_has (Receiver := ms_receiver p) None sk0 s → same_output sk0 sk → sk_out sk0 = [] →
  ∃ s' sk', onServerMessage p m sk s = Ok s' ∧ served p (keep_alive Msg_KeepAlive_Probe) s s' ∧
    rv_has (Receiver := ms_receiver p) None sk' s' ∧ sk_in sk' = sk_in sk ∧ sk_out sk' = [].
Proof.
  intros (Hmt & _) [Hp Hh] [Hso1 Hso2] Ho. unfold onServerMessage. rewrite Hmt. cbn [c_type keep_alive]. rewrite Z.eqb_refl.
  destruct (keep_alive_answered Msg_KeepAlive_ACK sk) as (sk' & -> & Hs & Hi & Ho'); [split; by compute|done|congruence|].
  rewrite bind_Ok. eexists _, sk'. split; [reflexivity|]. split; [|split; [split; [done|apply lookup_insert_eq]|done]].
  split_and!; try done.
  - intros q Hq. cbn. by rewrite lookup_insert_ne.
  - cbn [c_type keep_alive]. change (Msg_KeepAlive_Probe =? Msg_Event) with false. cbv iota. split; [done|].
    unfold sent_by. cbn. rewrite lookup_insert_eq, Hh. cbn. by rewrite Hs, Hso2.
Qed.

(** Messages of the client, in any pieces. *)
Lemma server_takes p cs rest h s :
  p ≠ 0 → ms_handlers s !! p = Some h → sv_msg h = None → sv_open h = true → sk_out (sv_stream h) = [] →
  Forall content_ok cs → Forall (λ ct, is_event ct ∨ ct = keep_alive Msg_KeepAlive_Probe) cs →
  hears (sv_stream h) (mjoin (frame_of <$> cs) ++ rest) →
  ∃ n s' sk', upcalls (H2 := ms_receiver p) n s = Ok s' ∧ each (served p) cs s s' ∧
    ms_handlers s' !! p = Some (mkSH None sk' true) ∧ hears sk' rest ∧ sk_out sk' = [].
Proof.
  intros Hp Hh Hm Hopen Ho Hcs Hev Hhears. destruct h as [? sk ?]. cbn in *. subst.
  destruct (receive_all (H2 := ms_receiver p) (served p) (λ sk, sk_out sk = []) cs) with (sk := sk) (rest := rest) (s := s)
    as (n & s' & sk' & ? & ? & [_ ?] & ? & ?); try done; [|by exists n, s', sk'].
  intros ct m sk0 sk1 s1 Hct Hm Hhas Hso Hout. rewrite Forall_forall in Hev. destruct (Hev ct Hct) as [He| ->].
  - destruct (event_finishes p ct m sk0 sk1 s1) as (s2 & ? & ? & ?); try done. exists s2, sk1. split_and!; try done.
    destruct Hso as [-> _]. done.
  - destruct (probe_finishes p m sk0 sk1 s1) as (s2 & sk2 & ? & ? & ? & ? & ?); try done. by exists s2, sk2.
Qed.

(** The client takes a message: an event is handed to the application. *)
Definition peer_took (t : Z) (ct : content) (c c' : MsgClient) : Prop :=
  mc_errorPending c' = mc_errorPending c ∧ mc_timer c' = mc_timer c ∧ mc_unacked c' = 0 ∧ mc_lastActive c' = t ∧
  mc_tryTimes c' = mc_tryTimes c ∧ mc_timeSpan c' = mc_timeSpan c ∧ mc_notices c' = mc_notices c ∧
  if c_type ct =? Msg_Event then ∃ m, received ct m ∧ mc_events c' = mc_events c ++ [m_is m] else mc_events c' = mc_events c.

Lemma client_takes t cs rest sk c :
  mc_handler c = Some (mkCH None sk) → sk_out sk = [] → Forall content_ok cs →
  Forall (λ ct, c_type ct = Msg_Event ∨ ct = keep_alive Msg_KeepAlive_ACK) cs → hears sk (mjoin (frame_of <$> cs) ++ rest) →
  ∃ n c' sk', upcalls (H2 := mc_receiver t) n c = Ok c' ∧ each (peer_took t) cs c c' ∧
    mc_handler c' = Some (mkCH None sk') ∧ hears sk' rest ∧ sk_out sk' = [] ∧ sk_sent sk' = sk_sent sk.
Proof.
  intros Hh Ho Hcs Hev Hhears.
  destruct (receive_all (H2 := mc_receiver t) (peer_took t) (λ sk', sk_out sk' = [] ∧ sk_sent sk' = sk_sent sk) cs) with (sk := sk) (rest := rest) (s := c)
    as (n & c' & sk' & ? & ? & ? & ? & ? & ?); try done; [|by exists n, c', sk'].
  intros ct m sk0 sk1 c1 Hct Hm Hhas [Hso1 Hso2] [Ho1 Hs1]. rewrite Forall_forall in Hev. pose proof Hm as (Hty & _).
  eexists _, sk1. split; [reflexivity|]. unfold onPeerMessage. rewrite Hty.
  destruct (Hev ct Hct) as [He| ->].
  - rewrite He. change (Msg_Event =? Msg_KeepAlive_ACK) with false. change (Msg_Event =? Msg_Event) with true. cbv iota.
    split_and!; try done; try congruence. unfold peer_took. rewrite He. change (Msg_Event =? Msg_Event) with true. split_and!; try done. by exists m.
  - cbn [c_type keep_alive]. rewrite Z.eqb_refl. split_and!; try done; congruence.
Qed.

End lemmas.

(** ** Publishing *)

Section publishing.

Context {al : Allocator} {ho : Host} {un : Uninit} {hp : Heap}.

(** One stream after the other: the results. *)
Fixpoint publish_each {S} (publish : OutputStream → S → result (Z * OutputStream * S)) (oss : list OutputStream) (s : S)
  : result (list Z * S) :=
  match oss with
  | [] => Ok ([], s)
  | os :: oss => '(r, _, s) ← publish os s; '(rs, s) ← publish_each publish oss s; Ok (r :: rs, s)
  end.

(** Two states that differ in the stream of the client's handler. *)
Lemma mc_publish_ok c os ct tm sk :
  composed ct os → mc_handler c = Some (mkCH tm sk) → sk_out sk = [] →
  ∃ os' sk', mc_publish os c = Ok (0, os', mc_with_handler (Some (mkCH tm sk')) c) ∧
    sk_sent sk' = sk_sent sk ++ frame_of ct ∧ sk_in sk' = sk_in sk ∧ sk_out sk' = [].
Proof.
  intros Hct Hh Ho. destruct (checks_composed ct os sk Hct Ho) as (str & Hs & Hch).
  destruct (send_composed ct os sk Hct Ho) as (os' & sk' & Hsend & ? & ? & ?). exists os', sk'.
  unfold mc_publish. rewrite Hh, Hs, bind_Ok, Hch, bind_Ok. cbn [ch_stream ch_tmpMsg]. rewrite Hsend, bind_Ok. done.
Qed.

Lemma mc_publish_all cs : ∀ oss c tm sk,
  Forall2 composed cs oss → mc_handler c = Some (mkCH tm sk) → sk_out sk = [] →
  ∃ sk', publish_each mc_publish oss c = Ok (replicate (length oss) 0, mc_with_handler (Some (mkCH tm sk')) c) ∧
    sk_sent sk' = sk_sent sk ++ mjoin (frame_of <$> cs) ∧ sk_in sk' = sk_in sk ∧ sk_out sk' = [].
Proof.
  induction cs as [|ct cs IH]; intros oss c tm sk Hcs Hh Ho.
  - apply Forall2_nil_inv_l in Hcs as ->. exists sk. cbn. rewrite app_nil_r, <- Hh. split_and!; try done. by destruct c.
  - apply Forall2_cons_inv_l in Hcs as (os & oss' & Hct & Hcs & ->).
    destruct (mc_publish_ok c os ct tm sk Hct Hh Ho) as (os' & sk1 & Hp & Hs1 & Hi1 & Ho1).
    destruct (IH oss' (mc_with_handler (Some (mkCH tm sk1)) c) tm sk1 Hcs eq_refl Ho1) as (sk2 & E & Hs2 & Hi2 & Ho2).
    exists sk2. cbn [publish_each]. rewrite Hp, bind_Ok, E, bind_Ok. split_and!; [done| |congruence|done].
    rewrite Hs2, Hs1, fmap_cons, mjoin_cons, app_assoc. done.
Qed.

Lemma ms_publish_all cs : ∀ oss p tm sk s,
  Forall2 composed cs oss → p ≠ 0 → ms_handler s = p → ms_handlers s !! p = Some (mkSH tm sk true) → sk_out sk = [] →
  ∃ s' sk', publish_each ms_publish oss s = Ok (replicate (length oss) 0, s') ∧
    ms_handler s' = p ∧ ms_handlers s' !! p = Some (mkSH tm sk' true) ∧ ms_events s' = ms_events s ∧
    sk_sent sk' = sk_sent sk ++ mjoin (frame_of <$> cs) ∧ sk_in sk' = sk_in sk ∧ sk_out sk' = [].
Proof.
  induction cs as [|ct cs IH]; intros oss p tm sk s Hcs Hp Hph Hh Ho.
  - apply Forall2_nil_inv_l in Hcs as ->. exists s, sk. cbn. rewrite app_nil_r. done.
  - apply Forall2_cons_inv_l in Hcs as (os & oss' & Hct & Hcs & ->).
    destruct (checks_composed ct os sk Hct Ho) as (str & Hstr & Hch).
    destruct (send_composed ct os sk Hct Ho) as (os' & sk1 & Hsend & Hs1 & Hi1 & Ho1).
    set (s1 := put_handler p (mkSH tm sk1 true) s).
    assert (ms_publish os s = Ok (0, os', s1)) as Hpub.
    { unfold ms_publish, deref. rewrite Hstr, bind_Ok, Hch, bind_Ok, Hph, (proj2 (Z.eqb_neq p 0)), Hh, bind_Ok by done.
      unfold sv_socket. cbn [sv_open sv_stream sv_msg]. rewrite Hsend, bind_Ok. done. }
    destruct (IH oss' p tm sk1 s1 Hcs Hp Hph) as (s2 & sk2 & E & Hph2 & Hh2 & He2 & Hs2 & Hi2 & Ho2); [apply lookup_insert_eq|done|].
    exists s2, sk2. cbn [publish_each]. rewrite Hpub, bind_Ok, E, bind_Ok. split_and!; try done; [|congruence].
    rewrite Hs2, Hs1, fmap_cons, mjoin_cons, app_assoc. done.
Qed.

End publishing.

(** ** Properties *)

(** C10: events cross the connection in both directions.  A connected client
    publishes any number of events: every [publish] returns 0; and when the
    bytes it sent come to a server, in any pieces, some upcalls of the
    connection hand these events to the server's application, once, in their
    order, each with its fields next to be read.  What a server publishes in
    turn comes to the client's application in the same way; nothing is marked
    as an error on either side. *)
Theorem events_cross {al : Allocator} {ho : Host} {un : Uninit} {hp : Heap} cs oss cs' oss' c sk s p h rest rest' t :
  Forall2 composed cs oss → Forall is_event cs → Forall2 composed cs' oss' → Forall is_event cs' →
  mc_handler c = Some (mkCH None sk) → sk_out sk = [] →
  p ≠ 0 → ms_handler s = p → ms_handlers s !! p = Some h → sv_msg h = None → sv_open h = true → sk_out (sv_stream h) = [] →
  sk_sent sk = [] → sk_sent (sv_stream h) = [] →
  ∃ c1 sk1, publish_each mc_publish oss c = Ok (replicate (length oss) 0, c1) ∧ mc_handler c1 = Some (mkCH None sk1) ∧
    (hears (sv_stream h) (sk_sent sk1 ++ rest) →
     ∃ n s1 s2, upcalls (H2 := ms_receiver p) n s = Ok s1 ∧ each (served p) cs s s1 ∧
       publish_each ms_publish oss' s1 = Ok (replicate (length oss') 0, s2) ∧
       (hears sk1 (sent_by p s2 ++ rest') →
        ∃ n' c2, upcalls (H2 := mc_receiver t) n' c1 = Ok c2 ∧ each (peer_took t) cs' c1 c2)).
Proof.
  intros Hcs Hev Hcs' Hev' Hc Ho Hp Hph Hh Hm Hopen Hos Hsk Hsh.
  assert (∀ cs oss, Forall2 composed cs oss → Forall content_ok cs) as Hok.
  { clear. intros cs oss Hcs. induction Hcs as [|ct os cs oss (? & _ & ? & _) _ IH]; by constructor. }
  destruct (mc_publish_all cs oss c None sk Hcs Hc Ho) as (sk1 & E1 & Hs1 & Hi1 & Ho1).
  exists (mc_with_handler (Some (mkCH None sk1)) c), sk1. split; [exact E1|]. split; [done|].
  rewrite Hs1, Hsk, app_nil_l. intros Hhears.
  destruct (server_takes p cs rest h s) as (n & s1 & sks & Hup & Heach & Hh1 & Hhs & Hos1); try done; [by eapply Hok|by eapply Forall_impl; [exact Hev|left]|].
  assert (∀ cs s s1, Forall is_event cs → each (served p) cs s s1 → ms_handler s1 = ms_handler s ∧ sent_by p s1 = sent_by p s) as Hkeep.
  { clear. induction cs as [|ct cs IH]; intros s s1 Hev Heach; [by destruct Heach|]. apply Forall_cons in Hev as [[Hty _] Hev].
    destruct Heach as (s2 & (Hhd & _ & _ & Hserved) & Heach). rewrite Hty in Hserved. change (Msg_Event =? Msg_Event) with true in Hserved.
    destruct Hserved as (? & _ & _ & Hsent). destruct (IH s2 s1 Hev Heach). split; congruence. }
  destruct (Hkeep cs s s1 Hev Heach) as [Hph1 Hsent1]. assert (sk_sent sks = []) as Hsks.
  { unfold sent_by in Hsent1. rewrite Hh1, Hh in Hsent1. cbn in Hsent1. congruence. }
  destruct (ms_publish_all cs' oss' p None sks s1 Hcs' Hp) as (s2 & sk2 & E2 & Hph2 & Hh2 & He2 & Hs2 & Hi2 & Ho2); try done; [congruence|].
  exists n, s1, s2. split; [done|]. split; [done|]. split; [exact E2|]. unfold sent_by. rewrite Hh2. cbn [sv_stream]. rewrite Hs2, Hsks, app_nil_l. intros Hhears'.
  destruct (client_takes t cs' rest' sk1 (mc_with_handler (Some (mkCH None sk1)) c)) as (n' & c2 & _ & Hup' & Heach' & _); try done; [by eapply Hok| |].
  { eapply Forall_impl; [exact Hev'|]. intros ct [? _]. by left. }
  by exists n', c2.
Qed.

Section keep_alive.

Context {al : Allocator} {ho : Host} {un : Uninit} {hp : Heap}.

(** One time-out of a peer that has been silent for the time span. *)
Lemma mc_timeout_ok t c tm sk iv :
  mc_handler c = Some (mkCH tm sk) → sk_out sk = [] → mc_timer c = Some iv → mc_timeSpan c ≤ t - mc_lastActive c →
  0 ≤ mc_unacked c < 2 ^ 31 - 1 →
  ∃ c' sk', mc_upcall (UTimer t) c = Ok c' ∧ mc_handler c' = Some (mkCH tm sk') ∧ sk_out sk' = [] ∧ sk_in sk' = sk_in sk ∧
    mc_lastActive c' = mc_lastActive c ∧ mc_tryTimes c' = mc_tryTimes c ∧ mc_timeSpan c' = mc_timeSpan c ∧
    mc_unacked c' = mc_unacked c + 1 ∧ mc_now c' = t ∧ mc_interval c' = mc_interval c ∧ mc_connects c' = mc_connects c ∧
    mc_events c' = mc_events c ∧ mc_notices c' = mc_notices c ∧
    if mc_unacked c <? mc_tryTimes c
    then mc_errorPending c' = mc_errorPending c ∧ mc_timer c' = Some iv ∧ sk_sent sk' = sk_sent sk ++ alive_probe
    else mc_errorPending c' = true ∧ mc_timer c' = None ∧ sk' = sk.
Proof.
  intros Hh Ho Hiv Ht Hu. cbn [mc_upcall]. cbv zeta. change (mc_timer (mc_at_time t c)) with (mc_timer c). rewrite Hiv.
  unfold mc_handleTimeout, mc_sendKeepAliveProbe. change (mc_handler (mc_at_time t c)) with (mc_handler c). rewrite Hh.
  change (mc_now (mc_at_time t c)) with t. change (mc_lastActive (mc_at_time t c)) with (mc_lastActive c).
  change (mc_timeSpan (mc_at_time t c)) with (mc_timeSpan c). rewrite (proj2 (Z.ltb_ge _ _)) by lia. cbv zeta.
  change (mc_unacked (mc_at_time t c)) with (mc_unacked c). rewrite swrap_small by (unfold in_s; lia).
  set (c1 := mc_with_probes _ _ _). change (mc_unacked c1) with (mc_unacked c + 1). change (mc_tryTimes c1) with (mc_tryTimes c).
  rewrite Z.gtb_ltb. destruct (mc_unacked c <? mc_tryTimes c) eqn:E; b2p.
  - rewrite (proj2 (Z.ltb_ge _ _)) by lia. cbn [ch_stream ch_tmpMsg].
    destruct (keep_alive_answered Msg_KeepAlive_Probe sk) as (sk' & -> & Hs & Hi & Ho'); [split; by compute|done|done|].
    rewrite !bind_Ok. cbn [Z.eqb]. rewrite bind_Ok. cbn [negb]. rewrite bind_Ok. eexists _, sk'. split; [reflexivity|]. by split_and!.
  - rewrite (proj2 (Z.ltb_lt _ _)) by lia. rewrite bind_Ok. cbn [negb]. rewrite bind_Ok. change (-1 =? -1) with true.
    eexists _, sk. split; [reflexivity|]. by split_and!.
Qed.

(** Time-outs up to the number of tries. *)
Lemma mc_timeouts_ok ts : ∀ c tm sk iv,
  mc_handler c = Some (mkCH tm sk) → sk_out sk = [] → mc_timer c = Some iv → mc_errorPending c = false →
  Forall (λ t, mc_timeSpan c ≤ t - mc_lastActive c) ts → 0 ≤ mc_unacked c → mc_unacked c + #ts ≤ mc_tryTimes c < 2 ^ 31 - 1 →
  ∃ c' sk', foreach mc_upcall (UTimer <$> ts) c = Ok c' ∧ mc_handler c' = Some (mkCH tm sk') ∧ sk_out sk' = [] ∧ sk_in sk' = sk_in sk ∧
    mc_timer c' = Some iv ∧ mc_errorPending c' = false ∧ mc_lastActive c' = mc_lastActive c ∧ mc_tryTimes c' = mc_tryTimes c ∧
    mc_timeSpan c' = mc_timeSpan c ∧ mc_unacked c' = mc_unacked c + #ts ∧ mc_interval c' = mc_interval c ∧ mc_connects c' = mc_connects c ∧
    mc_notices c' = mc_notices c ∧ sk_sent sk' = sk_sent sk ++ mjoin (replicate (length ts) alive_probe).
Proof.
  induction ts as [|t ts IH]; intros c tm sk iv Hh Ho Hiv He Hts Hu Hn.
  - exists c, sk. cbn. rewrite app_nil_r. split_and!; try done. lia.
  - apply Forall_cons in Hts as [Ht Hts]. cbn [length] in Hn.
    destruct (mc_timeout_ok t c tm sk iv Hh Ho Hiv Ht ltac:(lia)) as
      (c1 & sk1 & E1 & Hh1 & Ho1 & Hi1 & Hl1 & Htr1 & Hsp1 & Hu1 & _ & Hin1 & Hco1 & _ & Hno1 & Hcase).
    rewrite (proj2 (Z.ltb_lt _ _)) in Hcase by lia. destruct Hcase as (He1 & Hiv1 & Hs1).
    destruct (IH c1 tm sk1 iv) as (c' & sk' & E & ? & ? & ? & ? & ? & ? & ? & ? & Hu' & ? & ? & ? & Hs'); try done; try congruence.
    { rewrite Hsp1, Hl1. done. } { lia. } { rewrite Htr1. lia. }
    exists c', sk'. cbn [fmap list_fmap foreach]. rewrite E1, bind_Ok. split_and!; try done; try congruence; try (cbn [length]; lia).
    rewrite Hs', Hs1, <- app_assoc. done.
Qed.

(** Failed attempts to connect, then one that succeeds. *)
Lemma mc_try_connect_ok k sk rest : ∀ c,
  mc_connects c = replicate k None ++ Some sk :: rest → mc_handler c = None →
  mc_try_connect (mc_connects c) c = Ok (mc_with_handler (Some (mkCH None sk)) (mc_with_connects rest (mc_at_time (mc_now c + Z.of_nat k * mc_interval c) c))).
Proof.
  induction k as [|k IH]; intros [hd e ke u la tt sp iv ti no co ev nt]; cbn [mc_connects mc_handler mc_now mc_interval]; intros -> ->.
  - cbn [replicate app mc_try_connect]. unfold mc_connect. cbn [mc_connects]. rewrite bind_Ok. cbn [Z.eqb mc_handler mc_with_handler].
    rewrite bool_decide_eq_true_2 by eauto. cbn [assert_]. rewrite bind_Ok. unfold mc_with_handler, mc_with_connects, mc_at_time. cbn. do 2 f_equal. lia.
  - cbn [replicate app mc_try_connect]. unfold mc_connect. cbn [mc_connects]. rewrite bind_Ok. change (-1 =? 0) with false. cbv iota.
    match goal with |- mc_try_connect _ ?x = _ => set (c1 := x) end.
    assert (c1 = mkMC None e ke u la tt sp iv ti (no + iv) (replicate k None ++ Some sk :: rest) ev nt) as -> by reflexivity.
    specialize (IH (mkMC None e ke u la tt sp iv ti (no + iv) (replicate k None ++ Some sk :: rest) ev nt) eq_refl eq_refl).
    cbn [mc_connects mc_now mc_interval] in IH. rewrite IH.
    unfold mc_with_handler, mc_with_connects, mc_at_time. cbn. do 2 f_equal. lia.
Qed.

(** The turn after an error. *)
Lemma mc_reconnect_ok us c tm k sk rest :
  mc_errorPending c = true → (∀ h, mc_handler c = Some h → ch_tmpMsg h = tm) → tm = None →
  mc_connects c = replicate k None ++ Some sk :: rest →
  mc_turn us c = Ok (mkMC (Some (mkCH None sk)) false true 0 (mc_lastActive c) (mc_tryTimes c) (mc_timeSpan c) (mc_interval c)
    (Some (mc_timeSpan c)) (mc_now c + Z.of_nat k * mc_interval c) rest (mc_events c) (mc_notices c ++ [ConnectionError; Established])).
Proof.
  destruct c as [hd e ke u la tt sp iv ti no co ev nt]. cbn [mc_errorPending mc_handler mc_connects mc_lastActive mc_tryTimes mc_timeSpan mc_interval mc_now mc_events mc_notices].
  intros -> Hh -> Hco. unfold mc_turn. cbn [mc_errorPending].
  assert (mc_onConnError (mkMC hd true ke u la tt sp iv ti no co ev nt) = Ok (mkMC hd true false u la tt sp iv None no co ev (nt ++ [ConnectionError]))) as -> by done.
  rewrite bind_Ok.
  assert (mc_reestablishConnection (mkMC hd true false u la tt sp iv None no co ev (nt ++ [ConnectionError])) =
    (c ← mc_try_connect co (mkMC None false false 0 la tt sp iv None no co ev (nt ++ [ConnectionError])); Ok (true, c))) as ->.
  { destruct hd as [[tm hs]|]; [|done]. specialize (Hh _ eq_refl). cbn in Hh. by subst. }
  pose proof (mc_try_connect_ok k sk rest (mkMC None false false 0 la tt sp iv None no co ev (nt ++ [ConnectionError])) Hco eq_refl) as E.
  cbn [mc_connects] in E. rewrite E, !bind_Ok. unfold mc_with_handler, mc_with_connects, mc_at_time.
  cbn [mc_errorPending mc_keepAliveEnabled mc_unacked mc_lastActive mc_tryTimes mc_timeSpan mc_interval mc_timer mc_now mc_events mc_notices].
  unfold mc_onConnOk, mc_enableKeepAlive. cbn. unfold mc_with_notice, mc_with_timer. cbn. by rewrite <- app_assoc.
Qed.

End keep_alive.

(** C17: a server that lives is never suspected.  In a round, the keep-alive
    timer of a client that has heard nothing for the time span sends one probe;
    the server, when it comes in any pieces, answers it with one
    acknowledgement and hands nothing to its application; and when this comes
    back, in any pieces, the client has no error, its timer runs on and no
    probe counts as unanswered, so that the next round begins like this one. *)
Theorem live_server_not_suspected {al : Allocator} {ho : Host} {un : Uninit} {hp : Heap} c sk iv t t' s p h rest rest' :
  mc_handler c = Some (mkCH None sk) → sk_out sk = [] → mc_timer c = Some iv → mc_errorPending c = false → mc_unacked c = 0 →
  mc_timeSpan c ≤ t - mc_lastActive c → 1 ≤ mc_tryTimes c < 2 ^ 31 - 1 →
  p ≠ 0 → ms_handlers s !! p = Some h → sv_msg h = None → sv_open h = true → sk_out (sv_stream h) = [] →
  ∃ c1 sk1, mc_upcall (UTimer t) c = Ok c1 ∧ mc_handler c1 = Some (mkCH None sk1) ∧ sk_sent sk1 = sk_sent sk ++ alive_probe ∧
    (hears (sv_stream h) (alive_probe ++ rest) →
     ∃ n s' h', upcalls (H2 := ms_receiver p) n s = Ok s' ∧ ms_handlers s' !! p = Some h' ∧ sv_msg h' = None ∧ sv_open h' = true ∧
       sk_out (sv_stream h') = [] ∧ hears (sv_stream h') rest ∧ ms_events s' = ms_events s ∧ sent_by p s' = sent_by p s ++ ack ∧
       (hears sk1 (ack ++ rest') →
        ∃ n' c2 sk2, upcalls (H2 := mc_receiver t') n' c1 = Ok c2 ∧ mc_handler c2 = Some (mkCH None sk2) ∧ sk_out sk2 = [] ∧ hears sk2 rest' ∧
          mc_timer c2 = Some iv ∧ mc_errorPending c2 = false ∧ mc_unacked c2 = 0 ∧ mc_lastActive c2 = t' ∧
          mc_tryTimes c2 = mc_tryTimes c ∧ mc_timeSpan c2 = mc_timeSpan c ∧ mc_events c2 = mc_events c)).
Proof.
  intros Hh Ho Hiv He Hu Ht Htr Hp Hs Hm Hopen Hos.
  destruct (mc_timeout_ok t c None sk iv Hh Ho Hiv Ht ltac:(lia)) as
    (c1 & sk1 & E1 & Hh1 & Ho1 & Hi1 & Hl1 & Htr1 & Hsp1 & Hu1 & _ & _ & _ & Hev1 & _ & Hcase).
  rewrite (proj2 (Z.ltb_lt _ _)) in Hcase by lia. destruct Hcase as (He1 & Hiv1 & Hs1).
  exists c1, sk1. split; [exact E1|]. split; [done|]. split; [done|]. intros Hhears.
  pose proof (keep_alive_frame Msg_KeepAlive_Probe eq_refl eq_refl eq_refl) as Hfp.
  pose proof (keep_alive_frame Msg_KeepAlive_ACK eq_refl eq_refl eq_refl) as Hfa.
  destruct (server_takes p [keep_alive Msg_KeepAlive_Probe] rest h s) as (n & s' & sks & Hup & (s2 & (_ & _ & _ & Hserved) & ->) & Hhs & Hhr & Hos'); try done.
  { constructor; [apply keep_alive_ok; by left|done]. }
  { constructor; [by right|done]. }
  destruct Hserved as [Hse Hss]. exists n, s2, (mkSH None sks true). split_and!; try done. intros Hhears'.
  destruct (client_takes t' [keep_alive Msg_KeepAlive_ACK] rest' sk1 c1) as (n' & c2 & sk2 & Hup' & (c3 & Htook & ->) & Hh2 & Hhr2 & Ho2 & _); try done.
  { constructor; [apply keep_alive_ok; by right|done]. }
  { constructor; [by right|done]. }
  destruct Htook as (Hte & Htt & Htu & Htl & Htn & Htsp & _ & Htev). exists n', c3, sk2. split_and!; try done; congruence.
Qed.

(** C16: a server that is silent is given up, and the connection made again.
    Nothing is half read (else the destructor of the handler aborts the client,
    [mc_half_message_aborts]) and nothing arrives while the keep-alive timer runs
    out once more than the number of tries, each time later than the time span: as many probes are
    sent, the application is told of the error, attempts to connect are made at
    the interval of reconnection until one succeeds, the application is told of
    that, and the client is as after its first connection: no error, no probe
    unanswered, the timer running, nothing half read. *)
Theorem dead_server_reconnected {al : Allocator} {ho : Host} {un : Uninit} ts t c sk iv k sk' rest :
  mc_handler c = Some (mkCH None sk) → sk_out sk = [] → mc_timer c = Some iv → mc_errorPending c = false → mc_unacked c = 0 →
  Forall (λ t, mc_timeSpan c ≤ t - mc_lastActive c) (ts ++ [t]) → #ts = mc_tryTimes c → mc_tryTimes c < 2 ^ 31 - 1 →
  mc_connects c = replicate k None ++ Some sk' :: rest →
  ∃ c1 sk1 c2, mc_turn (UTimer <$> ts ++ [t]) c = Ok c1 ∧ mc_handler c1 = Some (mkCH None sk1) ∧
    sk_sent sk1 = sk_sent sk ++ mjoin (replicate (length ts) alive_probe) ∧
    mc_turn [] c1 = Ok c2 ∧ mc_handler c2 = Some (mkCH None sk') ∧ mc_errorPending c2 = false ∧ mc_unacked c2 = 0 ∧
    mc_timer c2 = Some (mc_timeSpan c) ∧ mc_keepAliveEnabled c2 = true ∧ mc_now c2 = t + Z.of_nat k * mc_interval c ∧ mc_connects c2 = rest ∧
    mc_notices c2 = mc_notices c ++ [ConnectionError; Established].
Proof.
  intros Hh Ho Hiv He Hu Hts Hn Htr Hcon. apply Forall_app in Hts as [Hts Ht]. apply Forall_cons in Ht as [Ht _].
  destruct (mc_timeouts_ok ts c None sk iv Hh Ho Hiv He Hts ltac:(lia) ltac:(lia)) as
    (c1 & sk1 & E1 & Hh1 & Ho1 & _ & Hiv1 & He1 & Hl1 & Htr1 & Hsp1 & Hu1 & Hin1 & Hco1 & Hno1 & Hs1).
  destruct (mc_timeout_ok t c1 None sk1 iv Hh1 Ho1 Hiv1) as
    (c2 & sk2 & E2 & Hh2 & _ & _ & Hl2 & _ & Hsp2 & _ & Hnow2 & Hin2 & Hco2 & _ & Hno2 & Hcase); [rewrite Hsp1, Hl1; exact Ht|lia|].
  rewrite (proj2 (Z.ltb_ge _ _)) in Hcase by lia. destruct Hcase as (He2 & Hiv2 & ->).
  exists c2, sk1. unfold mc_turn at 1. rewrite He, fmap_app, foreach_app, E1, bind_Ok. cbn [fmap list_fmap foreach]. rewrite E2, bind_Ok.
  rewrite (mc_reconnect_ok [] c2 None k sk' rest He2); [|intros hd Hd; rewrite Hh2 in Hd; by injection Hd as <-|done|congruence].
  eexists. split_and!; [done..|reflexivity|done|done|done| | | | |]; cbn [mc_timer mc_keepAliveEnabled mc_now mc_connects mc_notices]; congruence.
Qed.

(** ** What goes wrong *)

Section faults.

Context {al : Allocator} {ho : Host} {un : Uninit} {hp : Heap}.

(** Without a connection the client's [publish] returns -1, the server's
    follows a null pointer. *)
Lemma publish_unconnected os ct c s sk :
  composed ct os → sk_out sk = [] → mc_handler c = None → ms_handler s = 0 →
  mc_publish os c = Ok (-1, os, c) ∧ ms_publish os s = Fault NullDeref.
Proof.
  intros Hct Ho Hc Hs. unfold mc_publish. rewrite Hc. split; [done|].
  destruct (checks_composed ct os sk Hct Ho) as (str & Hstr & Hch). unfold ms_publish. by rewrite Hstr, bind_Ok, Hch, bind_Ok, Hs.
Qed.

(** The server publishes to one connection, the last one that the acceptor was
    called for; when any of them is closed it publishes to none, and the next
    [publish] follows a null pointer although other clients are connected. *)
Lemma one_of_two_closed p q h s :
  p ≠ q → ms_handlers s !! p = Some h → sv_msg h = None → p ≠ 0 →
  ∃ s', ms_handleClose p s = Ok s' ∧ ms_handlers s' !! q = ms_handlers s !! q ∧ ms_handler s' = 0.
Proof.
  intros Hpq Hh Hm Hp. unfold ms_handleClose, deref. rewrite (proj2 (Z.eqb_neq p 0)) by done. cbn [ms_handlers setHandler].
  rewrite Hh, bind_Ok, bool_decide_eq_true_2 by done. cbn [assert_]. rewrite bind_Ok. eexists. split; [reflexivity|]. split; [|done].
  cbn. by rewrite lookup_delete_ne.
Qed.

(** An [accept] that fails leaves the server with a handler without a
    connection: what it publishes reaches nobody, and [publish] returns 0. *)
Lemma failed_accept_diverts os ct q h s sk :
  composed ct os → sk_out sk = [] → ms_handler s = q → ms_handlers s !! q = Some h →
  ∃ s', ms_upcall (SAccept AcceptFails) s = Ok s' ∧ ms_handlers s' !! q = Some h ∧
    ∀ r os' s'', ms_publish os s' = Ok (r, os', s'') → r = 0 ∧ s'' = s'.
Proof.
  intros Hct Ho Hq Hh. cbn [ms_upcall]. unfold acceptor_handleInput, makeSvcHandler. rewrite bind_Ok.
  destruct (new_addr_free (dom (ms_handlers s))) as [Hp0 Hpf]. set (p := new_addr _) in *.
  eexists. split; [reflexivity|]. split.
  - cbn. rewrite lookup_insert_ne; [done|]. intros ->. apply Hpf. apply elem_of_dom. eauto.
  - intros r os' s''. destruct (checks_composed ct os sk Hct Ho) as (str & Hstr & Hch). unfold ms_publish. rewrite Hstr, bind_Ok, Hch, bind_Ok.
    unfold deref. cbn [ms_handler ms_handlers setHandler put_handler]. rewrite (proj2 (Z.eqb_neq p 0)), lookup_insert_eq, bind_Ok by done. cbn [sv_socket sv_open].
    destruct (send_msg _ _) as [[[? ?] ?]|]; intros E; [|done]. rewrite bind_Ok in E. by inv_ok.
Qed.

(** A client whose connection is given up in the middle of a message is
    aborted by the destructor of the handler. *)
Lemma mc_half_message_aborts us c m sk :
  mc_errorPending c = true → mc_handler c = Some (mkCH (Some m) sk) → mc_turn us c = Fault AssertFailed.
Proof.
  intros He Hh. unfold mc_turn. rewrite He. unfold mc_onConnError. rewrite He. cbn [assert_]. rewrite !bind_Ok.
  unfold mc_reestablishConnection. cbn [mc_disableKeepAlive snd mc_handler mc_with_probes mc_with_error mc_with_notice mc_with_timer]. rewrite Hh.
  unfold mc_delete_handler, mc_the_handler. cbn [mc_handler mc_with_probes mc_with_error mc_with_notice mc_with_timer]. by rewrite Hh.
Qed.

(** An event whose fields do not start with a terminated string makes the
    server read past the end of a buffer, for the name of a type that is only
    meant for the log. *)
Lemma event_without_type_name p m sk s x rest :
  m_type m = Msg_Event → is_ok_in (m_is m) → x ≠ [] → Forall (λ c, is_byte c ∧ c ≠ 0) x → len x < 2 ^ 32 →
  avail (m_is m) = be_bytes 4 (len x) ++ x ++ rest → onServerMessage p m sk s = Fault OutOfBounds.
Proof.
  intros Hty Hok Hne Hx Hlen Hav. unfold onServerMessage. rewrite Hty. change (Msg_Event =? Msg_KeepAlive_Probe) with false.
  change (Msg_Event =? Msg_Event) with true. cbv iota.
  rewrite (read_string_unterminated (InputStream_copy (m_is m)) x rest); try done. destruct Hok as (Hr & _ & _). by split.
Qed.

End faults.

(** ** Witnesses *)

Section witnesses.

#[local] Existing Instance zero_memory.
#[local] Existing Instance host_le.
#[local] Existing Instance uninit_7.
#[local] Existing Instance upwards.

(** The topic "t", the type "T" and one more byte. *)
Definition demo_event (x : Z) : content := mkContent Msg_Event [116] [] 0 0 0 (enc_string [84] ++ [x]).

Lemma demo_event_ok x : is_byte x → is_event (demo_event x) ∧ content_ok (demo_event x).
Proof.
  intros Hx. split; [split; [done|]; exists [84], [x]; split; [|done]; split; [repeat constructor; unfold is_byte; lia|by vm_compute]|].
  split_and!; [split; by compute| |discriminate|by vm_compute].
  constructor; [|constructor]. split; [repeat constructor; unfold is_byte; lia|by vm_compute].
Qed.

Definition demo_stream (x : Z) : OutputStream :=
  match compose (demo_event x) 0 with Ok os => os | Fault _ => OutputStream_new 0 end.

Lemma demo_composed x : is_byte x → composed (demo_event x) (demo_stream x).
Proof.
  intros Hx. destruct (demo_event_ok x Hx) as [_ Hc]. assert (5 + len (body_of (demo_event x)) ≤ os_limit) as Hl by by vm_compute.
  exists 0. destruct (compose_ok (demo_event x) 0 Hc Hl (or_intror eq_refl)) as (os & E & _). unfold demo_stream. rewrite E.
  split_and!; [done|done|done|by right].
Qed.

Definition demo_client_at (sk : socket) : MsgClient := mkMC (Some (mkCH None sk)) false true 0 0 3 10 5 (Some 10) 0 [] [] [].
Definition demo_server_at (sk : socket) : MsgServer := mkMS {[8 := mkSH None sk true]} 8 [] 0.

(** The bytes arrive in two pieces. *)
Definition demo_in (bytes : list Z) : socket := mkSocket [Data (take 3 bytes); Data (drop 3 bytes)] [] [] [] 0.

Lemma demo_hears bytes sk : sk_in sk = sk_in (demo_in bytes) → (3 < length bytes)%nat → hears sk (bytes ++ []).
Proof.
  intros Hin Hl. unfold hears. rewrite Hin, app_nil_r. split; [|unfold data_of; cbn; by rewrite app_nil_r, take_drop].
  repeat constructor; intros E; apply (f_equal length) in E; rewrite ?length_take, ?length_drop in E; cbn [length] in E; lia.
Qed.

Lemma demo_two : Forall2 composed [demo_event 1; demo_event 2] [demo_stream 1; demo_stream 2] ∧ Forall is_event [demo_event 1; demo_event 2].
Proof. split; repeat (apply Forall2_cons || apply Forall_cons; split); try constructor; (apply demo_composed || apply demo_event_ok); unfold is_byte; lia. Qed.

Lemma demo_one : Forall2 composed [demo_event 3] [demo_stream 3] ∧ Forall is_event [demo_event 3].
Proof. split; repeat (apply Forall2_cons || apply Forall_cons; split); try constructor; (apply demo_composed || apply demo_event_ok); unfold is_byte; lia. Qed.

Lemma events_cross_witness :
  ∃ c1 s1 s2 n, publish_each mc_publish [demo_stream 1; demo_stream 2] (demo_client_at (demo_in (frame_of (demo_event 3)))) = Ok ([0; 0], c1) ∧
    upcalls (H2 := ms_receiver 8) n (demo_server_at (demo_in (frame_of (demo_event 1) ++ frame_of (demo_event 2)))) = Ok s1 ∧
    length (ms_events s1) = 2%nat ∧ publish_each ms_publish [demo_stream 3] s1 = Ok ([0], s2).
Proof.
  set (sk := demo_in (frame_of (demo_event 3))). set (sks := demo_in (frame_of (demo_event 1) ++ frame_of (demo_event 2))).
  destruct (events_cross [demo_event 1; demo_event 2] [demo_stream 1; demo_stream 2] [demo_event 3] [demo_stream 3]
    (demo_client_at sk) sk (demo_server_at sks) 8 (mkSH None sks true) [] [] 5) as (c1 & sk1 & E1 & Hc1 & Hrest).
  - exact (proj1 demo_two).
  - exact (proj2 demo_two).
  - exact (proj1 demo_one).
  - exact (proj2 demo_one).
  - reflexivity.
  - reflexivity.
  - discriminate.
  - reflexivity.
  - apply lookup_singleton_eq.
  - reflexivity.
  - reflexivity.
  - reflexivity.
  - reflexivity.
  - reflexivity.
  - assert (sk_sent sk1 = frame_of (demo_event 1) ++ frame_of (demo_event 2)) as Hs.
    { destruct (mc_publish_all _ _ (demo_client_at sk) None sk (proj1 demo_two) eq_refl eq_refl) as (sk2 & E2 & Hs2 & _).
      rewrite E1 in E2. injection E2 as ->. cbn [mc_handler mc_with_handler] in Hc1. injection Hc1 as ->. exact Hs2. }
    destruct Hrest as (n & s1 & s2 & Hup & Heach & Hpub & _); [rewrite Hs; apply demo_hears; [reflexivity|vm_compute; lia]|].
    exists c1, s1, s2, n. split; [exact E1|]. split; [exact Hup|]. split; [|exact Hpub].
    destruct Heach as (sa & (_ & _ & _ & Ha) & sb & (_ & _ & _ & Hb') & ->).
    cbn in Ha, Hb'. destruct Ha as (m1 & _ & -> & _) in Hb'. destruct Hb' as (m2 & _ & -> & _). reflexivity.
Defined.

Lemma live_server_not_suspected_witness :
  ∃ c1 n s', mc_upcall (UTimer 10) (demo_client_at (demo_in ack)) = Ok c1 ∧
    upcalls (H2 := ms_receiver 8) n (demo_server_at (demo_in alive_probe)) = Ok s' ∧ sent_by 8 s' = ack.
Proof.
  destruct (live_server_not_suspected (demo_client_at (demo_in ack)) (demo_in ack) 10 10 11 (demo_server_at (demo_in alive_probe)) 8
    (mkSH None (demo_in alive_probe) true) [] []) as (c1 & sk1 & E1 & _ & _ & Hrest).
  - reflexivity.
  - reflexivity.
  - reflexivity.
  - reflexivity.
  - reflexivity.
  - vm_compute. discriminate.
  - cbn. lia.
  - discriminate.
  - apply lookup_singleton_eq.
  - reflexivity.
  - reflexivity.
  - reflexivity.
  - destruct Hrest as (n & s' & h' & Hup & _ & _ & _ & _ & _ & _ & Hs & _); [apply demo_hears; [reflexivity|vm_compute; lia]|].
    exists c1, n, s'. split; [exact E1|]. split; [exact Hup|exact Hs].
Defined.

(** The third attempt to connect succeeds. *)
Definition demo_silent : MsgClient :=
  mkMC (Some (mkCH None (mkSocket [] [] [] [] 0))) false true 0 0 3 10 5 (Some 10) 0 [None; None; Some (demo_in ack)] [] [].

Lemma dead_server_reconnected_witness :
  ∃ c1 c2, mc_turn (UTimer <$> [10; 20; 30; 40]) demo_silent = Ok c1 ∧ mc_turn [] c1 = Ok c2 ∧ mc_now c2 = 50 ∧
    mc_notices c2 = [ConnectionError; Established].
Proof.
  destruct (dead_server_reconnected [10; 20; 30] 40 demo_silent (mkSocket [] [] [] [] 0) 10 2 (demo_in ack) [])
    as (c1 & sk1 & c2 & E1 & _ & _ & E2 & _ & _ & _ & _ & _ & Hn & _ & Hno).
  - reflexivity.
  - reflexivity.
  - reflexivity.
  - reflexivity.
  - reflexivity.
  - repeat constructor; vm_compute; discriminate.
  - reflexivity.
  - vm_compute. reflexivity.
  - reflexivity.
  - exists c1, c2. exact (conj E1 (conj E2 (conj Hn Hno))).
Defined.

(** A message of a type the server does not know stays in the handler: the next
    upcall parses into the complete message, takes the zero bytes that are
    missing for the end of the connection, and closes it with the event behind
    it unread. *)
Definition unknown_then_event : socket :=
  mkSocket [Data (frame_of (keep_alive Msg_KeepAlive_ACK)); Data (frame_of (demo_event 1))] [] [] [] 0.

Example unknown_message_closes :
  (s ← foreach ms_upcall [SInput 8] (demo_server_at unknown_then_event); Ok (size (ms_handlers s), ms_lost s)) = Ok (1%nat, 0%nat) ∧
  (s ← foreach ms_upcall [SInput 8; SInput 8] (demo_server_at unknown_then_event); Ok (size (ms_handlers s), ms_handler s, ms_events s, ms_lost s)) =
    Ok (0%nat, 0, [], 1%nat).
Proof. split; vm_compute; reflexivity. Qed.

End witnesses.
