(* ===== verification/PublishClient.v ===== *)
(** * PublishClient: the publisher's side of the broker (msg/PublishClient.cpp, msg/PublishClient.h)

    An application publishes from its own threads; a thread of the client runs
    [svc]: it lets the reactor work on the connection, and when the connection
    is lost it connects again.  Between the two the broker cannot be reached:
    with buffering on, what is published goes to a file, and [svc] sends the
    file once it has a connection.

    [PublishClient] is the object with its static members, the file, the clock
    and the results of the next attempts to connect.  The mutex makes the
    operations that use the connection or the file atomic; [where_] is the
    place of [svc] between two of them, and [run] interleaves its steps with
    calls of [publish]. *)
From S2P Require Import Prelude CppLib Block OutputStream InputStream Marshalling Socket Framing MsgProtocol TopicManager PubSub Broker.

(** [handler] is the stream of the connection; [pc_subTries] and [pc_subSpan]
    are the static members of [SubscribeClient] this class reads. *)
Record PublishClient := mkPC {
  pc_handler : option socket;
  pc_error : bool;
  pc_keepAliveEnabled : bool;
  pc_unacked : Z;
  pc_tryTimes : Z;
  pc_timeSpan : Z;
  pc_buffering : bool;
  pc_brokerIp : str;
  pc_subTries : Z;
  pc_subSpan : Z;
  pc_timer : option Z;
  pc_now : Z;
  pc_file : option (list Z);
  pc_writable : bool;
  pc_connects : list (option socket) }.

Definition pc_with_handler x c := mkPC x (pc_error c) (pc_keepAliveEnabled c) (pc_unacked c) (pc_tryTimes c) (pc_timeSpan c) (pc_buffering c)
  (pc_brokerIp c) (pc_subTries c) (pc_subSpan c) (pc_timer c) (pc_now c) (pc_file c) (pc_writable c) (pc_connects c).
Definition setConnectionError x c := mkPC (pc_handler c) x (pc_keepAliveEnabled c) (pc_unacked c) (pc_tryTimes c) (pc_timeSpan c) (pc_buffering c)
  (pc_brokerIp c) (pc_subTries c) (pc_subSpan c) (pc_timer c) (pc_now c) (pc_file c) (pc_writable c) (pc_connects c).
Definition pc_with_timer on t c := mkPC (pc_handler c) (pc_error c) on (pc_unacked c) (pc_tryTimes c) (pc_timeSpan c) (pc_buffering c)
  (pc_brokerIp c) (pc_subTries c) (pc_subSpan c) t (pc_now c) (pc_file c) (pc_writable c) (pc_connects c).
Definition pc_with_unacked n c := mkPC (pc_handler c) (pc_error c) (pc_keepAliveEnabled c) n (pc_tryTimes c) (pc_timeSpan c) (pc_buffering c)
  (pc_brokerIp c) (pc_subTries c) (pc_subSpan c) (pc_timer c) (pc_now c) (pc_file c) (pc_writable c) (pc_connects c).
Definition pc_with_limits a b c := mkPC (pc_handler c) (pc_error c) (pc_keepAliveEnabled c) (pc_unacked c) a b (pc_buffering c)
  (pc_brokerIp c) (pc_subTries c) (pc_subSpan c) (pc_timer c) (pc_now c) (pc_file c) (pc_writable c) (pc_connects c).
Definition pc_with_buffering x c := mkPC (pc_handler c) (pc_error c) (pc_keepAliveEnabled c) (pc_unacked c) (pc_tryTimes c) (pc_timeSpan c) x
  (pc_brokerIp c) (pc_subTries c) (pc_subSpan c) (pc_timer c) (pc_now c) (pc_file c) (pc_writable c) (pc_connects c).
Definition pc_with_broker x c := mkPC (pc_handler c) (pc_error c) (pc_keepAliveEnabled c) (pc_unacked c) (pc_tryTimes c) (pc_timeSpan c) (pc_buffering c)
  x (pc_subTries c) (pc_subSpan c) (pc_timer c) (pc_now c) (pc_file c) (pc_writable c) (pc_connects c).
Definition pc_at t c := mkPC (pc_handler c) (pc_error c) (pc_keepAliveEnabled c) (pc_unacked c) (pc_tryTimes c) (pc_timeSpan c) (pc_buffering c)
  (pc_brokerIp c) (pc_subTries c) (pc_subSpan c) (pc_timer c) t (pc_file c) (pc_writable c) (pc_connects c).
Definition pc_with_file f c := mkPC (pc_handler c) (pc_error c) (pc_keepAliveEnabled c) (pc_unacked c) (pc_tryTimes c) (pc_timeSpan c) (pc_buffering c)
  (pc_brokerIp c) (pc_subTries c) (pc_subSpan c) (pc_timer c) (pc_now c) f (pc_writable c) (pc_connects c).
Definition pc_with_connects x c := mkPC (pc_handler c) (pc_error c) (pc_keepAliveEnabled c) (pc_unacked c) (pc_tryTimes c) (pc_timeSpan c) (pc_buffering c)
  (pc_brokerIp c) (pc_subTries c) (pc_subSpan c) (pc_timer c) (pc_now c) (pc_file c) (pc_writable c) x.

(** [PublishClient ()]: [bufferExpireTime (300)]. *)
Definition bufferExpireTime : Z := 300.
Definition str_registerPublisher : str := [114; 101; 103; 105; 115; 116; 101; 114; 80; 117; 98; 108; 105; 115; 104; 101; 114].

(** A file open for reading: what is left of it, and [feof]. *)
Record FILE := mkFILE { f_rest : list Z; f_eof : bool }.

(** [fread (buf, n, 1, f)]: what is missing at the end of the file leaves the
    end of the buffer as it was. *)
Definition fread (buf : list Z) (f : FILE) : list Z * FILE :=
  let n := length buf in
  (take n (f_rest f) ++ drop (length (f_rest f)) buf,
   mkFILE (drop n (f_rest f)) (f_eof f || (length (f_rest f) <? n)%nat)).

Section publisher.

Context {al : Allocator} {ho : Host} {un : Uninit}.

Definition stream_of (c : PublishClient) : result socket :=
  match pc_handler c with Some sk => Ok sk | None => Fault NullDeref end.

(** [MsgProtocol::check (os)]. *)
Definition check_os (os : OutputStream) : result unit := str ← toString os; check str.

(** [MsgProtocol::send (&handler->getStream (), &os)]: the stream has its
    length filled in. *)
Definition send_os (os : OutputStream) (c : PublishClient) : result (Z * OutputStream * PublishClient) :=
  sk ← stream_of c;
  '(r, os, sk) ← send_msg os sk;
  Ok (r, os, pc_with_handler (Some sk) c).

(** A message of a type with its fields. *)
Definition send_fields (type : Z) (fields : list item) (c : PublishClient) : result (Z * PublishClient) :=
  sk ← stream_of c;
  '(r, sk) ← answer_with type fields sk;
  Ok (r, pc_with_handler (Some sk) c).

(** *** The buffer *)

(** A message in the file: the time, the length, the bytes. *)
Definition entry (t : Z) (bytes : list Z) : list Z := native 8 t ++ native 4 (s32 (len bytes)) ++ bytes.

Definition publishToBuffer_i (os : OutputStream) (c : PublishClient) : result (Z * PublishClient) :=
  if negb (pc_writable c) then Ok (-1, c) else
  osStr ← toString os;
  _ ← check osStr;
  Ok (0, pc_with_file (Some (default [] (pc_file c) ++ entry (pc_now c) osStr)) c).

Definition publish (os : OutputStream) (c : PublishClient) : result (Z * PublishClient) :=
  _ ← assert_ (negb (bool_decide (pc_brokerIp c = [])));
  _ ← check_os os;
  '(os, c) ← (if negb (pc_error c) then
    '(result, os, c) ← send_os os c;
    Ok (os, if result =? -1 then setConnectionError true c else c)
  else Ok (os, c));
  if pc_buffering c && pc_error c then
    '(_, c) ← publishToBuffer_i os c;
    Ok (-1, c)
  else Ok (0, c).

(** [clearBufferFile_i]: a file that cannot be opened is closed all the same. *)
Definition clearBufferFile_i (c : PublishClient) : result PublishClient :=
  if negb (pc_writable c) then Fault NullDeref else Ok (pc_with_file (Some []) c).

(** The loop of [publishFromBuffer]; an iteration consumes the file. *)
Fixpoint flush_loop (fuel : nat) (pubTime : Z) (f : FILE) (c : PublishClient) : result PublishClient :=
  match fuel with
  | O => Fault OutOfFuel
  | S fuel =>
      if negb (f_eof f) && negb (pubTime =? 0) then
        let '(sz, f) := fread (native 4 0) f in
        let dataSize := signed 32 sz in
        _ ← assert_ (dataSize >? 0);
        let '(pubData, f) := fread (replicate (Z.to_nat dataSize) uninit) f in
        '(go, c) ← (if s64 (pc_now c - pubTime) <=? bufferExpireTime then
          os ← fromString pubData;
          _ ← check_os os;
          '(r, _, c) ← send_os os c;
          Ok (if r =? -1 then (false, setConnectionError true c) else (true, c))
        else Ok (true, c));
        if (go : bool) then
          let '(tm, f) := fread (native 8 0) f in
          flush_loop fuel (signed 64 tm) f c
        else Ok c
      else Ok c
  end.

Definition publishFromBuffer (c : PublishClient) : result (bool * PublishClient) :=
  if pc_error c then Ok (false, c) else
  match pc_file c with
  | None => Ok (true, c)
  | Some bytes =>
      let '(tm, f) := fread (native 8 0) (mkFILE bytes false) in
      c ← flush_loop (S (length bytes)) (signed 64 tm) f c;
      c ← clearBufferFile_i c;
      Ok (true, c)
  end.

(** *** Keep-alive *)

Definition enableKeepAlive (c : PublishClient) : bool * PublishClient :=
  let c := pc_with_limits (pc_subTries c) (pc_subSpan c) c in
  if pc_keepAliveEnabled c then (true, c) else (true, pc_with_timer true (Some (pc_timeSpan c)) c).

Definition disableKeepAlive (c : PublishClient) : bool * PublishClient := (true, pc_with_timer false None c).

Definition sendKeepAliveProbe (c : PublishClient) : result (bool * PublishClient) :=
  _ ← assert_ (negb (pc_error c));
  let c := pc_with_unacked (s32 (pc_unacked c + 1)) c in
  if pc_unacked c >? pc_tryTimes c then Ok (false, c) else
  '(result, c) ← send_fields Msg_KeepAlive_Probe [IString str_keepAlive] c;
  if result =? -1 then Ok (false, c) else Ok (true, c).

(** *** Upcalls of the connection *)

(** [PublishClientHandler::handleInput]: a message of its own in each upcall. *)
Definition pc_handleInput (c : PublishClient) : result (Z * PublishClient) :=
  let c := pc_with_unacked 0 c in
  sk ← stream_of c;
  '(result, m, sk) ← parse Msg_new sk;
  let c := pc_with_handler (Some sk) c in
  if result =? -1 then Ok (-1, c)
  else if result =? 1 then Ok (-1, c)
  else
    _ ← assert_ (result =? 0);
    if negb (m_type m =? Msg_KeepAlive_ACK) then Ok (-1, c) else Ok (0, c).

(** [PublishClientHandler::handleClose], with the destructor. *)
Definition pc_handleClose (c : PublishClient) : PublishClient := pc_with_handler None (setConnectionError true c).

(** *** Connecting *)

Definition pc_connect (c : PublishClient) : result (Z * PublishClient) :=
  match pc_connects c with
  | [] => Fault OutOfFuel
  | Some sk :: rest => Ok (0, pc_with_handler (Some sk) (pc_with_connects rest c))
  | None :: rest => Ok (-1, pc_with_handler None (pc_with_connects rest c))
  end.

(** [registerToBroker]: [return -1] is [true]. *)
Definition registerToBroker (c : PublishClient) : result (bool * PublishClient) :=
  '(result, c) ← send_fields Msg_Publish [IString str_registerPublisher] c;
  if result =? -1 then Ok (false, c) else
  sk ← stream_of c;
  '(result, tmpMsg, sk) ← parse Msg_new sk;
  '(result, tmpMsg, sk, c) ← (if result =? -1 then
    '(result, tmpMsg, sk) ← parse tmpMsg sk;
    Ok (result, tmpMsg, sk, pc_at (pc_now c + 1) c)
  else Ok (result, tmpMsg, sk, c));
  let c := pc_with_handler (Some sk) c in
  if result =? -1 then Ok (true, c) else
  _ ← assert_ (negb (result =? 1));
  _ ← assert_ (result =? 0);
  _ ← assert_ (m_type tmpMsg =? Msg_Publish_OK);
  Ok (true, pc_with_buffering (negb (m_enableBuffering tmpMsg =? 0))
              (pc_with_limits (m_keepAliveTryTimes tmpMsg) (m_keepAliveTimeSpan tmpMsg) c)).

(** [init (brokerIp, port)] up to [activate]; the flag tells whether [svc] runs. *)
Definition pc_init (brokerIp : str) (c : PublishClient) : result (bool * PublishClient) :=
  let c := pc_with_unacked 0 (pc_with_timer false (pc_timer c) (pc_with_broker brokerIp c)) in
  '(r, c) ← pc_connect c;
  if r =? -1 then Ok (false, setConnectionError true c) else
  let c := setConnectionError false c in
  '(_, c) ← registerToBroker c;
  Ok (true, c).

(** The loop of [reestablishConnectionAndPublishFromBuffer], with five seconds
    between attempts. *)
Fixpoint pc_try_connect (attempts : list (option socket)) (c : PublishClient) : result PublishClient :=
  match attempts with
  | [] => Fault OutOfFuel
  | _ :: attempts =>
      '(r, c) ← pc_connect c;
      if r =? 0 then Ok c else pc_try_connect attempts (pc_at (pc_now c + 5) c)
  end.

(** [reestablishConnectionAndPublishFromBuffer] up to [setConnectionError (false)]. *)
Definition reestablishConnection (c : PublishClient) : result PublishClient :=
  _ ← assert_ (pc_error c);
  let c := pc_with_handler None (pc_with_unacked 0 c) in
  c ← pc_try_connect (pc_connects c) c;
  Ok (setConnectionError false c).

(** *** The thread *)

(** What the reactor does in one call of [handleEvents]. *)
Inductive upcall := UNone | UTimer (now : Z) | UInput (now : Z).

(** Where [svc] is: between the operations that hold the mutex. *)
Inductive where_ :=
  | AtOk       (* onConnOk () *)
  | AtFlush    (* if (enableBuffering) publishFromBuffer () *)
  | AtLoop     (* while (!getConnectionError ()) *)
  | AtProbe    (* handleTimeout, before sendKeepAliveProbe () *)
  | AtError    (* onConnError () *)
  | AtConnect  (* reestablishConnectionAndPublishFromBuffer () *)
  | AtReflush  (* its last step *)
  | AtReset.   (* setConnectionError (false) *)

Definition loop_step (u : upcall) (c : PublishClient) : result (where_ * PublishClient) :=
  match u with
  | UNone => Ok (AtLoop, c)
  | UTimer t =>
      let c := pc_at t c in
      match pc_timer c with
      | None => Ok (AtLoop, c)
      | Some _ => if pc_error c then Ok (AtLoop, c) else Ok (AtProbe, c)
      end
  | UInput t =>
      let c := pc_at t c in
      match pc_handler c with
      | None => Ok (AtLoop, c)
      | Some _ =>
          '(r, c) ← pc_handleInput c;
          Ok (AtLoop, if r <? 0 then pc_handleClose c else c)
      end
  end.

Definition svc_step (u : upcall) (p : where_ * PublishClient) : result (where_ * PublishClient) :=
  let '(at_, c) := p in
  match at_ with
  | AtOk => Ok (AtFlush, (enableKeepAlive c).2)
  | AtFlush =>
      if pc_buffering c then '(_, c) ← publishFromBuffer c; Ok (AtLoop, c) else Ok (AtLoop, c)
  | AtLoop => if negb (pc_error c) then loop_step u c else Ok (AtError, c)
  | AtProbe =>
      '(ok, c) ← sendKeepAliveProbe c;
      Ok (AtLoop, if (ok : bool) then c else pc_with_timer (pc_keepAliveEnabled c) None (setConnectionError true c))
  | AtError => Ok (AtConnect, (disableKeepAlive c).2)
  | AtConnect => c ← reestablishConnection c; Ok (AtReflush, c)
  | AtReflush =>
      if pc_buffering c then '(ok, c) ← publishFromBuffer c; Ok (if (ok : bool) then AtReset else AtConnect, c)
      else Ok (AtReset, c)
  | AtReset => Ok (AtOk, setConnectionError false c)
  end.

(** A step of [svc], or a call of [publish] by the application at a time. *)
Inductive action := ASvc (u : upcall) | APublish (t : Z) (os : OutputStream).

Definition act (a : action) (p : where_ * PublishClient) : result (where_ * PublishClient) :=
  match a with
  | ASvc u => svc_step u p
  | APublish t os => '(_, c) ← publish os (pc_at t p.2); Ok (p.1, c)
  end.

Definition pc_run (l : list action) (p : where_ * PublishClient) : result (where_ * PublishClient) := foreach act l p.

End publisher.

(** ** Lemmas *)

Lemma fread_exact a rest buf e : length a = length buf → fread buf (mkFILE (a ++ rest) e) = (a, mkFILE rest e).
Proof.
  intros Hl. unfold fread. cbn [f_rest f_eof]. rewrite length_app. rewrite (take_app_length' a), (drop_app_length' a) by lia.
  rewrite (drop_ge buf) by lia. rewrite (proj2 (Nat.ltb_ge _ _)), orb_false_r, app_nil_r by lia. done.
Qed.

Lemma fread_end buf e : buf ≠ [] → fread buf (mkFILE [] e) = (buf, mkFILE [] true).
Proof.
  intros Hb. unfold fread. cbn [f_rest f_eof length]. rewrite take_nil, drop_nil, drop_0, (proj2 (Nat.ltb_lt _ _)), orb_true_r; [done|].
  destruct buf; [done|cbn; lia].
Qed.

Section buffering.

Context {al : Allocator} {ho : Host} {un : Uninit}.

(** Bytes that pass [check] and fit in a message. *)
Definition publishable (str : list Z) : Prop :=
  ∃ h ty body, str = h ++ [ty] ++ body ∧ length h = 4%nat ∧ 5 + len body ≤ os_limit ∧
    (ty = Msg_Event → ∃ topic more, body = enc_string topic ++ more ∧ string_ok topic ∧ topic ≠ []).

(** What [send] puts on the wire of them: the length is filled in. *)
Definition wire_of (str : list Z) : list Z := be_bytes 4 (len (drop 5 str)) ++ drop 4 str.

Lemma wire_of_frame h ty body : length h = 4%nat → wire_of (h ++ [ty] ++ body) = frame ty body.
Proof.
  intros Hh. unfold wire_of, frame. rewrite (drop_app_length' h _ 4) by done.
  replace 5%nat with (length h + 1)%nat by lia. by rewrite drop_app_add.
Qed.

Lemma publishable_length str : publishable str → 5 ≤ #str ≤ os_limit.
Proof. intros (h & ty & body & -> & Hh & Hl & _). unfold len in Hl. rewrite !length_app, Hh. cbn [length]. lia. Qed.

Lemma publishable_check str : publishable str → check str = Ok tt.
Proof. intros (h & ty & body & -> & Hh & Hl & He). by apply check_ok. Qed.

(** A stream with such bytes. *)
Definition good_stream (os : OutputStream) (str : list Z) : Prop :=
  os_ok os ∧ headed 5 os ∧ os_swap os = little_endian ∧ os_content os = str.

Lemma good_toString os str : good_stream os str → toString os = Ok str.
Proof. intros (Hs & Hh & _ & <-). unfold toString. rewrite toString_ok by (by eapply headed_sendable). done. Qed.

Lemma good_check os str : good_stream os str → publishable str → check_os os = Ok tt.
Proof. intros Hg Hp. unfold check_os. rewrite (good_toString os str), bind_Ok by done. by apply publishable_check. Qed.

Lemma fromString_good str : publishable str → ∃ os, fromString str = Ok os ∧ good_stream os str.
Proof.
  intros Hp. pose proof (publishable_length str Hp) as Hl. unfold os_limit in Hl.
  unfold fromString, OutputStream_data, copied_block, len.
  rewrite (proj2 (Z.eqb_neq _ _)) by lia. rewrite load_slice; [|lia|lia|rewrite length_app; lia].
  assert (slice 0 (0 + #str) (str ++ [0]) = str) as ->.
  { unfold slice. rewrite Z.sub_0_r, Z.add_0_l, Nat2Z.id, drop_0. apply take_app_length. }
  rewrite !bind_Ok. set (b := mkBlock str (#str) 0 0 (#str)).
  eexists. split; [reflexivity|]. set (os := OutputStream.with_cur _ _).
  assert (os_chain os = [b]) as Hch by reflexivity.
  assert (b_content b = str) as Hb by apply slice_full.
  assert (block_ok b) as Hbo by (split; unfold b_capacity; cbn [b b_rd b_wr b_data b_size]; lia).
  assert (str ≠ []) as Hne by (intros ->; cbn in Hl; lia).
  split; [|split; [|split; [done|]]].
  - split; try done. rewrite Hch. by constructor.
  - split; rewrite Hch; [constructor; [by rewrite Hb|done]|]. exists b, []. split; [done|]. rewrite Hb. lia.
  - unfold os_content. rewrite Hch. cbn. by rewrite Hb, app_nil_r.
Qed.

Lemma send_os_ok os str c sk :
  good_stream os str → publishable str → pc_handler c = Some sk → sk_out sk = [] →
  ∃ os' sk', send_os os c = Ok (0, os', pc_with_handler (Some sk') c) ∧ sk_out sk' = [] ∧ sk_sent sk' = sk_sent sk ++ wire_of str.
Proof.
  intros (Hs & Hh & Hsw & Hc) Hp Hk Ho. pose proof (publishable_length str Hp) as Hl.
  destruct Hp as (h & ty & body & -> & Hlh & Hlen & He).
  destruct (send_msg_ok os h ty body sk) as (os' & sk' & E & Hsent); try done; [unfold os_len; rewrite Hc; lia|].
  exists os', sk'. unfold send_os, stream_of. rewrite Hk, bind_Ok, E, bind_Ok, wire_of_frame by done. split_and!; try done.
  unfold send_msg in E. inv_ok. destruct x2. inv_ok. match goal with H : send_loop _ _ = Ok _ |- _ => apply send_loop_keeps in H as [_ H] end. auto.
Qed.

(** *** The file *)

Definition file_of (es : list (Z * list Z)) : list Z := mjoin ((λ e, entry e.1 e.2) <$> es).

Definition entry_fine (e : Z * list Z) : Prop := 0 < e.1 < 2 ^ 63 ∧ publishable e.2.

(** The messages that have not expired. *)
Definition fresh (now : Z) (es : list (Z * list Z)) : list (list Z) :=
  snd <$> filter (λ e, now - e.1 ≤ bufferExpireTime) es.

Lemma fresh_cons now t str es :
  fresh now ((t, str) :: es) = (if decide (now - t ≤ bufferExpireTime) then [str] else []) ++ fresh now es.
Proof. unfold fresh. rewrite filter_cons. cbn [fst]. by destruct (decide _). Qed.

(** Reading the time of the next message. *)
Definition next_time (bytes : list Z) : list Z * FILE := fread (native 8 0) (mkFILE bytes false).

Lemma next_time_end : next_time [] = (native 8 0, mkFILE [] true).
Proof. apply fread_end. intros E. by apply (f_equal length) in E; rewrite length_native in E. Qed.

Lemma next_time_entry t str es :
  next_time (file_of ((t, str) :: es)) = (native 8 t, mkFILE (native 4 (s32 (len str)) ++ str ++ file_of es) false).
Proof.
  unfold next_time, file_of. rewrite fmap_cons, mjoin_cons. unfold entry. cbn [fst snd]. rewrite <- !app_assoc.
  apply fread_exact. by rewrite !length_native.
Qed.

(** One iteration that goes on. *)
Lemma flush_iteration fuel t str es c :
  0 < t < 2 ^ 63 → publishable str →
  flush_loop (S fuel) t (mkFILE (native 4 (s32 (len str)) ++ str ++ file_of es) false) c =
    '(go, c) ← (if s64 (pc_now c - t) <=? bufferExpireTime then
      os ← fromString str;
      _ ← check_os os;
      '(r, _, c) ← send_os os c;
      Ok (if r =? -1 then (false, setConnectionError true c) else (true, c))
    else Ok (true, c));
    if (go : bool) then let '(tm, f) := next_time (file_of es) in flush_loop fuel (signed 64 tm) f c else Ok c.
Proof.
  intros Ht Hp. pose proof (publishable_length str Hp) as Hl. unfold os_limit in Hl. cbn [flush_loop f_eof negb].
  rewrite (proj2 (Z.eqb_neq t 0)) by lia. cbn [negb andb].
  rewrite fread_exact by (by rewrite !length_native). cbv zeta iota.
  unfold len. rewrite (swrap_small 32 (#str)) by (unfold in_s; lia). change 32 with (8 * Z.of_nat 4).
  rewrite (signed_native 4) by (unfold in_s; lia). rewrite Z.gtb_ltb, (proj2 (Z.ltb_lt _ _)) by lia. cbn [assert_]. rewrite bind_Ok.
  rewrite fread_exact by (rewrite length_replicate; lia). done.
Qed.

Lemma flush_ok es : ∀ fuel c sk,
  Forall entry_fine es → (length es < fuel)%nat → 0 ≤ pc_now c < 2 ^ 63 → pc_handler c = Some sk → sk_out sk = [] →
  ∃ sk', (let '(tm, f) := next_time (file_of es) in flush_loop fuel (signed 64 tm) f c) = Ok (pc_with_handler (Some sk') c) ∧
    sk_out sk' = [] ∧ sk_sent sk' = sk_sent sk ++ mjoin (wire_of <$> fresh (pc_now c) es).
Proof.
  induction es as [|[t str] es IH]; intros [|fuel] c sk Hes Hf Hn Hh Ho; try (cbn in Hf; lia).
  - change (file_of []) with (@nil Z). rewrite next_time_end. cbn [flush_loop f_eof negb andb]. exists sk.
    cbn. rewrite app_nil_r. split_and!; try done. destruct c. cbn in Hh. by subst.
  - apply Forall_cons in Hes as [[Ht Hp] Hes]. cbn [fst snd] in Ht, Hp. rewrite next_time_entry.
    rewrite (signed_native 8) by (unfold in_s; lia). rewrite flush_iteration, fresh_cons by done.
    rewrite (swrap_small 64) by (unfold in_s; lia). cbn [length] in Hf.
    destruct (decide (pc_now c - t ≤ bufferExpireTime)) as [Hd|Hd].
    + rewrite (proj2 (Z.leb_le _ _)) by done. destruct (fromString_good str Hp) as (os & -> & Hg). rewrite bind_Ok, (good_check os str), bind_Ok by done.
      destruct (send_os_ok os str c sk Hg Hp Hh Ho) as (os' & sk1 & -> & Ho1 & Hs1). rewrite !bind_Ok. cbn [Z.eqb].
      destruct (IH fuel (pc_with_handler (Some sk1) c) sk1) as (sk' & E & Ho' & Hs'); try done; [lia|].
      exists sk'. split_and!; [exact E|done|]. by rewrite Hs', Hs1, <- app_assoc.
    + rewrite (proj2 (Z.leb_gt _ _)) by lia. rewrite bind_Ok.
      destruct (IH fuel c sk) as (sk' & E & Ho' & Hs'); try done; [lia|]. by exists sk'.
Qed.

Lemma length_file_of es : (length es ≤ length (file_of es))%nat.
Proof.
  induction es as [|[t str] es IH]; [done|]. unfold file_of in *. rewrite fmap_cons, mjoin_cons, length_app. unfold entry at 1.
  rewrite length_app, length_native. cbn [length]. lia.
Qed.

Lemma publishFromBuffer_ok es c sk :
  pc_error c = false → default [] (pc_file c) = file_of es → pc_writable c = true → Forall entry_fine es →
  0 ≤ pc_now c < 2 ^ 63 → pc_handler c = Some sk → sk_out sk = [] →
  ∃ f sk', publishFromBuffer c = Ok (true, pc_with_file f (pc_with_handler (Some sk') c)) ∧ default [] f = [] ∧
    sk_out sk' = [] ∧ sk_sent sk' = sk_sent sk ++ mjoin (wire_of <$> fresh (pc_now c) es).
Proof.
  intros He Hf Hw Hes Hn Hh Ho. unfold publishFromBuffer. rewrite He. destruct (pc_file c) as [bytes|] eqn:Ef; cbn [default] in Hf.
  - destruct (flush_ok es (S (length (file_of es))) c sk) as (sk' & E & Ho' & Hs'); try done; [pose proof (length_file_of es); lia|].
    cbn in Hf. subst bytes. unfold next_time in E. destruct (fread _ _) as [tm f]. rewrite E, bind_Ok. unfold clearBufferFile_i.
    cbn [pc_writable pc_with_handler]. rewrite Hw. cbn [negb]. rewrite bind_Ok. by exists (Some []), sk'.
  - pose proof (length_file_of es) as Hl. rewrite <- Hf in Hl. destruct es; [|cbn in Hl; lia].
    exists None, sk. cbn. rewrite app_nil_r. split_and!; try done. destruct c. cbn in Ef, Hh. by subst.
Qed.

(** *** An outage *)

(** The client cannot reach the broker; [es] are the messages in the file. *)
Record offline (c : PublishClient) (es : list (Z * list Z)) : Prop := mkOffline {
  off_error : pc_error c = true;
  off_buffering : pc_buffering c = true;
  off_writable : pc_writable c = true;
  off_broker : pc_brokerIp c ≠ [];
  off_file : default [] (pc_file c) = file_of es;
  off_fine : Forall entry_fine es }.

Lemma file_of_app es es' : file_of (es ++ es') = file_of es ++ file_of es'.
Proof. unfold file_of. rewrite fmap_app. apply join_app. Qed.

Lemma offline_publish c es t os :
  offline c es → 0 < t < 2 ^ 63 → good_stream os (os_content os) → publishable (os_content os) →
  ∃ f, publish os (pc_at t c) = Ok (-1, pc_with_file f (pc_at t c)) ∧ offline (pc_with_file f (pc_at t c)) (es ++ [(t, os_content os)]).
Proof.
  intros [He Hb Hw Hbr Hf Hes] Ht Hg Hp. unfold publish. cbn [pc_at pc_brokerIp pc_error]. rewrite bool_decide_eq_false_2 by done. cbn [negb assert_].
  rewrite bind_Ok, (good_check os _ Hg Hp), bind_Ok, He. cbn [negb]. rewrite bind_Ok. cbn [pc_at pc_buffering pc_error]. rewrite Hb, He. cbn [andb].
  unfold publishToBuffer_i. cbn [pc_at pc_writable pc_file pc_now]. rewrite Hw. cbn [negb]. rewrite (good_toString os _ Hg), bind_Ok.
  rewrite publishable_check, bind_Ok by done. eexists. split; [done|]. split; try done.
  - cbn. rewrite file_of_app, <- Hf. unfold file_of. cbn. by rewrite app_nil_r.
  - apply Forall_app. split; [done|]. by apply Forall_singleton.
Qed.

(** What a sequence of actions publishes, its steps of [svc], and the time of the last call. *)
Definition publishes (a : action) : list (Z * list Z) :=
  match a with APublish t os => [(t, os_content os)] | ASvc _ => [] end.
Definition svc_count (l : list action) : nat := length (filter (λ a, publishes a = []) l).
Definition clock (t0 : Z) (l : list action) : Z := foldl (λ t a, match a with APublish t' _ => t' | ASvc _ => t end) t0 l.
Definition good_action (a : action) : Prop :=
  match a with
  | APublish t os => 0 < t < 2 ^ 63 ∧ good_stream os (os_content os) ∧ publishable (os_content os)
  | ASvc _ => True
  end.

(** The steps of [svc] from the error to the attempts to connect. *)
Definition before_connect (at_ : where_) (n : nat) : Prop :=
  match at_ with AtLoop => n = 2%nat | AtError => n = 1%nat | AtConnect => n = 0%nat | _ => False end.

Lemma outage_run l : ∀ at_ c es,
  before_connect at_ (svc_count l) → offline c es → Forall good_action l → (at_ = AtConnect → pc_keepAliveEnabled c = false) →
  ∃ c', pc_run l (at_, c) = Ok (AtConnect, c') ∧ offline c' (es ++ mjoin (publishes <$> l)) ∧ pc_connects c' = pc_connects c ∧
    pc_now c' = clock (pc_now c) l ∧ pc_keepAliveEnabled c' = false ∧ pc_subSpan c' = pc_subSpan c.
Proof.
  induction l as [|a l IH]; intros at_ c es Hb Hoff Hl Hk.
  - destruct at_; try done. exists c. cbn. rewrite app_nil_r. by split_and!; auto.
  - apply Forall_cons in Hl as [Ha Hl]. unfold pc_run in *. cbn [foreach]. destruct a as [u|t os]; cbn [act].
    + change (svc_count (ASvc u :: l)) with (S (svc_count l)) in Hb.
      assert (∃ at2 c2, svc_step u (at_, c) = Ok (at2, c2) ∧ before_connect at2 (svc_count l) ∧ offline c2 es ∧ pc_connects c2 = pc_connects c ∧
        pc_now c2 = pc_now c ∧ (at2 = AtConnect → pc_keepAliveEnabled c2 = false) ∧ pc_subSpan c2 = pc_subSpan c)
        as (at2 & c2 & -> & Hb2 & Hoff2 & Hc2 & Hn2 & Hk2 & Hs2).
      { destruct at_; try done; cbn [before_connect] in Hb.
        - cbn [svc_step]. rewrite (off_error _ _ Hoff). exists AtError, c. cbn [before_connect]. split_and!; try done. lia.
        - exists AtConnect, (disableKeepAlive c).2. cbn [before_connect svc_step]. split_and!; try done; [lia|]. by destruct Hoff. }
      rewrite bind_Ok. destruct (IH at2 c2 es) as (c' & -> & Hoff' & Hc' & Hn' & Hk' & Hs'); try done.
      exists c'. cbn [fmap list_fmap mjoin list_join publishes app clock foldl]. rewrite <- Hn2. split_and!; try done; congruence.
    + destruct Ha as (Ht & Hg & Hp). destruct (offline_publish c es t os Hoff Ht Hg Hp) as (f & E & Hoff2). cbn [snd fst].
      rewrite E, !bind_Ok. change (svc_count (APublish t os :: l)) with (svc_count l) in Hb.
      destruct (IH at_ (pc_with_file f (pc_at t c)) (es ++ [(t, os_content os)])) as (c' & -> & Hoff' & Hc' & Hn' & Hk' & Hs'); try done.
      exists c'. cbn [fmap list_fmap mjoin list_join publishes]. rewrite <- app_assoc in Hoff'. split_and!; try done.
Qed.

Lemma pc_try_connect_ok k : ∀ c sk rest, pc_connects c = replicate k None ++ Some sk :: rest →
  pc_try_connect (pc_connects c) c = Ok (pc_with_handler (Some sk) (pc_with_connects rest (pc_at (pc_now c + 5 * Z.of_nat k) c))).
Proof.
  induction k as [|k IH]; intros c sk rest Hc; rewrite Hc; cbn [replicate app pc_try_connect]; unfold pc_connect; rewrite Hc; cbn [replicate app]; rewrite bind_Ok; cbn [Z.eqb].
  - rewrite Z.mul_0_r, Z.add_0_r. by destruct c.
  - set (c1 := pc_at _ _). change (replicate k None ++ Some sk :: rest) with (pc_connects c1). rewrite (IH c1 sk rest) by done.
    replace (pc_now c + 5 * Z.of_nat (S k)) with (pc_now c1 + 5 * Z.of_nat k) by (unfold c1; cbn; lia). done.
Qed.

End buffering.

(** ** Properties *)


(** A message an application builds. *)
Lemma composed_good {al : Allocator} {ho : Host} {un : Uninit} ct size os :
  content_ok ct → 5 + len (body_of ct) ≤ os_limit → 5 ≤ size < 2 ^ 61 ∨ size = 0 → compose ct size = Ok os →
  good_stream os (os_content os) ∧ publishable (os_content os) ∧ wire_of (os_content os) = frame_of ct.
Proof.
  intros Hc Hlim Hsize E. destruct (compose_ok ct size Hc Hlim Hsize) as (os1 & E1 & Hs & Hh & Hsw & Hcont). rewrite E in E1. inv_ok.
  split_and!; [done| |by rewrite Hcont, wire_of_frame].
  exists (be_bytes 4 0), (c_type ct), (body_of ct). split_and!; try done. intros Hev.
  destruct Hc as (_ & Hitems & Htop & _). unfold body_of, content_items in *.
  apply Forall_cons_1 in Hitems as [Htopic _]. rewrite fmap_cons, mjoin_cons, <- app_assoc.
  eexists (c_topic ct), _. split; [done|]. split; [exact Htopic|by apply Htop].
Qed.

Definition demo_os : OutputStream :=
  match @compose zero_memory host_le sample_event 0 with Ok os => os | Fault _ => mkOS [] sample_block [] true true true end.

Lemma demo_os_good :
  @good_stream host_le demo_os (os_content demo_os) ∧ publishable (os_content demo_os) ∧ wire_of (os_content demo_os) = @frame_of host_le sample_event.
Proof.
  apply (@composed_good zero_memory host_le uninit_7 sample_event 0 demo_os sample_event_ok).
  - vm_compute. discriminate.
  - by right.
  - vm_compute. reflexivity.
Qed.

(** A client that has lost its connection, and two attempts to connect. *)
Definition demo_offline : PublishClient :=
  mkPC None true true 1 3 10 true [49] 3 10 (Some 10) 900 None true [None; Some (mkSocket [] [] [] [] 0)].

Lemma demo_offline_offline : @offline host_le demo_offline [].
Proof. by split. Qed.


(** *** Nothing stays behind *)

Section draining.

Context {al : Allocator} {ho : Host} {un : Uninit}.

(** While [svc] waits on a good connection, the file is empty. *)
Definition drained (p : where_ * PublishClient) : Prop :=
  pc_buffering p.2 = true ∧ ((p.1 = AtLoop ∨ p.1 = AtProbe) → pc_error p.2 = false → default [] (pc_file p.2) = []).

(** Operations that leave the file and the setting. *)
Definition same_buffer (c c' : PublishClient) : Prop := pc_file c' = pc_file c ∧ pc_buffering c' = pc_buffering c.

Lemma send_os_buffer os c r os' c' : send_os os c = Ok (r, os', c') → same_buffer c c' ∧ pc_error c' = pc_error c.
Proof. unfold send_os. intros Hs. inv_ok. destruct x0 as [[? ?] ?]. by inv_ok. Qed.

Lemma send_fields_buffer ty fs c r c' : send_fields ty fs c = Ok (r, c') → same_buffer c c' ∧ pc_error c' = pc_error c.
Proof. unfold send_fields. intros Hs. inv_ok. destruct x0 as [? ?]. by inv_ok. Qed.

Lemma flush_loop_buffer fuel : ∀ t f c c', flush_loop fuel t f c = Ok c' → same_buffer c c'.
Proof.
  induction fuel as [|fuel IH]; intros t f c c' Hf; cbn [flush_loop] in Hf; [done|].
  destruct (negb _ && negb _); [|by inv_ok].
  destruct (fread (native 4 0) f) as [sz f1]. apply bind_inv in Hf as (_ & _ & Hf).
  destruct (fread (replicate _ _) f1) as [data f2]. apply bind_inv in Hf as ([go c1] & E & Hf).
  assert (same_buffer c c1) as [H1 H2].
  { destruct (_ <=? _); [|by inv_ok]. apply bind_inv in E as (os & _ & E). apply bind_inv in E as (_ & _ & E).
    apply bind_inv in E as ([[r os'] c2] & E2 & E). apply send_os_buffer in E2 as [E2 _]. destruct (r =? -1); inv_ok; done. }
  destruct go; [|by inv_ok; split; congruence]. destruct (fread (native 8 0) f2) as [tm f3]. apply IH in Hf as [H3 H4]. split; congruence.
Qed.

Lemma publishFromBuffer_buffer c ok c' :
  publishFromBuffer c = Ok (ok, c') → pc_buffering c' = pc_buffering c ∧ (pc_error c' = false → default [] (pc_file c') = []).
Proof.
  unfold publishFromBuffer. intros Hp. destruct (pc_error c) eqn:He; [inv_ok; split; congruence|].
  destruct (pc_file c) as [bytes|] eqn:Ef; [|by inv_ok; rewrite Ef].
  destruct (fread _ _) as [tm f]. apply bind_inv in Hp as (c1 & E1 & Hp). apply bind_inv in Hp as (c2 & E2 & Hp). inv_ok.
  apply flush_loop_buffer in E1 as [_ E1]. unfold clearBufferFile_i in E2. destruct (negb _); inv_ok. done.
Qed.

Lemma publish_buffer os c r c' :
  publish os c = Ok (r, c') → pc_buffering c' = pc_buffering c ∧ (pc_error c' = false → pc_error c = false ∧ pc_file c' = pc_file c).
Proof.
  unfold publish. intros Hp. apply bind_inv in Hp as (_ & _ & Hp). apply bind_inv in Hp as (_ & _ & Hp). apply bind_inv in Hp as ([os1 c1] & E & Hp).
  assert (same_buffer c c1 ∧ (pc_error c1 = false → pc_error c = false)) as [[H1 H2] H3].
  { destruct (pc_error c) eqn:He; cbn [negb] in E; [inv_ok; split; [done|congruence]|].
    apply bind_inv in E as ([[r1 os2] c2] & E2 & E). apply send_os_buffer in E2 as [[] _]. by destruct (r1 =? -1); inv_ok. }
  destruct (pc_buffering c1 && pc_error c1) eqn:Eb.
  - apply andb_true_iff in Eb as [_ He]. apply bind_inv in Hp as ([r2 c2] & E2 & Hp). clear E. inv_ok. unfold publishToBuffer_i in E2.
    destruct (negb _); inv_ok; (split; [exact H2|cbn; congruence]).
  - inv_ok. split; [done|]. intros He. split; auto.
Qed.

Lemma pc_handleInput_buffer c r c' : pc_handleInput c = Ok (r, c') → same_buffer c c' ∧ pc_error c' = pc_error c.
Proof.
  unfold pc_handleInput. intros Hp. apply bind_inv in Hp as (sk & _ & Hp). apply bind_inv in Hp as ([[r1 m] sk1] & _ & Hp).
  destruct (r1 =? -1); [by inv_ok|]. destruct (r1 =? 1); [by inv_ok|]. apply bind_inv in Hp as (_ & _ & Hp). destruct (negb _); by inv_ok.
Qed.

Lemma pc_try_connect_buffer att : ∀ c c', pc_try_connect att c = Ok c' → same_buffer c c'.
Proof.
  induction att as [|a att IH]; intros c c' Hc; cbn [pc_try_connect] in Hc; [done|].
  apply bind_inv in Hc as ([r c1] & E & Hc). assert (same_buffer c c1) as [H1 H2].
  { unfold pc_connect in E. destruct (pc_connects c) as [|[sk|] rest]; by inv_ok. }
  destruct (r =? 0); [by inv_ok|]. apply IH in Hc as [H3 H4]. split; [rewrite H3|rewrite H4]; done.
Qed.

Lemma enableKeepAlive_buffer c : same_buffer c (enableKeepAlive c).2.
Proof. unfold enableKeepAlive. by destruct (pc_keepAliveEnabled _). Qed.

Lemma loop_step_drained u c p' :
  drained (AtLoop, c) → pc_error c = false → loop_step u c = Ok p' → drained p'.
Proof.
  intros [Hb Hd] He Hs. cbn [fst snd] in *. specialize (Hd (or_introl eq_refl) He). unfold loop_step in Hs. destruct u as [|t|t].
  - by inv_ok.
  - cbn [pc_at pc_timer pc_error] in Hs. destruct (pc_timer c); [destruct (pc_error c)|]; by inv_ok.
  - cbn [pc_at pc_handler] in Hs. destruct (pc_handler c); [|by inv_ok].
    apply bind_inv in Hs as ([r c1] & E & Hs). apply pc_handleInput_buffer in E as [[E1 E2] _]. cbn in E1, E2.
    inv_ok. destruct (r <? 0); split; cbn; congruence.
Qed.

Lemma svc_step_drained u p p' : drained p → svc_step u p = Ok p' → drained p'.
Proof.
  destruct p as [at_ c]. intros [Hb Hd] Hs. cbn [fst snd] in *. destruct at_; cbn [svc_step] in Hs.
  - inv_ok. split; [|by intros [|]]. cbn. destruct (enableKeepAlive_buffer c) as [_ ->]. done.
  - rewrite Hb in Hs. apply bind_inv in Hs as ([ok c1] & E & Hs). inv_ok. apply publishFromBuffer_buffer in E as [E1 E2]. split; [by cbn; rewrite E1|auto].
  - destruct (pc_error c) eqn:He; cbn [negb] in Hs; [inv_ok; split; [done|by intros [|]]|].
    apply (loop_step_drained u c); [split; [exact Hb|intros _ _; apply Hd; [by left|done]]|exact He|exact Hs].
  - apply bind_inv in Hs as ([ok c1] & E & Hs). inv_ok. unfold sendKeepAliveProbe in E. apply bind_inv in E as (? & Ea & E).
    apply assert_inv in Ea. apply negb_true_iff in Ea. specialize (Hd (or_intror eq_refl) Ea).
    assert (same_buffer c c1) as [H1 H2].
    { destruct (_ >? _); [by inv_ok|]. apply bind_inv in E as ([r c2] & E2 & E). apply send_fields_buffer in E2 as [E2 _]. by destruct (r =? -1); inv_ok. }
    destruct ok; split; cbn; congruence.
  - inv_ok. split; [done|by intros [|]].
  - apply bind_inv in Hs as (c1 & E & Hs). inv_ok. split; [|by intros [|]]. unfold reestablishConnection in E.
    apply bind_inv in E as (_ & _ & E). apply bind_inv in E as (c2 & E2 & E). inv_ok. apply pc_try_connect_buffer in E2 as [_ E2]. cbn in *. congruence.
  - rewrite Hb in Hs. apply bind_inv in Hs as ([ok c1] & E & Hs). inv_ok. apply publishFromBuffer_buffer in E as [E1 _].
    split; [by cbn; rewrite E1|]. by destruct ok; intros [|].
  - inv_ok. split; [done|by intros [|]].
Qed.

Lemma act_drained a p p' : drained p → act a p = Ok p' → drained p'.
Proof.
  intros Hd Ha. destruct a as [u|t os]; cbn [act] in Ha; [by eapply svc_step_drained|].
  apply bind_inv in Ha as ([r c] & E & Ha). inv_ok. apply publish_buffer in E as [E1 E2]. destruct Hd as [Hb Hd].
  split; cbn in *; [congruence|]. intros Hw He. destruct (E2 He) as [E3 ->]. auto.
Qed.

End draining.

(** C12: Nothing is left in the file while the connection is good.  Whatever the
    interleaving of [svc], from its first step, with calls of [publish], however
    connections and sends fail and whatever was in the file: whenever [svc] waits
    for events and no error is pending, the file has no message. *)
Theorem buffer_drained {al : Allocator} {ho : Host} {un : Uninit} l c at_ c' :
  pc_buffering c = true → pc_run l (AtOk, c) = Ok (at_, c') →
  (at_ = AtLoop ∨ at_ = AtProbe) → pc_error c' = false → default [] (pc_file c') = [].
Proof.
  intros Hb Hr. assert (drained (at_, c')) as [_ Hd]; [|exact Hd].
  eapply (foreach_inv act drained); [exact act_drained| |exact Hr]. split; [done|by intros [|]].
Qed.

(** The client of [demo_offline] with a connection whose first send fails. *)
Definition demo_failing : PublishClient :=
  mkPC (Some (mkSocket [] [] [Rejects 32] [] 0)) false false 0 3 10 true [49] 3 10 None 900 (Some [1; 2; 3]) true [Some (mkSocket [] [] [] [] 0)].

Definition demo_actions : list action :=
  ASvc UNone :: ASvc UNone :: APublish 1000 demo_os :: (ASvc <$> [UNone; UNone; UNone; UNone; UNone; UNone; UNone; UTimer 1010]).

Lemma buffer_drained_witness :
  ∃ c', @pc_run zero_memory host_le uninit_7 demo_actions (AtOk, demo_failing) = Ok (AtProbe, c') ∧ default [] (pc_file c') = [].
Proof.
  destruct (@pc_run zero_memory host_le uninit_7 demo_actions (AtOk, demo_failing)) as [[at_ c']|e] eqn:E; [|exfalso; vm_compute in E; discriminate].
  exists c'. assert (at_ = AtProbe ∧ pc_error c' = false) as [-> He] by (vm_compute in E; inv_ok; done). split; [done|].
  apply (@buffer_drained zero_memory host_le uninit_7 demo_actions demo_failing AtProbe c'); [reflexivity|exact E|by right|exact He].
Defined.

(** *** Where the code does less *)

Section losses.

Context {al : Allocator} {ho : Host} {un : Uninit}.

(** A send that the kernel refuses. *)
Lemma send_os_refused os str c sk e out :
  good_stream os str → publishable str → pc_handler c = Some sk → sk_out sk = Rejects e :: out →
  ∃ os' sk', send_os os c = Ok (-1, os', pc_with_handler (Some sk') c) ∧ sk_sent sk' = sk_sent sk.
Proof.
  intros (Hs & Hh & Hsw & Hc) Hp Hk Ho. pose proof (publishable_length str Hp) as Hl. pose proof (publishable_check str Hp) as Hck.
  destruct Hp as (h & ty & body & -> & Hlh & Hlen & He).
  unfold send_os, stream_of, send_msg, toString. rewrite Hk, bind_Ok, toString_ok by (by eapply headed_sendable).
  fold (os_content os). rewrite Hc, bind_Ok, Hck, bind_Ok. unfold MSG_HEADER_LEN, MESSAGE_SIZE_OFFSET.
  destruct (patch_length_ok os (h ++ [ty]) body Hs Hh Hsw) as (os' & -> & Hsend & Hcont);
    [unfold os_len; rewrite Hc; lia|by rewrite Hc, app_assoc|by rewrite length_app, Hlh|].
  rewrite bind_Ok, os_chain_first in *. apply Forall_cons in Hsend as [[Hb Hne] _]. cbn [send_loop].
  rewrite block_nonempty by done. cbn [assert_]. rewrite bind_Ok, load_block, bind_Ok by done. unfold send. rewrite Ho.
  cbn. by eexists _, _.
Qed.

(** When the first message of the file cannot be sent, the whole file is gone:
    [publishFromBuffer] clears it and reports success. *)
Lemma failed_flush_loses t str es c sk e out :
  pc_error c = false → pc_file c = Some (file_of ((t, str) :: es)) → pc_writable c = true → entry_fine (t, str) →
  0 ≤ pc_now c < 2 ^ 63 → pc_now c - t ≤ bufferExpireTime → pc_handler c = Some sk → sk_out sk = Rejects e :: out →
  ∃ c' sk', publishFromBuffer c = Ok (true, c') ∧ pc_file c' = Some [] ∧ pc_error c' = true ∧
    pc_handler c' = Some sk' ∧ sk_sent sk' = sk_sent sk.
Proof.
  intros He Hf Hw [Ht Hp] Hn Hx Hh Ho. cbn [fst snd] in *. unfold publishFromBuffer. rewrite He, Hf.
  fold (next_time (file_of ((t, str) :: es))). rewrite next_time_entry. rewrite (signed_native 8) by (unfold in_s; lia).
  rewrite flush_iteration by done. rewrite (swrap_small 64), (proj2 (Z.leb_le _ _)) by (done || unfold in_s; lia).
  destruct (fromString_good str Hp) as (os & -> & Hg). rewrite bind_Ok, (good_check os str), bind_Ok by done.
  destruct (send_os_refused os str c sk e out Hg Hp Hh Ho) as (os' & sk' & -> & Hs'). rewrite !bind_Ok. cbn [Z.eqb Pos.eqb].
  rewrite bind_Ok. unfold clearBufferFile_i. cbn [pc_writable setConnectionError pc_with_handler]. rewrite Hw. cbn [negb]. rewrite bind_Ok.
  eexists _, sk'. split; [reflexivity|]. done.
Qed.

(** And the error it left pending is forgotten by the next step of [svc]. *)
Lemma flush_error_forgotten u c : ∃ c', svc_step u (AtReset, c) = Ok (AtOk, c') ∧ pc_error c' = false ∧ pc_handler c' = pc_handler c.
Proof. by eexists. Qed.

(** A message published between the connection and the flush goes out first:
    before those that were published earlier. *)
Lemma publish_overtakes u t os es c sk :
  pc_error c = false → pc_buffering c = true → pc_writable c = true → pc_brokerIp c ≠ [] → default [] (pc_file c) = file_of es →
  Forall entry_fine es → 0 ≤ t < 2 ^ 63 → pc_handler c = Some sk → sk_out sk = [] →
  good_stream os (os_content os) → publishable (os_content os) →
  ∃ c' sk', pc_run [APublish t os; ASvc u] (AtReflush, c) = Ok (AtReset, c') ∧ pc_handler c' = Some sk' ∧
    sk_sent sk' = sk_sent sk ++ wire_of (os_content os) ++ mjoin (wire_of <$> fresh t es).
Proof.
  intros He Hb Hw Hbr Hf Hes Ht Hh Ho Hg Hp. unfold pc_run. cbn [foreach act fst snd]. unfold publish.
  cbn [pc_at pc_brokerIp pc_error]. rewrite bool_decide_eq_false_2 by done. cbn [negb assert_]. rewrite bind_Ok, (good_check os _ Hg Hp), bind_Ok, He.
  cbn [negb]. destruct (send_os_ok os _ (pc_at t c) sk Hg Hp Hh Ho) as (os' & sk1 & -> & Ho1 & Hs1). rewrite !bind_Ok. cbn [Z.eqb].
  set (c1 := pc_with_handler (Some sk1) (pc_at t c)). change (pc_error c1) with (pc_error c). rewrite He, andb_false_r, !bind_Ok. cbn [svc_step].
  change (pc_buffering c1) with (pc_buffering c). rewrite Hb.
  destruct (publishFromBuffer_ok es c1 sk1) as (f & sk2 & -> & _ & _ & Hs2); try done.
  rewrite !bind_Ok. eexists _, sk2. split; [reflexivity|]. split; [done|]. rewrite Hs2, Hs1, <- app_assoc. done.
Qed.

(** The timer's upcall looks at the error and sends the probe in two steps: a
    [publish] between them whose send fails makes the assertion fail. *)
Lemma probe_races_publish u t os c sk e out :
  pc_error c = false → pc_buffering c = false → pc_brokerIp c ≠ [] → pc_handler c = Some sk → sk_out sk = Rejects e :: out →
  good_stream os (os_content os) → publishable (os_content os) →
  pc_run [APublish t os; ASvc u] (AtProbe, c) = Fault AssertFailed.
Proof.
  intros He Hb Hbr Hh Ho Hg Hp. unfold pc_run. cbn [foreach act fst snd]. unfold publish.
  cbn [pc_at pc_brokerIp pc_error]. rewrite bool_decide_eq_false_2 by done. cbn [negb assert_]. rewrite bind_Ok, (good_check os _ Hg Hp), bind_Ok, He.
  cbn [negb]. destruct (send_os_refused os _ (pc_at t c) sk e out Hg Hp Hh Ho) as (os' & sk1 & -> & Hs1). rewrite !bind_Ok. cbn [Z.eqb Pos.eqb].
  cbn [setConnectionError pc_with_handler pc_at pc_buffering]. rewrite Hb. done.
Qed.

(** Without buffering, what is published during an outage is dropped, and
    [publish] returns 0 as after a send. *)
Lemma unbuffered_dropped os c :
  pc_error c = true → pc_buffering c = false → pc_brokerIp c ≠ [] → good_stream os (os_content os) → publishable (os_content os) →
  publish os c = Ok (0, c).
Proof.
  intros He Hb Hbr Hg Hp. unfold publish. rewrite bool_decide_eq_false_2 by done. cbn [negb assert_]. rewrite bind_Ok, (good_check os _ Hg Hp), bind_Ok, He.
  cbn [negb]. rewrite bind_Ok, Hb. done.
Qed.

End losses.
